(* ===== verification/_CoqProject ===== *)
-Q . S2P
Prelude.v
Mem.v
CStr.v
BridgeBase.v
BridgeAbi.v
BridgeConfig.v
BridgeEnv.v
BridgeQuery.v
BridgeQuerySpec.v
BridgeHandlers.v
BridgeRules.v
BridgeRulesSpec.v
BridgeOnce.v
BridgeIoctl.v
DeviceTree.v
Enabler.v
EnablerSpec.v
EnablerAttach.v
Pmds.v
EnablerInit.v
EnablerExamples.v
IossUtils.v
RtlLib.v
RtlLibSpec.v
RtlLibInv.v
RtlLibOps.v
RtlLibRss.v
RtlLibThms.v
RtlExamples.v
R8125Access.v
R8125AccessSpec.v
R8125AccessThms.v
R8125AccessExamples.v
R8125Fw.v
R8125FwSpec.v
R8125FwThms.v
R8125FwExamples.v
IossData.v
IossOf.v
IossOfSpec.v
IossBus.v
IossBusSpec.v
IossPm.v
IossMain.v
IossMainSpec.v
R8125Ioss.v
IossLaws.v
R8125Spec.v
IossMem.v
IossNet.v
IossNetSpec.v
IossRefresh.v
IossWatch.v
IossWatchSpec.v
IossStats.v
IossStatsSpec.v
R8125Stats.v
R8125StatsSpec.v
R8125Tx.v
R8125TxSpec.v
R8125TxThms.v
R8125Rx.v
R8125RxSpec.v
R8125RxFrame.v
R8125RxThms.v
IossProbe.v
IossProbeSpec.v
R8125Open.v
IossIpa.v
IossIpaSpec.v
IossIpaLaws.v
IossStack.v
IossOfExamples.v
IossMainExamples.v
IossExamples.v
IossWatchExamples.v
IossProbeExamples.v
IossStackExamples.v
IossStatsExamples.v
R8125RingExamples.v
