(* ===== verification/Prelude.v ===== *)
(** * T99W373 PCIe-RC / RTL8125 / IPA stack: verification library

    The repository turns a Foxconn T99W373 modem (Qualcomm SDX65) into a PCIe
    root complex for an RTL8125B Ethernet controller and offloads its traffic
    to the modem's IP accelerator (IPA). Its own program logic is C in four
    layers, each modelled here as functions on an explicit state; the paths
    below are under [src/final-working-files/], and [drivers/] stands for
    [source-build-context/data-eth-src/drivers/].

    ** The parts, and the files that model them

    - The IPACM ABI bridge, [ipa-final/ipacm_abi_bridge_v5.c], a preloaded
      library that sits between IPACM and [/dev/ipa] and translates the 02300
      layouts of the kernel to and from the newer ones of the process.
      State: the byte memory of the process ([Mem]) and the bridge's static
      variables and system call trace ([BridgeBase.bst]).
      [CStr] strings; [BridgeBase] constants, system calls, configuration,
      descriptor test, log; [BridgeQuery] property queries; [BridgeRules]
      route and filter rules and the interposed [ioctl].
      [BridgeAbi] holds the laws of the two parameters, the layouts of the IPA
      header ([IpaAbi]) and the kernel ([OsApi]), with an instance.
    - The PCIe enabler module,
      [pcie-enabler-sources/pcie_enabler_non_es_v1.c]: injects the nodes of
      the RTL8125 into the live device tree and mends the page tables of the
      IPA Ethernet contexts. State: the device tree with reference counts and
      the allocator's answers ([DeviceTree.dtree] under [D]), the page table
      structures and the delayed work ([Pmds.pmst]). [Enabler] builds and
      attaches, [Pmds] fixes and rechecks, [EnablerInit] loads and unloads.
      The kernel's [of_*] functions are the class [OfApi] with the laws [OfOk].
    - The offload library of the RTL8125 driver, [drivers/r8125/src/]
      ([r8125_lib.c], [r8125_lib.h], parts of [r8125_rss.c], [r8125_n.c],
      [r8125.h]): rings lent to the glue driver, their DMA memory, MSI-X events
      and RSS redirection. State: [RtlLib.nic]; the hardware is the trace of
      accesses made to it, the device's geometry the class [NicApi].
    - Below it, the parts of the same driver that reach the chip, on a device
      that is a parameter ([R8125Access.Mmio]): [R8125Access] the register
      windows of [r8125_n.c] (PHY, MAC, PCIe PHY, configuration space, ERI),
      [R8125Fw] the firmware images of [r8125_firmware.c] and the program in
      them, [R8125Stats] the tally counters, saving the registers, and the
      glue driver's operations on them. State: [R8125Access.tp], the fields of
      [struct rtl8125_private] they use. [R8125AccessSpec.ChipLaws] says that
      the windows are registers.
    - The descriptor rings of the driver, also in [r8125_n.c] and [r8125.h]:
      [R8125Tx] the transmit path ([rtl8125_start_xmit], which lays a packet
      out in descriptors, [rtl8125_tx_interrupt], which releases them, clearing
      and setting up), state [R8125Tx.txq], one queue; [R8125Rx] the receive
      path ([rtl8125_rx_interrupt], [rtl8125_rx_fill], setting up and
      emptying), state [R8125Rx.rxq], one ring. Both rings are indexed by
      counts that wrap ([Prelude.ring_size], [Prelude.entry_of]). The kernel's functions are the classes
      [R8125Tx.TxApi] and [R8125Rx.RxApi]; the chip is an event of the systems
      in [R8125TxThms] (it closes descriptors) and [R8125RxThms] (it writes
      frames into the descriptors it owns).
    - The IOSS framework and its r8125 glue driver, [drivers/ioss/] and
      [drivers/r8125_ioss/]. State: one interface ([IossData.iface]: channels,
      state, TCM block, IPA client, and the library's [nic] underneath) and,
      around it, the device that is watched ([IossWatch.ioss_device]) and the
      one that is probed ([IossProbe.probest]); the tables of the bus
      ([IossBus.busst]), the power management hooks ([IossPm.pci_pm]) and the
      root device ([IossMain.rootst]); while a node is parsed, [IossOf.ofst].
      [IossUtils] list walk, logs, names ([ioss_utils.c]); [IossData] [ioss.h];
      [IossOf] the channels from the device tree ([ioss_of.c]);
      [IossMem] [ioss_mem.c]; [R8125Ioss] [r8125_ioss.c]; [IossNet] going on
      and off line ([ioss_net.c], with the channel nodes of [ioss_debugfs.c]
      and the power collapse of [ioss_pci.c]); [IossIpa] the IPA client
      ([ioss_ipa.c], [ioss_ipa_hal.c]); [IossWatch] events, works and bus
      requests ([ioss_net.c], [ioss_bus.c]); [IossBus] the tables of the bus
      and PCI devices that come and go ([ioss_bus.c], [ioss_pci.c]); [IossPm]
      the hooks of the PCI drivers ([ioss_pci.c]); [IossProbe] probing and
      removing a device ([ioss_bus.c]), with [R8125Open] the glue driver's
      open and close; [IossMain] the root device and the module
      ([ioss_main.c]); [IossStats] the read side of [ioss_debugfs.c].

    How they meet: the enabler makes the device tree the IOSS driver reads
    ([IossOfSpec.injected_channels_unread] says what it makes of it); the root
    device puts the devices it finds on the bus, which probes them; probing
    opens the glue driver, parses the channels into an interface ([IossStack])
    and has it watched; the watcher's refresh work takes the interface on or
    off line; that calls the network driver's operations
    ([ioss_driver_ops], implemented by [r8125_ioss_ops]), which call the
    library, and the IPA client ([IpaOps], implemented by [ioss_ipa_ops]); a
    read of the statistics calls [IossStats.StatsOps], implemented by
    [r8125_stats_ops] on the chip. The interfaces have laws,
    [IossLaws.DriverLaws], [IossLaws.IpaLaws], [IossProbeSpec.OpenLaws] and
    [IossStatsSpec.reports]; [IossNetSpec], [IossRefresh], [IossWatchSpec] and
    [IossProbeSpec] are proved against the laws, [R8125Spec.r8125_laws],
    [IossIpaLaws.ipa_client_laws], [R8125Open.r8125_open_laws] and
    [R8125StatsSpec.r8125_reports] discharge them, and [IossStackExamples]
    parses a device and takes it up. The bridge serves the user space side of
    the same IPA driver and shares no state with the rest.

    ** The model

    A C function is [M St A := St -> option (A * St)]: [None] is undefined
    behaviour (a NULL or unmapped access, an index out of range, a hook that
    calls itself), error codes are ordinary results, and [wp m Q s] says that
    [m] runs from [s] without undefined behaviour, terminates and ends in [Q].
    Machine integers are [Z] with their wrap-around written out ([u8] ... [u64],
    [s32]). What the kernel, the IPA driver or the hardware answers is either a
    class parameter or a list of results to come in the state, over which the
    theorems quantify. A function named with leading underscores in C drops
    them here; [_impl] marks the implementation of a class method.

    ** The theorems

    - Bridge: what each query and each member of the ADD family leaves in both
      memories and sends to the kernel ([BridgeHandlers], [BridgeIoctl]); one
      system call per [ioctl] whatever the input ([BridgeOnce]); transparency
      for other descriptors and requests; idempotence of the translation;
      configuration and descriptor test as functions of their input
      ([BridgeEnv], [CStr]).
    - Enabler: all three nodes with exactly the properties of the source, or
      none, on every allocation failure, with balanced references
      ([EnablerAttach]); the PMDS fix copies exactly what it should and is
      idempotent, and the rechecks stop after fifteen ([Pmds]); loading and
      unloading ([EnablerInit]). [EnablerExamples] instantiates them.
    - Offload library: every operation on a held ring is defined and keeps
      rings and memory consistent; request and release are inverse; the event
      round trip; RSS; the failure paths that are undefined ([RtlLibThms],
      [RtlLibRss], on the effect lemmas of [RtlLibSpec], [RtlLibInv],
      [RtlLibOps]). [RtlExamples] instantiates them.
    - Chip access: a register of the PHY is the same under every page that
      shows it, the ERI accesses are to bytes, a clear-and-set rewrites one
      register ([R8125AccessThms]). Firmware: checking and running an image
      never leave it, a program without backward jumps is its list of words
      read once, one that jumps to itself passes the checks, and the driver
      holds an image exactly while it has a program ([R8125FwThms]). What
      saving the registers reads, and when the counters are new
      ([R8125StatsSpec]). [R8125AccessExamples], [R8125FwExamples] and
      [IossStatsExamples] instantiate them on a simulated chip.
    - Transmit ring: [R8125TxSpec] describes each operation by the window of
      slots in flight; [R8125TxThms] runs the pieces of sender and interrupt in
      any order with the chip: every packet is in one slot or was given back
      once, only what is mapped is unmapped, and the one way into undefined
      behaviour is a packet whose padding fails, which is freed twice
      ([failed_padding_double_free]); no wake-up is lost, and what the race
      between the two reads of the interrupt loses stays lost; what one packet
      does, with the words of its descriptors, and what one interrupt does. Receive ring: [R8125RxSpec] has the window of its slots
      (bare, armed, filled) and the books of its buffers, and what filling and
      emptying do to them, [R8125RxFrame] one frame against what the stack
      should see of it; [R8125RxThms] runs the poll in pieces with the chip and
      says that frames reach the stack in order and once each, what one poll
      delivers, that setting up is all or nothing, that a frame in pieces stalls
      the ring. [R8125RingExamples] instantiates them and runs what does not
      do as it should.
    - IOSS: the list walk equals its reference ([IossUtils]); parsing equals a
      reference function of the tree, leaks nothing whatever fails, and does
      not take the injected channel nodes ([IossOfSpec]); the parsed interface
      is one that the refresh work runs ([IossStack]); the glue driver
      refines the driver contract ([R8125Spec]); an interface is completely on
      line, off line or in error whatever fails ([IossRefresh]); the preflight
      accepts exactly the pipes that are sound as far as 32-bit sums can tell,
      and describing a channel is a function, which masks an address above the
      ceiling ([IossIpaSpec]); registering with IPA is all or nothing but for
      what the IPA driver refuses to take down ([IossIpaLaws]);
      every interleaving of events, works and requests keeps the watched device
      consistent, unwatching leaves nothing running, and unregistering too
      early strands the interface ([IossWatchSpec]); the tables list what there
      is under any hot plugging ([IossBusSpec]); the power management hooks
      never call themselves ([IossPm]); probing is all or nothing, with the
      driver open or closed and but for the wakeup capability, and removal
      undoes it after any events ([IossProbeSpec]); so for the root device,
      with its workqueue, and the module ([IossMainSpec]); the nodes show what the counters mean
      and their texts read back ([IossStatsSpec]).

    ** Bounds and fuel

    Loops over counted arrays run their count ([for_up], [for_down]); loops to
    a NUL take the length of the list as fuel and are proved to stop before it
    ([CStr]); the digits of a descriptor have a fuel of 13, past the code's own
    limit of 12 and the ten digits 32 bits need
    ([BridgeEnv.fd_digits_decimal]), those of a counter twenty, which 64 bits
    need ([IossStatsSpec.dec_loop_read]); the sibling walk of
    [pcie_find_child_by_name], and that of [ioss_of.c], take the number of
    nodes of the tree plus two, one for the first call and one for the end of
    the list. Polls of the chip run the code's own counts; the rounds of an
    ERI access are at most its length. A firmware program runs for the rounds
    it is given: the loop of the code need not end
    ([R8125FwThms.endless_program_passes]), and does without backward jumps
    ([R8125FwThms.forward_program_runs]). No other theorem is about runs cut
    short: [wp] and the totality lemmas prove that loops end.

    ** Assumptions

    The kernel is the modem's, 32-bit ARM without LPAE ([config.txt],
    [RESEARCH.md]): [unsigned long], [size_t], [dma_addr_t] and [phys_addr_t]
    have 32 bits where the code's results depend on their width (the statistics
    of the rings, the sums of the preflight, the physical address of the TCM
    block, the index into a firmware program).

    The refresh work, a handler or a check runs as one step: the code holds
    [rtnl] or a work item meanwhile, and the fields another step could change
    are read once. [R8125Spec] assumes the four diagnostic switches off, ring
    memory to be had ([faults = []]: the library's own failure path is
    undefined, [RtlLibThms.request_ring_failure_undefined]) and one channel per
    direction, which the built-in configuration has
    ([IossStack.built_in_sound]) and a device tree need not. Kernel notifier
    chains, wakeup sources and work queues behave as documented. A device that
    is watched or probed can have its interface's own device registered, whose
    result no caller sees ([IossWatchSpec.enabled], [IossProbeSpec.links]; the
    code is wrong when it fails, [ioss_net.c:146]), and its notifier
    unregistered.

    The rings: memory is sequentially consistent (the code's barriers are not
    modelled), a queue has one sender and one poll at a time, the size divides
    2^32 as the default sizes do ([Prelude.ring_size];
    [R8125RingExamples.count_wraps_mid_ring] is one that does not), the chip
    closes no descriptor past the tail pointer and writes a frame only into a
    descriptor it owns. A packet has at most 17 fragments, none empty, and a
    large send on a chip with [RequireLSOPatch] at most 16, and its transport
    header lies at an [int]'s offset ([R8125TxSpec.packet_ok]); the receive path is configured as
    [R8125RxFrame.rx_sound] says, which the built-in configuration is.

    ** Not modelled

    The rest of the vendor r8125 driver: its tables of register values, its
    network device operations apart from the rings, its EEPROM, PTP and DASH
    code (built without [ENABLE_PTP_SUPPORT]); the QPS615, AQC and EMAC drivers (vendor code that these boards
    do not run or that only drives registers); the pipe settings of other
    devices; the code of [ioss_ipa.c] for the first version of the IPA Ethernet
    interface ([IPA_ETH_API_VER < 2]), which names variables its functions do
    not declare; earlier versions of bridge and enabler; scripts and
    services. *)
From stdpp Require Import base tactics list gmap strings numbers.
From Stdlib Require Import ZArith Lia.
#[global] Open Scope Z_scope.

(** ** Notations *)
Declare Scope c_scope.
Delimit Scope c_scope with c.

(** ** Computations

    A C function is a state transformer that can also run into undefined
    behaviour (a null or unmapped dereference, an access outside an array):
    [None] is undefined behaviour, an error code is an ordinary result. *)
Definition M (St A : Type) : Type := St → option (A * St).

Definition ret {St A} (a : A) : M St A := λ s, Some (a, s).

Definition bind {St A B} (m : M St A) (k : A → M St B) : M St B :=
  λ s, match m s with Some (a, s') => k a s' | None => None end.

Definition ub {St A} : M St A := λ _, None.

Definition gets {St A} (f : St → A) : M St A := λ s, Some (f s, s).

Definition modify {St} (f : St → St) : M St unit := λ s, Some (tt, f s).

Definition lift_opt {St A} (o : option A) : M St A :=
  λ s, match o with Some a => Some (a, s) | None => None end.

Notation "'let*' x ':=' m 'in' k" := (bind m%c (λ x, k%c))
  (at level 10, x name, m at level 100, k at level 200) : c_scope.
Notation "'let*' ' p ':=' m 'in' k" := (bind m%c (λ x, match x with p => k%c end))
  (at level 10, p pattern, m at level 100, k at level 200) : c_scope.
Notation "m ';;' k" := (bind m%c (λ _ : unit, k%c))
  (at level 100, k at level 200, right associativity) : c_scope.
Notation "'when' b 'then' m" := (if b then m%c else ret tt)
  (at level 99, b at level 99, m at level 99) : c_scope.
#[global] Open Scope c_scope.

(** [for (i = i0; i < i0 + n; i++) a = body(i, a)]. *)
Fixpoint for_acc {St A} (n : nat) (i : Z) (body : Z → A → M St A) (a : A) : M St A :=
  match n with
  | O => ret a
  | S n' => let* a' := body i a in for_acc n' (i + 1) body a'
  end.

Definition for_up {St} (n : nat) (i : Z) (body : Z → M St unit) : M St unit :=
  for_acc n i (λ i _, body i) tt.

(** [for (idx = n; idx > 0; idx--) body(idx - 1)]. *)
Fixpoint for_down {St} (n : nat) (body : Z → M St unit) : M St unit :=
  match n with
  | O => ret tt
  | S n' => body (Z.of_nat n') ;; for_down n' body
  end.

(** ** Weakest preconditions

    [wp m Q s]: from [s], [m] runs without undefined behaviour, terminates and
    ends with a result and a state that satisfy [Q]. *)
Definition wp {St A} (m : M St A) (Q : A → St → Prop) (s : St) : Prop :=
  match m s with Some (a, s') => Q a s' | None => False end.

(** ** Machine integers *)
Definition u8 (z : Z) : Z := z mod 2 ^ 8.
Definition u16 (z : Z) : Z := z mod 2 ^ 16.
Definition u32 (z : Z) : Z := z mod 2 ^ 32.
Definition u64 (z : Z) : Z := z mod 2 ^ 64.
(** The signed 32-bit reading of a word: C's [(int)]. *)
Definition s32 (z : Z) : Z := (z + 2 ^ 31) mod 2 ^ 32 - 2 ^ 31.

(** ** Error numbers of the kernel ABI *)
Definition ENOENT : Z := 2.
Definition ENOMEM : Z := 12.
Definition EFAULT : Z := 14.
Definition EEXIST : Z := 17.
Definition ENODEV : Z := 19.
Definition EINVAL : Z := 22.
Definition ENOSPC : Z := 28.
Definition ERANGE : Z := 34.
Definition EOVERFLOW : Z := 75.
Definition EOPNOTSUPP : Z := 95.

(** ** Characters *)
Fixpoint chars (s : string) : list Z :=
  match s with
  | EmptyString => []
  | String a s' => Z.of_N (Ascii.N_of_ascii a) :: chars s'
  end.

(** ** Lemmas *)
Section wp_rules.
Context {St : Type}.

Lemma wp_ret {A} (a : A) Q (s : St) : Q a s → wp (ret a) Q s.
Proof. done. Qed.

Lemma wp_bind {A B} (m : M St A) (k : A → M St B) Q s :
  wp m (λ a s', wp (k a) Q s') s → wp (bind m k) Q s.
Proof. unfold wp, bind. destruct (m s) as [[a s']|]; done. Qed.

Lemma wp_bind_iff {A B} (m : M St A) (k : A → M St B) Q s :
  wp (bind m k) Q s ↔ wp m (λ a s', wp (k a) Q s') s.
Proof. unfold wp, bind. destruct (m s) as [[a s']|]; done. Qed.

Lemma wp_gets {A} (f : St → A) Q (s : St) : Q (f s) s → wp (gets f) Q s.
Proof. done. Qed.

Lemma wp_modify (f : St → St) Q (s : St) : Q tt (f s) → wp (modify f) Q s.
Proof. done. Qed.

Lemma wp_lift_opt {A} (o : option A) a Q (s : St) : o = Some a → Q a s → wp (lift_opt o) Q s.
Proof. unfold wp, lift_opt. intros ->. done. Qed.

Lemma wp_mono {A} (m : M St A) (Q Q' : A → St → Prop) s :
  wp m Q s → (∀ a s', Q a s' → Q' a s') → wp m Q' s.
Proof. unfold wp. destruct (m s) as [[a s']|]; [|done]. intros H HQ. by apply HQ. Qed.

Lemma wp_intro {A} (m : M St A) (Q : A → St → Prop) s a s' :
  m s = Some (a, s') → Q a s' → wp m Q s.
Proof. unfold wp. intros ->. done. Qed.

Lemma wp_elim {A} (m : M St A) (Q : A → St → Prop) s :
  wp m Q s → ∃ a s', m s = Some (a, s') ∧ Q a s'.
Proof. unfold wp. destruct (m s) as [[a s']|]; [|done]. eauto. Qed.

Lemma wp_run {A} (m : M St A) (Q : A → St → Prop) s a s' :
  wp m Q s → m s = Some (a, s') → Q a s'.
Proof. unfold wp. intros H E. rewrite E in H. done. Qed.

Lemma wp_and {A} (m : M St A) (Q Q' : A → St → Prop) s :
  wp m Q s → wp m Q' s → wp m (λ a s', Q a s' ∧ Q' a s') s.
Proof. unfold wp. destruct (m s) as [[a s']|]; done. Qed.

(** Loop rule: an invariant on the index and the accumulator. *)
Lemma wp_for_acc {A} (n : nat) (i0 : Z) (body : Z → A → M St A) (I : Z → A → St → Prop) a s :
  I i0 a s →
  (∀ i a s, i0 ≤ i < i0 + Z.of_nat n → I i a s → wp (body i a) (I (i + 1)) s) →
  wp (for_acc n i0 body a) (I (i0 + Z.of_nat n)) s.
Proof.
  revert i0 a s. induction n as [|n IH]; intros i0 a s HI Hb; simpl.
  - apply wp_ret. by rewrite Z.add_0_r.
  - apply wp_bind. eapply wp_mono; [apply Hb; [lia|done]|].
    intros a' s' Hs'.
    replace (i0 + Z.of_nat (S n)) with ((i0 + 1) + Z.of_nat n) by lia.
    apply IH; [done|]. intros i a0 s0 Hi. apply Hb. lia.
Qed.

Lemma wp_for_up (n : nat) (i0 : Z) (body : Z → M St unit) (I : Z → St → Prop) s :
  I i0 s →
  (∀ i s, i0 ≤ i < i0 + Z.of_nat n → I i s → wp (body i) (λ _, I (i + 1)) s) →
  wp (for_up n i0 body) (λ _, I (i0 + Z.of_nat n)) s.
Proof.
  intros HI Hb.
  apply (wp_for_acc n i0 (λ i _, body i) (λ i _, I i) tt s); [done|].
  intros i a s' Hi Hs'. by apply Hb.
Qed.

Lemma wp_for_down (n : nat) (body : Z → M St unit) (I : Z → St → Prop) s :
  I (Z.of_nat n) s →
  (∀ i s, 0 ≤ i < Z.of_nat n → I (i + 1) s → wp (body i) (λ _, I i) s) →
  wp (for_down n body) (λ _, I 0) s.
Proof.
  revert s. induction n as [|n IH]; intros s HI Hb; simpl; [done|].
  apply wp_bind. eapply wp_mono.
  - apply Hb; [lia|]. by replace (Z.of_nat n + 1) with (Z.of_nat (S n)) by lia.
  - intros [] s' Hs'. apply IH; [done|]. intros i s0 Hi. apply Hb. lia.
Qed.
End wp_rules.

(** ** Automation *)
Create HintDb stack.
#[export] Hint Resolve wp_ret wp_gets wp_modify : stack.

(** One structural step of a weakest-precondition goal. *)
Ltac wp_step :=
  cbv beta;
  lazymatch goal with
  | |- wp (bind _ _) _ _ => apply wp_bind
  | |- wp (ret _) _ _ => apply wp_ret
  | |- wp (gets _) _ _ => apply wp_gets
  | |- wp (modify _) _ _ => apply wp_modify
  end.
Ltac wp_steps := repeat wp_step.

(** Splits every range test in the goal and closes the arithmetic. *)
Ltac split_ranges :=
  repeat case_decide; try lia; try congruence.

(** ** What a computation leaves alone

    [f] reads the same after [m] as before it. *)
Definition inert {St T A} (f : St → T) (m : M St A) : Prop := ∀ s a s', m s = Some (a, s') → f s' = f s.

Section inert_rules.
Context {St T : Type} (f : St → T).

Lemma inert_ret {A} (a : A) : inert f (ret a).
Proof. by intros s ? ? [= <- <-]. Qed.
Lemma inert_ub {A} : inert f (ub (A := A)).
Proof. done. Qed.
Lemma inert_gets {A} (g : St → A) : inert f (gets g).
Proof. by intros s ? ? [= <- <-]. Qed.
Lemma inert_lift {A} (o : option A) : inert f (lift_opt o).
Proof. intros s ? ? E. destruct o; [|done]. by injection E as <- <-. Qed.
Lemma inert_modify g : (∀ s, f (g s) = f s) → inert f (modify g).
Proof. intros Hg s ? ? [= <- <-]. apply Hg. Qed.
Lemma inert_bind {A B} (m : M St A) (k : A → M St B) : inert f m → (∀ a, inert f (k a)) → inert f (bind m k).
Proof.
  intros Hm Hk s b s' E. unfold bind in E. destruct (m s) as [[a s1]|] eqn:E1; [|done].
  by rewrite (Hk _ _ _ _ E), (Hm _ _ _ E1).
Qed.
Lemma inert_for n i (body : Z → M St unit) : (∀ i, inert f (body i)) → inert f (for_up n i body).
Proof.
  intros Hb. unfold for_up. revert i. induction n as [|n IH]; intros i; simpl; [apply inert_ret|].
  apply inert_bind; [apply Hb|intros []; apply IH].
Qed.
End inert_rules.

Create HintDb inert.
#[export] Hint Resolve inert_ret inert_ub inert_gets inert_lift : inert.
Ltac inert := repeat first
  [ by auto with inert | apply inert_bind; [|intros ?] | apply inert_for; intros ?
  | apply inert_modify; intros ?; by repeat case_match | case_match ].

(** ** Arithmetic of strided records *)
Lemma stride_le i j N : 0 ≤ N → i < j → i * N + N ≤ j * N.
Proof. nia. Qed.

Lemma stride_inj N i j o o' :
  0 ≤ o < N → 0 ≤ o' < N → i * N + o = j * N + o' → i = j ∧ o = o'.
Proof. intros. assert (i = j) by nia. lia. Qed.

(** ** Rings indexed by counts that wrap

    The transmit and receive rings of [r8125_n.c] count descriptors in [u32]
    and take the remainder by the ring's size; the sizes for which that steps
    through the ring at every count. *)
(** A size that the driver takes ([MIN_NUM_TX_DESC] to [MAX_NUM_TX_DESC], the
    same for receiving) and that the counts can wrap with. *)
Definition ring_size (num : Z) : Prop := 256 ≤ num ≤ 1024 ∧ (num | 2 ^ 32).

(** The entry of slot [i] of the window that starts at the count [D]. *)
Definition entry_of (num D : Z) (i : nat) : nat := Z.to_nat ((D + Z.of_nat i) mod num).

Lemma mod_add_congr a b c n : a mod n = b mod n → (a + c) mod n = (b + c) mod n.
Proof. intros E. by rewrite <- (Zplus_mod_idemp_l a), E, Zplus_mod_idemp_l. Qed.

Section entries.
Context (num : Z) (Hsize : ring_size num).

Lemma size_pos : 0 < num.
Proof. destruct Hsize as [[] _]. lia. Qed.

Lemma u32_entry n : u32 n mod num = n mod num.
Proof. destruct Hsize as [_ Hd]. by apply Z.mod_mod_divide. Qed.

Lemma entry_Z D i : Z.of_nat (entry_of num D i) = (D + Z.of_nat i) mod num.
Proof. pose proof size_pos. apply Z2Nat.id, Z.mod_pos_bound. lia. Qed.

Lemma entry_bound D i : Z.of_nat (entry_of num D i) < num.
Proof. pose proof size_pos. rewrite entry_Z. apply Z.mod_pos_bound. lia. Qed.

Lemma entry_inj D i j : Z.of_nat i < num → Z.of_nat j < num → entry_of num D i = entry_of num D j → i = j.
Proof.
  intros Hi Hj He. pose proof size_pos.
  assert (E : (D + Z.of_nat i) mod num = (D + Z.of_nat j) mod num) by (rewrite <- !entry_Z; congruence).
  pose proof (Z.div_mod (D + Z.of_nat i) num ltac:(lia)). pose proof (Z.div_mod (D + Z.of_nat j) num ltac:(lia)).
  assert ((D + Z.of_nat i) / num = (D + Z.of_nat j) / num) by nia. nia.
Qed.

Lemma entry_wrap D i n : Z.of_nat i = Z.of_nat n + num → entry_of num D i = entry_of num D n.
Proof.
  intros E. unfold entry_of. f_equal. pose proof size_pos. rewrite E, Z.add_assoc.
  rewrite <- (Z.mul_1_l num) at 1. apply Z_mod_plus_full.
Qed.

Lemma entry_next D i : (Z.of_nat (entry_of num D i) + 1) mod num = (D + Z.of_nat (i + 1)) mod num.
Proof. rewrite entry_Z, Zplus_mod_idemp_l. f_equal. lia. Qed.

Lemma entry_succ D i : entry_of num (D + 1) i = entry_of num D (S i).
Proof. unfold entry_of. do 2 f_equal. lia. Qed.

(** The first entry of a window becomes the last of the next. *)
Lemma entry_rotate D n : Z.of_nat (S n) = num → entry_of num (D + 1) n = entry_of num D 0.
Proof. intros E. rewrite entry_succ. apply entry_wrap. lia. Qed.
End entries.

(** ** The middle of a list *)
Lemma middle_insert {A} (l1 l2 : list A) x y : <[length l1 := y]> (l1 ++ x :: l2) = l1 ++ y :: l2.
Proof. rewrite insert_app_r_alt by lia. by rewrite Nat.sub_diag. Qed.
Lemma middle_lookup {A} (l1 l2 : list A) x : (l1 ++ x :: l2) !! length l1 = Some x.
Proof. by rewrite list_lookup_middle. Qed.
