(* ===== verification/Mem.v ===== *)
(** * Byte memory of the IPACM process and the bridge's byte helpers *)
From stdpp Require Import base tactics list gmap numbers.
From Stdlib Require Import ZArith Lia.
From S2P Require Import Prelude.

(** The address space: the mapped bytes. An access to any other address is
    undefined behaviour. *)
Abbreviation mem := (gmap Z Z).

Definition load8 (p : Z) : M mem Z := λ m,
  match m !! p with Some v => Some (v, m) | None => None end.

Definition store8 (p v : Z) : M mem unit := λ m,
  match m !! p with Some _ => Some (tt, <[p := v]> m) | None => None end.

Definition mem_zero (p n : Z) : M mem unit :=
  for_up (Z.to_nat n) 0 (λ i, store8 (p + i) 0).

Definition mem_copy (d s n : Z) : M mem unit :=
  for_up (Z.to_nat n) 0 (λ i, let* v := load8 (s + i) in store8 (d + i) v).

Definition rd32 (p : Z) : M mem Z :=
  let* b0 := load8 p in
  let* b1 := load8 (p + 1) in
  let* b2 := load8 (p + 2) in
  let* b3 := load8 (p + 3) in
  ret (Z.lor (Z.lor (Z.lor b0 (u32 (Z.shiftl b1 8))) (u32 (Z.shiftl b2 16))) (u32 (Z.shiftl b3 24))).

Definition wr32 (p v : Z) : M mem unit :=
  store8 p (u8 (Z.land v 255)) ;;
  store8 (p + 1) (u8 (Z.land (Z.shiftr v 8) 255)) ;;
  store8 (p + 2) (u8 (Z.land (Z.shiftr v 16) 255)) ;;
  store8 (p + 3) (u8 (Z.land (Z.shiftr v 24) 255)).

Definition wr64 (p v : Z) : M mem unit :=
  for_up 8 0 (λ i, store8 (p + i) (u8 (Z.land (Z.shiftr v (i * 8)) 255))).

(** Reading [n] bytes in order, for the accesses the code makes byte by byte. *)
Fixpoint load_bytes (n : nat) (p : Z) : M mem (list Z) :=
  match n with
  | O => ret []
  | S n' => let* b := load8 p in let* bs := load_bytes n' (p + 1) in ret (b :: bs)
  end.

(** ** Views

    What a memory holds, address by address. The helpers are specified by the
    view they leave: [vzero] and [vcopy] are the views of a memory after
    [mem_zero] and [mem_copy]. *)
Definition view := Z → option Z.

Definition rep (m : mem) (v : view) : Prop := ∀ a, m !! a = v a.

Definition vget (m : mem) : view := λ a, m !! a.

Definition within (p n a : Z) : Prop := p ≤ a < p + n.

#[export] Instance within_dec p n a : Decision (within p n a).
Proof. unfold within. apply _. Defined.

Definition mapped (v : view) (p n : Z) : Prop := ∀ a, within p n a → is_Some (v a).

(** Two ranges share no byte. *)
Definition apart (p n q k : Z) : Prop := p + n ≤ q ∨ q + k ≤ p.

Definition vzero (v : view) (p n : Z) : view :=
  λ a, if decide (within p n a) then Some 0 else v a.

Definition vcopy (v : view) (d s n : Z) : view :=
  λ a, if decide (within d n a) then v (s + (a - d)) else v a.

Definition vset (v : view) (p x : Z) : view :=
  λ a, if decide (a = p) then Some x else v a.

(** The little-endian word the bytes of a view spell. *)
Definition vword (v : view) (p : Z) : option Z :=
  match v p, v (p + 1), v (p + 2), v (p + 3) with
  | Some b0, Some b1, Some b2, Some b3 =>
      Some (Z.lor (Z.lor (Z.lor b0 (u32 (Z.shiftl b1 8))) (u32 (Z.shiftl b2 16))) (u32 (Z.shiftl b3 24)))
  | _, _, _, _ => None
  end.

(** The bytes of a range, as far as they are mapped. *)
Fixpoint vbytes (v : view) (n : nat) (p : Z) : option (list Z) :=
  match n with
  | O => Some []
  | S n' => match v p, vbytes v n' (p + 1) with
            | Some b, Some bs => Some (b :: bs)
            | _, _ => None
            end
  end.

(** ** Lemmas *)
Lemma rep_vget m : rep m (vget m).
Proof. done. Qed.

Lemma mapped_sub v p n q k : mapped v p n → p ≤ q → q + k ≤ p + n → mapped v q k.
Proof. intros H ? ? a Ha. apply H. unfold within in *. lia. Qed.

Lemma mapped_vzero v p n q k : mapped v q k → mapped (vzero v p n) q k.
Proof. intros H a Ha. unfold vzero. case_decide; [eauto|auto]. Qed.

Lemma mapped_vcopy v d s n q k : mapped v s n → mapped v q k → mapped (vcopy v d s n) q k.
Proof.
  intros Hs H a Ha. unfold vcopy. case_decide as Hd; [|auto]. apply Hs. unfold within in *. lia.
Qed.

Lemma mapped_vset v p x q k : mapped v q k → mapped (vset v p x) q k.
Proof. intros H a Ha. unfold vset. case_decide; [eauto|auto]. Qed.

#[export] Hint Resolve mapped_vzero mapped_vcopy mapped_vset rep_vget : stack.

Lemma wp_load8 p Q m v b : rep m v → v p = Some b → Q b m → wp (load8 p) Q m.
Proof. intros Hr Hv HQ. unfold wp, load8. rewrite Hr, Hv. done. Qed.

Lemma wp_store8 p x Q m v : rep m v → is_Some (v p) →
  (∀ m', rep m' (vset v p x) → Q tt m') → wp (store8 p x) Q m.
Proof.
  intros Hr [b Hb] HQ. unfold wp, store8. rewrite Hr, Hb. apply HQ.
  intros a. unfold vset. case_decide as Ha; [subst; apply lookup_insert_eq|].
  rewrite lookup_insert_ne by done. apply Hr.
Qed.

Lemma wp_mem_zero p n Q m v : 0 ≤ n → rep m v → mapped v p n →
  (∀ m', rep m' (vzero v p n) → Q tt m') → wp (mem_zero p n) Q m.
Proof.
  intros Hn Hr Hm HQ. eapply wp_mono.
  { apply (wp_for_up _ _ _ (λ i m', rep m' (vzero v p i))).
    - intros a. rewrite Hr. unfold vzero. rewrite decide_False by (unfold within; lia). done.
    - intros i m' Hi Hrep. eapply wp_store8; [done| |].
      + apply mapped_vzero with (q := p + i) (k := 1); [|unfold within; lia].
        eapply mapped_sub; [done|lia..].
      + intros m'' Hr'' a. rewrite Hr''. unfold vset, vzero, within. split_ranges. }
  intros [] m' Hr'. apply HQ. rewrite Z2Nat.id in Hr' by done. done.
Qed.

Lemma wp_mem_copy d s n Q m v : 0 ≤ n → rep m v → mapped v s n → mapped v d n → apart d n s n →
  (∀ m', rep m' (vcopy v d s n) → Q tt m') → wp (mem_copy d s n) Q m.
Proof.
  intros Hn Hr Hs Hd Hap HQ. eapply wp_mono.
  { apply (wp_for_up _ _ _ (λ i m', rep m' (vcopy v d s i))).
    - intros a. rewrite Hr. unfold vcopy. rewrite decide_False by (unfold within; lia). done.
    - intros i m' Hi Hrep. wp_step.
      destruct (Hs (s + i)) as [b Hb]; [unfold within; lia|].
      eapply wp_load8; [done| |].
      { unfold vcopy. rewrite decide_False; [done|]. unfold within, apart in *. lia. }
      eapply wp_store8; [done| |].
      + unfold vcopy. case_decide; [apply Hs|apply Hd]; unfold within in *; lia.
      + intros m'' Hr'' a. rewrite Hr''. unfold vset, vcopy, within. split_ranges.
        subst. replace (s + (d + i - d)) with (s + i) by lia. done. }
  intros [] m' Hr'. apply HQ. rewrite Z2Nat.id in Hr' by done. done.
Qed.

Lemma wp_rd32 p Q m v w : rep m v → vword v p = Some w → Q w m → wp (rd32 p) Q m.
Proof.
  intros Hr Hw HQ. unfold vword in Hw. repeat case_match; try done.
  injection Hw as <-. unfold rd32. repeat (wp_step; eapply wp_load8; [done|done|]). done.
Qed.

Lemma vword_mapped v p : mapped v p 4 → ∃ w, vword v p = Some w.
Proof.
  intros H. unfold vword, mapped, within in *.
  destruct (H p ltac:(lia)) as [? ->], (H (p + 1) ltac:(lia)) as [? ->],
    (H (p + 2) ltac:(lia)) as [? ->], (H (p + 3) ltac:(lia)) as [? ->]. eauto.
Qed.

Lemma vword_ext v v' p p' : (∀ i, 0 ≤ i < 4 → v (p + i) = v' (p' + i)) → vword v p = vword v' p'.
Proof.
  intros H. unfold vword. rewrite (H 1), (H 2), (H 3) by lia.
  specialize (H 0 ltac:(lia)). rewrite !Z.add_0_r in H. by rewrite H.
Qed.

Lemma vbytes_ext v v' n p p' :
  (∀ i, 0 ≤ i < Z.of_nat n → v (p + i) = v' (p' + i)) → vbytes v n p = vbytes v' n p'.
Proof.
  revert p p'. induction n as [|n IH]; intros p p' H; simpl; [done|].
  rewrite (IH (p + 1) (p' + 1)).
  - specialize (H 0 ltac:(lia)). rewrite !Z.add_0_r in H. by rewrite H.
  - intros i Hi. specialize (H (1 + i) ltac:(lia)). by rewrite <- !Z.add_assoc.
Qed.

Lemma vbytes_mapped v n p : mapped v p (Z.of_nat n) → ∃ bs, vbytes v n p = Some bs.
Proof.
  revert p. induction n as [|n IH]; intros p H; simpl; [eauto|].
  destruct (H p) as [b ->]; [unfold within; lia|].
  destruct (IH (p + 1)) as [bs ->]; [|eauto]. eapply mapped_sub; [done|lia..].
Qed.

Lemma wp_load_bytes n p Q m v bs : rep m v → vbytes v n p = Some bs → Q bs m →
  wp (load_bytes n p) Q m.
Proof.
  intros Hr. revert p bs Q. induction n as [|n IH]; intros p bs Q Hb HQ; simpl in *.
  { injection Hb as <-. done. }
  destruct (v p) as [b|] eqn:Hp; [|done].
  destruct (vbytes v n (p + 1)) as [bs'|] eqn:E; [|done]. injection Hb as <-.
  wp_step. eapply wp_load8; [done..|]. wp_step. eapply IH; [done|]. by wp_step.
Qed.

(** ** Little-endian stores *)
Fixpoint le_bytes (n : nat) (x : Z) : list Z :=
  match n with
  | O => []
  | S n' => u8 (Z.land x 255) :: le_bytes n' (Z.shiftr x 8)
  end.

Definition vput (v : view) (p : Z) (bs : list Z) : view :=
  λ a, if decide (within p (Z.of_nat (length bs)) a) then bs !! Z.to_nat (a - p) else v a.

Lemma length_le_bytes n x : length (le_bytes n x) = n.
Proof. revert x. induction n as [|n IH]; intros x; simpl; [done|]. by rewrite IH. Qed.

Lemma le_bytes_lookup n x i : (i < n)%nat →
  le_bytes n x !! i = Some (u8 (Z.land (Z.shiftr x (8 * Z.of_nat i)) 255)).
Proof.
  revert x i. induction n as [|n IH]; intros x [|i] Hi; simpl; [lia|lia| |].
  - by rewrite Z.shiftr_0_r.
  - rewrite IH by lia. rewrite Z.shiftr_shiftr by lia. do 4 f_equal. lia.
Qed.

Lemma mapped_vput v p bs q k : mapped v q k → mapped (vput v p bs) q k.
Proof.
  intros H a Ha. unfold vput. case_decide as Hd; [|auto].
  apply lookup_lt_is_Some_2. unfold within in *. lia.
Qed.
#[export] Hint Resolve mapped_vput : stack.

Lemma wp_wr32 p x Q m v : rep m v → mapped v p 4 →
  (∀ m', rep m' (vput v p (le_bytes 4 x)) → Q tt m') → wp (wr32 p x) Q m.
Proof.
  intros Hr Hm HQ. unfold wr32.
  assert (∀ i, 0 ≤ i < 4 → is_Some (v (p + i))) as Hi by (intros; apply Hm; unfold within; lia).
  pose proof (Hi 0 ltac:(lia)) as H0. rewrite Z.add_0_r in H0.
  assert (∀ i, 0 ≤ i < 4 → within p 4 (p + i)) as Hw by (unfold within; lia).
  pose proof (Hw 1 ltac:(lia)). pose proof (Hw 2 ltac:(lia)). pose proof (Hw 3 ltac:(lia)).
  wp_step. eapply wp_store8; [done|done|]. intros m1 Hr1. wp_step.
  pose proof (mapped_vset v p (u8 (Z.land x 255)) p 4 Hm) as Hm2.
  eapply wp_store8; [done|by apply Hm2|]. intros m2 Hr2. wp_step.
  eapply mapped_vset in Hm2. eapply wp_store8; [done|by apply Hm2|]. intros m3 Hr3.
  eapply mapped_vset in Hm2. eapply wp_store8; [done|by apply Hm2|].
  intros m4 Hr4. apply HQ. intros a. rewrite Hr4. unfold vset, vput.
  rewrite length_le_bytes. unfold within.
  destruct (decide (p ≤ a < p + Z.of_nat 4)) as [Ha|Ha].
  - assert (a = p ∨ a = p + 1 ∨ a = p + 2 ∨ a = p + 3) as Hc by lia.
    rewrite le_bytes_lookup by lia. rewrite Z2Nat.id by lia.
    destruct Hc as [-> | [-> | [-> | ->]]]; repeat (case_decide; try lia).
    + by rewrite Z.sub_diag, Z.shiftr_0_r.
    + by replace (8 * (p + 1 - p)) with 8 by lia.
    + by replace (8 * (p + 2 - p)) with 16 by lia.
    + by replace (8 * (p + 3 - p)) with 24 by lia.
  - split_ranges.
Qed.

Lemma wp_wr64 p x Q m v : rep m v → mapped v p 8 →
  (∀ m', rep m' (vput v p (le_bytes 8 x)) → Q tt m') → wp (wr64 p x) Q m.
Proof.
  intros Hr Hm HQ. eapply wp_mono.
  { apply (wp_for_up 8 0 _ (λ i m', ∀ a, m' !! a =
      if decide (within p i a) then Some (u8 (Z.land (Z.shiftr x (8 * (a - p))) 255)) else v a)).
    - intros a. rewrite decide_False by (unfold within; lia). apply Hr.
    - intros i m' Hi HI. eapply wp_store8; [exact HI| |].
      + cbv beta. rewrite decide_False by (unfold within; lia). apply Hm. unfold within. lia.
      + intros m'' H a. rewrite H. unfold vset, within.
        split_ranges. subst a. by replace (p + i - p) with i by lia; rewrite (Z.mul_comm i). }
  intros [] m' HI. apply HQ. intros a. rewrite HI. unfold vput. rewrite length_le_bytes.
  change (0 + Z.of_nat 8) with (Z.of_nat 8). case_decide as Ha; [|done].
  unfold within in Ha. rewrite le_bytes_lookup by lia. rewrite Z2Nat.id by lia. done.
Qed.
(** ** Record moves

    What a translation does to one record, as a list of moves (destination
    offset, source offset, length) over a zeroed destination. *)
Definition move : Type := Z * Z * Z.

Fixpoint move_src (ms : list move) (o : Z) : option Z :=
  match ms with
  | [] => None
  | (d, s, l) :: ms' => if decide (within d l o) then Some (s + (o - d)) else move_src ms' o
  end.

(** The byte at offset [o] of the new record made from the record at [oldp]. *)
Definition moved (ms : list move) (v : view) (oldp o : Z) : option Z :=
  match move_src ms o with Some s => v (oldp + s) | None => Some 0 end.

Definition mapped_le (v v' : view) : Prop := ∀ a, is_Some (v a) → is_Some (v' a).

(** A step that builds the record at [newp] from the one at [oldp] with the
    help of a scratch array: the record is the moved one, everything outside
    the record and the scratch array is as before. *)
Definition builds (ms : list move) (N tmp T : Z) (oldp newp : Z) (v v' : view) : Prop :=
  (∀ o, 0 ≤ o < N → v' (newp + o) = moved ms v oldp o) ∧
  (∀ a, ¬ within newp N a → ¬ within tmp T a → v' a = v a) ∧
  mapped_le v v'.

(** The view after copying the fields one by one. *)
Fixpoint vmoves (newp tmp : Z) (ms : list move) (v : view) : view :=
  match ms with
  | [] => v
  | (d, s, l) :: ms' => vmoves newp tmp ms' (vcopy v (newp + d) (tmp + s) l)
  end.

(** The destinations lie behind one another from [lo] to [N], the sources in
    a record of [T] bytes. *)
Fixpoint moves_ok (lo N T : Z) (ms : list move) : Prop :=
  match ms with
  | [] => lo ≤ N
  | (d, s, l) :: ms' => lo ≤ d ∧ 0 ≤ l ∧ 0 ≤ s ∧ s + l ≤ T ∧ moves_ok (d + l) N T ms'
  end.

Lemma moves_ok_le lo N T ms : moves_ok lo N T ms → lo ≤ N.
Proof.
  revert lo. induction ms as [|[[d s] l] ms IH]; intros lo; simpl; [done|].
  intros (? & ? & ? & ? & ?%IH). lia.
Qed.

Lemma move_src_below lo N T ms o : moves_ok lo N T ms → o < lo → move_src ms o = None.
Proof.
  revert lo. induction ms as [|[[d s] l] ms IH]; intros lo; simpl; [done|].
  intros (? & ? & ? & ? & Hok) Ho. rewrite decide_False by (unfold within; lia).
  eapply IH; [done|lia].
Qed.

Lemma move_src_bound lo N T ms o s : moves_ok lo N T ms → move_src ms o = Some s → 0 ≤ s < T.
Proof.
  revert lo. induction ms as [|[[d s'] l] ms IH]; intros lo; simpl; [done|].
  intros (? & ? & ? & ? & Hok). case_decide as Hd; [|by eapply IH].
  intros [= <-]. unfold within in Hd. lia.
Qed.

Lemma vmoves_out newp tmp ms lo N T v a : moves_ok lo N T ms → 0 ≤ lo → ¬ within newp N a →
  vmoves newp tmp ms v a = v a.
Proof.
  revert lo v. induction ms as [|[[d s] l] ms IH]; intros lo v; simpl; [done|].
  intros (? & ? & ? & ? & Hok) Hlo Ha. erewrite IH; [|done|lia|done].
  apply moves_ok_le in Hok. unfold vcopy. rewrite decide_False; [done|]. unfold within in *. lia.
Qed.

Lemma vmoves_in newp tmp ms lo N T v o : moves_ok lo N T ms → 0 ≤ lo → 0 ≤ o < N →
  apart tmp T newp N →
  vmoves newp tmp ms v (newp + o) =
  match move_src ms o with Some s => v (tmp + s) | None => v (newp + o) end.
Proof.
  revert lo v. induction ms as [|[[d s] l] ms IH]; intros lo v; simpl; [done|].
  intros (? & ? & ? & ? & Hok) Hlo Ho Hap. pose proof (moves_ok_le _ _ _ _ Hok).
  erewrite IH; [|done|lia|done|done]. unfold vcopy. destruct (decide (within d l o)) as [Hd|Hd].
  - erewrite move_src_below; [|done|unfold within in Hd; lia].
    rewrite decide_True by (unfold within in *; lia). f_equal. lia.
  - destruct (move_src ms o) as [s'|] eqn:Es.
    + pose proof (move_src_bound _ _ _ _ _ _ Hok Es).
      rewrite decide_False; [done|]. unfold within, apart in *. lia.
    + rewrite decide_False; [done|]. unfold within in *. lia.
Qed.

(** The bytes of a moved field. *)
Lemma move_src_at lo N T ms d s l k : moves_ok lo N T ms → (d, s, l) ∈ ms → 0 ≤ k < l →
  move_src ms (d + k) = Some (s + k) ∧ lo ≤ d ∧ d + l ≤ N.
Proof.
  revert lo. induction ms as [|[[d' s'] l'] ms IH]; intros lo; [by intros _ ?%not_elem_of_nil|].
  simpl. intros (? & ? & ? & ? & Hok). intros [E|Hin]%elem_of_cons Hk.
  - injection E as -> -> ->. pose proof (moves_ok_le _ _ _ _ Hok).
    rewrite decide_True by (unfold within; lia). split_and!; [f_equal; lia|lia|lia].
  - destruct (IH _ Hok Hin Hk) as (? & ? & ?). rewrite decide_False by (unfold within; lia).
    split_and!; [done|lia|lia].
Qed.

(** Copying a record to the scratch array, zeroing the new record and moving
    the fields builds it. *)
Lemma vmoves_builds ms O N tmp oldp newp v :
  moves_ok 0 N O ms → apart tmp O oldp O → apart tmp O newp N → mapped v tmp O →
  mapped_le v (vmoves newp tmp ms (vzero (vcopy v tmp oldp O) newp N)) →
  builds ms N tmp O oldp newp v (vmoves newp tmp ms (vzero (vcopy v tmp oldp O) newp N)).
Proof.
  intros Hok Ha1 Ha2 Ht Hle. split_and!; [| |done].
  - intros o Ho. erewrite vmoves_in; [|done|lia|done|done]. unfold moved.
    destruct (move_src ms o) as [s|] eqn:Es.
    + pose proof (move_src_bound _ _ _ _ _ _ Hok Es). unfold vzero, vcopy.
      rewrite decide_False by (unfold within, apart in *; lia).
      rewrite decide_True by (unfold within; lia). f_equal. lia.
    + unfold vzero. by rewrite decide_True by (unfold within; lia).
  - intros a Hn Hta. erewrite vmoves_out; [|done|lia|done]. unfold vzero, vcopy.
    by rewrite !decide_False by done.
Qed.

(** Memory operations that keep a range of [v0] mapped. *)
Lemma mapped_le_sub v0 v p n q k :
  mapped v0 p n → mapped_le v0 v → p ≤ q → q + k ≤ p + n → mapped v q k.
Proof. intros Hm Hle ? ? a Ha. apply Hle, Hm. unfold within in *. lia. Qed.

Lemma mapped_le_mapped v v' p n : mapped v p n → mapped_le v v' → mapped v' p n.
Proof. intros Hm Hle a Ha. by apply Hle, Hm. Qed.

Lemma copy_keeps d s n Q m v v0 : 0 ≤ n → rep m v → mapped_le v0 v → mapped v0 s n → mapped v0 d n →
  apart d n s n →
  (∀ m', rep m' (vcopy v d s n) → mapped_le v0 (vcopy v d s n) → Q tt m') → wp (mem_copy d s n) Q m.
Proof.
  intros Hn Hr Hle Hs Hd Hap HQ. assert (mapped v s n) as Hv by eauto using mapped_le_mapped.
  eapply wp_mem_copy; [done|done|done|eauto using mapped_le_mapped|done|].
  intros m' Hr'. apply HQ; [done|]. intros a Ha%Hle. unfold vcopy.
  case_decide as Hw; [|done]. apply Hv. unfold within in *. lia.
Qed.

Lemma zero_keeps p n Q m v v0 : 0 ≤ n → rep m v → mapped_le v0 v → mapped v0 p n →
  (∀ m', rep m' (vzero v p n) → mapped_le v0 (vzero v p n) → Q tt m') → wp (mem_zero p n) Q m.
Proof.
  intros Hn Hr Hle Hp HQ. eapply wp_mem_zero; [done|done|eauto using mapped_le_mapped|].
  intros m' Hr'. apply HQ; [done|]. intros a Ha%Hle. unfold vzero. case_decide; [eauto|done].
Qed.

#[export] Instance mapped_le_refl : Reflexive mapped_le.
Proof. by intros v a. Qed.
#[export] Instance mapped_le_trans : Transitive mapped_le.
Proof. intros v1 v2 v3 H1 H2 a Ha. by apply H2, H1. Qed.
Lemma rep_mapped_le m v : rep m v → mapped_le v (vget m).
Proof. intros Hr a. unfold vget. by rewrite Hr. Qed.

Lemma builds_ext ms N tmp T oldp newp v v1 v2 : (∀ a, v1 a = v2 a) →
  builds ms N tmp T oldp newp v v1 → builds ms N tmp T oldp newp v v2.
Proof.
  intros E (H1 & H2 & H3). split_and!.
  - intros o Ho. rewrite <- E. auto.
  - intros a. rewrite <- E. auto.
  - intros a Ha. rewrite <- E. auto.
Qed.

(** Ranges: inside a mapped range, or apart from another one. *)
Ltac in_range :=
  first [ assumption | lia | unfold apart in *; lia
        | match goal with Hm : mapped _ _ _ |- mapped _ _ _ =>
            eapply mapped_sub; [exact Hm|lia|lia] end ].

(** Runs copies and clears, keeping the view and what stays mapped. *)
Ltac mem_op :=
  cbv beta;
  lazymatch goal with
  | |- wp (bind _ _) _ _ => apply wp_bind
  | |- wp (mem_copy _ _ _) _ _ =>
      eapply copy_keeps; [lia|eassumption|eassumption|in_range|in_range|in_range|];
      let m' := fresh "m" in let R := fresh "R" in let L := fresh "L" in intros m' R L
  | |- wp (mem_zero _ _) _ _ =>
      eapply zero_keeps; [lia|eassumption|eassumption|in_range|];
      let m' := fresh "m" in let R := fresh "R" in let L := fresh "L" in intros m' R L
  end.

Section inplace.
Context (ms : list move) (O N tmp T base : Z) (step : Z → Z → M mem unit).
Context (HON : 0 < O ≤ N) (HT : 0 ≤ T).
Context (Hsrc : ∀ o s, move_src ms o = Some s → 0 ≤ s < O).
Context (Hstep : ∀ m v oldp newp, rep m v →
  mapped v oldp O → mapped v newp N → mapped v tmp T →
  apart tmp T oldp O → apart tmp T newp N →
  wp (step oldp newp) (λ _ m', builds ms N tmp T oldp newp v (vget m')) m).

(** Walking the records from the last to the first never reads a byte an
    earlier round has overwritten, although old and new records overlap. *)
Lemma inplace_loop (n : nat) m v : rep m v →
  mapped v base (Z.of_nat n * N) → mapped v tmp T → apart tmp T base (Z.of_nat n * N) →
  wp (for_down n (λ i, step (base + i * O) (base + i * N)))
     (λ _ m', (∀ i o, 0 ≤ i < Z.of_nat n → 0 ≤ o < N →
                 m' !! (base + i * N + o) = moved ms v (base + i * O) o) ∧
              (∀ a, ¬ within base (Z.of_nat n * N) a → ¬ within tmp T a → m' !! a = v a) ∧
              mapped_le v (vget m')) m.
Proof.
  intros Hr Hm Ht Hap.
  set (J k m' := (∀ i o, k ≤ i < Z.of_nat n → 0 ≤ o < N →
                 vget m' (base + i * N + o) = moved ms v (base + i * O) o) ∧
              (∀ a, ¬ within (base + k * N) (Z.of_nat n * N - k * N) a → ¬ within tmp T a →
                 vget m' a = v a) ∧
              mapped_le v (vget m')).
  assert (J (Z.of_nat n) m) as HJ0.
  { split_and!; [lia| |].
    - intros a _ _. apply Hr.
    - intros a Ha. unfold vget. by rewrite Hr. }
  eapply wp_mono; [apply (wp_for_down _ _ J); [done|]|].
  - intros k m1 Hk (J1 & J2 & J3).
    pose proof (stride_le k (Z.of_nat n) N ltac:(lia) ltac:(lia)).
    assert (k * O ≤ k * N) by nia. assert (0 ≤ k * O) by nia.
    eapply wp_mono.
    { apply (Hstep m1 (vget m1)); [done| | | | |].
      - intros a Ha. apply J3, Hm. unfold within in *. lia.
      - intros a Ha. apply J3, Hm. unfold within in *. lia.
      - intros a Ha. apply J3, Ht, Ha.
      - unfold apart in *. lia.
      - unfold apart in *. lia. }
    intros [] m2 (K1 & K2 & K3). split_and!.
    + intros i o Hi Ho. destruct (decide (i = k)) as [->|Hne].
      * rewrite K1 by done. unfold moved. destruct (move_src ms o) as [s|] eqn:Es; [|done].
        apply Hsrc in Es. apply J2; unfold within, apart in *; lia.
      * pose proof (stride_le k i N ltac:(lia) ltac:(lia)).
        pose proof (stride_le i (Z.of_nat n) N ltac:(lia) ltac:(lia)).
        rewrite K2; [apply J1; lia|unfold within; lia|unfold within, apart in *; lia].
    + intros a Ha Hta. rewrite K2; [apply J2|..]; unfold within in *; lia.
    + intros a Ha. apply K3, J3, Ha.
  - intros [] m' (J1 & J2 & J3). split_and!; [|..|done].
    + intros i o Hi Ho. by apply J1.
    + intros a Ha Hta. apply J2; [|done]. unfold within in *. lia.
Qed.
End inplace.
