(* ===== verification/CStr.v ===== *)
(** * C strings of the IPACM ABI bridge

    The string helpers of [ipacm_abi_bridge_v5.c]: lengths, comparisons,
    bounded copies, the comma-separated interface lists, the printable-name
    test and the search of [/proc/self/environ]. A character array is the
    list of its bytes; a C string may leave its NUL out of the list, since
    [cat] reads a NUL past the end. A pointer the code tests against NULL is
    an [option]. *)
From stdpp Require Import base tactics list sets strings numbers.
From Stdlib Require Import ZArith Lia.
From S2P Require Import Prelude.

Definition cat (s : list Z) (i : Z) : Z := nth (Z.to_nat i) s 0.

(** ** Lengths and comparisons *)
Fixpoint cstr_len_loop (n : nat) (i : Z) (s : list Z) : Z :=
  match n with
  | O => i
  | S n' => if cat s i =? 0 then i else cstr_len_loop n' (i + 1) s
  end.

Definition cstr_len (s : option (list Z)) (max : Z) : Z :=
  match s with
  | None => 0
  | Some s => cstr_len_loop (Z.to_nat max) 0 s
  end.

Fixpoint str_eq_n_loop (n : nat) (i : Z) (a b : list Z) : option bool :=
  match n with
  | O => None
  | S n' =>
      if negb (cat a i =? cat b i) then Some false
      else if cat a i =? 0 then Some true
      else str_eq_n_loop n' (i + 1) a b
  end.

(** [for (i = 0; ; i++)]: one more round than [a] has bytes is enough. *)
Definition str_eq (a b : list Z) : bool :=
  default false (str_eq_n_loop (S (length a)) 0 a b).

Definition str_eq_n (a b : list Z) (max_n : Z) : bool :=
  default true (str_eq_n_loop (Z.to_nat max_n) 0 a b).

(** [IPA_RESOURCE_NAME_MAX] comes from the IPA header. *)
Definition str_eq_32 (name_max : Z) (a b : list Z) : bool :=
  default true (str_eq_n_loop (Z.to_nat name_max) 0 a b).

(** ** Bounded copy: the new contents of [dst] up to its NUL *)
Fixpoint copy_cstr_loop (n : nat) (i : Z) (src : list Z) : list Z :=
  match n with
  | O => []
  | S n' => if cat src i =? 0 then [] else cat src i :: copy_cstr_loop n' (i + 1) src
  end.

Definition copy_cstr (dst : list Z) (max : Z) (src : option (list Z)) : list Z :=
  if max =? 0 then dst
  else match src with
       | None => []
       | Some src => copy_cstr_loop (Z.to_nat (max - 1)) 0 src
       end.

(** ** Comma-separated interface lists *)
Definition is_sep (c : Z) : bool := (c =? 32) || (c =? 44).

(** [while (csv[pos] == ' ' || csv[pos] == ',') pos++;] *)
Fixpoint csv_skip (fuel : nat) (csv : list Z) (pos : Z) : Z :=
  match fuel with
  | O => pos
  | S f => if is_sep (cat csv pos) then csv_skip f csv (pos + 1) else pos
  end.

(** [while (csv[pos] && csv[pos] != ',') { pos++; len++; }] *)
Fixpoint csv_token (fuel : nat) (csv : list Z) (pos len : Z) : Z * Z :=
  match fuel with
  | O => (pos, len)
  | S f =>
      if negb (cat csv pos =? 0) && negb (cat csv pos =? 44)
      then csv_token f csv (pos + 1) (len + 1) else (pos, len)
  end.

(** [while (len > 0 && csv[start + len - 1] == ' ') len--;] *)
Fixpoint csv_trim (fuel : nat) (csv : list Z) (start len : Z) : Z :=
  match fuel with
  | O => len
  | S f => if (0 <? len) && (cat csv (start + len - 1) =? 32)
           then csv_trim f csv start (len - 1) else len
  end.

(** [for (i = 0; i < len; i++) if (s[start + i] != name[i]) break; i == len] *)
Fixpoint bytes_match (n : nat) (i : Z) (s : list Z) (start : Z) (name : list Z) : bool :=
  match n with
  | O => true
  | S n' => if negb (cat s (start + i) =? cat name i) then false
            else bytes_match n' (i + 1) s start name
  end.

Fixpoint csv_loop (fuel : nat) (csv : list Z) (pos : Z) (name : list Z) (nlen : Z) : bool :=
  match fuel with
  | O => false
  | S f =>
      if cat csv pos =? 0 then false
      else
        let start := csv_skip (length csv) csv pos in
        let '(pos', len0) := csv_token (length csv) csv start 0 in
        let len := csv_trim (length csv) csv start len0 in
        if (len =? nlen) && bytes_match (Z.to_nat len) 0 csv start name then true
        else csv_loop f csv pos' name nlen
  end.

Definition csv_has (name_max : Z) (csv name : option (list Z)) : bool :=
  let nlen := cstr_len name name_max in
  match csv, name with
  | Some csv, Some name =>
      if cat csv 0 =? 0 then false
      else if (cat csv 0 =? 42) && (cat csv 1 =? 0) then true
      else csv_loop (S (length csv)) csv 0 name nlen
  | _, _ => false
  end.

(** ** Printable header names *)
Fixpoint printable_loop (n : nat) (i : Z) (s : list Z) (seen : bool) : bool :=
  match n with
  | O => seen
  | S n' =>
      let c := u8 (cat s i) in
      if c =? 0 then seen
      else if (c <? 32) || (126 <? c) then false
      else printable_loop n' (i + 1) s true
  end.

Definition printable_name (name_max : Z) (s : option (list Z)) : bool :=
  match s with
  | None => false
  | Some s => printable_loop (Z.to_nat name_max) 0 s false
  end.

(** ** The environment block *)
(** [while (pos < env_len && env_buf[pos]) pos++;] *)
Fixpoint env_scan (fuel : nat) (buf : list Z) (env_len pos : Z) : Z :=
  match fuel with
  | O => pos
  | S f => if (pos <? env_len) && negb (cat buf pos =? 0)
           then env_scan f buf env_len (pos + 1) else pos
  end.

(** [while (v < pos && j + 1 < out_sz) out[j++] = env_buf[v++];] *)
Fixpoint env_value (fuel : nat) (buf : list Z) (pos v j out_sz : Z) : list Z :=
  match fuel with
  | O => []
  | S f => if (v <? pos) && (j + 1 <? out_sz)
           then cat buf v :: env_value f buf pos (v + 1) (j + 1) out_sz else []
  end.

Fixpoint env_loop (fuel : nat) (buf : list Z) (env_len : Z) (name : list Z) (name_len pos out_sz : Z)
    : bool * list Z :=
  match fuel with
  | O => (false, [])
  | S f =>
      if pos <? env_len then
        let start := pos in
        let pos := env_scan (length buf) buf env_len start in
        if (start + name_len <? pos) && (cat buf (start + name_len) =? 61)
           && bytes_match (Z.to_nat name_len) 0 buf start name
        then (true, env_value (length buf) buf pos (start + name_len + 1) 0 out_sz)
        else env_loop f buf env_len name name_len (pos + 1) out_sz
      else (false, [])
  end.

Definition env_get_in (buf : list Z) (env_len : Z) (name : list Z) (out_sz : Z) : bool * list Z :=
  env_loop (S (Z.to_nat env_len)) buf env_len name (cstr_len (Some name) 128) 0 out_sz.

(** ** Reference functions on lists *)
Fixpoint cut0 (s : list Z) : list Z :=
  match s with
  | [] => []
  | c :: s' => if c =? 0 then [] else c :: cut0 s'
  end.

Fixpoint split_on (sep : Z) (s : list Z) : list (list Z) :=
  match s with
  | [] => [[]]
  | c :: s' =>
      if c =? sep then [] :: split_on sep s'
      else match split_on sep s' with
           | [] => [[c]]
           | t :: ts => (c :: t) :: ts
           end
  end.

Fixpoint skip_while (f : Z → bool) (s : list Z) : list Z :=
  match s with
  | [] => []
  | c :: s' => if f c then skip_while f s' else s
  end.

Fixpoint take_while (f : Z → bool) (s : list Z) : list Z :=
  match s with
  | [] => []
  | c :: s' => if f c then c :: take_while f s' else []
  end.

Definition is_space (c : Z) : bool := c =? 32.
Definition lstrip (s : list Z) : list Z := skip_while is_space s.
Definition rstrip (s : list Z) : list Z := rev (lstrip (rev s)).

(** The non-empty names of a comma-separated list, spaces stripped. *)
Definition csv_names (s : list Z) : list (list Z) :=
  filter (λ t, t ≠ []) (rstrip ∘ lstrip <$> split_on 44 (cut0 s)).

(** The value of the first entry [name=value] of an environment block. *)
Fixpoint env_find (name : list Z) (entries : list (list Z)) : option (list Z) :=
  match entries with
  | [] => None
  | e :: es =>
      if decide (take (S (length name)) e = name ++ [61])
      then Some (drop (S (length name)) e) else env_find name es
  end.

Definition printable (c : Z) : Prop := 32 ≤ c ≤ 126.

(** ** Lemmas on [cat] *)
Lemma cat_drop s p i : 0 ≤ p → 0 ≤ i → cat s (p + i) = cat (drop (Z.to_nat p) s) i.
Proof.
  intros Hp Hi. unfold cat. rewrite Z2Nat.inj_add by done.
  revert s. generalize (Z.to_nat p) as n. induction n as [|n IH]; intros s; [done|].
  destruct s as [|c s]; simpl; [by destruct (Z.to_nat i)|]. apply IH.
Qed.

Lemma drop_cat s i : 0 ≤ i →
  (drop (Z.to_nat i) s = [] ∧ cat s i = 0 ∧ drop (Z.to_nat (i + 1)) s = []) ∨
  drop (Z.to_nat i) s = cat s i :: drop (Z.to_nat (i + 1)) s.
Proof.
  intros Hi. rewrite Z2Nat.inj_add by lia.
  replace (Z.to_nat i + Z.to_nat 1)%nat with (S (Z.to_nat i)) by lia. unfold cat.
  revert s. generalize (Z.to_nat i) as n. induction n as [|n IH]; intros [|c s]; simpl; auto.
Qed.

Lemma cut0_nonzero s c : c ∈ cut0 s → c ≠ 0.
Proof.
  induction s as [|x s IH]; simpl; [by intros ?%not_elem_of_nil|].
  destruct (Z.eqb_spec x 0); [by intros ?%not_elem_of_nil|].
  intros [->|?]%elem_of_cons; auto.
Qed.

Lemma cut0_idem s : cut0 (cut0 s) = cut0 s.
Proof.
  induction s as [|x s IH]; simpl; [done|]. destruct (Z.eqb_spec x 0); simpl; [done|].
  destruct (Z.eqb_spec x 0); [done|]. by rewrite IH.
Qed.

(** The head of the string that starts at [i]. *)
Lemma cut0_drop s i : 0 ≤ i →
  cut0 (drop (Z.to_nat i) s) =
  if cat s i =? 0 then [] else cat s i :: cut0 (drop (Z.to_nat (i + 1)) s).
Proof.
  intros Hi. destruct (drop_cat s i Hi) as [(-> & -> & _)| ->]; [done|]. simpl. done.
Qed.

Lemma cut0_length_drop s i : (length (cut0 (drop i s)) ≤ length s - i)%nat.
Proof.
  assert (∀ t, length (cut0 t) ≤ length t)%nat as H.
  { induction t as [|x t IH]; simpl; [done|]. destruct (x =? 0); simpl; lia. }
  specialize (H (drop i s)). by rewrite length_drop in H.
Qed.

(** ** Lengths and comparisons *)
Lemma cstr_len_loop_spec n i s : 0 ≤ i →
  cstr_len_loop n i s = i + Z.of_nat (length (take n (cut0 (drop (Z.to_nat i) s)))).
Proof.
  revert i. induction n as [|n IH]; intros i Hi; simpl; [lia|].
  rewrite cut0_drop by done. destruct (cat s i =? 0); simpl; [lia|].
  rewrite IH by lia. lia.
Qed.

Lemma cstr_len_spec s max : cstr_len (Some s) max = Z.of_nat (length (take (Z.to_nat max) (cut0 s))).
Proof. unfold cstr_len. rewrite cstr_len_loop_spec by done. simpl. rewrite drop_0. lia. Qed.

Lemma str_eq_n_loop_spec n i a b : 0 ≤ i →
  default true (str_eq_n_loop n i a b) =
  bool_decide (take n (cut0 (drop (Z.to_nat i) a)) = take n (cut0 (drop (Z.to_nat i) b))).
Proof.
  revert i. induction n as [|n IH]; intros i Hi; simpl; [done|].
  rewrite !(cut0_drop _ i) by done.
  destruct (Z.eqb_spec (cat a i) (cat b i)) as [->|Hne]; simpl.
  - destruct (cat b i =? 0); simpl; [done|]. rewrite IH by lia.
    apply bool_decide_ext. split; intros H; [by f_equal|by injection H].
  - symmetry. apply bool_decide_eq_false.
    destruct (Z.eqb_spec (cat a i) 0), (Z.eqb_spec (cat b i) 0); simpl; congruence.
Qed.

Lemma str_eq_n_loop_fuel n i a b : 0 ≤ i → (length (cut0 (drop (Z.to_nat i) a)) < n)%nat →
  is_Some (str_eq_n_loop n i a b).
Proof.
  revert i. induction n as [|n IH]; intros i Hi Hn; [lia|]. simpl.
  rewrite cut0_drop in Hn by done. destruct (negb _); [eauto|].
  destruct (cat a i =? 0); [eauto|]. apply IH; simpl in Hn; lia.
Qed.

Lemma str_eq_spec a b : str_eq a b = bool_decide (cut0 a = cut0 b).
Proof.
  unfold str_eq.
  pose proof (cut0_length_drop a 0) as Hl. rewrite drop_0 in Hl.
  destruct (str_eq_n_loop_fuel (S (length a)) 0 a b) as [r Hr]; [done|simpl; rewrite ?drop_0; lia|].
  pose proof (str_eq_n_loop_spec (S (length a)) 0 a b ltac:(lia)) as H.
  rewrite Hr in *. simpl default in *. rewrite H. simpl Z.to_nat. rewrite !drop_0.
  apply bool_decide_ext. split; [|congruence]. intros E.
  rewrite (take_ge (cut0 a)) in E by lia.
  destruct (decide (length (cut0 b) ≤ S (length a))%nat); [by rewrite (take_ge (cut0 b)) in E|].
  apply (f_equal length) in E. rewrite length_take in E. lia.
Qed.

Lemma str_eq_n_spec a b n :
  str_eq_n a b n = bool_decide (take (Z.to_nat n) (cut0 a) = take (Z.to_nat n) (cut0 b)).
Proof. unfold str_eq_n. rewrite str_eq_n_loop_spec by done. by rewrite !drop_0. Qed.

Lemma bytes_match_spec n i s start name : 0 ≤ i → 0 ≤ start →
  bytes_match n i s start name = true ↔
  ∀ k, i ≤ k < i + Z.of_nat n → cat s (start + k) = cat name k.
Proof.
  intros Hi Hs. revert i Hi. induction n as [|n IH]; intros i Hi; simpl.
  - split; [|done]. lia.
  - destruct (Z.eqb_spec (cat s (start + i)) (cat name i)) as [E|E]; simpl.
    + rewrite IH by lia. split; intros H k Hk; [|apply H; lia].
      destruct (decide (k = i)) as [->|]; [done|]. apply H. lia.
    + split; [done|]. intros H. destruct E. apply H. lia.
Qed.

Lemma cat_take s n i : 0 ≤ i < Z.of_nat n → cat (take n s) i = cat s i.
Proof. intros Hi. unfold cat. rewrite !nth_lookup, lookup_take_lt by lia. done. Qed.

(** The comparison of [len] bytes against a name of that length. *)
Lemma bytes_match_list s start name t nm : 0 ≤ start → length t = length nm →
  take (length nm) name = nm → take (length t) (drop (Z.to_nat start) s) = t →
  bytes_match (length t) 0 s start name = bool_decide (t = nm).
Proof.
  intros Hs Hl Hnm Ht. apply eq_true_iff_eq. rewrite bool_decide_eq_true.
  rewrite bytes_match_spec by lia.
  assert (∀ k, 0 ≤ k < 0 + Z.of_nat (length t) →
    cat s (start + k) = cat t k ∧ cat name k = cat nm k) as Hst.
  { intros k Hk. rewrite cat_drop by lia. rewrite <- Ht, <- Hnm, !cat_take by lia. done. }
  split.
  - intros H. apply (list_eq_same_length _ _ (length nm)); [lia..|].
    intros k x y Hk Hx Hy. specialize (H (Z.of_nat k) ltac:(lia)).
    destruct (Hst (Z.of_nat k)) as [E1 E2]; [lia|]. rewrite E1, E2 in H. unfold cat in H.
    rewrite !nth_lookup, Nat2Z.id, Hx, Hy in H. done.
  - intros -> k Hk. destruct (Hst k Hk) as [-> ->]. done.
Qed.

(** ** The interface list *)
Definition not_comma (c : Z) : bool := negb (c =? 44).

Lemma skip_while_length f s : (length (skip_while f s) ≤ length s)%nat.
Proof. induction s as [|c s IH]; simpl; [done|]. destruct (f c); simpl; lia. Qed.

Lemma take_skip_while f s : take_while f s ++ skip_while f s = s.
Proof. induction s as [|c s IH]; simpl; [done|]. destruct (f c); simpl; by rewrite ?IH. Qed.

Lemma cut0_is_drop csv pos : 0 ≤ pos →
  ∃ rest, drop (Z.to_nat pos) csv = cut0 (drop (Z.to_nat pos) csv) ++ rest.
Proof.
  intros _. induction (drop (Z.to_nat pos) csv) as [|c t [r IH]]; simpl; [by exists []|].
  destruct (c =? 0); [by exists (c :: t)|]. exists r. simpl. by rewrite <- IH.
Qed.

Lemma csv_skip_spec fuel csv pos : 0 ≤ pos →
  (length (cut0 (drop (Z.to_nat pos) csv)) ≤ fuel)%nat →
  pos ≤ csv_skip fuel csv pos ∧
  cut0 (drop (Z.to_nat (csv_skip fuel csv pos)) csv) =
  skip_while is_sep (cut0 (drop (Z.to_nat pos) csv)).
Proof.
  revert pos. induction fuel as [|f IH]; intros pos Hp Hf; simpl.
  - destruct (cut0 _); simpl in *; [split; [lia|done]|lia].
  - rewrite (cut0_drop csv pos) in * by done.
    destruct (Z.eqb_spec (cat csv pos) 0) as [E|E].
    + rewrite E. simpl. rewrite cut0_drop, E by done. split; [lia|done].
    + simpl in Hf. simpl. destruct (is_sep (cat csv pos)) eqn:Es.
      * destruct (IH (pos + 1)) as [? ->]; [lia|lia|]. split; [lia|done].
      * rewrite cut0_drop by done. destruct (Z.eqb_spec (cat csv pos) 0); [done|]. split; [lia|done].
Qed.

Lemma csv_token_spec fuel csv pos len : 0 ≤ pos →
  (length (cut0 (drop (Z.to_nat pos) csv)) ≤ fuel)%nat →
  ∃ pos', csv_token fuel csv pos len =
    (pos', len + Z.of_nat (length (take_while not_comma (cut0 (drop (Z.to_nat pos) csv))))) ∧
  pos ≤ pos' ∧
  cut0 (drop (Z.to_nat pos') csv) = skip_while not_comma (cut0 (drop (Z.to_nat pos) csv)).
Proof.
  revert pos len. induction fuel as [|f IH]; intros pos len Hp Hf; simpl.
  - destruct (cut0 _) eqn:E; simpl in *; [|lia]. exists pos. rewrite E. split_and!; [f_equal; lia|lia|done].
  - rewrite (cut0_drop csv pos) in * by done.
    destruct (Z.eqb_spec (cat csv pos) 0) as [E|E]; simpl.
    + exists pos. rewrite cut0_drop, E by done. split_and!; [f_equal; lia|lia|done].
    + fold (not_comma (cat csv pos)). destruct (not_comma (cat csv pos)) eqn:Ec; simpl.
      * destruct (IH (pos + 1) (len + 1)) as (p & -> & ? & Hp'); [lia|simpl in Hf; lia|].
        exists p. split_and!; [f_equal; lia|lia|done].
      * exists pos. rewrite cut0_drop by done.
        destruct (Z.eqb_spec (cat csv pos) 0); [done|]. split_and!; [f_equal; lia|lia|done].
Qed.

Lemma rstrip_snoc t c : rstrip (t ++ [c]) = if is_space c then rstrip t else t ++ [c].
Proof.
  unfold rstrip, lstrip. rewrite rev_app_distr. simpl.
  destruct (is_space c); [done|]. simpl. by rewrite rev_involutive.
Qed.

Lemma rstrip_prefix t : rstrip t `prefix_of` t.
Proof.
  induction t as [|c t IH] using rev_ind; [done|]. rewrite rstrip_snoc.
  destruct (is_space c); [by apply prefix_app_r|done].
Qed.

Lemma csv_trim_spec fuel csv start t : 0 ≤ start → (length t ≤ fuel)%nat →
  take (length t) (drop (Z.to_nat start) csv) = t →
  csv_trim fuel csv start (Z.of_nat (length t)) = Z.of_nat (length (rstrip t)).
Proof.
  intros Hs. revert t. induction fuel as [|f IH]; intros t Hf Ht; simpl.
  { by destruct t; [|simpl in Hf; lia]. }
  destruct t as [|c t _] using rev_ind; [done|].
  rewrite length_app in *. simpl length in *. rewrite rstrip_snoc.
  rewrite (proj2 (Z.ltb_lt 0 (Z.of_nat (length t + 1)))) by lia. simpl.
  assert (cat csv (start + Z.of_nat (length t + 1) - 1) = c) as ->.
  { replace (start + Z.of_nat (length t + 1) - 1) with (start + Z.of_nat (length t)) by lia.
    rewrite cat_drop by lia. apply (f_equal (.!! length t)) in Ht.
    rewrite lookup_take_lt, lookup_app_r, Nat.sub_diag in Ht by lia. simpl in Ht.
    unfold cat. by rewrite nth_lookup, Nat2Z.id, Ht. }
  unfold is_space. destruct (c =? 32).
  - replace (Z.of_nat (length t + 1) - 1) with (Z.of_nat (length t)) by lia. apply IH; [lia|].
    apply (f_equal (take (length t))) in Ht. rewrite take_take, take_app_length in Ht.
    by rewrite Nat.min_l in Ht by lia.
  - by rewrite length_app.
Qed.

(** The reference list under the steps of the scan. *)
Lemma split_on_skip t r : Forall (λ c, not_comma c = true) t →
  split_on 44 (t ++ r) = match split_on 44 r with [] => [t] | u :: us => (t ++ u) :: us end.
Proof.
  induction 1 as [|c t Hc _ IH]; simpl.
  - destruct r as [|c r]; simpl; [done|]. destruct (c =? 44); [done|]. by destruct (split_on 44 r).
  - unfold not_comma in Hc. destruct (c =? 44); [done|]. rewrite IH. by destruct (split_on 44 r).
Qed.

Lemma split_on_nonempty r : split_on 44 r ≠ [].
Proof.
  destruct r as [|c r]; simpl; [done|]. destruct (c =? 44); [done|]. by destruct (split_on 44 r).
Qed.

Definition names_of (r : list Z) : list (list Z) :=
  filter (λ t, t ≠ []) (rstrip ∘ lstrip <$> split_on 44 r).

Lemma names_of_space r : names_of (32 :: r) = names_of r.
Proof.
  unfold names_of. change (32 :: r) with ([32] ++ r). rewrite split_on_skip by by repeat constructor.
  destruct (split_on 44 r) as [|u us] eqn:E; [by destruct (split_on_nonempty r)|]. done.
Qed.

Lemma names_of_comma r : names_of (44 :: r) = names_of r.
Proof. done. Qed.

Lemma names_of_skip r : names_of (skip_while is_sep r) = names_of r.
Proof.
  induction r as [|c r IH]; simpl; [done|]. destruct (is_sep c) eqn:E; [|done].
  rewrite IH. unfold is_sep in E. apply orb_true_iff in E as [->%Z.eqb_eq| ->%Z.eqb_eq].
  - by rewrite names_of_space.
  - done.
Qed.

Lemma take_while_forall f r : Forall (λ c, f c = true) (take_while f r).
Proof. induction r as [|c r IH]; simpl; [done|]. destruct (f c) eqn:E; by constructor. Qed.

Lemma names_of_token r :
  (∀ c r', r = c :: r' → is_sep c = false) →
  names_of r =
  (if decide (rstrip (take_while not_comma r) = []) then [] else [rstrip (take_while not_comma r)])
  ++ names_of (skip_while not_comma r).
Proof.
  intros Hh. set (t := take_while not_comma r). set (r' := skip_while not_comma r).
  rewrite <- (take_skip_while not_comma r) at 1. fold t r'. unfold names_of.
  rewrite split_on_skip by apply take_while_forall.
  assert (lstrip t = t) as Hl.
  { subst t. destruct r as [|c s]; simpl; [done|]. destruct (not_comma c) eqn:E; [|done].
    specialize (Hh c s eq_refl). unfold is_sep in Hh. unfold lstrip. simpl.
    unfold is_space. by destruct (c =? 32). }
  assert (r' = [] ∨ ∃ s, r' = 44 :: s) as [-> | [s ->]].
  { subst r'. clear. induction r as [|c s IH]; simpl; [by left|].
    destruct (not_comma c) eqn:E; [done|]. unfold not_comma in E. right.
    destruct (Z.eqb_spec c 44); [subst; eauto|done]. }
  - simpl. rewrite app_nil_r, Hl. rewrite filter_cons. simpl.
    destruct (decide (rstrip t = [])); case_decide; done.
  - simpl. rewrite app_nil_r, filter_cons. simpl. rewrite Hl.
    rewrite (filter_cons _ (rstrip (lstrip []))). simpl.
    destruct (decide (rstrip t = [])); repeat case_decide; simpl; done.
Qed.

Lemma skip_while_head f s c r : skip_while f s = c :: r → f c = false.
Proof.
  induction s as [|x s IH]; simpl; [done|]. destruct (f x) eqn:E; [done|]. by intros [= -> _].
Qed.

(** One round of the scan: where it starts, the token it finds (already
    stripped on the left), the length it compares and where it goes on. *)
Lemma csv_round csv pos : 0 ≤ pos → cat csv pos ≠ 0 →
  let start := csv_skip (length csv) csv pos in
  ∃ pos' t, csv_token (length csv) csv start 0 = (pos', Z.of_nat (length t)) ∧
    0 ≤ start ∧ 0 ≤ pos' ∧
    csv_trim (length csv) csv start (Z.of_nat (length t)) = Z.of_nat (length (rstrip t)) ∧
    take (length (rstrip t)) (drop (Z.to_nat start) csv) = rstrip t ∧
    names_of (cut0 (drop (Z.to_nat pos) csv)) =
      (if decide (rstrip t = []) then [] else [rstrip t]) ++ names_of (cut0 (drop (Z.to_nat pos') csv)) ∧
    (length (cut0 (drop (Z.to_nat pos') csv)) < length (cut0 (drop (Z.to_nat pos) csv)))%nat.
Proof.
  intros Hp E start. pose proof (cut0_length_drop csv (Z.to_nat pos)) as Hlen.
  destruct (csv_skip_spec (length csv) csv pos) as [Hs1 Hs2]; [done|lia|]. fold start in Hs1, Hs2.
  pose proof (cut0_length_drop csv (Z.to_nat start)) as Hlen'.
  destruct (csv_token_spec (length csv) csv start 0) as (p' & Htok & Hp' & Hc'); [lia|lia|].
  set (r := cut0 (drop (Z.to_nat start) csv)) in *. set (t := take_while not_comma r) in *.
  destruct (cut0_is_drop csv start ltac:(lia)) as [rest Hrest]. fold r in Hrest.
  pose proof (take_skip_while not_comma r) as Hr. fold t in Hr. rewrite <- Hc' in Hr.
  assert (drop (Z.to_nat start) csv = t ++ cut0 (drop (Z.to_nat p') csv) ++ rest) as Hd.
  { by rewrite Hrest, <- Hr, <- app_assoc. }
  assert (length t ≤ length csv)%nat.
  { apply (f_equal length) in Hd. rewrite length_drop, length_app in Hd. lia. }
  assert (∀ c s, r = c :: s → is_sep c = false) as Hsep.
  { intros c s Hcs. rewrite Hs2 in Hcs. by eapply skip_while_head. }
  exists p', t. split_and!; [done|lia|lia|..].
  - apply csv_trim_spec; [lia|lia|]. rewrite Hd. apply take_app_length.
  - destruct (rstrip_prefix t) as [k Hk]. rewrite Hd. rewrite Hk at 2. rewrite <- app_assoc.
    apply take_app_length.
  - rewrite <- names_of_skip, <- Hs2, names_of_token by done. fold t. by rewrite <- Hc'.
  - assert (length r ≤ length (cut0 (drop (Z.to_nat pos) csv)))%nat as Hrl
      by (rewrite Hs2; apply skip_while_length).
    rewrite (cut0_drop csv pos) in Hs2 |- * by done.
    destruct (Z.eqb_spec (cat csv pos) 0); [done|]. simpl in *.
    apply (f_equal length) in Hr. rewrite length_app in Hr.
    destruct (is_sep (cat csv pos)) eqn:Es.
    + pose proof (skip_while_length is_sep (cut0 (drop (Z.to_nat (pos + 1)) csv))).
      rewrite <- Hs2 in *. lia.
    + assert (not_comma (cat csv pos) = true) as Ec.
      { unfold is_sep, not_comma in *. by destruct (cat csv pos =? 44); [rewrite orb_true_r in Es|]. }
      subst t. rewrite Hs2 in Hr. simpl in Hr. rewrite Ec in Hr. simpl in Hr. lia.
Qed.

Lemma csv_loop_spec fuel csv pos name nm : 0 ≤ pos → nm ≠ [] →
  take (length nm) name = nm →
  (length (cut0 (drop (Z.to_nat pos) csv)) < fuel)%nat →
  csv_loop fuel csv pos name (Z.of_nat (length nm)) =
  bool_decide (nm ∈ names_of (cut0 (drop (Z.to_nat pos) csv))).
Proof.
  intros Hp Hnm Hname. revert pos Hp. induction fuel as [|f IH]; intros pos Hp Hf; [lia|].
  simpl. destruct (Z.eqb_spec (cat csv pos) 0) as [E|E].
  { by rewrite cut0_drop, E by done. }
  destruct (csv_round csv pos) as (p' & t & -> & Hs & Hp' & -> & Htk & -> & Hlt); [done..|].
  rewrite Nat2Z.id.
  assert (rstrip t ≠ nm →
    csv_loop f csv p' name (Z.of_nat (length nm)) =
    bool_decide (nm ∈ (if decide (rstrip t = []) then [] else [rstrip t])
                      ++ names_of (cut0 (drop (Z.to_nat p') csv)))) as Hgo.
  { intros Hne. rewrite IH by (lia || done). apply bool_decide_ext.
    rewrite elem_of_app. split; [by right|]. intros [H|]; [|done].
    case_decide; [by apply not_elem_of_nil in H|]. apply list_elem_of_singleton in H. congruence. }
  destruct (Z.eqb_spec (Z.of_nat (length (rstrip t))) (Z.of_nat (length nm))) as [El|El]; simpl.
  - rewrite (bytes_match_list _ _ _ _ nm) by (done || lia).
    destruct (decide (rstrip t = nm)) as [Eu|Eu]; [|rewrite bool_decide_eq_false_2 by done; auto].
    rewrite bool_decide_eq_true_2 by done. symmetry. apply bool_decide_eq_true.
    rewrite Eu, decide_False by done. set_solver.
  - apply Hgo. congruence.
Qed.

Lemma take_cut0 n s : take (length (take n (cut0 s))) s = take n (cut0 s).
Proof.
  revert n. induction s as [|c s IH]; intros n; simpl; [by rewrite !take_nil|].
  destruct (c =? 0); [by rewrite take_nil|]. destruct n as [|n]; simpl; [done|]. by rewrite IH.
Qed.

(** the interface list test is membership in the comma-separated names,
    spaces stripped and empty names left out; a lone star admits every name. *)
Theorem csv_has_names name_max csv name :
  take (Z.to_nat name_max) (cut0 name) ≠ [] →
  csv_has name_max (Some csv) (Some name) =
  bool_decide (cut0 csv = [42] ∨ take (Z.to_nat name_max) (cut0 name) ∈ csv_names csv).
Proof.
  intros Hnm. unfold csv_has. rewrite cstr_len_spec.
  set (nm := take (Z.to_nat name_max) (cut0 name)) in *.
  pose proof (cut0_length_drop csv 0) as Hl. rewrite drop_0 in Hl.
  assert (csv_loop (S (length csv)) csv 0 name (Z.of_nat (length nm)) =
    bool_decide (nm ∈ csv_names csv)) as Hloop.
  { rewrite csv_loop_spec; [by rewrite drop_0|lia|done|apply take_cut0|]. simpl. rewrite drop_0. lia. }
  assert (csv_names csv = names_of (cut0 csv)) as Hcn by done.
  pose proof (cut0_drop csv 0 ltac:(lia)) as H0. simpl Z.to_nat in H0. rewrite drop_0 in H0.
  destruct (Z.eqb_spec (cat csv 0) 0) as [E|E].
  { rewrite Hcn, H0. symmetry. apply bool_decide_eq_false. intros [?|H]; [done|].
    by apply not_elem_of_nil in H. }
  pose proof (cut0_drop csv 1 ltac:(lia)) as H1. change (Z.to_nat (0 + 1)) with (Z.to_nat 1) in H0.
  destruct (Z.eqb_spec (cat csv 0) 42) as [E0|E0]; cbn [andb].
  - destruct (Z.eqb_spec (cat csv 1) 0) as [E1|E1].
    + symmetry. apply bool_decide_eq_true. left. rewrite H0, H1, E0. done.
    + rewrite Hloop. apply bool_decide_ext. rewrite H0, H1. by split; [auto|intros [?|?]].
  - rewrite Hloop. apply bool_decide_ext. rewrite H0.
    split; [auto|intros [[= ? _]|?]; done].
Qed.

(** ** Copies and printable names *)
Lemma copy_cstr_loop_spec n i src : 0 ≤ i →
  copy_cstr_loop n i src = take n (cut0 (drop (Z.to_nat i) src)).
Proof.
  revert i. induction n as [|n IH]; intros i Hi; simpl; [done|].
  rewrite cut0_drop by done. destruct (cat src i =? 0); [done|]. simpl. by rewrite IH by lia.
Qed.

Lemma copy_cstr_spec dst max src : 0 < max →
  copy_cstr dst max (Some src) = take (Z.to_nat (max - 1)) (cut0 src).
Proof.
  intros Hm. unfold copy_cstr. destruct (Z.eqb_spec max 0); [lia|].
  rewrite copy_cstr_loop_spec by done. by rewrite drop_0.
Qed.

Lemma printable_loop_spec n i s seen : 0 ≤ i → Forall (λ c, 0 ≤ c < 256) s →
  printable_loop n i s seen = true ↔
  Forall printable (take n (cut0 (drop (Z.to_nat i) s))) ∧
  (seen = true ∨ take n (cut0 (drop (Z.to_nat i) s)) ≠ []).
Proof.
  intros Hi Hb. revert i seen Hi. induction n as [|n IH]; intros i seen Hi; simpl.
  { rewrite list.Forall_nil. intuition congruence. }
  rewrite cut0_drop by done. unfold u8.
  assert (0 ≤ cat s i < 256) as Hc.
  { unfold cat. rewrite nth_lookup. destruct (s !! Z.to_nat i) as [c|] eqn:E; simpl; [|lia].
    by eapply Forall_lookup_1 in Hb. }
  rewrite Z.mod_small by lia. destruct (Z.eqb_spec (cat s i) 0); simpl.
  { rewrite list.Forall_nil. intuition congruence. }
  rewrite list.Forall_cons. unfold printable at 1.
  destruct (Z.ltb_spec (cat s i) 32), (Z.ltb_spec 126 (cat s i)); simpl; try (split; [done|lia]).
  rewrite IH by lia. intuition (lia || congruence).
Qed.

Lemma printable_name_spec name_max s : Forall (λ c, 0 ≤ c < 256) s →
  printable_name name_max (Some s) = true ↔
  take (Z.to_nat name_max) (cut0 s) ≠ [] ∧ Forall printable (take (Z.to_nat name_max) (cut0 s)).
Proof.
  intros Hb. unfold printable_name. rewrite printable_loop_spec by done.
  rewrite drop_0. intuition congruence.
Qed.

(** Only the bytes up to the bound count. *)
Lemma printable_loop_ext n i s s' seen :
  (∀ k, i ≤ k < i + Z.of_nat n → cat s k = cat s' k) →
  printable_loop n i s seen = printable_loop n i s' seen.
Proof.
  revert i seen. induction n as [|n IH]; intros i seen H; simpl; [done|].
  rewrite (H i) by lia. repeat case_match; [done..|]. apply IH. intros k Hk. apply H. lia.
Qed.

(** ** The environment block *)
Section env.
Context (buf : list Z) (env_len : Z).
Context (Hlen : 0 ≤ env_len ≤ Z.of_nat (length buf)).
Abbreviation B := (take (Z.to_nat env_len) buf).

Lemma drop_block pos : 0 ≤ pos < env_len → drop (Z.to_nat pos) B = cat buf pos :: drop (Z.to_nat (pos + 1)) B.
Proof.
  intros Hp. destruct (drop_cat B pos) as [(E & _ & _)|E]; [lia|..].
  - apply (f_equal length) in E. rewrite length_drop, length_take in E. simpl in E. lia.
  - by rewrite cat_take in E by lia.
Qed.

Lemma drop_block_end pos : env_len ≤ pos → drop (Z.to_nat pos) B = [].
Proof. intros Hp. apply drop_ge. rewrite length_take. lia. Qed.

Lemma env_scan_spec fuel pos : 0 ≤ pos → (length (drop (Z.to_nat pos) B) ≤ fuel)%nat →
  env_scan fuel buf env_len pos = pos + Z.of_nat (length (cut0 (drop (Z.to_nat pos) B))).
Proof.
  revert pos. induction fuel as [|f IH]; intros pos Hp Hf; simpl.
  { destruct (drop _ _); simpl in *; lia. }
  destruct (Z.ltb_spec pos env_len); simpl.
  - rewrite drop_block in * by lia. simpl in *. destruct (cat buf pos =? 0); simpl; [lia|].
    rewrite IH by lia. lia.
  - rewrite drop_block_end by lia. simpl. lia.
Qed.

Lemma env_value_spec fuel pos v j out_sz : 0 ≤ v → pos ≤ env_len →
  (Z.to_nat (pos - v) ≤ fuel)%nat → 0 ≤ j →
  env_value fuel buf pos v j out_sz =
  take (Z.to_nat (out_sz - 1 - j)) (take (Z.to_nat (pos - v)) (drop (Z.to_nat v) B)).
Proof.
  revert v j. induction fuel as [|f IH]; intros v j Hv Hp Hf Hj; simpl.
  { by replace (Z.to_nat (pos - v)) with 0%nat by lia; rewrite take_0, take_nil. }
  destruct (Z.ltb_spec v pos), (Z.ltb_spec (j + 1) out_sz); simpl.
  - rewrite drop_block by lia. rewrite IH by lia.
    replace (Z.to_nat (pos - v)) with (S (Z.to_nat (pos - (v + 1)))) by lia.
    replace (Z.to_nat (out_sz - 1 - j)) with (S (Z.to_nat (out_sz - 1 - (j + 1)))) by lia.
    done.
  - by replace (Z.to_nat (out_sz - 1 - j)) with 0%nat by lia.
  - by replace (Z.to_nat (pos - v)) with 0%nat by lia; rewrite take_0, take_nil.
  - by replace (Z.to_nat (out_sz - 1 - j)) with 0%nat by lia.
Qed.

Lemma split_on_cut r : split_on 0 r =
  cut0 r :: match drop (length (cut0 r)) r with [] => [] | _ :: r' => split_on 0 r' end.
Proof.
  induction r as [|c r IH]; simpl; [done|]. destruct (c =? 0); simpl; [done|]. by rewrite IH.
Qed.

Lemma cut0_prefix r : ∃ k, r = cut0 r ++ k.
Proof.
  induction r as [|c r [k IH]]; simpl; [by exists []|]. destruct (c =? 0); [by exists (c :: r)|].
  exists k. simpl. by rewrite <- IH.
Qed.

(** The test of one entry: long enough, an equals sign behind the name, and
    the name in front of it. *)
Lemma env_entry_test name start : 0 ≤ start →
  let e := cut0 (drop (Z.to_nat start) B) in
  (start + Z.of_nat (length name) <? start + Z.of_nat (length e)) &&
  (cat buf (start + Z.of_nat (length name)) =? 61) && bytes_match (length name) 0 buf start name =
  bool_decide (take (S (length name)) e = name ++ [61]).
Proof.
  intros Hs e. remember (length name) as n eqn:Hn. apply eq_true_iff_eq.
  rewrite !andb_true_iff, Z.ltb_lt, Z.eqb_eq, bytes_match_spec, bool_decide_eq_true by lia.
  destruct (cut0_prefix (drop (Z.to_nat start) B)) as [k Hk]. fold e in Hk.
  assert (∀ i, 0 ≤ i < Z.of_nat (length e) → cat buf (start + i) = cat e i) as He.
  { intros i Hi. assert (start + i < env_len) as Hlt.
    { apply (f_equal length) in Hk. rewrite length_drop, length_take, length_app in Hk. lia. }
    rewrite <- (cat_take buf (Z.to_nat env_len)) by lia. rewrite cat_drop by lia. rewrite Hk.
    unfold cat. rewrite !nth_lookup, lookup_app_l by lia. done. }
  split.
  - intros [[Hl Heq] Hm]. apply (list_eq_same_length _ _ (S n)).
    { rewrite length_app. simpl. lia. }
    { rewrite length_take. lia. }
    intros i x y Hi Hx Hy. rewrite lookup_take_lt in Hx by lia.
    assert (cat e (Z.of_nat i) = x) as Hcx by (unfold cat; by rewrite nth_lookup, Nat2Z.id, Hx).
    rewrite <- He in Hcx by lia.
    destruct (decide (i = n)) as [->|Hin].
    + subst n. rewrite lookup_app_r, Nat.sub_diag in Hy by done. simpl in Hy. congruence.
    + rewrite lookup_app_l in Hy by lia. rewrite Hm in Hcx by lia.
      unfold cat in Hcx. rewrite nth_lookup, Nat2Z.id, Hy in Hcx. done.
  - intros Ht. assert (S n ≤ length e)%nat as Hle.
    { apply (f_equal length) in Ht. rewrite length_take, length_app in Ht. cbn [length] in Ht. lia. }
    assert (∀ i, 0 ≤ i ≤ Z.of_nat n → cat buf (start + i) = cat (name ++ [61]) i) as Hb.
    { intros i Hi. rewrite He by lia. rewrite <- Ht. by rewrite cat_take by lia. }
    split_and!; [lia|..].
    + rewrite Hb by lia. unfold cat. rewrite nth_lookup, lookup_app_r by lia.
      by rewrite Nat2Z.id, Hn, Nat.sub_diag.
    + intros i Hi. rewrite Hb by lia. unfold cat. by rewrite !nth_lookup, lookup_app_l by lia.
Qed.

Lemma env_loop_spec fuel name pos out_sz : 0 ≤ pos →
  (length (drop (Z.to_nat pos) B) < fuel)%nat →
  env_loop fuel buf env_len name (Z.of_nat (length name)) pos out_sz =
  match env_find name (split_on 0 (drop (Z.to_nat pos) B)) with
  | Some v => (true, take (Z.to_nat (out_sz - 1)) v)
  | None => (false, [])
  end.
Proof.
  revert pos. induction fuel as [|f IH]; intros pos Hp Hf; [lia|]. simpl.
  assert (env_find name [[]] = None) as Hnil by (simpl; by rewrite decide_False by by destruct name).
  destruct (Z.ltb_spec pos env_len) as [Hlt|Hge].
  2:{ rewrite drop_block_end by done. change (split_on 0 []) with [@nil Z]. by rewrite Hnil. }
  assert (length (drop (Z.to_nat pos) B) ≤ length buf)%nat as Hbl
    by (rewrite length_drop, length_take; lia).
  rewrite env_scan_spec, Nat2Z.id, env_entry_test by done.
  rewrite split_on_cut. set (e := cut0 (drop (Z.to_nat pos) B)). simpl.
  destruct (cut0_prefix (drop (Z.to_nat pos) B)) as [k Hk]. fold e in Hk.
  pose proof (f_equal length Hk) as Hkl. rewrite length_drop, length_take, length_app in Hkl.
  case_bool_decide as Ht; [rewrite decide_True by done|rewrite decide_False by done].
  - f_equal. rewrite env_value_spec by lia. rewrite Z.sub_0_r. f_equal.
    replace (Z.to_nat (pos + Z.of_nat (length name) + 1))
      with (Z.to_nat pos + S (length name))%nat by lia.
    rewrite <- drop_drop, Hk.
    assert (S (length name) ≤ length e)%nat.
    { apply (f_equal length) in Ht. rewrite length_take, length_app in Ht. cbn [length] in Ht. lia. }
    rewrite drop_app_le by done. rewrite take_app_le by (rewrite length_drop; lia).
    rewrite take_ge by (rewrite length_drop; lia). done.
  - replace (Z.to_nat (pos + Z.of_nat (length e) + 1)) with (Z.to_nat pos + S (length e))%nat in *
      by lia.
    rewrite IH by (rewrite ?length_drop, ?length_take in *; lia).
    replace (Z.to_nat (pos + Z.of_nat (length e) + 1)) with (Z.to_nat pos + S (length e))%nat by lia.
    rewrite <- drop_drop. rewrite Hk. rewrite (drop_app_ge e k) by lia.
    rewrite drop_app_length. replace (S (length e) - length e)%nat with 1%nat by lia.
    destruct k as [|c k]; [|done]. change (drop 1 []) with (@nil Z).
    change (split_on 0 []) with [@nil Z]. by rewrite Hnil.
Qed.

Lemma env_get_in_spec name out_sz : Forall (λ c, c ≠ 0) name → (length name < 128)%nat →
  env_get_in buf env_len name out_sz =
  match env_find name (split_on 0 B) with
  | Some v => (true, take (Z.to_nat (out_sz - 1)) v)
  | None => (false, [])
  end.
Proof.
  intros Hnz Hl. unfold env_get_in. rewrite cstr_len_spec.
  assert (cut0 name = name) as ->.
  { induction Hnz as [|c s Hc _ IH]; simpl; [done|]. simpl in Hl.
    destruct (Z.eqb_spec c 0); [done|]. by rewrite IH by lia. }
  rewrite take_ge by lia.
  rewrite env_loop_spec; [by rewrite drop_0|done|]. rewrite drop_0, length_take. lia.
Qed.
End env.

Lemma csv_has_names_witness :
  csv_has 32 (Some (chars "rmnet_data0, eth0 ,,wlan0")) (Some (chars "eth0")) =
  bool_decide (cut0 (chars "rmnet_data0, eth0 ,,wlan0") = [42] ∨
    take (Z.to_nat 32) (cut0 (chars "eth0")) ∈ csv_names (chars "rmnet_data0, eth0 ,,wlan0")).
Proof. apply (csv_has_names 32 (chars "rmnet_data0, eth0 ,,wlan0") (chars "eth0")). by vm_compute. Defined.
