(* ===== verification/BridgeBase.v ===== *)
(** * The ABI bridge: constants, external interfaces, state and logging

    The part of [ipacm_abi_bridge_v5.c] everything else rests on: its
    constants, the layouts it takes from the IPA header ([IpaAbi]), the
    kernel it calls ([OsApi]), its static variables ([bst]), the system call
    wrappers, the environment, the configuration, the [/dev/ipa] test and the
    log. *)
From stdpp Require Import base tactics list gmap strings numbers.
From Stdlib Require Import ZArith Lia.
From S2P Require Import Prelude Mem CStr.

(** ** Constants of the bridge *)
Definition MAX_ENV_BUF : Z := 4096.
Definition MAX_CFG_STR : Z := 256.
Definition MAX_LOG_PATH : Z := 160.
Definition MAX_PROPS : Z := 16.
Definition OLD_ATTR_SIZE : Z := 152.
Definition OLD_TX_SIZE : Z := 200.
Definition OLD_RX_SIZE : Z := 164.
Definition OLD_TX_DST : Z := 156.
Definition OLD_TX_ALT : Z := 160.
Definition OLD_TX_HDR : Z := 164.
Definition OLD_TX_L2 : Z := 196.
Definition OLD_RX_SRC : Z := 156.
Definition OLD_RX_L2 : Z := 160.
Definition QUERY_PREFIX_SIZE : Z := 36.
Definition PIPE_MAX : Z := 1024.
Definition RT_FLT_MAX_TRANSLATE_RULES : Z := 8.
Definition ATTR_COMMON_SIZE : Z := 148.
Definition OLD_RT_RULE_SIZE : Z := 168.
Definition OLD_RT_ADD_SIZE : Z := 180.
Definition OLD_RT_ADD_AT_REAR : Z := 168.
Definition OLD_RT_ADD_HDL : Z := 172.
Definition OLD_RT_ADD_STATUS : Z := 176.
Definition OLD_FLT_RULE_SIZE : Z := 360.
Definition OLD_FLT_ADD_SIZE : Z := 372.
Definition OLD_FLT_ADD_AT_REAR : Z := 360.
Definition OLD_FLT_ADD_HDL : Z := 364.
Definition OLD_FLT_ADD_STATUS : Z := 368.
Definition OLD_GEN_EQ_SIZE : Z := 340.
Definition OLD_GEN_EQ_ATTR : Z := 4.
Definition OLD_GEN_EQ_EQ : Z := 156.

Definition DEFAULT_LOG_PATH : list Z := chars "/usrdata/ipacm_abi_bridge_v5.log".
Definition ENV_PATH : list Z := chars "/proc/self/environ".

(** ** The IPA header

    [linux/msm_ipa.h] and the kernel's ioctl encoding are not part of the
    repository: field offsets, structure sizes and ioctl numbers are
    parameters. [f_len] is a scalar field's width in bytes. *)
Record cfield := CField { f_off : Z; f_len : Z }.

(** The eight structures of the ADD_RT / ADD_FLT ioctls. [as_rules] is the rule
    array (first versions) or the 64-bit pointer to it (V2 versions); a
    structure that lacks a field leaves it unused. *)
Record add_struct := AddStruct {
  as_ip : cfield; as_num_rules : cfield; as_rules : cfield; as_rule_size : cfield;
  as_after : cfield; as_tbl_name : Z; as_ep : cfield; as_global : cfield }.

(** The structures of the MDFY and DEL ioctls. *)
Record hdl_struct := HdlStruct { hs_ip : cfield; hs_num : cfield; hs_size : cfield }.

(** A rule structure: its size inside the array and the fields the bridge moves. *)
Record rule_add_struct := RuleAddStruct {
  ra_size : Z; ra_at_rear : Z; ra_hdl : Z; ra_status : Z }.

Class IpaAbi := {
  IOC_NRSHIFT : Z; IOC_NRMASK : Z; IOC_TYPESHIFT : Z; IOC_TYPEMASK : Z;
  IPA_IOC_MAGIC : Z; IPA_RESOURCE_NAME_MAX : Z;
  IPA_IOCTL_QUERY_INTF_TX_PROPS : Z; IPA_IOCTL_QUERY_INTF_RX_PROPS : Z;
  IPA_IOCTL_QUERY_INTF_EXT_PROPS : Z;
  IPA_IOCTL_ADD_RT_RULE : Z; IPA_IOCTL_ADD_RT_RULE_V2 : Z;
  IPA_IOCTL_ADD_RT_RULE_AFTER : Z; IPA_IOCTL_ADD_RT_RULE_AFTER_V2 : Z;
  IPA_IOCTL_MDFY_RT_RULE : Z; IPA_IOCTL_MDFY_RT_RULE_V2 : Z; IPA_IOCTL_DEL_RT_RULE : Z;
  IPA_IOCTL_ADD_FLT_RULE : Z; IPA_IOCTL_ADD_FLT_RULE_V2 : Z;
  IPA_IOCTL_ADD_FLT_RULE_AFTER : Z; IPA_IOCTL_ADD_FLT_RULE_AFTER_V2 : Z;
  IPA_IOCTL_MDFY_FLT_RULE : Z; IPA_IOCTL_MDFY_FLT_RULE_V2 : Z; IPA_IOCTL_DEL_FLT_RULE : Z;
  IPA_IOCTL_GENERATE_FLT_EQ : Z;
  (* struct ipa_ioc_query_intf_{tx,rx,ext}_props *)
  qtx_name : Z; qtx_num : cfield; qtx_tx : Z;
  qrx_name : Z; qrx_num : cfield; qrx_rx : Z;
  qext_name : Z; qext_num : cfield; qext_ext : Z;
  (* struct ipa_ioc_tx_intf_prop *)
  txp_size : Z; txp_ip : Z; txp_attrib : Z; txp_dst_pipe : Z; txp_alt_dst_pipe : Z;
  txp_hdr_name : Z; txp_hdr_l2_type : Z;
  (* struct ipa_ioc_rx_intf_prop *)
  rxp_size : Z; rxp_ip : Z; rxp_attrib : Z; rxp_src_pipe : Z; rxp_hdr_l2_type : Z;
  (* struct ipa_ioc_ext_intf_prop *)
  extp_size : Z; extp_ip : cfield; extp_action : cfield; extp_rt_tbl_idx : cfield;
  extp_mux_id : cfield; extp_is_xlat_rule : cfield;
  (* struct ipa_rt_rule, ipa_flt_rule, ipa_rt_rule_add, ipa_flt_rule_add *)
  rt_max_prio : Z; flt_eq_attrib : Z; flt_rt_tbl_idx : Z;
  rt_add : rule_add_struct; flt_add : rule_add_struct;
  (* struct ipa_ioc_add_{rt,flt}_rule{,_v2,_after,_after_v2} *)
  add_rt_rule : add_struct; add_rt_rule_v2 : add_struct;
  add_rt_rule_after : add_struct; add_rt_rule_after_v2 : add_struct;
  add_flt_rule : add_struct; add_flt_rule_v2 : add_struct;
  add_flt_rule_after : add_struct; add_flt_rule_after_v2 : add_struct;
  mdfy_rt_rule : hdl_struct; mdfy_rt_rule_v2 : hdl_struct; del_rt_rule : hdl_struct;
  mdfy_flt_rule : hdl_struct; mdfy_flt_rule_v2 : hdl_struct; del_flt_rule : hdl_struct;
  (* struct ipa_ioc_generate_flt_eq *)
  gen_attrib : Z; gen_eq_attrib : Z }.

(** ** The kernel

    System calls answer from the calls made so far (newest first). An ioctl
    also gets the memory and may write to it. *)
Inductive sysev :=
  | EvOpen (path : list Z) (flags mode fd : Z)
  | EvRead (fd count n : Z)
  | EvWrite (fd : Z) (bytes : list Z)
  | EvClose (fd : Z)
  | EvReadlink (path : list Z) (n : Z)
  | EvIoctl (fd req arg ret : Z).

Class OsApi := {
  os_open : list sysev → list Z → Z → Z → Z;
  os_read : list sysev → Z → Z → Z * list Z;
  os_readlink : list sysev → list Z → Z → Z * list Z;
  os_ioctl : list sysev → Z → Z → Z → mem → Z * mem }.

(** ** The bridge's static variables *)
Record bridge_cfg := BridgeCfg {
  loaded : Z; mode_translate : Z; tx : Z; rx : Z; ext : Z; rt_flt_log : Z;
  rt_flt_translate : Z; fail_closed : Z; hexdump_once : Z;
  allow : list Z; translate : list Z; log_path : list Z }.

Record env_cache := EnvCache { env_loaded : Z; env_len : Z; env_buf : list Z }.
Record fd_cache := FdCache { cached_fd : Z; cached_is_ipa : Z }.

Record bst := Bst {
  b_mem : mem; g_cfg : bridge_cfg; g_hexdump_mask : Z;
  b_env : env_cache; b_fdc : fd_cache; b_trace : list sysev }.

Definition cfg0 : bridge_cfg := BridgeCfg 0 0 0 0 0 0 0 0 0 [] [] [].

(** The statics as the loader leaves them. *)
Definition bst0 (m : mem) : bst := Bst m cfg0 0 (EnvCache 0 0 []) (FdCache (-1) 0) [].

Definition set_mem (s : bst) m : bst :=
  Bst m (g_cfg s) (g_hexdump_mask s) (b_env s) (b_fdc s) (b_trace s).
Definition set_cfg (s : bst) c : bst :=
  Bst (b_mem s) c (g_hexdump_mask s) (b_env s) (b_fdc s) (b_trace s).
Definition set_mask (s : bst) k : bst :=
  Bst (b_mem s) (g_cfg s) k (b_env s) (b_fdc s) (b_trace s).
Definition set_env (s : bst) e : bst :=
  Bst (b_mem s) (g_cfg s) (g_hexdump_mask s) e (b_fdc s) (b_trace s).
Definition set_fdc (s : bst) f : bst :=
  Bst (b_mem s) (g_cfg s) (g_hexdump_mask s) (b_env s) f (b_trace s).
Definition set_trace (s : bst) t : bst :=
  Bst (b_mem s) (g_cfg s) (g_hexdump_mask s) (b_env s) (b_fdc s) t.

Definition set_mode_translate c v : bridge_cfg :=
  BridgeCfg (loaded c) v (tx c) (rx c) (ext c) (rt_flt_log c) (rt_flt_translate c)
    (fail_closed c) (hexdump_once c) (allow c) (translate c) (log_path c).
Definition set_allow c v : bridge_cfg :=
  BridgeCfg (loaded c) (mode_translate c) (tx c) (rx c) (ext c) (rt_flt_log c)
    (rt_flt_translate c) (fail_closed c) (hexdump_once c) v (translate c) (log_path c).
Definition set_translate c v : bridge_cfg :=
  BridgeCfg (loaded c) (mode_translate c) (tx c) (rx c) (ext c) (rt_flt_log c)
    (rt_flt_translate c) (fail_closed c) (hexdump_once c) (allow c) v (log_path c).
Definition set_log_path c v : bridge_cfg :=
  BridgeCfg (loaded c) (mode_translate c) (tx c) (rx c) (ext c) (rt_flt_log c)
    (rt_flt_translate c) (fail_closed c) (hexdump_once c) (allow c) (translate c) v.

Abbreviation B := (M bst).

(** A memory operation inside the bridge. *)
Definition on_mem {A} (k : M mem A) : B A := λ s,
  match k (b_mem s) with Some (a, m) => Some (a, set_mem s m) | None => None end.

Definition emit (e : sysev) : B unit := modify (λ s, set_trace s (e :: b_trace s)).

(** ** Field accesses *)
Fixpoint le_val (bs : list Z) : Z :=
  match bs with [] => 0 | b :: bs' => u8 b + 256 * le_val bs' end.

Definition rdf (p : Z) (f : cfield) : M mem Z :=
  let* bs := load_bytes (Z.to_nat (f_len f)) (p + f_off f) in ret (le_val bs).

(** The characters of an array up to its NUL, at most [n]. *)
Fixpoint load_cstr (n : nat) (p : Z) : M mem (list Z) :=
  match n with
  | O => ret []
  | S n' =>
      let* c := load8 p in
      if c =? 0 then ret [] else let* cs := load_cstr n' (p + 1) in ret (c :: cs)
  end.

Section bridge.
Context `{IpaAbi} `{OsApi}.

(** ** System calls *)
Definition sys_ioctl (fd req arg : Z) : B Z := λ s,
  let '(r, m) := os_ioctl (b_trace s) fd req arg (b_mem s) in
  Some (r, set_trace (set_mem s m) (EvIoctl fd req arg r :: b_trace s)).

Definition sys_open (path : list Z) (flags mode : Z) : B Z := λ s,
  let r := os_open (b_trace s) path flags mode in
  Some (r, set_trace s (EvOpen path flags mode r :: b_trace s)).

(** The count read and the bytes the caller's array received. *)
Definition sys_read (fd count : Z) : B (Z * list Z) := λ s,
  let '(r, bs) := os_read (b_trace s) fd count in
  Some ((r, bs), set_trace s (EvRead fd count r :: b_trace s)).

(** No caller looks at the result of a write. *)
Definition sys_write (fd : Z) (bytes : list Z) : B unit := emit (EvWrite fd bytes).

Definition sys_close (fd : Z) : B unit := emit (EvClose fd).

Definition sys_readlink (path : list Z) (count : Z) : B (Z * list Z) := λ s,
  let '(r, bs) := os_readlink (b_trace s) path count in
  Some ((r, bs), set_trace s (EvReadlink path r :: b_trace s)).

(** ** The environment *)
Definition env_load : B unit :=
  let* e := gets b_env in
  if env_loaded e =? 0 then
    let* fd := sys_open ENV_PATH 0 0 in
    (if 0 <=? fd then
       let* '(n, bs) := sys_read fd (MAX_ENV_BUF - 1) in
       sys_close fd ;;
       let n := if n <? 0 then 0 else n in
       (* env_buf[env_len] = 0 *)
       if n <? MAX_ENV_BUF
       then modify (λ s, set_env s (EnvCache 0 n (take (Z.to_nat n) bs)))
       else ub
     else ret tt) ;;
    modify (λ s, set_env s (EnvCache 1 (env_len (b_env s)) (env_buf (b_env s))))
  else ret tt.

(** The result and the string left in [out]. *)
Definition env_get (name : list Z) (out_sz : Z) : B (bool * list Z) :=
  env_load ;;
  if out_sz =? 0 then ret (false, [])
  else
    let* e := gets b_env in
    ret (env_get_in (env_buf e) (env_len e) name out_sz).

Definition parse_bool_env (name : list Z) (def : Z) : B Z :=
  let* '(found, v) := env_get name 16 in
  ret (if negb found then def
       else if str_eq v (chars "1") || str_eq v (chars "yes") || str_eq v (chars "true")
               || str_eq v (chars "on") then 1
       else if str_eq v (chars "0") || str_eq v (chars "no") || str_eq v (chars "false")
               || str_eq v (chars "off") then 0
       else def).

(** ** Configuration *)
Definition load_cfg : B unit :=
  let* c := gets g_cfg in
  if negb (loaded c =? 0) then ret tt
  else
    modify (λ s, set_cfg s (let c := g_cfg s in
      BridgeCfg 1 0 (tx c) (rx c) (ext c) (rt_flt_log c) (rt_flt_translate c) (fail_closed c)
        (hexdump_once c) (allow c) (translate c) (log_path c))) ;;
    let* v_tx := parse_bool_env (chars "IPA_ABI_BRIDGE_TX") 1 in
    let* v_rx := parse_bool_env (chars "IPA_ABI_BRIDGE_RX") 1 in
    let* v_ext := parse_bool_env (chars "IPA_ABI_BRIDGE_EXT") 1 in
    let* v_log := parse_bool_env (chars "IPA_ABI_BRIDGE_RT_FLT_LOG") 1 in
    let* v_tr := parse_bool_env (chars "IPA_ABI_BRIDGE_RT_FLT_TRANSLATE") 0 in
    let* v_fc := parse_bool_env (chars "IPA_ABI_BRIDGE_FAIL_CLOSED") 1 in
    let* v_hd := parse_bool_env (chars "IPA_ABI_BRIDGE_HEXDUMP_ONCE") 1 in
    modify (λ s, set_cfg s (let c := g_cfg s in
      BridgeCfg (loaded c) (mode_translate c) v_tx v_rx v_ext v_log v_tr v_fc v_hd
        (copy_cstr (allow c) MAX_CFG_STR (Some (chars "eth0")))
        (copy_cstr (translate c) MAX_CFG_STR (Some []))
        (copy_cstr (log_path c) MAX_LOG_PATH (Some DEFAULT_LOG_PATH)))) ;;
    let* '(f1, v1) := env_get (chars "IPA_ABI_BRIDGE_MODE") MAX_CFG_STR in
    (when f1 && str_eq v1 (chars "translate")
     then modify (λ s, set_cfg s (set_mode_translate (g_cfg s) 1))) ;;
    let* '(f2, v2) := env_get (chars "IPA_ABI_BRIDGE_ALLOW_IFACES") MAX_CFG_STR in
    (when f2 then modify (λ s, set_cfg s (set_allow (g_cfg s)
       (copy_cstr (allow (g_cfg s)) MAX_CFG_STR (Some v2))))) ;;
    let* '(f3, v3) := env_get (chars "IPA_ABI_BRIDGE_TRANSLATE_IFACES") MAX_CFG_STR in
    (when f3 then modify (λ s, set_cfg s (set_translate (g_cfg s)
       (copy_cstr (translate (g_cfg s)) MAX_CFG_STR (Some v3))))) ;;
    let* '(f4, v4) := env_get (chars "IPA_ABI_BRIDGE_LOG") MAX_CFG_STR in
    (when f4 then modify (λ s, set_cfg s (set_log_path (g_cfg s)
       (copy_cstr (log_path (g_cfg s)) MAX_LOG_PATH (Some v4))))).

(** ** Interface lists *)
Definition load_name (p : Z) : B (list Z) :=
  on_mem (load_cstr (Z.to_nat IPA_RESOURCE_NAME_MAX) p).

Definition iface_allowed (name : Z) : B bool :=
  load_cfg ;;
  let* c := gets g_cfg in
  let* nm := load_name name in
  ret (csv_has IPA_RESOURCE_NAME_MAX (Some (allow c)) (Some nm)).

Definition iface_translate_allowed (name : Z) : B bool :=
  load_cfg ;;
  let* c := gets g_cfg in
  if mode_translate c =? 0 then ret false
  else
    let* nm := load_name name in
    ret (csv_has IPA_RESOURCE_NAME_MAX (Some (translate c)) (Some nm)).

(** ** The /dev/ipa test *)
(** [do { if (nrev >= sizeof(rev)) return 0; rev[nrev++] = '0' + v % 10; v /= 10; } while (v);]
    The digits, most significant first; [None] is the early return. *)
Fixpoint fd_digits (fuel : nat) (nrev v : Z) (acc : list Z) : option (list Z) :=
  match fuel with
  | O => None
  | S f =>
      if 12 <=? nrev then None
      else
        let acc := (48 + v mod 10) :: acc in
        if v / 10 =? 0 then Some acc else fd_digits f (nrev + 1) (v / 10) acc
  end.

Definition fd_path (fd : Z) : option (list Z) :=
  match fd_digits 13 0 (u32 fd) [] with
  | Some ds => Some (chars "/proc/self/fd/" ++ ds)
  | None => None
  end.

Definition fd_is_ipa_dev (fd : Z) : B Z :=
  let* c := gets b_fdc in
  if fd =? cached_fd c then ret (cached_is_ipa c)
  else
    modify (λ s, set_fdc s (FdCache fd 0)) ;;
    match fd_path fd with
    | None => ret 0
    | Some path =>
        let* '(n, link) := sys_readlink path (64 - 1) in
        if n <=? 0 then ret 0
        else if 64 <=? n then ub (* link[n] = 0 *)
        else
          (when str_eq_n (take (Z.to_nat n) link) (chars "/dev/ipa") 8
           then modify (λ s, set_fdc s (FdCache fd 1))) ;;
          let* c := gets b_fdc in ret (cached_is_ipa c)
    end.

(** ** Logging *)
Definition log_open : B Z :=
  load_cfg ;;
  let* c := gets g_cfg in
  sys_open (log_path c) 0x441 0x180.

Definition log_s (fd : Z) (s : list Z) : B unit :=
  sys_write fd (take (Z.to_nat (cstr_len (Some s) 512)) s).

Definition log_name (fd : Z) (p : Z) : B unit :=
  let* nm := load_name p in
  sys_write fd nm.

Definition hex_digit (d : Z) : Z := cat (chars "0123456789abcdef") d.

Definition log_hex32_fd (fd val : Z) : B unit :=
  sys_write fd (chars "0x" ++
    map (λ i, hex_digit (Z.land (Z.shiftr val (28 - i * 4)) 15)) [0; 1; 2; 3; 4; 5; 6; 7]).

(** [log_s(fd, key); log_hex32_fd(fd, v);] *)
Definition log_kx (fd : Z) (key : string) (v : Z) : B unit :=
  log_s fd (chars key) ;; log_hex32_fd fd v.

Definition newline : list Z := [10].

Definition log_kv4 (tag : string) (ifname a b c d : Z) (action : option string) : B unit :=
  let* fd := log_open in
  if fd <? 0 then ret tt
  else
    log_s fd (chars "[ABI] ") ;; log_s fd (chars tag) ;; log_s fd (chars " if=") ;;
    log_name fd ifname ;;
    log_kx fd " a=" a ;; log_kx fd " b=" b ;; log_kx fd " c=" c ;; log_kx fd " d=" d ;;
    match action with
    | Some act => log_s fd (chars " action=") ;; log_s fd (chars act)
    | None => ret tt
    end ;;
    log_s fd newline ;;
    sys_close fd.

Definition log_prop_tx (tag : string) (ifname idx ip dst alt l2 hdr : Z) : B unit :=
  let* fd := log_open in
  if fd <? 0 then ret tt
  else
    log_s fd (chars "[ABI] ") ;; log_s fd (chars tag) ;; log_s fd (chars " if=") ;;
    log_name fd ifname ;;
    log_kx fd " idx=" idx ;; log_kx fd " ip=" ip ;; log_kx fd " dst=" dst ;;
    log_kx fd " alt=" alt ;; log_kx fd " l2=" l2 ;;
    log_s fd (chars " hdr=") ;; log_name fd hdr ;;
    log_s fd newline ;;
    sys_close fd.

Definition log_prop_rx (tag : string) (ifname idx ip src l2 : Z) : B unit :=
  let* fd := log_open in
  if fd <? 0 then ret tt
  else
    log_s fd (chars "[ABI] ") ;; log_s fd (chars tag) ;; log_s fd (chars " if=") ;;
    log_name fd ifname ;;
    log_kx fd " idx=" idx ;; log_kx fd " ip=" ip ;; log_kx fd " src=" src ;; log_kx fd " l2=" l2 ;;
    log_s fd newline ;;
    sys_close fd.

Definition iface_id (name : Z) : B Z :=
  let* nm := load_name name in
  ret (if str_eq_32 IPA_RESOURCE_NAME_MAX nm (chars "eth0") then 0
       else if str_eq_32 IPA_RESOURCE_NAME_MAX nm (chars "rmnet_data0") then 1
       else if str_eq_32 IPA_RESOURCE_NAME_MAX nm (chars "rmnet_data1") then 2
       else if str_eq_32 IPA_RESOURCE_NAME_MAX nm (chars "bridge0") then 3
       else 4).

Definition log_hexdump_once (tag : string) (ifname buf len type : Z) : B unit :=
  load_cfg ;;
  let* c := gets g_cfg in
  if (hexdump_once c =? 0) || (buf =? 0) then ret tt
  else
    let* id := iface_id ifname in
    let bit := type * 8 + id in
    if 31 <=? bit then ret tt
    else
      let* mask := gets g_hexdump_mask in
      if negb (Z.land mask (u32 (Z.shiftl 1 bit)) =? 0) then ret tt
      else
        modify (λ s, set_mask s (Z.lor (g_hexdump_mask s) (u32 (Z.shiftl 1 bit)))) ;;
        let max := if 96 <? len then 96 else len in
        let* bs := on_mem (load_bytes (Z.to_nat max) buf) in
        let out := concat (map (λ b, [hex_digit (Z.land (Z.shiftr b 4) 15);
                                      hex_digit (Z.land b 15)]) bs) in
        let* fd := log_open in
        if fd <? 0 then ret tt
        else
          log_s fd (chars "[ABI] ") ;; log_s fd (chars tag) ;; log_s fd (chars " if=") ;;
          log_name fd ifname ;; log_s fd (chars " hex=") ;;
          sys_write fd out ;;
          log_s fd newline ;;
          sys_close fd.
End bridge.
