(* ===== verification/BridgeAbi.v ===== *)
(** * The ABI bridge: what it relies on

    The laws of the IPA header ([IpaAbiOk]) and of the system calls ([OsOk])
    the bridge's theorems use, with the instance the device's header and a
    small kernel give: [eth_abi] and [eth_os]. *)
From stdpp Require Import base tactics list gmap strings numbers.
From Stdlib Require Import ZArith Lia.
From S2P Require Import Prelude Mem CStr BridgeBase.

(** ** Laws of the header *)
(** Fields behind one another, each inside its record. *)
Definition field_in (o n size : Z) : Prop := 0 ≤ o ∧ o + n ≤ size.

Record rule_add_ok (st : rule_add_struct) (rule_end : Z) : Prop := RuleAddOk {
  ra_ok_rear : 0 < rule_end ≤ ra_at_rear st;
  ra_ok_hdl : ra_at_rear st + 1 ≤ ra_hdl st;
  ra_ok_status : ra_hdl st + 4 ≤ ra_status st;
  ra_ok_size : ra_status st + 4 ≤ ra_size st }.

(** The scalar fields of an ADD structure lie in its first [hdr] bytes. *)
Definition scalars_ok (st : add_struct) (hdr : Z) : Prop :=
  Forall (λ f, field_in (f_off f) (f_len f) hdr ∧ 0 ≤ f_len f)
    [as_ip st; as_num_rules st; as_rule_size st; as_after st; as_ep st; as_global st].

(** A structure that ends in a rule array behind its [hdr] bytes. *)
Record add_ok (st : add_struct) (hdr : Z) : Prop := AddOk {
  add_ok_scalars : scalars_ok st hdr;
  add_ok_num : field_in (f_off (as_num_rules st)) (f_len (as_num_rules st)) hdr;
  add_ok_num_len : 0 ≤ f_len (as_num_rules st);
  add_ok_rules : f_off (as_rules st) = hdr }.

(** A V2 structure: [hdr] bytes that hold the pointer and the rule size. *)
Record add_v2_ok (st : add_struct) (hdr : Z) : Prop := AddV2Ok {
  v2_ok_scalars : scalars_ok st hdr;
  v2_ok_num : field_in (f_off (as_num_rules st)) (f_len (as_num_rules st)) hdr;
  v2_ok_num_len : 0 ≤ f_len (as_num_rules st);
  v2_ok_rules : field_in (f_off (as_rules st)) 8 hdr;
  v2_ok_rules_len : f_len (as_rules st) = 8;
  v2_ok_size : field_in (f_off (as_rule_size st)) 4 hdr;
  v2_ok_apart : apart (f_off (as_rules st)) 8 (f_off (as_rule_size st)) 4 }.

Class IpaAbiOk `{IpaAbi} : Prop := {
  ok_name_max : 0 < IPA_RESOURCE_NAME_MAX ≤ 32;
  ok_tx_size : OLD_TX_SIZE ≤ txp_size;
  ok_tx_ip : txp_ip = 0;
  ok_tx_attrib : txp_attrib = 4;
  ok_tx_dst : 4 ≤ txp_dst_pipe;
  ok_tx_alt : txp_dst_pipe + 4 ≤ txp_alt_dst_pipe;
  ok_tx_hdr : txp_alt_dst_pipe + 4 ≤ txp_hdr_name;
  ok_tx_l2 : txp_hdr_name + IPA_RESOURCE_NAME_MAX ≤ txp_hdr_l2_type;
  ok_tx_end : txp_hdr_l2_type + 4 ≤ txp_size;
  ok_rx_size : OLD_RX_SIZE ≤ rxp_size;
  ok_rx_ip : rxp_ip = 0;
  ok_rx_attrib : rxp_attrib = 4;
  ok_rx_src : 4 ≤ rxp_src_pipe;
  ok_rx_l2 : rxp_src_pipe + 4 ≤ rxp_hdr_l2_type;
  ok_rx_end : rxp_hdr_l2_type + 4 ≤ rxp_size;
  ok_qtx_name : field_in qtx_name IPA_RESOURCE_NAME_MAX (f_off qtx_num);
  ok_qtx_num : 0 ≤ f_len qtx_num ∧ f_off qtx_num + f_len qtx_num ≤ QUERY_PREFIX_SIZE;
  ok_qtx_tx : qtx_tx = QUERY_PREFIX_SIZE;
  ok_qrx_name : field_in qrx_name IPA_RESOURCE_NAME_MAX (f_off qrx_num);
  ok_qrx_num : 0 ≤ f_len qrx_num ∧ f_off qrx_num + f_len qrx_num ≤ QUERY_PREFIX_SIZE;
  ok_qrx_rx : qrx_rx = QUERY_PREFIX_SIZE;
  ok_qext_name : field_in qext_name IPA_RESOURCE_NAME_MAX (f_off qext_num);
  ok_qext_num : 0 ≤ f_len qext_num ∧ f_off qext_num + f_len qext_num ≤ QUERY_PREFIX_SIZE;
  ok_qext_ext : qext_ext = QUERY_PREFIX_SIZE;
  ok_ext_fields : Forall (λ f, field_in (f_off f) (f_len f) extp_size ∧ 0 ≤ f_len f)
    [extp_ip; extp_action; extp_rt_tbl_idx; extp_mux_id; extp_is_xlat_rule];
  ok_rt_prio : 160 ≤ rt_max_prio;
  ok_rt_add : rule_add_ok rt_add (rt_max_prio + 4);
  ok_flt_eq : 160 ≤ flt_eq_attrib;
  ok_flt_tbl : flt_eq_attrib + 184 ≤ flt_rt_tbl_idx;
  ok_flt_add : rule_add_ok flt_add (flt_rt_tbl_idx + 12);
  ok_add_rt : add_ok add_rt_rule 44;
  ok_add_flt : add_ok add_flt_rule 16;
  ok_add_rt_after : add_ok add_rt_rule_after 48;
  ok_add_flt_after : add_ok add_flt_rule_after 20;
  ok_add_rt_v2 : add_v2_ok add_rt_rule_v2 64;
  ok_add_flt_v2 : add_v2_ok add_flt_rule_v2 40;
  ok_add_rt_after_v2 : add_v2_ok add_rt_rule_after_v2 64;
  ok_add_flt_after_v2 : add_v2_ok add_flt_rule_after_v2 40;
  ok_tbl_name : Forall (λ '(st, hdr), field_in (as_tbl_name st) IPA_RESOURCE_NAME_MAX hdr)
    [(add_rt_rule, 44); (add_rt_rule_after, 48); (add_rt_rule_v2, 64); (add_rt_rule_after_v2, 64)];
  ok_numbers : NoDup [IPA_IOCTL_ADD_RT_RULE; IPA_IOCTL_ADD_FLT_RULE; IPA_IOCTL_ADD_RT_RULE_AFTER;
    IPA_IOCTL_ADD_FLT_RULE_AFTER; IPA_IOCTL_ADD_RT_RULE_V2; IPA_IOCTL_ADD_FLT_RULE_V2;
    IPA_IOCTL_ADD_RT_RULE_AFTER_V2; IPA_IOCTL_ADD_FLT_RULE_AFTER_V2; IPA_IOCTL_GENERATE_FLT_EQ;
    IPA_IOCTL_MDFY_RT_RULE; IPA_IOCTL_MDFY_RT_RULE_V2; IPA_IOCTL_DEL_RT_RULE;
    IPA_IOCTL_MDFY_FLT_RULE; IPA_IOCTL_MDFY_FLT_RULE_V2; IPA_IOCTL_DEL_FLT_RULE;
    IPA_IOCTL_QUERY_INTF_TX_PROPS; IPA_IOCTL_QUERY_INTF_RX_PROPS; IPA_IOCTL_QUERY_INTF_EXT_PROPS];
  ok_gen_attrib : 4 ≤ gen_attrib;
  ok_gen_eq : gen_attrib + ATTR_COMMON_SIZE ≤ gen_eq_attrib }.

(** ** Laws of the system calls: [read] and [readlink] return at most what was
    asked for and fill that much of the buffer; the kernel never unmaps the
    caller's memory in an ioctl. *)
Class OsOk `{OsApi} : Prop := {
  ok_read : ∀ t fd c, (os_read t fd c).1 ≤ c ∧
    ((os_read t fd c).1 ≤ Z.of_nat (length (os_read t fd c).2));
  ok_readlink : ∀ t p c, (os_readlink t p c).1 ≤ c ∧
    ((os_readlink t p c).1 ≤ Z.of_nat (length (os_readlink t p c).2));
  ok_ioctl : ∀ t fd req arg m, mapped_le (vget m) (vget (os_ioctl t fd req arg m).2) }.

(** ** The header of the device *)
Definition F (o l : Z) : cfield := CField o l.
Definition no_field : cfield := CField 0 0.

#[export] Instance eth_abi : IpaAbi := {|
  IOC_NRSHIFT := 0; IOC_NRMASK := 255; IOC_TYPESHIFT := 8; IOC_TYPEMASK := 255;
  IPA_IOC_MAGIC := 207; IPA_RESOURCE_NAME_MAX := 32;
  IPA_IOCTL_QUERY_INTF_TX_PROPS := 23; IPA_IOCTL_QUERY_INTF_RX_PROPS := 24;
  IPA_IOCTL_QUERY_INTF_EXT_PROPS := 25;
  IPA_IOCTL_ADD_RT_RULE := 4; IPA_IOCTL_ADD_RT_RULE_V2 := 69;
  IPA_IOCTL_ADD_RT_RULE_AFTER := 43; IPA_IOCTL_ADD_RT_RULE_AFTER_V2 := 75;
  IPA_IOCTL_MDFY_RT_RULE := 30; IPA_IOCTL_MDFY_RT_RULE_V2 := 73; IPA_IOCTL_DEL_RT_RULE := 5;
  IPA_IOCTL_ADD_FLT_RULE := 6; IPA_IOCTL_ADD_FLT_RULE_V2 := 71;
  IPA_IOCTL_ADD_FLT_RULE_AFTER := 44; IPA_IOCTL_ADD_FLT_RULE_AFTER_V2 := 76;
  IPA_IOCTL_MDFY_FLT_RULE := 31; IPA_IOCTL_MDFY_FLT_RULE_V2 := 74; IPA_IOCTL_DEL_FLT_RULE := 7;
  IPA_IOCTL_GENERATE_FLT_EQ := 29;
  qtx_name := 0; qtx_num := F 32 4; qtx_tx := 36;
  qrx_name := 0; qrx_num := F 32 4; qrx_rx := 36;
  qext_name := 0; qext_num := F 32 4; qext_ext := 36;
  txp_size := 212; txp_ip := 0; txp_attrib := 4; txp_dst_pipe := 168; txp_alt_dst_pipe := 172;
  txp_hdr_name := 176; txp_hdr_l2_type := 208;
  rxp_size := 176; rxp_ip := 0; rxp_attrib := 4; rxp_src_pipe := 168; rxp_hdr_l2_type := 172;
  extp_size := 248; extp_ip := F 0 4; extp_action := F 188 4; extp_rt_tbl_idx := F 192 4;
  extp_mux_id := F 196 1; extp_is_xlat_rule := F 209 1;
  rt_max_prio := 176; flt_eq_attrib := 176; flt_rt_tbl_idx := 360;
  rt_add := RuleAddStruct 192 180 184 188; flt_add := RuleAddStruct 384 372 376 380;
  add_rt_rule := AddStruct (F 4 4) (F 40 1) (F 44 0) no_field no_field 8 no_field no_field;
  add_rt_rule_v2 := AddStruct (F 4 4) (F 40 1) (F 56 8) (F 44 4) no_field 8 no_field no_field;
  add_rt_rule_after := AddStruct (F 4 4) (F 40 1) (F 48 0) no_field (F 44 4) 8 no_field no_field;
  add_rt_rule_after_v2 := AddStruct (F 4 4) (F 40 1) (F 56 8) (F 48 4) (F 44 4) 8 no_field no_field;
  add_flt_rule := AddStruct (F 4 4) (F 13 1) (F 16 0) no_field no_field 0 (F 8 4) (F 12 1);
  add_flt_rule_v2 := AddStruct (F 4 4) (F 13 1) (F 24 8) (F 16 4) no_field 0 (F 8 4) (F 12 1);
  add_flt_rule_after := AddStruct (F 4 4) (F 12 1) (F 20 0) no_field (F 16 4) 0 (F 8 4) no_field;
  add_flt_rule_after_v2 := AddStruct (F 4 4) (F 12 1) (F 24 8) (F 20 4) (F 16 4) 0 (F 8 4) no_field;
  mdfy_rt_rule := HdlStruct (F 4 4) (F 8 1) no_field;
  mdfy_rt_rule_v2 := HdlStruct (F 4 4) (F 8 1) (F 12 4);
  del_rt_rule := HdlStruct (F 4 4) (F 8 1) no_field;
  mdfy_flt_rule := HdlStruct (F 4 4) (F 8 1) no_field;
  mdfy_flt_rule_v2 := HdlStruct (F 4 4) (F 8 1) (F 12 4);
  del_flt_rule := HdlStruct (F 4 4) (F 8 1) no_field;
  gen_attrib := 4; gen_eq_attrib := 168 |}.

(** ** A small kernel: the environment turns translation on for [eth0], every
    descriptor is [/dev/ipa], an ioctl succeeds and reports handle 17 for the
    rule behind the 44 bytes of an ADD_RT header, if that byte is mapped. *)
Definition nul : list Z := [0].
Definition eth_environ : list Z :=
  chars "PATH=/bin" ++ nul ++ chars "IPA_ABI_BRIDGE_MODE=translate" ++ nul ++
  chars "IPA_ABI_BRIDGE_TRANSLATE_IFACES=rmnet_data0, eth0" ++ nul ++
  chars "IPA_ABI_BRIDGE_RT_FLT_TRANSLATE=on" ++ nul.

#[export] Instance eth_os : OsApi := {|
  os_open _ path _ _ := if decide (path = ENV_PATH) then 3 else 4;
  os_read _ _ c := (Z.min c (Z.of_nat (length eth_environ)), eth_environ);
  os_readlink _ _ c := (Z.min c 8, chars "/dev/ipa");
  os_ioctl _ _ _ arg m :=
    (0, match m !! (arg + 216) with Some _ => <[arg + 216 := 17]> m | None => m end) |}.

(** ** The instances satisfy the laws *)
#[export] Instance eth_abi_ok : IpaAbiOk.
Proof.
  split; first [apply (bool_decide_unpack _); by vm_compute
    | repeat split; unfold scalars_ok; repeat constructor; vm_compute; first [done | by left | by right]].
Qed.

#[export] Instance eth_os_ok : OsOk.
Proof.
  split; simpl; intros.
  - lia.
  - lia.
  - intros a [b Ha]. unfold vget in *. destruct (m !! (arg + 216)) eqn:E; [|eauto].
    destruct (decide (a = arg + 216)) as [->|]; [rewrite lookup_insert_eq|rewrite lookup_insert_ne by done]; eauto.
Qed.

(** ** Concrete memories *)
Definition place (base : Z) (bs : list Z) : mem := list_to_map (zip (seqZ base (Z.of_nat (length bs))) bs).

Definition zeros (n : nat) : list Z := replicate n 0.

(** A character array of [n] bytes. *)
Definition padded (n : nat) (s : string) : list Z := take n (chars s ++ zeros n).

Lemma mapped_check m p n :
  forallb (λ a, bool_decide (is_Some ((m : mem) !! a))) (seqZ p n) = true → mapped (vget m) p n.
Proof.
  rewrite forallb_forall. intros Hc a Ha. apply (bool_decide_eq_true_1 _), Hc.
  apply list_elem_of_In, elem_of_seqZ. unfold within in Ha. lia.
Qed.

(** A TX query of [eth0] answered in the 02300 layout: one record, pipe 5,
    header [eth_v4]. Its buffer starts at 1000, the local array at 5000. *)
Definition tx_query_mem : mem :=
  place 1000 (padded 32 "eth0" ++ le_bytes 4 1 ++
    (le_bytes 4 0 ++ zeros 152 ++ le_bytes 4 5 ++ le_bytes 4 6 ++ padded 32 "eth_v4" ++ le_bytes 4 1)
    ++ zeros 12) ∪ place 5000 (zeros 200).

Definition rx_query_mem : mem :=
  place 1000 (padded 32 "eth0" ++ le_bytes 4 1 ++
    (le_bytes 4 0 ++ zeros 148 ++ le_bytes 4 2000 ++ le_bytes 4 9 ++ le_bytes 4 1) ++ zeros 12)
  ∪ place 5000 (zeros 200).
