(* ===== verification/BridgeConfig.v ===== *)
(** * The ABI bridge: configuration, descriptor test and log

    What [load_cfg], [fd_is_ipa_dev] and the logging functions do: the
    configuration is a function of the environment block, the log never
    touches the process's memory and closes what it opens. [quiet] is the
    interface the handlers' theorems use. *)
From stdpp Require Import base tactics list gmap strings numbers.
From Stdlib Require Import ZArith Lia.
From S2P Require Import Prelude Mem CStr BridgeBase BridgeAbi.

(** ** The configuration an environment block describes *)
Definition getenv (entries : list (list Z)) (name : string) (sz : Z) : option (list Z) :=
  take (Z.to_nat (sz - 1)) <$> env_find (chars name) entries.

Definition bool_of (def : Z) (v : option (list Z)) : Z :=
  match v with
  | None => def
  | Some v => if decide (v ∈ chars <$> ["1"; "yes"; "true"; "on"]%string) then 1
              else if decide (v ∈ chars <$> ["0"; "no"; "false"; "off"]%string) then 0 else def
  end.

Definition spec_cfg (entries : list (list Z)) : bridge_cfg := {|
  loaded := 1;
  mode_translate := if decide (getenv entries "IPA_ABI_BRIDGE_MODE" 256 = Some (chars "translate"))
                    then 1 else 0;
  tx := bool_of 1 (getenv entries "IPA_ABI_BRIDGE_TX" 16);
  rx := bool_of 1 (getenv entries "IPA_ABI_BRIDGE_RX" 16);
  ext := bool_of 1 (getenv entries "IPA_ABI_BRIDGE_EXT" 16);
  rt_flt_log := bool_of 1 (getenv entries "IPA_ABI_BRIDGE_RT_FLT_LOG" 16);
  rt_flt_translate := bool_of 0 (getenv entries "IPA_ABI_BRIDGE_RT_FLT_TRANSLATE" 16);
  fail_closed := bool_of 1 (getenv entries "IPA_ABI_BRIDGE_FAIL_CLOSED" 16);
  hexdump_once := bool_of 1 (getenv entries "IPA_ABI_BRIDGE_HEXDUMP_ONCE" 16);
  allow := default (chars "eth0") (getenv entries "IPA_ABI_BRIDGE_ALLOW_IFACES" 256);
  translate := default [] (getenv entries "IPA_ABI_BRIDGE_TRANSLATE_IFACES" 256);
  log_path := default DEFAULT_LOG_PATH (take 159 <$> getenv entries "IPA_ABI_BRIDGE_LOG" 256) |}.

(** The environment cache [env_get] works with, and its entries. *)
Definition env_ok (e : env_cache) : Prop := 0 ≤ env_len e ≤ Z.of_nat (length (env_buf e)).
Definition entries_of (e : env_cache) : list (list Z) :=
  split_on 0 (take (Z.to_nat (env_len e)) (env_buf e)).

Section config.
Context `{IpaAbi} `{OsApi}.

(** What a first [env_get] leaves in its static buffer. *)
Definition env_read (t : list sysev) : env_cache :=
  let fd := os_open t ENV_PATH 0 0 in
  if 0 <=? fd then
    let '(n, bs) := os_read (EvOpen ENV_PATH 0 0 fd :: t) fd (MAX_ENV_BUF - 1) in
    let n := if n <? 0 then 0 else n in EnvCache 1 n (take (Z.to_nat n) bs)
  else EnvCache 1 0 [].

Definition env_trace (t : list sysev) : list sysev :=
  let fd := os_open t ENV_PATH 0 0 in
  let t1 := EvOpen ENV_PATH 0 0 fd :: t in
  if 0 <=? fd then EvClose fd :: EvRead fd (MAX_ENV_BUF - 1) (os_read t1 fd (MAX_ENV_BUF - 1)).1 :: t1
  else t1.

Definition is_loaded (s : bst) : Prop := loaded (g_cfg s) ≠ 0.

(** The bridge's statics before its first call. *)
Definition fresh (s : bst) : Prop := loaded (g_cfg s) = 0 ∧ b_env s = EnvCache 0 0 [].

(** The configuration the bridge acts on. *)
Definition cfg_at (s : bst) : bridge_cfg :=
  if loaded (g_cfg s) =? 0 then spec_cfg (entries_of (env_read (b_trace s))) else g_cfg s.

(** ** Log sessions: an open that fails, or an open, writes (a read, for the
    environment) to the descriptor, and its close. *)
Definition event_on (fd : Z) (e : sysev) : Prop :=
  match e with EvWrite f _ | EvRead f _ _ => f = fd | _ => False end.

Inductive sessions : list sysev → Prop :=
  | sessions_nil : sessions []
  | sessions_failed p fl md r t : r < 0 → sessions t → sessions (EvOpen p fl md r :: t)
  | sessions_closed p fl md fd body t : 0 ≤ fd → Forall (event_on fd) body → sessions t →
      sessions (EvClose fd :: body ++ EvOpen p fl md fd :: t).

(** Nothing but the trace and the hexdump mask has changed, and the trace has
    grown by whole sessions. *)
Record quiet (s s' : bst) : Prop := Quiet {
  q_mem : b_mem s' = b_mem s;
  q_cfg : g_cfg s' = g_cfg s;
  q_env : b_env s' = b_env s;
  q_fdc : b_fdc s' = b_fdc s;
  q_trace : ∃ evs, b_trace s' = evs ++ b_trace s ∧ sessions evs }.

(** Inside a session on [fd]. *)
Record writing (fd : Z) (s s' : bst) : Prop := Writing {
  w_mem : b_mem s' = b_mem s;
  w_cfg : g_cfg s' = g_cfg s;
  w_env : b_env s' = b_env s;
  w_fdc : b_fdc s' = b_fdc s;
  w_trace : ∃ evs, b_trace s' = evs ++ b_trace s ∧ Forall (event_on fd) evs }.

(** ** Lemmas: sessions and [quiet] *)
Lemma sessions_app t1 t2 : sessions t1 → sessions t2 → sessions (t1 ++ t2).
Proof.
  intros H1 H2. induction H1; simpl; [done|by constructor|].
  rewrite <- app_assoc. simpl. by constructor.
Qed.

#[export] Instance quiet_refl : Reflexive quiet.
Proof. intros s. split; [done..|]. exists []. split; [done|constructor]. Qed.

#[export] Instance quiet_trans : Transitive quiet.
Proof.
  intros s1 s2 s3 [? ? ? ? (e1 & T1 & S1)] [? ? ? ? (e2 & T2 & S2)].
  split; [congruence..|]. exists (e2 ++ e1). rewrite T2, T1, app_assoc.
  split; [done|by apply sessions_app].
Qed.

Lemma quiet_mask s k : quiet s (set_mask s k).
Proof. split; [done..|]. exists []. split; [done|constructor]. Qed.

Lemma writing_refl fd s : writing fd s s.
Proof. split; [done..|]. by exists []. Qed.

Lemma writing_emit fd s0 s e : writing fd s0 s → event_on fd e →
  writing fd s0 (set_trace s (e :: b_trace s)).
Proof.
  intros [? ? ? ? (t & T & F)] He. split; [done..|]. exists (e :: t). simpl. rewrite T.
  split; [done|]. by constructor.
Qed.

Lemma wp_sys_write fd bs s0 s Q : writing fd s0 s →
  (∀ s', writing fd s0 s' → Q tt s') → wp (sys_write fd bs) Q s.
Proof. intros W HQ. apply wp_modify, HQ. by apply writing_emit. Qed.

Lemma wp_on_mem_read {A} (k : M mem A) a s Q :
  k (b_mem s) = Some (a, b_mem s) → Q a s → wp (on_mem k) Q s.
Proof. intros E HQ. unfold wp, on_mem. rewrite E. by destruct s. Qed.

(** A name can be read: NUL-terminated within its bounds or fully mapped. *)
Definition name_at (m : mem) (p : Z) (nm : list Z) : Prop :=
  load_cstr (Z.to_nat IPA_RESOURCE_NAME_MAX) p m = Some (nm, m).

Lemma wp_load_name p nm s Q : name_at (b_mem s) p nm → Q nm s → wp (load_name p) Q s.
Proof. apply wp_on_mem_read. Qed.

Lemma wp_log_s fd x s0 s Q : writing fd s0 s →
  (∀ s', writing fd s0 s' → Q tt s') → wp (log_s fd x) Q s.
Proof. apply wp_sys_write. Qed.

Lemma wp_log_hex fd v s0 s Q : writing fd s0 s →
  (∀ s', writing fd s0 s' → Q tt s') → wp (log_hex32_fd fd v) Q s.
Proof. apply wp_sys_write. Qed.

Lemma wp_log_kx fd k v s0 s Q : writing fd s0 s →
  (∀ s', writing fd s0 s' → Q tt s') → wp (log_kx fd k v) Q s.
Proof.
  intros W HQ. apply wp_bind. eapply wp_log_s; [done|]. intros s' W'. by eapply wp_log_hex.
Qed.

Lemma wp_log_name fd p nm s0 s Q : writing fd s0 s → name_at (b_mem s0) p nm →
  (∀ s', writing fd s0 s' → Q tt s') → wp (log_name fd p) Q s.
Proof.
  intros W N HQ. apply wp_bind. eapply wp_load_name; [by rewrite (w_mem _ _ _ W)|].
  by eapply wp_sys_write.
Qed.

Lemma load_cfg_loaded s : is_loaded s → load_cfg s = Some (tt, s).
Proof.
  intros L. unfold load_cfg, bind, gets. unfold is_loaded in L.
  by destruct (Z.eqb_spec (loaded (g_cfg s)) 0).
Qed.

Lemma wp_load_cfg_loaded s Q : is_loaded s → Q tt s → wp load_cfg Q s.
Proof. intros L HQ. unfold wp. by rewrite load_cfg_loaded. Qed.

Lemma wp_sys_open path fl md s Q :
  (let r := os_open (b_trace s) path fl md in Q r (set_trace s (EvOpen path fl md r :: b_trace s))) →
  wp (sys_open path fl md) Q s.
Proof. done. Qed.

(** A session: the log could not be opened, or the body writes and closes. *)
Lemma wp_session s (body : Z → M bst unit) Q : is_loaded s →
  (∀ s', quiet s s' → Q tt s') →
  (∀ fd s1, 0 ≤ fd → b_mem s1 = b_mem s → g_cfg s1 = g_cfg s → writing fd s1 s1 →
     (∀ s2, writing fd s1 s2 → quiet s (set_trace s2 (EvClose fd :: b_trace s2))) →
     wp (body fd) Q s1) →
  wp (let* fd := log_open in if fd <? 0 then ret tt else body fd) Q s.
Proof.
  intros L Hq Hb. wp_step. unfold log_open. wp_step. apply wp_load_cfg_loaded; [done|].
  wp_steps. apply wp_sys_open. cbv zeta. set (r := os_open _ _ _ _).
  destruct (Z.ltb_spec r 0).
  - apply wp_ret, Hq. split; [done..|]. exists [EvOpen (log_path (g_cfg s)) 0x441 0x180 r].
    split; [done|]. by repeat constructor.
  - apply Hb; [done|done|done|apply writing_refl|].
    intros s2 [? ? ? ? (t & T & F)]. split; [done..|].
    exists (EvClose r :: t ++ [EvOpen (log_path (g_cfg s)) 0x441 0x180 r]).
    simpl. rewrite T. simpl. split; [by rewrite <- app_assoc|].
    constructor; [done|done|constructor].
Qed.
End config.

#[export] Hint Resolve quiet_refl quiet_mask writing_refl : stack.

(** Runs the writes of a session and its close. *)
Ltac log_step :=
  cbv beta;
  lazymatch goal with
  | |- wp (bind _ _) _ _ => apply wp_bind
  | |- wp (ret _) _ _ => apply wp_ret
  | |- wp (sys_close _) _ _ => apply wp_modify
  | W : writing ?fd _ ?s |- wp ?op _ ?s =>
      lazymatch op with
      | log_s _ _ => eapply (wp_log_s _ _ _ _ _ W)
      | log_kx _ _ _ => eapply (wp_log_kx _ _ _ _ _ _ W)
      | log_hex32_fd _ _ => eapply (wp_log_hex _ _ _ _ _ W)
      | log_name _ _ => eapply (wp_log_name _ _ _ _ _ _ W); [eassumption|]
      | sys_write _ _ => eapply (wp_sys_write _ _ _ _ _ W)
      end;
      let s' := fresh "s" in let W' := fresh "W" in clear W; intros s' W'
  end.
Ltac log_steps := repeat log_step.

Section logs.
Context `{IpaAbi} `{OsApi}.

(** [log_x] leaves everything but the trace alone. *)
Definition logs_only {A} (m : B A) (s : bst) : Prop := wp m (λ _ s', quiet s s') s.

Lemma wp_quiet {A} (m : B A) s Q : logs_only m s → (∀ a s', quiet s s' → Q a s') → wp m Q s.
Proof. apply wp_mono. Qed.

Lemma log_kv4_quiet tag ifname nm a b c d act s : is_loaded s → name_at (b_mem s) ifname nm →
  logs_only (log_kv4 tag ifname a b c d act) s.
Proof.
  intros L N. apply wp_session; [done|auto|]. intros fd s1 Hfd Hm Hc W Hclose.
  rewrite <- Hm in N. log_steps. destruct act; log_steps; by apply Hclose.
Qed.

Lemma log_prop_tx_quiet tag ifname nm idx ip dst alt l2 hdr hn s : is_loaded s →
  name_at (b_mem s) ifname nm → name_at (b_mem s) hdr hn →
  logs_only (log_prop_tx tag ifname idx ip dst alt l2 hdr) s.
Proof.
  intros L N N'. apply wp_session; [done|auto|]. intros fd s1 Hfd Hm Hc W Hclose.
  rewrite <- Hm in N, N'. log_steps. by apply Hclose.
Qed.

Lemma log_prop_rx_quiet tag ifname nm idx ip src l2 s : is_loaded s →
  name_at (b_mem s) ifname nm → logs_only (log_prop_rx tag ifname idx ip src l2) s.
Proof.
  intros L N. apply wp_session; [done|auto|]. intros fd s1 Hfd Hm Hc W Hclose.
  rewrite <- Hm in N. log_steps. by apply Hclose.
Qed.

(** Reading leaves the memory alone. *)
Lemma load_bytes_run n p m : load_bytes n p m = (λ bs, (bs, m)) <$> vbytes (vget m) n p.
Proof.
  revert p. induction n as [|n IH]; intros p; simpl; [done|].
  unfold bind, load8, vget. destruct (m !! p); [|done]. rewrite IH.
  by destruct (vbytes _ n (p + 1)).
Qed.

Lemma rd32_run p m : rd32 p m = (λ w, (w, m)) <$> vword (vget m) p.
Proof.
  unfold rd32, bind, load8, vword, vget, ret.
  destruct (m !! p), (m !! (p + 1)), (m !! (p + 2)), (m !! (p + 3)); done.
Qed.

Fixpoint vcstr (v : view) (n : nat) (p : Z) : option (list Z) :=
  match n with
  | O => Some []
  | S n' => match v p with
            | None => None
            | Some c => if c =? 0 then Some [] else (λ cs, c :: cs) <$> vcstr v n' (p + 1)
            end
  end.

Lemma load_cstr_run n p m : load_cstr n p m = (λ cs, (cs, m)) <$> vcstr (vget m) n p.
Proof.
  revert p. induction n as [|n IH]; intros p; simpl; [done|].
  unfold bind, load8, vget. destruct (m !! p) as [c|]; [|done]. destruct (c =? 0); [done|].
  rewrite IH. by destruct (vcstr _ n (p + 1)).
Qed.

Lemma vcstr_mapped v n p : mapped v p (Z.of_nat n) → ∃ cs, vcstr v n p = Some cs.
Proof.
  revert p. induction n as [|n IH]; intros p Hm; simpl; [eauto|].
  destruct (Hm p) as [c ->]; [unfold within; lia|]. destruct (c =? 0); [eauto|].
  destruct (IH (p + 1)) as [cs ->]; [|eauto]. eapply mapped_sub; [done|lia..].
Qed.

Lemma vcstr_ext v v' n p p' : (∀ i, 0 ≤ i < Z.of_nat n → v (p + i) = v' (p' + i)) →
  vcstr v n p = vcstr v' n p'.
Proof.
  revert p p'. induction n as [|n IH]; intros p p' E; simpl; [done|].
  pose proof (E 0 ltac:(lia)) as E0. rewrite !Z.add_0_r in E0. rewrite E0.
  rewrite (IH (p + 1) (p' + 1)); [done|].
  intros i Hi. specialize (E (1 + i) ltac:(lia)). by rewrite <- !Z.add_assoc.
Qed.

Lemma name_at_vcstr m p nm :
  vcstr (vget m) (Z.to_nat IPA_RESOURCE_NAME_MAX) p = Some nm → name_at m p nm.
Proof. intros E. unfold name_at. by rewrite load_cstr_run, E. Qed.

Lemma name_at_inv m p nm :
  name_at m p nm → vcstr (vget m) (Z.to_nat IPA_RESOURCE_NAME_MAX) p = Some nm.
Proof. unfold name_at. rewrite load_cstr_run. by destruct (vcstr _ _ _); intros [= ->]. Qed.

Lemma name_at_mapped m p : 0 ≤ IPA_RESOURCE_NAME_MAX →
  mapped (vget m) p IPA_RESOURCE_NAME_MAX → ∃ nm, name_at m p nm.
Proof.
  intros Hn Hm. destruct (vcstr_mapped (vget m) (Z.to_nat IPA_RESOURCE_NAME_MAX) p) as [nm E].
  { by rewrite Z2Nat.id. }
  exists nm. by apply name_at_vcstr.
Qed.

Lemma wp_iface_id p nm s Q : name_at (b_mem s) p nm → (∀ i, 0 ≤ i ≤ 4 → Q i s) →
  wp (iface_id p) Q s.
Proof.
  intros N HQ. apply wp_bind. eapply wp_load_name; [done|]. apply wp_ret, HQ.
  repeat case_match; lia.
Qed.

Lemma log_hexdump_once_quiet tag ifname nm buf len type s : is_loaded s →
  name_at (b_mem s) ifname nm → 0 ≤ type → 0 ≤ len →
  mapped (vget (b_mem s)) buf (Z.min len 96) → logs_only (log_hexdump_once tag ifname buf len type) s.
Proof.
  intros L N Ht Hl Hm. unfold logs_only, log_hexdump_once.
  wp_step. apply wp_load_cfg_loaded; [done|]. wp_steps. case_match; [wp_steps; auto with stack|].
  wp_step. eapply wp_iface_id; [done|]. intros i Hi. cbv zeta.
  case_match; [wp_steps; auto with stack|]. wp_steps. case_match; [wp_steps; auto with stack|].
  wp_steps.
  set (s1 := set_mask s _). assert (quiet s s1) as Q1 by apply quiet_mask.
  set (max := if 96 <? len then 96 else len).
  destruct (vbytes_mapped (vget (b_mem s)) (Z.to_nat max) buf) as [bs Hbs].
  { rewrite Z2Nat.id by (unfold max; case_match; lia).
    eapply mapped_sub; [done|lia|]. unfold max. destruct (Z.ltb_spec 96 len); lia. }
  eapply (wp_on_mem_read _ bs). { rewrite load_bytes_run. change (b_mem s1) with (b_mem s). by rewrite Hbs. }
  apply wp_session; [done| |].
  { intros s' Q2. by transitivity s1. }
  intros fd s2 Hfd Hm2 _ W Hclose. assert (name_at (b_mem s2) ifname nm) by (by rewrite Hm2).
  log_steps. transitivity s1; [done|]. by apply Hclose.
Qed.

Lemma quiet_loaded s s' : quiet s s' → is_loaded s → is_loaded s'.
Proof. intros [_ E _ _ _]. unfold is_loaded. by rewrite E. Qed.
End logs.

(** ** What a handler does to the state

    From a state whose configuration is loaded, or from the initial one, a
    handler leaves the memory [m'], acts on the configuration [cfg_at] gives,
    and logs. *)
Section outcome.
Context `{IpaAbi} `{OsApi}.

Definition started (s : bst) : Prop := is_loaded s ∨ fresh s.

Record outcome (s : bst) (m' : mem) (s' : bst) : Prop := Outcome {
  o_mem : b_mem s' = m';
  o_loaded : is_loaded s';
  o_cfg : g_cfg s' = cfg_at s;
  o_fdc : b_fdc s' = b_fdc s;
  o_trace : ∃ evs, b_trace s' = evs ++ b_trace s ∧ sessions evs }.

Lemma outcome_quiet s m s1 s2 : outcome s m s1 → quiet s1 s2 → outcome s m s2.
Proof.
  intros [? Hl ? ? (e1 & T1 & S1)] Q2. pose proof (quiet_loaded _ _ Q2 Hl).
  destruct Q2 as [? ? ? ? (e2 & T2 & S2)]. split; [congruence|done|congruence|congruence|].
  exists (e2 ++ e1). rewrite T2, T1, app_assoc. split; [done|by apply sessions_app].
Qed.

Lemma outcome_mem s m m' s1 : outcome s m s1 → outcome s m' (set_mem s1 m').
Proof. intros [? ? ? ? ?]. by split. Qed.

Lemma outcome_refl s : is_loaded s → outcome s (b_mem s) s.
Proof.
  intros L. split; [done|done| |done|].
  - unfold cfg_at. unfold is_loaded in L. by destruct (Z.eqb_spec (loaded (g_cfg s)) 0).
  - exists []. split; [done|constructor].
Qed.
End outcome.
