(* ===== verification/BridgeEnv.v ===== *)
(** * The ABI bridge: the configuration and the descriptor test, specified

    [load_cfg] computes [spec_cfg] of the environment block, and
    [fd_is_ipa_dev] asks [/proc/self/fd] about the decimal descriptor and
    remembers the answer. *)
From stdpp Require Import base tactics list gmap strings numbers.
From Stdlib Require Import ZArith Lia.
From S2P Require Import Prelude Mem CStr BridgeBase BridgeAbi BridgeConfig.

(** Decimal value of a digit string. *)
Fixpoint dec_val (acc : Z) (ds : list Z) : Z :=
  match ds with [] => acc | d :: ds' => dec_val (acc * 10 + (d - 48)) ds' end.

Section env.
Context `{IpaAbi} `{OsApi} {OS : OsOk}.

(** ** Environment values hold no NUL *)
Lemma split_on_no_sep sep s e : e ∈ split_on sep s → sep ∉ e.
Proof.
  revert e. induction s as [|c s IH]; intros e; simpl.
  { intros ->%list_elem_of_singleton. apply not_elem_of_nil. }
  destruct (Z.eqb_spec c sep).
  - intros [->|?]%elem_of_cons; [apply not_elem_of_nil|auto].
  - destruct (split_on sep s) as [|t ts].
    { intros ->%list_elem_of_singleton. intros ->%list_elem_of_singleton. done. }
    intros [->|?]%elem_of_cons.
    + intros [->|?]%elem_of_cons; [done|]. eapply IH; [left|done].
    + apply IH. by right.
Qed.

Lemma env_find_in name es v : env_find name es = Some v →
  ∃ e, e ∈ es ∧ v = drop (S (length name)) e.
Proof.
  induction es as [|e es IH]; simpl; [done|]. case_decide.
  - intros [= <-]. exists e. split; [left|done].
  - intros (e' & ? & ->)%IH. exists e'. split; [by right|done].
Qed.

Lemma cut0_id s : 0 ∉ s → cut0 s = s.
Proof.
  induction s as [|c s IH]; simpl; [done|]. rewrite not_elem_of_cons. intros [? ?].
  destruct (Z.eqb_spec c 0); [done|]. by rewrite IH.
Qed.

Lemma getenv_no_nul blk name sz v : getenv (split_on 0 blk) name sz = Some v →
  cut0 v = v ∧ (length v ≤ Z.to_nat (sz - 1))%nat.
Proof.
  unfold getenv. intros (w & Hw & ->)%fmap_Some. apply env_find_in in Hw as (e & He & ->).
  apply split_on_no_sep in He. split; [|rewrite length_take; lia].
  apply cut0_id. intros Hin. apply He.
  apply elem_of_take in Hin as (i & Hi & _). rewrite lookup_drop in Hi.
  by eapply list_elem_of_lookup_2.
Qed.

(** ** [env_get] *)
Definition env_set (s : bst) : bst :=
  set_env (set_trace s (env_trace (b_trace s))) (env_read (b_trace s)).

Lemma env_read_ok t : env_ok (env_read t) ∧ env_loaded (env_read t) = 1.
Proof.
  unfold env_read, env_ok. destruct (0 <=? _); [|done].
  destruct (os_read _ _ _) as [n bs] eqn:E.
  pose proof (ok_read (EvOpen ENV_PATH 0 0 (os_open t ENV_PATH 0 0) :: t)
                (os_open t ENV_PATH 0 0) (MAX_ENV_BUF - 1)) as [_ Hl].
  rewrite E in Hl. simpl in *. rewrite length_take. destruct (Z.ltb_spec n 0); lia.
Qed.

Lemma env_load_fresh s : env_loaded (b_env s) = 0 → b_env s = EnvCache 0 0 [] →
  env_load s = Some (tt, env_set s).
Proof.
  intros _ E. destruct s as [m g k e f t]. simpl in E. subst e.
  unfold env_load, bind, gets, env_set, env_read, env_trace, sys_open, sys_read, sys_close, emit,
    modify, ret, set_env, set_trace. cbn -[ENV_PATH MAX_ENV_BUF].
  set (fd := os_open t ENV_PATH 0 0). destruct (0 <=? fd) eqn:Hfd; [|done].
  cbn -[ENV_PATH MAX_ENV_BUF].
  set (t1 := EvOpen ENV_PATH 0 0 fd :: t).
  pose proof (ok_read t1 fd (MAX_ENV_BUF - 1)) as [Hn Hl].
  destruct (os_read t1 fd (MAX_ENV_BUF - 1)) as [n bs] eqn:E. cbn -[MAX_ENV_BUF] in *.
  destruct (Z.ltb_spec (if n <? 0 then 0 else n) MAX_ENV_BUF) as [_|Hge]; [done|].
  unfold MAX_ENV_BUF in *. destruct (Z.ltb_spec n 0); lia.
Qed.

Lemma env_load_loaded s : env_loaded (b_env s) ≠ 0 → env_load s = Some (tt, s).
Proof.
  intros E. unfold env_load, bind, gets. by destruct (Z.eqb_spec (env_loaded (b_env s)) 0).
Qed.

Lemma env_get_run s name sz : env_loaded (b_env s) ≠ 0 → env_ok (b_env s) → sz ≠ 0 →
  Forall (λ c, c ≠ 0) (chars name) → (length (chars name) < 128)%nat →
  env_get (chars name) sz s =
  Some (match getenv (entries_of (b_env s)) name sz with
        | Some v => (true, v) | None => (false, []) end, s).
Proof.
  intros E Ho Hs Hn Hl. unfold env_get, bind at 1. rewrite env_load_loaded by done.
  destruct (Z.eqb_spec sz 0); [done|]. unfold bind, gets, ret.
  rewrite env_get_in_spec by done. unfold getenv, entries_of. by destruct (env_find _ _).
Qed.

(** The first call loads the environment and then behaves like any other. *)
Lemma env_get_first s name sz : b_env s = EnvCache 0 0 [] →
  env_get name sz s = env_get name sz (env_set s).
Proof.
  intros E. unfold env_get, bind at 1 3.
  rewrite env_load_fresh by (done || by rewrite E).
  rewrite env_load_loaded; [done|]. simpl. by rewrite (proj2 (env_read_ok _)).
Qed.

Lemma str_eq_getenv blk name sz v t : getenv (split_on 0 blk) name sz = Some v → cut0 t = t →
  str_eq v t = bool_decide (v = t).
Proof.
  intros [E _]%getenv_no_nul Ht. rewrite str_eq_spec. by rewrite E, Ht.
Qed.

Lemma or4_elem (v a b c d : list Z) :
  bool_decide (v = a) || bool_decide (v = b) || bool_decide (v = c) || bool_decide (v = d) =
  bool_decide (v ∈ [a; b; c; d]).
Proof.
  apply eq_true_iff_eq.
  rewrite !orb_true_iff, !bool_decide_eq_true, !elem_of_cons, elem_of_nil. tauto.
Qed.

Lemma parse_bool_run s name def : env_loaded (b_env s) ≠ 0 → env_ok (b_env s) →
  Forall (λ c, c ≠ 0) (chars name) → (length (chars name) < 128)%nat →
  parse_bool_env (chars name) def s =
  Some (bool_of def (getenv (entries_of (b_env s)) name 16), s).
Proof.
  intros E Ho Hn Hl. unfold parse_bool_env, bind. rewrite env_get_run by done. unfold ret.
  do 2 f_equal. destruct (getenv _ name 16) as [v|] eqn:Ev; [|done]. cbn [negb bool_of].
  rewrite !(str_eq_getenv _ _ _ _ _ Ev) by done.
  rewrite !or4_elem. cbn [fmap list_fmap].
  by do 2 (case_bool_decide; [by rewrite decide_True|rewrite decide_False by done]).
Qed.

(** ** [load_cfg] *)
Lemma parse_bool_first s name def : b_env s = EnvCache 0 0 [] →
  parse_bool_env name def s = parse_bool_env name def (env_set s).
Proof. intros E. unfold parse_bool_env, bind. by rewrite (env_get_first s). Qed.

Lemma bind_run {St A B} (m : M St A) (k : A → M St B) s a s' :
  m s = Some (a, s') → bind m k s = k a s'.
Proof. unfold bind. by intros ->. Qed.

Lemma copy_getenv dst blk name sz v : 0 < sz → getenv (split_on 0 blk) name sz = Some v →
  copy_cstr dst sz (Some v) = v.
Proof.
  intros Hs Hg. pose proof (getenv_no_nul _ _ _ _ Hg) as [E Hl].
  by rewrite copy_cstr_spec, E, take_ge by done.
Qed.

Lemma env_stage (name : string) (c : bool → list Z → bool)
    (F : bridge_cfg → list Z → bridge_cfg) (rest : B unit) (s : bst) :
  env_loaded (b_env s) ≠ 0 → env_ok (b_env s) →
  Forall (λ c, c ≠ 0) (chars name) → (length (chars name) < 128)%nat → c false [] = false →
  (let* '(f, v) := env_get (chars name) MAX_CFG_STR in
   (when c f v then modify (λ s, set_cfg s (F (g_cfg s) v))) ;; rest) s =
  rest (set_cfg s match getenv (entries_of (b_env s)) name 256 with
                  | Some v => if c true v then F (g_cfg s) v else g_cfg s
                  | None => g_cfg s
                  end).
Proof.
  intros E Ho Hn Hl Hc. erewrite bind_run by (by apply env_get_run).
  change MAX_CFG_STR with 256. destruct s as [m g k e f t]. simpl in *.
  destruct (getenv _ _ _) as [v|]; [|by rewrite Hc]. by destruct (c true v).
Qed.

Ltac name_ok := first [ by apply (bool_decide_unpack _); vm_compute | by vm_compute; lia ].

Lemma load_cfg_fresh s : fresh s →
  load_cfg s = Some (tt, set_cfg (env_set s) (spec_cfg (entries_of (env_read (b_trace s))))).
Proof.
  intros [L E]. unfold load_cfg.
  erewrite bind_run by reflexivity. rewrite L. cbn [negb Z.eqb].
  erewrite bind_run by reflexivity.
  destruct (env_read_ok (b_trace s)) as [Hok Hld].
  assert (env_loaded (env_read (b_trace s)) ≠ 0) as Hl by lia.
  erewrite bind_run by (rewrite parse_bool_first by done; apply parse_bool_run; [done|done|name_ok..]).
  do 6 (erewrite bind_run by (apply parse_bool_run; [done|done|name_ok..])).
  erewrite bind_run by reflexivity.
  rewrite (env_stage _ (λ f v, f && str_eq v (chars "translate")) (λ c _, set_mode_translate c 1));
    [|done|done|name_ok|name_ok|done].
  rewrite (env_stage _ (λ f _, f) (λ c v, set_allow c (copy_cstr (allow c) MAX_CFG_STR (Some v))));
    [|done|done|name_ok|name_ok|done].
  rewrite (env_stage _ (λ f _, f)
             (λ c v, set_translate c (copy_cstr (translate c) MAX_CFG_STR (Some v))));
    [|done|done|name_ok|name_ok|done].
  erewrite bind_run by (apply env_get_run; [done|done|done|name_ok|name_ok]).
  destruct s as [m g k e f t]. cbn [b_env b_trace set_cfg env_set set_env set_trace g_cfg] in *.
  set (es := entries_of (env_read t)). change MAX_CFG_STR with 256.
  assert (∀ name dst v, getenv es name 256 = Some v → copy_cstr dst 256 (Some v) = v) as Hc.
  { intros name dst v Hg. by eapply (copy_getenv dst _ name 256). }
  assert (∀ name dst v, getenv es name 256 = Some v →
            copy_cstr dst MAX_LOG_PATH (Some v) = take 159 v) as Hp.
  { intros name dst v Hg. apply getenv_no_nul in Hg as [E1 _]. by rewrite copy_cstr_spec, E1. }
  unfold spec_cfg. rewrite (decide_ext _ (Is_true (match getenv es "IPA_ABI_BRIDGE_MODE" 256 with
    Some v => true && str_eq v (chars "translate") | None => false end))).
  2:{ destruct (getenv es "IPA_ABI_BRIDGE_MODE" 256) as [v|] eqn:Ev; [|split; [done|by intros []]].
      rewrite (str_eq_getenv _ _ _ _ (chars "translate") Ev) by done.
      rewrite andb_true_l, bool_decide_spec. split; [by intros [= ->]|by intros ->]. }
  destruct (getenv es "IPA_ABI_BRIDGE_MODE" 256) as [v|]; [destruct (true && _)|];
  destruct (getenv es "IPA_ABI_BRIDGE_ALLOW_IFACES" 256) as [w|] eqn:Ew; try rewrite (Hc _ _ _ Ew);
  destruct (getenv es "IPA_ABI_BRIDGE_TRANSLATE_IFACES" 256) as [x|] eqn:Ex; try rewrite (Hc _ _ _ Ex);
  destruct (getenv es "IPA_ABI_BRIDGE_LOG" 256) as [y|] eqn:Ey;
  cbv beta iota; unfold modify; cbv beta; try rewrite (Hp _ _ _ Ey);
  reflexivity.
Qed.

Lemma env_trace_sessions t : ∃ evs, env_trace t = evs ++ t ∧ sessions evs.
Proof.
  unfold env_trace. set (fd := os_open t ENV_PATH 0 0). destruct (Z.leb_spec 0 fd).
  - exists (EvClose fd :: [EvRead fd (MAX_ENV_BUF - 1)
      (os_read (EvOpen ENV_PATH 0 0 fd :: t) fd (MAX_ENV_BUF - 1)).1] ++ [EvOpen ENV_PATH 0 0 fd]).
    split; [done|]. constructor; [done|by repeat constructor|constructor].
  - exists [EvOpen ENV_PATH 0 0 fd]. split; [done|]. by repeat constructor.
Qed.

Lemma wp_load_cfg s Q : started s → (∀ s', outcome s (b_mem s) s' → Q tt s') → wp load_cfg Q s.
Proof.
  intros [L|F] HQ.
  - apply wp_load_cfg_loaded; [done|]. by apply HQ, outcome_refl.
  - unfold wp. rewrite load_cfg_fresh by done. apply HQ. destruct F as [F _].
    split; [done|done| |done|].
    + unfold cfg_at. by rewrite F.
    + apply env_trace_sessions.
Qed.

(** The state once the configuration is there. *)
Definition after_load (s : bst) : bst :=
  if loaded (g_cfg s) =? 0
  then set_cfg (env_set s) (spec_cfg (entries_of (env_read (b_trace s)))) else s.

Lemma load_cfg_run s : started s → load_cfg s = Some (tt, after_load s).
Proof.
  unfold after_load. intros [L|F].
  - rewrite load_cfg_loaded by done. unfold is_loaded in L.
    by destruct (Z.eqb_spec (loaded (g_cfg s)) 0).
  - rewrite load_cfg_fresh by done. destruct F as [F _]. by rewrite F.
Qed.

Lemma after_load_outcome s : started s → outcome s (b_mem s) (after_load s).
Proof.
  intros St. assert (wp load_cfg (λ _ s', outcome s (b_mem s) s') s) as W by by apply wp_load_cfg.
  unfold wp in W. by rewrite load_cfg_run in W.
Qed.

(** ** The descriptor test *)
Lemma dec_val_snoc a ds d : dec_val a (ds ++ [d]) = dec_val a ds * 10 + (d - 48).
Proof. revert a. induction ds as [|x ds IH]; intros a; simpl; [done|]. by rewrite IH. Qed.

Definition is_digit (d : Z) : Prop := 48 ≤ d ≤ 57.

Lemma fd_digits_spec k fuel nrev v acc : (1 ≤ k ≤ fuel)%nat → 0 ≤ v < 10 ^ Z.of_nat k →
  nrev + Z.of_nat k ≤ 12 →
  ∃ ds, fd_digits fuel nrev v acc = Some (ds ++ acc) ∧ dec_val 0 ds = v ∧
        Forall is_digit ds ∧ (1 ≤ length ds ≤ k)%nat ∧ (head ds = Some 48 → ds = [48]).
Proof.
  revert fuel nrev v acc. induction k as [|k IH]; intros fuel nrev v acc Hk Hv Hn; [lia|].
  destruct fuel as [|fuel]; [lia|]. cbn [fd_digits].
  destruct (Z.leb_spec 12 nrev); [lia|].
  pose proof (Z.mod_pos_bound v 10 ltac:(lia)). pose proof (Z.div_mod v 10 ltac:(lia)).
  destruct (Z.eqb_spec (v / 10) 0) as [E|E].
  - exists [48 + v mod 10]. split_and!; [done|simpl; lia| |simpl; lia|simpl; lia|].
    + repeat constructor; lia.
    + by intros [= ->].
  - assert (0 < v / 10 < 10 ^ Z.of_nat k) as Hq.
    { split; [pose proof (Z.div_pos v 10 ltac:(lia) ltac:(lia)); lia|]. apply Z.div_lt_upper_bound; [lia|].
      rewrite <- Z.pow_succ_r by lia. rewrite <- Nat2Z.inj_succ. lia. }
    assert (1 ≤ k)%nat by (destruct k; [simpl in Hq; lia|lia]).
    destruct (IH fuel (nrev + 1) (v / 10) ((48 + v mod 10) :: acc)) as (ds & -> & Hd & Hf & Hl & Hh);
      [lia|lia|lia|].
    exists (ds ++ [48 + v mod 10]). rewrite <- app_assoc. split_and!.
    + done.
    + rewrite dec_val_snoc. lia.
    + apply Forall_app. split; [done|]. repeat constructor; lia.
    + rewrite length_app. simpl. lia.
    + rewrite length_app. simpl. lia.
    + destruct ds as [|d ds]; [simpl in Hl; lia|]. simpl. intros [= ->].
      injection (Hh eq_refl) as ->. simpl in Hd. lia.
Qed.

(** The path is the descriptor in decimal behind [/proc/self/fd/]; with its NUL
    it fits the 32 bytes of [path]. *)
Lemma fd_path_decimal fd : ∃ ds,
  fd_path fd = Some (chars "/proc/self/fd/" ++ ds) ∧ dec_val 0 ds = u32 fd ∧
  Forall is_digit ds ∧ (1 ≤ length ds ≤ 10)%nat ∧ (head ds = Some 48 → ds = [48]).
Proof.
  destruct (fd_digits_spec 10 13 0 (u32 fd) []) as (ds & E & ?); [lia| |lia|].
  { pose proof (Z.mod_pos_bound fd (2 ^ 32) ltac:(lia)). unfold u32. simpl Z.of_nat. lia. }
  exists ds. unfold fd_path. rewrite E, app_nil_r. done.
Qed.

(** What the link behind a descriptor says: the comparison stops after the
    eight characters of [/dev/ipa]. *)
Definition links_to_ipa (n : Z) (link : list Z) : Prop :=
  0 < n ∧ take 8 (cut0 (take (Z.to_nat n) link)) = chars "/dev/ipa".

#[export] Instance links_to_ipa_dec n link : Decision (links_to_ipa n link).
Proof. unfold links_to_ipa. apply _. Defined.

Lemma fd_is_ipa_dev_miss s fd path : fd ≠ cached_fd (b_fdc s) → fd_path fd = Some path →
  let '(n, link) := os_readlink (b_trace s) path 63 in
  let r := if decide (links_to_ipa n link) then 1 else 0 in
  fd_is_ipa_dev fd s =
  Some (r, set_trace (set_fdc s (FdCache fd r)) (EvReadlink path n :: b_trace s)).
Proof.
  intros Hne Hp. pose proof (ok_readlink (b_trace s) path 63) as [Hn Hl].
  destruct (os_readlink (b_trace s) path 63) as [n link] eqn:E. cbn [fst snd] in *. cbv zeta.
  unfold fd_is_ipa_dev, bind at 1, gets at 1. destruct (Z.eqb_spec fd (cached_fd (b_fdc s))); [done|].
  unfold bind at 1, modify at 1. rewrite Hp. unfold bind at 1, sys_readlink. cbn [b_trace set_fdc].
  change (64 - 1) with 63. rewrite E. unfold links_to_ipa.
  destruct (Z.leb_spec n 0); [rewrite decide_False by lia; done|].
  destruct (Z.leb_spec 64 n); [lia|].
  rewrite str_eq_n_spec. change (Z.to_nat 8) with 8%nat.
  change (take 8 (cut0 (chars "/dev/ipa"))) with (chars "/dev/ipa").
  case_bool_decide; [rewrite decide_True by done|rewrite decide_False by tauto]; done.
Qed.

Lemma fd_is_ipa_dev_hit s : fd_is_ipa_dev (cached_fd (b_fdc s)) s = Some (cached_is_ipa (b_fdc s), s).
Proof. unfold fd_is_ipa_dev, bind, gets. by rewrite Z.eqb_refl. Qed.

(** ** Properties *)
(** the first call of any handler reads the environment once and sets every
    option to what the first entry of its name says, cut to the option's
    buffer, or to its default; later calls change nothing. *)
Theorem load_cfg_spec s : fresh s →
  let s1 := set_cfg (env_set s) (spec_cfg (entries_of (env_read (b_trace s)))) in
  load_cfg s = Some (tt, s1) ∧ load_cfg s1 = Some (tt, s1).
Proof. intros F. split; [by apply load_cfg_fresh|by apply load_cfg_loaded]. Qed.

(** the descriptor test answers from its one-entry cache, or reads the link
    of the descriptor written in decimal (at most ten digits, no leading zero,
    so the path and its NUL fit 32 bytes), compares at most its first eight
    characters with [/dev/ipa] and caches the answer. *)
Theorem fd_is_ipa_dev_spec s fd :
  fd_is_ipa_dev fd s =
  if decide (fd = cached_fd (b_fdc s)) then Some (cached_is_ipa (b_fdc s), s)
  else let path := chars "/proc/self/fd/" ++ default [] (fd_digits 13 0 (u32 fd) []) in
       let '(n, link) := os_readlink (b_trace s) path 63 in
       let r := if decide (links_to_ipa n link) then 1 else 0 in
       Some (r, set_trace (set_fdc s (FdCache fd r)) (EvReadlink path n :: b_trace s)).
Proof.
  case_decide as Hd; [subst; apply fd_is_ipa_dev_hit|].
  destruct (fd_path_decimal fd) as (ds & Hp & _).
  destruct (fd_digits 13 0 (u32 fd) []) as [ds'|] eqn:E; [|unfold fd_path in Hp; by rewrite E in Hp].
  assert (fd_path fd = Some (chars "/proc/self/fd/" ++ ds')) as Hp' by (unfold fd_path; by rewrite E).
  pose proof (fd_is_ipa_dev_miss s fd _ Hd Hp') as Hm. cbv zeta. change (default [] (Some ds')) with ds'.
  destruct (os_readlink _ _ _) as [n link]. exact Hm.
Qed.

(** the digits of the path are the decimal numeral of the descriptor. *)
Theorem fd_digits_decimal fd : ∃ ds, fd_digits 13 0 (u32 fd) [] = Some ds ∧
  dec_val 0 ds = u32 fd ∧ Forall is_digit ds ∧ (1 ≤ length ds ≤ 10)%nat ∧
  (head ds = Some 48 → ds = [48]).
Proof.
  destruct (fd_digits_spec 10 13 0 (u32 fd) []) as (ds & E & ?); [lia| |lia|].
  { pose proof (Z.mod_pos_bound fd (2 ^ 32) ltac:(lia)). unfold u32. simpl Z.of_nat. lia. }
  exists ds. rewrite E, app_nil_r. done.
Qed.
End env.

Lemma load_cfg_spec_witness :
  let s := bst0 ∅ in
  let s1 := set_cfg (env_set s) (spec_cfg (entries_of (env_read (b_trace s)))) in
  load_cfg s = Some (tt, s1) ∧ load_cfg s1 = Some (tt, s1).
Proof. apply (load_cfg_spec (bst0 ∅)). split; reflexivity. Defined.

Lemma fd_is_ipa_dev_spec_witness :
  fd_is_ipa_dev 9 (bst0 ∅) =
  if decide (9 = cached_fd (b_fdc (bst0 ∅))) then Some (cached_is_ipa (b_fdc (bst0 ∅)), bst0 ∅)
  else let path := chars "/proc/self/fd/" ++ default [] (fd_digits 13 0 (u32 9) []) in
       let '(n, link) := os_readlink (b_trace (bst0 ∅)) path 63 in
       let r := if decide (links_to_ipa n link) then 1 else 0 in
       Some (r, set_trace (set_fdc (bst0 ∅) (FdCache 9 r)) (EvReadlink path n :: b_trace (bst0 ∅))).
Proof. exact (fd_is_ipa_dev_spec (bst0 ∅) 9). Defined.
