(* ===== verification/BridgeQuery.v ===== *)
(** * The ABI bridge: interface property queries

    QUERY_INTF_TX_PROPS / RX_PROPS / EXT_PROPS of [ipacm_abi_bridge_v5.c]: the
    scores that tell the 02300 layout from the new one, the translation of
    the kernel's answer inside the caller's buffer, and the three handlers. *)
From stdpp Require Import base tactics list gmap strings numbers.
From Stdlib Require Import ZArith Lia.
From S2P Require Import Prelude Mem CStr BridgeBase.

Section query.
Context `{IpaAbi} `{OsApi}.

Definition b2z (b : bool) : Z := if b then 1 else 0.

(** ** Scores *)
Definition tx_score_layout (base n stride off_dst off_alt off_hdr off_l2 : Z) : M mem Z :=
  if (n =? 0) || (MAX_PROPS <? n) then ret 0
  else for_acc (Z.to_nat n) 0 (λ i score,
    let p := base + i * stride in
    let* ip := rd32 (p + 0) in
    let* dst := rd32 (p + off_dst) in
    let* alt := rd32 (p + off_alt) in
    let* l2 := rd32 (p + off_l2) in
    let score := score + b2z (ip <=? 1) in
    let score := score + b2z ((0 <? dst) && (dst <? PIPE_MAX)) in
    let score := score + b2z (alt <? PIPE_MAX) in
    let score := score + b2z (l2 <=? 4) in
    let* hdr := load_cstr (Z.to_nat IPA_RESOURCE_NAME_MAX) (p + off_hdr) in
    ret (score + b2z (printable_name IPA_RESOURCE_NAME_MAX (Some hdr)))) 0.

Definition rx_score_layout (base n stride off_src off_l2 : Z) : M mem Z :=
  if (n =? 0) || (MAX_PROPS <? n) then ret 0
  else for_acc (Z.to_nat n) 0 (λ i score,
    let p := base + i * stride in
    let* ip := rd32 (p + 0) in
    let* src := rd32 (p + off_src) in
    let* l2 := rd32 (p + off_l2) in
    let score := score + b2z (ip <=? 1) in
    let score := score + b2z ((0 <? src) && (src <? PIPE_MAX)) in
    ret (score + b2z (l2 <=? 4))) 0.

(** ** Translation in place, last record first; [tmp] is the local array *)
Definition translate_tx_02300_to_new (tmp q : Z) : M mem unit :=
  let new_tx_size := txp_size in
  let new_attr_size := txp_dst_pipe - 4 in
  let* n := rdf q qtx_num in
  let base := q + qtx_tx in
  for_down (Z.to_nat (u32 n)) (λ i,
    let oldp := base + i * OLD_TX_SIZE in
    let newp := base + i * new_tx_size in
    mem_copy tmp oldp OLD_TX_SIZE ;;
    mem_zero newp new_tx_size ;;
    mem_copy (newp + txp_ip) tmp 4 ;;
    mem_copy (newp + txp_attrib) (tmp + 4)
      (if OLD_ATTR_SIZE <? new_attr_size then OLD_ATTR_SIZE else new_attr_size) ;;
    mem_copy (newp + txp_dst_pipe) (tmp + OLD_TX_DST) 4 ;;
    mem_copy (newp + txp_alt_dst_pipe) (tmp + OLD_TX_ALT) 4 ;;
    mem_copy (newp + txp_hdr_name) (tmp + OLD_TX_HDR) IPA_RESOURCE_NAME_MAX ;;
    mem_copy (newp + txp_hdr_l2_type) (tmp + OLD_TX_L2) 4).

Definition translate_rx_02300_to_new (tmp q : Z) : M mem unit :=
  let new_rx_size := rxp_size in
  let new_attr_size := rxp_src_pipe - 4 in
  let* n := rdf q qrx_num in
  let base := q + qrx_rx in
  for_down (Z.to_nat (u32 n)) (λ i,
    let oldp := base + i * OLD_RX_SIZE in
    let newp := base + i * new_rx_size in
    mem_copy tmp oldp OLD_RX_SIZE ;;
    mem_zero newp new_rx_size ;;
    mem_copy (newp + rxp_ip) tmp 4 ;;
    mem_copy (newp + rxp_attrib) (tmp + 4)
      (if OLD_ATTR_SIZE <? new_attr_size then OLD_ATTR_SIZE else new_attr_size) ;;
    mem_copy (newp + rxp_src_pipe) (tmp + OLD_RX_SRC) 4 ;;
    mem_copy (newp + rxp_hdr_l2_type) (tmp + OLD_RX_L2) 4).

(** ** Property logs *)
Definition log_tx_props (tag : string) (ifname base n stride off_dst off_alt off_hdr off_l2 : Z)
    : B unit :=
  let n := if MAX_PROPS <? n then MAX_PROPS else n in
  for_up (Z.to_nat (Z.min n 3)) 0 (λ i,
    let p := base + i * stride in
    let* ip := on_mem (rd32 p) in
    let* dst := on_mem (rd32 (p + off_dst)) in
    let* alt := on_mem (rd32 (p + off_alt)) in
    let* l2 := on_mem (rd32 (p + off_l2)) in
    log_prop_tx tag ifname i ip dst alt l2 (p + off_hdr)).

Definition log_rx_props (tag : string) (ifname base n stride off_src off_l2 : Z) : B unit :=
  let n := if MAX_PROPS <? n then MAX_PROPS else n in
  for_up (Z.to_nat (Z.min n 3)) 0 (λ i,
    let p := base + i * stride in
    let* ip := on_mem (rd32 p) in
    let* src := on_mem (rd32 (p + off_src)) in
    let* l2 := on_mem (rd32 (p + off_l2)) in
    log_prop_rx tag ifname i ip src l2).

(** ** Handlers *)
Definition handle_query_tx (tmp q : Z) : B unit :=
  load_cfg ;;
  let* c := gets g_cfg in
  if (q =? 0) || (tx c =? 0) then ret tt
  else
    let name := q + qtx_name in
    let* ok := iface_allowed name in
    if negb ok then ret tt
    else
      let* n0 := on_mem (rdf q qtx_num) in
      let n := u32 n0 in
      if (n =? 0) || (MAX_PROPS <? n) then log_kv4 "QUERY_TX_SKIP" name n 0 0 0 (Some "bad_n"%string)
      else
        let base := q + qtx_tx in
        log_hexdump_once "QUERY_TX_RAW" name q (QUERY_PREFIX_SIZE + n * OLD_TX_SIZE) 0 ;;
        let* old_score := on_mem (tx_score_layout base n OLD_TX_SIZE
                                    OLD_TX_DST OLD_TX_ALT OLD_TX_HDR OLD_TX_L2) in
        let* new_score := on_mem (tx_score_layout base n txp_size
                                    txp_dst_pipe txp_alt_dst_pipe txp_hdr_name txp_hdr_l2_type) in
        let old_threshold := n * 4 in
        let new_threshold := n * 4 in
        log_tx_props "TX_OLD" name base n OLD_TX_SIZE OLD_TX_DST OLD_TX_ALT OLD_TX_HDR OLD_TX_L2 ;;
        let* tr := iface_translate_allowed name in
        let* c := gets g_cfg in
        let* action :=
          (if tr then
             if (old_threshold <=? old_score) && (new_score <? new_threshold)
             then on_mem (translate_tx_02300_to_new tmp q) ;; ret "translate_old_to_new"%string
             else if (old_threshold <=? old_score) && (new_threshold <=? new_score)
             then ret (if fail_closed c =? 0 then "ambiguous_noop"%string
                       else "ambiguous_fail_closed"%string)
             else ret "noop_score"%string
           else ret "log_only"%string) in
        log_kv4 "QUERY_TX" name n old_score new_score old_threshold (Some action) ;;
        let* n1 := on_mem (rdf q qtx_num) in
        log_tx_props "TX_NEW" name base (u32 n1) txp_size
          txp_dst_pipe txp_alt_dst_pipe txp_hdr_name txp_hdr_l2_type.

Definition handle_query_rx (tmp q : Z) : B unit :=
  load_cfg ;;
  let* c := gets g_cfg in
  if (q =? 0) || (rx c =? 0) then ret tt
  else
    let name := q + qrx_name in
    let* ok := iface_allowed name in
    if negb ok then ret tt
    else
      let* n0 := on_mem (rdf q qrx_num) in
      let n := u32 n0 in
      if (n =? 0) || (MAX_PROPS <? n) then log_kv4 "QUERY_RX_SKIP" name n 0 0 0 (Some "bad_n"%string)
      else
        let base := q + qrx_rx in
        log_hexdump_once "QUERY_RX_RAW" name q (QUERY_PREFIX_SIZE + n * OLD_RX_SIZE) 1 ;;
        let* old_score := on_mem (rx_score_layout base n OLD_RX_SIZE OLD_RX_SRC OLD_RX_L2) in
        let* new_score := on_mem (rx_score_layout base n rxp_size rxp_src_pipe rxp_hdr_l2_type) in
        let threshold := n * 3 in
        log_rx_props "RX_OLD" name base n OLD_RX_SIZE OLD_RX_SRC OLD_RX_L2 ;;
        let* tr := iface_translate_allowed name in
        let* c := gets g_cfg in
        let* action :=
          (if tr then
             if (threshold <=? old_score) && (new_score <? threshold)
             then on_mem (translate_rx_02300_to_new tmp q) ;; ret "translate_old_to_new"%string
             else if (threshold <=? old_score) && (threshold <=? new_score)
             then ret (if fail_closed c =? 0 then "ambiguous_noop"%string
                       else "ambiguous_fail_closed"%string)
             else ret "noop_score"%string
           else ret "log_only"%string) in
        log_kv4 "QUERY_RX" name n old_score new_score threshold (Some action) ;;
        let* n1 := on_mem (rdf q qrx_num) in
        log_rx_props "RX_NEW" name base (u32 n1) rxp_size rxp_src_pipe rxp_hdr_l2_type.

Definition handle_query_ext (q : Z) : B unit :=
  load_cfg ;;
  let* c := gets g_cfg in
  if (q =? 0) || (ext c =? 0) then ret tt
  else
    let name := q + qext_name in
    let* ok := iface_allowed name in
    if negb ok then ret tt
    else
      let* n0 := on_mem (rdf q qext_num) in
      let n := u32 n0 in
      log_hexdump_once "QUERY_EXT_RAW" name q
        (QUERY_PREFIX_SIZE + (if MAX_PROPS <? n then MAX_PROPS else n) * extp_size) 2 ;;
      let* fd := log_open in
      if fd <? 0 then ret tt
      else
        log_s fd (chars "[ABI] QUERY_EXT if=") ;; log_name fd name ;; log_kx fd " n=" n ;;
        log_s fd (chars " action=log_only_layout_same" ++ newline) ;;
        for_up (Z.to_nat (Z.min n 4)) 0 (λ i,
          let p := q + qext_ext + i * extp_size in
          log_s fd (chars "[ABI] EXT if=") ;; log_name fd name ;; log_kx fd " idx=" i ;;
          let* v_ip := on_mem (rdf p extp_ip) in log_kx fd " ip=" (u32 v_ip) ;;
          let* v_ac := on_mem (rdf p extp_action) in log_kx fd " action=" (u32 v_ac) ;;
          let* v_rt := on_mem (rdf p extp_rt_tbl_idx) in log_kx fd " rtidx=" (u32 v_rt) ;;
          let* v_mx := on_mem (rdf p extp_mux_id) in log_kx fd " mux=" (u32 v_mx) ;;
          let* v_xl := on_mem (rdf p extp_is_xlat_rule) in log_kx fd " xlat=" (u32 v_xl) ;;
          log_s fd newline) ;;
        sys_close fd.
End query.
