(* ===== verification/BridgeQuerySpec.v ===== *)
(** * The ABI bridge: what the property queries do

    The translated buffer is the old one record by record ([tx_moves],
    [rx_moves]), the scores read the same fields in either layout, and the
    handlers translate exactly when they should. *)
From stdpp Require Import base tactics list gmap strings numbers.
From Stdlib Require Import ZArith Lia.
From S2P Require Import Prelude Mem CStr BridgeBase BridgeAbi BridgeConfig BridgeEnv BridgeQuery.

Section query_spec.
Context `{IpaAbi} {AB : IpaAbiOk}.

(** ** Translation *)
Definition tx_moves : list move :=
  [(0, 0, 4); (4, 4, Z.min OLD_ATTR_SIZE (txp_dst_pipe - 4)); (txp_dst_pipe, OLD_TX_DST, 4);
   (txp_alt_dst_pipe, OLD_TX_ALT, 4); (txp_hdr_name, OLD_TX_HDR, IPA_RESOURCE_NAME_MAX);
   (txp_hdr_l2_type, OLD_TX_L2, 4)].

Definition rx_moves : list move :=
  [(0, 0, 4); (4, 4, Z.min OLD_ATTR_SIZE (rxp_src_pipe - 4)); (rxp_src_pipe, OLD_RX_SRC, 4);
   (rxp_hdr_l2_type, OLD_RX_L2, 4)].

Definition vfield (v : view) (p : Z) (f : cfield) : option Z :=
  le_val <$> vbytes v (Z.to_nat (f_len f)) (p + f_off f).

Lemma rdf_run p f m : rdf p f m = (λ x, (x, m)) <$> vfield (vget m) p f.
Proof.
  unfold rdf, bind, vfield. rewrite load_bytes_run. by destruct (vbytes _ _ _).
Qed.

Lemma min_ltb a b : (if a <? b then a else b) = Z.min a b.
Proof. destruct (Z.ltb_spec a b); lia. Qed.

Ltac abi_facts :=
  pose proof ok_name_max; pose proof ok_tx_size; pose proof ok_tx_dst; pose proof ok_tx_alt;
  pose proof ok_tx_hdr; pose proof ok_tx_l2; pose proof ok_tx_end; pose proof ok_rx_size;
  pose proof ok_rx_src; pose proof ok_rx_l2; pose proof ok_rx_end.

Lemma tx_moves_ok : moves_ok 0 txp_size OLD_TX_SIZE tx_moves.
Proof. abi_facts. cbn. unfold OLD_TX_SIZE, OLD_ATTR_SIZE, OLD_TX_DST, OLD_TX_ALT, OLD_TX_HDR, OLD_TX_L2 in *.
  repeat split; lia. Qed.

Lemma rx_moves_ok : moves_ok 0 rxp_size OLD_RX_SIZE rx_moves.
Proof. abi_facts. cbn. unfold OLD_RX_SIZE, OLD_ATTR_SIZE, OLD_RX_SRC, OLD_RX_L2 in *.
  repeat split; lia. Qed.

Ltac copy_field :=
  wp_step; eapply copy_keeps; [lia|eassumption|eassumption|in_range|in_range|in_range|];
  let m' := fresh "m" in let R := fresh "R" in let L := fresh "L" in intros m' R L.

(** The body of the translation loops. *)
Definition tx_record (tmp oldp newp : Z) : M mem unit :=
  mem_copy tmp oldp OLD_TX_SIZE ;;
  mem_zero newp txp_size ;;
  mem_copy (newp + txp_ip) tmp 4 ;;
  mem_copy (newp + txp_attrib) (tmp + 4)
    (if OLD_ATTR_SIZE <? txp_dst_pipe - 4 then OLD_ATTR_SIZE else txp_dst_pipe - 4) ;;
  mem_copy (newp + txp_dst_pipe) (tmp + OLD_TX_DST) 4 ;;
  mem_copy (newp + txp_alt_dst_pipe) (tmp + OLD_TX_ALT) 4 ;;
  mem_copy (newp + txp_hdr_name) (tmp + OLD_TX_HDR) IPA_RESOURCE_NAME_MAX ;;
  mem_copy (newp + txp_hdr_l2_type) (tmp + OLD_TX_L2) 4.

Definition rx_record (tmp oldp newp : Z) : M mem unit :=
  mem_copy tmp oldp OLD_RX_SIZE ;;
  mem_zero newp rxp_size ;;
  mem_copy (newp + rxp_ip) tmp 4 ;;
  mem_copy (newp + rxp_attrib) (tmp + 4)
    (if OLD_ATTR_SIZE <? rxp_src_pipe - 4 then OLD_ATTR_SIZE else rxp_src_pipe - 4) ;;
  mem_copy (newp + rxp_src_pipe) (tmp + OLD_RX_SRC) 4 ;;
  mem_copy (newp + rxp_hdr_l2_type) (tmp + OLD_RX_L2) 4.

(** One round of the loop of [translate_tx_02300_to_new]. *)
Lemma tx_step m v tmp oldp newp : rep m v →
  mapped v oldp OLD_TX_SIZE → mapped v newp txp_size → mapped v tmp OLD_TX_SIZE →
  apart tmp OLD_TX_SIZE oldp OLD_TX_SIZE → apart tmp OLD_TX_SIZE newp txp_size →
  wp (tx_record tmp oldp newp)
    (λ _ m', builds tx_moves txp_size tmp OLD_TX_SIZE oldp newp v (vget m')) m.
Proof.
  intros Hr Ho Hn Ht Ha1 Ha2. pose proof tx_moves_ok as Hok.
  unfold tx_record. rewrite min_ltb, ok_tx_ip, ok_tx_attrib. 
  replace (mem_copy (newp + 0) tmp 4) with (mem_copy (newp + 0) (tmp + 0) 4) by (by rewrite !Z.add_0_r).
  abi_facts. assert (mapped_le v v) as L0 by done.
  assert (apart tmp OLD_TX_SIZE oldp OLD_TX_SIZE → apart tmp OLD_TX_SIZE newp txp_size →
    ∀ m', rep m' (vmoves newp tmp tx_moves (vzero (vcopy v tmp oldp OLD_TX_SIZE) newp txp_size)) →
    mapped_le v (vmoves newp tmp tx_moves (vzero (vcopy v tmp oldp OLD_TX_SIZE) newp txp_size)) →
    builds tx_moves txp_size tmp OLD_TX_SIZE oldp newp v (vget m')) as Hfin.
  { intros ? ? m' R L. eapply builds_ext; [intros a; symmetry; apply R|]. by apply vmoves_builds. }
  unfold OLD_TX_SIZE, OLD_ATTR_SIZE, OLD_TX_DST, OLD_TX_ALT, OLD_TX_HDR, OLD_TX_L2 in *.
  copy_field. wp_step. eapply zero_keeps; [lia|done|done|done|]. intros m1 R1 L1.
  do 5 copy_field.
  eapply copy_keeps; [lia|done|done|in_range|in_range|in_range|]. intros m7 R7 L7. by apply Hfin.
Qed.

(** One round of the loop of [translate_rx_02300_to_new]. *)
Lemma rx_step m v tmp oldp newp : rep m v →
  mapped v oldp OLD_RX_SIZE → mapped v newp rxp_size → mapped v tmp OLD_RX_SIZE →
  apart tmp OLD_RX_SIZE oldp OLD_RX_SIZE → apart tmp OLD_RX_SIZE newp rxp_size →
  wp (rx_record tmp oldp newp)
    (λ _ m', builds rx_moves rxp_size tmp OLD_RX_SIZE oldp newp v (vget m')) m.
Proof.
  intros Hr Ho Hn Ht Ha1 Ha2. pose proof rx_moves_ok as Hok.
  unfold rx_record. rewrite min_ltb, ok_rx_ip, ok_rx_attrib.
  replace (mem_copy (newp + 0) tmp 4) with (mem_copy (newp + 0) (tmp + 0) 4) by (by rewrite !Z.add_0_r).
  abi_facts. assert (mapped_le v v) as L0 by done.
  assert (apart tmp OLD_RX_SIZE oldp OLD_RX_SIZE → apart tmp OLD_RX_SIZE newp rxp_size →
    ∀ m', rep m' (vmoves newp tmp rx_moves (vzero (vcopy v tmp oldp OLD_RX_SIZE) newp rxp_size)) →
    mapped_le v (vmoves newp tmp rx_moves (vzero (vcopy v tmp oldp OLD_RX_SIZE) newp rxp_size)) →
    builds rx_moves rxp_size tmp OLD_RX_SIZE oldp newp v (vget m')) as Hfin.
  { intros ? ? m' R L. eapply builds_ext; [intros a; symmetry; apply R|]. by apply vmoves_builds. }
  unfold OLD_RX_SIZE, OLD_ATTR_SIZE, OLD_RX_SRC, OLD_RX_L2 in *.
  copy_field. wp_step. eapply zero_keeps; [lia|done|done|done|]. intros m1 R1 L1.
  do 3 copy_field.
  eapply copy_keeps; [lia|done|done|in_range|in_range|in_range|]. intros m7 R7 L7. by apply Hfin.
Qed.

(** A translated array: every record is the moved old one, and nothing outside
    the array and the scratch array has changed. *)
Definition translated (ms : list move) (O N tmp base n : Z) (v v' : view) : Prop :=
  (∀ i o, 0 ≤ i < n → 0 ≤ o < N → v' (base + i * N + o) = moved ms v (base + i * O) o) ∧
  (∀ a, ¬ within base (n * N) a → ¬ within tmp O a → v' a = v a) ∧
  mapped_le v v'.

Lemma wp_rdf p f x m Q : vfield (vget m) p f = Some x → Q x m → wp (rdf p f) Q m.
Proof. intros E HQ. unfold wp. rewrite rdf_run, E. done. Qed.

Lemma translate_tx_wp m tmp q n : vfield (vget m) q qtx_num = Some n → 0 ≤ n < 2 ^ 32 →
  mapped (vget m) (q + qtx_tx) (n * txp_size) → mapped (vget m) tmp OLD_TX_SIZE →
  apart tmp OLD_TX_SIZE (q + qtx_tx) (n * txp_size) →
  wp (translate_tx_02300_to_new tmp q)
     (λ _ m', translated tx_moves OLD_TX_SIZE txp_size tmp (q + qtx_tx) n (vget m) (vget m')) m.
Proof.
  intros Hf Hn Hb Ht Ha. unfold translate_tx_02300_to_new. cbv zeta. apply wp_bind.
  eapply wp_rdf; [done|]. unfold u32. rewrite Z.mod_small by done.
  rewrite <- (Z2Nat.id n) in Hb, Ha |- * by lia. abi_facts.
  rewrite Nat2Z.id.
  apply (inplace_loop tx_moves OLD_TX_SIZE txp_size tmp OLD_TX_SIZE _ (tx_record tmp));
    [unfold OLD_TX_SIZE, OLD_RX_SIZE in *; lia| |intros; by apply tx_step|apply rep_vget|done|done|done].
  intros o s. apply (move_src_bound _ _ _ _ _ _ tx_moves_ok).
Qed.

Lemma translate_rx_wp m tmp q n : vfield (vget m) q qrx_num = Some n → 0 ≤ n < 2 ^ 32 →
  mapped (vget m) (q + qrx_rx) (n * rxp_size) → mapped (vget m) tmp OLD_RX_SIZE →
  apart tmp OLD_RX_SIZE (q + qrx_rx) (n * rxp_size) →
  wp (translate_rx_02300_to_new tmp q)
     (λ _ m', translated rx_moves OLD_RX_SIZE rxp_size tmp (q + qrx_rx) n (vget m) (vget m')) m.
Proof.
  intros Hf Hn Hb Ht Ha. unfold translate_rx_02300_to_new. cbv zeta. apply wp_bind.
  eapply wp_rdf; [done|]. unfold u32. rewrite Z.mod_small by done.
  rewrite <- (Z2Nat.id n) in Hb, Ha |- * by lia. abi_facts.
  rewrite Nat2Z.id.
  apply (inplace_loop rx_moves OLD_RX_SIZE rxp_size tmp OLD_RX_SIZE _ (rx_record tmp));
    [unfold OLD_TX_SIZE, OLD_RX_SIZE in *; lia| |intros; by apply rx_step|apply rep_vget|done|done|done].
  intros o s. apply (move_src_bound _ _ _ _ _ _ rx_moves_ok).
Qed.

(** ** Scores

    The score as a function of the bytes: the sum over the records of the
    plausibility tests of the layout's fields. *)
Fixpoint vsum (f : Z → option Z) (n : nat) (i acc : Z) : option Z :=
  match n with
  | O => Some acc
  | S n' => match f i with Some k => vsum f n' (i + 1) (acc + k) | None => None end
  end.

Definition tx_points (v : view) (pip pdst palt phdr pl2 : Z) : option Z :=
  match vword v pip, vword v pdst, vword v palt, vword v pl2,
        vcstr v (Z.to_nat IPA_RESOURCE_NAME_MAX) phdr with
  | Some ip, Some dst, Some alt, Some l2, Some hdr =>
      Some (b2z (ip <=? 1) + b2z ((0 <? dst) && (dst <? PIPE_MAX)) + b2z (alt <? PIPE_MAX)
            + b2z (l2 <=? 4) + b2z (printable_name IPA_RESOURCE_NAME_MAX (Some hdr)))
  | _, _, _, _, _ => None
  end.

Definition rx_points (v : view) (pip psrc pl2 : Z) : option Z :=
  match vword v pip, vword v psrc, vword v pl2 with
  | Some ip, Some src, Some l2 =>
      Some (b2z (ip <=? 1) + b2z ((0 <? src) && (src <? PIPE_MAX)) + b2z (l2 <=? 4))
  | _, _, _ => None
  end.

Definition tx_score (v : view) (base n stride dst alt hdr l2 : Z) : option Z :=
  if (n =? 0) || (MAX_PROPS <? n) then Some 0
  else vsum (λ i, let p := base + i * stride in
    tx_points v (p + 0) (p + dst) (p + alt) (p + hdr) (p + l2)) (Z.to_nat n) 0 0.

Definition rx_score (v : view) (base n stride src l2 : Z) : option Z :=
  if (n =? 0) || (MAX_PROPS <? n) then Some 0
  else vsum (λ i, let p := base + i * stride in
    rx_points v (p + 0) (p + src) (p + l2)) (Z.to_nat n) 0 0.

Lemma for_acc_vsum (m : mem) body f n i acc :
  (∀ i acc, body i acc m = (λ k, (acc + k, m)) <$> f i) →
  for_acc n i body acc m = (λ z, (z, m)) <$> vsum f n i acc.
Proof.
  intros Hb. revert i acc. induction n as [|n IH]; intros i acc; simpl; [done|].
  unfold bind. rewrite Hb. destruct (f i) as [k|]; simpl; [|done]. apply IH.
Qed.

Lemma tx_score_run base n stride dst alt hdr l2 m :
  tx_score_layout base n stride dst alt hdr l2 m =
  (λ z, (z, m)) <$> tx_score (vget m) base n stride dst alt hdr l2.
Proof.
  unfold tx_score_layout, tx_score. case_match; [done|]. apply for_acc_vsum.
  intros i acc. cbv zeta. unfold bind, tx_points. rewrite !rd32_run. set (p := base + i * stride).
  destruct (vword _ (p + 0)); simpl; [|done]. rewrite rd32_run.
  destruct (vword _ (p + dst)); simpl; [|done]. rewrite rd32_run.
  destruct (vword _ (p + alt)); simpl; [|done]. rewrite rd32_run.
  destruct (vword _ (p + l2)); simpl; [|done]. rewrite load_cstr_run.
  destruct (vcstr _ _ (p + hdr)); simpl; [|done]. unfold ret. do 2 f_equal. lia.
Qed.

Lemma rx_score_run base n stride src l2 m :
  rx_score_layout base n stride src l2 m =
  (λ z, (z, m)) <$> rx_score (vget m) base n stride src l2.
Proof.
  unfold rx_score_layout, rx_score. case_match; [done|]. apply for_acc_vsum.
  intros i acc. cbv zeta. unfold bind, rx_points. rewrite !rd32_run. set (p := base + i * stride).
  destruct (vword _ (p + 0)); simpl; [|done]. rewrite rd32_run.
  destruct (vword _ (p + src)); simpl; [|done]. rewrite rd32_run.
  destruct (vword _ (p + l2)); simpl; [|done]. unfold ret. do 2 f_equal. lia.
Qed.

Lemma vsum_ext f g n i acc : (∀ k, i ≤ k < i + Z.of_nat n → f k = g k) → vsum f n i acc = vsum g n i acc.
Proof.
  revert i acc. induction n as [|n IH]; intros i acc E; simpl; [done|].
  rewrite E by lia. destruct (g i); [|done]. apply IH. intros k Hk. apply E. lia.
Qed.

Lemma vsum_bound f n i acc c : (∀ k z, f k = Some z → 0 ≤ z ≤ c) → 0 ≤ acc →
  ∀ z, vsum f n i acc = Some z → acc ≤ z ≤ acc + Z.of_nat n * c.
Proof.
  intros Hf. revert i acc. induction n as [|n IH]; intros i acc Ha z; simpl.
  - intros [= <-]. lia.
  - destruct (f i) as [k|] eqn:E; [|done]. apply Hf in E. intros Hz. apply IH in Hz; lia.
Qed.

Ltac in_moves := unfold tx_moves, rx_moves;
  repeat first [apply list_elem_of_here | apply list_elem_of_further].

(** ** The score of a translated array is the old layout's score *)
Lemma moved_field ms O N tmp base n v v' i d sc l : moves_ok 0 N O ms → (d, sc, l) ∈ ms →
  translated ms O N tmp base n v v' → 0 ≤ i < n →
  ∀ k, 0 ≤ k < l → v' (base + i * N + d + k) = v (base + i * O + sc + k).
Proof.
  intros Hok Hin (Ht & _ & _) Hi k Hk.
  destruct (move_src_at 0 N O ms d sc l k Hok Hin Hk) as (E & ? & ?).
  rewrite <- Z.add_assoc, Ht by lia. unfold moved. rewrite E. f_equal. lia.
Qed.

Lemma moved_word ms O N tmp base n v v' i d sc : moves_ok 0 N O ms → (d, sc, 4) ∈ ms →
  translated ms O N tmp base n v v' → 0 ≤ i < n →
  vword v' (base + i * N + d) = vword v (base + i * O + sc).
Proof. intros. apply vword_ext. intros k Hk. by eapply moved_field. Qed.

Lemma tx_score_translated v v' tmp base n :
  translated tx_moves OLD_TX_SIZE txp_size tmp base n v v' →
  tx_score v' base n txp_size txp_dst_pipe txp_alt_dst_pipe txp_hdr_name txp_hdr_l2_type =
  tx_score v base n OLD_TX_SIZE OLD_TX_DST OLD_TX_ALT OLD_TX_HDR OLD_TX_L2.
Proof.
  intros Ht. unfold tx_score. case_match; [done|]. apply vsum_ext. intros i Hi. cbv zeta.
  unfold tx_points. abi_facts.
  assert (0 ≤ i < n) as Hin by lia.
  pose proof (λ d sc H, moved_word _ _ _ _ _ _ _ _ i d sc tx_moves_ok H Ht Hin) as W.
  rewrite (W 0 0), (W txp_dst_pipe OLD_TX_DST), (W txp_alt_dst_pipe OLD_TX_ALT),
    (W txp_hdr_l2_type OLD_TX_L2) by in_moves.
  erewrite (vcstr_ext v' v); [done|]. intros k Hk.
  eapply (moved_field tx_moves OLD_TX_SIZE txp_size _ _ _ _ _ _ _ _ IPA_RESOURCE_NAME_MAX tx_moves_ok);
    [in_moves|done|done|lia].
Qed.

Lemma rx_score_translated v v' tmp base n :
  translated rx_moves OLD_RX_SIZE rxp_size tmp base n v v' →
  rx_score v' base n rxp_size rxp_src_pipe rxp_hdr_l2_type =
  rx_score v base n OLD_RX_SIZE OLD_RX_SRC OLD_RX_L2.
Proof.
  intros Ht. unfold rx_score. case_match; [done|]. apply vsum_ext. intros i Hi. cbv zeta.
  unfold rx_points. assert (0 ≤ i < n) as Hin by lia.
  pose proof (λ d sc H, moved_word _ _ _ _ _ _ _ _ i d sc rx_moves_ok H Ht Hin) as W.
  rewrite (W 0 0), (W rxp_src_pipe OLD_RX_SRC), (W rxp_hdr_l2_type OLD_RX_L2)
    by in_moves. done.
Qed.

(** Scores exist where the records are mapped. *)
Lemma vsum_total f n i acc : (∀ k, i ≤ k < i + Z.of_nat n → is_Some (f k)) → is_Some (vsum f n i acc).
Proof.
  revert i acc. induction n as [|n IH]; intros i acc E; simpl; [eauto|].
  destruct (E i) as [k ->]; [lia|]. apply IH. intros j Hj. apply E. lia.
Qed.

Lemma record_field_mapped v base n stride i o l : mapped v base (n * stride) → 0 ≤ i < n →
  0 ≤ o → 0 ≤ l → o + l ≤ stride → mapped v (base + i * stride + o) l.
Proof.
  intros Hm Hi Ho Hl Hs. pose proof (stride_le i n stride ltac:(lia) ltac:(lia)).
  assert (0 ≤ i * stride) by nia. eapply mapped_sub; [done|lia|lia].
Qed.

Lemma tx_score_total v base n stride dst alt hdr l2 : mapped v base (n * stride) →
  4 ≤ stride → 0 ≤ dst → dst + 4 ≤ stride → 0 ≤ alt → alt + 4 ≤ stride →
  0 ≤ l2 → l2 + 4 ≤ stride → 0 ≤ hdr → hdr + IPA_RESOURCE_NAME_MAX ≤ stride →
  is_Some (tx_score v base n stride dst alt hdr l2).
Proof.
  intros Hm ? ? ? ? ? ? ? ? ?. unfold tx_score. case_match; [eauto|]. apply vsum_total. intros i Hi.
  unfold tx_points. abi_facts.
  assert (∀ o l, 0 ≤ o → 0 ≤ l → o + l ≤ stride → mapped v (base + i * stride + o) l) as Hf.
  { intros. eapply record_field_mapped; [done|lia..]. }
  destruct (vword_mapped v (base + i * stride + 0)) as [? ->]; [apply Hf; lia|].
  destruct (vword_mapped v (base + i * stride + dst)) as [? ->]; [apply Hf; lia|].
  destruct (vword_mapped v (base + i * stride + alt)) as [? ->]; [apply Hf; lia|].
  destruct (vword_mapped v (base + i * stride + l2)) as [? ->]; [apply Hf; lia|].
  destruct (vcstr_mapped v (Z.to_nat IPA_RESOURCE_NAME_MAX) (base + i * stride + hdr)) as [? ->];
    [apply Hf; lia|]. eauto.
Qed.

Lemma rx_score_total v base n stride src l2 : mapped v base (n * stride) →
  4 ≤ stride → 0 ≤ src → src + 4 ≤ stride → 0 ≤ l2 → l2 + 4 ≤ stride →
  is_Some (rx_score v base n stride src l2).
Proof.
  intros Hm ? ? ? ? ?. unfold rx_score. case_match; [eauto|]. apply vsum_total. intros i Hi.
  unfold rx_points.
  assert (∀ o l, 0 ≤ o → 0 ≤ l → o + l ≤ stride → mapped v (base + i * stride + o) l) as Hf.
  { intros. eapply record_field_mapped; [done|lia..]. }
  destruct (vword_mapped v (base + i * stride + 0)) as [? ->]; [apply Hf; lia|].
  destruct (vword_mapped v (base + i * stride + src)) as [? ->]; [apply Hf; lia|].
  destruct (vword_mapped v (base + i * stride + l2)) as [? ->]; [apply Hf; lia|]. eauto.
Qed.
End query_spec.
