(* ===== verification/BridgeHandlers.v ===== *)
(** * The ABI bridge: the query handlers

    When [handle_query_tx] and [handle_query_rx] translate, what they leave in
    the caller's buffer, and that a second pass never translates again. *)
From stdpp Require Import base tactics list gmap strings numbers.
From Stdlib Require Import ZArith Lia.
From S2P Require Import Prelude Mem CStr BridgeBase BridgeAbi BridgeConfig BridgeEnv.
From S2P Require Import BridgeQuery BridgeQuerySpec.

Section handlers.
Context `{IpaAbi} `{OsApi} {AB : IpaAbiOk} {OS : OsOk}.

(** ** The decision

    The interface is enabled and listed, the count is plausible, translation
    is on and the interface listed for it, every record looks like the old
    layout and the buffer does not look like the new one. *)
Definition enabled (on : Z) (c : bridge_cfg) (nm : list Z) : bool :=
  negb (on =? 0) && csv_has IPA_RESOURCE_NAME_MAX (Some (allow c)) (Some nm).

Definition translates (c : bridge_cfg) (nm : list Z) : bool :=
  negb (mode_translate c =? 0) && csv_has IPA_RESOURCE_NAME_MAX (Some (translate c)) (Some nm).

Definition plausible (n : Z) : bool := negb ((n =? 0) || (MAX_PROPS <? n)).

Definition old_only (threshold : Z) (old new : option Z) : bool :=
  match old, new with
  | Some o, Some w => (threshold <=? o) && (w <? threshold)
  | _, _ => false
  end.

Definition tx_decision (c : bridge_cfg) (nm : list Z) (v : view) (base n : Z) : bool :=
  enabled (tx c) c nm && plausible n && translates c nm &&
  old_only (n * 4)
    (tx_score v base n OLD_TX_SIZE OLD_TX_DST OLD_TX_ALT OLD_TX_HDR OLD_TX_L2)
    (tx_score v base n txp_size txp_dst_pipe txp_alt_dst_pipe txp_hdr_name txp_hdr_l2_type).

Definition rx_decision (c : bridge_cfg) (nm : list Z) (v : view) (base n : Z) : bool :=
  enabled (rx c) c nm && plausible n && translates c nm &&
  old_only (n * 3) (rx_score v base n OLD_RX_SIZE OLD_RX_SRC OLD_RX_L2)
    (rx_score v base n rxp_size rxp_src_pipe rxp_hdr_l2_type).

(** ** The logs of a handler *)
Lemma wp_log_tx_props tag ifname nm base n stride dst alt hdr l2 s : is_loaded s →
  name_at (b_mem s) ifname nm → mapped (vget (b_mem s)) base (n * stride) →
  4 ≤ stride → 0 ≤ dst → dst + 4 ≤ stride → 0 ≤ alt → alt + 4 ≤ stride →
  0 ≤ l2 → l2 + 4 ≤ stride → 0 ≤ hdr → hdr + IPA_RESOURCE_NAME_MAX ≤ stride → 0 ≤ n →
  logs_only (log_tx_props tag ifname base n stride dst alt hdr l2) s.
Proof.
  intros L N Hm ? ? ? ? ? ? ? ? ? Hn. pose proof ok_name_max. unfold logs_only, log_tx_props.
  set (n' := if MAX_PROPS <? n then MAX_PROPS else n).
  assert (0 ≤ n' ≤ n) as Hn' by (unfold n', MAX_PROPS; case_match; lia).
  eapply wp_mono; [apply (wp_for_up _ 0 _ (λ _ s', quiet s s')); [done|]|by intros [] s' ?].
  intros i s1 Hi Q1. pose proof (quiet_loaded _ _ Q1 L) as L1.
  assert (∀ o l, 0 ≤ o → 0 ≤ l → o + l ≤ stride →
            mapped (vget (b_mem s1)) (base + i * stride + o) l) as Hf.
  { intros. rewrite (q_mem _ _ Q1). eapply record_field_mapped; [done|lia..]. }
  cbv zeta. set (p := base + i * stride) in *.
  assert (mapped (vget (b_mem s1)) p 4) as Hp by (rewrite <- (Z.add_0_r p); apply Hf; lia).
  destruct (vword_mapped _ _ Hp) as [ip Eip].
  destruct (vword_mapped _ (p + dst) (Hf dst 4 ltac:(lia) ltac:(lia) ltac:(lia))) as [x1 E1].
  destruct (vword_mapped _ (p + alt) (Hf alt 4 ltac:(lia) ltac:(lia) ltac:(lia))) as [x2 E2].
  destruct (vword_mapped _ (p + l2) (Hf l2 4 ltac:(lia) ltac:(lia) ltac:(lia))) as [x3 E3].
  destruct (name_at_mapped (b_mem s1) (p + hdr)) as [hn Hhn]; [lia|apply Hf; lia|].
  do 4 (apply wp_bind; eapply wp_on_mem_read; [by rewrite rd32_run, ?Eip, ?E1, ?E2, ?E3|]).
  eapply wp_quiet.
  - eapply log_prop_tx_quiet; [done|rewrite (q_mem _ _ Q1); done|done].
  - intros _ s2 Q2. by transitivity s1.
Qed.

Lemma wp_log_rx_props tag ifname nm base n stride src l2 s : is_loaded s →
  name_at (b_mem s) ifname nm → mapped (vget (b_mem s)) base (n * stride) →
  4 ≤ stride → 0 ≤ src → src + 4 ≤ stride → 0 ≤ l2 → l2 + 4 ≤ stride → 0 ≤ n →
  logs_only (log_rx_props tag ifname base n stride src l2) s.
Proof.
  intros L N Hm ? ? ? ? ? Hn. unfold logs_only, log_rx_props.
  set (n' := if MAX_PROPS <? n then MAX_PROPS else n).
  assert (0 ≤ n' ≤ n) as Hn' by (unfold n', MAX_PROPS; case_match; lia).
  eapply wp_mono; [apply (wp_for_up _ 0 _ (λ _ s', quiet s s')); [done|]|by intros [] s' ?].
  intros i s1 Hi Q1. pose proof (quiet_loaded _ _ Q1 L) as L1.
  assert (∀ o l, 0 ≤ o → 0 ≤ l → o + l ≤ stride →
            mapped (vget (b_mem s1)) (base + i * stride + o) l) as Hf.
  { intros. rewrite (q_mem _ _ Q1). eapply record_field_mapped; [done|lia..]. }
  cbv zeta. set (p := base + i * stride) in *.
  assert (mapped (vget (b_mem s1)) p 4) as Hp by (rewrite <- (Z.add_0_r p); apply Hf; lia).
  destruct (vword_mapped _ _ Hp) as [ip Eip].
  destruct (vword_mapped _ (p + src) (Hf src 4 ltac:(lia) ltac:(lia) ltac:(lia))) as [x1 E1].
  destruct (vword_mapped _ (p + l2) (Hf l2 4 ltac:(lia) ltac:(lia) ltac:(lia))) as [x3 E3].
  do 3 (apply wp_bind; eapply wp_on_mem_read; [by rewrite rd32_run, ?Eip, ?E1, ?E3|]).
  eapply wp_quiet.
  - eapply log_prop_rx_quiet; [done|rewrite (q_mem _ _ Q1); done].
  - intros _ s2 Q2. by transitivity s1.
Qed.

(** ** The interface lists, once the configuration is loaded *)
Lemma wp_iface_allowed s p nm Q : is_loaded s → name_at (b_mem s) p nm →
  Q (csv_has IPA_RESOURCE_NAME_MAX (Some (allow (g_cfg s))) (Some nm)) s →
  wp (iface_allowed p) Q s.
Proof.
  intros L N HQ. unfold iface_allowed. wp_step. apply wp_load_cfg_loaded; [done|].
  wp_steps. by eapply wp_load_name.
Qed.

Lemma wp_iface_translate_allowed s p nm Q : is_loaded s → name_at (b_mem s) p nm →
  Q (translates (g_cfg s) nm) s → wp (iface_translate_allowed p) Q s.
Proof.
  intros L N HQ. unfold iface_translate_allowed. wp_step. apply wp_load_cfg_loaded; [done|].
  wp_steps. unfold translates in HQ. destruct (mode_translate (g_cfg s) =? 0); simpl in HQ.
  - by apply wp_ret.
  - wp_step. by eapply wp_load_name.
Qed.

Lemma wp_on_mem {A} (k : M mem A) s Q :
  wp k (λ a m', Q a (set_mem s m')) (b_mem s) → wp (on_mem k) Q s.
Proof. unfold wp, on_mem. by destruct (k (b_mem s)) as [[a m']|]. Qed.

Lemma set_mem_same s : set_mem s (b_mem s) = s.
Proof. by destruct s. Qed.

(** ** The end of a handler: the action is logged, then the new layout *)
Lemma tx_tail s s1 m' q nm n old new thr act : outcome s m' s1 →
  name_at m' (q + qtx_name) nm → vfield (vget m') q qtx_num = Some n → 0 ≤ n < 2 ^ 32 →
  mapped (vget m') (q + qtx_tx) (n * txp_size) →
  wp (log_kv4 "QUERY_TX" (q + qtx_name) n old new thr (Some act) ;;
      let* n1 := on_mem (rdf q qtx_num) in
      log_tx_props "TX_NEW" (q + qtx_name) (q + qtx_tx) (u32 n1) txp_size
        txp_dst_pipe txp_alt_dst_pipe txp_hdr_name txp_hdr_l2_type)
     (λ _ s', outcome s m' s') s1.
Proof.
  intros O1 N Hn Hb Hm. pose proof ok_name_max. pose proof ok_tx_dst. pose proof ok_tx_alt.
  pose proof ok_tx_hdr. pose proof ok_tx_l2. pose proof ok_tx_end.
  wp_step. eapply wp_quiet.
  { eapply log_kv4_quiet; [apply O1|]. by rewrite (o_mem _ _ _ O1). }
  intros _ s2 Q2. pose proof (outcome_quiet _ _ _ _ O1 Q2) as O2.
  wp_step. eapply (wp_on_mem_read _ n).
  { rewrite rdf_run, (o_mem _ _ _ O2). by rewrite Hn. }
  unfold u32. rewrite Z.mod_small by done. eapply wp_quiet.
  { eapply wp_log_tx_props; rewrite ?(o_mem _ _ _ O2); [apply O2|done|done|lia..]. }
  intros _ s3 Q3. by eapply outcome_quiet.
Qed.

Lemma rx_tail s s1 m' q nm n old new thr act : outcome s m' s1 →
  name_at m' (q + qrx_name) nm → vfield (vget m') q qrx_num = Some n → 0 ≤ n < 2 ^ 32 →
  mapped (vget m') (q + qrx_rx) (n * rxp_size) →
  wp (log_kv4 "QUERY_RX" (q + qrx_name) n old new thr (Some act) ;;
      let* n1 := on_mem (rdf q qrx_num) in
      log_rx_props "RX_NEW" (q + qrx_name) (q + qrx_rx) (u32 n1) rxp_size
        rxp_src_pipe rxp_hdr_l2_type)
     (λ _ s', outcome s m' s') s1.
Proof.
  intros O1 N Hn Hb Hm. pose proof ok_rx_src. pose proof ok_rx_l2. pose proof ok_rx_end.
  wp_step. eapply wp_quiet.
  { eapply log_kv4_quiet; [apply O1|]. by rewrite (o_mem _ _ _ O1). }
  intros _ s2 Q2. pose proof (outcome_quiet _ _ _ _ O1 Q2) as O2.
  wp_step. eapply (wp_on_mem_read _ n).
  { rewrite rdf_run, (o_mem _ _ _ O2). by rewrite Hn. }
  unfold u32. rewrite Z.mod_small by done. eapply wp_quiet.
  { eapply wp_log_rx_props; rewrite ?(o_mem _ _ _ O2); [apply O2|done|done|lia..]. }
  intros _ s3 Q3. by eapply outcome_quiet.
Qed.

(** The caller's structure: mapped, with room for the new layout, and apart
    from the handler's local array. *)
Record query_buffer (v : view) (tmp O N q n : Z) : Prop := QueryBuffer {
  qb_mapped : mapped v q (QUERY_PREFIX_SIZE + n * N);
  qb_tmp : mapped v tmp O;
  qb_apart : apart tmp O q (QUERY_PREFIX_SIZE + n * N) }.

(** The fields in front of the records survive the translation. *)
Lemma translated_prefix ms O N tmp q n v v' o k : translated ms O N tmp (q + QUERY_PREFIX_SIZE) n v v' →
  query_buffer v tmp O N q n → 0 ≤ n * N → 0 ≤ o → o + k ≤ QUERY_PREFIX_SIZE → 0 ≤ O →
  ∀ i, 0 ≤ i < k → v' (q + o + i) = v (q + o + i).
Proof.
  intros (_ & Hf & _) [_ _ Ha] Hn Ho Hk HO i Hi. apply Hf; unfold within, apart, QUERY_PREFIX_SIZE in *; lia.
Qed.

(** ** [handle_query_tx] *)
Definition tx_result (c : bridge_cfg) (nm : list Z) (tmp q n : Z) (v v' : view) : Prop :=
  if tx_decision c nm v (q + qtx_tx) n
  then translated tx_moves OLD_TX_SIZE txp_size tmp (q + qtx_tx) n v v' else v' = v.

Lemma tx_action s s1 tmp q nm n old new (fc : bool) : outcome s (b_mem s) s1 →
  vfield (vget (b_mem s)) q qtx_num = Some n → 0 ≤ n < 2 ^ 32 →
  query_buffer (vget (b_mem s)) tmp OLD_TX_SIZE txp_size q n →
  enabled (tx (cfg_at s)) (cfg_at s) nm = true → plausible n = true →
  tx_score (vget (b_mem s)) (q + qtx_tx) n OLD_TX_SIZE OLD_TX_DST OLD_TX_ALT OLD_TX_HDR OLD_TX_L2 = Some old →
  tx_score (vget (b_mem s)) (q + qtx_tx) n txp_size txp_dst_pipe txp_alt_dst_pipe txp_hdr_name txp_hdr_l2_type = Some new →
  wp (if translates (cfg_at s) nm then
        if (n * 4 <=? old) && (new <? n * 4)
        then on_mem (translate_tx_02300_to_new tmp q) ;; ret "translate_old_to_new"%string
        else if (n * 4 <=? old) && (n * 4 <=? new)
        then ret (if fc then "ambiguous_noop"%string else "ambiguous_fail_closed"%string)
        else ret "noop_score"%string
      else ret "log_only"%string)
     (λ _ s', ∃ m', outcome s m' s' ∧
        tx_result (cfg_at s) nm tmp q n (vget (b_mem s)) (vget m')) s1.
Proof.
  intros O1 Hf Hn [Qm Qt Qa] He Hp Hold Hnew.
  unfold tx_result, tx_decision. rewrite He, Hp, Hold, Hnew. cbn [old_only].
  assert (∀ (s' : bst), outcome s (b_mem s) s' → ∃ m', outcome s m' s' ∧ vget m' = vget (b_mem s))
    as Hsame by eauto.
  destruct (translates (cfg_at s) nm); [|by apply wp_ret, Hsame]. simpl.
  destruct ((n * 4 <=? old) && (new <? n * 4)); [|by case_match; apply wp_ret, Hsame].
  wp_step. apply wp_on_mem. rewrite (o_mem _ _ _ O1). pose proof ok_qtx_tx as Harr.
  eapply wp_mono.
  { eapply translate_tx_wp; [done|done| |done|]; rewrite Harr;
      [unfold QUERY_PREFIX_SIZE in *; in_range|].
    unfold apart, QUERY_PREFIX_SIZE in *. lia. }
  intros [] m' Ht. apply wp_ret. exists m'. split; [by eapply outcome_mem|done].
Qed.

Lemma tx_keeps c nm tmp q n v v' : tx_result c nm tmp q n v v' → 0 ≤ n →
  query_buffer v tmp OLD_TX_SIZE txp_size q n →
  (∀ a, within q QUERY_PREFIX_SIZE a → v' a = v a) ∧ mapped_le v v'.
Proof.
  unfold tx_result. pose proof ok_tx_size. intros Hr Hn Hb. case_match; [|by subst].
  split; [|apply Hr]. rewrite ok_qtx_tx in Hr. intros a Ha.
  replace a with (q + 0 + (a - q)) by lia.
  eapply (translated_prefix _ _ _ _ _ _ _ _ 0 QUERY_PREFIX_SIZE Hr Hb); unfold within, OLD_TX_SIZE in *;
    try lia; nia.
Qed.

(** The handler behind its early returns. *)
Lemma handle_query_tx_body s s1 tmp q nm n : outcome s (b_mem s) s1 →
  name_at (b_mem s) (q + qtx_name) nm →
  vfield (vget (b_mem s)) q qtx_num = Some n → 0 ≤ n < 2 ^ 32 →
  query_buffer (vget (b_mem s)) tmp OLD_TX_SIZE txp_size q n →
  enabled (tx (cfg_at s)) (cfg_at s) nm = true → plausible n = true →
  wp (log_hexdump_once "QUERY_TX_RAW" (q + qtx_name) q (QUERY_PREFIX_SIZE + n * OLD_TX_SIZE) 0 ;;
      let* old_score := on_mem (tx_score_layout (q + qtx_tx) n OLD_TX_SIZE OLD_TX_DST OLD_TX_ALT OLD_TX_HDR OLD_TX_L2) in
      let* new_score := on_mem (tx_score_layout (q + qtx_tx) n txp_size txp_dst_pipe txp_alt_dst_pipe txp_hdr_name txp_hdr_l2_type) in
      log_tx_props "TX_OLD" (q + qtx_name) (q + qtx_tx) n OLD_TX_SIZE OLD_TX_DST OLD_TX_ALT OLD_TX_HDR OLD_TX_L2 ;;
      let* tr := iface_translate_allowed (q + qtx_name) in
      let* c := gets g_cfg in
      let* action :=
        (if tr then
           if (n * 4 <=? old_score) && (new_score <? n * 4)
           then on_mem (translate_tx_02300_to_new tmp q) ;; ret "translate_old_to_new"%string
           else if (n * 4 <=? old_score) && (n * 4 <=? new_score)
           then ret (if fail_closed c =? 0 then "ambiguous_noop"%string
                     else "ambiguous_fail_closed"%string)
           else ret "noop_score"%string
         else ret "log_only"%string) in
      log_kv4 "QUERY_TX" (q + qtx_name) n old_score new_score (n * 4) (Some action) ;;
      let* n1 := on_mem (rdf q qtx_num) in
      log_tx_props "TX_NEW" (q + qtx_name) (q + qtx_tx) (u32 n1) txp_size txp_dst_pipe txp_alt_dst_pipe txp_hdr_name txp_hdr_l2_type)
     (λ _ s', ∃ m', outcome s m' s' ∧
        tx_result (cfg_at s) nm tmp q n (vget (b_mem s)) (vget m')) s1.
Proof.
  intros O1 N Hf Hn Hbuf He Hp. pose proof (name_at_inv _ _ _ N) as N'. pose proof Hbuf as [Qm Qt Qa]. set (m := b_mem s) in *.
  pose proof ok_name_max. pose proof ok_tx_size. pose proof ok_tx_dst. pose proof ok_tx_alt.
  pose proof ok_tx_hdr. pose proof ok_tx_l2. pose proof ok_tx_end.
  unfold OLD_TX_SIZE, OLD_TX_DST, OLD_TX_ALT, OLD_TX_HDR, OLD_TX_L2 in * |-.
  assert (mapped (vget m) (q + qtx_tx) (n * txp_size)) as Hm1.
  { rewrite ok_qtx_tx. unfold QUERY_PREFIX_SIZE in *. in_range. }
  assert (mapped (vget m) (q + qtx_tx) (n * OLD_TX_SIZE)) as Hm0.
  { unfold OLD_TX_SIZE. eapply mapped_sub; [exact Hm1|lia|nia]. }
  destruct (tx_score_total (vget m) (q + qtx_tx) n OLD_TX_SIZE OLD_TX_DST OLD_TX_ALT OLD_TX_HDR OLD_TX_L2) as [old Eold]; [done|unfold OLD_TX_SIZE, OLD_TX_DST, OLD_TX_ALT, OLD_TX_HDR, OLD_TX_L2; lia..|].
  destruct (tx_score_total (vget m) (q + qtx_tx) n txp_size txp_dst_pipe txp_alt_dst_pipe txp_hdr_name txp_hdr_l2_type) as [new Enew]; [done|lia..|].
  wp_step. eapply wp_quiet.
  { eapply log_hexdump_once_quiet; rewrite ?(o_mem _ _ _ O1);
      [apply O1|done|lia|unfold QUERY_PREFIX_SIZE, OLD_TX_SIZE; lia|].
    eapply mapped_sub; [exact Qm|lia|]. unfold QUERY_PREFIX_SIZE, OLD_TX_SIZE in *. nia. }
  intros _ s2 Q2. pose proof (outcome_quiet _ _ _ _ O1 Q2) as O2. clear Q2.
  wp_step. eapply (wp_on_mem_read _ old).
  { rewrite tx_score_run, (o_mem _ _ _ O2). fold m. by rewrite Eold. }
  wp_step. eapply (wp_on_mem_read _ new).
  { rewrite tx_score_run, (o_mem _ _ _ O2). fold m. by rewrite Enew. }
  wp_step. eapply wp_quiet.
  { eapply wp_log_tx_props; rewrite ?(o_mem _ _ _ O2); [apply O2|done|done|unfold OLD_TX_SIZE, OLD_TX_DST, OLD_TX_ALT, OLD_TX_HDR, OLD_TX_L2; lia..]. }
  intros _ s3 Q3. pose proof (outcome_quiet _ _ _ _ O2 Q3) as O3. clear Q3.
  wp_step. eapply wp_iface_translate_allowed; [apply O3|by rewrite (o_mem _ _ _ O3)|].
  rewrite (o_cfg _ _ _ O3). wp_step. wp_steps. rewrite (o_cfg _ _ _ O3).
  eapply wp_mono; [by eapply tx_action|].
  intros act s4 (m' & O4 & Hres). destruct (tx_keeps _ _ _ _ _ _ _ Hres) as [Hk Hle]; [lia|done|].
  pose proof ok_qtx_name as [? ?]. pose proof ok_qtx_num as [? ?]. pose proof ok_name_max.
  eapply wp_mono; [apply (tx_tail s s4 m' q nm n); [done| | |done|]|intros ? ? ?; by exists m'].
  - apply name_at_vcstr. rewrite <- N'. apply vcstr_ext. intros i Hi. apply Hk. unfold within. lia.
  - rewrite <- Hf. unfold vfield. f_equal. apply vbytes_ext. intros i Hi. apply Hk. unfold within. lia.
  - by eapply mapped_le_mapped.
Qed.

Lemma handle_query_tx_wp s tmp q nm n : started s → q ≠ 0 → name_at (b_mem s) (q + qtx_name) nm →
  vfield (vget (b_mem s)) q qtx_num = Some n → 0 ≤ n < 2 ^ 32 →
  (plausible n = true → query_buffer (vget (b_mem s)) tmp OLD_TX_SIZE txp_size q n) →
  wp (handle_query_tx tmp q)
     (λ _ s', ∃ m', outcome s m' s' ∧
        tx_result (cfg_at s) nm tmp q n (vget (b_mem s)) (vget m')) s.
Proof.
  intros St Hq N Hf Hn Hbuf. unfold handle_query_tx. cbv zeta. set (m := b_mem s) in *.
  wp_step. apply wp_load_cfg; [done|]. intros s1 O1. wp_steps.
  assert (∀ s', outcome s m s' → tx_decision (cfg_at s) nm (vget m) (q + qtx_tx) n = false →
    ∃ m', outcome s m' s' ∧ tx_result (cfg_at s) nm tmp q n (vget m) (vget m')) as Hnone.
  { intros s' O Hd. exists m. split; [done|]. unfold tx_result. by rewrite Hd. }
  rewrite (o_cfg _ _ _ O1). destruct (Z.eqb_spec q 0) as [?|_]; [done|]. simpl.
  destruct (tx (cfg_at s) =? 0) eqn:Eon.
  { apply wp_ret, Hnone; [done|]. unfold tx_decision, enabled. by rewrite Eon. }
  wp_step. eapply wp_iface_allowed; [apply O1|by rewrite (o_mem _ _ _ O1)|].
  rewrite (o_cfg _ _ _ O1). destruct (csv_has _ (Some (allow _)) _) eqn:Ecsv; simpl.
  2:{ apply wp_ret, Hnone; [done|]. unfold tx_decision, enabled.
      by rewrite Ecsv, andb_false_r. }
  assert (enabled (tx (cfg_at s)) (cfg_at s) nm = true) as Hen by (unfold enabled; by rewrite Eon, Ecsv).
  wp_step. eapply (wp_on_mem_read _ n).
  { rewrite rdf_run, (o_mem _ _ _ O1). fold m. by rewrite Hf. }
  unfold u32. rewrite Z.mod_small by done. destruct ((n =? 0) || (MAX_PROPS <? n)) eqn:Ep.
  { eapply wp_quiet.
    - eapply log_kv4_quiet; [apply O1|by rewrite (o_mem _ _ _ O1)].
    - intros _ s2 Q2. apply Hnone; [by eapply outcome_quiet|].
      unfold tx_decision, plausible. rewrite Ep. by rewrite andb_false_r. }
  assert (plausible n = true) as Hp by (unfold plausible; by rewrite Ep).
  eapply handle_query_tx_body; eauto.
Qed.

(** ** [handle_query_rx] *)
Definition rx_result (c : bridge_cfg) (nm : list Z) (tmp q n : Z) (v v' : view) : Prop :=
  if rx_decision c nm v (q + qrx_rx) n
  then translated rx_moves OLD_RX_SIZE rxp_size tmp (q + qrx_rx) n v v' else v' = v.

Lemma rx_action s s1 tmp q nm n old new (fc : bool) : outcome s (b_mem s) s1 →
  vfield (vget (b_mem s)) q qrx_num = Some n → 0 ≤ n < 2 ^ 32 →
  query_buffer (vget (b_mem s)) tmp OLD_RX_SIZE rxp_size q n →
  enabled (rx (cfg_at s)) (cfg_at s) nm = true → plausible n = true →
  rx_score (vget (b_mem s)) (q + qrx_rx) n OLD_RX_SIZE OLD_RX_SRC OLD_RX_L2 = Some old →
  rx_score (vget (b_mem s)) (q + qrx_rx) n rxp_size rxp_src_pipe rxp_hdr_l2_type = Some new →
  wp (if translates (cfg_at s) nm then
        if (n * 3 <=? old) && (new <? n * 3)
        then on_mem (translate_rx_02300_to_new tmp q) ;; ret "translate_old_to_new"%string
        else if (n * 3 <=? old) && (n * 3 <=? new)
        then ret (if fc then "ambiguous_noop"%string else "ambiguous_fail_closed"%string)
        else ret "noop_score"%string
      else ret "log_only"%string)
     (λ _ s', ∃ m', outcome s m' s' ∧
        rx_result (cfg_at s) nm tmp q n (vget (b_mem s)) (vget m')) s1.
Proof.
  intros O1 Hf Hn [Qm Qt Qa] He Hp Hold Hnew.
  unfold rx_result, rx_decision. rewrite He, Hp, Hold, Hnew. cbn [old_only].
  assert (∀ (s' : bst), outcome s (b_mem s) s' → ∃ m', outcome s m' s' ∧ vget m' = vget (b_mem s))
    as Hsame by eauto.
  destruct (translates (cfg_at s) nm); [|by apply wp_ret, Hsame]. simpl.
  destruct ((n * 3 <=? old) && (new <? n * 3)); [|by case_match; apply wp_ret, Hsame].
  wp_step. apply wp_on_mem. rewrite (o_mem _ _ _ O1). pose proof ok_qrx_rx as Harr.
  eapply wp_mono.
  { eapply translate_rx_wp; [done|done| |done|]; rewrite Harr;
      [unfold QUERY_PREFIX_SIZE in *; in_range|].
    unfold apart, QUERY_PREFIX_SIZE in *. lia. }
  intros [] m' Ht. apply wp_ret. exists m'. split; [by eapply outcome_mem|done].
Qed.

Lemma rx_keeps c nm tmp q n v v' : rx_result c nm tmp q n v v' → 0 ≤ n →
  query_buffer v tmp OLD_RX_SIZE rxp_size q n →
  (∀ a, within q QUERY_PREFIX_SIZE a → v' a = v a) ∧ mapped_le v v'.
Proof.
  unfold rx_result. pose proof ok_rx_size. intros Hr Hn Hb. case_match; [|by subst].
  split; [|apply Hr]. rewrite ok_qrx_rx in Hr. intros a Ha.
  replace a with (q + 0 + (a - q)) by lia.
  eapply (translated_prefix _ _ _ _ _ _ _ _ 0 QUERY_PREFIX_SIZE Hr Hb); unfold within, OLD_RX_SIZE in *;
    try lia; nia.
Qed.

(** The handler behind its early returns. *)
Lemma handle_query_rx_body s s1 tmp q nm n : outcome s (b_mem s) s1 →
  name_at (b_mem s) (q + qrx_name) nm →
  vfield (vget (b_mem s)) q qrx_num = Some n → 0 ≤ n < 2 ^ 32 →
  query_buffer (vget (b_mem s)) tmp OLD_RX_SIZE rxp_size q n →
  enabled (rx (cfg_at s)) (cfg_at s) nm = true → plausible n = true →
  wp (log_hexdump_once "QUERY_RX_RAW" (q + qrx_name) q (QUERY_PREFIX_SIZE + n * OLD_RX_SIZE) 1 ;;
      let* old_score := on_mem (rx_score_layout (q + qrx_rx) n OLD_RX_SIZE OLD_RX_SRC OLD_RX_L2) in
      let* new_score := on_mem (rx_score_layout (q + qrx_rx) n rxp_size rxp_src_pipe rxp_hdr_l2_type) in
      log_rx_props "RX_OLD" (q + qrx_name) (q + qrx_rx) n OLD_RX_SIZE OLD_RX_SRC OLD_RX_L2 ;;
      let* tr := iface_translate_allowed (q + qrx_name) in
      let* c := gets g_cfg in
      let* action :=
        (if tr then
           if (n * 3 <=? old_score) && (new_score <? n * 3)
           then on_mem (translate_rx_02300_to_new tmp q) ;; ret "translate_old_to_new"%string
           else if (n * 3 <=? old_score) && (n * 3 <=? new_score)
           then ret (if fail_closed c =? 0 then "ambiguous_noop"%string
                     else "ambiguous_fail_closed"%string)
           else ret "noop_score"%string
         else ret "log_only"%string) in
      log_kv4 "QUERY_RX" (q + qrx_name) n old_score new_score (n * 3) (Some action) ;;
      let* n1 := on_mem (rdf q qrx_num) in
      log_rx_props "RX_NEW" (q + qrx_name) (q + qrx_rx) (u32 n1) rxp_size rxp_src_pipe rxp_hdr_l2_type)
     (λ _ s', ∃ m', outcome s m' s' ∧
        rx_result (cfg_at s) nm tmp q n (vget (b_mem s)) (vget m')) s1.
Proof.
  intros O1 N Hf Hn Hbuf He Hp. pose proof (name_at_inv _ _ _ N) as N'. pose proof Hbuf as [Qm Qt Qa]. set (m := b_mem s) in *.
  pose proof ok_rx_size. pose proof ok_rx_src. pose proof ok_rx_l2. pose proof ok_rx_end.
  unfold OLD_RX_SIZE, OLD_RX_SRC, OLD_RX_L2 in * |-.
  assert (mapped (vget m) (q + qrx_rx) (n * rxp_size)) as Hm1.
  { rewrite ok_qrx_rx. unfold QUERY_PREFIX_SIZE in *. in_range. }
  assert (mapped (vget m) (q + qrx_rx) (n * OLD_RX_SIZE)) as Hm0.
  { unfold OLD_RX_SIZE. eapply mapped_sub; [exact Hm1|lia|nia]. }
  destruct (rx_score_total (vget m) (q + qrx_rx) n OLD_RX_SIZE OLD_RX_SRC OLD_RX_L2) as [old Eold]; [done|unfold OLD_RX_SIZE, OLD_RX_SRC, OLD_RX_L2; lia..|].
  destruct (rx_score_total (vget m) (q + qrx_rx) n rxp_size rxp_src_pipe rxp_hdr_l2_type) as [new Enew]; [done|lia..|].
  wp_step. eapply wp_quiet.
  { eapply log_hexdump_once_quiet; rewrite ?(o_mem _ _ _ O1);
      [apply O1|done|lia|unfold QUERY_PREFIX_SIZE, OLD_RX_SIZE; lia|].
    eapply mapped_sub; [exact Qm|lia|]. unfold QUERY_PREFIX_SIZE, OLD_RX_SIZE in *. nia. }
  intros _ s2 Q2. pose proof (outcome_quiet _ _ _ _ O1 Q2) as O2. clear Q2.
  wp_step. eapply (wp_on_mem_read _ old).
  { rewrite rx_score_run, (o_mem _ _ _ O2). fold m. by rewrite Eold. }
  wp_step. eapply (wp_on_mem_read _ new).
  { rewrite rx_score_run, (o_mem _ _ _ O2). fold m. by rewrite Enew. }
  wp_step. eapply wp_quiet.
  { eapply wp_log_rx_props; rewrite ?(o_mem _ _ _ O2); [apply O2|done|done|unfold OLD_RX_SIZE, OLD_RX_SRC, OLD_RX_L2; lia..]. }
  intros _ s3 Q3. pose proof (outcome_quiet _ _ _ _ O2 Q3) as O3. clear Q3.
  wp_step. eapply wp_iface_translate_allowed; [apply O3|by rewrite (o_mem _ _ _ O3)|].
  rewrite (o_cfg _ _ _ O3). wp_step. wp_steps. rewrite (o_cfg _ _ _ O3).
  eapply wp_mono; [by eapply rx_action|].
  intros act s4 (m' & O4 & Hres). destruct (rx_keeps _ _ _ _ _ _ _ Hres) as [Hk Hle]; [lia|done|].
  pose proof ok_qrx_name as [? ?]. pose proof ok_qrx_num as [? ?]. pose proof ok_name_max.
  eapply wp_mono; [apply (rx_tail s s4 m' q nm n); [done| | |done|]|intros ? ? ?; by exists m'].
  - apply name_at_vcstr. rewrite <- N'. apply vcstr_ext. intros i Hi. apply Hk. unfold within. lia.
  - rewrite <- Hf. unfold vfield. f_equal. apply vbytes_ext. intros i Hi. apply Hk. unfold within. lia.
  - by eapply mapped_le_mapped.
Qed.

Lemma handle_query_rx_wp s tmp q nm n : started s → q ≠ 0 → name_at (b_mem s) (q + qrx_name) nm →
  vfield (vget (b_mem s)) q qrx_num = Some n → 0 ≤ n < 2 ^ 32 →
  (plausible n = true → query_buffer (vget (b_mem s)) tmp OLD_RX_SIZE rxp_size q n) →
  wp (handle_query_rx tmp q)
     (λ _ s', ∃ m', outcome s m' s' ∧
        rx_result (cfg_at s) nm tmp q n (vget (b_mem s)) (vget m')) s.
Proof.
  intros St Hq N Hf Hn Hbuf. unfold handle_query_rx. cbv zeta. set (m := b_mem s) in *.
  wp_step. apply wp_load_cfg; [done|]. intros s1 O1. wp_steps.
  assert (∀ s', outcome s m s' → rx_decision (cfg_at s) nm (vget m) (q + qrx_rx) n = false →
    ∃ m', outcome s m' s' ∧ rx_result (cfg_at s) nm tmp q n (vget m) (vget m')) as Hnone.
  { intros s' O Hd. exists m. split; [done|]. unfold rx_result. by rewrite Hd. }
  rewrite (o_cfg _ _ _ O1). destruct (Z.eqb_spec q 0) as [?|_]; [done|]. simpl.
  destruct (rx (cfg_at s) =? 0) eqn:Eon.
  { apply wp_ret, Hnone; [done|]. unfold rx_decision, enabled. by rewrite Eon. }
  wp_step. eapply wp_iface_allowed; [apply O1|by rewrite (o_mem _ _ _ O1)|].
  rewrite (o_cfg _ _ _ O1). destruct (csv_has _ (Some (allow _)) _) eqn:Ecsv; simpl.
  2:{ apply wp_ret, Hnone; [done|]. unfold rx_decision, enabled.
      by rewrite Ecsv, andb_false_r. }
  assert (enabled (rx (cfg_at s)) (cfg_at s) nm = true) as Hen by (unfold enabled; by rewrite Eon, Ecsv).
  wp_step. eapply (wp_on_mem_read _ n).
  { rewrite rdf_run, (o_mem _ _ _ O1). fold m. by rewrite Hf. }
  unfold u32. rewrite Z.mod_small by done. destruct ((n =? 0) || (MAX_PROPS <? n)) eqn:Ep.
  { eapply wp_quiet.
    - eapply log_kv4_quiet; [apply O1|by rewrite (o_mem _ _ _ O1)].
    - intros _ s2 Q2. apply Hnone; [by eapply outcome_quiet|].
      unfold rx_decision, plausible. rewrite Ep. by rewrite andb_false_r. }
  assert (plausible n = true) as Hp by (unfold plausible; by rewrite Ep).
  eapply handle_query_rx_body; eauto.
Qed.

(** ** [handle_query_ext] *)
Lemma wp_log_field fd p f s0 s Q : writing fd s0 s → 0 ≤ f_len f →
  mapped (vget (b_mem s0)) (p + f_off f) (f_len f) →
  (∀ x, Q x s) → wp (on_mem (rdf p f)) Q s.
Proof.
  intros W Hl Hm HQ.
  destruct (vbytes_mapped (vget (b_mem s0)) (Z.to_nat (f_len f)) (p + f_off f)) as [bs Hbs].
  { by rewrite Z2Nat.id. }
  eapply (wp_on_mem_read _ (le_val bs)); [|by apply HQ].
  rewrite rdf_run. unfold vfield. by rewrite (w_mem _ _ _ W), Hbs.
Qed.

(** One line of the extension log. *)
Lemma ext_line fd q nm n i s0 s : writing fd s0 s → name_at (b_mem s0) (q + qext_name) nm →
  mapped (vget (b_mem s0)) q (QUERY_PREFIX_SIZE + n * extp_size) → 0 ≤ i < n →
  wp (let p := q + qext_ext + i * extp_size in
      log_s fd (chars "[ABI] EXT if=") ;; log_name fd (q + qext_name) ;; log_kx fd " idx=" i ;;
      let* v_ip := on_mem (rdf p extp_ip) in log_kx fd " ip=" (u32 v_ip) ;;
      let* v_ac := on_mem (rdf p extp_action) in log_kx fd " action=" (u32 v_ac) ;;
      let* v_rt := on_mem (rdf p extp_rt_tbl_idx) in log_kx fd " rtidx=" (u32 v_rt) ;;
      let* v_mx := on_mem (rdf p extp_mux_id) in log_kx fd " mux=" (u32 v_mx) ;;
      let* v_xl := on_mem (rdf p extp_is_xlat_rule) in log_kx fd " xlat=" (u32 v_xl) ;;
      log_s fd newline) (λ _ s', writing fd s0 s') s.
Proof.
  intros W N Hm Hi. cbv zeta. pose proof ok_ext_fields as Hs.
  assert (Forall (λ f, 0 ≤ f_len f ∧ mapped (vget (b_mem s0)) (q + qext_ext + i * extp_size + f_off f) (f_len f))
    [extp_ip; extp_action; extp_rt_tbl_idx; extp_mux_id; extp_is_xlat_rule]) as Hf.
  { assert (0 ≤ extp_size) by (apply list.Forall_cons in Hs as [[[? ?] ?] _]; lia).
    eapply Forall_impl; [|exact Hs]. intros f [[? ?] ?]. split; [done|]. rewrite ok_qext_ext.
    assert (i * extp_size + extp_size ≤ n * extp_size) by (apply stride_le; lia).
    assert (0 ≤ i * extp_size) by nia.
    eapply mapped_sub; [exact Hm|unfold QUERY_PREFIX_SIZE; lia|lia]. }
  do 5 (let Hl := fresh "Hl" in let Hq := fresh "Hq" in apply list.Forall_cons in Hf as [[Hl Hq] Hf]).
  repeat log_step.
  do 5 (eapply wp_log_field; [eassumption|eassumption|eassumption|]; intros ?; repeat log_step).
  done.
Qed.

Lemma handle_query_ext_wp s q nm n : started s → q ≠ 0 → name_at (b_mem s) (q + qext_name) nm →
  vfield (vget (b_mem s)) q qext_num = Some n → 0 ≤ n < 2 ^ 32 →
  mapped (vget (b_mem s)) q (QUERY_PREFIX_SIZE + Z.min n MAX_PROPS * extp_size) →
  wp (handle_query_ext q) (λ _ s', outcome s (b_mem s) s') s.
Proof.
  intros St Hq N Hf Hn Hm. unfold handle_query_ext. cbv zeta. set (m := b_mem s) in *.
  assert (0 ≤ extp_size) as Hsz.
  { pose proof ok_ext_fields as Hs. apply list.Forall_cons in Hs as [[[? ?] ?] _]. lia. }
  wp_step. apply wp_load_cfg; [done|]. intros s1 O1. wp_steps.
  rewrite (o_cfg _ _ _ O1). destruct (Z.eqb_spec q 0) as [?|_]; [done|]. simpl.
  destruct (ext (cfg_at s) =? 0); [by apply wp_ret|].
  wp_step. eapply wp_iface_allowed; [apply O1|by rewrite (o_mem _ _ _ O1)|].
  destruct (csv_has _ _ _); simpl; [|by apply wp_ret].
  wp_step. eapply (wp_on_mem_read _ n).
  { rewrite rdf_run, (o_mem _ _ _ O1). fold m. by rewrite Hf. }
  unfold u32. rewrite Z.mod_small by done.
  assert ((if MAX_PROPS <? n then MAX_PROPS else n) = Z.min n MAX_PROPS) as ->
    by (destruct (Z.ltb_spec MAX_PROPS n); lia).
  wp_step. eapply wp_quiet.
  { eapply log_hexdump_once_quiet; rewrite ?(o_mem _ _ _ O1); [apply O1|done|lia| |];
      unfold QUERY_PREFIX_SIZE, MAX_PROPS in *; [nia|].
    eapply mapped_sub; [exact Hm|lia|lia]. }
  intros _ s2 Q2. pose proof (outcome_quiet _ _ _ _ O1 Q2) as O2.
  assert (∀ s', quiet s2 s' → outcome s m s') as Hfin by (intros; by eapply outcome_quiet).
  apply wp_session; [apply O2|auto|]. intros fd s3 Hfd Hm3 Hc W Hclose.
  assert (name_at (b_mem s3) (q + qext_name) nm) as N3 by (by rewrite Hm3, (o_mem _ _ _ O2)).
  repeat log_step. eapply wp_mono.
  { apply (wp_for_up _ 0 _ (λ _ s', writing fd s3 s')); [done|]. intros i s8 Hi W8.
    eapply (ext_line fd q nm (Z.min n MAX_PROPS)); [exact W8|done| |unfold MAX_PROPS; lia].
    by rewrite Hm3, (o_mem _ _ _ O2). }
  intros [] s9 W9. repeat log_step. by apply Hfin, Hclose.
Qed.

Lemma vget_inj m m' : vget m' = vget m → m' = m.
Proof. intros E. apply map_eq. intros a. exact (f_equal (λ v, v a) E). Qed.

Lemma outcome_cfg s m s' : outcome s m s' → cfg_at s' = cfg_at s.
Proof.
  intros O. rewrite <- (o_cfg _ _ _ O). pose proof (o_loaded _ _ _ O) as L.
  unfold cfg_at. unfold is_loaded in L. by destruct (Z.eqb_spec (loaded (g_cfg s')) 0).
Qed.

(** A buffer the first pass translated scores as new: no second translation. *)
Lemma tx_decision_once c nm tmp q n v v' : tx_result c nm tmp q n v v' →
  tx_decision c nm v' (q + qtx_tx) n = false.
Proof.
  unfold tx_result. destruct (tx_decision c nm v (q + qtx_tx) n) eqn:Ed; [|by intros ->].
  intros Ht. apply tx_score_translated in Ht. unfold tx_decision in *. rewrite Ht.
  apply andb_true_iff in Ed as [_ Ed]. unfold old_only in *.
  destruct (tx_score v _ n OLD_TX_SIZE _ _ _ _) as [o|]; [|done].
  destruct (tx_score v (q + qtx_tx) n txp_size _ _ _ _) as [w|]; [|done].
  apply andb_true_iff in Ed as [Ho%Z.leb_le _]. apply andb_false_iff. right.
  destruct (tx_score v' _ n OLD_TX_SIZE _ _ _ _); [|done].
  apply andb_false_iff. right. apply Z.ltb_ge. lia.
Qed.

Lemma rx_decision_once c nm tmp q n v v' : rx_result c nm tmp q n v v' →
  rx_decision c nm v' (q + qrx_rx) n = false.
Proof.
  unfold rx_result. destruct (rx_decision c nm v (q + qrx_rx) n) eqn:Ed; [|by intros ->].
  intros Ht. apply rx_score_translated in Ht. unfold rx_decision in *. rewrite Ht.
  apply andb_true_iff in Ed as [_ Ed]. unfold old_only in *.
  destruct (rx_score v _ n OLD_RX_SIZE _ _) as [o|]; [|done].
  destruct (rx_score v (q + qrx_rx) n rxp_size _ _) as [w|]; [|done].
  apply andb_true_iff in Ed as [Ho%Z.leb_le _]. apply andb_false_iff. right.
  destruct (rx_score v' _ n OLD_RX_SIZE _ _); [|done].
  apply andb_false_iff. right. apply Z.ltb_ge. lia.
Qed.

(** ** Properties *)
(** C1: [handle_query_tx] never faults on a buffer that has room for the new
    layout. It rewrites the records exactly when TX handling is on, the
    interface is allowed and listed for translation in translate mode, the
    count is between 1 and 16, every record scores as an old one and the buffer
    does not score as new; the rewritten buffer is the old one moved field by
    field. In every other case it leaves the memory alone. Its log closes every
    descriptor it opens. *)
Theorem handle_query_tx_spec s tmp q nm n : started s → q ≠ 0 → name_at (b_mem s) (q + qtx_name) nm →
  vfield (vget (b_mem s)) q qtx_num = Some n → 0 ≤ n < 2 ^ 32 →
  (plausible n = true → query_buffer (vget (b_mem s)) tmp OLD_TX_SIZE txp_size q n) →
  wp (handle_query_tx tmp q)
     (λ _ s', ∃ m', outcome s m' s' ∧
        tx_result (cfg_at s) nm tmp q n (vget (b_mem s)) (vget m')) s.
Proof. apply handle_query_tx_wp. Qed.

(** the same for [handle_query_rx], with the RX layouts and three points
    per record. *)
Theorem handle_query_rx_spec s tmp q nm n : started s → q ≠ 0 → name_at (b_mem s) (q + qrx_name) nm →
  vfield (vget (b_mem s)) q qrx_num = Some n → 0 ≤ n < 2 ^ 32 →
  (plausible n = true → query_buffer (vget (b_mem s)) tmp OLD_RX_SIZE rxp_size q n) →
  wp (handle_query_rx tmp q)
     (λ _ s', ∃ m', outcome s m' s' ∧
        rx_result (cfg_at s) nm tmp q n (vget (b_mem s)) (vget m')) s.
Proof. apply handle_query_rx_wp. Qed.

(** the handler is idempotent: whatever the first pass did to the buffer,
    a second pass leaves the memory as it is. *)
Theorem handle_query_tx_idempotent s tmp q nm n : started s → q ≠ 0 →
  name_at (b_mem s) (q + qtx_name) nm →
  vfield (vget (b_mem s)) q qtx_num = Some n → 0 ≤ n < 2 ^ 32 →
  query_buffer (vget (b_mem s)) tmp OLD_TX_SIZE txp_size q n →
  wp (handle_query_tx tmp q)
     (λ _ s1, wp (handle_query_tx tmp q) (λ _ s2, b_mem s2 = b_mem s1) s1) s.
Proof.
  intros St Hq N Hf Hn Hb. eapply wp_mono; [by eapply handle_query_tx_wp|].
  intros _ s1 (m' & O & Hr). cbv beta. pose proof (tx_keeps _ _ _ _ _ _ _ Hr ltac:(lia) Hb) as [Hk Hle].
  pose proof ok_qtx_name as [? ?]. pose proof ok_qtx_num as [? ?]. pose proof ok_name_max.
  eapply wp_mono; [eapply (handle_query_tx_wp s1 tmp q nm n); rewrite ?(o_mem _ _ _ O)|].
  - left. apply O.
  - done.
  - apply name_at_vcstr. rewrite <- (name_at_inv _ _ _ N). apply vcstr_ext.
    intros i Hi. apply Hk. unfold within. lia.
  - rewrite <- Hf. unfold vfield. f_equal. apply vbytes_ext. intros i Hi. apply Hk. unfold within. lia.
  - done.
  - intros _. destruct Hb as [? ? ?]. split; [by eapply mapped_le_mapped..|done].
  - intros _ s2 (m2 & O2 & Hr2). unfold tx_result in Hr2.
    rewrite (outcome_cfg _ _ _ O), (o_mem _ _ _ O), (tx_decision_once _ _ _ _ _ _ _ Hr) in Hr2.
    rewrite (o_mem _ _ _ O2), (o_mem _ _ _ O). by apply vget_inj.
Qed.
End handlers.

(** ** Witnesses *)
Ltac mem_facts := first [ done | lia | by vm_compute | apply mapped_check; by vm_compute
                        | by left; vm_compute | by right; vm_compute ].

Lemma handle_query_tx_spec_witness :
  let s := bst0 tx_query_mem in
  wp (handle_query_tx 5000 1000)
     (λ _ s', ∃ m', outcome s m' s' ∧
        tx_result (cfg_at s) (chars "eth0") 5000 1000 1 (vget (b_mem s)) (vget m')) s.
Proof.
  apply handle_query_tx_spec; [by right|done|by apply name_at_vcstr; vm_compute|by vm_compute|lia|].
  intros _. split; mem_facts.
Defined.

Lemma handle_query_rx_spec_witness :
  let s := bst0 rx_query_mem in
  wp (handle_query_rx 5000 1000)
     (λ _ s', ∃ m', outcome s m' s' ∧
        rx_result (cfg_at s) (chars "eth0") 5000 1000 1 (vget (b_mem s)) (vget m')) s.
Proof.
  apply handle_query_rx_spec; [by right|done|by apply name_at_vcstr; vm_compute|by vm_compute|lia|].
  intros _. split; mem_facts.
Defined.

Lemma handle_query_tx_idempotent_witness :
  wp (handle_query_tx 5000 1000)
     (λ _ s1, wp (handle_query_tx 5000 1000) (λ _ s2, b_mem s2 = b_mem s1) s1) (bst0 tx_query_mem).
Proof.
  apply (handle_query_tx_idempotent (bst0 tx_query_mem) 5000 1000 (chars "eth0") 1);
    [by right|done|by apply name_at_vcstr; vm_compute|by vm_compute|lia|split; mem_facts].
Defined.

(** The examples take the branch that translates. *)
Example tx_query_translates :
  tx_decision (cfg_at (bst0 tx_query_mem)) (chars "eth0") (vget tx_query_mem) 1036 1 = true.
Proof. vm_compute. reflexivity. Qed.
Example rx_query_translates :
  rx_decision (cfg_at (bst0 rx_query_mem)) (chars "eth0") (vget rx_query_mem) 1036 1 = true.
Proof. vm_compute. reflexivity. Qed.
