(* ===== verification/BridgeRules.v ===== *)
(** * The ABI bridge: route and filter rules, and the interposed [ioctl]

    The outgoing half of [ipacm_abi_bridge_v5.c]: the ADD_RT / ADD_FLT family
    and GENERATE_FLT_EQ are rebuilt in the 02300 layout in a local array, sent
    to the kernel, and the handles and statuses are copied back. [ioctl] is
    the entry point IPACM calls. The parameter [sp] is the address of the
    local array of the function that runs. *)
From stdpp Require Import base tactics list gmap strings numbers.
From Stdlib Require Import ZArith Lia.
From S2P Require Import Prelude Mem CStr BridgeBase BridgeQuery.

Section rules.
Context `{IpaAbi} `{OsApi}.

(** ** Rule layouts *)
Definition attr_new_to_old (oldp newp : Z) : M mem unit :=
  mem_zero oldp OLD_ATTR_SIZE ;;
  mem_copy oldp newp ATTR_COMMON_SIZE.

Definition rt_rule_new_to_old (oldp newp : Z) : M mem unit :=
  mem_zero oldp OLD_RT_RULE_SIZE ;;
  mem_copy oldp newp 12 ;;
  attr_new_to_old (oldp + 12) (newp + 12) ;;
  mem_copy (oldp + 164) (newp + rt_max_prio) 4.

Definition flt_rule_new_to_old (oldp newp : Z) : M mem unit :=
  mem_zero oldp OLD_FLT_RULE_SIZE ;;
  mem_copy oldp newp 12 ;;
  attr_new_to_old (oldp + 12) (newp + 12) ;;
  mem_copy (oldp + 164) (newp + flt_eq_attrib) 184 ;;
  mem_copy (oldp + 348) (newp + flt_rt_tbl_idx) 12.

Definition log_translate_ioctl (tag : string) (n ret0 : Z) : B unit :=
  let* fd := log_open in
  if fd <? 0 then ret tt
  else
    log_s fd (chars "[ABI] ") ;; log_s fd (chars tag) ;; log_s fd (chars " translated n=") ;;
    log_hex32_fd fd n ;; log_s fd (chars " ret=") ;; log_hex32_fd fd (u32 ret0) ;;
    log_s fd newline ;;
    sys_close fd.

(** ** The ADD_* ioctls

    The eight functions share two bodies, one for the structures that end in
    a rule array and one for the V2 structures that point to it; the rule
    kind says which rule is moved and where its fields are. The result is
    [*retp], [None] when the function returns 0 without touching it ([retp]
    is the address of a local of [ioctl], never NULL). *)
Record rule_kind := RuleKind {
  rk_conv : Z → Z → M mem unit;
  rk_old_size : Z; rk_old_at_rear : Z; rk_old_hdl : Z; rk_old_status : Z;
  rk_new : rule_add_struct }.

Definition rt_kind : rule_kind :=
  RuleKind rt_rule_new_to_old OLD_RT_ADD_SIZE OLD_RT_ADD_AT_REAR OLD_RT_ADD_HDL OLD_RT_ADD_STATUS
    rt_add.

Definition flt_kind : rule_kind :=
  RuleKind flt_rule_new_to_old OLD_FLT_ADD_SIZE OLD_FLT_ADD_AT_REAR OLD_FLT_ADD_HDL
    OLD_FLT_ADD_STATUS flt_add.

(** The loop before the system call. *)
Definition rules_to_old (k : rule_kind) (n old_rules new_rules : Z) : M mem unit :=
  for_up (Z.to_nat n) 0 (λ i,
    let oldp := old_rules + i * rk_old_size k in
    let newp := new_rules + i * ra_size (rk_new k) in
    rk_conv k oldp newp ;;
    mem_copy (oldp + rk_old_at_rear k) (newp + ra_at_rear (rk_new k)) 1).

(** The loop after it. *)
Definition results_to_new (k : rule_kind) (n old_rules new_rules : Z) : M mem unit :=
  for_up (Z.to_nat n) 0 (λ i,
    let oldp := old_rules + i * rk_old_size k in
    let newp := new_rules + i * ra_size (rk_new k) in
    mem_copy (newp + ra_hdl (rk_new k)) (oldp + rk_old_hdl k) 4 ;;
    mem_copy (newp + ra_status (rk_new k)) (oldp + rk_old_status k) 4).

Definition translate_add (k : rule_kind) (tag : string) (hdr : Z) (st : add_struct)
    (buf fd request arg : Z) : B (option Z) :=
  if arg =? 0 then ret None
  else
    let* n0 := on_mem (rdf arg (as_num_rules st)) in
    let n := u32 n0 in
    if (n =? 0) || (RT_FLT_MAX_TRANSLATE_RULES <? n) then ret None
    else
      on_mem (mem_zero buf (hdr + RT_FLT_MAX_TRANSLATE_RULES * rk_old_size k)) ;;
      on_mem (mem_copy buf arg hdr) ;;
      let old_rules := buf + hdr in
      let new_rules := arg + f_off (as_rules st) in
      on_mem (rules_to_old k n old_rules new_rules) ;;
      let* r := sys_ioctl fd request buf in
      on_mem (results_to_new k n old_rules new_rules) ;;
      log_translate_ioctl tag n r ;;
      ret (Some r).

Definition translate_add_v2 (k : rule_kind) (tag : string) (hdr : Z) (st : add_struct)
    (buf fd request arg : Z) : B (option Z) :=
  if arg =? 0 then ret None
  else
    let* n0 := on_mem (rdf arg (as_num_rules st)) in
    let n := u32 n0 in
    if (n =? 0) || (RT_FLT_MAX_TRANSLATE_RULES <? n) then ret None
    else
      let* rules := on_mem (rdf arg (as_rules st)) in
      if rules =? 0 then ret None
      else
        on_mem (mem_zero buf (hdr + RT_FLT_MAX_TRANSLATE_RULES * rk_old_size k)) ;;
        on_mem (mem_copy buf arg hdr) ;;
        on_mem (wr32 (buf + f_off (as_rule_size st)) (rk_old_size k)) ;;
        let old_rules := buf + hdr in
        on_mem (wr64 (buf + f_off (as_rules st)) (u32 old_rules)) ;;
        let* rules := on_mem (rdf arg (as_rules st)) in
        let new_rules := u32 rules in
        on_mem (rules_to_old k n old_rules new_rules) ;;
        let* r := sys_ioctl fd request buf in
        on_mem (results_to_new k n old_rules new_rules) ;;
        log_translate_ioctl tag n r ;;
        ret (Some r).

Definition translate_add_rt_ioctl := translate_add rt_kind "ADD_RT" 44 add_rt_rule.
Definition translate_add_rt_v2_ioctl := translate_add_v2 rt_kind "ADD_RT_V2" 64 add_rt_rule_v2.
Definition translate_add_flt_ioctl := translate_add flt_kind "ADD_FLT" 16 add_flt_rule.
Definition translate_add_flt_v2_ioctl := translate_add_v2 flt_kind "ADD_FLT_V2" 40 add_flt_rule_v2.
Definition translate_add_rt_after_ioctl := translate_add rt_kind "ADD_RT_AFTER" 48 add_rt_rule_after.
Definition translate_add_rt_after_v2_ioctl :=
  translate_add_v2 rt_kind "ADD_RT_AFTER_V2" 64 add_rt_rule_after_v2.
Definition translate_add_flt_after_ioctl :=
  translate_add flt_kind "ADD_FLT_AFTER" 20 add_flt_rule_after.
Definition translate_add_flt_after_v2_ioctl :=
  translate_add_v2 flt_kind "ADD_FLT_AFTER_V2" 40 add_flt_rule_after_v2.

Definition translate_generate_flt_eq_ioctl (buf fd request arg : Z) : B (option Z) :=
  if arg =? 0 then ret None
  else
    on_mem (mem_zero buf OLD_GEN_EQ_SIZE) ;;
    on_mem (mem_copy buf arg 4) ;;
    on_mem (attr_new_to_old (buf + OLD_GEN_EQ_ATTR) (arg + gen_attrib)) ;;
    let* r := sys_ioctl fd request buf in
    (when 0 <=? r then on_mem (mem_copy (arg + gen_eq_attrib) (buf + OLD_GEN_EQ_EQ) 184)) ;;
    log_translate_ioctl "GENERATE_FLT_EQ" 1 r ;;
    ret (Some r).

Definition maybe_translate_rt_flt_ioctl (sp fd request nr arg : Z) : B (option Z) :=
  load_cfg ;;
  let* c := gets g_cfg in
  if (rt_flt_translate c =? 0) || (arg =? 0) then ret None
  else if nr =? IPA_IOCTL_ADD_RT_RULE then translate_add_rt_ioctl sp fd request arg
  else if nr =? IPA_IOCTL_ADD_FLT_RULE then translate_add_flt_ioctl sp fd request arg
  else if nr =? IPA_IOCTL_ADD_RT_RULE_AFTER then translate_add_rt_after_ioctl sp fd request arg
  else if nr =? IPA_IOCTL_ADD_FLT_RULE_AFTER then translate_add_flt_after_ioctl sp fd request arg
  else if nr =? IPA_IOCTL_ADD_RT_RULE_V2 then translate_add_rt_v2_ioctl sp fd request arg
  else if nr =? IPA_IOCTL_ADD_FLT_RULE_V2 then translate_add_flt_v2_ioctl sp fd request arg
  else if nr =? IPA_IOCTL_ADD_RT_RULE_AFTER_V2 then
    translate_add_rt_after_v2_ioctl sp fd request arg
  else if nr =? IPA_IOCTL_ADD_FLT_RULE_AFTER_V2 then
    translate_add_flt_after_v2_ioctl sp fd request arg
  else if nr =? IPA_IOCTL_GENERATE_FLT_EQ then translate_generate_flt_eq_ioctl sp fd request arg
  else ret None.

(** ** The log of a route or filter ioctl *)
(** [log_s(fd, key); log_hex32_fd(fd, (uint32_t)p->field);] *)
Definition log_kf (fd : Z) (key : string) (p : Z) (f : cfield) : B unit :=
  log_s fd (chars key) ;; let* v := on_mem (rdf p f) in log_hex32_fd fd (u32 v).

Definition log_tbl (fd p : Z) (st : add_struct) : B unit :=
  log_s fd (chars " tbl=") ;; log_name fd (p + as_tbl_name st).

Definition log_rt_flt_fields (fd nr arg : Z) : B unit :=
  if nr =? IPA_IOCTL_ADD_RT_RULE then
    log_kf fd " ADD_RT ip=" arg (as_ip add_rt_rule) ;; log_tbl fd arg add_rt_rule ;;
    log_kf fd " n=" arg (as_num_rules add_rt_rule)
  else if nr =? IPA_IOCTL_ADD_RT_RULE_V2 then
    log_kf fd " ADD_RT_V2 ip=" arg (as_ip add_rt_rule_v2) ;; log_tbl fd arg add_rt_rule_v2 ;;
    log_kf fd " n=" arg (as_num_rules add_rt_rule_v2) ;;
    log_kf fd " sz=" arg (as_rule_size add_rt_rule_v2)
  else if nr =? IPA_IOCTL_ADD_RT_RULE_AFTER then
    log_kf fd " ADD_RT_AFTER ip=" arg (as_ip add_rt_rule_after) ;; log_tbl fd arg add_rt_rule_after ;;
    log_kf fd " n=" arg (as_num_rules add_rt_rule_after) ;;
    log_kf fd " after=" arg (as_after add_rt_rule_after)
  else if nr =? IPA_IOCTL_ADD_RT_RULE_AFTER_V2 then
    log_kf fd " ADD_RT_AFTER_V2 ip=" arg (as_ip add_rt_rule_after_v2) ;;
    log_tbl fd arg add_rt_rule_after_v2 ;;
    log_kf fd " n=" arg (as_num_rules add_rt_rule_after_v2) ;;
    log_kf fd " after=" arg (as_after add_rt_rule_after_v2) ;;
    log_kf fd " sz=" arg (as_rule_size add_rt_rule_after_v2)
  else if nr =? IPA_IOCTL_MDFY_RT_RULE then
    log_kf fd " MDFY_RT ip=" arg (hs_ip mdfy_rt_rule) ;; log_kf fd " n=" arg (hs_num mdfy_rt_rule)
  else if nr =? IPA_IOCTL_MDFY_RT_RULE_V2 then
    log_kf fd " MDFY_RT_V2 ip=" arg (hs_ip mdfy_rt_rule_v2) ;;
    log_kf fd " n=" arg (hs_num mdfy_rt_rule_v2) ;; log_kf fd " sz=" arg (hs_size mdfy_rt_rule_v2)
  else if nr =? IPA_IOCTL_DEL_RT_RULE then
    log_kf fd " DEL_RT ip=" arg (hs_ip del_rt_rule) ;; log_kf fd " n=" arg (hs_num del_rt_rule)
  else if nr =? IPA_IOCTL_ADD_FLT_RULE then
    log_kf fd " ADD_FLT ip=" arg (as_ip add_flt_rule) ;; log_kf fd " ep=" arg (as_ep add_flt_rule) ;;
    log_kf fd " global=" arg (as_global add_flt_rule) ;;
    log_kf fd " n=" arg (as_num_rules add_flt_rule)
  else if nr =? IPA_IOCTL_ADD_FLT_RULE_V2 then
    log_kf fd " ADD_FLT_V2 ip=" arg (as_ip add_flt_rule_v2) ;;
    log_kf fd " ep=" arg (as_ep add_flt_rule_v2) ;;
    log_kf fd " global=" arg (as_global add_flt_rule_v2) ;;
    log_kf fd " n=" arg (as_num_rules add_flt_rule_v2) ;;
    log_kf fd " sz=" arg (as_rule_size add_flt_rule_v2)
  else if nr =? IPA_IOCTL_ADD_FLT_RULE_AFTER then
    log_kf fd " ADD_FLT_AFTER ip=" arg (as_ip add_flt_rule_after) ;;
    log_kf fd " ep=" arg (as_ep add_flt_rule_after) ;;
    log_kf fd " n=" arg (as_num_rules add_flt_rule_after) ;;
    log_kf fd " after=" arg (as_after add_flt_rule_after)
  else if nr =? IPA_IOCTL_ADD_FLT_RULE_AFTER_V2 then
    log_kf fd " ADD_FLT_AFTER_V2 ip=" arg (as_ip add_flt_rule_after_v2) ;;
    log_kf fd " ep=" arg (as_ep add_flt_rule_after_v2) ;;
    log_kf fd " n=" arg (as_num_rules add_flt_rule_after_v2) ;;
    log_kf fd " after=" arg (as_after add_flt_rule_after_v2) ;;
    log_kf fd " sz=" arg (as_rule_size add_flt_rule_after_v2)
  else if nr =? IPA_IOCTL_MDFY_FLT_RULE then
    log_kf fd " MDFY_FLT ip=" arg (hs_ip mdfy_flt_rule) ;; log_kf fd " n=" arg (hs_num mdfy_flt_rule)
  else if nr =? IPA_IOCTL_MDFY_FLT_RULE_V2 then
    log_kf fd " MDFY_FLT_V2 ip=" arg (hs_ip mdfy_flt_rule_v2) ;;
    log_kf fd " n=" arg (hs_num mdfy_flt_rule_v2) ;; log_kf fd " sz=" arg (hs_size mdfy_flt_rule_v2)
  else if nr =? IPA_IOCTL_DEL_FLT_RULE then
    log_kf fd " DEL_FLT ip=" arg (hs_ip del_flt_rule) ;; log_kf fd " n=" arg (hs_num del_flt_rule)
  else if nr =? IPA_IOCTL_GENERATE_FLT_EQ then log_s fd (chars " GENERATE_FLT_EQ")
  else ret tt.

Definition log_rt_flt (nr arg ret0 : Z) : B unit :=
  load_cfg ;;
  let* c := gets g_cfg in
  if (rt_flt_log c =? 0) || (arg =? 0) then ret tt
  else
    let* fd := log_open in
    if fd <? 0 then ret tt
    else
      log_s fd (chars "[ABI] IOC nr=") ;; log_hex32_fd fd (u32 nr) ;;
      log_s fd (chars " ret=") ;; log_hex32_fd fd (u32 ret0) ;;
      log_rt_flt_fields fd nr arg ;;
      log_s fd newline ;;
      sys_close fd.

(** ** The interposed ioctl *)
Definition ioc_type (request : Z) : Z := Z.land (Z.shiftr request IOC_TYPESHIFT) IOC_TYPEMASK.
Definition ioc_nr (request : Z) : Z := Z.land (Z.shiftr request IOC_NRSHIFT) IOC_NRMASK.

Definition is_rt_flt (nr : Z) : bool :=
  (nr =? IPA_IOCTL_ADD_RT_RULE) || (nr =? IPA_IOCTL_ADD_RT_RULE_V2)
  || (nr =? IPA_IOCTL_ADD_RT_RULE_AFTER) || (nr =? IPA_IOCTL_ADD_RT_RULE_AFTER_V2)
  || (nr =? IPA_IOCTL_MDFY_RT_RULE) || (nr =? IPA_IOCTL_MDFY_RT_RULE_V2)
  || (nr =? IPA_IOCTL_DEL_RT_RULE)
  || (nr =? IPA_IOCTL_ADD_FLT_RULE) || (nr =? IPA_IOCTL_ADD_FLT_RULE_V2)
  || (nr =? IPA_IOCTL_ADD_FLT_RULE_AFTER) || (nr =? IPA_IOCTL_ADD_FLT_RULE_AFTER_V2)
  || (nr =? IPA_IOCTL_MDFY_FLT_RULE) || (nr =? IPA_IOCTL_MDFY_FLT_RULE_V2)
  || (nr =? IPA_IOCTL_DEL_FLT_RULE) || (nr =? IPA_IOCTL_GENERATE_FLT_EQ).

(** [long] and [int] are both 32 bits on the target, so [(int)ret] is [ret]. *)
Definition ioctl (sp fd request arg : Z) : B Z :=
  let type := ioc_type request in
  let nr := ioc_nr request in
  let magic := type =? IPA_IOC_MAGIC in
  let* is_ipa := (if magic then fd_is_ipa_dev fd else ret 1) in
  if is_ipa =? 0 then sys_ioctl fd request arg
  else
    let* tr := (if magic then maybe_translate_rt_flt_ioctl sp fd request nr arg else ret None) in
    match tr with
    | Some r => log_rt_flt nr arg r ;; ret r
    | None =>
        let* r := sys_ioctl fd request arg in
        (when (0 <=? r) && magic && negb (arg =? 0) then
          (if nr =? IPA_IOCTL_QUERY_INTF_TX_PROPS then handle_query_tx sp arg
           else if nr =? IPA_IOCTL_QUERY_INTF_RX_PROPS then handle_query_rx sp arg
           else when nr =? IPA_IOCTL_QUERY_INTF_EXT_PROPS then handle_query_ext arg)) ;;
        (when magic && negb (arg =? 0) && is_rt_flt nr then log_rt_flt nr arg r) ;;
        ret r
    end.
End rules.
