(* ===== verification/BridgeRulesSpec.v ===== *)
(** * The ABI bridge: what the rule translations do

    The kernel sees the caller's header and the rules in the 02300 layout; the
    caller gets the handles and statuses back in its own layout. *)
From stdpp Require Import base tactics list gmap strings numbers.
From Stdlib Require Import ZArith Lia.
From S2P Require Import Prelude Mem CStr BridgeBase BridgeAbi BridgeConfig BridgeEnv.
From S2P Require Import BridgeQuery BridgeQuerySpec BridgeHandlers BridgeRules.

(** ** Patched records

    The byte at offset [o] of the record at [d] after the moves [ms] from the
    record at [s]: a moved byte, or zero below [zr], or what was there. *)
Definition patched (ms : list move) (zr : Z) (v : view) (s d o : Z) : option Z :=
  match move_src ms o with
  | Some k => v (s + k)
  | None => if o <? zr then Some 0 else v (d + o)
  end.

Definition patches (ms : list move) (zr N : Z) (s d : Z) (v v' : view) : Prop :=
  (∀ o, 0 ≤ o < N → v' (d + o) = patched ms zr v s d o) ∧
  (∀ a, ¬ within d N a → v' a = v a) ∧
  mapped_le v v'.

Section patch_loop.
Context (ms : list move) (zr N S : Z) (step : Z → Z → M mem unit).
Context (HN : 0 ≤ N) (HS : 0 ≤ S).
Context (Hsrc : ∀ o k, move_src ms o = Some k → 0 ≤ k < S).
Context (Hstep : ∀ m d s, mapped (vget m) d N → mapped (vget m) s S → apart d N s S →
  wp (step d s) (λ _ m', patches ms zr N s d (vget m) (vget m')) m).

(** A loop over [n] records of two arrays that are apart. *)
Lemma patch_loop (n : nat) dst src m :
  mapped (vget m) dst (Z.of_nat n * N) → mapped (vget m) src (Z.of_nat n * S) →
  apart dst (Z.of_nat n * N) src (Z.of_nat n * S) →
  wp (for_up n 0 (λ i, step (dst + i * N) (src + i * S)))
     (λ _ m', (∀ i o, 0 ≤ i < Z.of_nat n → 0 ≤ o < N →
                 vget m' (dst + i * N + o) = patched ms zr (vget m) (src + i * S) (dst + i * N) o) ∧
              (∀ a, ¬ within dst (Z.of_nat n * N) a → vget m' a = vget m a) ∧
              mapped_le (vget m) (vget m')) m.
Proof.
  intros Hd Hs Hap.
  set (J k m' := (∀ i o, 0 ≤ i < k → 0 ≤ o < N →
         vget m' (dst + i * N + o) = patched ms zr (vget m) (src + i * S) (dst + i * N) o) ∧
      (∀ a, ¬ within dst (k * N) a → vget m' a = vget m a) ∧ mapped_le (vget m) (vget m')).
  eapply wp_mono; [apply (wp_for_up n 0 _ J)|].
  - split_and!; [lia|done|done].
  - intros k m1 Hk (J1 & J2 & J3).
    pose proof (stride_le k (Z.of_nat n) N ltac:(lia) ltac:(lia)).
    pose proof (stride_le k (Z.of_nat n) S ltac:(lia) ltac:(lia)).
    assert (0 ≤ k * N) by nia. assert (0 ≤ k * S) by nia.
    assert (∀ o, 0 ≤ o < S → vget m1 (src + k * S + o) = vget m (src + k * S + o)) as Hsame.
    { intros o Ho. apply J2. unfold within, apart in *. lia. }
    eapply wp_mono; [apply Hstep|].
    + intros a Ha. apply J3, Hd. unfold within in *. lia.
    + intros a Ha. apply J3, Hs. unfold within in *. lia.
    + unfold apart in *. lia.
    + intros [] m2 (K1 & K2 & K3). split_and!.
      * intros i o Hi Ho. destruct (decide (i = k)) as [->|Hne].
        -- rewrite K1 by done. unfold patched. destruct (move_src ms o) as [s|] eqn:Es.
           { apply Hsrc in Es. by apply Hsame. }
           case_match; [done|]. apply J2. unfold within. lia.
        -- pose proof (stride_le i k N ltac:(lia) ltac:(lia)).
           rewrite K2; [apply J1; lia|]. unfold within. lia.
      * intros a Ha. rewrite K2; [apply J2|]; unfold within in *; lia.
      * intros a Ha. apply K3, J3, Ha.
  - intros [] m' HJ. exact HJ.
Qed.
End patch_loop.

Lemma patches_ext ms zr N s d v v1 v2 : (∀ a, v1 a = v2 a) →
  patches ms zr N s d v v1 → patches ms zr N s d v v2.
Proof.
  intros E (H1 & H2 & H3). split_and!.
  - intros o Ho. rewrite <- E. auto.
  - intros a. rewrite <- E. auto.
  - intros a Ha. rewrite <- E. auto.
Qed.

Ltac pointwise := unfold patched, move_src, vcopy, vzero, within;
  repeat (case_decide; try lia); try (match goal with |- context [?a <? ?b] => destruct (Z.ltb_spec a b); try lia end);
  try done; try (f_equal; lia).

Ltac patch_end :=
  match goal with
  | R : rep ?m ?v |- patches _ _ _ _ _ _ (vget ?m) =>
      eapply patches_ext; [intros a; symmetry; apply R|]; clear R
  end;
  split_and!; [intros o Ho; unfold apart in *; pointwise|intros a Hna; unfold within in *; pointwise|done].

Section kinds.
Context `{IpaAbi} {AB : IpaAbiOk}.

(** ** The moves of a rule *)
Definition rt_moves : list move :=
  [(0, 0, 12); (12, 12, ATTR_COMMON_SIZE); (164, rt_max_prio, 4);
   (OLD_RT_ADD_AT_REAR, ra_at_rear rt_add, 1)].

Definition flt_moves : list move :=
  [(0, 0, 12); (12, 12, ATTR_COMMON_SIZE); (164, flt_eq_attrib, 184); (348, flt_rt_tbl_idx, 12);
   (OLD_FLT_ADD_AT_REAR, ra_at_rear flt_add, 1)].

(** The handle and the status, back into the caller's rule. *)
Definition result_moves (k : rule_kind) : list move :=
  [(ra_hdl (rk_new k), rk_old_hdl k, 4); (ra_status (rk_new k), rk_old_status k, 4)].

(** What the ADD functions need of a rule kind. *)
Record kind_ok (k : rule_kind) (ms : list move) : Prop := KindOk {
  ko_old : 0 < rk_old_size k;
  ko_moves : moves_ok 0 (rk_old_size k) (ra_size (rk_new k)) ms;
  ko_results : moves_ok 0 (ra_size (rk_new k)) (rk_old_size k) (result_moves k);
  ko_conv : ∃ zr, zr ≤ rk_old_size k ∧ ∀ m d s,
    mapped (vget m) d (rk_old_size k) → mapped (vget m) s (ra_size (rk_new k)) →
    apart d (rk_old_size k) s (ra_size (rk_new k)) →
    wp (rk_conv k d s ;; mem_copy (d + rk_old_at_rear k) (s + ra_at_rear (rk_new k)) 1)
       (λ _ m', patches ms zr (rk_old_size k) s d (vget m) (vget m')) m }.

Lemma rt_kind_ok : kind_ok rt_kind rt_moves.
Proof.
  pose proof ok_rt_prio. destruct ok_rt_add as [? ? ? ?].
  split; [done| | |]; unfold rt_kind, rt_moves, result_moves; cbn;
    unfold OLD_RT_ADD_SIZE, OLD_RT_ADD_AT_REAR, OLD_RT_ADD_HDL, OLD_RT_ADD_STATUS, ATTR_COMMON_SIZE;
    [repeat split; lia|repeat split; lia|].
  exists 168. split; [lia|]. intros m d s Hd Hs Ha.
  pose proof (rep_vget m) as R0. assert (mapped_le (vget m) (vget m)) as L0 by done.
  unfold rt_rule_new_to_old, attr_new_to_old, OLD_RT_RULE_SIZE, OLD_ATTR_SIZE, ATTR_COMMON_SIZE.
  repeat mem_op.
  patch_end.
Qed.

Lemma flt_kind_ok : kind_ok flt_kind flt_moves.
Proof.
  pose proof ok_flt_eq. pose proof ok_flt_tbl. destruct ok_flt_add as [? ? ? ?].
  split; [done| | |]; unfold flt_kind, flt_moves, result_moves; cbn;
    unfold OLD_FLT_ADD_SIZE, OLD_FLT_ADD_AT_REAR, OLD_FLT_ADD_HDL, OLD_FLT_ADD_STATUS, ATTR_COMMON_SIZE;
    [repeat split; lia|repeat split; lia|].
  exists 360. split; [lia|]. intros m d s Hd Hs Ha.
  pose proof (rep_vget m) as R0. assert (mapped_le (vget m) (vget m)) as L0 by done.
  unfold flt_rule_new_to_old, attr_new_to_old, OLD_FLT_RULE_SIZE, OLD_ATTR_SIZE, ATTR_COMMON_SIZE.
  repeat mem_op. patch_end.
Qed.
End kinds.

Section adds.
Context `{IpaAbi} `{OsApi} {AB : IpaAbiOk} {OS : OsOk}.

(** ** What the kernel is handed, and what the caller gets back

    [h] gives the header bytes; the rules follow in the 02300 layout, unused
    slots are zero; nothing outside the local array has changed. *)
Record prepared (k : rule_kind) (ms : list move) (h : Z → option Z) (hdr buf src n : Z)
    (v v1 : view) : Prop := Prepared {
  pr_hdr : ∀ o, 0 ≤ o < hdr → v1 (buf + o) = h o;
  pr_rules : ∀ i o, 0 ≤ i < n → 0 ≤ o < rk_old_size k →
    v1 (buf + hdr + i * rk_old_size k + o) = moved ms v (src + i * ra_size (rk_new k)) o;
  pr_rest : ∀ o, hdr + n * rk_old_size k ≤ o < hdr + RT_FLT_MAX_TRANSLATE_RULES * rk_old_size k →
    v1 (buf + o) = Some 0;
  pr_frame : ∀ a, ¬ within buf (hdr + RT_FLT_MAX_TRANSLATE_RULES * rk_old_size k) a → v1 a = v a }.

(** Handle and status come from the kernel's copy of the rule, all else is as
    the kernel left it. *)
Record returned (k : rule_kind) (hdr buf src n : Z) (v v' : view) : Prop := Returned {
  rt_rules : ∀ i o, 0 ≤ i < n → 0 ≤ o < ra_size (rk_new k) →
    v' (src + i * ra_size (rk_new k) + o) =
    match move_src (result_moves k) o with
    | Some s => v (buf + hdr + i * rk_old_size k + s)
    | None => v (src + i * ra_size (rk_new k) + o)
    end;
  rt_frame : ∀ a, ¬ within src (n * ra_size (rk_new k)) a → v' a = v a }.

(** One translated ioctl: prepared, sent, returned, logged. *)
Definition translated_ioctl (k : rule_kind) (ms : list move) (h : Z → option Z) (hdr buf src n : Z)
    (fd request : Z) (s : bst) (o : option Z) (s' : bst) : Prop :=
  ∃ m1 m3, prepared k ms h hdr buf src n (vget (b_mem s)) (vget m1) ∧
    let '(r, m2) := os_ioctl (b_trace s) fd request buf m1 in
    returned k hdr buf src n (vget m2) (vget m3) ∧ o = Some r ∧
    mapped_le (vget (b_mem s)) (vget m3) ∧
    quiet (set_trace (set_mem s m3) (EvIoctl fd request buf r :: b_trace s)) s'.

Context (k : rule_kind) (ms : list move) (KO : kind_ok k ms).
Abbreviation O := (rk_old_size k).
Abbreviation N := (ra_size (rk_new k)).

Lemma ko_new_size : 8 ≤ N.
Proof.
  pose proof (ko_results _ _ KO) as Hr. unfold result_moves in Hr. simpl in Hr. lia.
Qed.

(** The loop before the system call, over zeroed slots. *)
Lemma rules_to_old_wp n old src m : 0 ≤ n ≤ RT_FLT_MAX_TRANSLATE_RULES →
  mapped (vget m) old (n * O) → mapped (vget m) src (n * N) → apart old (n * O) src (n * N) →
  (∀ o, 0 ≤ o < n * O → vget m (old + o) = Some 0) →
  wp (rules_to_old k n old src)
     (λ _ m', (∀ i o, 0 ≤ i < n → 0 ≤ o < O →
                 vget m' (old + i * O + o) = moved ms (vget m) (src + i * N) o) ∧
              (∀ a, ¬ within old (n * O) a → vget m' a = vget m a) ∧
              mapped_le (vget m) (vget m')) m.
Proof.
  intros Hn Ho Hs Ha Hz. pose proof ko_new_size. pose proof (ko_old _ _ KO).
  destruct (ko_conv _ _ KO) as (zr & Hzr & Hconv).
  rewrite <- (Z2Nat.id n) in Ho, Hs, Ha by lia.
  eapply wp_mono.
  { unfold rules_to_old.
    apply (patch_loop ms zr O N (λ d s, rk_conv k d s ;; mem_copy (d + rk_old_at_rear k) (s + ra_at_rear (rk_new k)) 1));
      [lia|lia| |exact Hconv|done|done|done].
    intros o j Hj. by eapply move_src_bound in Hj; [|apply (ko_moves _ _ KO)]. }
  rewrite Z2Nat.id by lia. intros [] m' (P1 & P2 & P3). split_and!; [|done|done].
  intros i o Hi Hoo. rewrite P1 by done. unfold patched, moved.
  destruct (move_src ms o); [done|]. case_match; [done|].
  pose proof (stride_le i n O ltac:(lia) ltac:(lia)). assert (0 ≤ i * O) by nia.
  rewrite <- Z.add_assoc. apply Hz. lia.
Qed.

(** The loop after it. *)
Lemma results_to_new_wp n hdr buf src m : 0 ≤ n ≤ RT_FLT_MAX_TRANSLATE_RULES →
  mapped (vget m) (buf + hdr) (n * O) → mapped (vget m) src (n * N) →
  apart (buf + hdr) (n * O) src (n * N) →
  wp (results_to_new k n (buf + hdr) src)
     (λ _ m', returned k hdr buf src n (vget m) (vget m') ∧ mapped_le (vget m) (vget m')) m.
Proof.
  intros Hn Ho Hs Ha. pose proof ko_new_size. pose proof (ko_old _ _ KO).
  pose proof (ko_results _ _ KO) as Hr.
  rewrite <- (Z2Nat.id n) in Ho, Hs, Ha by lia.
  eapply wp_mono.
  { unfold results_to_new.
    apply (patch_loop (result_moves k) 0 N O (λ d s,
        mem_copy (d + ra_hdl (rk_new k)) (s + rk_old_hdl k) 4 ;;
        mem_copy (d + ra_status (rk_new k)) (s + rk_old_status k) 4));
      [lia|lia| | |done|done|unfold apart in *; lia].
    - intros o j Hj. by eapply move_src_bound in Hj.
    - intros m0 d s Hd Hs0 Ha0. unfold result_moves in Hr. simpl in Hr.
      pose proof (rep_vget m0) as R0. assert (mapped_le (vget m0) (vget m0)) as L0 by done.
      unfold result_moves. clear Ho Hs Ha. repeat mem_op. patch_end. }
  rewrite Z2Nat.id by lia. intros [] m' (P1 & P2 & P3). split; [|done]. split; [|done].
  intros i o Hi Hoo. rewrite P1 by done. unfold patched.
  destruct (move_src _ o); [done|]. destruct (Z.ltb_spec o 0); [lia|done].
Qed.

Lemma log_translate_ioctl_quiet tag n r s : is_loaded s → logs_only (log_translate_ioctl tag n r) s.
Proof.
  intros L. apply wp_session; [done|auto|]. intros fd s1 Hfd Hm Hc W Hclose.
  log_steps. by apply Hclose.
Qed.

(** The local array after the header has been written: [h], then zeroes. *)
Definition staged (h : Z → option Z) (hdr buf total : Z) (v v' : view) : Prop :=
  (∀ o, 0 ≤ o < hdr → v' (buf + o) = h o) ∧
  (∀ o, hdr ≤ o < total → v' (buf + o) = Some 0) ∧
  (∀ a, ¬ within buf total a → v' a = v a) ∧
  mapped_le v v'.

Abbreviation total hdr := (hdr + RT_FLT_MAX_TRANSLATE_RULES * O).

Lemma send_wp tag h hdr buf src n fd request s mh : is_loaded s → 0 ≤ hdr →
  0 ≤ n ≤ RT_FLT_MAX_TRANSLATE_RULES →
  mapped (vget (b_mem s)) buf (total hdr) → mapped (vget (b_mem s)) src (n * N) →
  apart buf (total hdr) src (n * N) →
  staged h hdr buf (total hdr) (vget (b_mem s)) (vget mh) →
  wp (on_mem (rules_to_old k n (buf + hdr) src) ;;
      let* r := sys_ioctl fd request buf in
      on_mem (results_to_new k n (buf + hdr) src) ;;
      log_translate_ioctl tag n r ;;
      ret (Some r))
     (translated_ioctl k ms h hdr buf src n fd request s) (set_mem s mh).
Proof.
  intros L Hhdr Hn Hb Hs Ha (S1 & S2 & S3 & S4).
  pose proof ko_new_size as HN. pose proof (ko_old _ _ KO) as HO.
  assert (0 ≤ n * O ≤ RT_FLT_MAX_TRANSLATE_RULES * O) as HnO by nia.
  set (m := b_mem s) in *.
  assert (mapped (vget m) (buf + hdr) (n * O)) as Hbr by (eapply mapped_sub; [exact Hb|lia|lia]).
  assert (apart (buf + hdr) (n * O) src (n * N)) as Har by (unfold apart in *; lia).
  wp_step. apply wp_on_mem. eapply wp_mono.
  { eapply rules_to_old_wp; [done|eapply mapped_le_mapped; [exact Hbr|done]
      |eapply mapped_le_mapped; [exact Hs|done]|done|].
    intros o Ho. change (b_mem (set_mem s mh)) with mh. rewrite <- Z.add_assoc. apply S2. lia. }
  intros [] m1 (R1 & R2 & R3). change (b_mem (set_mem s mh)) with mh in *.
  assert (mapped_le (vget m) (vget m1)) as L1 by (by etransitivity).
  assert (prepared k ms h hdr buf src n (vget m) (vget m1)) as Hprep.
  { split.
    - intros o Ho. rewrite R2 by (unfold within; lia). by apply S1.
    - intros i o Hi Ho. rewrite R1 by done. unfold moved.
      destruct (move_src ms o) as [j|] eqn:Ej; [|done].
      eapply move_src_bound in Ej; [|apply (ko_moves _ _ KO)].
      pose proof (stride_le i n N ltac:(lia) ltac:(lia)). assert (0 ≤ i * N) by nia.
      apply S3. unfold within, apart in *. lia.
    - intros o Ho. rewrite R2 by (unfold within; lia). apply S2. lia.
    - intros a Hna. rewrite R2 by (unfold within in *; lia). by apply S3. }
  apply wp_bind. unfold wp at 1, sys_ioctl.
  change (b_mem (set_mem (set_mem s mh) m1)) with m1.
  change (b_trace (set_mem (set_mem s mh) m1)) with (b_trace s).
  pose proof (ok_ioctl (b_trace s) fd request buf m1) as Hk.
  destruct (os_ioctl (b_trace s) fd request buf m1) as [r m2] eqn:E. cbn [snd] in Hk.
  assert (mapped_le (vget m) (vget m2)) as L2 by (by etransitivity).
  wp_step. apply wp_on_mem. eapply wp_mono.
  { eapply results_to_new_wp; [done|eapply mapped_le_mapped; [exact Hbr|done]
      |eapply mapped_le_mapped; [exact Hs|done]|done]. }
  intros [] m3 [Hret L3]. wp_step. eapply wp_quiet.
  { apply log_translate_ioctl_quiet. exact L. }
  intros _ s' Q. apply wp_ret. exists m1, m3. rewrite E. split; [done|].
  split_and!; [done|done|by etransitivity|done].
Qed.

(** The caller's memory and the local array of an ADD ioctl. *)
Record add_buffers (v : view) (hdr buf arg src n : Z) : Prop := AddBuffers {
  ab_hdr : mapped v arg hdr;
  ab_buf : mapped v buf (total hdr);
  ab_src : mapped v src (n * N);
  ab_hdr_apart : apart buf (total hdr) arg hdr;
  ab_src_apart : apart buf (total hdr) src (n * N) }.

(** The header as the caller wrote it. *)
Definition hdr_copy (v : view) (arg : Z) : Z → option Z := λ o, v (arg + o).

(** The V2 header: the pointer and the size describe the local array. *)
Definition hdr_v2 (st : add_struct) (hdr buf : Z) (v : view) (arg : Z) : Z → option Z := λ o,
  if decide (within (f_off (as_rules st)) 8 o)
  then le_bytes 8 (u32 (buf + hdr)) !! Z.to_nat (o - f_off (as_rules st))
  else if decide (within (f_off (as_rule_size st)) 4 o)
  then le_bytes 4 O !! Z.to_nat (o - f_off (as_rule_size st))
  else v (arg + o).

Lemma stage_copy m hdr buf arg src n : 0 ≤ hdr → add_buffers (vget m) hdr buf arg src n →
  wp (mem_zero buf (total hdr) ;; mem_copy buf arg hdr)
     (λ _ m', staged (hdr_copy (vget m) arg) hdr buf (total hdr) (vget m) (vget m')) m.
Proof.
  intros Hh [Bh Bb _ Ba _]. pose proof (ko_old _ _ KO) as HO.
  unfold RT_FLT_MAX_TRANSLATE_RULES in *.
  pose proof (rep_vget m) as R0. assert (mapped_le (vget m) (vget m)) as L0 by done.
  repeat mem_op. match goal with R : rep ?m' ?v' |- context [staged _ _ _ _ _ (vget ?m')] =>
    assert (∀ a, vget m' a = v' a) as R1' by exact R end. split_and!.
  - intros o Ho. rewrite R1'. unfold hdr_copy, vcopy, vzero, vget, within. unfold apart in *.
    repeat (case_decide; try lia). f_equal. lia.
  - intros o Ho. rewrite R1'. unfold vcopy, vzero, within. repeat (case_decide; try lia). done.
  - intros a Hna. rewrite R1'. unfold vcopy, vzero, within in *. repeat (case_decide; try lia). done.
  - intros a Ha. rewrite R1'. by apply L1.
Qed.

Lemma translate_add_wp tag hdr st buf fd request arg s n :
  is_loaded s → 0 ≤ hdr → add_ok st hdr → arg ≠ 0 →
  vfield (vget (b_mem s)) arg (as_num_rules st) = Some n → 0 < n ≤ RT_FLT_MAX_TRANSLATE_RULES →
  add_buffers (vget (b_mem s)) hdr buf arg (arg + hdr) n →
  wp (translate_add k tag hdr st buf fd request arg)
     (translated_ioctl k ms (hdr_copy (vget (b_mem s)) arg) hdr buf (arg + hdr) n fd request s) s.
Proof.
  intros L Hh [_ _ _ Ers] Harg Hf Hn Hb. unfold translate_add.
  destruct (Z.eqb_spec arg 0); [done|]. wp_step. eapply wp_on_mem_read.
  { by rewrite rdf_run, Hf. }
  unfold u32. rewrite Z.mod_small by (unfold RT_FLT_MAX_TRANSLATE_RULES in *; lia).
  destruct (Z.eqb_spec n 0); [lia|]. destruct (Z.ltb_spec RT_FLT_MAX_TRANSLATE_RULES n); [lia|].
  cbn [orb]. cbv zeta. rewrite Ers.
  pose proof (stage_copy (b_mem s) hdr buf arg (arg + hdr) n Hh Hb) as St.
  wp_step. apply wp_on_mem. apply wp_bind_iff in St. eapply wp_mono; [exact St|].
  intros [] m1 St1. wp_step. apply wp_on_mem. eapply wp_mono; [exact St1|].
  intros [] m2 St2. destruct Hb as [? ? ? ? ?]. eapply (send_wp _ _ _ _ _ _ _ _ s m2); first [done|lia].
Qed.

Lemma stage_v2 st m hdr buf arg : 0 ≤ hdr → add_v2_ok st hdr → mapped (vget m) buf (total hdr) →
  ∀ v, staged (hdr_copy v arg) hdr buf (total hdr) v (vget m) →
  wp (wr32 (buf + f_off (as_rule_size st)) O ;; wr64 (buf + f_off (as_rules st)) (u32 (buf + hdr)))
     (λ _ m', staged (hdr_v2 st hdr buf v arg) hdr buf (total hdr) v (vget m')) m.
Proof.
  intros Hh [_ _ _ [? ?] _ [? ?] Hap] Hb v (S1 & S2 & S3 & S4). pose proof (ko_old _ _ KO) as HO.
  unfold RT_FLT_MAX_TRANSLATE_RULES in *.
  wp_step. eapply wp_wr32; [apply rep_vget|in_range|]. intros m1 R1.
  eapply wp_wr64; [exact R1|apply mapped_vput; in_range|]. intros m2 R2.
  unfold vput in R2. rewrite !length_le_bytes in R2. split_and!.
  - intros o Ho. unfold vget. rewrite R2. unfold hdr_v2. unfold apart, within in *.
    repeat (case_decide; try lia); try (f_equal; lia). by apply S1.
  - intros o Ho. unfold vget. rewrite R2. unfold within in *. repeat (case_decide; try lia). by apply S2.
  - intros a Hna. unfold vget. rewrite R2. unfold within in *. repeat (case_decide; try lia). by apply S3; unfold within.
  - intros a Ha%S4. unfold vget. rewrite R2. repeat case_decide; [..|done];
      apply lookup_lt_is_Some_2; rewrite length_le_bytes; unfold within in *; lia.
Qed.

Lemma translate_add_v2_wp tag hdr st buf fd request arg s n rp :
  is_loaded s → 0 ≤ hdr → add_v2_ok st hdr → arg ≠ 0 →
  vfield (vget (b_mem s)) arg (as_num_rules st) = Some n → 0 < n ≤ RT_FLT_MAX_TRANSLATE_RULES →
  vfield (vget (b_mem s)) arg (as_rules st) = Some rp → rp ≠ 0 →
  add_buffers (vget (b_mem s)) hdr buf arg (u32 rp) n →
  wp (translate_add_v2 k tag hdr st buf fd request arg)
     (translated_ioctl k ms (hdr_v2 st hdr buf (vget (b_mem s)) arg) hdr buf (u32 rp) n fd request s) s.
Proof.
  intros L Hh V Harg Hf Hn Hrp Hrp0 Hb. unfold translate_add_v2.
  destruct (Z.eqb_spec arg 0); [done|]. wp_step. eapply wp_on_mem_read.
  { by rewrite rdf_run, Hf. }
  assert (u32 n = n) as -> by (apply Z.mod_small; unfold RT_FLT_MAX_TRANSLATE_RULES in *; lia).
  destruct (Z.eqb_spec n 0); [lia|]. destruct (Z.ltb_spec RT_FLT_MAX_TRANSLATE_RULES n); [lia|].
  cbn [orb]. wp_step. eapply wp_on_mem_read; [by rewrite rdf_run, Hrp|].
  destruct (Z.eqb_spec rp 0); [done|]. cbv zeta.
  pose proof (stage_copy (b_mem s) hdr buf arg (u32 rp) n Hh Hb) as St.
  wp_step. apply wp_on_mem. apply wp_bind_iff in St. eapply wp_mono; [exact St|].
  intros [] m1 St1. wp_step. apply wp_on_mem. eapply wp_mono; [exact St1|].
  intros [] m2 St2. change (b_mem (set_mem (set_mem s m1) m2)) with m2.
  assert (mapped (vget m2) buf (total hdr)) as Hm2.
  { eapply mapped_le_mapped; [apply Hb|apply St2]. }
  pose proof (stage_v2 st m2 hdr buf arg Hh V Hm2 _ St2) as St3. apply wp_bind_iff in St3.
  wp_step. apply wp_on_mem. eapply wp_mono; [exact St3|].
  intros [] m3 St4. wp_step. apply wp_on_mem. eapply wp_mono; [exact St4|].
  intros [] m4 St5. wp_step. eapply (wp_on_mem_read _ rp).
  { rewrite rdf_run. change (b_mem (set_mem _ m4)) with m4.
    replace (vfield (vget m4) arg (as_rules st)) with (Some rp); [done|]. rewrite <- Hrp.
    unfold vfield. f_equal. apply vbytes_ext. intros i Hi. symmetry. apply St5.
    destruct V as [_ _ _ [? ?] V8 _ _]. rewrite V8 in Hi. pose proof (ab_hdr_apart _ _ _ _ _ _ Hb).
    pose proof (ko_old _ _ KO) as HO.
    unfold within, apart, RT_FLT_MAX_TRANSLATE_RULES in *. lia. }
  destruct Hb as [? ? ? ? ?]. eapply (send_wp _ _ _ _ _ _ _ _ s m4); first [done|lia].
Qed.
End adds.

(** ** GENERATE_FLT_EQ *)
Section generate.
Context `{IpaAbi} `{OsApi} {AB : IpaAbiOk} {OS : OsOk}.

(** The old structure: the IP family and the common attributes. *)
Definition gen_moves : list move := [(0, 0, 4); (OLD_GEN_EQ_ATTR, gen_attrib, ATTR_COMMON_SIZE)].

Definition generated_ioctl (buf arg fd request : Z) (s : bst) (o : option Z) (s' : bst) : Prop :=
  ∃ m1 m3,
    (∀ i, 0 ≤ i < OLD_GEN_EQ_SIZE → vget m1 (buf + i) = moved gen_moves (vget (b_mem s)) arg i) ∧
    (∀ a, ¬ within buf OLD_GEN_EQ_SIZE a → vget m1 a = vget (b_mem s) a) ∧
    let '(r, m2) := os_ioctl (b_trace s) fd request buf m1 in
    (∀ a, vget m3 a = if decide (0 ≤ r ∧ within (arg + gen_eq_attrib) 184 a)
                      then vget m2 (buf + OLD_GEN_EQ_EQ + (a - (arg + gen_eq_attrib)))
                      else vget m2 a) ∧
    o = Some r ∧
    quiet (set_trace (set_mem s m3) (EvIoctl fd request buf r :: b_trace s)) s'.

Lemma stage_generate m buf arg :
  mapped (vget m) buf OLD_GEN_EQ_SIZE → mapped (vget m) arg (gen_eq_attrib + 184) →
  apart buf OLD_GEN_EQ_SIZE arg (gen_eq_attrib + 184) →
  wp (mem_zero buf OLD_GEN_EQ_SIZE ;; mem_copy buf arg 4 ;;
      attr_new_to_old (buf + OLD_GEN_EQ_ATTR) (arg + gen_attrib))
     (λ _ m', (∀ i, 0 ≤ i < OLD_GEN_EQ_SIZE → vget m' (buf + i) = moved gen_moves (vget m) arg i) ∧
              (∀ a, ¬ within buf OLD_GEN_EQ_SIZE a → vget m' a = vget m a) ∧
              mapped_le (vget m) (vget m')) m.
Proof.
  intros Hb Ha Hap. pose proof ok_gen_attrib. pose proof ok_gen_eq.
  unfold OLD_GEN_EQ_SIZE, OLD_GEN_EQ_ATTR, attr_new_to_old, OLD_ATTR_SIZE, ATTR_COMMON_SIZE,
    gen_moves, OLD_GEN_EQ_ATTR, ATTR_COMMON_SIZE in *.
  pose proof (rep_vget m) as R0. assert (mapped_le (vget m) (vget m)) as L0 by done.
  repeat mem_op. match goal with R : rep ?m' ?v', L : mapped_le _ ?v' |- context [mapped_le _ (vget ?m')] =>
    assert (∀ a, vget m' a = v' a) as R' by exact R; assert (mapped_le (vget m) v') as L' by exact L end.
  split_and!.
  - intros i Hi. rewrite R'. unfold moved, move_src, vcopy, vzero, within. unfold apart in *.
    repeat (case_decide; try lia); try done; f_equal; lia.
  - intros a Hna. rewrite R'. unfold vcopy, vzero, within in *. repeat (case_decide; try lia). done.
  - intros a Hm. rewrite R'. by apply L'.
Qed.

Lemma translate_generate_wp buf fd request arg s : is_loaded s → arg ≠ 0 →
  mapped (vget (b_mem s)) buf OLD_GEN_EQ_SIZE → mapped (vget (b_mem s)) arg (gen_eq_attrib + 184) →
  apart buf OLD_GEN_EQ_SIZE arg (gen_eq_attrib + 184) →
  wp (translate_generate_flt_eq_ioctl buf fd request arg) (generated_ioctl buf arg fd request s) s.
Proof.
  intros L Harg Hb Ha Hap. unfold translate_generate_flt_eq_ioctl. pose proof ok_gen_attrib. pose proof ok_gen_eq.
  destruct (Z.eqb_spec arg 0); [done|].
  pose proof (stage_generate (b_mem s) buf arg Hb Ha Hap) as St.
  wp_step. apply wp_on_mem. apply wp_bind_iff in St. eapply wp_mono; [exact St|].
  intros [] m1 St1. wp_step. apply wp_on_mem. apply wp_bind_iff in St1. eapply wp_mono; [exact St1|].
  intros [] m2 St2. wp_step. apply wp_on_mem. eapply wp_mono; [exact St2|].
  intros [] m3 (P1 & P2 & P3). apply wp_bind. unfold wp at 1, sys_ioctl.
  change (b_mem (set_mem _ m3)) with m3. change (b_trace (set_mem _ m3)) with (b_trace s).
  pose proof (ok_ioctl (b_trace s) fd request buf m3) as Hk.
  destruct (os_ioctl (b_trace s) fd request buf m3) as [r m4] eqn:E. cbn [snd] in Hk.
  assert (mapped_le (vget (b_mem s)) (vget m4)) as L4 by (by etransitivity).
  unfold ATTR_COMMON_SIZE in *.
  assert (∀ m5 s', (∀ a, vget m5 a = if decide (0 ≤ r ∧ within (arg + gen_eq_attrib) 184 a)
                      then vget m4 (buf + OLD_GEN_EQ_EQ + (a - (arg + gen_eq_attrib))) else vget m4 a) →
    quiet (set_trace (set_mem s m5) (EvIoctl fd request buf r :: b_trace s)) s' →
    generated_ioctl buf arg fd request s (Some r) s') as Hfin.
  { intros m5 s' Hm5 Q. exists m3, m5. rewrite E. split_and!; done. }
  wp_step. destruct (Z.leb_spec 0 r).
  - apply wp_on_mem. eapply wp_mem_copy; [lia|apply rep_vget|..].
    + eapply mapped_le_sub; [exact Hb|done|unfold OLD_GEN_EQ_EQ; lia|unfold OLD_GEN_EQ_EQ, OLD_GEN_EQ_SIZE; lia].
    + eapply mapped_le_sub; [exact Ha|done|lia|lia].
    + unfold apart, OLD_GEN_EQ_EQ, OLD_GEN_EQ_SIZE in *. lia.
    + intros m5 R5. wp_step. eapply wp_quiet; [by apply log_translate_ioctl_quiet|].
      intros _ s' Q. apply wp_ret. apply (Hfin m5); [|exact Q]. intros a. rewrite (R5 a : vget m5 a = _).
      unfold vcopy. destruct (decide (within _ _ a)); [rewrite decide_True by tauto|rewrite decide_False by tauto]; done.
  - apply wp_ret. wp_step. eapply wp_quiet; [by apply log_translate_ioctl_quiet|].
    intros _ s' Q. apply wp_ret. apply (Hfin m4); [|exact Q].
    intros a. rewrite decide_False by lia. done.
Qed.
End generate.
