(* ===== verification/BridgeOnce.v ===== *)
(** * The ABI bridge: one system call per ioctl

    Whatever the request, the configuration and the memory hold, a call of the
    interposed [ioctl] makes exactly one ioctl system call, with the caller's
    descriptor and request, and returns its result; its own traffic is opens,
    reads, writes, closes and readlinks. *)
From stdpp Require Import base tactics list gmap strings numbers.
From Stdlib Require Import ZArith Lia.
From S2P Require Import Prelude Mem CStr BridgeBase BridgeAbi BridgeConfig BridgeEnv.
From S2P Require Import BridgeQuery BridgeRules.

Definition is_ioctl (e : sysev) : bool := match e with EvIoctl _ _ _ _ => true | _ => false end.

(** The ioctl system calls of a trace, newest first. *)
Definition ioctls (t : list sysev) : list sysev := filter (λ e, is_ioctl e = true) t.

(** A computation that makes no ioctl system call. *)
Definition no_ioctl {A} (m : B A) : Prop :=
  ∀ s a s', m s = Some (a, s') → ioctls (b_trace s') = ioctls (b_trace s).

(** A computation that makes exactly one, and returns its result. *)
Definition one_ioctl (fd request : Z) (m : B Z) : Prop :=
  ∀ s r s', m s = Some (r, s') →
    ∃ arg, ioctls (b_trace s') = EvIoctl fd request arg r :: ioctls (b_trace s).

Section no_ioctl.
Context `{IpaAbi} `{OsApi}.

Lemma no_ret {A} (a : A) : no_ioctl (ret a).
Proof. by intros s a' s' [= _ <-]. Qed.
Lemma no_ub {A} : no_ioctl (ub (A := A)).
Proof. done. Qed.
Lemma no_gets {A} (f : bst → A) : no_ioctl (gets f).
Proof. by intros s a s' [= _ <-]. Qed.
Lemma no_bind {A C} (m : B A) (k : A → B C) :
  no_ioctl m → (∀ a, no_ioctl (k a)) → no_ioctl (bind m k).
Proof.
  intros Hm Hk s c s' E. unfold bind in E. destruct (m s) as [[a s1]|] eqn:Em; [|done].
  rewrite (Hk _ _ _ _ E). by eapply Hm.
Qed.
Lemma no_modify f : (∀ s, b_trace (f s) = b_trace s) → no_ioctl (modify f).
Proof. intros Hf s a s' [= _ <-]. by rewrite Hf. Qed.
Lemma no_on_mem {A} (k : M mem A) : no_ioctl (on_mem k).
Proof. intros s a s'. unfold on_mem. destruct (k (b_mem s)) as [[? ?]|]; [|done]. by intros [= _ <-]. Qed.
Lemma no_emit e : is_ioctl e = false → no_ioctl (emit e).
Proof.
  intros He s a s' [= _ <-]. simpl. unfold ioctls. rewrite filter_cons_False; [done|]. by rewrite He.
Qed.
Lemma no_open p f m : no_ioctl (sys_open p f m).
Proof. intros s a s' [= _ <-]. done. Qed.
Lemma no_read fd c : no_ioctl (sys_read fd c).
Proof. intros s a s'. unfold sys_read. destruct (os_read _ _ _). by intros [= _ <-]. Qed.
Lemma no_readlink p c : no_ioctl (sys_readlink p c).
Proof. intros s a s'. unfold sys_readlink. destruct (os_readlink _ _ _). by intros [= _ <-]. Qed.
Lemma no_for_up n i body : (∀ j, no_ioctl (body j)) → no_ioctl (for_up n i body).
Proof.
  intros Hb. unfold for_up. revert i. generalize tt. induction n as [|n IH]; intros u i; simpl.
  - apply no_ret.
  - apply no_bind; auto.
Qed.
End no_ioctl.

Create HintDb quiet_calls.
#[export] Hint Resolve no_ret no_ub no_gets no_on_mem no_open no_read no_readlink no_for_up : quiet_calls.
#[export] Hint Extern 1 (no_ioctl (emit _)) => apply no_emit; reflexivity : quiet_calls.
#[export] Hint Extern 1 (no_ioctl (modify _)) => apply no_modify; reflexivity : quiet_calls.

(** Walks a computation: binds, tests and loops. *)
Ltac no_calls :=
  repeat (intros;
    lazymatch goal with
    | |- no_ioctl (bind _ _) => apply no_bind
    | |- no_ioctl (if ?b then _ else _) => destruct b
    | |- no_ioctl (match ?x with _ => _ end) => destruct x
    | |- no_ioctl (for_up _ _ _) => apply no_for_up
    | |- no_ioctl _ => solve [auto with quiet_calls nocore]
    end).

Section library.
Context `{IpaAbi} `{OsApi}.

Lemma no_write fd bs : no_ioctl (sys_write fd bs).
Proof. by apply no_emit. Qed.
Lemma no_close fd : no_ioctl (sys_close fd).
Proof. by apply no_emit. Qed.
#[local] Hint Resolve no_write no_close : quiet_calls.
Lemma no_env_load : no_ioctl env_load.
Proof. unfold env_load. no_calls. Qed.
#[local] Hint Resolve no_env_load : quiet_calls.
Lemma no_env_get name sz : no_ioctl (env_get name sz).
Proof. unfold env_get. no_calls. Qed.
#[local] Hint Resolve no_env_get : quiet_calls.
Lemma no_parse_bool name d : no_ioctl (parse_bool_env name d).
Proof. unfold parse_bool_env. no_calls. Qed.
#[local] Hint Resolve no_parse_bool : quiet_calls.
Lemma no_load_cfg : no_ioctl load_cfg.
Proof. unfold load_cfg. no_calls. Qed.
#[local] Hint Resolve no_load_cfg : quiet_calls.
Lemma no_load_name p : no_ioctl (load_name p).
Proof. apply no_on_mem. Qed.
#[local] Hint Resolve no_load_name : quiet_calls.
Lemma no_iface_allowed p : no_ioctl (iface_allowed p).
Proof. unfold iface_allowed. no_calls. Qed.
Lemma no_iface_translate p : no_ioctl (iface_translate_allowed p).
Proof. unfold iface_translate_allowed. no_calls. Qed.
Lemma no_fd_is_ipa fd : no_ioctl (fd_is_ipa_dev fd).
Proof. unfold fd_is_ipa_dev. no_calls. Qed.
Lemma no_log_open : no_ioctl log_open.
Proof. unfold log_open. no_calls. Qed.
Lemma no_log_s fd x : no_ioctl (log_s fd x).
Proof. apply no_write. Qed.
Lemma no_log_hex fd v : no_ioctl (log_hex32_fd fd v).
Proof. apply no_write. Qed.
#[local] Hint Resolve no_iface_allowed no_iface_translate no_log_open no_log_s no_log_hex : quiet_calls.
Lemma no_log_name fd p : no_ioctl (log_name fd p).
Proof. unfold log_name. no_calls. Qed.
Lemma no_log_kx fd key v : no_ioctl (log_kx fd key v).
Proof. unfold log_kx. no_calls. Qed.
#[local] Hint Resolve no_log_name no_log_kx : quiet_calls.
Lemma no_log_kv4 tag i a b c d act : no_ioctl (log_kv4 tag i a b c d act).
Proof. unfold log_kv4. no_calls. Qed.
Lemma no_log_prop_tx tag i x ip d a l h : no_ioctl (log_prop_tx tag i x ip d a l h).
Proof. unfold log_prop_tx. no_calls. Qed.
Lemma no_log_prop_rx tag i x ip d l : no_ioctl (log_prop_rx tag i x ip d l).
Proof. unfold log_prop_rx. no_calls. Qed.
Lemma no_iface_id p : no_ioctl (iface_id p).
Proof. unfold iface_id. no_calls. Qed.
#[local] Hint Resolve no_log_kv4 no_log_prop_tx no_log_prop_rx no_iface_id : quiet_calls.
Lemma no_hexdump tag i b l t : no_ioctl (log_hexdump_once tag i b l t).
Proof. unfold log_hexdump_once. no_calls. Qed.
Lemma no_log_tx tag i b n st d a h l : no_ioctl (log_tx_props tag i b n st d a h l).
Proof. unfold log_tx_props. no_calls. Qed.
Lemma no_log_rx tag i b n st sr l : no_ioctl (log_rx_props tag i b n st sr l).
Proof. unfold log_rx_props. no_calls. Qed.
#[local] Hint Resolve no_hexdump no_log_tx no_log_rx : quiet_calls.
Lemma no_query_tx tmp q : no_ioctl (handle_query_tx tmp q).
Proof. unfold handle_query_tx. no_calls. Qed.
Lemma no_query_rx tmp q : no_ioctl (handle_query_rx tmp q).
Proof. unfold handle_query_rx. no_calls. Qed.
Lemma no_query_ext q : no_ioctl (handle_query_ext q).
Proof. unfold handle_query_ext. no_calls. Qed.
Lemma no_log_translate tag n r : no_ioctl (log_translate_ioctl tag n r).
Proof. unfold log_translate_ioctl. no_calls. Qed.
Lemma no_log_kf fd key p f : no_ioctl (log_kf fd key p f).
Proof. unfold log_kf. no_calls. Qed.
Lemma no_log_tbl fd p st : no_ioctl (log_tbl fd p st).
Proof. unfold log_tbl. no_calls. Qed.
#[local] Hint Resolve no_log_kf no_log_tbl : quiet_calls.
Lemma no_log_fields fd nr arg : no_ioctl (log_rt_flt_fields fd nr arg).
Proof. unfold log_rt_flt_fields. no_calls. Qed.
#[local] Hint Resolve no_log_fields no_query_tx no_query_rx no_query_ext no_log_translate : quiet_calls.
Lemma no_log_rt_flt nr arg r : no_ioctl (log_rt_flt nr arg r).
Proof. unfold log_rt_flt. no_calls. Qed.
#[local] Hint Resolve no_fd_is_ipa no_log_rt_flt : quiet_calls.

(** ** The translating functions: one call, or none and no result *)
Definition maybe_one (fd request : Z) (m : B (option Z)) : Prop :=
  ∀ s o s', m s = Some (o, s') →
    match o with
    | None => ioctls (b_trace s') = ioctls (b_trace s)
    | Some r => ∃ arg, ioctls (b_trace s') = EvIoctl fd request arg r :: ioctls (b_trace s)
    end.

Lemma maybe_bind {A} fd request (m : B A) k : no_ioctl m → (∀ a, maybe_one fd request (k a)) →
  maybe_one fd request (bind m k).
Proof.
  intros Hm Hk s o s' E. unfold bind in E. destruct (m s) as [[a s1]|] eqn:Em; [|done].
  apply Hm in Em. apply Hk in E. by rewrite Em in E.
Qed.

Lemma maybe_none fd request : maybe_one fd request (ret None).
Proof. by intros s o s' [= <- <-]. Qed.

(** The system call itself, then work that makes none and returns its result. *)
Lemma maybe_send fd request buf (k : Z → B unit) : (∀ r, no_ioctl (k r)) →
  maybe_one fd request (let* r := sys_ioctl fd request buf in k r ;; ret (Some r)).
Proof.
  intros Hk s o s' E. unfold bind in E. unfold sys_ioctl in E.
  destruct (os_ioctl _ _ _ _ _) as [r m]. destruct (k r _) as [[[] s1]|] eqn:Ek; [|done].
  injection E as <- <-. exists buf. by rewrite (Hk _ _ _ _ Ek).
Qed.

Lemma maybe_ext fd request m m' : (∀ s, m s = m' s) → maybe_one fd request m → maybe_one fd request m'.
Proof. intros E Hm s o s' Hs. rewrite <- E in Hs. by apply Hm. Qed.

Lemma maybe_send2 fd request buf (f g : Z → B unit) : (∀ r, no_ioctl (f r)) → (∀ r, no_ioctl (g r)) →
  maybe_one fd request (let* r := sys_ioctl fd request buf in f r ;; g r ;; ret (Some r)).
Proof.
  intros Hf Hg. eapply maybe_ext; [|apply (maybe_send fd request buf (λ r, f r ;; g r))].
  - intros s. unfold bind. destruct (sys_ioctl _ _ _ s) as [[r s1]|]; [|done].
    by destruct (f r s1) as [[? ?]|].
  - intros r. by apply no_bind.
Qed.

Ltac maybe_calls :=
  repeat (intros;
    lazymatch goal with
    | |- maybe_one _ _ (ret None) => apply maybe_none
    | |- maybe_one _ _ (bind (sys_ioctl _ _ _) _) => apply maybe_send2; intros
    | |- maybe_one _ _ (bind _ _) => apply maybe_bind
    | |- maybe_one _ _ (if ?b then _ else _) => destruct b
    | |- no_ioctl _ => no_calls
    end).

Lemma maybe_add k tag hdr st buf fd request arg :
  maybe_one fd request (translate_add k tag hdr st buf fd request arg).
Proof. unfold translate_add. cbv zeta. maybe_calls. Qed.
Lemma maybe_add_v2 k tag hdr st buf fd request arg :
  maybe_one fd request (translate_add_v2 k tag hdr st buf fd request arg).
Proof. unfold translate_add_v2. cbv zeta. maybe_calls. Qed.
Lemma maybe_generate buf fd request arg :
  maybe_one fd request (translate_generate_flt_eq_ioctl buf fd request arg).
Proof. unfold translate_generate_flt_eq_ioctl. maybe_calls. Qed.

Lemma maybe_translate_one sp fd request nr arg :
  maybe_one fd request (maybe_translate_rt_flt_ioctl sp fd request nr arg).
Proof.
  unfold maybe_translate_rt_flt_ioctl. apply maybe_bind; [auto with quiet_calls nocore|]. intros _.
  apply maybe_bind; [auto with quiet_calls nocore|]. intros c.
  repeat (case_match; [first [apply maybe_none|apply maybe_add|apply maybe_add_v2|apply maybe_generate]|]).
  apply maybe_none.
Qed.

(** C29: the interposed [ioctl] makes exactly one ioctl system call per call, with
    the caller's descriptor and request, and returns what that call returned. *)
Theorem ioctl_once sp fd request arg : one_ioctl fd request (ioctl sp fd request arg).
Proof.
  intros s r s' E. unfold ioctl, bind at 1 in E.
  match type of E with match ?k ?s with _ => _ end = _ =>
    destruct (k s) as [[i s1]|] eqn:E1; [|done] end.
  assert (ioctls (b_trace s1) = ioctls (b_trace s)) as <-.
  { destruct (_ =? IPA_IOC_MAGIC); [by apply no_fd_is_ipa in E1|by injection E1 as _ <-]. }
  clear E1. destruct (i =? 0).
  { unfold sys_ioctl in E. destruct (os_ioctl _ _ _ _ _). injection E as <- <-. by exists arg. }
  unfold bind at 1 in E.
  match type of E with match ?k ?s with _ => _ end = _ =>
    destruct (k s) as [[o s2]|] eqn:E2; [|done] end.
  assert (match o with
          | None => ioctls (b_trace s2) = ioctls (b_trace s1)
          | Some r => ∃ arg, ioctls (b_trace s2) = EvIoctl fd request arg r :: ioctls (b_trace s1)
          end) as Ho.
  { destruct (_ =? IPA_IOC_MAGIC); [by apply maybe_translate_one in E2|by injection E2 as <- <-]. }
  clear E2. destruct o as [r2|].
  - destruct Ho as [a Ha]. exists a. unfold bind in E.
    destruct (log_rt_flt _ arg r2 s2) as [[[] s3]|] eqn:E3; [|done]. injection E as <- <-.
    by rewrite (no_log_rt_flt _ _ _ _ _ _ E3).
  - rewrite <- Ho. unfold bind at 1 in E. unfold sys_ioctl in E.
    destruct (os_ioctl _ _ _ _ _) as [r3 m3]. unfold bind in E.
    exists arg. match type of E with match ?k ?s with _ => _ end = _ =>
      assert (no_ioctl k) as Hk by no_calls; destruct (k s) as [[[] s4]|] eqn:E4; [|done] end.
    apply Hk in E4.
    match type of E with match ?k ?s with _ => _ end = _ =>
      assert (no_ioctl k) as Hk2 by no_calls; destruct (k s) as [[[] s5]|] eqn:E5; [|done] end.
    apply Hk2 in E5. injection E as <- <-. rewrite E5, E4. done.
Qed.
End library.
