(* ===== verification/BridgeIoctl.v ===== *)
(** * The ABI bridge: the interposed [ioctl]

    What an IPACM ioctl does from end to end: other descriptors and other
    requests pass through untouched, the ADD family and GENERATE_FLT_EQ reach
    the kernel in the 02300 layout, answers to property queries come back in
    the new one, and every call makes exactly one ioctl system call. *)
From stdpp Require Import base tactics list gmap strings numbers.
From Stdlib Require Import ZArith Lia.
From S2P Require Import Prelude Mem CStr BridgeBase BridgeAbi BridgeConfig BridgeEnv.
From S2P Require Import BridgeQuery BridgeQuerySpec BridgeHandlers BridgeRules BridgeRulesSpec.

(** One ioctl of the ADD family: its number, its rules, its structure. *)
Record add_entry := AddEntry {
  ae_nr : Z; ae_kind : rule_kind; ae_moves : list move; ae_hdr : Z; ae_struct : add_struct }.

Section ioctl_spec.
Context `{IpaAbi} `{OsApi} {AB : IpaAbiOk} {OS : OsOk}.

Definition add_entries : list add_entry :=
  [AddEntry IPA_IOCTL_ADD_RT_RULE rt_kind rt_moves 44 add_rt_rule;
   AddEntry IPA_IOCTL_ADD_FLT_RULE flt_kind flt_moves 16 add_flt_rule;
   AddEntry IPA_IOCTL_ADD_RT_RULE_AFTER rt_kind rt_moves 48 add_rt_rule_after;
   AddEntry IPA_IOCTL_ADD_FLT_RULE_AFTER flt_kind flt_moves 20 add_flt_rule_after].

Definition add_v2_entries : list add_entry :=
  [AddEntry IPA_IOCTL_ADD_RT_RULE_V2 rt_kind rt_moves 64 add_rt_rule_v2;
   AddEntry IPA_IOCTL_ADD_FLT_RULE_V2 flt_kind flt_moves 40 add_flt_rule_v2;
   AddEntry IPA_IOCTL_ADD_RT_RULE_AFTER_V2 rt_kind rt_moves 64 add_rt_rule_after_v2;
   AddEntry IPA_IOCTL_ADD_FLT_RULE_AFTER_V2 flt_kind flt_moves 40 add_flt_rule_after_v2].

(** ** Dispatch *)
Ltac numbers :=
  let Hnd := fresh "Hnd" in
  pose proof ok_numbers as Hnd;
  repeat (let Hn := fresh "Hn" in apply list.NoDup_cons in Hnd as [Hn Hnd];
          repeat (let Hne := fresh "Hne" in apply not_elem_of_cons in Hn as [Hne Hn]); clear Hn);
  clear Hnd.
Ltac dispatch :=
  repeat match goal with
  | |- context [?a =? ?a] => rewrite (Z.eqb_refl a)
  | Hn : ?a ≠ ?b |- context [?a =? ?b] => rewrite (proj2 (Z.eqb_neq a b) Hn)
  | Hn : ?b ≠ ?a |- context [?a =? ?b] => rewrite (proj2 (Z.eqb_neq a b) (not_eq_sym Hn))
  end; cbn [orb].

Definition entry_translate (e : add_entry) (tag : string) (sp fd request arg : Z) : B (option Z) :=
  translate_add (ae_kind e) tag (ae_hdr e) (ae_struct e) sp fd request arg.
Definition entry_translate_v2 (e : add_entry) (tag : string) (sp fd request arg : Z) : B (option Z) :=
  translate_add_v2 (ae_kind e) tag (ae_hdr e) (ae_struct e) sp fd request arg.

(** [maybe_translate_rt_flt_ioctl] once the configuration is loaded. *)
Definition rt_flt_dispatch (sp fd request nr arg : Z) (c : bridge_cfg) : B (option Z) :=
  if (rt_flt_translate c =? 0) || (arg =? 0) then ret None
  else if nr =? IPA_IOCTL_ADD_RT_RULE then translate_add_rt_ioctl sp fd request arg
  else if nr =? IPA_IOCTL_ADD_FLT_RULE then translate_add_flt_ioctl sp fd request arg
  else if nr =? IPA_IOCTL_ADD_RT_RULE_AFTER then translate_add_rt_after_ioctl sp fd request arg
  else if nr =? IPA_IOCTL_ADD_FLT_RULE_AFTER then translate_add_flt_after_ioctl sp fd request arg
  else if nr =? IPA_IOCTL_ADD_RT_RULE_V2 then translate_add_rt_v2_ioctl sp fd request arg
  else if nr =? IPA_IOCTL_ADD_FLT_RULE_V2 then translate_add_flt_v2_ioctl sp fd request arg
  else if nr =? IPA_IOCTL_ADD_RT_RULE_AFTER_V2 then
    translate_add_rt_after_v2_ioctl sp fd request arg
  else if nr =? IPA_IOCTL_ADD_FLT_RULE_AFTER_V2 then
    translate_add_flt_after_v2_ioctl sp fd request arg
  else if nr =? IPA_IOCTL_GENERATE_FLT_EQ then translate_generate_flt_eq_ioctl sp fd request arg
  else ret None.

Lemma wp_maybe_translate sp fd request nr arg s Q : started s →
  wp (rt_flt_dispatch sp fd request nr arg (cfg_at s)) Q (after_load s) →
  wp (maybe_translate_rt_flt_ioctl sp fd request nr arg) Q s.
Proof.
  intros St HQ. unfold maybe_translate_rt_flt_ioctl. wp_step.
  unfold wp at 1. rewrite load_cfg_run by done. wp_steps.
  by rewrite (o_cfg _ _ _ (after_load_outcome s St)).
Qed.

Lemma dispatch_add e sp fd request arg c : e ∈ add_entries → rt_flt_translate c ≠ 0 → arg ≠ 0 →
  ∃ tag, rt_flt_dispatch sp fd request (ae_nr e) arg c = entry_translate e tag sp fd request arg.
Proof.
  intros He Hc Ha. unfold rt_flt_dispatch.
  destruct (Z.eqb_spec (rt_flt_translate c) 0); [done|]. destruct (Z.eqb_spec arg 0); [done|].
  cbn [orb]. numbers. apply list_elem_of_In in He. simpl in He.
  destruct He as [<-|[<-|[<-|[<-|[]]]]]; cbn [ae_nr]; dispatch; eexists;
    unfold entry_translate; cbn [ae_kind ae_hdr ae_struct];
    unfold translate_add_rt_ioctl, translate_add_flt_ioctl, translate_add_rt_after_ioctl,
      translate_add_flt_after_ioctl; reflexivity.
Qed.

Lemma dispatch_add_v2 e sp fd request arg c : e ∈ add_v2_entries → rt_flt_translate c ≠ 0 →
  arg ≠ 0 →
  ∃ tag, rt_flt_dispatch sp fd request (ae_nr e) arg c = entry_translate_v2 e tag sp fd request arg.
Proof.
  intros He Hc Ha. unfold rt_flt_dispatch.
  destruct (Z.eqb_spec (rt_flt_translate c) 0); [done|]. destruct (Z.eqb_spec arg 0); [done|].
  cbn [orb]. numbers. apply list_elem_of_In in He. simpl in He.
  destruct He as [<-|[<-|[<-|[<-|[]]]]]; cbn [ae_nr]; dispatch; eexists;
    unfold entry_translate_v2; cbn [ae_kind ae_hdr ae_struct];
    unfold translate_add_rt_v2_ioctl, translate_add_flt_v2_ioctl, translate_add_rt_after_v2_ioctl,
      translate_add_flt_after_v2_ioctl; reflexivity.
Qed.

Lemma entry_kind_ok e : e ∈ add_entries ∨ e ∈ add_v2_entries →
  kind_ok (ae_kind e) (ae_moves e) ∧ 0 ≤ ae_hdr e.
Proof.
  rewrite !list_elem_of_In. simpl.
  intros [[<-|[<-|[<-|[<-|[]]]]]|[<-|[<-|[<-|[<-|[]]]]]]; cbn [ae_kind ae_moves ae_hdr];
    (split; [|lia]);
    [exact rt_kind_ok|exact flt_kind_ok|exact rt_kind_ok|exact flt_kind_ok
    |exact rt_kind_ok|exact flt_kind_ok|exact rt_kind_ok|exact flt_kind_ok].
Qed.

Lemma entry_add_ok e : e ∈ add_entries → add_ok (ae_struct e) (ae_hdr e).
Proof.
  rewrite list_elem_of_In. simpl. intros [<-|[<-|[<-|[<-|[]]]]]; cbn [ae_struct ae_hdr];
    [exact ok_add_rt|exact ok_add_flt|exact ok_add_rt_after|exact ok_add_flt_after].
Qed.

Lemma entry_add_v2_ok e : e ∈ add_v2_entries → add_v2_ok (ae_struct e) (ae_hdr e).
Proof.
  rewrite list_elem_of_In. simpl. intros [<-|[<-|[<-|[<-|[]]]]]; cbn [ae_struct ae_hdr];
    [exact ok_add_rt_v2|exact ok_add_flt_v2|exact ok_add_rt_after_v2|exact ok_add_flt_after_v2].
Qed.

(** ** The log of a translated ioctl *)
Lemma wp_log_kf fd key p f s0 s Q : writing fd s0 s → 0 ≤ f_len f →
  mapped (vget (b_mem s0)) (p + f_off f) (f_len f) →
  (∀ s', writing fd s0 s' → Q tt s') → wp (log_kf fd key p f) Q s.
Proof.
  intros W Hl Hm HQ. unfold log_kf. wp_step. eapply wp_log_s; [exact W|]. intros s1 W1.
  destruct (vbytes_mapped (vget (b_mem s0)) (Z.to_nat (f_len f)) (p + f_off f)) as [bs Hbs].
  { by rewrite Z2Nat.id. }
  wp_step. eapply (wp_on_mem_read _ (le_val bs)).
  { rewrite rdf_run. unfold vfield. by rewrite (w_mem _ _ _ W1), Hbs. }
  eapply wp_log_hex; [exact W1|done].
Qed.

Lemma wp_log_tbl fd p st nm s0 s Q : writing fd s0 s → name_at (b_mem s0) (p + as_tbl_name st) nm →
  (∀ s', writing fd s0 s' → Q tt s') → wp (log_tbl fd p st) Q s.
Proof.
  intros W N HQ. unfold log_tbl. wp_step. eapply wp_log_s; [exact W|]. intros s1 W1.
  by eapply wp_log_name.
Qed.

Lemma scalars_mapped v arg st hdr : scalars_ok st hdr → mapped v arg hdr →
  Forall (λ f, 0 ≤ f_len f ∧ mapped v (arg + f_off f) (f_len f))
    [as_ip st; as_num_rules st; as_rule_size st; as_after st; as_ep st; as_global st].
Proof.
  intros Hs Hm. eapply Forall_impl; [|exact Hs]. intros f [[? ?] ?]. split; [done|].
  eapply mapped_sub; [exact Hm|lia|lia].
Qed.

Ltac log_fields :=
  repeat match goal with
  | |- wp (bind _ _) _ _ => apply wp_bind
  | W : writing ?fd _ ?s |- wp (log_kf ?fd _ _ _) _ ?s =>
      eapply (wp_log_kf _ _ _ _ _ _ _ W); [assumption|assumption|]; clear W; intros ? W
  | W : writing ?fd _ ?s |- wp (log_tbl ?fd _ _) _ ?s =>
      eapply (wp_log_tbl _ _ _ _ _ _ _ W); [eassumption|]; clear W; intros ? W
  end.

(** A structure is readable: its scalars, and the table name of a route rule. *)
Definition readable (e : add_entry) (m : mem) (arg : Z) : Prop :=
  Forall (λ f, 0 ≤ f_len f ∧ mapped (vget m) (arg + f_off f) (f_len f))
    (let st := ae_struct e in
     [as_ip st; as_num_rules st; as_rule_size st; as_after st; as_ep st; as_global st]) ∧
  (rk_old_size (ae_kind e) = OLD_RT_ADD_SIZE → ∃ nm, name_at m (arg + as_tbl_name (ae_struct e)) nm).

Lemma entry_readable e m arg : e ∈ add_entries ∨ e ∈ add_v2_entries →
  mapped (vget m) arg (ae_hdr e) → readable e m arg.
Proof.
  intros He Hm. split.
  - eapply scalars_mapped; [|done]. destruct He as [He|He].
    + apply entry_add_ok in He. apply He.
    + apply entry_add_v2_ok in He. apply He.
  - intros Hk. pose proof ok_name_max. apply name_at_mapped; [lia|].
    assert (field_in (as_tbl_name (ae_struct e)) IPA_RESOURCE_NAME_MAX (ae_hdr e)) as [? ?].
    { pose proof ok_tbl_name as Ht. 
      do 4 (let Hf := fresh "Hf" in apply list.Forall_cons in Ht as [Hf Ht]).
      rewrite !list_elem_of_In in He. simpl in He.
      destruct He as [[<-|[<-|[<-|[<-|[]]]]]|[<-|[<-|[<-|[<-|[]]]]]]; cbn [ae_struct ae_hdr]; try assumption;
        cbn [ae_kind] in Hk; unfold flt_kind in Hk; cbn [rk_old_size] in Hk; discriminate Hk. }
    eapply mapped_sub; [exact Hm|lia|lia].
Qed.

(** The fields [log_rt_flt_fields] writes for an entry. *)
Lemma wp_log_fields e fd arg s0 s Q : e ∈ add_entries ∨ e ∈ add_v2_entries →
  writing fd s0 s → readable e (b_mem s0) arg →
  (∀ s', writing fd s0 s' → Q tt s') → wp (log_rt_flt_fields fd (ae_nr e) arg) Q s.
Proof.
  intros He W [Hs Ht] HQ.
  do 6 (let Hf := fresh "Hf" in let Hm := fresh "Hm" in apply list.Forall_cons in Hs as [[Hf Hm] Hs]).
  clear Hs. rewrite !list_elem_of_In in He. simpl in He. unfold log_rt_flt_fields. numbers.
  destruct He as [[<-|[<-|[<-|[<-|[]]]]]|[<-|[<-|[<-|[<-|[]]]]]];
    cbn [ae_nr ae_struct ae_kind] in *; dispatch;
    repeat match goal with Hne : _ ≠ _ |- _ => clear Hne end;
    try (destruct (Ht eq_refl) as [nm Hnm]); clear Ht; log_fields; by apply HQ.
Qed.

Lemma log_rt_flt_quiet e arg r s : e ∈ add_entries ∨ e ∈ add_v2_entries → is_loaded s →
  mapped (vget (b_mem s)) arg (ae_hdr e) → logs_only (log_rt_flt (ae_nr e) arg r) s.
Proof.
  intros He L Hm. unfold logs_only, log_rt_flt. wp_step. apply wp_load_cfg_loaded; [done|]. wp_steps.
  case_match; [apply wp_ret; reflexivity|].
  apply wp_session; [done|auto|]. intros fd s1 Hfd Hm1 Hc W Hclose.
  assert (readable e (b_mem s1) arg) as Hr by (rewrite Hm1; by apply entry_readable).
  repeat log_step. eapply wp_log_fields; [done|eassumption|done|]. intros s5 W5. log_steps. by apply Hclose.
Qed.

(** ** End to end *)
(** The entries' numbers are no queries', and are logged. *)
Lemma entry_number e : e ∈ add_entries ∨ e ∈ add_v2_entries →
  (ae_nr e =? IPA_IOCTL_QUERY_INTF_TX_PROPS) = false ∧
  (ae_nr e =? IPA_IOCTL_QUERY_INTF_RX_PROPS) = false ∧
  (ae_nr e =? IPA_IOCTL_QUERY_INTF_EXT_PROPS) = false ∧ is_rt_flt (ae_nr e) = true.
Proof.
  intros He. rewrite !list_elem_of_In in He. simpl in He. unfold is_rt_flt. numbers.
  destruct He as [[<-|[<-|[<-|[<-|[]]]]]|[<-|[<-|[<-|[<-|[]]]]]]; cbn [ae_nr]; dispatch;
    repeat split; reflexivity.
Qed.

Lemma dispatch_none sp fd request nr arg c :
  nr ∈ [IPA_IOCTL_QUERY_INTF_TX_PROPS; IPA_IOCTL_QUERY_INTF_RX_PROPS; IPA_IOCTL_QUERY_INTF_EXT_PROPS] →
  rt_flt_dispatch sp fd request nr arg c = ret None ∧ is_rt_flt nr = false.
Proof.
  intros Hnr. unfold rt_flt_dispatch, is_rt_flt. numbers.
  rewrite list_elem_of_In in Hnr. simpl in Hnr.
  destruct Hnr as [<-|[<-|[<-|[]]]]; dispatch;
    (split; [destruct ((_ =? 0) || (_ =? 0)); reflexivity|reflexivity]).
Qed.

(** A request for the IPA driver on a descriptor that is [/dev/ipa]. *)
Record ipa_call (fd request nr : Z) (s s1 : bst) : Prop := IpaCall {
  ic_type : ioc_type request = IPA_IOC_MAGIC;
  ic_nr : ioc_nr request = nr;
  ic_fd : fd_is_ipa_dev fd s = Some (1, s1);
  ic_started : started s1 }.

Lemma wp_ipa_call sp fd request nr arg s s1 Q : ipa_call fd request nr s s1 →
  wp (let* tr := maybe_translate_rt_flt_ioctl sp fd request nr arg in
      match tr with
      | Some r => log_rt_flt nr arg r ;; ret r
      | None =>
          let* r := sys_ioctl fd request arg in
          (when (0 <=? r) && true && negb (arg =? 0) then
            (if nr =? IPA_IOCTL_QUERY_INTF_TX_PROPS then handle_query_tx sp arg
             else if nr =? IPA_IOCTL_QUERY_INTF_RX_PROPS then handle_query_rx sp arg
             else when nr =? IPA_IOCTL_QUERY_INTF_EXT_PROPS then handle_query_ext arg)) ;;
          (when true && negb (arg =? 0) && is_rt_flt nr then log_rt_flt nr arg r) ;;
          ret r
      end) Q s1 →
  wp (ioctl sp fd request arg) Q s.
Proof.
  intros [Ht Hn Hf _] HQ. unfold ioctl. rewrite Ht, Hn, Z.eqb_refl. cbv zeta.
  apply wp_bind. unfold wp at 1. rewrite Hf. exact HQ.
Qed.

(** The state in which a call reaches the kernel unchanged, and the kernel's
    answer there. *)
Definition asked (fd request arg : Z) (s : bst) : Z * bst :=
  let '(r, m) := os_ioctl (b_trace s) fd request arg (b_mem s) in
  (r, set_trace (set_mem s m) (EvIoctl fd request arg r :: b_trace s)).

Lemma sys_ioctl_run fd request arg s : sys_ioctl fd request arg s = Some (asked fd request arg s).
Proof. unfold sys_ioctl, asked. by destruct (os_ioctl _ _ _ _ _). Qed.

Lemma asked_loaded fd request arg s : is_loaded s → is_loaded (asked fd request arg s).2.
Proof. unfold asked. by destruct (os_ioctl _ _ _ _ _). Qed.

Lemma asked_cfg fd request arg s : is_loaded s → cfg_at (asked fd request arg s).2 = g_cfg s.
Proof.
  intros L. unfold asked. destruct (os_ioctl _ _ _ _ _) as [r m]. unfold cfg_at, is_loaded in *. simpl.
  by destruct (Z.eqb_spec (loaded (g_cfg s)) 0).
Qed.

(** C4: a rule ioctl whose structure ends in the rule array (ADD_RT, ADD_FLT and
    their AFTER forms), sent to [/dev/ipa] with translation on and 1 to 8
    rules: the kernel is called once, with the local array that holds the
    caller's header and every rule in the 02300 layout, unused slots zero; the
    handles and statuses come back into the caller's rules, all other bytes
    stay as the kernel left them, and the result is the kernel's. *)
Theorem ioctl_add_spec e sp fd request arg s s1 n : e ∈ add_entries →
  ipa_call fd request (ae_nr e) s s1 → rt_flt_translate (cfg_at s1) ≠ 0 → arg ≠ 0 →
  vfield (vget (b_mem s1)) arg (as_num_rules (ae_struct e)) = Some n →
  0 < n ≤ RT_FLT_MAX_TRANSLATE_RULES →
  add_buffers (ae_kind e) (vget (b_mem s1)) (ae_hdr e) sp arg (arg + ae_hdr e) n →
  wp (ioctl sp fd request arg)
     (λ r s', ∃ s2, translated_ioctl (ae_kind e) (ae_moves e) (hdr_copy (vget (b_mem s1)) arg)
          (ae_hdr e) sp (arg + ae_hdr e) n fd request (after_load s1) (Some r) s2 ∧ quiet s2 s') s.
Proof.
  intros He Hc Htr Harg Hf Hn Hb. pose proof (ic_started _ _ _ _ _ Hc) as St.
  pose proof (after_load_outcome s1 St) as O. eapply wp_ipa_call; [done|].
  wp_step. apply wp_maybe_translate; [done|].
  destruct (dispatch_add e sp fd request arg (cfg_at s1) He Htr Harg) as [tag ->].
  destruct (entry_kind_ok e (or_introl He)) as [KO Hh]. unfold entry_translate.
  rewrite <- (o_mem _ _ _ O) in Hf, Hb |- *.
  eapply wp_mono; [eapply translate_add_wp; [done|apply O|done|by apply entry_add_ok|done|done|done|done]|].
  intros o s2 T. pose proof T as (m1 & m3 & _ & T').
  destruct (os_ioctl _ _ _ _ _) as [r m2]. destruct T' as (_ & -> & Hle & Q).
  wp_step. eapply wp_quiet.
  - apply log_rt_flt_quiet; [by left|eapply quiet_loaded; [exact Q|apply O]|].
    rewrite (q_mem _ _ Q). eapply mapped_le_mapped; [apply Hb|exact Hle].
  - intros _ s' Q'. apply wp_ret. by exists s2.
Qed.

(** C28: the same for the V2 structures, which point to their rules: the header
    the kernel sees carries the address of the translated rules and the size
    of a 02300 rule. *)
Theorem ioctl_add_v2_spec e sp fd request arg s s1 n rp : e ∈ add_v2_entries →
  ipa_call fd request (ae_nr e) s s1 → rt_flt_translate (cfg_at s1) ≠ 0 → arg ≠ 0 →
  vfield (vget (b_mem s1)) arg (as_num_rules (ae_struct e)) = Some n →
  0 < n ≤ RT_FLT_MAX_TRANSLATE_RULES →
  vfield (vget (b_mem s1)) arg (as_rules (ae_struct e)) = Some rp → rp ≠ 0 →
  add_buffers (ae_kind e) (vget (b_mem s1)) (ae_hdr e) sp arg (u32 rp) n →
  wp (ioctl sp fd request arg)
     (λ r s', ∃ s2, translated_ioctl (ae_kind e) (ae_moves e)
          (hdr_v2 (ae_kind e) (ae_struct e) (ae_hdr e) sp (vget (b_mem s1)) arg)
          (ae_hdr e) sp (u32 rp) n fd request (after_load s1) (Some r) s2 ∧ quiet s2 s') s.
Proof.
  intros He Hc Htr Harg Hf Hn Hrp Hrp0 Hb. pose proof (ic_started _ _ _ _ _ Hc) as St.
  pose proof (after_load_outcome s1 St) as O. eapply wp_ipa_call; [done|].
  wp_step. apply wp_maybe_translate; [done|].
  destruct (dispatch_add_v2 e sp fd request arg (cfg_at s1) He Htr Harg) as [tag ->].
  destruct (entry_kind_ok e (or_intror He)) as [KO Hh]. unfold entry_translate_v2.
  rewrite <- (o_mem _ _ _ O) in Hf, Hrp, Hb |- *.
  eapply wp_mono; [eapply translate_add_v2_wp;
    [done|apply O|done|by apply entry_add_v2_ok|done|done|done|done|done|done]|].
  intros o s2 T. pose proof T as (m1 & m3 & _ & T').
  destruct (os_ioctl _ _ _ _ _) as [r m2]. destruct T' as (_ & -> & Hle & Q).
  wp_step. eapply wp_quiet.
  - apply log_rt_flt_quiet; [by right|eapply quiet_loaded; [exact Q|apply O]|].
    rewrite (q_mem _ _ Q). eapply mapped_le_mapped; [apply Hb|exact Hle].
  - intros _ s' Q'. apply wp_ret. by exists s2.
Qed.

(** a TX property query on [/dev/ipa] is answered by one ioctl with the
    caller's own structure, and if the kernel succeeds the answer is rewritten
    to the new layout exactly under the conditions of the handler. *)
Theorem ioctl_query_tx_spec sp fd request arg s s1 nm n r s2 :
  ipa_call fd request IPA_IOCTL_QUERY_INTF_TX_PROPS s s1 → arg ≠ 0 →
  asked fd request arg (after_load s1) = (r, s2) →
  (0 ≤ r → name_at (b_mem s2) (arg + qtx_name) nm ∧
     vfield (vget (b_mem s2)) arg qtx_num = Some n ∧ 0 ≤ n < 2 ^ 32 ∧
     (plausible n = true → query_buffer (vget (b_mem s2)) sp OLD_TX_SIZE txp_size arg n)) →
  wp (ioctl sp fd request arg)
     (λ r' s', r' = r ∧
        if decide (0 ≤ r)
        then ∃ m', outcome s2 m' s' ∧
               tx_result (cfg_at s1) nm sp arg n (vget (b_mem s2)) (vget m')
        else s' = s2) s.
Proof.
  intros Hc Harg Ea Hr. pose proof (ic_started _ _ _ _ _ Hc) as St.
  pose proof (after_load_outcome s1 St) as O.
  eapply wp_ipa_call; [done|]. wp_step. apply wp_maybe_translate; [done|].
  destruct (dispatch_none sp fd request IPA_IOCTL_QUERY_INTF_TX_PROPS arg (cfg_at s1)) as [-> Hrf].
  { left. }
  rewrite Hrf. apply wp_ret. cbv beta iota. wp_step. unfold wp at 1. rewrite sys_ioctl_run, Ea.
  destruct (Z.eqb_spec arg 0); [done|]. rewrite Z.eqb_refl. cbn [negb].
  rewrite !andb_true_r, andb_false_r. wp_step.
  assert (cfg_at s2 = cfg_at s1) as Ecfg.
  { rewrite <- (o_cfg _ _ _ O). pose proof (asked_cfg fd request arg (after_load s1) ltac:(apply O)) as Hcfg.
    by rewrite Ea in Hcfg. }
  assert (is_loaded s2) as L2.
  { pose proof (asked_loaded fd request arg (after_load s1) ltac:(apply O)) as HL. by rewrite Ea in HL. }
  destruct (Z.leb_spec 0 r) as [Hpos|Hneg].
  - destruct (Hr Hpos) as (N & Hf & Hn & Hb). eapply wp_mono.
    { eapply handle_query_tx_wp; [by left|done|exact N|exact Hf|done|exact Hb]. }
    intros [] s3 Hres. wp_steps. rewrite decide_True by done. split; [done|]. by rewrite <- Ecfg.
  - apply wp_ret. wp_steps. rewrite decide_False by lia. done.
Qed.

(** calls that are not the IPA driver's pass through: with another ioctl
    type the call is the plain system call; with the IPA type on a descriptor
    that is not [/dev/ipa] it is the plain system call after the descriptor
    test, which changes no memory. *)
Theorem ioctl_transparent sp fd request arg s :
  (ioc_type request ≠ IPA_IOC_MAGIC →
     ioctl sp fd request arg s = Some (asked fd request arg s)) ∧
  (∀ s1, ioc_type request = IPA_IOC_MAGIC → fd_is_ipa_dev fd s = Some (0, s1) →
     b_mem s1 = b_mem s ∧ ioctl sp fd request arg s = Some (asked fd request arg s1)).
Proof.
  split.
  - intros Ht. unfold ioctl. destruct (Z.eqb_spec (ioc_type request) IPA_IOC_MAGIC); [done|].
    unfold bind, ret. cbn [Z.eqb]. rewrite sys_ioctl_run. destruct (asked _ _ _ _) as [r s2].
    rewrite andb_false_r. done.
  - intros s1 Ht Hf. split.
    + destruct (decide (fd = cached_fd (b_fdc s))) as [->|Hne].
      { rewrite fd_is_ipa_dev_hit in Hf. by injection Hf as _ <-. }
      destruct (fd_path_decimal fd) as (ds & Hp & _).
      pose proof (fd_is_ipa_dev_miss s fd _ Hne Hp) as Hm.
      destruct (os_readlink _ _ _) as [n link]. rewrite Hf in Hm. by injection Hm as _ ->.
    + unfold ioctl. rewrite Ht, Z.eqb_refl. unfold bind at 1. rewrite Hf. apply sys_ioctl_run.
Qed.

Lemma dispatch_generate sp fd request arg c : rt_flt_translate c ≠ 0 → arg ≠ 0 →
  rt_flt_dispatch sp fd request IPA_IOCTL_GENERATE_FLT_EQ arg c =
  translate_generate_flt_eq_ioctl sp fd request arg.
Proof.
  intros Hc Ha. unfold rt_flt_dispatch.
  destruct (Z.eqb_spec (rt_flt_translate c) 0); [done|]. destruct (Z.eqb_spec arg 0); [done|].
  cbn [orb]. numbers. dispatch. reflexivity.
Qed.

Lemma log_generate_quiet arg r s : is_loaded s →
  logs_only (log_rt_flt IPA_IOCTL_GENERATE_FLT_EQ arg r) s.
Proof.
  intros L. unfold logs_only, log_rt_flt. wp_step. apply wp_load_cfg_loaded; [done|]. wp_steps.
  case_match; [apply wp_ret; reflexivity|].
  apply wp_session; [done|auto|]. intros fd s1 Hfd Hm1 Hc W Hclose.
  repeat log_step. unfold log_rt_flt_fields. numbers. dispatch. repeat log_step. by apply Hclose.
Qed.

(** GENERATE_FLT_EQ on [/dev/ipa] with translation on: the kernel sees the IP
    family and the common attributes in the 02300 structure, everything else in
    it zero; on success its equation comes back into the caller's structure,
    on failure the memory is as the kernel left it. *)
Theorem ioctl_generate_spec sp fd request arg s s1 :
  ipa_call fd request IPA_IOCTL_GENERATE_FLT_EQ s s1 → rt_flt_translate (cfg_at s1) ≠ 0 → arg ≠ 0 →
  mapped (vget (b_mem s1)) sp OLD_GEN_EQ_SIZE →
  mapped (vget (b_mem s1)) arg (gen_eq_attrib + 184) →
  apart sp OLD_GEN_EQ_SIZE arg (gen_eq_attrib + 184) →
  wp (ioctl sp fd request arg)
     (λ r s', ∃ s2, generated_ioctl sp arg fd request (after_load s1) (Some r) s2 ∧ quiet s2 s') s.
Proof.
  intros Hc Htr Harg Hb Ha Hap. pose proof (ic_started _ _ _ _ _ Hc) as St.
  pose proof (after_load_outcome s1 St) as O. eapply wp_ipa_call; [done|].
  wp_step. apply wp_maybe_translate; [done|]. rewrite dispatch_generate by done.
  rewrite <- (o_mem _ _ _ O) in Hb, Ha.
  eapply wp_mono; [eapply translate_generate_wp; [apply O|done|done|done|done]|].
  intros o s2 T. pose proof T as (m1 & m3 & _ & _ & T').
  destruct (os_ioctl _ _ _ _ _) as [r m2]. destruct T' as (_ & -> & Q).
  wp_step. eapply wp_quiet.
  - apply log_generate_quiet. eapply quiet_loaded; [exact Q|apply O].
  - intros _ s' Q'. apply wp_ret. by exists s2.
Qed.

(** Counts the translation does not take: none, or more than the array holds. *)
Lemma entry_skips e sp fd request arg n s : e ∈ add_entries ∨ e ∈ add_v2_entries → arg ≠ 0 →
  vfield (vget (b_mem s)) arg (as_num_rules (ae_struct e)) = Some n → 0 ≤ n < 2 ^ 32 →
  n = 0 ∨ RT_FLT_MAX_TRANSLATE_RULES < n → ∀ tag,
  entry_translate e tag sp fd request arg s = Some (None, s) ∧
  entry_translate_v2 e tag sp fd request arg s = Some (None, s).
Proof.
  intros _ Ha Hf Hn Hs tag. unfold entry_translate, entry_translate_v2, translate_add, translate_add_v2.
  destruct (Z.eqb_spec arg 0); [done|].
  assert (on_mem (rdf arg (as_num_rules (ae_struct e))) s = Some (n, s)) as E.
  { unfold on_mem. rewrite rdf_run, Hf. simpl. by rewrite set_mem_same. }
  assert (u32 n = n) as Eu by (by apply Z.mod_small).
  assert ((n =? 0) || (RT_FLT_MAX_TRANSLATE_RULES <? n) = true) as Et.
  { destruct Hs as [->|Hs]; [done|]. apply orb_true_iff. right. by apply Z.ltb_lt. }
  split; erewrite bind_run by exact E; cbv zeta; by rewrite Eu, Et.
Qed.

(** a rule ioctl with no rules or with more than eight goes to the kernel
    with the caller's own structure, untouched; only the log is added. *)
Theorem ioctl_add_passthrough e sp fd request arg s s1 n r s2 : e ∈ add_entries ∨ e ∈ add_v2_entries →
  ipa_call fd request (ae_nr e) s s1 → arg ≠ 0 →
  vfield (vget (b_mem s1)) arg (as_num_rules (ae_struct e)) = Some n → 0 ≤ n < 2 ^ 32 →
  n = 0 ∨ RT_FLT_MAX_TRANSLATE_RULES < n → mapped (vget (b_mem s1)) arg (ae_hdr e) →
  asked fd request arg (after_load s1) = (r, s2) →
  wp (ioctl sp fd request arg) (λ r' s', r' = r ∧ quiet s2 s') s.
Proof.
  intros He Hc Harg Hf Hn Hs Hm Ea. pose proof (ic_started _ _ _ _ _ Hc) as St.
  pose proof (after_load_outcome s1 St) as O.
  eapply wp_ipa_call; [done|]. wp_step. apply wp_maybe_translate; [done|].
  assert (rt_flt_dispatch sp fd request (ae_nr e) arg (cfg_at s1) (after_load s1) =
          Some (None, after_load s1)) as Ed.
  { destruct (decide (rt_flt_translate (cfg_at s1) = 0)) as [E0|E0].
    { unfold rt_flt_dispatch. by rewrite E0. }
    rewrite <- (o_mem _ _ _ O) in Hf.
    pose proof (entry_skips e sp fd request arg n (after_load s1) He Harg Hf Hn Hs) as Hskip.
    destruct He as [He|He].
    - destruct (dispatch_add e sp fd request arg (cfg_at s1) He E0 Harg) as [tag ->]. apply Hskip.
    - destruct (dispatch_add_v2 e sp fd request arg (cfg_at s1) He E0 Harg) as [tag ->]. apply Hskip. }
  unfold wp at 1. rewrite Ed. cbv beta iota. wp_step. unfold wp at 1. rewrite sys_ioctl_run, Ea.
  assert (is_loaded s2) as L2.
  { pose proof (asked_loaded fd request arg (after_load s1) ltac:(apply O)) as HL. by rewrite Ea in HL. }
  assert (mapped (vget (b_mem s2)) arg (ae_hdr e)) as Hm2.
  { eapply mapped_le_mapped; [exact Hm|]. rewrite <- (o_mem _ _ _ O). unfold asked in Ea.
    pose proof (ok_ioctl (b_trace (after_load s1)) fd request arg (b_mem (after_load s1))) as Hle.
    destruct (os_ioctl _ _ _ _ _) as [r0 m0]. injection Ea as <- <-. exact Hle. }
  destruct (Z.eqb_spec arg 0); [done|]. cbn [negb]. rewrite !andb_true_r.
  destruct (entry_number e He) as (E1 & E2 & E3 & ->). rewrite E1, E2, E3.
  wp_step. assert (∀ Q, Q tt s2 → wp (if 0 <=? r then ret tt else ret tt) Q s2) as Hif.
  { intros Q HQ. by case_match; apply wp_ret. }
  apply Hif. wp_step. eapply wp_quiet; [by apply log_rt_flt_quiet|].
  intros _ s' Q. by apply wp_ret.
Qed.
End ioctl_spec.

(** ** Witnesses: one call of each kind on descriptor 9 *)
Definition ex_request (nr : Z) : Z := 207 * 256 + nr.

(** The state after the descriptor test of a first call. *)
Definition ex_tested (m : mem) : bst :=
  set_trace (set_fdc (bst0 m) (FdCache 9 1)) [EvReadlink (chars "/proc/self/fd/9") 8].

Lemma ex_call m nr : 0 ≤ nr < 256 → ipa_call 9 (ex_request nr) nr (bst0 m) (ex_tested m).
Proof.
  intros Hn. unfold ex_request. split; [| |reflexivity|by right].
  - unfold ioc_type. cbn [IOC_TYPESHIFT IOC_TYPEMASK eth_abi IPA_IOC_MAGIC].
    change 255 with (Z.ones 8). rewrite Z.land_ones, Z.shiftr_div_pow2 by lia.
    rewrite Z.div_add_l by lia. rewrite Z.div_small by lia. reflexivity.
  - unfold ioc_nr. cbn [IOC_NRSHIFT IOC_NRMASK eth_abi].
    change 255 with (Z.ones 8). rewrite Z.land_ones, Z.shiftr_0_r by lia.
    rewrite Z.add_comm, Z.mod_add by lia. by apply Z.mod_small.
Qed.

Definition rt_entry : add_entry := AddEntry 4 rt_kind rt_moves 44 add_rt_rule.
Definition rt_v2_entry : add_entry := AddEntry 69 rt_kind rt_moves 64 add_rt_rule_v2.

(** ADD_RT with one rule whose bytes are all 7. *)
Definition add_rt_mem : mem :=
  place 1000 (zeros 40 ++ [1] ++ zeros 3 ++ replicate 192 7) ∪ place 5000 (zeros 1484).
Definition add_rt_v2_mem : mem :=
  place 1000 (zeros 40 ++ [1] ++ zeros 3 ++ le_bytes 4 192 ++ zeros 8 ++ le_bytes 8 2000)
  ∪ place 2000 (replicate 192 7) ∪ place 5000 (zeros 1504).
Definition generate_mem : mem := place 1000 (replicate 352 7) ∪ place 5000 (zeros 340).

Lemma ioctl_add_spec_witness :
  wp (ioctl 5000 9 (ex_request 4) 1000)
     (λ r s', ∃ s2, translated_ioctl rt_kind rt_moves (hdr_copy (vget add_rt_mem) 1000)
          44 5000 1044 1 9 (ex_request 4) (after_load (ex_tested add_rt_mem)) (Some r) s2 ∧ quiet s2 s')
     (bst0 add_rt_mem).
Proof.
  apply (ioctl_add_spec rt_entry 5000 9 (ex_request 4) 1000 (bst0 add_rt_mem) (ex_tested add_rt_mem) 1);
    [left|by apply ex_call|by vm_compute|done|by vm_compute|by vm_compute|].
  split; mem_facts.
Defined.

Lemma ioctl_add_v2_spec_witness :
  wp (ioctl 5000 9 (ex_request 69) 1000)
     (λ r s', ∃ s2, translated_ioctl rt_kind rt_moves
          (hdr_v2 rt_kind add_rt_rule_v2 64 5000 (vget add_rt_v2_mem) 1000)
          64 5000 2000 1 9 (ex_request 69) (after_load (ex_tested add_rt_v2_mem)) (Some r) s2 ∧ quiet s2 s')
     (bst0 add_rt_v2_mem).
Proof.
  apply (ioctl_add_v2_spec rt_v2_entry 5000 9 (ex_request 69) 1000 (bst0 add_rt_v2_mem)
           (ex_tested add_rt_v2_mem) 1 2000);
    [left|by apply ex_call|by vm_compute|done|by vm_compute|by vm_compute|by vm_compute|done|].
  split; mem_facts.
Defined.

Lemma ioctl_query_tx_spec_witness :
  let s1 := ex_tested tx_query_mem in ∃ r s2,
  wp (ioctl 5000 9 (ex_request 23) 1000)
     (λ r' s', r' = r ∧
        if decide (0 ≤ r)
        then ∃ m', outcome s2 m' s' ∧
               tx_result (cfg_at s1) (chars "eth0") 5000 1000 1 (vget (b_mem s2)) (vget m')
        else s' = s2) (bst0 tx_query_mem).
Proof.
  eexists _, _. eapply (ioctl_query_tx_spec 5000 9 (ex_request 23) 1000 (bst0 tx_query_mem)
    (ex_tested tx_query_mem) (chars "eth0") 1 _ _); [by apply ex_call|done|apply surjective_pairing|].
  intros _. split_and!; [by apply name_at_vcstr; vm_compute|by vm_compute|lia|lia|].
  intros _. split; mem_facts.
Defined.

Lemma ioctl_transparent_witness :
  ioctl 5000 9 5 1000 (bst0 add_rt_mem) = Some (asked 9 5 1000 (bst0 add_rt_mem)).
Proof. apply (proj1 (ioctl_transparent 5000 9 5 1000 (bst0 add_rt_mem))). by vm_compute. Defined.

Lemma ioctl_generate_spec_witness :
  wp (ioctl 5000 9 (ex_request 29) 1000)
     (λ r s', ∃ s2, generated_ioctl 5000 1000 9 (ex_request 29) (after_load (ex_tested generate_mem))
          (Some r) s2 ∧ quiet s2 s') (bst0 generate_mem).
Proof.
  apply (ioctl_generate_spec 5000 9 (ex_request 29) 1000 (bst0 generate_mem) (ex_tested generate_mem));
    [by apply ex_call|by vm_compute|done|mem_facts..].
Defined.

(** ADD_RT with no rules. *)
Definition empty_mem : mem := place 1000 (zeros 44).

Lemma ioctl_add_passthrough_witness : ∃ r s2,
  wp (ioctl 5000 9 (ex_request 4) 1000) (λ r' s', r' = r ∧ quiet s2 s') (bst0 empty_mem).
Proof.
  eexists _, _.
  eapply (ioctl_add_passthrough rt_entry 5000 9 (ex_request 4) 1000 (bst0 empty_mem)
           (ex_tested empty_mem) 0 _ _);
    [left; left|by apply ex_call|done|by vm_compute|lia|by left|mem_facts|apply surjective_pairing].
Defined.
