(* ===== verification/DeviceTree.v ===== *)
(** * The PCIe enabler: device tree, allocator and kernel interface

    The data [pcie_enabler_non_es_v1.c] works on: device tree nodes linked by
    parent, child and sibling, properties built from allocated pieces, and the
    [of_*] functions of the kernel it calls ([OfApi], with their documented
    behaviour in [OfOk]). *)
From stdpp Require Import base tactics list gmap strings numbers sets.
From Stdlib Require Import ZArith Lia.
From S2P Require Import Prelude.

(** ** Data *)
(** [struct property], with the three blocks it is made of. *)
Record property := Property {
  p_name : string; p_length : Z; p_value : list Z;
  p_blk : Z; p_name_blk : Z; p_value_blk : option Z }.

(** [struct device_node]: links, flags and properties. *)
Record device_node := DeviceNode {
  d_name : string; d_full_name : string; d_phandle : Z;
  d_parent : option Z; d_child : option Z; d_sibling : option Z;
  d_dynamic : bool; d_detached : bool; d_props : list property }.

(** The nodes by address, and the reference count of each. *)
Record dtree := Dtree { dt_nodes : gmap Z device_node; dt_refs : Z → Z }.

Definition set_props (d : device_node) ps : device_node :=
  DeviceNode (d_name d) (d_full_name d) (d_phandle d) (d_parent d) (d_child d) (d_sibling d)
    (d_dynamic d) (d_detached d) ps.
Definition set_child (d : device_node) c : device_node :=
  DeviceNode (d_name d) (d_full_name d) (d_phandle d) (d_parent d) c (d_sibling d)
    (d_dynamic d) (d_detached d) (d_props d).
Definition set_sibling (d : device_node) c : device_node :=
  DeviceNode (d_name d) (d_full_name d) (d_phandle d) (d_parent d) (d_child d) c
    (d_dynamic d) (d_detached d) (d_props d).
Definition set_detached (d : device_node) b : device_node :=
  DeviceNode (d_name d) (d_full_name d) (d_phandle d) (d_parent d) (d_child d) (d_sibling d)
    (d_dynamic d) b (d_props d).

(** ** The kernel's device tree functions *)
Class OfApi := {
  of_find_node_by_path : dtree → string → option Z * dtree;
  of_find_compatible_node : dtree → string → option Z * dtree;
  of_get_next_child : dtree → Z → option Z → option Z * dtree;
  of_node_put : dtree → option Z → dtree;
  of_find_property : dtree → Z → string → bool;
  of_add_property : dtree → Z → property → Z * dtree;
  of_update_property : dtree → Z → property → Z * dtree }.

(** ** Their documented behaviour *)
Definition prop_names (ps : list property) : list string := p_name <$> ps.

(** A property list after a property has been added or updated. *)
Fixpoint upd_props (p : property) (ps : list property) : list property :=
  match ps with
  | [] => [p]
  | q :: ps' => if decide (p_name q = p_name p) then p :: ps' else q :: upd_props p ps'
  end.

Definition one_if (o : option Z) (x : Z) : Z := if decide (o = Some x) then 1 else 0.

(** A lookup that hands out a reference. *)
Definition got (t : dtree) (r : option Z * dtree) : Prop :=
  dt_nodes r.2 = dt_nodes t ∧
  (∀ n, r.1 = Some n → is_Some (dt_nodes t !! n)) ∧
  (∀ x, dt_refs r.2 x = dt_refs t x + one_if r.1 x).

(** A change of one node's properties: the change, or an error and nothing. *)
Definition changed_prop (t : dtree) (n : Z) (p : property) (r : Z * dtree) : Prop :=
  dt_refs r.2 = dt_refs t ∧
  ((r.1 = 0 ∧ ∃ d, dt_nodes t !! n = Some d ∧
     dt_nodes r.2 = <[n := set_props d (upd_props p (d_props d))]> (dt_nodes t)) ∨
   (r.1 < 0 ∧ dt_nodes r.2 = dt_nodes t)).

Class OfOk `{OfApi} : Prop := {
  ok_find_path : ∀ t path, got t (of_find_node_by_path t path);
  ok_find_compatible : ∀ t c, got t (of_find_compatible_node t c);
  ok_next_child : ∀ t n d prev, dt_nodes t !! n = Some d →
    let r := of_get_next_child t n prev in
    r.1 = (match prev with None => d_child d
           | Some p => match dt_nodes t !! p with Some e => d_sibling e | None => None end end) ∧
    dt_nodes r.2 = dt_nodes t ∧
    (∀ x, dt_refs r.2 x = dt_refs t x + one_if r.1 x - one_if prev x);
  ok_put : ∀ t o, dt_nodes (of_node_put t o) = dt_nodes t ∧
    (∀ x, dt_refs (of_node_put t o) x = dt_refs t x - one_if o x);
  ok_find_property : ∀ t n name d, dt_nodes t !! n = Some d →
    of_find_property t n name = bool_decide (name ∈ prop_names (d_props d));
  ok_add_property : ∀ t n p d, dt_nodes t !! n = Some d → p_name p ∉ prop_names (d_props d) →
    changed_prop t n p (of_add_property t n p);
  ok_update_property : ∀ t n p d, dt_nodes t !! n = Some d →
    changed_prop t n p (of_update_property t n p) }.

(** ** The enabler's statics and the allocator

    [live] holds the allocated blocks, [nextb] the next address, [fails] says
    of each allocation to come whether it fails (all succeed once it is
    empty). The symbols are addresses, 0 when unresolved. *)
Record syms := Syms {
  y_lookup : Z; y_of_mutex : Z; y_devtree_lock : Z; y_add : Z; y_update : Z }.

Record dts := Dts {
  tree : dtree; live : gset Z; nextb : Z; fails : list bool;
  pcie_syms : syms; pcie_node : option Z }.

Abbreviation D := (M dts).

Definition set_tree (s : dts) t : dts :=
  Dts t (live s) (nextb s) (fails s) (pcie_syms s) (pcie_node s).
Definition set_heap (s : dts) l n f : dts :=
  Dts (tree s) l n f (pcie_syms s) (pcie_node s).
Definition set_syms (s : dts) y : dts :=
  Dts (tree s) (live s) (nextb s) (fails s) y (pcie_node s).
Definition set_pcie_node (s : dts) n : dts :=
  Dts (tree s) (live s) (nextb s) (fails s) (pcie_syms s) n.

Definition set_nodes (t : dtree) ns : dtree := Dtree ns (dt_refs t).

(** [kzalloc], [kstrdup], [kmemdup], [kasprintf], [kcalloc]: a fresh block. *)
Definition kalloc : D (option Z) := λ s,
  match fails s with
  | true :: f => Some (None, set_heap s (live s) (nextb s) f)
  | _ => Some (Some (nextb s), set_heap s ({[ nextb s ]} ∪ live s) (nextb s + 1) (tail (fails s)))
  end.

(** Freeing a block that is not live is undefined. *)
Definition kfree (b : Z) : D unit := λ s,
  if decide (b ∈ live s) then Some (tt, set_heap s (live s ∖ {[ b ]}) (nextb s) (fails s)) else None.

(** A field access through a pointer. *)
Definition deref (n : Z) : D device_node := λ s,
  match dt_nodes (tree s) !! n with Some d => Some (d, s) | None => None end.

Definition store_node (n : Z) (d : device_node) : D unit :=
  modify (λ s, set_tree s (set_nodes (tree s) (<[n := d]> (dt_nodes (tree s))))).

(** A kernel call on the tree. *)
Definition of_call {A} (f : dtree → A * dtree) : D A := λ s,
  let '(a, t) := f (tree s) in Some (a, set_tree s t).

(** ** Lemmas *)
Lemma wp_of_call {A} (f : dtree → A * dtree) Q s :
  Q (f (tree s)).1 (set_tree s (f (tree s)).2) → wp (of_call f) Q s.
Proof. unfold wp, of_call. by destruct (f (tree s)). Qed.

Lemma wp_deref n d Q s : dt_nodes (tree s) !! n = Some d → Q d s → wp (deref n) Q s.
Proof. unfold wp, deref. by intros ->. Qed.

Lemma wp_store_node n d Q s :
  Q tt (set_tree s (set_nodes (tree s) (<[n := d]> (dt_nodes (tree s))))) → wp (store_node n d) Q s.
Proof. done. Qed.

(** A fresh address is larger than every live one. *)
Definition heap_ok (s : dts) : Prop := ∀ b, b ∈ live s → b < nextb s.

(** Everything but the heap is as before. *)
Definition only_heap (s s' : dts) : Prop :=
  tree s' = tree s ∧ pcie_syms s' = pcie_syms s ∧ pcie_node s' = pcie_node s.

Lemma wp_kalloc Q s : heap_ok s →
  (∀ s', only_heap s s' → heap_ok s' → live s' = live s → nextb s' = nextb s → fails s ≠ [] → Q None s') →
  (∀ b s', only_heap s s' → heap_ok s' → b = nextb s → nextb s' = nextb s + 1 → b ∉ live s →
     live s' = {[ b ]} ∪ live s → fails s' = tail (fails s) → Q (Some b) s') →
  wp kalloc Q s.
Proof.
  intros Hh Hn Hs. unfold wp, kalloc.
  assert (heap_ok (set_heap s ({[ nextb s ]} ∪ live s) (nextb s + 1) (tail (fails s)))) as Hok.
  { intros b. simpl. rewrite elem_of_union, elem_of_singleton. intros [->|Hb%Hh]; lia. }
  assert (nextb s ∉ live s) as Hf by (intros Hb%Hh; lia).
  destruct (fails s) as [|[] f] eqn:E; [|apply Hn|]; try done; by apply Hs.
Qed.

Lemma wp_kfree b Q s : b ∈ live s →
  (∀ s', only_heap s s' → live s' = live s ∖ {[ b ]} → nextb s' = nextb s → fails s' = fails s → Q tt s') →
  wp (kfree b) Q s.
Proof. intros Hb HQ. unfold wp, kfree. rewrite decide_True by done. by apply HQ. Qed.

Lemma only_heap_refl s : only_heap s s.
Proof. done. Qed.
Lemma only_heap_trans s1 s2 s3 : only_heap s1 s2 → only_heap s2 s3 → only_heap s1 s3.
Proof. intros (? & ? & ?) (? & ? & ?). repeat split; congruence. Qed.
#[export] Hint Resolve only_heap_refl only_heap_trans : stack.

(** ** Child lists *)
(** [chain ns o l]: following siblings from [o] visits [l] and ends. *)
Inductive chain (ns : gmap Z device_node) : option Z → list Z → Prop :=
  | chain_nil : chain ns None []
  | chain_cons n d l : ns !! n = Some d → chain ns (d_sibling d) l → chain ns (Some n) (n :: l).

Definition children (ns : gmap Z device_node) (n : Z) (l : list Z) : Prop :=
  ∃ d, ns !! n = Some d ∧ chain ns (d_child d) l.

Lemma chain_fun ns o l l' : chain ns o l → chain ns o l' → l = l'.
Proof.
  intros H. revert l'. induction H as [|n d l E _ IH]; intros l' H'; inversion H'; subst; [done|].
  simplify_eq. f_equal. by apply IH.
Qed.

Lemma chain_in ns o l n : chain ns o l → n ∈ l → is_Some (ns !! n).
Proof.
  induction 1 as [|m d l E _ IH]; [by intros ?%not_elem_of_nil|].
  intros [->|?]%elem_of_cons; eauto.
Qed.

(** Reachable from the head of a suffix. *)
Lemma chain_split ns l1 n l2 o : chain ns o (l1 ++ n :: l2) → chain ns (Some n) (n :: l2).
Proof.
  revert o. induction l1 as [|x l1 IH]; intros o Hc; inversion Hc; subst.
  - simpl in *. by econstructor.
  - eauto.
Qed.

(** A chain that ends visits no node twice. *)
Lemma chain_NoDup ns o l : chain ns o l → NoDup l.
Proof.
  induction 1 as [|n d l E Hc IH]; constructor; [|done]. intros Hn.
  apply list_elem_of_split in Hn as (l1 & l2 & ->).
  pose proof (chain_split _ _ _ _ _ Hc) as H2.
  assert (chain ns (Some n) (n :: l1 ++ n :: l2)) as H1 by by econstructor.
  pose proof (chain_fun _ _ _ _ H1 H2) as Heq. apply (f_equal length) in Heq.
  simpl in Heq. rewrite length_app in Heq. simpl in Heq. lia.
Qed.

Lemma chain_length ns o l : chain ns o l → (length l ≤ size ns)%nat.
Proof.
  intros Hc. pose proof (chain_NoDup _ _ _ Hc) as Hnd.
  rewrite <- (size_dom (D := gset Z)). rewrite <- (size_list_to_set (C := gset Z) l) by done.
  apply subseteq_size. intros n. rewrite elem_of_list_to_set. intros Hn.
  apply elem_of_dom. by eapply chain_in.
Qed.

(** Chains do not see properties. *)
Lemma chain_ext ns ns' o l : chain ns o l →
  (∀ n d, n ∈ l → ns !! n = Some d → ∃ d', ns' !! n = Some d' ∧ d_sibling d' = d_sibling d) →
  chain ns' o l.
Proof.
  induction 1 as [|n d l E Hc IH]; intros Hx; [constructor|].
  destruct (Hx n d ltac:(left) E) as (d' & E' & Hs). econstructor; [done|]. rewrite Hs.
  apply IH. intros m e Hm. apply Hx. by right.
Qed.
