(* ===== verification/Enabler.v ===== *)
(** * The PCIe enabler: device tree injection

    [pcie_enabler_non_es_v1.c], the half that builds the RTL8125 nodes at run
    time: properties and nodes from allocated pieces with every error path,
    symbol resolution, and the attach sequence. *)
From stdpp Require Import base tactics list gmap strings numbers sets.
From Stdlib Require Import ZArith Lia.
From S2P Require Import Prelude DeviceTree.

Definition PCIE_RC_PATH : string := "/soc/qcom,pcie@1c00000".
Definition SOC_PATH : string := "/soc".
Definition IOSS_ROOT_PATH : string := "/soc/qcom,ioss".
Definition IPA_ETH_GROUP1_PATH : string := "/soc/ipa_eth_group1".
Definition PCIE_COMPAT_1 : string := "qcom,pci-msm".
Definition PCIE_COMPAT_2 : string := "qcom,pcie-sdx65".
Definition PCIE_COMPAT_3 : string := "qcom,pcie-sdx62".
Definition PCIE_COMPAT_4 : string := "snps,dw-pcie".
Definition RTL8125_PHANDLE_RX : Z := 0x8125.
Definition RTL8125_PHANDLE_TX : Z := 0x8126.

(** [cpu_to_be32] as bytes. *)
Definition be32 (v : Z) : list Z :=
  [u8 (Z.shiftr v 24); u8 (Z.shiftr v 16); u8 (Z.shiftr v 8); u8 v].

(** A C string with its NUL. *)
Definition cstr (s : string) : list Z := chars s ++ [0].

Section enabler.
Context `{OfApi}.

(** ** Properties *)
Definition pcie_alloc_property (name : string) (value : list Z) : D (option property) :=
  let length := Z.of_nat (length value) in
  let* prop := kalloc in
  match prop with
  | None => ret None
  | Some prop =>
      let* nm := kalloc in
      match nm with
      | None => kfree prop ;; ret None
      | Some nm =>
          if 0 <? length then
            let* val := kalloc in
            match val with
            | None => kfree nm ;; kfree prop ;; ret None
            | Some val => ret (Some (Property name length value prop nm (Some val)))
            end
          else ret (Some (Property name length value prop nm None))
      end
  end.

Definition pcie_alloc_bool_property (name : string) : D (option property) :=
  pcie_alloc_property name [].

Definition pcie_alloc_string_property (name value : string) : D (option property) :=
  pcie_alloc_property name (cstr value).

Definition pcie_alloc_u32_property (name : string) (value : Z) : D (option property) :=
  pcie_alloc_property name (be32 value).

(** The array is built in a temporary block, freed whatever happens. *)
Definition pcie_alloc_u32_array_property (name : string) (values : list Z) : D (option property) :=
  let* be_values := kalloc in
  match be_values with
  | None => ret None
  | Some b =>
      let* prop := pcie_alloc_property name (concat (be32 <$> values)) in
      kfree b ;; ret prop
  end.

Definition pcie_alloc_string_list_property (name : string) (values : list string)
    : D (option property) :=
  let* buf := kalloc in
  match buf with
  | None => ret None
  | Some b =>
      let* prop := pcie_alloc_property name (concat (cstr <$> values)) in
      kfree b ;; ret prop
  end.

Definition pcie_set_property (node : Z) (prop : option property) : D Z :=
  match prop with
  | None => ret (- ENOMEM)
  | Some prop =>
      let* y := gets pcie_syms in
      if (y_add y =? 0) || (y_update y =? 0) then ret (- ENOENT)
      else
        let* t := gets tree in
        if of_find_property t node (p_name prop)
        then of_call (λ t, of_update_property t node prop)
        else of_call (λ t, of_add_property t node prop)
  end.

(** ** Symbols: [addr] is the module parameter, [lookup] what the kernel's
    [kallsyms_lookup_name] at that address answers. *)
Definition pcie_resolve_symbols (addr : Z) (lookup : string → Z) : D Z :=
  if addr =? 0 then ret (- EINVAL)
  else
    let y := Syms addr (lookup "of_mutex"%string) (lookup "devtree_lock"%string)
      (lookup "of_add_property"%string) (lookup "of_update_property"%string) in
    modify (λ s, set_syms s y) ;;
    if (y_of_mutex y =? 0) || (y_devtree_lock y =? 0) || (y_add y =? 0) || (y_update y =? 0)
    then ret (- ENOENT) else ret 0.

(** ** Nodes *)
Definition pcie_alloc_node (parent : Z) (name unit_name : string) (phandle : Z) : D (option Z) :=
  let* node := kalloc in
  match node with
  | None => ret None
  | Some node =>
      let* nm := kalloc in
      match nm with
      | None => kfree node ;; ret None
      | Some nm =>
          let* p := deref parent in
          let* full := kalloc in
          match full with
          | None => kfree nm ;; kfree node ;; ret None
          | Some _ =>
              store_node node (DeviceNode name (d_full_name p +:+ "/" +:+ unit_name) phandle
                (Some parent) None None true true []) ;;
              ret (Some node)
          end
      end
  end.

Definition pcie_attach_node (node : option Z) : D Z :=
  match node with
  | None => ret (- EINVAL)
  | Some node =>
      let* d := deref node in
      match d_parent d with
      | None => ret (- EINVAL)
      | Some parent =>
          (* under of_mutex and devtree_lock *)
          store_node node (set_child d None) ;;
          let* p := deref parent in
          let* d := deref node in
          store_node node (set_sibling d (d_child p)) ;;
          let* p := deref parent in
          store_node parent (set_child p (Some node)) ;;
          let* d := deref node in
          store_node node (set_detached d false) ;;
          ret 0
      end
  end.

(** [for_each_child_of_node]: a child that is returned keeps its reference. *)
Fixpoint find_child_loop (fuel : nat) (parent : Z) (child : option Z) (name : string)
    : D (option Z) :=
  match fuel with
  | O => ub
  | S f =>
      match child with
      | None => ret None
      | Some c =>
          let* d := deref c in
          if String.eqb (d_name d) name then ret (Some c)
          else
            let* next := of_call (λ t, of_get_next_child t parent (Some c)) in
            find_child_loop f parent next name
      end
  end.

Definition pcie_find_child_by_name (parent : Z) (name : string) : D (option Z) :=
  let* t := gets tree in
  let* child := of_call (λ t, of_get_next_child t parent None) in
  find_child_loop (S (S (size (dt_nodes t)))) parent child name.

(** ** The attach sequence *)
(** [ret = pcie_set_property(node, alloc); if (ret) goto out;], call after call. *)
Fixpoint set_all (l : list (Z * D (option property))) : D Z :=
  match l with
  | [] => ret 0
  | (node, alloc) :: l' =>
      let* prop := alloc in
      let* r := pcie_set_property node prop in
      if r =? 0 then set_all l' else ret r
  end.

(** [ret = pcie_attach_node(node); if (ret) goto out;], node after node. *)
Fixpoint attach_all (l : list (option Z)) : D Z :=
  match l with
  | [] => ret 0
  | node :: l' =>
      let* r := pcie_attach_node node in
      if r =? 0 then attach_all l' else ret r
  end.

Definition pci_ids : list string := ["10ec:8125"; "10ec:3000"]%string.

Definition rx_props (rx : Z) : list (Z * D (option property)) :=
  [(rx, pcie_alloc_u32_property "phandle" RTL8125_PHANDLE_RX);
   (rx, pcie_alloc_u32_property "linux,phandle" RTL8125_PHANDLE_RX);
   (rx, pcie_alloc_string_property "name" "r8125_rx");
   (rx, pcie_alloc_bool_property "qcom,dir-rx");
   (rx, pcie_alloc_bool_property "qcom,rx-filter-ip");
   (rx, pcie_alloc_u32_property "qcom,ring-size" 1024);
   (rx, pcie_alloc_u32_property "qcom,buff-size" 2048);
   (rx, pcie_alloc_u32_property "qcom,mod-count-min" 32);
   (rx, pcie_alloc_u32_property "qcom,mod-count-max" 64);
   (rx, pcie_alloc_u32_property "qcom,mod-usecs-min" 30);
   (rx, pcie_alloc_u32_property "qcom,mod-usecs-max" 60)].

Definition tx_props (tx : Z) : list (Z * D (option property)) :=
  [(tx, pcie_alloc_u32_property "phandle" RTL8125_PHANDLE_TX);
   (tx, pcie_alloc_u32_property "linux,phandle" RTL8125_PHANDLE_TX);
   (tx, pcie_alloc_string_property "name" "r8125_tx");
   (tx, pcie_alloc_bool_property "qcom,dir-tx");
   (tx, pcie_alloc_u32_property "qcom,ring-size" 1024);
   (tx, pcie_alloc_u32_property "qcom,buff-size" 2048);
   (tx, pcie_alloc_u32_property "qcom,mod-count-min" 32);
   (tx, pcie_alloc_u32_property "qcom,mod-count-max" 64);
   (tx, pcie_alloc_u32_property "qcom,mod-usecs-min" 30);
   (tx, pcie_alloc_u32_property "qcom,mod-usecs-max" 60)].

Definition rtl8125_props (dev ioss_phandle group_phandle : Z) : list (Z * D (option property)) :=
  [(dev, pcie_alloc_string_property "compatible" "qcom,ioss-v2-device");
   (dev, pcie_alloc_string_property "name" "realtek,rtl8125");
   (dev, pcie_alloc_u32_array_property "reg" [0; 0; 0; 0; 0]);
   (dev, pcie_alloc_string_list_property "pci-ids" pci_ids);
   (dev, pcie_alloc_u32_property "qcom,ioss_instance" 0);
   (dev, pcie_alloc_u32_property "qcom,ioss" ioss_phandle);
   (dev, pcie_alloc_u32_property "qcom,iommu-group" group_phandle);
   (dev, pcie_alloc_u32_array_property "qcom,ioss_channels" [RTL8125_PHANDLE_RX; RTL8125_PHANDLE_TX])].

(** Building, filling and attaching the three nodes. *)
Definition inject (pcie soc ioss group rp : Z) : D Z :=
  let* r := set_all [(pcie, pcie_alloc_string_property "status" "okay")] in
  if negb (r =? 0) then ret r
  else
    let* rx := pcie_alloc_node soc "r8125_rx" "r8125_rx@eth0" RTL8125_PHANDLE_RX in
    let* tx := pcie_alloc_node soc "r8125_tx" "r8125_tx@eth0" RTL8125_PHANDLE_TX in
    let* dev := pcie_alloc_node rp "realtek,rtl8125" "realtek,rtl8125@0,0" 0 in
    match rx, tx, dev with
    | Some rx, Some tx, Some dev =>
        let* i := deref ioss in
        let* g := deref group in
        let* r := set_all (rx_props rx ++ tx_props tx
                           ++ rtl8125_props dev (d_phandle i) (d_phandle g)) in
        if negb (r =? 0) then ret r
        else attach_all [Some rx; Some tx; Some dev]
    | _, _, _ => ret (- ENOMEM)
    end.

(** Behind the dependency test: the nodes are there already, or are injected. *)
Definition attach_body (pcie soc ioss group rp : Z) : D Z :=
  let* a := pcie_find_child_by_name soc "r8125_rx" in
  let* b := (match a with Some _ => pcie_find_child_by_name soc "r8125_tx" | None => ret None end) in
  let* c := (match b with Some _ => pcie_find_child_by_name rp "realtek,rtl8125" | None => ret None end) in
  match c with
  | Some _ => ret 0
  | None => inject pcie soc ioss group rp
  end.

Definition put (n : option Z) : D unit := of_call (λ t, (tt, of_node_put t n)).

Definition pcie_attach_runtime_nodes : D Z :=
  let* pn := gets pcie_node in
  match pn with
  | None => ub (* for_each_child_of_node on the static node *)
  | Some pcie =>
      let* soc := of_call (λ t, of_find_node_by_path t SOC_PATH) in
      let* ioss := of_call (λ t, of_find_node_by_path t IOSS_ROOT_PATH) in
      let* group := of_call (λ t, of_find_node_by_path t IPA_ETH_GROUP1_PATH) in
      let* rp := pcie_find_child_by_name pcie "pcie0_rp" in
      let* r := (match soc, ioss, group, rp with
                 | Some soc, Some ioss, Some group, Some rp => attach_body pcie soc ioss group rp
                 | _, _, _, _ => ret (- ENODEV)
                 end) in
      put rp ;; put group ;; put ioss ;; put soc ;;
      ret r
  end.
End enabler.
