(* ===== verification/EnablerSpec.v ===== *)
(** * The PCIe enabler: what the injection does

    Allocation with every error path, the property setters against the
    interface [OfOk], and child lookup; the attach sequence is in
    [EnablerAttach]. *)
From stdpp Require Import base tactics list gmap strings numbers sets.
From Stdlib Require Import ZArith Lia.
From S2P Require Import Prelude DeviceTree Enabler.

(** ** Allocation *)
Definition blocks (p : property) : gset Z :=
  {[ p_blk p; p_name_blk p ]} ∪ match p_value_blk p with Some b => {[ b ]} | None => ∅ end.

(** The outcome of building the property [name] = [v]: nothing and the heap as
    before, or the property, which owns its new blocks. *)
Definition built (name : string) (v : list Z) (s : dts) (o : option property) (s' : dts) : Prop :=
  only_heap s s' ∧ heap_ok s' ∧ nextb s ≤ nextb s' ∧ (fails s = [] → fails s' = []) ∧
  match o with
  | None => live s' = live s ∧ fails s ≠ []
  | Some p => p_name p = name ∧ p_value p = v ∧ p_length p = Z.of_nat (length v) ∧
      live s' = blocks p ∪ live s ∧ (∀ b, b ∈ blocks p → nextb s ≤ b)
  end.

Definition builds_prop (m : D (option property)) (name : string) (v : list Z) : Prop :=
  ∀ s, heap_ok s → wp m (built name v s) s.

Lemma heap_ok_free s s' b : heap_ok s → live s' = live s ∖ {[ b ]} → nextb s' = nextb s → heap_ok s'.
Proof. intros Hh E En x. rewrite E, En. intros [Hx _]%elem_of_difference. by apply Hh. Qed.

Lemma tail_nonempty {A} (l : list A) : tail l ≠ [] → l ≠ [].
Proof. by destruct l. Qed.

Section spec.
Context `{OfApi}.

(** One allocation of an error path: fails, or goes on with a fresh block. *)
Ltac alloc Hh := apply wp_bind; apply wp_kalloc; [exact Hh| |].

Lemma alloc_property_built name v : builds_prop (pcie_alloc_property name v) name v.
Proof.
  intros s Hh. unfold pcie_alloc_property. cbv zeta. alloc Hh.
  { intros s1 O1 H1 L1 N1 F1. apply wp_ret. unfold built.
    split_and!; [done|done|lia|intros E; by rewrite E in F1|done|done]. }
  intros b1 s1 O1 H1 E1 N1 I1 L1 F1. alloc H1.
  { intros s2 O2 H2 L2 N2 F2. apply wp_bind. apply wp_kfree; [rewrite L2, L1; set_solver|].
    intros s3 O3 L3 N3 F3. apply wp_ret. unfold built. split_and!; eauto with stack.
    - by eapply heap_ok_free.
    - lia.
    - intros E. rewrite F1, E in F2. done.
    - rewrite L3, L2, L1. set_solver.
    - apply tail_nonempty. by rewrite <- F1. }
  intros b2 s2 O2 H2 E2 N2 I2 L2 F2. destruct (Z.ltb_spec 0 (Z.of_nat (length v))).
  2:{ apply wp_ret. unfold built. split_and!; eauto with stack; [lia| | | ].
      - intros E. by rewrite F2, F1, E.
      - simpl. rewrite L2, L1. unfold blocks. simpl. set_solver.
      - intros b. unfold blocks. simpl. set_unfold. lia. }
  alloc H2.
  { intros s3 O3 H3 L3 N3 F3. apply wp_bind. apply wp_kfree; [rewrite L3, L2; set_solver|].
    intros s4 O4 L4 N4 F4. apply wp_bind. apply wp_kfree.
    { rewrite L4, L3, L2, L1. apply elem_of_difference. split; [set_solver|].
      rewrite elem_of_singleton. lia. }
    intros s5 O5 L5 N5 F5. apply wp_ret. unfold built. split_and!; eauto 6 with stack.
    - eapply heap_ok_free; [|done|done]. by eapply heap_ok_free.
    - lia.
    - intros E. rewrite F2, F1, E in F3. done.
    - rewrite L5, L4, L3, L2, L1. set_solver.
    - apply tail_nonempty. rewrite <- F1. apply tail_nonempty. by rewrite <- F2. }
  intros b3 s3 O3 H3 E3 N3 I3 L3 F3. apply wp_ret. unfold built.
  split_and!; eauto 6 with stack; [lia| | |].
  - intros E. by rewrite F3, F2, F1, E.
  - rewrite L3, L2, L1. unfold blocks. simpl. set_solver.
  - intros b. unfold blocks. simpl. set_unfold. lia.
Qed.

(** A builder that goes through a temporary block. *)
Lemma temp_built (m : D (option property)) name v : builds_prop m name v →
  builds_prop (let* b := kalloc in
               match b with
               | None => ret None
               | Some b => let* prop := m in kfree b ;; ret prop
               end) name v.
Proof.
  intros Hm s Hh. alloc Hh.
  { intros s1 O1 H1 L1 N1 F1. apply wp_ret. unfold built.
    split_and!; [done|done|lia|intros E; by rewrite E in F1|done|done]. }
  intros b1 s1 O1 H1 E1 N1 I1 L1 F1. apply wp_bind. eapply wp_mono; [by apply Hm|].
  intros o s2 (O2 & H2 & N2 & F2 & P2). apply wp_bind.
  assert (b1 ∈ live s2) as Hb by (destruct o; [destruct P2 as (_ & _ & _ & -> & _)|destruct P2 as [-> _]];
    rewrite L1; set_solver).
  apply wp_kfree; [done|]. intros s3 O3 L3 N3 F3. apply wp_ret. unfold built.
  split_and!; eauto with stack.
  - by eapply heap_ok_free.
  - lia.
  - intros E. rewrite F3. apply F2. by rewrite F1, E.
  - destruct o as [p|].
    + destruct P2 as (? & ? & ? & El & Hbl). split_and!; [done..| |intros b Hb'; specialize (Hbl b Hb'); lia].
      rewrite L3, El, L1. assert (b1 ∉ blocks p) by (intros Hx%Hbl; lia). set_solver.
    + destruct P2 as [El Hf]. split; [rewrite L3, El, L1; set_solver|].
      apply tail_nonempty. by rewrite <- F1.
Qed.

Lemma bool_built name : builds_prop (pcie_alloc_bool_property name) name [].
Proof. apply alloc_property_built. Qed.
Lemma string_built name v : builds_prop (pcie_alloc_string_property name v) name (cstr v).
Proof. apply alloc_property_built. Qed.
Lemma u32_built name v : builds_prop (pcie_alloc_u32_property name v) name (be32 v).
Proof. apply alloc_property_built. Qed.
Lemma u32_array_built name vs :
  builds_prop (pcie_alloc_u32_array_property name vs) name (concat (be32 <$> vs)).
Proof. apply temp_built, alloc_property_built. Qed.
Lemma string_list_built name vs :
  builds_prop (pcie_alloc_string_list_property name vs) name (concat (cstr <$> vs)).
Proof. apply temp_built, alloc_property_built. Qed.

(** ** Property values *)
Definition vals (ps : list property) : list (string * list Z) := (λ p, (p_name p, p_value p)) <$> ps.

Fixpoint upd_val (name : string) (v : list Z) (ws : list (string * list Z)) : list (string * list Z) :=
  match ws with
  | [] => [(name, v)]
  | (n, w) :: ws' => if decide (n = name) then (name, v) :: ws' else (n, w) :: upd_val name v ws'
  end.

Lemma vals_upd p ps : vals (upd_props p ps) = upd_val (p_name p) (p_value p) (vals ps).
Proof.
  induction ps as [|q ps IH]; [done|]. simpl. case_decide; simpl; [done|]. f_equal. apply IH.
Qed.

(** The settings a run of [set_all] makes: node, name, value. *)
Abbreviation setting := (Z * string * list Z)%type.

Fixpoint apply_settings (n : Z) (l : list setting) (ws : list (string * list Z)) :=
  match l with
  | [] => ws
  | (n', name, v) :: l' => apply_settings n l' (if decide (n' = n) then upd_val name v ws else ws)
  end.

(** Two trees that differ only in the properties of the nodes in [T]. *)
Definition same_links (T : list Z) (ns ns' : gmap Z device_node) : Prop :=
  ∀ n, match ns !! n, ns' !! n with
       | None, None => True
       | Some d, Some d' => ∃ ps, d' = set_props d ps ∧ (n ∉ T → ps = d_props d)
       | _, _ => False
       end.

Lemma set_props_same d : set_props d (d_props d) = d.
Proof. by destruct d. Qed.

Lemma same_links_refl T ns : same_links T ns ns.
Proof. intros n. destruct (ns !! n) as [d|]; [|done]. exists (d_props d). by rewrite set_props_same. Qed.

Lemma same_links_trans T ns1 ns2 ns3 : same_links T ns1 ns2 → same_links T ns2 ns3 → same_links T ns1 ns3.
Proof.
  intros H1 H2 n. specialize (H1 n). specialize (H2 n).
  destruct (ns1 !! n) as [d|], (ns2 !! n) as [d2|], (ns3 !! n) as [d3|]; try done.
  destruct H1 as (ps & -> & Hp), H2 as (ps2 & -> & Hp2). exists ps2. split; [done|].
  intros Hn. rewrite Hp2 by done. simpl. by apply Hp.
Qed.

Lemma same_links_weaken T T' ns ns' : (∀ n, n ∈ T → n ∈ T') → same_links T ns ns' → same_links T' ns ns'.
Proof.
  intros HT Hs n. specialize (Hs n). destruct (ns !! n), (ns' !! n); try done.
  destruct Hs as (ps & ? & Hp). exists ps. split; [done|]. intros Hn. apply Hp. auto.
Qed.

Lemma same_links_insert T ns n d ps : n ∈ T → ns !! n = Some d → same_links T ns (<[n := set_props d ps]> ns).
Proof.
  intros HT E m. destruct (decide (m = n)) as [->|Hne].
  - rewrite E, lookup_insert_eq. exists ps. done.
  - rewrite lookup_insert_ne by done. apply same_links_refl.
Qed.

Lemma same_links_some T ns ns' n : same_links T ns ns' → is_Some (ns !! n) → is_Some (ns' !! n).
Proof. intros Hs [d E]. specialize (Hs n). rewrite E in Hs. destruct (ns' !! n); [eauto|done]. Qed.

Lemma same_links_size T ns ns' : same_links T ns ns' → size ns = size ns'.
Proof.
  intros Hs. rewrite <- !(size_dom (D := gset Z)). f_equal. apply set_eq. intros n.
  rewrite !elem_of_dom. specialize (Hs n). unfold is_Some.
  destruct (ns !! n), (ns' !! n); try done; split; intros [? ?]; eauto; done.
Qed.

(** ** Setting a property *)
Definition syms_ok (s : dts) : Prop := y_add (pcie_syms s) ≠ 0 ∧ y_update (pcie_syms s) ≠ 0.

(** The property functions of the kernel report no error. *)
Definition api_total : Prop := ∀ t n p d, dt_nodes t !! n = Some d →
  ((of_add_property t n p).1 = 0 ∨ p_name p ∈ prop_names (d_props d)) ∧ (of_update_property t n p).1 = 0.

Lemma set_property_wp `{!OfOk} n p d s : syms_ok s → dt_nodes (tree s) !! n = Some d →
  wp (pcie_set_property n (Some p))
     (λ r s', ∃ t', s' = set_tree s t' ∧ dt_refs t' = dt_refs (tree s) ∧ (api_total → r = 0) ∧
        ((r = 0 ∧ dt_nodes t' = <[n := set_props d (upd_props p (d_props d))]> (dt_nodes (tree s))) ∨
         (r < 0 ∧ dt_nodes t' = dt_nodes (tree s)))) s.
Proof.
  intros [Ya Yu] E. unfold pcie_set_property. wp_steps.
  destruct (Z.eqb_spec (y_add (pcie_syms s)) 0); [done|].
  destruct (Z.eqb_spec (y_update (pcie_syms s)) 0); [done|]. cbn [orb]. wp_steps.
  rewrite (ok_find_property _ _ _ _ E).
  assert (∀ r : Z * dtree, changed_prop (tree s) n p r → (api_total → r.1 = 0) →
    ∃ t', set_tree s r.2 = set_tree s t' ∧ dt_refs t' = dt_refs (tree s) ∧ (api_total → r.1 = 0) ∧
        ((r.1 = 0 ∧ dt_nodes t' = <[n := set_props d (upd_props p (d_props d))]> (dt_nodes (tree s))) ∨
         (r.1 < 0 ∧ dt_nodes t' = dt_nodes (tree s)))) as Hfin.
  { intros r [Hr Hc] Ht. exists r.2. split_and!; [done|done|done|].
    destruct Hc as [(? & d' & E' & ?)|[? ?]]; [|by right]. left. simplify_eq. done. }
  case_bool_decide as Hin; apply wp_of_call, Hfin.
  - by eapply ok_update_property.
  - intros Ht. by apply (Ht _ _ _ _ E).
  - by eapply ok_add_property.
  - intros Ht. by destruct (Ht _ _ p _ E) as [[?|?] _].
Qed.

(** A step of the injection that touches only properties of [T] and the heap. *)
Record steps_props (T : list Z) (s : dts) (r : Z) (s' : dts) : Prop := StepsProps {
  sp_links : same_links T (dt_nodes (tree s)) (dt_nodes (tree s'));
  sp_refs : dt_refs (tree s') = dt_refs (tree s);
  sp_syms : pcie_syms s' = pcie_syms s;
  sp_pcie : pcie_node s' = pcie_node s;
  sp_heap : heap_ok s';
  sp_next : nextb s ≤ nextb s';
  sp_ret : r ≤ 0;
  sp_lucky : api_total → fails s = [] → r = 0 ∧ fails s' = [] }.

Definition code_setting (c : Z * D (option property)) (l : setting) : Prop :=
  c.1 = l.1.1 ∧ builds_prop c.2 l.1.2 l.2.

Lemma set_all_wp `{!OfOk} T cl l s : heap_ok s → syms_ok s → Forall2 code_setting cl l →
  Forall (λ x, x.1.1 ∈ T ∧ is_Some (dt_nodes (tree s) !! x.1.1)) l →
  wp (set_all cl)
     (λ r s', steps_props T s r s' ∧
        (r = 0 → ∀ n d, dt_nodes (tree s) !! n = Some d → ∃ d', dt_nodes (tree s') !! n = Some d' ∧
           vals (d_props d') = apply_settings n l (vals (d_props d)))) s.
Proof.
  intros Hh Hy Hcl. revert s Hh Hy. induction Hcl as [|[n m] [[n' name] v] cl l [Hn Hm] _ IH];
    intros s Hh Hy Hl; simpl in *.
  { apply wp_ret. split; [split; eauto using same_links_refl; lia|]. intros _ n d E. by exists d. }
  subst n'. apply list.Forall_cons in Hl as [[HT [d E]] Hl]. simpl in HT, E.
  apply wp_bind. eapply wp_mono; [by apply Hm|]. intros o s1 ((Et & Ey & Ep) & H1 & N1 & F1 & P1).
  apply wp_bind. destruct o as [p|].
  2:{ apply wp_ret. wp_steps. split; [|done]. destruct P1 as [_ Hf].
      split; try rewrite Et; auto using same_links_refl; [done|]. intros _ Hf'. done. }
  destruct P1 as (Pn & Pv & _ & _ & _). rewrite <- Et in E.
  assert (syms_ok s1) as Hy1 by (unfold syms_ok; by rewrite Ey).
  eapply wp_mono; [by apply set_property_wp|].
  intros r s2 (t' & -> & Rr & Rt & Rc).
  assert (same_links T (dt_nodes (tree s)) (dt_nodes t')) as Hsl.
  { rewrite <- Et. destruct Rc as [[_ ->]|[_ ->]]; [by apply same_links_insert|apply same_links_refl]. }
  destruct (Z.eqb_spec r 0) as [->|Hr].
  - destruct Rc as [[_ Hns]|[? _]]; [|lia].
    eapply wp_mono; [apply IH|].
    + exact H1.
    + exact Hy1.
    + eapply Forall_impl; [exact Hl|]. simpl. intros x [HxT Hx]. split; [done|]. by eapply same_links_some.
    + intros r s3 [[? ? ? ? ? ? ? Hlu] Hv]. split.
      * split; simpl in *; try congruence; [by eapply same_links_trans|done|lia|].
        intros Ha Hf. apply Hlu; auto.
      * intros Hr x dx Ex. rewrite <- Et in Ex.
        destruct (decide (n = x)) as [->|Hne].
        -- assert (dx = d) as -> by congruence. destruct (Hv Hr x (set_props d (upd_props p (d_props d)))) as (d' & ? & Hd').
           { simpl. by rewrite Hns, lookup_insert_eq. }
           exists d'. split; [done|]. rewrite Hd'. simpl. by rewrite vals_upd, Pn, Pv.
        -- apply (Hv Hr). simpl. by rewrite Hns, lookup_insert_ne.
  - apply wp_ret. destruct Rc as [[-> _]|[Hneg _]]; [done|]. split; [|done].
    split; simpl; try congruence; auto.
Qed.

(** ** Child lookup *)
Fixpoint first_named (ns : gmap Z device_node) (name : string) (l : list Z) : option Z :=
  match l with
  | [] => None
  | n :: l' => match ns !! n with
               | Some d => if String.eqb (d_name d) name then Some n else first_named ns name l'
               | None => None
               end
  end.

(** Only reference counts move, each by [f]. *)
Definition refs_by (s : dts) (f : Z → Z) (s' : dts) : Prop :=
  ∃ t', s' = set_tree s t' ∧ dt_nodes t' = dt_nodes (tree s) ∧
        ∀ x, dt_refs t' x = dt_refs (tree s) x + f x.

Lemma refs_by_trans s1 s2 s3 f g : refs_by s1 f s2 → refs_by s2 g s3 → refs_by s1 (λ x, f x + g x) s3.
Proof.
  intros (t2 & -> & N2 & R2) (t3 & -> & N3 & R3). exists t3. simpl in *.
  split_and!; [done|congruence|]. intros x. rewrite R3, R2. lia.
Qed.

Lemma refs_by_ext s s' f g : (∀ x, f x = g x) → refs_by s f s' → refs_by s g s'.
Proof. intros E (t & ? & ? & R). exists t. split_and!; [done..|]. intros x. by rewrite R, E. Qed.

Lemma wp_get (find : dtree → option Z * dtree) s : got (tree s) (find (tree s)) →
  wp (of_call find) (λ o s', o = (find (tree s)).1 ∧ refs_by s (one_if o) s' ∧
     ∀ n, o = Some n → is_Some (dt_nodes (tree s) !! n)) s.
Proof.
  intros (Hn & Hs & Hr). apply wp_of_call. split; [done|]. split; [|done].
  exists (find (tree s)).2. done.
Qed.

Lemma wp_put `{!OfOk} o Q s : (∀ s', refs_by s (λ x, - one_if o x) s' → Q tt s') → wp (put o) Q s.
Proof.
  intros HQ. unfold put. apply wp_of_call. apply HQ.
  destruct (ok_put (tree s) o) as [Hn Hr]. eexists. split_and!; [done|exact Hn|].
  intros x. simpl. rewrite Hr. lia.
Qed.

Lemma one_if_none x : one_if None x = 0.
Proof. done. Qed.

Lemma find_child_loop_wp `{!OfOk} fuel parent child name l dp s : (length l < fuel)%nat →
  dt_nodes (tree s) !! parent = Some dp → chain (dt_nodes (tree s)) child l →
  wp (find_child_loop fuel parent child name)
     (λ r s', r = first_named (dt_nodes (tree s)) name l ∧
              refs_by s (λ x, one_if r x - one_if child x) s') s.
Proof.
  intros Hf Ep Hc. revert fuel child s Hf Ep Hc.
  induction l as [|n l IH]; intros [|fuel] child s Hf Ep Hc; simpl in Hf; try lia; inversion Hc; subst; simpl.
  { apply wp_ret. split; [done|]. exists (tree s). destruct s. split_and!; [done..|].
    intros x. rewrite !one_if_none. simpl. lia. }
  rename select (dt_nodes (tree s) !! n = Some d) into En. apply wp_bind. eapply wp_deref; [done|].
  rewrite En. destruct (String.eqb (d_name d) name) eqn:E.
  { apply wp_ret. split; [done|]. exists (tree s). destruct s. split_and!; [done..|].
    intros x. simpl. lia. }
  apply wp_bind, wp_of_call.
  destruct (ok_next_child (tree s) parent dp (Some n) Ep) as (R1 & R2 & R3). simpl in R1. rewrite En in R1.
  rewrite R1. eapply wp_mono.
  { apply IH; simpl; [lia|by rewrite R2|by rewrite R2]. }
  simpl. rewrite R2. intros r s' (-> & Hr). split; [done|].
  eapply (refs_by_ext _ _ (λ x, (one_if (d_sibling d) x - one_if (Some n) x) +
    (one_if (first_named (dt_nodes (tree s)) name l) x - one_if (d_sibling d) x))); [intros x; lia|].
  eapply refs_by_trans; [|exact Hr]. eexists. split_and!; [done|done|].
  intros x. rewrite R3, R1. lia.
Qed.

(** The child of that name that comes first; it, and no other node, keeps one
    reference more. *)
Lemma find_child_wp `{!OfOk} parent name l s : children (dt_nodes (tree s)) parent l →
  wp (pcie_find_child_by_name parent name)
     (λ r s', r = first_named (dt_nodes (tree s)) name l ∧ refs_by s (one_if r) s') s.
Proof.
  intros (dp & Ep & Hc). unfold pcie_find_child_by_name. wp_steps. apply wp_of_call.
  destruct (ok_next_child (tree s) parent dp None Ep) as (R1 & R2 & R3). rewrite R1.
  eapply wp_mono.
  { eapply (find_child_loop_wp _ _ _ _ l dp); simpl; [|by rewrite R2|by rewrite R2].
    apply chain_length in Hc. lia. }
  simpl. rewrite R2. intros r s' (-> & Hr). split; [done|].
  eapply refs_by_ext; [|eapply (refs_by_trans s); [|exact Hr]].
  2:{ eexists. split_and!; [done|done|]. intros x. rewrite R3, R1. apply Z.sub_0_r. }
  intros x. simpl. lia.
Qed.
End spec.
