(* ===== verification/EnablerAttach.v ===== *)
(** * The PCIe enabler: the attach sequence

    Building nodes, linking them in, and the whole injection: all three nodes
    with exactly the properties of the source, or no node at all. *)
From stdpp Require Import base tactics list gmap strings numbers sets.
From Stdlib Require Import ZArith Lia.
From S2P Require Import Prelude DeviceTree Enabler EnablerSpec.

(** ** States *)
(** Fresh blocks are fresh for the tree too. *)
Definition dts_ok (s : dts) : Prop :=
  heap_ok s ∧ ∀ n, is_Some (dt_nodes (tree s) !! n) → n < nextb s.

(** The nodes of the first tree, with their links, are in the second one; only
    properties of the nodes in [T] have changed. *)
Definition grown (T : list Z) (ns ns' : gmap Z device_node) : Prop :=
  ∀ n d, ns !! n = Some d → ∃ ps, ns' !! n = Some (set_props d ps) ∧ (n ∉ T → ps = d_props d).

Lemma grown_refl T ns : grown T ns ns.
Proof. intros n d E. exists (d_props d). by rewrite set_props_same. Qed.

Lemma grown_trans T ns1 ns2 ns3 : grown T ns1 ns2 → grown T ns2 ns3 → grown T ns1 ns3.
Proof.
  intros H1 H2 n d E. destruct (H1 n d E) as (ps & E2 & Hp).
  destruct (H2 _ _ E2) as (ps' & E3 & Hp'). exists ps'. split; [done|]. intros Hn.
  rewrite Hp' by done. simpl. auto.
Qed.

Lemma same_links_grown T T' ns ns' : same_links T ns ns' →
  (∀ n, is_Some (ns !! n) → n ∈ T → n ∈ T') → grown T' ns ns'.
Proof.
  intros Hs HT n d E. specialize (Hs n). rewrite E in Hs. destruct (ns' !! n) as [d'|]; [|done].
  destruct Hs as (ps & -> & Hp). exists ps. split; [done|]. intros Hn. apply Hp. intros Hi.
  apply Hn, HT; eauto.
Qed.

Lemma grown_insert T ns n d : ns !! n = None → grown T ns (<[n := d]> ns).
Proof.
  intros E m e Em. exists (d_props e). rewrite set_props_same. split; [|done].
  rewrite lookup_insert_ne; [done|]. intros ->. congruence.
Qed.

Section attach.
Context `{OfOk}.

Definition new_node (parent : Z) (p : device_node) (name unit_name : string) (ph : Z) : device_node :=
  DeviceNode name (d_full_name p +:+ "/" +:+ unit_name) ph (Some parent) None None true true [].

(** A node is built in full or not at all; nothing else of the tree moves. *)
Lemma alloc_node_wp parent p name unit_name ph s : dts_ok s → dt_nodes (tree s) !! parent = Some p →
  wp (pcie_alloc_node parent name unit_name ph)
     (λ o s', dts_ok s' ∧ nextb s ≤ nextb s' ∧ dt_refs (tree s') = dt_refs (tree s) ∧
        pcie_syms s' = pcie_syms s ∧ pcie_node s' = pcie_node s ∧ (fails s = [] → fails s' = []) ∧
        match o with
        | None => dt_nodes (tree s') = dt_nodes (tree s) ∧ live s' = live s ∧ fails s ≠ []
        | Some n => dt_nodes (tree s) !! n = None ∧
            dt_nodes (tree s') = <[n := new_node parent p name unit_name ph]> (dt_nodes (tree s))
        end) s.
Proof.
  intros [Hh Hd] Ep. unfold pcie_alloc_node. apply wp_bind, wp_kalloc; [done|..].
  { intros s1 (T1 & Y1 & P1) H1 L1 N1 F1. apply wp_ret. rewrite T1.
    split_and!; try done; [split; [done|]|lia]. intros n. rewrite T1, N1. apply Hd. }
  intros b1 s1 (T1 & Y1 & P1) H1 E1 N1 I1 L1 F1. apply wp_bind, wp_kalloc; [done|..].
  { intros s2 (T2 & Y2 & P2) H2 L2 N2 F2. apply wp_bind, wp_kfree; [rewrite L2, L1; set_solver|].
    intros s3 (T3 & Y3 & P3) L3 N3 F3. apply wp_ret. rewrite T3, T2, T1.
    split_and!; try congruence; try lia.
    - split; [by eapply heap_ok_free|]. intros n. rewrite T3, T2, T1, N3, N2, N1. intros Hn%Hd. lia.
    - intros E. rewrite F1, E in F2. done.
    - rewrite L3, L2, L1. set_solver.
    - apply tail_nonempty. by rewrite <- F1. }
  intros b2 s2 (T2 & Y2 & P2) H2 E2 N2 I2 L2 F2. apply wp_bind. eapply wp_deref; [by rewrite T2, T1|].
  apply wp_bind, wp_kalloc; [done|..].
  { intros s3 (T3 & Y3 & P3) H3 L3 N3 F3. apply wp_bind, wp_kfree; [rewrite L3, L2; set_solver|].
    intros s4 (T4 & Y4 & P4) L4 N4 F4. apply wp_bind, wp_kfree.
    { rewrite L4, L3, L2, L1. apply elem_of_difference. split; [set_solver|].
      rewrite elem_of_singleton. lia. }
    intros s5 (T5 & Y5 & P5) L5 N5 F5. apply wp_ret. rewrite T5, T4, T3, T2, T1.
    split_and!; try congruence; try lia.
    - split; [eapply heap_ok_free; [|done|done]; by eapply heap_ok_free|].
      intros n. rewrite T5, T4, T3, T2, T1. intros Hn%Hd. lia.
    - intros E. rewrite F2, F1, E in F3. done.
    - rewrite L5, L4, L3, L2, L1. set_solver.
    - apply tail_nonempty. rewrite <- F1. apply tail_nonempty. by rewrite <- F2. }
  intros b3 s3 (T3 & Y3 & P3) H3 E3 N3 I3 L3 F3. apply wp_bind, wp_modify, wp_ret. simpl.
  rewrite T3, T2, T1. split_and!; try congruence; try lia.
  - split; [exact H3|]. intros n. simpl. destruct (decide (n = b1)) as [->|Hne]; [lia|].
    rewrite lookup_insert_ne by done. intros Hn%Hd. lia.
  - intros E. by rewrite F3, F2, F1, E.
  - destruct (dt_nodes (tree s) !! b1) eqn:E; [|done]. specialize (Hd b1 ltac:(eauto)). lia.
  - done.
Qed.

(** ** Linking in *)
Definition linked (d : device_node) (sib : option Z) : device_node :=
  set_detached (set_sibling (set_child d None) sib) false.

Lemma attach_node_wp n d p dp s : dt_nodes (tree s) !! n = Some d → d_parent d = Some p →
  dt_nodes (tree s) !! p = Some dp → p ≠ n →
  wp (pcie_attach_node (Some n))
     (λ r s', r = 0 ∧ s' = set_tree s (set_nodes (tree s)
        (<[p := set_child dp (Some n)]> (<[n := linked d (d_child dp)]> (dt_nodes (tree s)))))) s.
Proof.
  intros En Hp Ep Hne. unfold pcie_attach_node. wp_steps. eapply wp_deref; [done|]. rewrite Hp.
  apply wp_bind, wp_store_node. wp_steps. eapply wp_deref; [simpl; by rewrite lookup_insert_ne|].
  wp_steps. eapply wp_deref; [simpl; by rewrite lookup_insert_eq|].
  apply wp_bind, wp_store_node. wp_steps. eapply wp_deref; [simpl; by rewrite !lookup_insert_ne|].
  apply wp_bind, wp_store_node.
  wp_steps. eapply wp_deref; [simpl; rewrite lookup_insert_ne by done; by rewrite lookup_insert_eq|].
  apply wp_bind, wp_store_node.
  wp_steps. split; [done|]. unfold set_tree, set_nodes. simpl. do 2 f_equal.
  rewrite (insert_insert_ne _ n p) by done. f_equal. by rewrite !insert_insert_eq.
Qed.

(** The new first child, then the old ones. *)
Lemma linked_children ns n d p dp l : ns !! n = None → children ns p l → ns !! p = Some dp →
  children (<[p := set_child dp (Some n)]> (<[n := linked d (d_child dp)]> ns)) p (n :: l).
Proof.
  intros Hn (dp' & Ep' & Hc) Ep. assert (dp' = dp) as -> by congruence. assert (p ≠ n) by congruence.
  exists (set_child dp (Some n)). rewrite lookup_insert_eq. split; [done|]. simpl.
  econstructor; [rewrite lookup_insert_ne by done; apply lookup_insert_eq|]. simpl.
  eapply chain_ext; [done|]. intros m e Hm Em. destruct (decide (m = p)) as [->|].
  - rewrite lookup_insert_eq. simplify_eq. by eexists.
  - rewrite !lookup_insert_ne by congruence. eauto.
Qed.

(** ** The properties of the three nodes, as the source gives them *)
Definition rx_vals : list (string * list Z) :=
  [("phandle", be32 0x8125); ("linux,phandle", be32 0x8125); ("name", cstr "r8125_rx");
   ("qcom,dir-rx", []); ("qcom,rx-filter-ip", []); ("qcom,ring-size", be32 1024);
   ("qcom,buff-size", be32 2048); ("qcom,mod-count-min", be32 32); ("qcom,mod-count-max", be32 64);
   ("qcom,mod-usecs-min", be32 30); ("qcom,mod-usecs-max", be32 60)]%string.

Definition tx_vals : list (string * list Z) :=
  [("phandle", be32 0x8126); ("linux,phandle", be32 0x8126); ("name", cstr "r8125_tx");
   ("qcom,dir-tx", []); ("qcom,ring-size", be32 1024);
   ("qcom,buff-size", be32 2048); ("qcom,mod-count-min", be32 32); ("qcom,mod-count-max", be32 64);
   ("qcom,mod-usecs-min", be32 30); ("qcom,mod-usecs-max", be32 60)]%string.

Definition dev_vals (ioss group : Z) : list (string * list Z) :=
  [("compatible", cstr "qcom,ioss-v2-device"); ("name", cstr "realtek,rtl8125");
   ("reg", concat (be32 <$> [0; 0; 0; 0; 0]));
   ("pci-ids", concat [cstr "10ec:8125"; cstr "10ec:3000"]); ("qcom,ioss_instance", be32 0);
   ("qcom,ioss", be32 ioss); ("qcom,iommu-group", be32 group);
   ("qcom,ioss_channels", concat [be32 0x8125; be32 0x8126])]%string.

Abbreviation setting := (Z * string * list Z)%type.

Definition at_node (n : Z) (kvs : list (string * list Z)) : list setting :=
  (λ kv, (n, kv.1, kv.2)) <$> kvs.

Lemma apply_settings_app n l1 l2 ws :
  apply_settings n (l1 ++ l2) ws = apply_settings n l2 (apply_settings n l1 ws).
Proof. revert ws. induction l1 as [|[[n' nm] v] l1 IH]; intros ws; [done|]. simpl. apply IH. Qed.

Lemma apply_settings_other n n' kvs ws : n' ≠ n → apply_settings n (at_node n' kvs) ws = ws.
Proof. intros Hne. induction kvs as [|kv kvs IH]; [done|]. simpl. by rewrite decide_False. Qed.

Lemma apply_settings_own n kvs ws :
  apply_settings n (at_node n kvs) ws = foldl (λ ws kv, upd_val kv.1 kv.2 ws) ws kvs.
Proof. revert ws. induction kvs as [|kv kvs IH]; intros ws; [done|]. simpl. rewrite decide_True by done. apply IH. Qed.

Lemma upd_val_fresh nm v ws : nm ∉ ws.*1 → upd_val nm v ws = ws ++ [(nm, v)].
Proof.
  induction ws as [|[nm' w] ws IH]; [done|]. simpl. rewrite not_elem_of_cons. intros [Hne Hn].
  rewrite decide_False by done. by rewrite IH.
Qed.

(** Different names: the properties are the settings, in their order. *)
Lemma settings_fresh kvs : NoDup kvs.*1 → foldl (λ ws kv, upd_val kv.1 kv.2 ws) [] kvs = kvs.
Proof.
  assert (∀ ws, NoDup (ws ++ kvs).*1 → foldl (λ ws kv, upd_val kv.1 kv.2 ws) ws kvs = ws ++ kvs) as Hg.
  { induction kvs as [|[nm v] kvs IH]; intros ws Hnd; simpl; [by rewrite app_nil_r|].
    rewrite upd_val_fresh.
    - rewrite IH; rewrite <- app_assoc; done.
    - rewrite fmap_app in Hnd. apply list.NoDup_app in Hnd as (_ & Hd & _). intros Hin.
      apply (Hd _ Hin). left. }
  intros Hnd. by apply (Hg []).
Qed.

Lemma rx_fresh : NoDup rx_vals.*1.
Proof. apply (bool_decide_unpack _). vm_compute. exact I. Qed.
Lemma tx_fresh : NoDup tx_vals.*1.
Proof. apply (bool_decide_unpack _). vm_compute. exact I. Qed.
Lemma dev_fresh i g : NoDup (dev_vals i g).*1.
Proof. apply (bool_decide_unpack _). vm_compute. exact I. Qed.

Lemma code_cons n m nm v cl l : builds_prop m nm v → Forall2 code_setting cl l →
  Forall2 code_setting ((n, m) :: cl) ((n, nm, v) :: l).
Proof. constructor; [by split|done]. Qed.

Ltac code_settings :=
  repeat (apply code_cons; [
    lazymatch goal with
    | |- builds_prop (pcie_alloc_u32_property _ _) _ _ => apply u32_built
    | |- builds_prop (pcie_alloc_string_property _ _) _ _ => apply string_built
    | |- builds_prop (pcie_alloc_bool_property _) _ _ => apply bool_built
    | |- builds_prop (pcie_alloc_u32_array_property _ _) _ _ => apply u32_array_built
    | |- builds_prop (pcie_alloc_string_list_property _ _) _ _ => apply string_list_built
    end|]); apply list.Forall2_nil_2.

Lemma rx_code rx : Forall2 code_setting (rx_props rx) (at_node rx rx_vals).
Proof. code_settings. Qed.
Lemma tx_code tx : Forall2 code_setting (tx_props tx) (at_node tx tx_vals).
Proof. code_settings. Qed.
Lemma dev_code dev i g : Forall2 code_setting (rtl8125_props dev i g) (at_node dev (dev_vals i g)).
Proof. code_settings. Qed.

Lemma at_node_in n kvs (P : setting → Prop) : (∀ kv, P (n, kv.1, kv.2)) → Forall P (at_node n kvs).
Proof. intros HP. unfold at_node. apply list.Forall_fmap, list.Forall_true. intros kv. apply HP. Qed.

(** A node that is linked in, without children. *)
Definition has_node (ns : gmap Z device_node) (n : Z) (name : string) (parent : Z) (sib : option Z)
    (kvs : list (string * list Z)) : Prop :=
  ∃ d, ns !! n = Some d ∧ d_name d = name ∧ d_parent d = Some parent ∧ d_child d = None ∧
       d_sibling d = sib ∧ d_detached d = false ∧ vals (d_props d) = kvs.

(** The tree with the three nodes in it, of which only three old nodes, and
    of those only one field each, have changed. *)
Record injected (pcie soc rp ioss_ph group_ph : Z) (ns ns' : gmap Z device_node) (rx tx dev : Z)
    (dsoc drp dpcie : device_node) : Prop := Injected {
  inj_new : ns !! rx = None ∧ ns !! tx = None ∧ ns !! dev = None ∧ NoDup [rx; tx; dev];
  inj_rx : has_node ns' rx "r8125_rx" soc (d_child dsoc) rx_vals;
  inj_tx : has_node ns' tx "r8125_tx" soc (Some rx) tx_vals;
  inj_dev : has_node ns' dev "realtek,rtl8125" rp (d_child drp) (dev_vals ioss_ph group_ph);
  inj_soc : ns' !! soc = Some (set_child dsoc (Some tx));
  inj_rp : ns' !! rp = Some (set_child drp (Some dev));
  inj_pcie : ∃ ps, ns' !! pcie = Some (set_props dpcie ps) ∧
    vals ps = upd_val "status" (cstr "okay") (vals (d_props dpcie));
  inj_rest : ∀ n, n ∉ [pcie; soc; rp; rx; tx; dev] → ns' !! n = ns !! n }.

(** What a run of [inject] leaves: a negative error and no new child anywhere,
    or the three nodes. *)
Definition inject_post (pcie soc ioss group rp : Z) (dsoc drp dpcie : device_node) (s : dts) (r : Z) (s' : dts) : Prop :=
  (dt_refs (tree s') = dt_refs (tree s) ∧ pcie_node s' = pcie_node s) ∧ r ≤ 0 ∧
  (r ≠ 0 → grown [pcie] (dt_nodes (tree s)) (dt_nodes (tree s'))) ∧
  (r = 0 → ∃ i g, dt_nodes (tree s) !! ioss = Some i ∧ dt_nodes (tree s) !! group = Some g ∧
     ∃ rx tx dev, injected pcie soc rp (d_phandle i) (d_phandle g) (dt_nodes (tree s))
       (dt_nodes (tree s')) rx tx dev dsoc drp dpcie) ∧
  (api_total → fails s = [] → r = 0).

(** The status property and the three allocations. *)
Lemma inject_alloc pcie soc rp dsoc drp dpcie s : dts_ok s → syms_ok s →
  dt_nodes (tree s) !! soc = Some dsoc → dt_nodes (tree s) !! rp = Some drp →
  dt_nodes (tree s) !! pcie = Some dpcie → NoDup [pcie; soc; rp] →
  wp (set_all [(pcie, pcie_alloc_string_property "status" "okay")])
     (λ r s', steps_props [pcie] s r s' ∧ dts_ok s' ∧
        (r = 0 → ∃ ps, dt_nodes (tree s') = <[pcie := set_props dpcie ps]> (dt_nodes (tree s)) ∧
           vals ps = upd_val "status" (cstr "okay") (vals (d_props dpcie)))) s.
Proof.
  intros [Hh Hd] Hy Es Er Ep Hnd. eapply wp_mono.
  { apply (set_all_wp [pcie] _ (at_node pcie [("status"%string, cstr "okay")])); [done|done| |].
    - code_settings.
    - apply at_node_in. intros kv. simpl. split; [by apply list_elem_of_singleton|eauto]. }
  intros r s' [Hs Hv]. split; [done|]. pose proof Hs as [Hl _ _ _ Hh' Hn' _ _]. split.
  { split; [done|]. intros n Hn. specialize (Hl n). destruct (dt_nodes (tree s) !! n) eqn:E.
    - specialize (Hd n ltac:(eauto)). lia.
    - destruct Hn as [d' E']. by rewrite E' in Hl. }
  intros Hr. destruct (Hv Hr pcie dpcie Ep) as (d' & E' & Hd'). exists (d_props d'). simpl in Hd'.
  rewrite decide_True in Hd' by done. split; [|done]. apply map_eq. intros n. specialize (Hl n).
  destruct (decide (n = pcie)) as [->|Hne].
  - rewrite lookup_insert_eq. rewrite Ep, E' in Hl. destruct Hl as (ps & -> & _). done.
  - rewrite lookup_insert_ne by done. destruct (dt_nodes (tree s) !! n), (dt_nodes (tree s') !! n); try done.
    destruct Hl as (ps & -> & Hps). rewrite Hps; [by rewrite set_props_same|].
    by rewrite list_elem_of_singleton.
Qed.

(** Lookups through insertions at distinct nodes. *)
Ltac look := repeat first [ rewrite lookup_insert_eq | rewrite lookup_insert_ne by congruence ]; done.

(** Linking three built nodes in. *)
Lemma attach_three soc rp rx tx dev drx dtx ddev dsoc drp s :
  dt_nodes (tree s) !! rx = Some drx → d_parent drx = Some soc →
  dt_nodes (tree s) !! tx = Some dtx → d_parent dtx = Some soc →
  dt_nodes (tree s) !! dev = Some ddev → d_parent ddev = Some rp →
  dt_nodes (tree s) !! soc = Some dsoc → dt_nodes (tree s) !! rp = Some drp →
  NoDup [soc; rp; rx; tx; dev] →
  wp (attach_all [Some rx; Some tx; Some dev])
     (λ r s', r = 0 ∧ (dt_refs (tree s') = dt_refs (tree s) ∧ pcie_node s' = pcie_node s) ∧
        dt_nodes (tree s') !! rx = Some (linked drx (d_child dsoc)) ∧
        dt_nodes (tree s') !! tx = Some (linked dtx (Some rx)) ∧
        dt_nodes (tree s') !! dev = Some (linked ddev (d_child drp)) ∧
        dt_nodes (tree s') !! soc = Some (set_child dsoc (Some tx)) ∧
        dt_nodes (tree s') !! rp = Some (set_child drp (Some dev)) ∧
        ∀ n, n ∉ [soc; rp; rx; tx; dev] → dt_nodes (tree s') !! n = dt_nodes (tree s) !! n) s.
Proof.
  intros Erx Prx Etx Ptx Edev Pdev Es Er Hnd.
  assert (soc ≠ rp ∧ soc ≠ rx ∧ soc ≠ tx ∧ soc ≠ dev ∧ rp ≠ rx ∧ rp ≠ tx ∧ rp ≠ dev ∧ rx ≠ tx ∧
    rx ≠ dev ∧ tx ≠ dev) as (?&?&?&?&?&?&?&?&?&?).
  { rewrite !list.NoDup_cons, !not_elem_of_cons in Hnd. naive_solver. }
  simpl. apply wp_bind. eapply wp_mono; [by eapply attach_node_wp|]. intros r1 s1 [-> ->].
  apply wp_bind. eapply wp_mono.
  { eapply (attach_node_wp tx dtx soc); [simpl; look|done|simpl; look|done]. }
  intros r2 s2 [-> ->]. apply wp_bind. eapply wp_mono.
  { eapply (attach_node_wp dev ddev rp); [simpl; look|done|simpl; look|done]. }
  intros r3 s3 [-> ->]. apply wp_ret. simpl. split_and!; [done|done|look..|].
  intros n Hn. rewrite !not_elem_of_cons in Hn. destruct Hn as (?&?&?&?&?&_). look.
Qed.

#[local] Opaque rx_vals tx_vals dev_vals be32 cstr.

(** Filling in the built nodes: an error, or all three with their values; the
    rest of the tree does not change. *)
Lemma fill_wp ns soc rp dsoc drp rx tx dev i g s :
  let new := <[dev := new_node rp drp "realtek,rtl8125" "realtek,rtl8125@0,0" 0]>
    (<[tx := new_node soc dsoc "r8125_tx" "r8125_tx@eth0" RTL8125_PHANDLE_TX]>
    (<[rx := new_node soc dsoc "r8125_rx" "r8125_rx@eth0" RTL8125_PHANDLE_RX]> ns)) in
  dts_ok s → syms_ok s → dt_nodes (tree s) = new → NoDup [rx; tx; dev] →
  ns !! rx = None → ns !! tx = None → ns !! dev = None →
  wp (set_all (rx_props rx ++ tx_props tx ++ rtl8125_props dev i g))
     (λ r s', steps_props [rx; tx; dev] s r s' ∧
        (∀ n, n ∉ [rx; tx; dev] → dt_nodes (tree s') !! n = ns !! n) ∧
        (r = 0 → ∃ prx ptx pdev,
           dt_nodes (tree s') !! rx = Some (set_props (new_node soc dsoc "r8125_rx" "r8125_rx@eth0" RTL8125_PHANDLE_RX) prx) ∧
           vals prx = rx_vals ∧
           dt_nodes (tree s') !! tx = Some (set_props (new_node soc dsoc "r8125_tx" "r8125_tx@eth0" RTL8125_PHANDLE_TX) ptx) ∧
           vals ptx = tx_vals ∧
           dt_nodes (tree s') !! dev = Some (set_props (new_node rp drp "realtek,rtl8125" "realtek,rtl8125@0,0" 0) pdev) ∧
           vals pdev = dev_vals i g)) s.
Proof.
  intros new [Hh _] Hy En Hnd Hrx Htx Hdev.
  assert (rx ≠ tx ∧ rx ≠ dev ∧ tx ≠ dev) as (?&?&?).
  { rewrite !list.NoDup_cons, !not_elem_of_cons in Hnd. naive_solver. }
  assert (new !! rx = Some (new_node soc dsoc "r8125_rx" "r8125_rx@eth0" RTL8125_PHANDLE_RX)) as Nrx by (unfold new; look).
  assert (new !! tx = Some (new_node soc dsoc "r8125_tx" "r8125_tx@eth0" RTL8125_PHANDLE_TX)) as Ntx by (unfold new; look).
  assert (new !! dev = Some (new_node rp drp "realtek,rtl8125" "realtek,rtl8125@0,0" 0)) as Ndev by (unfold new; look).
  rewrite <- En in Nrx, Ntx, Ndev.
  eapply wp_mono.
  { apply (set_all_wp [rx; tx; dev] _ (at_node rx rx_vals ++ at_node tx tx_vals ++ at_node dev (dev_vals i g)));
      [done|done| |].
    - apply Forall2_app; [apply rx_code|]. apply Forall2_app; [apply tx_code|apply dev_code].
    - rewrite !list.Forall_app. split_and!; apply at_node_in; intros kv; simpl.
      + split; [left|eauto].
      + split; [right; left|eauto].
      + split; [right; right; left|eauto]. }
  intros r s' [Hs Hv]. split; [done|]. pose proof Hs as [Hl _ _ _ _ _ _ _]. split.
  - intros n Hn. specialize (Hl n). rewrite En in Hl. unfold new in Hl.
    assert (n ≠ rx ∧ n ≠ tx ∧ n ≠ dev) as (?&?&?) by (rewrite !not_elem_of_cons in Hn; naive_solver).
    rewrite !lookup_insert_ne in Hl by congruence.
    destruct (ns !! n), (dt_nodes (tree s') !! n); try done.
    destruct Hl as (ps & -> & Hps). rewrite Hps by done. by rewrite set_props_same.
  - intros Hr.
    assert (∀ n d kvs, dt_nodes (tree s) !! n = Some d → d_props d = [] →
      apply_settings n (at_node rx rx_vals ++ at_node tx tx_vals ++ at_node dev (dev_vals i g)) [] = kvs →
      ∃ ps, dt_nodes (tree s') !! n = Some (set_props d ps) ∧ vals ps = kvs) as Hone.
    { intros n d kvs E Hp Hk. destruct (Hv Hr n d E) as (d' & E' & Hd'). specialize (Hl n).
      rewrite E, E' in Hl. destruct Hl as (ps & -> & _). exists ps. split; [done|].
      simpl in Hd'. by rewrite Hd', Hp, <- Hk. }
    destruct (Hone rx _ rx_vals Nrx eq_refl) as (prx & ? & ?).
    { rewrite !apply_settings_app, apply_settings_own, (apply_settings_other rx tx),
        (apply_settings_other rx dev) by auto.
      apply settings_fresh, rx_fresh. }
    destruct (Hone tx _ tx_vals Ntx eq_refl) as (ptx & ? & ?).
    { rewrite !apply_settings_app, (apply_settings_other tx rx), apply_settings_own,
        (apply_settings_other tx dev) by auto.
      apply settings_fresh, tx_fresh. }
    destruct (Hone dev _ (dev_vals i g) Ndev eq_refl) as (pdev & ? & ?).
    { rewrite !apply_settings_app, (apply_settings_other dev rx), (apply_settings_other dev tx),
        apply_settings_own by auto.
      apply settings_fresh, dev_fresh. }
    exists prx, ptx, pdev. done.
Qed.

(** One of the three nodes is missing, or all are there with their frames. *)
Definition allocated (soc rp : Z) (dsoc drp : device_node) (s : dts) (o1 o2 o3 : option Z) (s' : dts) : Prop :=
  dts_ok s' ∧ (dt_refs (tree s') = dt_refs (tree s) ∧ pcie_node s' = pcie_node s) ∧
  pcie_syms s' = pcie_syms s ∧
  (fails s = [] → fails s' = []) ∧
  match o1, o2, o3 with
  | Some rx, Some tx, Some dev =>
      dt_nodes (tree s) !! rx = None ∧ dt_nodes (tree s) !! tx = None ∧ dt_nodes (tree s) !! dev = None ∧
      NoDup [rx; tx; dev] ∧
      dt_nodes (tree s') = <[dev := new_node rp drp "realtek,rtl8125" "realtek,rtl8125@0,0" 0]>
        (<[tx := new_node soc dsoc "r8125_tx" "r8125_tx@eth0" RTL8125_PHANDLE_TX]>
        (<[rx := new_node soc dsoc "r8125_rx" "r8125_rx@eth0" RTL8125_PHANDLE_RX]> (dt_nodes (tree s))))
  | _, _, _ => grown [] (dt_nodes (tree s)) (dt_nodes (tree s')) ∧ fails s ≠ []
  end.

Lemma alloc_three soc rp dsoc drp s : dts_ok s →
  dt_nodes (tree s) !! soc = Some dsoc → dt_nodes (tree s) !! rp = Some drp →
  wp (let* rx := pcie_alloc_node soc "r8125_rx" "r8125_rx@eth0" RTL8125_PHANDLE_RX in
      let* tx := pcie_alloc_node soc "r8125_tx" "r8125_tx@eth0" RTL8125_PHANDLE_TX in
      let* dev := pcie_alloc_node rp "realtek,rtl8125" "realtek,rtl8125@0,0" 0 in
      ret (rx, tx, dev))
     (λ o s', allocated soc rp dsoc drp s o.1.1 o.1.2 o.2 s') s.
Proof.
  intros Hk Es Er. apply wp_bind. eapply wp_mono; [by eapply alloc_node_wp|].
  intros o1 s1 (K1 & N1 & R1 & Y1 & W1 & F1 & P1).
  assert (grown [] (dt_nodes (tree s)) (dt_nodes (tree s1)) ∧
    dt_nodes (tree s1) !! soc = Some dsoc ∧ dt_nodes (tree s1) !! rp = Some drp) as (G1 & Es1 & Er1).
  { destruct o1; [destruct P1 as [E ->]|destruct P1 as (-> & _)]; [|by auto using grown_refl].
    split_and!; [by apply grown_insert|rewrite lookup_insert_ne by congruence; done..]. }
  apply wp_bind. eapply wp_mono; [by eapply alloc_node_wp|].
  intros o2 s2 (K2 & N2 & R2 & Y2 & W2 & F2 & P2).
  assert (grown [] (dt_nodes (tree s1)) (dt_nodes (tree s2)) ∧
    dt_nodes (tree s2) !! rp = Some drp) as (G2 & Er2).
  { destruct o2; [destruct P2 as [E ->]|destruct P2 as (-> & _)]; [|by auto using grown_refl].
    split_and!; [by apply grown_insert|rewrite lookup_insert_ne by congruence; done..]. }
  apply wp_bind. eapply wp_mono; [by eapply alloc_node_wp|].
  intros o3 s3 (K3 & N3 & R3 & Y3 & W3 & F3 & P3).
  assert (grown [] (dt_nodes (tree s2)) (dt_nodes (tree s3))) as G3.
  { destruct o3; [destruct P3 as [E ->]|destruct P3 as (-> & _)]; [|by auto using grown_refl].
    by apply grown_insert. }
  apply wp_ret. unfold allocated. simpl. split_and!; [done|congruence|congruence|congruence|by auto|].
  assert (grown [] (dt_nodes (tree s)) (dt_nodes (tree s3))) as G by eauto using grown_trans.
  assert (fails s2 ≠ [] → fails s ≠ []) by naive_solver.
  destruct o1 as [rx|]; [|by destruct P1 as (? & ? & ?)].
  destruct o2 as [tx|]; [|destruct P2 as (? & ? & ?); split; [done|naive_solver]].
  destruct o3 as [dev|]; [|destruct P3 as (? & ? & ?); split; [done|naive_solver]].
  destruct P1 as [E1 M1], P2 as [E2 M2], P3 as [E3 M3].
  rewrite M2, M1 in E3. rewrite M1 in E2. rewrite M3, M2, M1.
  apply lookup_insert_None in E3 as [[E3 ?]%lookup_insert_None ?].
  apply lookup_insert_None in E2 as [E2 ?].
  split_and!; try done. rewrite !list.NoDup_cons, !not_elem_of_cons.
  split_and!; auto using not_elem_of_nil, NoDup_nil_2; apply not_elem_of_nil.
Qed.

Lemma bind_ret3 {A B C R} (m1 : D A) (m2 : D B) (m3 : D C) (k : A → B → C → D R) Q s :
  wp (let* a := m1 in let* b := m2 in let* c := m3 in ret (a, b, c)) (λ o, wp (k o.1.1 o.1.2 o.2) Q) s →
  wp (let* a := m1 in let* b := m2 in let* c := m3 in k a b c) Q s.
Proof.
  unfold wp, bind, ret. destruct (m1 s) as [[a s1]|]; [|done]. destruct (m2 s1) as [[b s2]|]; [|done].
  by destruct (m3 s2) as [[c s3]|].
Qed.

Lemma grown_phandle T ns ns' n d : grown T ns ns' → ns !! n = Some d →
  ∃ d', ns' !! n = Some d' ∧ d_phandle d' = d_phandle d.
Proof. intros Hg (ps & E & _)%Hg. by eexists. Qed.

Lemma linked_has_node ns n name parent d unit_name ph sib ps kvs :
  ns !! n = Some (linked (set_props (new_node parent d name unit_name ph) ps) sib) → vals ps = kvs →
  has_node ns n name parent sib kvs.
Proof. intros E Hv. by eexists. Qed.

Lemma inject_wp pcie soc ioss group rp dsoc drp dpcie s : dts_ok s → syms_ok s →
  dt_nodes (tree s) !! soc = Some dsoc → dt_nodes (tree s) !! rp = Some drp →
  dt_nodes (tree s) !! pcie = Some dpcie → NoDup [pcie; soc; rp] →
  is_Some (dt_nodes (tree s) !! ioss) → is_Some (dt_nodes (tree s) !! group) →
  wp (inject pcie soc ioss group rp) (inject_post pcie soc ioss group rp dsoc drp dpcie s) s.
Proof.
  intros Hk Hy Es Er Ep Hnd [i Ei] [g Eg]. unfold inject. apply wp_bind.
  assert (pcie ≠ soc ∧ pcie ≠ rp ∧ soc ≠ rp) as (?&?&?).
  { rewrite !list.NoDup_cons, !not_elem_of_cons in Hnd. naive_solver. }
  eapply wp_mono; [by apply (inject_alloc pcie soc rp dsoc drp dpcie)|]. intros r s1 ([L1 R1 Y1 W1 _ _ Ret1 K1] & Hk1 & Hst).
  assert (grown [pcie] (dt_nodes (tree s)) (dt_nodes (tree s1))) as G1 by by eapply same_links_grown.
  destruct (Z.eqb_spec r 0) as [->|Hr]; simpl negb; cbv iota.
  2:{ apply wp_ret. split_and!; [done|done|done|done|done|]. intros Ht Hf. by destruct (K1 Ht Hf). }
  destruct (Hst eq_refl) as (ps & E1 & Hps). clear Hst.
  assert (dt_nodes (tree s1) !! soc = Some dsoc ∧ dt_nodes (tree s1) !! rp = Some drp) as [Es1 Er1]
    by (rewrite E1, !lookup_insert_ne by done; done).
  apply bind_ret3. eapply wp_mono; [by apply alloc_three|].
  intros [[o1 o2] o3] s2 (Hk2 & [R2 W2] & Y2 & F2 & P2). cbn [fst snd] in *.
  assert (grown [] (dt_nodes (tree s1)) (dt_nodes (tree s2)) ∧ fails s1 ≠ [] →
    wp (ret (- ENOMEM)) (inject_post pcie soc ioss group rp dsoc drp dpcie s) s2) as Hfail.
  { intros [G2 Hf]. apply wp_ret. unfold ENOMEM. split_and!; [congruence|congruence|lia| |lia|].
    - intros _. eapply grown_trans; [done|]. intros n d E. destruct (G2 n d E) as (ps' & ? & Hp).
      exists ps'. split; [done|]. intros _. apply Hp, not_elem_of_nil.
    - intros Ht Hf0. by destruct (K1 Ht Hf0). }
  destruct o1 as [rx|], o2 as [tx|], o3 as [dev|]; try exact (Hfail P2). clear Hfail.
  destruct P2 as (N1 & N2 & N3 & Hnd3 & E2).
  destruct (grown_phandle _ _ _ _ _ G1 Ei) as (i1 & Ei1 & Hi).
  destruct (grown_phandle _ _ _ _ _ G1 Eg) as (g1 & Eg1 & Hg).
  apply wp_bind. eapply wp_deref; [rewrite E2; look|].
  apply wp_bind. eapply wp_deref; [rewrite E2; look|]. rewrite Hi, Hg.
  apply wp_bind. eapply wp_mono.
  { eapply fill_wp; [done| |exact E2|done..]. unfold syms_ok. by rewrite Y2, Y1. }
  intros r s3 ([L3 R3 Y3 W3 _ _ Ret3 K3] & Hrest & Hfill).
  destruct (Z.eqb_spec r 0) as [->|Hr]; simpl negb; cbv iota.
  2:{ apply wp_ret. split_and!; [congruence|congruence|done| |done|].
      - intros _ n d E. destruct (G1 n d E) as (ps' & E' & Hp). exists ps'. split; [|done].
        rewrite Hrest; [done|]. rewrite !not_elem_of_cons. split_and!; [congruence..|apply not_elem_of_nil].
      - intros Ht Hf. destruct (K1 Ht Hf) as [_ Hf1]. by destruct (K3 Ht (F2 Hf1)). }
  destruct (Hfill eq_refl) as (prx & ptx & pdev & Frx & Vrx & Ftx & Vtx & Fdev & Vdev).
  assert (∀ n d, dt_nodes (tree s1) !! n = Some d → dt_nodes (tree s3) !! n = Some d) as Hkeep.
  { intros n d E. rewrite Hrest; [done|]. rewrite !not_elem_of_cons.
    split_and!; [congruence..|apply not_elem_of_nil]. }
  eapply wp_mono.
  { eapply (attach_three soc rp rx tx dev); [exact Frx|done|exact Ftx|done|exact Fdev|done|by apply Hkeep..|].
    clear -Hnd3 H3 N1 N2 N3 Es1 Er1. rewrite list.NoDup_cons, !not_elem_of_cons.
    split; [split_and!; [done|congruence..|apply not_elem_of_nil]|].
    rewrite list.NoDup_cons, !not_elem_of_cons. split; [|done].
    split_and!; [congruence..|apply not_elem_of_nil]. }
  intros r s4 (-> & [R4 W4] & Arx & Atx & Adev & Asoc & Arp & Arest).
  split_and!; [congruence|congruence|done|done| |done].
  intros _. exists i, g. split_and!; [done|done|]. exists rx, tx, dev.
  assert (∀ n, dt_nodes (tree s1) !! n = None → dt_nodes (tree s) !! n = None) as Hback.
  { intros n. rewrite E1. by intros [? _]%lookup_insert_None. }
  split; try done; try (by eapply linked_has_node).
  - split_and!; by auto.
  - exists ps. split; [|done]. rewrite Arest; [apply Hkeep; rewrite E1; look|].
    rewrite !not_elem_of_cons. assert (dt_nodes (tree s1) !! pcie ≠ None) by (by rewrite E1, lookup_insert_eq).
    split_and!; [done|done|congruence..|apply not_elem_of_nil].
  - intros n Hn. rewrite !not_elem_of_cons in Hn. destruct Hn as (?&?&?&?&?&?&_).
    rewrite Arest, Hrest, E1; [look|..]; rewrite !not_elem_of_cons;
      (split_and!; [done..|apply not_elem_of_nil]).
Qed.

(** ** The new nodes head the child lists *)
Lemma injected_children pcie soc rp iph gph ns ns' rx tx dev dsoc drp dpcie ls lr :
  injected pcie soc rp iph gph ns ns' rx tx dev dsoc drp dpcie → NoDup [pcie; soc; rp] →
  ns !! soc = Some dsoc → ns !! rp = Some drp → ns !! pcie = Some dpcie →
  children ns soc ls → children ns rp lr →
  children ns' soc (tx :: rx :: ls) ∧ children ns' rp (dev :: lr).
Proof.
  intros [(N1 & N2 & N3 & _) Hrx Htx Hdev Hs Hr Hp Hrest] Hnd Es Er Ep (ds & Es' & Cs) (dr & Er' & Cr).
  simplify_eq.
  assert (∀ n d, ns !! n = Some d → ∃ d', ns' !! n = Some d' ∧ d_sibling d' = d_sibling d) as Hsib.
  { intros n d E. destruct (decide (n = soc)) as [->|]; [simplify_eq; eauto|].
    destruct (decide (n = rp)) as [->|]; [simplify_eq; eauto|].
    destruct (decide (n = pcie)) as [->|].
    - destruct Hp as (ps & E' & _). simplify_eq. eauto.
    - exists d. split; [|done]. rewrite Hrest; [done|]. rewrite !not_elem_of_cons.
      split_and!; [congruence..|apply not_elem_of_nil]. }
  destruct Hrx as (drx & Erx & _ & _ & _ & Srx & _), Htx as (dtx & Etx & _ & _ & _ & Stx & _),
    Hdev as (ddev & Edev & _ & _ & _ & Sdev & _).
  split; (eexists; split; [eassumption|]; simpl).
  - econstructor; [done|]. rewrite Stx. econstructor; [done|]. rewrite Srx. eapply chain_ext; eauto.
  - econstructor; [done|]. rewrite Sdev. eapply chain_ext; eauto.
Qed.

(** ** The whole run *)
Definition finds (ns : gmap Z device_node) (path : string) (o : option Z) : Prop :=
  ∀ t, dt_nodes t = ns → (of_find_node_by_path t path).1 = o.

Lemma wp_find_path path o s : finds (dt_nodes (tree s)) path o →
  wp (of_call (λ t, of_find_node_by_path t path))
     (λ r s', r = o ∧ refs_by s (one_if o) s' ∧ ∀ n, o = Some n → is_Some (dt_nodes (tree s) !! n)) s.
Proof.
  intros Hf. eapply wp_mono; [apply (wp_get (λ t, of_find_node_by_path t path)), ok_find_path|].
  simpl. intros r s' (-> & Hr & Hn). rewrite Hf in * by done. done.
Qed.

Definition all_found (s : dts) (soc ioss group rp : option Z) : Prop :=
  ∀ n, soc = Some n ∨ ioss = Some n ∨ group = Some n → is_Some (dt_nodes (tree s) !! n).

(** Between the lookups and the four [of_node_put]s: whatever the middle part
    does with the references, the lookups' own are given back. *)
Lemma runtime_frame pcie soc ioss group rp lp s Q :
  pcie_node s = Some pcie → finds (dt_nodes (tree s)) SOC_PATH soc →
  finds (dt_nodes (tree s)) IOSS_ROOT_PATH ioss → finds (dt_nodes (tree s)) IPA_ETH_GROUP1_PATH group →
  children (dt_nodes (tree s)) pcie lp → rp = first_named (dt_nodes (tree s)) "pcie0_rp" lp →
  (∀ s1, refs_by s (λ x, one_if soc x + one_if ioss x + one_if group x + one_if rp x) s1 →
     all_found s soc ioss group rp →
     wp (match soc, ioss, group, rp with
         | Some soc, Some ioss, Some group, Some rp => attach_body pcie soc ioss group rp
         | _, _, _, _ => ret (- ENODEV)
         end) (λ r s2, ∀ s', refs_by s2 (λ x, - (one_if soc x + one_if ioss x + one_if group x + one_if rp x)) s' →
                Q r s') s1) →
  wp pcie_attach_runtime_nodes Q s.
Proof.
  intros Hp Fs Fi Fg Hc -> Hm. unfold pcie_attach_runtime_nodes. wp_steps. rewrite Hp. apply wp_bind.
  eapply wp_mono; [by apply wp_find_path|]. intros ? s1 (-> & R1 & N1).
  pose proof R1 as (t1 & -> & M1 & _). apply wp_bind.
  eapply wp_mono; [apply wp_find_path; simpl; rewrite M1; done|]. intros ? s2 (-> & R2 & N2).
  pose proof R2 as (t2 & -> & M2 & _). simpl in *. rewrite M1 in N2. apply wp_bind.
  eapply wp_mono; [apply wp_find_path; simpl; rewrite M2, M1; done|]. intros ? s3 (-> & R3 & N3).
  pose proof R3 as (t3 & -> & M3 & _). simpl in *. rewrite M2, M1 in N3. apply wp_bind.
  eapply wp_mono; [eapply find_child_wp; simpl; rewrite M3, M2, M1; done|]. intros ? s4 (-> & R4).
  simpl in *. rewrite M3, M2, M1 in R4 |- *. apply wp_bind.
  eapply wp_mono; [apply Hm|].
  - eapply refs_by_ext; [|eapply refs_by_trans; [eapply refs_by_trans; [eapply refs_by_trans|]|]]; [|done..].
    intros x. done.
  - intros n [H1|[H1|H1]]; auto.
  - intros r s5 HQ. do 4 (apply wp_bind, wp_put; intros ? ?). apply wp_ret. apply HQ.
    eapply refs_by_ext; [|eapply refs_by_trans; [eapply refs_by_trans; [eapply refs_by_trans|]|]]; [|done..].
    intros x. simpl. lia.
Qed.

(** The three searches: the first failing one ends them. *)
Definition rx_of (ns : gmap Z device_node) (ls : list Z) := first_named ns "r8125_rx" ls.
Definition tx_of (ns : gmap Z device_node) (ls : list Z) :=
  match rx_of ns ls with Some _ => first_named ns "r8125_tx" ls | None => None end.
Definition dev_of (ns : gmap Z device_node) (ls lr : list Z) :=
  match tx_of ns ls with Some _ => first_named ns "realtek,rtl8125" lr | None => None end.

(** The references the searches take and nobody gives back. *)
Definition kept (ns : gmap Z device_node) (ls lr : list Z) (x : Z) : Z :=
  one_if (rx_of ns ls) x + one_if (tx_of ns ls) x + one_if (dev_of ns ls lr) x.

Lemma refs_by_zero s : refs_by s (λ _, 0) s.
Proof. exists (tree s). destruct s. split_and!; [done..|]. intros x. simpl. lia. Qed.

Lemma attach_body_wp pcie soc ioss group rp ls lr Q s :
  children (dt_nodes (tree s)) soc ls → children (dt_nodes (tree s)) rp lr →
  (∀ s1, refs_by s (kept (dt_nodes (tree s)) ls lr) s1 →
     wp (match dev_of (dt_nodes (tree s)) ls lr with
         | Some _ => ret 0 | None => inject pcie soc ioss group rp end) Q s1) →
  wp (attach_body pcie soc ioss group rp) Q s.
Proof.
  intros Hs Hr HQ. unfold attach_body. apply wp_bind. eapply wp_mono; [by eapply find_child_wp|].
  intros a s1 (Ea & R1). pose proof R1 as (t1 & Es1 & M1 & _). apply wp_bind.
  assert (wp (match a with Some _ => pcie_find_child_by_name soc "r8125_tx" | None => ret None end)
    (λ b s2, b = tx_of (dt_nodes (tree s)) ls ∧ refs_by s1 (one_if b) s2) s1) as H2.
  { unfold tx_of, rx_of. rewrite <- Ea. destruct a.
    - eapply wp_mono; [eapply find_child_wp; subst s1; simpl; by rewrite M1|].
      subst s1. simpl. rewrite M1. done.
    - apply wp_ret. split; [done|]. apply refs_by_zero. }
  eapply wp_mono; [exact H2|]. clear H2. intros b s2 (Eb & R2). apply wp_bind.
  assert (dt_nodes (tree s2) = dt_nodes (tree s)) as M2.
  { destruct R2 as (t2 & -> & M2 & _). simpl. rewrite M2. by subst s1. }
  assert (wp (match b with Some _ => pcie_find_child_by_name rp "realtek,rtl8125" | None => ret None end)
    (λ c s3, c = dev_of (dt_nodes (tree s)) ls lr ∧ refs_by s2 (one_if c) s3) s2) as H3.
  { unfold dev_of. rewrite <- Eb. destruct b.
    - eapply wp_mono; [eapply find_child_wp; by rewrite M2|]. by rewrite M2.
    - apply wp_ret. split; [done|]. apply refs_by_zero. }
  eapply wp_mono; [exact H3|]. intros c s3 (-> & R3). apply HQ.
  eapply refs_by_ext; [|eapply refs_by_trans; [eapply refs_by_trans|]]; [|done..].
  intros x. unfold kept. simpl. subst a b. done.
Qed.

(** What the run relies on: the dependencies are in the tree. *)
Record deps (pcie soc ioss group rp : Z) (ls lr lp : list Z) (s : dts) : Prop := Deps {
  dep_pcie : pcie_node s = Some pcie;
  dep_soc : finds (dt_nodes (tree s)) SOC_PATH (Some soc);
  dep_ioss : finds (dt_nodes (tree s)) IOSS_ROOT_PATH (Some ioss);
  dep_group : finds (dt_nodes (tree s)) IPA_ETH_GROUP1_PATH (Some group);
  dep_rp : first_named (dt_nodes (tree s)) "pcie0_rp" lp = Some rp;
  dep_ls : children (dt_nodes (tree s)) soc ls;
  dep_lr : children (dt_nodes (tree s)) rp lr;
  dep_lp : children (dt_nodes (tree s)) pcie lp;
  dep_distinct : NoDup [pcie; soc; rp] }.

(** A run that does not find the nodes in the tree. *)
Definition injection_post (pcie soc ioss group rp : Z) (ls lr : list Z) (s : dts) (r : Z) (s' : dts) : Prop :=
  pcie_node s' = pcie_node s ∧
  (∀ x, dt_refs (tree s') x = dt_refs (tree s) x + kept (dt_nodes (tree s)) ls lr x) ∧
  (r ≠ 0 → r < 0 ∧ grown [pcie] (dt_nodes (tree s)) (dt_nodes (tree s'))) ∧
  (r = 0 → ∃ rx tx dev i g dsoc drp dpcie,
     dt_nodes (tree s) !! ioss = Some i ∧ dt_nodes (tree s) !! group = Some g ∧
     (dt_nodes (tree s) !! soc = Some dsoc ∧ dt_nodes (tree s) !! rp = Some drp ∧
      dt_nodes (tree s) !! pcie = Some dpcie) ∧
     injected pcie soc rp (d_phandle i) (d_phandle g) (dt_nodes (tree s)) (dt_nodes (tree s'))
       rx tx dev dsoc drp dpcie ∧
     children (dt_nodes (tree s')) soc (tx :: rx :: ls) ∧
     children (dt_nodes (tree s')) rp (dev :: lr)) ∧
  (api_total → fails s = [] → r = 0).

Lemma attach_runtime_nodes_wp pcie soc ioss group rp ls lr lp s :
  dts_ok s → syms_ok s → deps pcie soc ioss group rp ls lr lp s →
  dev_of (dt_nodes (tree s)) ls lr = None →
  wp pcie_attach_runtime_nodes (injection_post pcie soc ioss group rp ls lr s) s.
Proof.
  intros Hk Hy [Dp Ds Di Dg Dr Ls Lr Lp Dd] Hmiss.
  pose proof Ls as (dsoc & Es & _). pose proof Lr as (drp & Er & _). pose proof Lp as (dpcie & Ep & _).
  eapply runtime_frame; [done..|]. intros s1 R1 Hall. pose proof R1 as (t1 & E1 & M1 & C1). simpl.
  assert (is_Some (dt_nodes (tree s) !! ioss) ∧ is_Some (dt_nodes (tree s) !! group)) as [Hi Hg]
    by (split; apply Hall; auto).
  assert (dt_nodes (tree s1) = dt_nodes (tree s)) as N1 by by subst s1.
  apply (attach_body_wp _ _ _ _ _ ls lr); [by rewrite N1..|]. intros s2 R2. rewrite N1 in *. rewrite Hmiss.
  pose proof R2 as (t2 & E2 & M2 & C2).
  assert (dt_nodes (tree s2) = dt_nodes (tree s)) as N2 by (subst s2; simpl; congruence).
  eapply wp_mono.
  { apply (inject_wp pcie soc ioss group rp dsoc drp dpcie); rewrite ?N2; try done; subst s2 s1; [|done].
    destruct Hk as [? Hk]. split; [done|]. simpl. simpl in M2. by rewrite M2, M1. }
  intros r s3 ([R3 W3] & Hneg & Hgrow & Hinj & Hluck) s4 R4. rewrite N2 in *.
  pose proof R4 as (t4 & E4 & M4 & C4).
  assert (dt_nodes (tree s4) = dt_nodes (tree s3)) as N4 by by subst s4.
  unfold injection_post. rewrite N4. split_and!.
  - subst s4 s2 s1. done.
  - intros x. subst s4. simpl. rewrite C4, R3. subst s2. simpl. rewrite C2. subst s1. simpl. rewrite C1. lia.
  - intros Hr. split; [lia|auto].
  - intros Hr. destruct (Hinj Hr) as (i & g & Ei & Eg & rx & tx & dev & Hin).
    exists rx, tx, dev, i, g, dsoc, drp, dpcie. split_and!; try done;
    by eapply (injected_children pcie soc rp).
  - intros Ht Hf. apply Hluck; [done|]. by subst s2 s1.
Qed.

(** C3: With the dependencies present, a run of [pcie_attach_runtime_nodes]
    that does not find its three nodes ends, and either returns a negative
    error with every node of the tree and every link as it was (only the root
    port's own properties may differ), or returns 0 with the three nodes,
    carrying exactly the properties the source lists, at the head of the child
    lists of the SoC and of the root port; without allocation and property
    failures it returns 0. References are balanced but for those of nodes the
    searches found. *)
Theorem attach_runtime_nodes_spec pcie soc ioss group rp ls lr lp s :
  dts_ok s → syms_ok s → deps pcie soc ioss group rp ls lr lp s →
  dev_of (dt_nodes (tree s)) ls lr = None →
  wp pcie_attach_runtime_nodes (injection_post pcie soc ioss group rp ls lr s) s.
Proof. apply attach_runtime_nodes_wp. Qed.

(** When the three nodes are there already, a run returns 0 and leaves the
    tree as it is; each of the three keeps one reference more. *)
Theorem attach_runtime_nodes_present pcie soc ioss group rp ls lr lp s rx tx dev :
  deps pcie soc ioss group rp ls lr lp s →
  first_named (dt_nodes (tree s)) "r8125_rx" ls = Some rx →
  first_named (dt_nodes (tree s)) "r8125_tx" ls = Some tx →
  first_named (dt_nodes (tree s)) "realtek,rtl8125" lr = Some dev →
  wp pcie_attach_runtime_nodes (λ r s', r = 0 ∧ dt_nodes (tree s') = dt_nodes (tree s) ∧
    live s' = live s ∧
    ∀ x, dt_refs (tree s') x = dt_refs (tree s) x + one_if (Some rx) x + one_if (Some tx) x
           + one_if (Some dev) x) s.
Proof.
  intros [Dp Ds Di Dg Dr Ls Lr Lp Dd] Frx Ftx Fdev.
  eapply runtime_frame; [done..|]. intros s1 (t1 & -> & N1 & C1) _. simpl.
  apply (attach_body_wp _ _ _ _ _ ls lr); [simpl; by rewrite N1..|]. intros s2 (t2 & -> & N2 & C2).
  simpl in *. rewrite N1 in *. unfold kept, dev_of, tx_of, rx_of in *. rewrite Frx, Ftx, Fdev in *.
  apply wp_ret. intros s3 (t3 & -> & N3 & C3). simpl in *. split_and!; [done|congruence|done|].
  intros x. rewrite C3, C2, C1. lia.
Qed.

(** When a dependency is missing, the run returns -ENODEV, changes nothing
    and gives back every reference it took. *)
Theorem attach_runtime_nodes_no_deps pcie soc ioss group rp lp s :
  pcie_node s = Some pcie → finds (dt_nodes (tree s)) SOC_PATH soc →
  finds (dt_nodes (tree s)) IOSS_ROOT_PATH ioss → finds (dt_nodes (tree s)) IPA_ETH_GROUP1_PATH group →
  children (dt_nodes (tree s)) pcie lp → rp = first_named (dt_nodes (tree s)) "pcie0_rp" lp →
  soc = None ∨ ioss = None ∨ group = None ∨ rp = None →
  wp pcie_attach_runtime_nodes (λ r s', r = - ENODEV ∧ dt_nodes (tree s') = dt_nodes (tree s) ∧
    live s' = live s ∧ ∀ x, dt_refs (tree s') x = dt_refs (tree s) x) s.
Proof.
  intros Dp Ds Di Dg Lp Dr Hno. eapply runtime_frame; [done..|]. intros s1 (t1 & -> & N1 & C1) _.
  assert (∀ P : Z → Z → Z → Z → D Z, match soc, ioss, group, rp with
     | Some soc, Some ioss, Some group, Some rp => P soc ioss group rp
     | _, _, _, _ => ret (- ENODEV) end = ret (- ENODEV)) as ->.
  { intros P. destruct soc, ioss, group, rp; try done. naive_solver. }
  apply wp_ret. intros s2 (t2 & -> & N2 & C2). simpl in *. split_and!; [done|congruence|done|].
  intros x. rewrite C2, C1. lia.
Qed.

(** Building a property, whichever of its allocations fails, either gives
    the property with that name and value, owning exactly its new blocks, or
    nothing and the set of live blocks as before (so a failing builder does not
    leak, and does not free what is not its own). *)
Theorem property_builders :
  (∀ name v, builds_prop (pcie_alloc_property name v) name v) ∧
  (∀ name, builds_prop (pcie_alloc_bool_property name) name []) ∧
  (∀ name v, builds_prop (pcie_alloc_string_property name v) name (cstr v)) ∧
  (∀ name v, builds_prop (pcie_alloc_u32_property name v) name (be32 v)) ∧
  (∀ name vs, builds_prop (pcie_alloc_u32_array_property name vs) name (concat (be32 <$> vs))) ∧
  (∀ name vs, builds_prop (pcie_alloc_string_list_property name vs) name (concat (cstr <$> vs))).
Proof.
  split_and!; intros; [apply alloc_property_built|apply bool_built|apply string_built|apply u32_built
    |apply u32_array_built|apply string_list_built].
Qed.
End attach.
