(* ===== verification/Pmds.v ===== *)
(** * The PCIe enabler: the PMDS fix and its rechecks

    [pcie_enabler_non_es_v1.c], the half that copies the page-middle-directory
    pointer and range of the IPA application processor's SMMU context into the
    Ethernet contexts, once at load time and then a bounded number of times. *)
From stdpp Require Import base tactics list gmap strings numbers relations.
From Stdlib Require Import ZArith Lia.
From S2P Require Import Prelude.

Definition PMDS_RECHECK_MS : Z := 2000.
Definition PMDS_RECHECK_MAX : Z := 15.

(** The fields of [struct av8l_fast_io_pgtable] the module copies. *)
Record av8l_fast_io_pgtable := Av8l { pmds : Z; pg_base : Z; pg_end : Z }.

#[export] Instance av8l_eq_dec : EqDecision av8l_fast_io_pgtable.
Proof. solve_decision. Defined.

(** Device references, the page table data by address, and the delayed work
    with its counter: [queued] is the delay of the pending run. *)
Record pmst := Pmst {
  dev_refs : Z → Z; pg : gmap Z av8l_fast_io_pgtable;
  pmds_recheck_count : Z; pmds_recheck_work : option Z }.

Abbreviation P := (M pmst).

Definition set_refs (s : pmst) r := Pmst r (pg s) (pmds_recheck_count s) (pmds_recheck_work s).
Definition set_pg (s : pmst) g := Pmst (dev_refs s) g (pmds_recheck_count s) (pmds_recheck_work s).
Definition set_count (s : pmst) c := Pmst (dev_refs s) (pg s) c (pmds_recheck_work s).
Definition set_work (s : pmst) w := Pmst (dev_refs s) (pg s) (pmds_recheck_count s) w.

(** ** The kernel's side *)
(** A device: its address and [dev_name]. *)
Abbreviation device := (Z * string)%type.

Class SmmuApi := {
  bus_for_each_dev : ∀ {A}, (device → A → P (Z * A)) → A → P (Z * A);
  iommu_get_domain_for_dev : Z → option Z;
  (* [pgtbl_ops[0]] of the [arm_smmu_domain] around the domain *)
  domain_pgtbl_ops0 : Z → option Z;
  iof_pgtable_ops_to_data : Z → Z;
  is_vmalloc_addr : Z → bool }.

(** [bus_for_each_dev] calls the function on each device of the bus, in order,
    until it returns something other than 0. *)
Fixpoint each_dev {A} (l : list device) (f : device → A → P (Z * A)) (a : A) : P (Z * A) :=
  match l with
  | [] => ret (0, a)
  | d :: l' => let* '(r, a') := f d a in if r =? 0 then each_dev l' f a' else ret (r, a')
  end.

Class SmmuOk `{SmmuApi} := {
  platform_bus : list device;
  ok_bus : ∀ A (f : device → A → P (Z * A)) a s, bus_for_each_dev f a s = each_dev platform_bus f a s }.

(** ** Operations *)
Definition add_ref (d k : Z) : P unit :=
  modify (λ s, set_refs s (λ x, if decide (x = d) then dev_refs s x + k else dev_refs s x)).

Definition get_device (d : Z) : P Z := add_ref d 1 ;; ret d.
Definition put_device (d : Z) : P unit := add_ref d (-1).

(** [nlen >= slen && strcmp(name + nlen - slen, suffix) == 0]. *)
Definition name_matches (name suffix : string) : bool :=
  let nlen := String.length name in
  let slen := String.length suffix in
  Nat.leb slen nlen && String.eqb (String.substring (nlen - slen) slen name) suffix.

Definition smmu_dev_match (suffix : string) (dev : device) (found : option Z) : P (Z * option Z) :=
  if name_matches dev.2 suffix
  then let* d := get_device dev.1 in ret (1, Some d)
  else ret (0, found).

Definition load_pg (a : Z) : P av8l_fast_io_pgtable := λ s,
  match pg s !! a with Some d => Some (d, s) | None => None end.
Definition store_pg (a : Z) (d : av8l_fast_io_pgtable) : P unit :=
  modify (λ s, set_pg s (<[a := d]> (pg s))).

Section pmds.
Context `{SmmuApi}.

Definition find_ipa_smmu_dev (name_suffix : string) : P (option Z) :=
  let* '(_, found) := bus_for_each_dev (smmu_dev_match name_suffix) None in
  ret found.

(** Behind the device test. *)
Definition fix_pair (ap_dev slave_dev : Z) : P Z :=
  match iommu_get_domain_for_dev ap_dev, iommu_get_domain_for_dev slave_dev with
  | Some ap_domain, Some slave_domain =>
      match domain_pgtbl_ops0 ap_domain, domain_pgtbl_ops0 slave_domain with
      | Some ap_ops, Some slave_ops =>
          let ap_data := iof_pgtable_ops_to_data ap_ops in
          let slave_data := iof_pgtable_ops_to_data slave_ops in
          let* ap := load_pg ap_data in
          let* slave := load_pg slave_data in
          if negb (is_vmalloc_addr (pmds ap)) then ret 0
          else if negb (pmds slave =? pmds ap) || negb (pg_base slave =? pg_base ap)
                  || negb (pg_end slave =? pg_end ap)
          then store_pg slave_data (Av8l (pmds ap) (pg_base ap) (pg_end ap)) ;; ret 1
          else ret 0
      | _, _ => ret 0
      end
  | _, _ => ret 0
  end.

Definition put_found (d : option Z) : P unit :=
  match d with Some d => put_device d | None => ret tt end.

Definition fix_one_slave_pmds (slave_suffix : string) : P Z :=
  let* ap_dev := find_ipa_smmu_dev ":ipa_smmu_ap" in
  let* slave_dev := find_ipa_smmu_dev slave_suffix in
  let* fixed := (match ap_dev, slave_dev with
                 | Some a, Some b => fix_pair a b
                 | _, _ => ret 0
                 end) in
  put_found ap_dev ;; put_found slave_dev ;;
  ret fixed.

(** The result is the [changed] the pass logs. *)
Definition run_pmds_fix_pass : P Z :=
  let* a := fix_one_slave_pmds ":ipa_smmu_eth" in
  let* b := fix_one_slave_pmds ":ipa_smmu_eth1" in
  ret (Z.lor a b).

Definition schedule_delayed_work (ms : Z) : P unit := modify (λ s, set_work s (Some ms)).

(** The work is no longer pending when its function runs. *)
Definition pmds_recheck_fn : P unit :=
  let* _ := run_pmds_fix_pass in
  modify (λ s, set_count s (pmds_recheck_count s + 1)) ;;
  let* c := gets pmds_recheck_count in
  when c <? PMDS_RECHECK_MAX then schedule_delayed_work PMDS_RECHECK_MS.

Definition start_pmds_recheck : P unit :=
  modify (λ s, set_count s 0) ;;
  schedule_delayed_work PMDS_RECHECK_MS.

(** ** Specification *)
(** The first device of the bus with the suffix. *)
Fixpoint dev_with (suffix : string) (l : list device) : option Z :=
  match l with
  | [] => None
  | d :: l' => if name_matches d.2 suffix then Some d.1 else dev_with suffix l'
  end.

Context `{!SmmuOk}.

(** Where the page table data of the device with the suffix is. *)
Definition data_of (suffix : string) : option Z :=
  d ← dev_with suffix platform_bus; dom ← iommu_get_domain_for_dev d;
  ops ← domain_pgtbl_ops0 dom; Some (iof_pgtable_ops_to_data ops).

Definition AP : string := ":ipa_smmu_ap".
Definition slaves : list string := [":ipa_smmu_eth"; ":ipa_smmu_eth1"]%string.

(** The page tables after one slave is fixed. *)
Definition fixed_pg (suffix : string) (g : gmap Z av8l_fast_io_pgtable) : gmap Z av8l_fast_io_pgtable :=
  match data_of AP, data_of suffix with
  | Some a, Some b =>
      match g !! a with
      | Some d => if is_vmalloc_addr (pmds d) then <[b := d]> g else g
      | None => g
      end
  | _, _ => g
  end.

(** The addresses the drivers hand out are mapped. *)
Definition pg_ok (g : gmap Z av8l_fast_io_pgtable) : Prop :=
  ∀ suffix a, suffix ∈ AP :: slaves → data_of suffix = Some a → is_Some (g !! a).

Lemma substring_suffix a b : String.substring (String.length a) (String.length b) (a +:+ b) = b.
Proof.
  induction a as [|c a IH]; simpl; [|done]. induction b as [|c b IHb]; simpl; [done|]. by f_equal.
Qed.

Lemma substring_split n s : (n <= String.length s)%nat →
  s = String.substring 0 n s +:+ String.substring n (String.length s - n) s.
Proof.
  revert s. induction n as [|n IH]; intros s Hn.
  - rewrite Nat.sub_0_r. replace (String.substring 0 0 s) with ""%string by by destruct s.
    clear Hn. induction s as [|c s IHs]; [done|]. apply (f_equal (String c)), IHs.
  - destruct s as [|c s]; simpl in *; [lia|]. apply (f_equal (String c)), IH. lia.
Qed.

Lemma length_app_string a b : String.length (a +:+ b) = (String.length a + String.length b)%nat.
Proof. induction a; simpl; [done|]. by rewrite IHa. Qed.

(** The device filter accepts exactly the names that end in the suffix. *)
Theorem name_matches_suffix name suffix :
  name_matches name suffix = true ↔ ∃ pre, name = pre +:+ suffix.
Proof.
  unfold name_matches. rewrite andb_true_iff, Nat.leb_le, String.eqb_eq. split.
  - intros [Hl He]. exists (String.substring 0 (String.length name - String.length suffix) name).
    rewrite <- He at 2. rewrite (substring_split (String.length name - String.length suffix) name) at 1 by lia.
    f_equal. f_equal. lia.
  - intros [pre ->]. rewrite length_app_string. split; [lia|].
    replace (_ + _ - _)%nat with (String.length pre) by lia. apply substring_suffix.
Qed.

(** ** Finding a device *)
Definition plus_ref (o : option Z) (k : Z) (f : Z → Z) : Z → Z :=
  λ x, if decide (o = Some x) then f x + k else f x.

(** Only reference counts differ, and nowhere in value. *)
Definition same_refs (s s' : pmst) : Prop :=
  (∀ x, dev_refs s' x = dev_refs s x) ∧ pmds_recheck_count s' = pmds_recheck_count s ∧
  pmds_recheck_work s' = pmds_recheck_work s.

Lemma each_dev_wp suffix l s :
  wp (each_dev l (smmu_dev_match suffix) None)
     (λ r s', r.2 = dev_with suffix l ∧ pg s' = pg s ∧
        pmds_recheck_count s' = pmds_recheck_count s ∧ pmds_recheck_work s' = pmds_recheck_work s ∧
        ∀ x, dev_refs s' x = plus_ref (dev_with suffix l) 1 (dev_refs s) x) s.
Proof.
  induction l as [|[d nm] l IH]; simpl; [by apply wp_ret|]. apply wp_bind. unfold smmu_dev_match. simpl.
  destruct (name_matches nm suffix).
  - unfold get_device, add_ref. wp_steps. simpl. split_and!; [done..|]. intros x. unfold plus_ref, set_refs. simpl.
    repeat case_decide; congruence.
  - apply wp_ret. exact IH.
Qed.

(** The first device with the suffix, holding one reference more. *)
Lemma find_dev_wp suffix s :
  wp (find_ipa_smmu_dev suffix)
     (λ r s', r = dev_with suffix platform_bus ∧ pg s' = pg s ∧
        pmds_recheck_count s' = pmds_recheck_count s ∧ pmds_recheck_work s' = pmds_recheck_work s ∧
        ∀ x, dev_refs s' x = plus_ref r 1 (dev_refs s) x) s.
Proof.
  unfold find_ipa_smmu_dev. apply wp_bind. unfold wp at 1. rewrite ok_bus.
  pose proof (each_dev_wp suffix platform_bus s) as Hw. unfold wp in Hw.
  destruct (each_dev _ _ _ _) as [[[r o] s']|]; [|done]. simpl in Hw.
  destruct Hw as (-> & ? & ? & ? & ?). by apply wp_ret.
Qed.

Lemma put_found_wp o Q s :
  (∀ s', pg s' = pg s → pmds_recheck_count s' = pmds_recheck_count s →
     pmds_recheck_work s' = pmds_recheck_work s →
     (∀ x, dev_refs s' x = plus_ref o (-1) (dev_refs s) x) → Q tt s') →
  wp (put_found o) Q s.
Proof.
  intros HQ. destruct o as [d|]; simpl.
  - unfold put_device, add_ref. apply wp_modify, HQ; try done. intros x. unfold plus_ref, set_refs. simpl.
    repeat case_decide; congruence.
  - apply wp_ret. by apply HQ.
Qed.

(** ** Fixing one context *)
Lemma av8l_differs (a b : av8l_fast_io_pgtable) :
  negb (pmds a =? pmds b) || negb (pg_base a =? pg_base b) || negb (pg_end a =? pg_end b) = true ↔ a ≠ b.
Proof.
  destruct a as [x y z], b as [x' y' z']. simpl. rewrite !orb_true_iff, !negb_true_iff, !Z.eqb_neq.
  split; [intros [[?|?]|?] [=]; congruence|]. intros Hne.
  destruct (decide (x = x')); [|auto]. destruct (decide (y = y')); [|auto]. right. congruence.
Qed.

Lemma fix_pair_wp suffix a b s : pg_ok (pg s) → suffix ∈ slaves →
  dev_with AP platform_bus = Some a → dev_with suffix platform_bus = Some b →
  wp (fix_pair a b) (λ r s', s' = set_pg s (fixed_pg suffix (pg s)) ∧
    r = if decide (fixed_pg suffix (pg s) = pg s) then 0 else 1) s.
Proof.
  intros Hok Hs Ea Eb. unfold fix_pair.
  assert (data_of AP = dom ← iommu_get_domain_for_dev a; ops ← domain_pgtbl_ops0 dom;
    Some (iof_pgtable_ops_to_data ops)) as Da by (unfold data_of; by rewrite Ea).
  assert (data_of suffix = dom ← iommu_get_domain_for_dev b; ops ← domain_pgtbl_ops0 dom;
    Some (iof_pgtable_ops_to_data ops)) as Db by (unfold data_of; by rewrite Eb).
  assert (∀ Q : Z → pmst → Prop, fixed_pg suffix (pg s) = pg s →
    (Q 0 s → wp (ret 0) Q s) ∧ (0 = if decide (fixed_pg suffix (pg s) = pg s) then 0 else 1)
      ∧ s = set_pg s (fixed_pg suffix (pg s))) as Hno.
  { intros Q E. split_and!; [done|by rewrite decide_True|rewrite E; by destruct s]. }
  unfold fixed_pg in *.
  destruct (iommu_get_domain_for_dev a) as [da|]; simpl in Da; [|rewrite Da in *; by apply wp_ret, and_comm, (Hno (λ _ _, True))].
  destruct (iommu_get_domain_for_dev b) as [db|]; simpl in Db.
  2:{ rewrite Db in *. apply wp_ret, and_comm, (Hno (λ _ _, True)). by destruct (data_of AP). }
  destruct (domain_pgtbl_ops0 da) as [oa|]; simpl in Da; [|rewrite Da in *; by apply wp_ret, and_comm, (Hno (λ _ _, True))].
  destruct (domain_pgtbl_ops0 db) as [ob|]; simpl in Db.
  2:{ rewrite Db in *. apply wp_ret, and_comm, (Hno (λ _ _, True)). by destruct (data_of AP). }
  destruct (Hok AP _ ltac:(left) Da) as [va Ma]. destruct (Hok suffix _ ltac:(by right) Db) as [vb Mb].
  rewrite Da, Db in *. rewrite Ma in *.
  apply wp_bind. unfold wp at 1, load_pg. rewrite Ma. apply wp_bind. unfold wp at 1. rewrite Mb.
  destruct (is_vmalloc_addr (pmds va)); simpl negb; cbv iota.
  2:{ apply wp_ret, and_comm, (Hno (λ _ _, True)). done. }
  destruct (negb _ || _ || _) eqn:E.
  - apply av8l_differs in E. unfold store_pg. wp_steps. destruct va as [x y z]. simpl. split; [done|].
    rewrite decide_False; [done|]. intros Hx. apply (f_equal (λ g, g !! iof_pgtable_ops_to_data ob)) in Hx.
    rewrite lookup_insert_eq in Hx. congruence.
  - assert (vb = va) as ->. { destruct (decide (vb = va)); [done|]. apply av8l_differs in n. congruence. }
    apply wp_ret, and_comm, (Hno (λ _ _, True)). by apply insert_id.
Qed.

Lemma fix_one_wp suffix s : pg_ok (pg s) → suffix ∈ slaves →
  wp (fix_one_slave_pmds suffix)
     (λ r s', pg s' = fixed_pg suffix (pg s) ∧ same_refs s s' ∧
              r = if decide (fixed_pg suffix (pg s) = pg s) then 0 else 1) s.
Proof.
  intros Hok Hs. unfold fix_one_slave_pmds.
  apply wp_bind. eapply wp_mono; [apply find_dev_wp|]. intros oa s1 (Ea & G1 & C1 & W1 & R1).
  apply wp_bind. eapply wp_mono; [apply find_dev_wp|]. intros ob s2 (Eb & G2 & C2 & W2 & R2).
  apply wp_bind. eapply (wp_mono _ (λ r s', s' = set_pg s2 (fixed_pg suffix (pg s)) ∧
    r = if decide (fixed_pg suffix (pg s) = pg s) then 0 else 1)).
  { rewrite <- G1, <- G2 in *. assert (oa = None ∨ ob = None → fixed_pg suffix (pg s2) = pg s2) as Hn.
    { unfold fixed_pg, data_of. fold AP in Ea. unfold AP in *. rewrite <- Ea, <- Eb.
      intros [-> | ->]; simpl; [done|]. by destruct (_ ≫= _). }
    destruct oa as [a|], ob as [b|].
    1:{ by apply fix_pair_wp. }
    all: apply wp_ret; rewrite Hn by auto; rewrite decide_True by done; by destruct s2. }
  intros r s3 [-> ->]. apply wp_bind, put_found_wp. intros s4 G4 C4 W4 R4.
  apply wp_bind, put_found_wp. intros s5 G5 C5 W5 R5. apply wp_ret. split; [by rewrite G5, G4|].
  split; [|done]. unfold same_refs. simpl in *. split_and!; [|congruence..]. intros x.
  rewrite R5. unfold plus_ref. rewrite R4. unfold plus_ref. rewrite R2. unfold plus_ref. rewrite R1.
  unfold plus_ref. repeat case_decide; lia.
Qed.

Lemma same_refs_trans s1 s2 s3 : same_refs s1 s2 → same_refs s2 s3 → same_refs s1 s3.
Proof. intros (R & ? & ?) (R' & ? & ?). split_and!; [|congruence..]. intros x. by rewrite R', R. Qed.

Lemma fixed_pg_some suffix g a : is_Some (g !! a) → is_Some (fixed_pg suffix g !! a).
Proof.
  intros [d E]. unfold fixed_pg. destruct (data_of AP); [|eauto]. destruct (data_of suffix) as [b|]; [|eauto].
  destruct (g !! z) as [v|]; [|eauto]. destruct (is_vmalloc_addr _); [|eauto].
  destruct (decide (a = b)) as [->|]; [rewrite lookup_insert_eq|rewrite lookup_insert_ne by done]; eauto.
Qed.

Lemma fixed_pg_ok suffix g : pg_ok g → pg_ok (fixed_pg suffix g).
Proof. intros Hok sfx a Hin E. apply fixed_pg_some. by eapply Hok. Qed.

(** The application processor's own data never changes. *)
Lemma fixed_pg_ap suffix g a : data_of AP = Some a → fixed_pg suffix g !! a = g !! a.
Proof.
  intros E. unfold fixed_pg. rewrite E. destruct (data_of suffix) as [b|]; [|done].
  destruct (g !! a) as [d|] eqn:Ea; [|done]. destruct (is_vmalloc_addr _); [|done].
  destruct (decide (a = b)) as [->|]; [by rewrite lookup_insert_eq|by rewrite lookup_insert_ne].
Qed.

Definition pass_pg (g : gmap Z av8l_fast_io_pgtable) : gmap Z av8l_fast_io_pgtable :=
  fixed_pg ":ipa_smmu_eth1" (fixed_pg ":ipa_smmu_eth" g).

Lemma pass_wp s : pg_ok (pg s) →
  wp run_pmds_fix_pass (λ r s', pg s' = pass_pg (pg s) ∧ same_refs s s' ∧
    (r = 0 → pg s' = pg s) ∧ pg_ok (pg s')) s.
Proof.
  intros Hok. unfold run_pmds_fix_pass. apply wp_bind. eapply wp_mono.
  { apply fix_one_wp; [done|]. left. }
  intros r1 s1 (G1 & R1 & E1). apply wp_bind. eapply wp_mono.
  { apply fix_one_wp; [rewrite G1; by apply fixed_pg_ok|]. right. left. }
  intros r2 s2 (G2 & R2 & E2). apply wp_ret. rewrite G2, G1. split; [done|].
  split; [by eapply same_refs_trans|]. split; [|by apply fixed_pg_ok, fixed_pg_ok].
  intros [H1 H2]%Z.lor_eq_0_iff. rewrite H1 in E1. rewrite H2 in E2. rewrite G1 in E2.
  case_decide; [|done]. case_decide; [|done]. congruence.
Qed.

(** A pass copies the application processor's pmds, base and end into each
    Ethernet context whose data it can reach, provided the pmds are in vmalloc
    space, changes nothing else, gives back every device reference, and says
    whether it changed anything. *)
Theorem run_pmds_fix_pass_spec s : pg_ok (pg s) →
  wp run_pmds_fix_pass (λ r s',
    (∀ x, dev_refs s' x = dev_refs s x) ∧
    (∀ a d, data_of AP = Some a → pg s !! a = Some d → pg s' !! a = Some d ∧
       ∀ suffix b, suffix ∈ slaves → data_of suffix = Some b → is_vmalloc_addr (pmds d) = true →
         pg s' !! b = Some d) ∧
    (∀ b, (∀ suffix, suffix ∈ slaves → data_of suffix ≠ Some b) → pg s' !! b = pg s !! b) ∧
    (∀ a d, data_of AP = Some a → pg s !! a = Some d → is_vmalloc_addr (pmds d) = false → pg s' = pg s) ∧
    (r = 0 → pg s' = pg s)) s.
Proof.
  intros Hok. eapply wp_mono; [by apply pass_wp|]. intros r s' (-> & (HR & _) & Hz & _).
  assert (∀ b sfx g, data_of sfx ≠ Some b → fixed_pg sfx g !! b = g !! b) as Hother.
  { intros b sfx g Hb. unfold fixed_pg. destruct (data_of AP); [|done].
    destruct (data_of sfx) as [c|]; [|done]. destruct (g !! z); [|done].
    destruct (is_vmalloc_addr _); [|done]. rewrite lookup_insert_ne; congruence. }
  split_and!; [done| | | |done].
  - intros a d Ea Ed. split; [unfold pass_pg; by rewrite !(fixed_pg_ap _ _ a Ea)|].
    assert (∀ sfx g b, g !! a = Some d → data_of sfx = Some b → is_vmalloc_addr (pmds d) = true →
      fixed_pg sfx g !! b = Some d) as Hset.
    { intros sfx g b Eg Eb Ev. unfold fixed_pg. rewrite Ea, Eb, Eg, Ev. by rewrite lookup_insert_eq. }
    intros sfx b Hin Eb Ev. unfold pass_pg.
    apply elem_of_cons in Hin as [-> | ->%list_elem_of_singleton].
    + destruct (decide (data_of ":ipa_smmu_eth1" = Some b)) as [E1|E1].
      * apply Hset; [by rewrite (fixed_pg_ap _ _ a Ea)|done|done].
      * rewrite Hother by done. by apply Hset.
    + apply Hset; [by rewrite (fixed_pg_ap _ _ a Ea)|done|done].
  - intros b Hb. unfold pass_pg. rewrite !Hother; [done|apply Hb; left|apply Hb; right; left].
  - intros a d Ea Ed Ev. assert (∀ sfx g, g !! a = Some d → fixed_pg sfx g = g) as Hskip.
    { intros sfx g Eg. unfold fixed_pg. rewrite Ea, Eg, Ev. by destruct (data_of sfx). }
    unfold pass_pg. rewrite (Hskip _ (pg s)) by done. by apply Hskip.
Qed.

(** A second pass finds nothing to change. *)
Theorem run_pmds_fix_pass_idempotent s : pg_ok (pg s) →
  wp (let* _ := run_pmds_fix_pass in run_pmds_fix_pass) (λ r s', r = 0 ∧ pg s' = pass_pg (pg s)) s.
Proof.
  intros Hok. apply wp_bind. eapply wp_mono; [by apply pass_wp|]. intros r1 s1 (G1 & _ & _ & K1).
  assert (∀ sfx, sfx ∈ slaves → fixed_pg sfx (pg s1) = pg s1) as Hst.
  { intros sfx Hin. rewrite G1. unfold fixed_pg at 1. destruct (data_of AP) as [a|] eqn:Ea; [|done].
    destruct (data_of sfx) as [b|] eqn:Eb; [|done]. unfold pass_pg at 1. rewrite !(fixed_pg_ap _ _ a Ea).
    destruct (pg s !! a) as [d|] eqn:Ed; [|done]. destruct (is_vmalloc_addr _) eqn:Ev; [|done].
    apply insert_id. unfold pass_pg.
    apply elem_of_cons in Hin as [-> | ->%list_elem_of_singleton].
    - unfold fixed_pg. rewrite Ea, Eb, Ed, Ev. destruct (data_of ":ipa_smmu_eth1") as [c|]; [|by rewrite lookup_insert_eq].
      assert (<[b:=d]> (pg s) !! a = Some d) as ->.
      { destruct (decide (a = b)) as [->|]; [by rewrite lookup_insert_eq|by rewrite lookup_insert_ne]. }
      rewrite Ev. destruct (decide (b = c)) as [->|]; [by rewrite lookup_insert_eq|].
      by rewrite lookup_insert_ne, lookup_insert_eq.
    - unfold fixed_pg at 1. rewrite Ea, Eb. rewrite (fixed_pg_ap _ _ a Ea), Ed, Ev. by rewrite lookup_insert_eq. }
  unfold run_pmds_fix_pass. apply wp_bind. eapply wp_mono; [apply fix_one_wp; [done|left]|].
  intros r2 s2 (G2 & _ & E2). rewrite Hst in G2, E2 by left. rewrite decide_True in E2 by done.
  apply wp_bind. eapply wp_mono; [apply fix_one_wp; [by rewrite G2|right; left]|].
  intros r3 s3 (G3 & _ & E3). rewrite G2, Hst in G3, E3 by (right; left). rewrite decide_True in E3 by done.
  apply wp_ret. subst r2 r3. split; [done|congruence].
Qed.

(** ** The rechecks *)
(** What happens after loading: other drivers rewrite page table data, and the
    pending work runs ([true]). *)
Inductive rstep : pmst → bool → pmst → Prop :=
  | rstep_env s g : pg_ok g → rstep s false (set_pg s g)
  | rstep_fire s ms s' : pmds_recheck_work s = Some ms →
      pmds_recheck_fn (set_work s None) = Some (tt, s') → rstep s true s'.

Inductive rsteps (s : pmst) : list bool → pmst → Prop :=
  | rsteps_nil : rsteps s [] s
  | rsteps_snoc tr s1 b s2 : rsteps s tr s1 → rstep s1 b s2 → rsteps s (tr ++ [b]) s2.

Definition fires (tr : list bool) : Z := Z.of_nat (length (filter (λ b, b = true) tr)).

Lemma fires_snoc tr b : fires (tr ++ [b]) = fires tr + (if b then 1 else 0).
Proof. unfold fires. rewrite filter_app, length_app. destruct b; simpl; lia. Qed.

(** The state after [k] rechecks. *)
Definition rechecked (k : Z) (s : pmst) : Prop :=
  pg_ok (pg s) ∧ pmds_recheck_count s = k ∧ k ≤ PMDS_RECHECK_MAX ∧
  pmds_recheck_work s = if k <? PMDS_RECHECK_MAX then Some PMDS_RECHECK_MS else None.

Lemma recheck_fn_wp k s : pg_ok (pg s) → pmds_recheck_count s = k → k < PMDS_RECHECK_MAX →
  pmds_recheck_work s = None →
  wp pmds_recheck_fn (λ _ s', rechecked (k + 1) s' ∧ pg s' = pass_pg (pg s)) s.
Proof.
  intros Hok Hc Hk Hw. unfold pmds_recheck_fn. apply wp_bind. eapply wp_mono; [by apply pass_wp|].
  intros r s1 (G1 & (_ & C1 & W1) & _ & K1). wp_steps. simpl. rewrite C1, Hc.
  unfold rechecked. destruct (Z.ltb_spec (k + 1) PMDS_RECHECK_MAX).
  - unfold schedule_delayed_work. wp_steps. simpl. split_and!; [done|congruence|lia|done|done].
  - apply wp_ret. simpl. split_and!; [done|congruence|lia|congruence|done].
Qed.

Lemma rstep_rechecked k s b s' : rechecked k s → rstep s b s' →
  rechecked (if b then k + 1 else k) s'.
Proof.
  intros (Hok & Hc & Hk & Hw) Hs. inversion Hs as [? g Hg|? ms ? Ew Ef]; subst.
  - unfold rechecked. by simpl.
  - rewrite Ew in Hw. destruct (Z.ltb_spec (pmds_recheck_count s) PMDS_RECHECK_MAX); [|done].
    pose proof (recheck_fn_wp (pmds_recheck_count s) (set_work s None) Hok eq_refl ltac:(lia) eq_refl) as Hwp.
    eapply wp_run in Hwp; [|exact Ef]. by destruct Hwp.
Qed.

Lemma rsteps_rechecked k s tr s' : rechecked k s → rsteps s tr s' → rechecked (k + fires tr) s'.
Proof.
  intros Hr. induction 1 as [|tr s1 b s2 _ IH Hs].
  - unfold fires. simpl. by rewrite Z.add_0_r.
  - rewrite fires_snoc. pose proof (rstep_rechecked _ _ _ _ IH Hs) as Hn. destruct b.
    + by rewrite Z.add_assoc.
    + by rewrite Z.add_0_r.
Qed.

Lemma start_rechecked s s0 : pg_ok (pg s) → start_pmds_recheck s = Some (tt, s0) → rechecked 0 s0.
Proof. intros Hok [= <-]. unfold rechecked. by simpl. Qed.

(** C38: From [start_pmds_recheck] on, whatever other drivers do to the page
    tables in between, the work is pending with the 2000 ms delay until it has
    run exactly PMDS_RECHECK_MAX times, each pending run can run, and after
    the last one nothing is pending any more. *)
Theorem recheck_bounded s s0 tr s' : pg_ok (pg s) → start_pmds_recheck s = Some (tt, s0) →
  rsteps s0 tr s' →
  fires tr ≤ 15 ∧ pmds_recheck_count s' = fires tr ∧
  (fires tr < 15 → pmds_recheck_work s' = Some 2000 ∧ ∃ s'', rstep s' true s'' ∧ pg s'' = pass_pg (pg s')) ∧
  (fires tr = 15 → pmds_recheck_work s' = None ∧ ∀ s'', ¬ rstep s' true s'').
Proof.
  intros Hok Hs Hr. pose proof (rsteps_rechecked _ _ _ _ (start_rechecked _ _ Hok Hs) Hr) as (Ho & Hc & Hk & Hw).
  rewrite Z.add_0_l in *. unfold PMDS_RECHECK_MAX in *. split_and!; [done|done|..].
  - intros Hlt. destruct (Z.ltb_spec (fires tr) 15); [|lia]. split; [done|].
    pose proof (recheck_fn_wp (fires tr) (set_work s' None) Ho Hc ltac:(done) eq_refl) as Hwp.
    apply wp_elim in Hwp as ([] & s'' & E & _ & Hp). exists s''. split; [by eapply rstep_fire|done].
  - intros He. destruct (Z.ltb_spec (fires tr) 15); [lia|]. split; [done|].
    intros s'' Hx. inversion Hx; congruence.
Qed.
End pmds.
