(* ===== verification/EnablerInit.v ===== *)
(** * The PCIe enabler: loading and unloading the module

    [pcie_enabler_non_es_init] and [_exit] of [pcie_enabler_non_es_v1.c]: symbol
    resolution, the search for the root complex, injection, device creation and
    the PMDS fix, composed over both halves of the module's state. *)
From stdpp Require Import base tactics list gmap strings numbers sets.
From Stdlib Require Import ZArith Lia.
From S2P Require Import Prelude DeviceTree Enabler EnablerSpec EnablerAttach Pmds.

(** The module's state; [devs] are the platform devices that exist. *)
Record mst := Mst { md : dts; mp : pmst; pcie_pdev : option Z; devs : gset Z }.

Definition on_md {A} (m : D A) : M mst A := λ s,
  match m (md s) with Some (a, d) => Some (a, Mst d (mp s) (pcie_pdev s) (devs s)) | None => None end.
Definition on_mp {A} (m : P A) : M mst A := λ s,
  match m (mp s) with Some (a, p) => Some (a, Mst (md s) p (pcie_pdev s) (devs s)) | None => None end.
Definition set_pdev (o : option Z) : M mst unit := modify (λ s, Mst (md s) (mp s) o (devs s)).

(** [of_platform_device_create]: a new device, or none. *)
Class PlatformApi := { of_platform_device_create : dtree → Z → option Z }.

Lemma wp_on_md {A} (m : D A) (Q : A → mst → Prop) s :
  wp m (λ a d, Q a (Mst d (mp s) (pcie_pdev s) (devs s))) (md s) → wp (on_md m) Q s.
Proof. unfold wp, on_md. by destruct (m (md s)) as [[a d]|]. Qed.
Lemma wp_on_mp {A} (m : P A) (Q : A → mst → Prop) s :
  wp m (λ a p, Q a (Mst (md s) p (pcie_pdev s) (devs s))) (mp s) → wp (on_mp m) Q s.
Proof. unfold wp, on_mp. by destruct (m (mp s)) as [[a p]|]. Qed.

Section init.
Context `{OfApi, SmmuApi, PlatformApi}.

Definition create_device (n : Z) : M mst (option Z) := λ s,
  match of_platform_device_create (tree (md s)) n with
  | Some d => Some (Some d, Mst (md s) (mp s) (pcie_pdev s) ({[ d ]} ∪ devs s))
  | None => Some (None, s)
  end.
Definition of_device_unregister (d : Z) : M mst unit :=
  modify (λ s, Mst (md s) (mp s) (pcie_pdev s) (devs s ∖ {[ d ]})).

Lemma create_wp n (Q : option Z → mst → Prop) s :
  Q (of_platform_device_create (tree (md s)) n)
    (Mst (md s) (mp s) (pcie_pdev s)
       (from_option (λ d, {[ d ]} ∪ devs s) (devs s) (of_platform_device_create (tree (md s)) n))) →
  wp (create_device n) Q s.
Proof. unfold wp, create_device. destruct s; simpl. by destruct (of_platform_device_create _ _). Qed.

(** [if (!pcie_node) pcie_node = ...;], search after search. *)
Fixpoint first_found (l : list (dtree → option Z * dtree)) : D (option Z) :=
  match l with
  | [] => ret None
  | f :: l' =>
      let* n := of_call f in
      match n with Some n => ret (Some n) | None => first_found l' end
  end.

Definition rc_searches : list (dtree → option Z * dtree) :=
  [λ t, of_find_node_by_path t PCIE_RC_PATH;
   λ t, of_find_compatible_node t PCIE_COMPAT_1; λ t, of_find_compatible_node t PCIE_COMPAT_2;
   λ t, of_find_compatible_node t PCIE_COMPAT_3; λ t, of_find_compatible_node t PCIE_COMPAT_4].

(** The module parameter and the kernel's symbol table are arguments. *)
Definition pcie_enabler_non_es_init (addr : Z) (lookup : string → Z) : M mst Z :=
  let* r := on_md (pcie_resolve_symbols addr lookup) in
  if negb (r =? 0) then ret r
  else
    let* n := on_md (first_found rc_searches) in
    on_md (modify (λ s, set_pcie_node s n)) ;;
    match n with
    | None => ret (- ENODEV)
    | Some pcie =>
        let* r := on_md pcie_attach_runtime_nodes in
        if negb (r =? 0)
        then
          on_md (put (Some pcie)) ;;
          on_md (modify (λ s, set_pcie_node s None)) ;;
          ret r
        else
          let* pdev := create_device pcie in
          set_pdev pdev ;;
          let* _ := on_mp run_pmds_fix_pass in
          on_mp start_pmds_recheck ;;
          ret 0
    end.

Definition pcie_enabler_non_es_exit : M mst unit :=
  on_mp (modify (λ s, set_work s None)) ;;
  let* pdev := gets pcie_pdev in
  (match pdev with Some d => of_device_unregister d | None => ret tt end) ;;
  let* n := gets (λ s, pcie_node (md s)) in
  match n with Some n => on_md (put (Some n)) | None => ret tt end.

(** ** Symbols *)
Definition needed : list string :=
  ["of_mutex"; "devtree_lock"; "of_add_property"; "of_update_property"]%string.

Definition set_md (s : mst) d : mst := Mst d (mp s) (pcie_pdev s) (devs s).

Lemma resolve_wp addr lookup d :
  wp (pcie_resolve_symbols addr lookup)
     (λ r d', (r = 0 → addr ≠ 0 ∧ syms_ok d') ∧ (∃ y, d' = set_syms d y) ∧
        r = (if addr =? 0 then - EINVAL
             else if bool_decide (Exists (λ n, lookup n = 0) needed) then - ENOENT else 0)) d.
Proof.
  unfold pcie_resolve_symbols. destruct (Z.eqb_spec addr 0) as [->|Ha].
  { apply wp_ret. split_and!; [done| |done]. exists (pcie_syms d). by destruct d. }
  cbv zeta. wp_steps. simpl.
  assert (∀ n, n ∈ needed ↔ n = "of_mutex" ∨ n = "devtree_lock" ∨ n = "of_add_property" ∨ n = "of_update_property")%string as Hn.
  { intros n. unfold needed. rewrite !elem_of_cons, elem_of_nil. tauto. }
  case_bool_decide as Hex; rewrite list.Exists_exists in Hex.
  - assert ((lookup "of_mutex"%string =? 0) || (lookup "devtree_lock"%string =? 0)
      || (lookup "of_add_property"%string =? 0) || (lookup "of_update_property"%string =? 0) = true) as ->.
    { destruct Hex as (n & Hin & Hz). rewrite !orb_true_iff, !Z.eqb_eq.
      apply Hn in Hin as [-> |[-> |[-> | ->]]]; auto. }
    apply wp_ret. split_and!; [done|eauto|done].
  - destruct (Z.eqb_spec (lookup "of_mutex"%string) 0); [exfalso; apply Hex; setoid_rewrite Hn; eauto|].
    destruct (Z.eqb_spec (lookup "devtree_lock"%string) 0); [exfalso; apply Hex; setoid_rewrite Hn; eauto 6|].
    destruct (Z.eqb_spec (lookup "of_add_property"%string) 0); [exfalso; apply Hex; setoid_rewrite Hn; eauto 6|].
    destruct (Z.eqb_spec (lookup "of_update_property"%string) 0); [exfalso; apply Hex; setoid_rewrite Hn; eauto 6|].
    apply wp_ret. split_and!; [done|eauto|done].
Qed.

(** Without the module parameter the module refuses to load with -EINVAL,
    with an unresolved symbol with -ENOENT; nothing but the symbol table of
    the module has changed. *)
Theorem init_unresolved addr lookup s :
  addr = 0 ∨ Exists (λ n, lookup n = 0) needed →
  wp (pcie_enabler_non_es_init addr lookup)
     (λ r s', r = (if addr =? 0 then - EINVAL else - ENOENT) ∧
        ∃ y, s' = set_md s (set_syms (md s) y)) s.
Proof.
  intros Hno. unfold pcie_enabler_non_es_init. apply wp_bind, wp_on_md.
  eapply wp_mono; [apply resolve_wp|]. intros r d (_ & (y & ->) & ->).
  destruct (Z.eqb_spec addr 0) as [->|Ha]; [apply wp_ret; split; [done|by eexists]|].
  rewrite bool_decide_true by (by destruct Hno). apply wp_ret. split; [done|by eexists].
Qed.

(** ** The root complex *)
Context `{!OfOk}.

Lemma searches_got : Forall (λ f : dtree → option Z * dtree, ∀ t, got t (f t)) rc_searches.
Proof.
  unfold rc_searches. rewrite !list.Forall_cons.
  split_and!; try done; intros t; first [apply ok_find_path | apply ok_find_compatible].
Qed.

Lemma first_found_wp ns l d : Forall (λ f, ∀ t, got t (f t)) l → dt_nodes (tree d) = ns →
  wp (first_found l) (λ o d', refs_by d (one_if o) d' ∧ (∀ n, o = Some n → is_Some (ns !! n)) ∧
    ((∀ t f, dt_nodes t = ns → f ∈ l → (f t).1 = None) → o = None) ∧
    (∀ f l' n, l = f :: l' → (∀ t, dt_nodes t = ns → (f t).1 = Some n) → o = Some n)) d.
Proof.
  intros Hl. revert d. induction Hl as [|f l Hf _ IH]; intros d Hns; simpl.
  { apply wp_ret. split_and!; [apply refs_by_zero|done|done|done]. }
  apply wp_bind. eapply wp_mono; [apply wp_get, Hf|]. intros o d1 (Eo & R1 & N1).
  destruct o as [n|].
  - apply wp_ret. rewrite Hns in N1. split_and!; [done|done| |].
    + intros Hno. rewrite (Hno _ f Hns) in Eo by left. done.
    + intros f' l' m [= <- <-] Hm. by rewrite Hm in Eo.
  - pose proof R1 as (t1 & -> & M1 & _). eapply wp_mono; [apply IH; simpl; congruence|].
    intros o d2 (R2 & N2 & K2 & _). split_and!; [|done| |].
    + eapply refs_by_ext; [|eapply refs_by_trans; [exact R1|exact R2]]. intros x. cbv beta. rewrite one_if_none. lia.
    + intros Hno. apply K2. intros t g Ht Hg. apply Hno; [done|by right].
    + intros f' l' m [= <- <-] Hm. rewrite Hm in Eo; done.
Qed.

(** When neither the path nor a compatible string finds a root complex the
    module refuses to load with -ENODEV, holding no reference and with no work
    pending. *)
Theorem init_no_root_complex addr lookup s :
  addr ≠ 0 → (∀ n, n ∈ needed → lookup n ≠ 0) →
  (∀ t f, dt_nodes t = dt_nodes (tree (md s)) → f ∈ rc_searches → (f t).1 = None) →
  wp (pcie_enabler_non_es_init addr lookup)
     (λ r s', r = - ENODEV ∧ mp s' = mp s ∧ pcie_pdev s' = pcie_pdev s ∧ devs s' = devs s ∧
        pcie_node (md s') = None ∧ dt_nodes (tree (md s')) = dt_nodes (tree (md s)) ∧
        ∀ x, dt_refs (tree (md s')) x = dt_refs (tree (md s)) x) s.
Proof.
  intros Ha Hn Hno. unfold pcie_enabler_non_es_init. apply wp_bind, wp_on_md.
  eapply wp_mono; [apply resolve_wp|]. intros r d (_ & (y & ->) & ->).
  destruct (Z.eqb_spec addr 0); [done|]. rewrite bool_decide_false by (rewrite list.Exists_exists; naive_solver). simpl negb. cbv iota.
  apply wp_bind, wp_on_md. eapply wp_mono.
  { eapply first_found_wp; [apply searches_got|done]. }
  intros o d1 ((t1 & -> & M1 & R1) & _ & Ho & _). rewrite Ho in * by done.
  apply wp_bind, wp_on_md, wp_modify, wp_ret. simpl in *. split_and!; try done.
  intros x. rewrite R1. rewrite one_if_none. apply Z.add_0_r.
Qed.

(** C27: With the symbols, the root complex and the dependencies present and
    the nodes not injected yet, loading either fails with the negative error
    of the injection, having forgotten the root complex, given back its
    reference, created no device and scheduled nothing, or returns 0 with the
    nodes injected, the root complex's device created on the tree with those
    nodes and remembered (when creating it fails, which is only logged, there
    is none), the page tables fixed and the first recheck pending; without
    allocation and property failures it is the latter. *)
Theorem init_spec `{!SmmuOk} addr lookup s pcie soc ioss group rp ls lr lp :
  addr ≠ 0 → (∀ n, n ∈ needed → lookup n ≠ 0) →
  finds (dt_nodes (tree (md s))) PCIE_RC_PATH (Some pcie) →
  dts_ok (md s) → pg_ok (pg (mp s)) → pmds_recheck_work (mp s) = None →
  deps pcie soc ioss group rp ls lr lp (set_pcie_node (md s) (Some pcie)) →
  dev_of (dt_nodes (tree (md s))) ls lr = None →
  wp (pcie_enabler_non_es_init addr lookup)
     (λ r s',
        (r ≠ 0 → r < 0 ∧ pcie_node (md s') = None ∧ mp s' = mp s ∧ devs s' = devs s ∧ pcie_pdev s' = pcie_pdev s ∧
           grown [pcie] (dt_nodes (tree (md s))) (dt_nodes (tree (md s'))) ∧
           ∀ x, dt_refs (tree (md s')) x = dt_refs (tree (md s)) x + kept (dt_nodes (tree (md s))) ls lr x) ∧
        (r = 0 → pcie_node (md s') = Some pcie ∧
           pcie_pdev s' = of_platform_device_create (tree (md s')) pcie ∧
           devs s' = from_option (λ d, {[ d ]} ∪ devs s) (devs s) (pcie_pdev s') ∧ pg (mp s') = pass_pg (pg (mp s)) ∧ rechecked 0 (mp s') ∧
           (∃ rx tx, children (dt_nodes (tree (md s'))) soc (tx :: rx :: ls)) ∧
           (∃ dev, children (dt_nodes (tree (md s'))) rp (dev :: lr))) ∧
        (api_total → fails (md s) = [] → r = 0)) s.
Proof.
  intros Ha Hn Hf Hk Hp Hw Hd Hmiss. unfold pcie_enabler_non_es_init. apply wp_bind, wp_on_md.
  eapply wp_mono; [apply resolve_wp|]. intros r d (Hy & (y & ->) & ->).
  destruct (Z.eqb_spec addr 0); [done|]. rewrite bool_decide_false in * by (rewrite list.Exists_exists; naive_solver). simpl negb. cbv iota.
  destruct (Hy eq_refl) as [_ Hy']. apply wp_bind, wp_on_md. eapply wp_mono.
  { eapply (first_found_wp (dt_nodes (tree (md s)))); [apply searches_got|done]. }
  intros o d1 ((t1 & -> & M1 & R1) & _ & _ & Ho). simpl in *.
  rewrite (Ho _ _ pcie eq_refl) in * by (intros t Ht; by apply Hf).
  apply wp_bind, wp_on_md, wp_modify. simpl. apply wp_bind, wp_on_md. simpl.
  eapply wp_mono.
  { eapply (attach_runtime_nodes_wp pcie soc ioss group rp ls lr lp); [|done| |].
    - destruct Hk as [? Hk]. split; [done|]. simpl. by rewrite M1.
    - destruct Hd. by split; simpl in *; rewrite ?M1.
    - simpl. by rewrite M1. }
  intros r d2 (HW & HR & Hneg & Hin & Hluck). simpl in *. rewrite M1 in *.
  destruct (Z.eqb_spec r 0) as [->|Hr]; simpl negb; cbv iota.
  - destruct (Hin eq_refl) as (rx & tx & dev & i & g & ? & ? & ? & _ & _ & _ & _ & Hc1 & Hc2).
    apply wp_bind, create_wp. simpl. unfold set_pdev. wp_steps. apply wp_on_mp. simpl.
    eapply wp_mono; [by apply pass_wp|]. intros r3 p3 (G3 & (_ & C3 & W3) & _ & K3).
    apply wp_bind, wp_on_mp. simpl. unfold start_pmds_recheck, schedule_delayed_work. wp_steps. simpl.
    split_and!; [done| |done]. intros _. split_and!; [done|done|done|done|by unfold rechecked|eauto|eauto].
  - destruct (Hneg Hr) as [Hlt Hg]. apply wp_bind, wp_on_md. simpl. unfold put. apply wp_of_call.
    destruct (ok_put (tree d2) (Some pcie)) as [Hpn Hpr].
    apply wp_bind, wp_on_md, wp_modify, wp_ret. simpl. split_and!; [|done|].
    + intros _. split_and!; try done; [by rewrite Hpn|]. intros x. rewrite Hpr, HR, R1. simpl. lia.
    + intros Ht Hff. by rewrite (Hluck Ht Hff) in Hr.
Qed.

Lemma rsteps_idle `{!SmmuOk} p tr p' : pmds_recheck_work p = None → rsteps p tr p' →
  fires tr = 0 ∧ pmds_recheck_work p' = None.
Proof.
  intros Hw. induction 1 as [|tr p1 b p2 _ [IHf IHw] Hs]; [done|]. rewrite fires_snoc.
  inversion Hs; subst; [split; [lia|done]|congruence].
Qed.

(** After unloading no recheck ever runs, the module's device is gone and
    its reference on the root complex is given back; the tree stays. *)
Theorem exit_spec `{!SmmuOk} s :
  wp pcie_enabler_non_es_exit (λ _ s',
    (∀ tr p, rsteps (mp s') tr p → fires tr = 0) ∧
    (∀ d, pcie_pdev s = Some d → d ∉ devs s') ∧
    dt_nodes (tree (md s')) = dt_nodes (tree (md s)) ∧
    ∀ x, dt_refs (tree (md s')) x = dt_refs (tree (md s)) x - one_if (pcie_node (md s)) x) s.
Proof.
  unfold pcie_enabler_non_es_exit. apply wp_bind, wp_on_mp, wp_modify. wp_steps. simpl.
  eapply (wp_mono _ (λ _ s', md s' = md s ∧ mp s' = set_work (mp s) None ∧
    ∀ d, pcie_pdev s = Some d → d ∉ devs s')).
  { destruct (pcie_pdev s) as [d|]; [apply wp_modify|apply wp_ret]; simpl; [|done].
    split_and!; [done|done|]. intros ? [= <-]. set_solver. }
  intros [] s1 (E1 & E2 & E3). wp_steps. rewrite E1.
  assert (∀ tr p, rsteps (mp s1) tr p → fires tr = 0) as Hf.
  { intros tr p Hr. rewrite E2 in Hr. by apply rsteps_idle in Hr as [? _]. }
  destruct (pcie_node (md s)) as [n|].
  - apply wp_on_md. rewrite E1. apply wp_put. intros d (t & -> & Mn & R). simpl.
    split_and!; [done|done|done|]. intros x. rewrite R. unfold one_if. case_decide; lia.
  - apply wp_ret. rewrite E1. split_and!; [done..|]. intros x. by rewrite one_if_none, Z.sub_0_r.
Qed.
End init.
