(* ===== verification/EnablerExamples.v ===== *)
(** * The PCIe enabler: a kernel that satisfies the interface, and examples

    A device tree implementation that satisfies [OfOk], a tree with the nodes
    the enabler depends on, and the theorems of [EnablerAttach] on it. *)
From stdpp Require Import base tactics list gmap strings numbers sets.
From Stdlib Require Import ZArith Lia.
From S2P Require Import Prelude DeviceTree Enabler EnablerSpec EnablerAttach Pmds EnablerInit.

(** ** The instance *)
Definition with_ref (t : dtree) (o : option Z) : option Z * dtree :=
  (o, Dtree (dt_nodes t) (λ x, dt_refs t x + one_if o x)).

Definition find_node (P : device_node → bool) (t : dtree) : option Z :=
  fst <$> (snd <$> list_find (λ nd : Z * device_node, P nd.2 = true) (map_to_list (dt_nodes t))).

Definition compatible (c : string) (d : device_node) : bool :=
  bool_decide (("compatible"%string, cstr c) ∈ vals (d_props d)).

Definition change (t : dtree) (n : Z) (p : property) : Z * dtree :=
  match dt_nodes t !! n with
  | Some d => (0, set_nodes t (<[n := set_props d (upd_props p (d_props d))]> (dt_nodes t)))
  | None => (- EINVAL, t)
  end.

#[export] Instance demo_of : OfApi := {
  of_find_node_by_path t path := with_ref t (find_node (λ d, String.eqb (d_full_name d) path) t);
  of_find_compatible_node t c := with_ref t (find_node (compatible c) t);
  of_get_next_child t n prev :=
    let r := match prev with
             | None => match dt_nodes t !! n with Some d => d_child d | None => None end
             | Some p => match dt_nodes t !! p with Some e => d_sibling e | None => None end end in
    (r, Dtree (dt_nodes t) (λ x, dt_refs t x + one_if r x - one_if prev x));
  of_node_put t o := Dtree (dt_nodes t) (λ x, dt_refs t x - one_if o x);
  of_find_property t n name :=
    match dt_nodes t !! n with
    | Some d => bool_decide (name ∈ prop_names (d_props d)) | None => false end;
  of_add_property := change;
  of_update_property := change }.

Lemma find_node_in P t n : find_node P t = Some n → is_Some (dt_nodes t !! n).
Proof.
  unfold find_node. destruct (list_find _ _) as [[i [m d]]|] eqn:E; [|done]. intros [= <-].
  apply list_find_Some in E as (E & _). apply list_elem_of_lookup_2, elem_of_map_to_list in E. eauto.
Qed.

Lemma with_ref_got t o : (∀ n, o = Some n → is_Some (dt_nodes t !! n)) → got t (with_ref t o).
Proof. intros Hn. by split. Qed.

Lemma change_changed t n p d : dt_nodes t !! n = Some d → changed_prop t n p (change t n p).
Proof. intros E. unfold changed_prop, change. rewrite E. split; [done|]. left. eauto. Qed.

#[export] Instance demo_of_ok : OfOk.
Proof.
  split.
  - intros t path. apply with_ref_got. intros n. apply find_node_in.
  - intros t c. apply with_ref_got. intros n. apply find_node_in.
  - intros t n d prev E. simpl. rewrite E. done.
  - done.
  - intros t n name d E. simpl. by rewrite E.
  - intros t n p d E _. by eapply change_changed.
  - intros t n p d E. by eapply change_changed.
Qed.

Lemma demo_total : api_total.
Proof. intros t n p d E. simpl. unfold change. rewrite E. auto. Qed.

(** ** A tree *)
Definition node (name full : string) (ph : Z) (parent child sibling : option Z) : device_node :=
  DeviceNode name full ph parent child sibling false false [].

Definition demo_nodes : gmap Z device_node :=
  <[1 := node "soc" SOC_PATH 0 None (Some 2) None]> (
  <[2 := node "qcom,ioss" IOSS_ROOT_PATH 17 (Some 1) None (Some 3)]> (
  <[3 := node "ipa_eth_group1" IPA_ETH_GROUP1_PATH 18 (Some 1) None (Some 4)]> (
  <[4 := node "qcom,pcie" PCIE_RC_PATH 0 (Some 1) (Some 5) None]> (
  <[5 := node "pcie0_rp" "/soc/qcom,pcie@1c00000/pcie0_rp" 0 (Some 4) None None]> ∅)))).

Definition demo_dts (ns : gmap Z device_node) (fs : list bool) : dts :=
  Dts (Dtree ns (λ _, 1)) ∅ 100 fs (Syms 16 16 16 16 16) (Some 4).

Ltac chain_eval := repeat (econstructor; [vm_compute; reflexivity|simpl]); constructor.

Lemma demo_children : children demo_nodes 1 [2; 3; 4] ∧ children demo_nodes 5 [] ∧ children demo_nodes 4 [5].
Proof. split_and!; (eexists; split; [vm_compute; reflexivity|]); chain_eval. Qed.

Lemma demo_finds path o : find_node (λ d, String.eqb (d_full_name d) path) (Dtree demo_nodes (λ _, 1)) = o →
  finds demo_nodes path o.
Proof. intros <- [ns r] E. simpl in E. subst. done. Qed.

Lemma demo_ok fs : dts_ok (demo_dts demo_nodes fs).
Proof.
  split; [by intros b ?%not_elem_of_empty|]. intros n [d E].
  change (demo_nodes !! n = Some d) in E. unfold demo_nodes in E.
  repeat (apply lookup_insert_Some in E as [[<- _]|[_ E]]; [done|]). done.
Qed.

Lemma demo_deps fs : deps 4 1 2 3 5 [2; 3; 4] [] [5] (demo_dts demo_nodes fs).
Proof.
  destruct demo_children as (? & ? & ?).
  split; try done; first [apply demo_finds; vm_compute; reflexivity | idtac].
  apply (bool_decide_unpack _). vm_compute. exact I.
Qed.

(** ** The theorems on it *)
Lemma attach_runtime_nodes_spec_witness :
  wp pcie_attach_runtime_nodes (λ r s', r = 0 ∧ ∃ rx tx dev,
    children (dt_nodes (tree s')) 1 [tx; rx; 2; 3; 4] ∧ children (dt_nodes (tree s')) 5 [dev])
    (demo_dts demo_nodes []).
Proof.
  eapply wp_mono.
  - apply (attach_runtime_nodes_spec 4 1 2 3 5 [2; 3; 4] [] [5]);
      [apply demo_ok|done|apply demo_deps|vm_compute; reflexivity].
  - intros r s' (_ & _ & _ & H0 & Hl). pose proof (Hl demo_total eq_refl) as Hr. split; [done|].
    destruct (H0 Hr) as (rx & tx & dev & i & g & ? & ? & ? & _ & _ & _ & _ & ? & ?). eauto.
Defined.

(** A failing allocation: an error; the two nodes that could be built stay
    allocated, and no child list leads to them. *)
Example injection_fails :
  (λ o, match o with Some (r, s') => (r, map_size (dt_nodes (tree s'))) | None => (0, O) end)
    (pcie_attach_runtime_nodes (demo_dts demo_nodes [false; false; false; true])) = (- ENOMEM, 7%nat).
Proof. vm_compute. reflexivity. Qed.

Definition demo_full : gmap Z device_node :=
  <[1 := node "soc" SOC_PATH 0 None (Some 7) None]> (
  <[7 := node "r8125_tx" "/soc/r8125_tx@eth0" 0x8126 (Some 1) None (Some 6)]> (
  <[6 := node "r8125_rx" "/soc/r8125_rx@eth0" 0x8125 (Some 1) None None]> (
  <[2 := node "qcom,ioss" IOSS_ROOT_PATH 17 None None None]> (
  <[3 := node "ipa_eth_group1" IPA_ETH_GROUP1_PATH 18 None None None]> (
  <[4 := node "qcom,pcie" PCIE_RC_PATH 0 None (Some 5) None]> (
  <[5 := node "pcie0_rp" "/soc/qcom,pcie@1c00000/pcie0_rp" 0 (Some 4) (Some 8) None]> (
  <[8 := node "realtek,rtl8125" "/soc/qcom,pcie@1c00000/pcie0_rp/realtek,rtl8125@0,0" 0 (Some 5) None None]> ∅))))))).

Lemma full_finds path o : find_node (λ d, String.eqb (d_full_name d) path) (Dtree demo_full (λ _, 1)) = o →
  finds demo_full path o.
Proof. intros <- [ns r] E. simpl in E. subst. done. Qed.

Lemma attach_runtime_nodes_present_witness :
  wp pcie_attach_runtime_nodes (λ r s', r = 0 ∧ dt_refs (tree s') 6 = 2 ∧ dt_refs (tree s') 1 = 1)
    (demo_dts demo_full []).
Proof.
  eapply wp_mono.
  - apply (attach_runtime_nodes_present 4 1 2 3 5 [7; 6] [8] [5] _ 6 7 8);
      [split|vm_compute; reflexivity..].
    + done.
    + apply full_finds. vm_compute. reflexivity.
    + apply full_finds. vm_compute. reflexivity.
    + apply full_finds. vm_compute. reflexivity.
    + vm_compute. reflexivity.
    + eexists; split; [vm_compute; reflexivity|]; chain_eval.
    + eexists; split; [vm_compute; reflexivity|]; chain_eval.
    + eexists; split; [vm_compute; reflexivity|]; chain_eval.
    + apply (bool_decide_unpack _). vm_compute. exact I.
  - simpl. intros r s' (-> & _ & _ & Hr). rewrite !Hr. vm_compute. auto.
Defined.

Definition demo_no_ioss : gmap Z device_node := delete 2 demo_nodes.

Lemma no_ioss_finds path o : find_node (λ d, String.eqb (d_full_name d) path) (Dtree demo_no_ioss (λ _, 1)) = o →
  finds demo_no_ioss path o.
Proof. intros <- [ns r] E. simpl in E. subst. done. Qed.

Lemma attach_runtime_nodes_no_deps_witness :
  wp pcie_attach_runtime_nodes (λ r s', r = - ENODEV ∧ dt_refs (tree s') 1 = 1) (demo_dts demo_no_ioss []).
Proof.
  eapply wp_mono.
  - apply (attach_runtime_nodes_no_deps 4 (Some 1) None (Some 3) (Some 5) [5]).
    + done.
    + apply no_ioss_finds. vm_compute. reflexivity.
    + apply no_ioss_finds. vm_compute. reflexivity.
    + apply no_ioss_finds. vm_compute. reflexivity.
    + eexists; split; [vm_compute; reflexivity|]; chain_eval.
    + vm_compute. reflexivity.
    + auto.
  - simpl. intros r s' (-> & _ & _ & Hr). by rewrite Hr.
Defined.

(** ** An SMMU with three contexts *)
Definition demo_bus : list device :=
  [(1, "soc:serial"); (2, "1e00000.qcom,ipa:ipa_smmu_ap"); (3, "1e00000.qcom,ipa:ipa_smmu_eth");
   (4, "1e00000.qcom,ipa:ipa_smmu_eth1")]%string.

#[export] Instance demo_smmu : SmmuApi := {
  bus_for_each_dev A f a := each_dev demo_bus f a;
  iommu_get_domain_for_dev d := if d =? 1 then None else Some (100 + d);
  domain_pgtbl_ops0 d := Some (d + 100);
  iof_pgtable_ops_to_data o := o - 8;
  is_vmalloc_addr p := 0xF0000000 <=? p }.

#[export] Instance demo_smmu_ok : SmmuOk := {| platform_bus := demo_bus; ok_bus A f a s := eq_refl |}.

Definition demo_pg : gmap Z av8l_fast_io_pgtable :=
  <[194 := Av8l 0xF0800000 0x1000 0xFFFFF]> (<[195 := Av8l 0xE0000000 0 0]> (<[196 := Av8l 0 0 0]> ∅)).
Definition demo_pm : pmst := Pmst (λ _, 1) demo_pg 0 None.

Lemma demo_data : data_of AP = Some 194 ∧ data_of ":ipa_smmu_eth" = Some 195 ∧ data_of ":ipa_smmu_eth1" = Some 196.
Proof. vm_compute. auto. Qed.

Lemma demo_pg_ok : pg_ok demo_pg.
Proof.
  destruct demo_data as (Da & Db & Dc). intros sfx a. unfold slaves. rewrite !elem_of_cons, elem_of_nil.
  intros [-> |[-> |[-> |[]]]] E; simplify_eq; vm_compute; eauto.
Qed.

Lemma run_pmds_fix_pass_spec_witness :
  wp run_pmds_fix_pass (λ r s', pg s' !! 195 = Some (Av8l 0xF0800000 0x1000 0xFFFFF)
    ∧ pg s' !! 196 = Some (Av8l 0xF0800000 0x1000 0xFFFFF) ∧ dev_refs s' 2 = 1) demo_pm.
Proof.
  destruct demo_data as (Da & Db & Dc).
  eapply wp_mono; [apply (run_pmds_fix_pass_spec demo_pm demo_pg_ok)|].
  intros r s' (HR & Hs & _). destruct (Hs 194 _ Da eq_refl) as [_ Hsl]. split_and!; [| |apply HR].
  - apply (Hsl ":ipa_smmu_eth"%string); [left|done|done].
  - apply (Hsl ":ipa_smmu_eth1"%string); [right; left|done|done].
Defined.

Lemma run_pmds_fix_pass_idempotent_witness :
  wp (let* _ := run_pmds_fix_pass in run_pmds_fix_pass) (λ r s', r = 0) demo_pm.
Proof.
  eapply wp_mono; [apply (run_pmds_fix_pass_idempotent demo_pm demo_pg_ok)|]. by intros r s' [-> _].
Defined.

Lemma recheck_bounded_witness :
  ∃ s0, start_pmds_recheck demo_pm = Some (tt, s0) ∧ pmds_recheck_work s0 = Some 2000.
Proof.
  eexists. split; [reflexivity|].
  destruct (recheck_bounded demo_pm _ [] _ demo_pg_ok eq_refl (rsteps_nil _)) as (_ & _ & H & _).
  destruct H as [H _]; [done|]. exact H.
Defined.

(** ** Loading *)
#[export] Instance demo_platform : PlatformApi := {| of_platform_device_create t n := Some (n + 1000) |}.

Definition demo_mst (ns : gmap Z device_node) : mst := Mst (demo_dts ns []) demo_pm None ∅.
Definition demo_lookup (nm : string) : Z := 0xC0100000.

Lemma init_unresolved_witness :
  wp (pcie_enabler_non_es_init 16 (λ nm, if String.eqb nm "of_mutex" then 0 else 64))
     (λ r s', r = - ENOENT) (demo_mst demo_nodes).
Proof.
  eapply wp_mono; [apply init_unresolved|].
  - right. left. reflexivity.
  - by intros r s' [-> _].
Defined.

Lemma init_no_root_complex_witness :
  wp (pcie_enabler_non_es_init 16 demo_lookup) (λ r s', r = - ENODEV) (demo_mst ∅).
Proof.
  eapply wp_mono; [apply init_no_root_complex|].
  - done.
  - done.
  - intros [ns r] f E. simpl in E. subst ns. unfold rc_searches. rewrite !elem_of_cons, elem_of_nil.
    intros [-> |[-> |[-> |[-> |[-> |[]]]]]]; vm_compute; reflexivity.
  - by intros r s' [-> _].
Defined.

Lemma init_spec_witness :
  wp (pcie_enabler_non_es_init 16 demo_lookup)
     (λ r s', r = 0 ∧ pcie_node (md s') = Some 4 ∧ devs s' = {[ 1004 ]} ∪ ∅ ∧ pmds_recheck_work (mp s') = Some 2000) (demo_mst demo_nodes).
Proof.
  eapply wp_mono; [apply (init_spec 16 demo_lookup _ 4 1 2 3 5 [2; 3; 4] [] [5])|].
  - done.
  - done.
  - apply demo_finds. vm_compute. reflexivity.
  - apply demo_ok.
  - apply demo_pg_ok.
  - done.
  - destruct (demo_deps []). by split.
  - vm_compute. reflexivity.
  - intros r s' (_ & H0 & Hl). pose proof (Hl demo_total eq_refl) as Hr. split; [done|].
    destruct (H0 Hr) as (? & Ep & Ed & _ & (_ & _ & _ & ?) & _). split; [done|]. split; [|done]. by rewrite Ed, Ep.
Defined.

Lemma exit_spec_witness :
  wp pcie_enabler_non_es_exit (λ _ s', dt_refs (tree (md s')) 4 = 0) (demo_mst demo_nodes).
Proof.
  eapply wp_mono; [apply (exit_spec (demo_mst demo_nodes))|]. intros [] s' (_ & _ & _ & Hr). by rewrite Hr.
Defined.
