(* ===== verification/IossUtils.v ===== *)
(** * IOSS: utilities

    [ioss_utils.c]: the all-or-nothing list walk every multi-channel operation
    goes through, the log contexts, and the names of states and directions. *)
From stdpp Require Import base tactics list gmap strings numbers.
From Stdlib Require Import ZArith Lia.
From S2P Require Import Prelude.

(** ** The list walk *)
Section iter.
Context {St N : Type}.

(** [__ioss_list_iter_action_recurse]: the nodes from [node] up to the head.
    A [revert] of [None] is the NULL function pointer. *)
Fixpoint ioss_list_iter_action_recurse (nodes : list N) (action : N → M St Z)
    (revert : option (N → M St unit)) : M St Z :=
  match nodes with
  | [] => ret 0
  | node :: nodes' =>
      let* rc := action node in
      if negb (rc =? 0) then ret rc
      else
        let* rc := ioss_list_iter_action_recurse nodes' action revert in
        match revert with
        | Some revert => (when negb (rc =? 0) then revert node) ;; ret rc
        | None => ret rc
        end
  end.

Definition ioss_list_iter_action (head : list N) (action : N → M St Z)
    (revert : option (N → M St unit)) : M St Z :=
  ioss_list_iter_action_recurse head action revert.

(** What the walk does, written without recursion over the error path: run
    the actions in order; when one fails, run the reverts of those before it,
    the last one first. *)
Fixpoint run_until (nodes : list N) (action : N → M St Z) (done : list N) : M St (Z * list N) :=
  match nodes with
  | [] => ret (0, done)
  | node :: nodes' =>
      let* rc := action node in
      if rc =? 0 then run_until nodes' action (node :: done) else ret (rc, done)
  end.

Fixpoint run_all (nodes : list N) (revert : N → M St unit) : M St unit :=
  match nodes with
  | [] => ret tt
  | node :: nodes' => revert node ;; run_all nodes' revert
  end.

Definition iter_spec (nodes : list N) (action : N → M St Z) (revert : N → M St unit) : M St Z :=
  let* '(rc, done) := run_until nodes action [] in
  (when negb (rc =? 0) then run_all done revert) ;; ret rc.

Lemma run_all_app l1 l2 revert s :
  run_all (l1 ++ l2) revert s = bind (run_all l1 revert) (λ _, run_all l2 revert) s.
Proof.
  revert s. induction l1 as [|n l1 IH]; intros s; simpl; [done|].
  unfold bind in *. destruct (revert n s) as [[[] s']|]; [apply IH|done].
Qed.

(** The walk with some nodes already done behaves like the walk of the rest
    followed by the reverts of those. *)
Lemma run_until_done nodes action d s :
  run_until nodes action d s =
  bind (run_until nodes action []) (λ r, ret (r.1, r.2 ++ d)) s.
Proof.
  revert d s. induction nodes as [|n nodes IH]; intros d s; simpl; [done|].
  unfold bind in *. destruct (action n s) as [[rc s']|]; [|done].
  destruct (rc =? 0); [|done]. rewrite (IH (n :: d)), (IH [n]).
  destruct (run_until nodes action [] s') as [[[r' d'] s'']|]; [|done].
  simpl. unfold ret. by rewrite <- app_assoc.
Qed.

(** C39: The recursive walk is: the actions in list order up to the first
    failure, then the reverts of the completed nodes in reverse order, and the
    failing action's code as the result. *)
Theorem iter_action_spec nodes action revert s :
  ioss_list_iter_action nodes action (Some revert) s = iter_spec nodes action revert s.
Proof.
  unfold ioss_list_iter_action, iter_spec. revert s.
  induction nodes as [|n nodes IH]; intros s; [done|].
  simpl. unfold bind in *. destruct (action n s) as [[rc s']|]; [|done].
  destruct (Z.eqb_spec rc 0) as [->|Hrc]; simpl.
  2:{ unfold ret. simpl. destruct (Z.eqb_spec rc 0); [done|]. done. }
  rewrite IH, (run_until_done nodes action [n]). unfold bind. destruct (run_until nodes action [] s') as [[[r' d'] s'']|]; [|done]. simpl.
  destruct (Z.eqb_spec r' 0) as [->|Hr]; simpl; [done|].
  rewrite run_all_app. unfold bind. destruct (run_all d' revert s'') as [[[] s3]|]; [|done]. simpl.
  destruct (Z.eqb_spec r' 0); [done|]. simpl. unfold bind, ret. by destruct (revert n s3) as [[[] s4]|].
Qed.

(** ** The rule for clients

    An action that takes [I done] one node further or fails back into [I done],
    and a revert that undoes it: the walk ends with all nodes done, or with an
    error and none. *)
Lemma wp_iter (nodes : list N) (action : N → M St Z) (rv : N → M St unit) (I : list N → St → Prop) s :
  I [] s →
  (∀ d n d' s, nodes = d ++ n :: d' → I d s →
     wp (action n) (λ rc s', if rc =? 0 then I (d ++ [n]) s' else I d s') s) →
  (∀ d n d' s, nodes = d ++ n :: d' → I (d ++ [n]) s → wp (rv n) (λ _ s', I d s') s) →
  wp (ioss_list_iter_action nodes action (Some rv))
     (λ rc s', if rc =? 0 then I nodes s' else I [] s') s.
Proof.
  intros HI Ha Hr. unfold ioss_list_iter_action.
  assert (∀ l d s, nodes = d ++ l → I d s →
    wp (ioss_list_iter_action_recurse l action (Some rv))
       (λ rc s', if rc =? 0 then I nodes s' else I d s') s) as Hg; [|by apply (Hg nodes [])].
  induction l as [|n l IH]; intros d s0 Hn Hd; simpl.
  { apply wp_ret. simpl. by rewrite Hn, app_nil_r. }
  apply wp_bind. eapply wp_mono; [by eapply Ha|]. intros rc s1 H1.
  cbv beta in H1. destruct (rc =? 0) eqn:E; simpl.
  2:{ apply wp_ret. by rewrite E. }
  apply wp_bind. eapply wp_mono; [apply (IH (d ++ [n])); [by rewrite <- app_assoc|done]|].
  intros rc' s2 H2. cbv beta in H2. apply wp_bind. destruct (rc' =? 0) eqn:E'; simpl.
  - apply wp_ret, wp_ret. by rewrite E'.
  - eapply wp_mono; [by eapply Hr|]. intros [] s3 H3. apply wp_ret. by rewrite E'.
Qed.
End iter.

(** ** Names *)
Inductive ioss_interface_state :=
  | IOSS_IF_ST_OFFLINE | IOSS_IF_ST_ONLINE | IOSS_IF_ST_ERROR | IOSS_IF_ST_RECOVERY.
Inductive ioss_channel_dir := IOSS_CH_DIR_RX | IOSS_CH_DIR_TX.

#[export] Instance if_state_eq_dec : EqDecision ioss_interface_state.
Proof. solve_decision. Defined.
#[export] Instance ch_dir_eq_dec : EqDecision ioss_channel_dir.
Proof. solve_decision. Defined.

(** The numbers of the enumeration, and the lookup by number. *)
Definition if_states : list string := ["`offline`"; "`online`"; "`error`"; "`recovery`"]%string.
Definition ioss_if_state_name (state : Z) : string :=
  if bool_decide (0 ≤ state < 4) then nth (Z.to_nat state) if_states ""%string else "<unknown>"%string.
Definition ch_dirs : list string := ["`RX`"; "`TX`"]%string.
Definition ioss_ch_dir_name (dir : Z) : string :=
  if bool_decide (0 ≤ dir < 2) then nth (Z.to_nat dir) ch_dirs ""%string else "<unknown>"%string.

(** ** The log contexts *)
Record ioss_log := IossLog { buf_norm : bool; buf_prio : bool; log_fails : list bool }.

Definition ipc_log_context_create : M ioss_log bool := λ s,
  match log_fails s with
  | true :: f => Some (false, IossLog (buf_norm s) (buf_prio s) f)
  | _ => Some (true, IossLog (buf_norm s) (buf_prio s) (tail (log_fails s)))
  end.

Definition ioss_log_init : M ioss_log Z :=
  let* norm := gets buf_norm in
  if norm then ret 0
  else
    let* prio := ipc_log_context_create in
    modify (λ s, IossLog (buf_norm s) prio (log_fails s)) ;;
    if negb prio then ret (- EFAULT)
    else
      let* norm := ipc_log_context_create in
      modify (λ s, IossLog norm (buf_prio s) (log_fails s)) ;;
      if negb norm then modify (λ s, IossLog (buf_norm s) false (log_fails s)) ;; ret (- EFAULT)
      else ret 0.

Definition ioss_log_deinit : M ioss_log unit :=
  modify (λ s, IossLog false false (log_fails s)).

(** Both contexts or none. *)
Lemma ioss_log_init_wp s : buf_norm s = buf_prio s →
  wp ioss_log_init (λ rc s', buf_norm s' = buf_prio s' ∧ (rc = 0 ↔ buf_norm s' = true) ∧
    (rc = 0 ∨ rc = - EFAULT)) s.
Proof.
  destruct s as [[] p f]; simpl; intros <-.
  - unfold ioss_log_init. wp_steps. simpl. wp_steps. split_and!; [done|done|by left].
  - unfold ioss_log_init, wp, bind, gets, ret, modify, ipc_log_context_create.
    destruct f as [|[] [|[] f]]; simpl; (split_and!; [done|done|auto]).
Qed.
