(* ===== verification/RtlLib.v ===== *)
(** * The r8125 offload library

    [r8125_lib.c]: the rings the RTL8125 driver lends to the IOSS glue driver,
    with their descriptor and buffer memory, their MSI-X events, and the RSS
    redirection. The hardware is the sequence of accesses made to it; DMA
    memory is allocated and freed explicitly; a NULL or dead access is
    undefined. *)
From stdpp Require Import base tactics list gmap numbers.
From Stdlib Require Import ZArith Lia.
From S2P Require Import Prelude IossUtils.

(** ** Data *)
(** [struct rtl8125_buf]; the address 0 is NULL. *)
Record rtl8125_buf := RtlBuf { b_addr : Z; b_dma_addr : Z; b_size : Z }.

Record rtl8125_event := RtlEvent {
  e_addr : Z; e_data : Z; e_allocated : bool; e_enabled : bool; e_message_id : Z; e_delay : Z }.

(** [struct rtl8125_ring]; [r_bufs] is [None] when the pointer is NULL,
    [r_mem_ops] says whether the pointer is not. *)
Record rtl8125_ring := RtlRing {
  r_enabled : bool; r_allocated : bool; r_direction : ioss_channel_dir; r_queue_num : Z;
  r_flags : Z; r_ring_size : Z; r_desc_size : Z; r_buff_size : Z;
  r_desc_addr : Z; r_desc_daddr : Z; r_bufs : option (list rtl8125_buf);
  r_mem_ops : bool; r_event : rtl8125_event }.

(** A descriptor in DMA memory: buffer address and first option word. *)
Record rx_tx_desc := Desc { dsc_addr : Z; dsc_opts1 : Z }.

(** Accesses to the hardware, and calls into the core of the r8125 driver. *)
Inductive hw_call :=
  | RTL_W32 (reg val : Z)
  | EriWrite (reg val : Z)
  | SetTimerInt (message_id val : Z)
  | SetRssHashOpt | StoreRssKey | RssKeyFill
  | NetifTxDisable | WaitForQuiescence | HwReset | TxClear | RxClear | InitRing | HwConfig
  | ChipCmdEnable | EnableHwInterrupt | NotifyResetPrepare (nb : Z) | NotifyResetComplete (nb : Z)
  | EnableNapi | NetifTxStartAll | DevClose | DevOpen | EnableLinkchgInt.

Record nic := Nic {
  lib_tx_ring : list rtl8125_ring; lib_rx_ring : list rtl8125_ring;
  desc_mem : gmap Z (list rx_tx_desc);   (* descriptor arrays by address *)
  dma : gmap Z (Z * Z);                  (* coherent allocations: size, bus address *)
  vnext : Z;                             (* next free kernel address *)
  faults : list Z;                       (* results of the fallible calls to come *)
  rss_indir_tbl : list Z;
  lib_nh : list Z;                       (* registered notifier blocks, in calling order *)
  hw : list hw_call }.                   (* latest first *)

Abbreviation L := (M nic).

(** A ring pointer. *)
Record ring_ptr := RingPtr { rp_dir : ioss_channel_dir; rp_idx : nat }.

(** The device's fixed parameters, its bus addresses, and what the MSI-X table
    reads after a sequence of accesses. *)
Class NicApi := {
  num_tx_rings : nat; num_rx_rings : nat; HwSuppNumTxQueues : nat; HwSuppNumRxQueues : nat;
  RxDescLength : Z; HwSuppIndirTblEntries : nat;
  netif_running : bool;
  dma_of : Z → Z;
  eri_read : list hw_call → Z → Z }.

Definition RTL8125_CONTIG_BUFS : Z := 1.
Definition MSIX_event_type : Z := 1.
Definition RingEnd : Z := Z.shiftl 1 30.
Definition DescOwn : Z := Z.shiftl 1 31.
Definition RDSAR_Q1_LOW_8125 : Z := 0x4000.
Definition TNPDS_Q1_LOW_8125 : Z := 0x2100.
Definition IMR_V2_CLEAR_REG_8125 : Z := 0x0D00.
Definition IMR_V2_SET_REG_8125 : Z := 0x0D0C.
Definition RSS_INDIRECTION_TBL_8125_V2 : Z := 0x4700.
(** [sizeof(struct TxDesc)]. *)
Definition sizeof_TxDesc : Z := 32.

(** ** State access *)
Definition nic_rings (t r : list rtl8125_ring) (s : nic) : nic :=
  Nic t r (desc_mem s) (dma s) (vnext s) (faults s) (rss_indir_tbl s) (lib_nh s) (hw s).
Definition nic_desc (d : gmap Z (list rx_tx_desc)) (s : nic) : nic :=
  Nic (lib_tx_ring s) (lib_rx_ring s) d (dma s) (vnext s) (faults s) (rss_indir_tbl s) (lib_nh s) (hw s).
Definition nic_dma (d : gmap Z (Z * Z)) (v : Z) (s : nic) : nic :=
  Nic (lib_tx_ring s) (lib_rx_ring s) (desc_mem s) d v (faults s) (rss_indir_tbl s) (lib_nh s) (hw s).
Definition nic_faults (f : list Z) (s : nic) : nic :=
  Nic (lib_tx_ring s) (lib_rx_ring s) (desc_mem s) (dma s) (vnext s) f (rss_indir_tbl s) (lib_nh s) (hw s).
Definition nic_indir (t : list Z) (s : nic) : nic :=
  Nic (lib_tx_ring s) (lib_rx_ring s) (desc_mem s) (dma s) (vnext s) (faults s) t (lib_nh s) (hw s).
Definition nic_hw (h : list hw_call) (s : nic) : nic :=
  Nic (lib_tx_ring s) (lib_rx_ring s) (desc_mem s) (dma s) (vnext s) (faults s) (rss_indir_tbl s) (lib_nh s) h.
Definition nic_nh (l : list Z) (s : nic) : nic :=
  Nic (lib_tx_ring s) (lib_rx_ring s) (desc_mem s) (dma s) (vnext s) (faults s) (rss_indir_tbl s) l (hw s).

Definition rings_of (d : ioss_channel_dir) (s : nic) : list rtl8125_ring :=
  match d with IOSS_CH_DIR_TX => lib_tx_ring s | IOSS_CH_DIR_RX => lib_rx_ring s end.
Definition set_rings (d : ioss_channel_dir) (l : list rtl8125_ring) (s : nic) : nic :=
  match d with
  | IOSS_CH_DIR_TX => nic_rings l (lib_rx_ring s) s
  | IOSS_CH_DIR_RX => nic_rings (lib_tx_ring s) l s
  end.

(** The result of the next fallible call: 0 once no faults are left. *)
Definition ask : L Z := λ s, Some (default 0 (head (faults s)), nic_faults (tail (faults s)) s).

Definition hwcall (c : hw_call) : L unit := modify (λ s, nic_hw (c :: hw s) s).

(** Reading and writing through a ring pointer. *)
Definition get_ring (p : ring_ptr) : L rtl8125_ring :=
  let* s := gets id in lift_opt (rings_of (rp_dir p) s !! rp_idx p).
Definition set_ring (p : ring_ptr) (r : rtl8125_ring) : L unit :=
  modify (λ s, set_rings (rp_dir p) (<[rp_idx p := r]> (rings_of (rp_dir p) s)) s).
Definition upd_ring (p : ring_ptr) (f : rtl8125_ring → rtl8125_ring) : L unit :=
  let* r := get_ring p in set_ring p (f r).

Definition w_enabled (b : bool) (r : rtl8125_ring) : rtl8125_ring :=
  RtlRing b (r_allocated r) (r_direction r) (r_queue_num r) (r_flags r) (r_ring_size r)
    (r_desc_size r) (r_buff_size r) (r_desc_addr r) (r_desc_daddr r) (r_bufs r) (r_mem_ops r) (r_event r).
Definition w_allocated (b : bool) (r : rtl8125_ring) : rtl8125_ring :=
  RtlRing (r_enabled r) b (r_direction r) (r_queue_num r) (r_flags r) (r_ring_size r)
    (r_desc_size r) (r_buff_size r) (r_desc_addr r) (r_desc_daddr r) (r_bufs r) (r_mem_ops r) (r_event r).
Definition w_geometry (n b : Z) (ops : bool) (fl : Z) (r : rtl8125_ring) : rtl8125_ring :=
  RtlRing (r_enabled r) (r_allocated r) (r_direction r) (r_queue_num r) fl n
    (r_desc_size r) b (r_desc_addr r) (r_desc_daddr r) (r_bufs r) ops (r_event r).
Definition w_desc_size (z : Z) (r : rtl8125_ring) : rtl8125_ring :=
  RtlRing (r_enabled r) (r_allocated r) (r_direction r) (r_queue_num r) (r_flags r) (r_ring_size r)
    z (r_buff_size r) (r_desc_addr r) (r_desc_daddr r) (r_bufs r) (r_mem_ops r) (r_event r).
Definition w_desc (a d : Z) (r : rtl8125_ring) : rtl8125_ring :=
  RtlRing (r_enabled r) (r_allocated r) (r_direction r) (r_queue_num r) (r_flags r) (r_ring_size r)
    (r_desc_size r) (r_buff_size r) a d (r_bufs r) (r_mem_ops r) (r_event r).
Definition w_bufs (l : option (list rtl8125_buf)) (r : rtl8125_ring) : rtl8125_ring :=
  RtlRing (r_enabled r) (r_allocated r) (r_direction r) (r_queue_num r) (r_flags r) (r_ring_size r)
    (r_desc_size r) (r_buff_size r) (r_desc_addr r) (r_desc_daddr r) l (r_mem_ops r) (r_event r).
Definition w_event (e : rtl8125_event) (r : rtl8125_ring) : rtl8125_ring :=
  RtlRing (r_enabled r) (r_allocated r) (r_direction r) (r_queue_num r) (r_flags r) (r_ring_size r)
    (r_desc_size r) (r_buff_size r) (r_desc_addr r) (r_desc_daddr r) (r_bufs r) (r_mem_ops r) e.

(** ** DMA memory *)
Section lib.
Context `{NicApi}.

(** [dma_alloc_coherent]: a fresh block with its bus address, or NULL. *)
Definition dma_alloc_coherent (size : Z) : L (Z * Z) :=
  let* rc := ask in
  if negb (rc =? 0) then ret (0, 0)
  else
    let* a := gets vnext in
    modify (λ s, nic_dma (<[a := (size, dma_of a)]> (dma s)) (a + Z.max 1 size) s) ;;
    ret (a, dma_of a).

(** [dma_free_coherent] ignores NULL; anything else must be a live block with
    its size and bus address. *)
Definition dma_free_coherent (size addr daddr : Z) : L unit :=
  if addr =? 0 then ret tt
  else λ s,
    if decide (dma s !! addr = Some (size, daddr))
    then Some (tt, nic_dma (delete addr (dma s)) (vnext s) s) else None.

(** ** Descriptors *)
Definition load_desc (a : Z) (i : Z) : L rx_tx_desc :=
  let* s := gets id in
  lift_opt (l ← desc_mem s !! a; l !! Z.to_nat i).
Definition store_desc (a : Z) (i : Z) (d : rx_tx_desc) : L unit := λ s,
  match desc_mem s !! a with
  | Some l => if decide (0 ≤ i < Z.of_nat (length l))
              then Some (tt, nic_desc (<[a := <[Z.to_nat i := d]> l]> (desc_mem s)) s) else None
  | None => None
  end.

Definition load_buf (p : ring_ptr) (i : Z) : L rtl8125_buf :=
  let* r := get_ring p in
  lift_opt (l ← r_bufs r; l !! Z.to_nat i).
Definition store_buf (p : ring_ptr) (i : Z) (b : rtl8125_buf) : L unit :=
  let* r := get_ring p in
  match r_bufs r with
  | Some l => if decide (0 ≤ i < Z.of_nat (length l))
              then set_ring p (w_bufs (Some (<[Z.to_nat i := b]> l)) r) else ub
  | None => ub
  end.

(** [rtl8125_mark_to_asic], both descriptor layouts: the end-of-ring bit stays. *)
Definition rtl8125_mark_to_asic (a i rx_buf_sz : Z) : L unit :=
  let* d := load_desc a i in
  let eor := Z.land (dsc_opts1 d) RingEnd in
  store_desc a i (Desc (dsc_addr d) (u32 (Z.lor (Z.lor DescOwn eor) rx_buf_sz))).

Definition rtl8125_map_to_asic (p : ring_ptr) (a i mapping rx_buf_sz : Z) : L unit :=
  let* b := load_buf p i in
  store_buf p i (RtlBuf (b_addr b) mapping (b_size b)) ;;
  let* d := load_desc a i in
  store_desc a i (Desc (u64 mapping) (dsc_opts1 d)) ;;
  rtl8125_mark_to_asic a i rx_buf_sz.

Definition rtl8125_lib_tx_fill (p : ring_ptr) : L unit :=
  let* r := get_ring p in
  for_up (Z.to_nat (r_ring_size r)) 0 (λ i,
    let* b := load_buf p i in
    let* d := load_desc (r_desc_addr r) i in
    store_desc (r_desc_addr r) i (Desc (u64 (b_dma_addr b)) (dsc_opts1 d)) ;;
    if i =? r_ring_size r - 1
    then store_desc (r_desc_addr r) i (Desc (u64 (b_dma_addr b)) RingEnd) else ret tt).

Definition rtl8125_mark_as_last_descriptor (a i : Z) : L unit :=
  let* d := load_desc a i in
  store_desc a i (Desc (dsc_addr d) (Z.lor (dsc_opts1 d) RingEnd)).

Definition rtl8125_lib_rx_fill (p : ring_ptr) : L unit :=
  let* r := get_ring p in
  for_up (Z.to_nat (r_ring_size r)) 0 (λ i,
    let* b := load_buf p i in
    rtl8125_map_to_asic p (r_desc_addr r) i (b_dma_addr b) (r_buff_size r)) ;;
  rtl8125_mark_as_last_descriptor (r_desc_addr r) (u32 (r_ring_size r - 1)).

(** ** Ring allocation *)
(** The first ring from [i] on, [n] of them, that is not lent out; the array
    access is checked. *)
Fixpoint find_free (d : ioss_channel_dir) (i n : nat) : L (option ring_ptr) :=
  match n with
  | O => ret None
  | S n' =>
      let p := RingPtr d i in
      let* r := get_ring p in
      if r_allocated r then find_free d (S i) n'
      else set_ring p (w_allocated true r) ;; ret (Some p)
  end.

Definition rtl8125_get_tx_ring : L (option ring_ptr) :=
  find_free IOSS_CH_DIR_TX num_tx_rings (HwSuppNumTxQueues - num_tx_rings).

Definition rtl8125_get_rx_ring : L (option ring_ptr) :=
  find_free IOSS_CH_DIR_RX num_rx_rings (HwSuppNumRxQueues - num_rx_rings).

Definition rtl8125_put_ring (ring : option ring_ptr) : L unit :=
  match ring with
  | None => ret tt
  | Some p => upd_ring p (w_allocated false)
  end.

(** The two halves of the bus address, low word first. *)
Definition write_ring_base (reg daddr : Z) : L unit :=
  hwcall (RTL_W32 reg (Z.land (u64 daddr) (2 ^ 32 - 1))) ;;
  hwcall (RTL_W32 (reg + 4) (Z.shiftr (u64 daddr) 32)).

Definition rtl8125_init_rx_ring (p : ring_ptr) : L unit :=
  let* r := get_ring p in
  if negb (r_allocated r) then ret tt
  else
    rtl8125_lib_rx_fill p ;;
    write_ring_base (u16 (RDSAR_Q1_LOW_8125 + (r_queue_num r - 1) * 8)) (r_desc_daddr r).

Definition rtl8125_init_tx_ring (p : ring_ptr) : L unit :=
  let* r := get_ring p in
  if negb (r_allocated r) then ret tt
  else
    rtl8125_lib_tx_fill p ;;
    write_ring_base (u16 (TNPDS_Q1_LOW_8125 + (r_queue_num r - 1) * 8)) (r_desc_daddr r).

Definition contig (r : rtl8125_ring) : bool := negb (Z.land (r_flags r) RTL8125_CONTIG_BUFS =? 0).

(** Through a NULL ring pointer this is undefined. *)
Definition rtl8125_free_ring_mem (ring : option ring_ptr) : L unit :=
  match ring with
  | None => ub
  | Some p =>
      let* r := get_ring p in
      (if negb (r_desc_addr r =? 0)
       then dma_free_coherent (r_desc_size r) (r_desc_addr r) (r_desc_daddr r) ;;
            modify (λ s, nic_desc (delete (r_desc_addr r) (desc_mem s)) s) ;;
            upd_ring p (w_desc 0 (r_desc_daddr r))
       else ret tt) ;;
      (if contig r
       then let* b := load_buf p 0 in
            dma_free_coherent (u32 (r_ring_size r * r_buff_size r)) (b_addr b) (b_dma_addr b)
       else for_up (Z.to_nat (r_ring_size r)) 0 (λ i,
              let* b := load_buf p i in
              if negb (b_addr b =? 0)
              then dma_free_coherent (b_size b) (b_addr b) (b_dma_addr b) ;;
                   store_buf p i (RtlBuf 0 (b_dma_addr b) (b_size b))
              else ret tt)) ;;
      upd_ring p (w_bufs None)
  end.

(** The buffers of one contiguous block. *)
Fixpoint contig_bufs (n : nat) (size addr daddr : Z) : list rtl8125_buf :=
  match n with
  | O => []
  | S n' => RtlBuf addr daddr size :: contig_bufs n' size (addr + size) (daddr + size)
  end.

Definition null_buf : rtl8125_buf := RtlBuf 0 0 0.

Definition oom (p : ring_ptr) : L Z := rtl8125_free_ring_mem (Some p) ;; ret (- ENOMEM).

(** [for (i = 1; ...) bufs[i] = bufs[i-1] + buff_size]. *)
Definition chain_bufs (p : ring_ptr) (n size : Z) : L unit :=
  for_up (Z.to_nat (n - 1)) 1 (λ i,
    let* prev := load_buf p (i - 1) in
    store_buf p i (RtlBuf (b_addr prev + size) (b_dma_addr prev + size) size)).

(** One block per buffer; [false] when one cannot be had. *)
Fixpoint alloc_bufs (p : ring_ptr) (n : nat) (i size : Z) : L bool :=
  match n with
  | O => ret true
  | S n' =>
      let* '(a, d) := dma_alloc_coherent size in
      store_buf p i (RtlBuf a d size) ;;
      if a =? 0 then ret false else alloc_bufs p n' (i + 1) size
  end.

(** [ring->desc_size], by direction. *)
Definition desc_bytes (d : ioss_channel_dir) (n : Z) : Z :=
  u32 (match d with IOSS_CH_DIR_TX => n * sizeof_TxDesc | IOSS_CH_DIR_RX => n * RxDescLength end).

Definition rtl8125_alloc_ring_mem (p : ring_ptr) : L Z :=
  let* r := get_ring p in
  let n := r_ring_size r in
  let* rc := ask in
  if negb (rc =? 0) then upd_ring p (w_bufs None) ;; ret (- ENOMEM)
  else
    upd_ring p (w_bufs (Some (replicate (Z.to_nat n) null_buf))) ;;
    if r_mem_ops r then ret 0
    else
      let desc_size := desc_bytes (r_direction r) n in
      upd_ring p (w_desc_size desc_size) ;;
      let* '(a, d) := dma_alloc_coherent desc_size in
      upd_ring p (w_desc a d) ;;
      if a =? 0 then oom p
      else
        modify (λ s, nic_desc (<[a := replicate (Z.to_nat n) (Desc 0 0)]> (desc_mem s)) s) ;;
        if contig r then
          let* '(ba, bd) := dma_alloc_coherent (u32 (n * r_buff_size r)) in
          store_buf p 0 (RtlBuf ba bd (r_buff_size r)) ;;
          if ba =? 0 then oom p
          else chain_bufs p n (r_buff_size r) ;; ret 0
        else
          let* ok := alloc_bufs p (Z.to_nat n) 0 (r_buff_size r) in
          if ok then ret 0 else oom p.

Definition request_error (ring : option ring_ptr) : L (option ring_ptr) :=
  rtl8125_free_ring_mem ring ;; rtl8125_put_ring ring ;; ret None.

Definition rtl8125_request_ring (ring_size buff_size : Z) (direction : ioss_channel_dir)
    (flags : Z) (mem_ops : bool) : L (option ring_ptr) :=
  let* ring := (match direction with
                | IOSS_CH_DIR_TX => rtl8125_get_tx_ring
                | IOSS_CH_DIR_RX => rtl8125_get_rx_ring end) in
  match ring with
  | None => request_error None
  | Some p =>
      upd_ring p (w_geometry ring_size buff_size mem_ops flags) ;;
      let* rc := rtl8125_alloc_ring_mem p in
      if negb (rc =? 0) then request_error (Some p)
      else
        (match direction with
         | IOSS_CH_DIR_TX => rtl8125_init_tx_ring p
         | IOSS_CH_DIR_RX => rtl8125_init_rx_ring p end) ;;
        ret (Some p)
  end.

Definition lent (l : list rtl8125_ring) (from upto : nat) : bool :=
  existsb r_allocated (firstn (upto - from) (skipn from l)).

Definition rtl8125_all_ring_released : L bool :=
  let* s := gets id in
  ret (negb (lent (lib_tx_ring s) num_tx_rings HwSuppNumTxQueues)
       && negb (lent (lib_rx_ring s) num_rx_rings HwSuppNumRxQueues)).

Definition rtl8125_release_ring (ring : option ring_ptr) : L unit :=
  match ring with
  | None => ret tt
  | Some p =>
      rtl8125_free_ring_mem ring ;;
      rtl8125_put_ring ring ;;
      let* released := rtl8125_all_ring_released in
      if released then
        (if netif_running then hwcall DevClose ;; hwcall DevOpen else hwcall EnableLinkchgInt)
      else ret tt
  end.

(** ** Events *)
Definition message_id_of (r : rtl8125_ring) : Z :=
  match r_direction r with
  | IOSS_CH_DIR_TX => if r_queue_num r =? 0 then 16 else 18
  | IOSS_CH_DIR_RX => r_queue_num r
  end.

Definition eri_r (reg : Z) : L Z := let* h := gets hw in ret (eri_read h reg).

(** Address and data of one MSI-X table entry. *)
Definition write_msix (reg addr data : Z) : L unit :=
  hwcall (EriWrite reg (Z.land (u64 addr) (2 ^ 32 - 1))) ;;
  hwcall (EriWrite (reg + 4) (Z.shiftr (u64 addr) 32)) ;;
  hwcall (EriWrite (reg + 8) (u32 data)) ;;
  hwcall (EriWrite (reg + 12) (u32 (Z.shiftr data 32))).

Definition rtl8125_request_event (ring : option ring_ptr) (flags addr data : Z) : L Z :=
  match ring with
  | None => ret (- EINVAL)
  | Some p =>
      let* r := get_ring p in
      if e_allocated (r_event r) then ret (- EEXIST)
      else
        let message_id := message_id_of r in
        if Z.land flags MSIX_event_type =? 0 then ret 0
        else
          let reg := u16 (message_id * 0x10) in
          let* a0 := eri_r reg in
          let* a1 := eri_r (reg + 4) in
          let* d0 := eri_r (reg + 8) in
          let* d1 := eri_r (reg + 8) in
          write_msix reg addr data ;;
          upd_ring p (w_event (RtlEvent (Z.lor a0 (Z.shiftl a1 32)) (Z.lor d0 (Z.shiftl d1 32))
            true (e_enabled (r_event r)) message_id (e_delay (r_event r)))) ;;
          ret 0
  end.

Definition w_ev_allocated (b : bool) (e : rtl8125_event) : rtl8125_event :=
  RtlEvent (e_addr e) (e_data e) b (e_enabled e) (e_message_id e) (e_delay e).
Definition w_ev_enabled (b : bool) (e : rtl8125_event) : rtl8125_event :=
  RtlEvent (e_addr e) (e_data e) (e_allocated e) b (e_message_id e) (e_delay e).
Definition w_ev_delay (z : Z) (e : rtl8125_event) : rtl8125_event :=
  RtlEvent (e_addr e) (e_data e) (e_allocated e) (e_enabled e) (e_message_id e) z.

(** No NULL test here or in the functions below: they dereference. *)
Definition rtl8125_release_event (ring : option ring_ptr) : L unit :=
  match ring with
  | None => ub
  | Some p =>
      let* r := get_ring p in
      if negb (e_allocated (r_event r)) then ret tt
      else
        let reg := u16 (e_message_id (r_event r) * 0x10) in
        write_msix reg (e_addr (r_event r)) (e_data (r_event r)) ;;
        upd_ring p (w_event (w_ev_allocated false (r_event r)))
  end.

Definition rtl8125_set_ring_intr_mod (ring : option ring_ptr) (delay : Z) : L Z :=
  match ring with
  | None => ub
  | Some p =>
      let* r := get_ring p in
      if negb (e_allocated (r_event r)) then ret (- EFAULT)
      else
        upd_ring p (w_event (w_ev_delay delay (r_event r))) ;;
        hwcall (SetTimerInt (e_message_id (r_event r)) (u8 delay)) ;;
        ret 0
  end.

Definition rtl8125_enable_event (ring : option ring_ptr) : L Z :=
  match ring with
  | None => ub
  | Some p =>
      let* r := get_ring p in
      if negb (e_allocated (r_event r)) then ret (- EINVAL)
      else
        let* _ := rtl8125_set_ring_intr_mod ring (e_delay (r_event r)) in
        hwcall (RTL_W32 IMR_V2_SET_REG_8125 (u32 (Z.shiftl 1 (e_message_id (r_event r))))) ;;
        let* r := get_ring p in
        set_ring p (w_event (w_ev_enabled true (r_event r)) r) ;;
        ret 0
  end.

Definition rtl8125_disable_event (ring : option ring_ptr) : L Z :=
  match ring with
  | None => ub
  | Some p =>
      let* r := get_ring p in
      if negb (e_allocated (r_event r)) then ret (- EINVAL)
      else
        hwcall (RTL_W32 IMR_V2_CLEAR_REG_8125 (u32 (Z.shiftl 1 (e_message_id (r_event r))))) ;;
        upd_ring p (w_event (w_ev_enabled false (r_event r))) ;;
        ret 0
  end.

(** ** RSS *)
(** [rtl8125_store_reta]: four table entries to a register, from [i]. *)
Fixpoint store_reta_loop (tbl : list Z) (i reg reta : Z) : L unit :=
  match tbl with
  | [] => ret tt
  | e :: tbl' =>
      let reta := Z.lor reta (u32 (Z.shiftl e (Z.land i 3 * 8))) in
      if Z.land i 3 =? 3
      then hwcall (RTL_W32 reg reta) ;; store_reta_loop tbl' (i + 1) (u16 (reg + 4)) 0
      else store_reta_loop tbl' (i + 1) reg reta
  end.

Definition rtl8125_store_reta : L unit :=
  let* tbl := gets rss_indir_tbl in
  store_reta_loop (firstn HwSuppIndirTblEntries tbl) 0 RSS_INDIRECTION_TBL_8125_V2 0.

Definition _rtl8125_config_rss : L unit :=
  hwcall SetRssHashOpt ;; rtl8125_store_reta ;; hwcall StoreRssKey.

(** [tp->rss_indir_tbl[i] = f i] for the supported entries. *)
Definition fill_indir (f : nat → Z) : L unit :=
  modify (λ s, nic_indir (imap (λ i e, if Nat.ltb i HwSuppIndirTblEntries then f i else e)
    (rss_indir_tbl s)) s).

Definition rtl8125_rss_redirect (ring : option ring_ptr) : L Z :=
  match ring with
  | None => ub
  | Some p =>
      let* r := get_ring p in
      fill_indir (λ _, u8 (r_queue_num r)) ;;
      _rtl8125_config_rss ;;
      ret 0
  end.

(** [ethtool_rxfh_indir_default] spreads the entries over the rings. *)
Definition rtl8125_init_rss : L unit :=
  fill_indir (λ i, u8 (Z.of_nat i mod Z.of_nat num_rx_rings)) ;; hwcall RssKeyFill.

Definition rtl8125_rss_reset : L Z :=
  rtl8125_init_rss ;; _rtl8125_config_rss ;; ret 0.

(** [rtl8125_init_lib_ring]: what a reset of the device does for lent rings. *)
Definition init_lib_one (d : ioss_channel_dir) (i : nat) : L unit :=
  let p := RingPtr d i in
  let* r := get_ring p in
  if negb (r_allocated r) then ret tt
  else
    (if e_enabled (r_event r) then let* _ := rtl8125_enable_event (Some p) in ret tt else ret tt) ;;
    match d with
    | IOSS_CH_DIR_TX => rtl8125_init_tx_ring p
    | IOSS_CH_DIR_RX => rtl8125_init_rx_ring p
    end.

Fixpoint init_lib_from (d : ioss_channel_dir) (i n : nat) : L unit :=
  match n with
  | O => ret tt
  | S n' => init_lib_one d i ;; init_lib_from d (S i) n'
  end.

Definition rtl8125_init_lib_ring : L unit :=
  init_lib_from IOSS_CH_DIR_TX num_tx_rings (HwSuppNumTxQueues - num_tx_rings) ;;
  init_lib_from IOSS_CH_DIR_RX num_rx_rings (HwSuppNumRxQueues - num_rx_rings).
(** ** Starting and stopping *)
Definition w_index (d : ioss_channel_dir) (q : Z) (r : rtl8125_ring) : rtl8125_ring :=
  RtlRing (r_enabled r) (r_allocated r) d q (r_flags r) (r_ring_size r)
    (r_desc_size r) (r_buff_size r) (r_desc_addr r) (r_desc_daddr r) (r_bufs r) (r_mem_ops r) (r_event r).

Definition index_rings (d : ioss_channel_dir) (n : nat) : list rtl8125_ring → list rtl8125_ring :=
  imap (λ i r, if Nat.ltb i n then w_index d (Z.of_nat i) r else r).

(** [rtl8125_init_ring_indexes], the part on the lent rings. *)
Definition rtl8125_init_ring_indexes : L unit :=
  modify (λ s, set_rings IOSS_CH_DIR_TX
    (index_rings IOSS_CH_DIR_TX HwSuppNumTxQueues (rings_of IOSS_CH_DIR_TX s)) s) ;;
  modify (λ s, set_rings IOSS_CH_DIR_RX
    (index_rings IOSS_CH_DIR_RX HwSuppNumRxQueues (rings_of IOSS_CH_DIR_RX s)) s).

Fixpoint notify_all (action : Z → hw_call) (nbs : list Z) : L unit :=
  match nbs with
  | [] => ret tt
  | nb :: nbs' => hwcall (action nb) ;; notify_all action nbs'
  end.

Definition rtl8125_lib_reset_prepare : L unit :=
  let* nbs := gets lib_nh in notify_all NotifyResetPrepare nbs.
Definition rtl8125_lib_reset_complete : L unit :=
  let* nbs := gets lib_nh in notify_all NotifyResetComplete nbs.

(** [rtl8125_hw_reset]: the library is told first. *)
Definition rtl8125_hw_reset : L unit := rtl8125_lib_reset_prepare ;; hwcall HwReset.

Definition rtl8125_hw_start : L unit :=
  rtl8125_init_lib_ring ;;
  hwcall ChipCmdEnable ;; hwcall EnableHwInterrupt ;;
  rtl8125_lib_reset_complete.

Definition rtl8125_enable_ring (ring : option ring_ptr) : L Z :=
  match ring with
  | None => ret (- EINVAL)
  | Some p =>
      hwcall NetifTxDisable ;; hwcall WaitForQuiescence ;; rtl8125_hw_reset ;;
      hwcall TxClear ;; hwcall RxClear ;; rtl8125_init_ring_indexes ;; hwcall InitRing ;;
      upd_ring p (w_enabled true) ;;
      hwcall HwConfig ;; rtl8125_hw_start ;; hwcall EnableNapi ;; hwcall NetifTxStartAll ;;
      ret 0
  end.

Definition rtl8125_disable_ring (ring : option ring_ptr) : L unit :=
  match ring with
  | None => ret tt
  | Some p => rtl8125_hw_reset ;; upd_ring p (w_enabled false)
  end.

(** ** Reset notification

    A notifier chain of equal priorities: appended at the end, once. *)
Definition rtl8125_register_notifier (nb : Z) : L Z :=
  let* l := gets lib_nh in
  if decide (nb ∈ l) then ret (- EEXIST) else modify (nic_nh (l ++ [nb])) ;; ret 0.

Definition rtl8125_unregister_notifier (nb : Z) : L Z :=
  let* l := gets lib_nh in
  if decide (nb ∈ l) then modify (nic_nh (filter (λ x, x ≠ nb) l)) ;; ret 0 else ret (- ENOENT).
End lib.
