(* ===== verification/RtlLibSpec.v ===== *)
(** * The r8125 offload library: correctness

    A lent ring, its memory and its registers: what requesting, releasing and
    restarting rings does to the state. *)
From stdpp Require Import base tactics list gmap numbers.
From Stdlib Require Import ZArith Lia.
From S2P Require Import Prelude IossUtils RtlLib.

(** ** The state *)
Definition other_dir (d : ioss_channel_dir) : ioss_channel_dir :=
  match d with IOSS_CH_DIR_TX => IOSS_CH_DIR_RX | IOSS_CH_DIR_RX => IOSS_CH_DIR_TX end.

Lemma rings_of_set d l s : rings_of d (set_rings d l s) = l.
Proof. by destruct d. Qed.
Lemma rings_of_set_ne d d' l s : d ≠ d' → rings_of d (set_rings d' l s) = rings_of d s.
Proof. by destruct d, d'. Qed.
Lemma set_rings_id d s : set_rings d (rings_of d s) s = s.
Proof. by destruct s, d. Qed.
Lemma set_set_rings d l l' s : set_rings d l (set_rings d l' s) = set_rings d l s.
Proof. by destruct d. Qed.
Lemma rings_of_desc d m s : rings_of d (nic_desc m s) = rings_of d s.
Proof. by destruct d. Qed.
Lemma rings_of_dma d m v s : rings_of d (nic_dma m v s) = rings_of d s.
Proof. by destruct d. Qed.
Lemma rings_of_faults d f s : rings_of d (nic_faults f s) = rings_of d s.
Proof. by destruct d. Qed.
Lemma rings_of_hw d h s : rings_of d (nic_hw h s) = rings_of d s.
Proof. by destruct d. Qed.
Lemma desc_mem_set_rings d l s : desc_mem (set_rings d l s) = desc_mem s.
Proof. by destruct d. Qed.
Lemma dma_set_rings d l s : dma (set_rings d l s) = dma s.
Proof. by destruct d. Qed.
Lemma vnext_set_rings d l s : vnext (set_rings d l s) = vnext s.
Proof. by destruct d. Qed.
Lemma faults_set_rings d l s : faults (set_rings d l s) = faults s.
Proof. by destruct d. Qed.
Lemma hw_set_rings d l s : hw (set_rings d l s) = hw s.
Proof. by destruct d. Qed.
Lemma indir_set_rings d l s : rss_indir_tbl (set_rings d l s) = rss_indir_tbl s.
Proof. by destruct d. Qed.
Lemma nh_set_rings d l s : lib_nh (set_rings d l s) = lib_nh s.
Proof. by destruct d. Qed.
Create HintDb nic_at.
Create Rewrite HintDb nic.
#[export] Hint Rewrite rings_of_set rings_of_desc rings_of_dma rings_of_faults rings_of_hw
  desc_mem_set_rings dma_set_rings vnext_set_rings faults_set_rings hw_set_rings
  indir_set_rings nh_set_rings : nic.

Lemma nic_desc_desc m m' s : nic_desc m (nic_desc m' s) = nic_desc m s.
Proof. done. Qed.
Lemma nic_desc_id s : nic_desc (desc_mem s) s = s.
Proof. by destruct s. Qed.

#[export] Instance ring_ptr_eq_dec : EqDecision ring_ptr.
Proof. solve_decision. Defined.

(** The ring a pointer designates. *)
Definition at_ring (p : ring_ptr) (r : rtl8125_ring) (s : nic) : Prop :=
  rings_of (rp_dir p) s !! rp_idx p = Some r.
Definition put_ring (p : ring_ptr) (r : rtl8125_ring) (s : nic) : nic :=
  set_rings (rp_dir p) (<[rp_idx p := r]> (rings_of (rp_dir p) s)) s.

Lemma at_put p r r' s : at_ring p r s → at_ring p r' (put_ring p r' s).
Proof.
  unfold at_ring, put_ring. intros H. rewrite rings_of_set.
  apply list_lookup_insert_eq. by eapply lookup_lt_Some.
Qed.
Lemma put_put p r r' s : put_ring p r (put_ring p r' s) = put_ring p r s.
Proof. unfold put_ring. by rewrite rings_of_set, set_set_rings, list_insert_insert_eq. Qed.
Lemma put_ring_id p r s : at_ring p r s → put_ring p r s = s.
Proof. unfold at_ring, put_ring. intros H. by rewrite list_insert_id, set_rings_id. Qed.

Lemma at_put_ne p p' r r' s : p ≠ p' → at_ring p r s → at_ring p r (put_ring p' r' s).
Proof.
  unfold at_ring, put_ring. intros Hp H. destruct (decide (rp_dir p = rp_dir p')) as [E|E].
  - rewrite E, rings_of_set, list_lookup_insert_ne; [by rewrite <- E|].
    intros E'. apply Hp. destruct p, p'; simpl in *; by subst.
  - by rewrite rings_of_set_ne.
Qed.
Lemma at_put_inv p p' r r' s :
  at_ring p r (put_ring p' r' s) → p = p' ∧ r = r' ∨ p ≠ p' ∧ at_ring p r s.
Proof.
  unfold at_ring, put_ring. intros H. destruct (decide (rp_dir p = rp_dir p')) as [E|E].
  - rewrite E, rings_of_set in H. destruct (decide (rp_idx p = rp_idx p')) as [E'|E'].
    + rewrite E' in H. left. apply list_lookup_insert_Some in H as [[_ [? _]]|[? _]]; [|done].
      split; [|done]. destruct p, p'; simpl in *; by subst.
    + rewrite list_lookup_insert_ne in H by done. right. split; [by intros ->|by rewrite E].
  - rewrite rings_of_set_ne in H by done. right. split; [by intros ->|done].
Qed.

Lemma get_ring_wp p r Q s : at_ring p r s → Q r s → wp (get_ring p) Q s.
Proof. intros H HQ. unfold get_ring. apply wp_bind, wp_gets. by eapply wp_lift_opt. Qed.
Lemma set_ring_wp p r Q s : Q tt (put_ring p r s) → wp (set_ring p r) Q s.
Proof. done. Qed.
Lemma upd_ring_wp p f r Q s : at_ring p r s → Q tt (put_ring p (f r) s) → wp (upd_ring p f) Q s.
Proof. intros H HQ. unfold upd_ring. apply wp_bind. by eapply get_ring_wp. Qed.
Lemma hwcall_wp c (Q : unit → nic → Prop) s : Q tt (nic_hw (c :: hw s) s) → wp (hwcall c) Q s.
Proof. done. Qed.

(** ** Descriptors *)
Lemma load_desc_wp a i l d Q s :
  desc_mem s !! a = Some l → l !! Z.to_nat i = Some d → Q d s → wp (load_desc a i) Q s.
Proof.
  intros Ha Hi HQ. unfold load_desc. apply wp_bind, wp_gets.
  eapply wp_lift_opt; [|done]. unfold id. rewrite Ha. simpl. done.
Qed.
Lemma store_desc_wp a i l d (Q : unit → nic → Prop) s :
  desc_mem s !! a = Some l → 0 ≤ i < Z.of_nat (length l) →
  Q tt (nic_desc (<[a := <[Z.to_nat i := d]> l]> (desc_mem s)) s) → wp (store_desc a i d) Q s.
Proof. intros Ha Hi HQ. unfold wp, store_desc. rewrite Ha. by case_decide. Qed.

Lemma load_desc_in a i l m d Q s :
  l !! Z.to_nat i = Some d → Q d (nic_desc (<[a := l]> m) s) →
  wp (load_desc a i) Q (nic_desc (<[a := l]> m) s).
Proof. intros Hi. apply load_desc_wp with (l := l); [|done]. simpl. by rewrite lookup_insert_eq. Qed.
Lemma store_desc_in a i l m d (Q : unit → nic → Prop) s :
  0 ≤ i < Z.of_nat (length l) → Q tt (nic_desc (<[a := <[Z.to_nat i := d]> l]> m) s) →
  wp (store_desc a i d) Q (nic_desc (<[a := l]> m) s).
Proof.
  intros Hi HQ. eapply store_desc_wp with (l := l); [simpl; by rewrite lookup_insert_eq|done|].
  simpl. by rewrite nic_desc_desc, insert_insert_eq.
Qed.

(** The contents of a descriptor array after the first [k] were rewritten. *)
Definition filled (f : Z → rx_tx_desc → rx_tx_desc) (k : Z) (l : list rx_tx_desc) : list rx_tx_desc :=
  imap (λ i d, if Z.of_nat i <? k then f (Z.of_nat i) d else d) l.

Lemma filled_0 f l : filled f 0 l = l.
Proof.
  unfold filled. apply list_eq. intros i. rewrite list_lookup_imap.
  destruct (l !! i); simpl; [|done]. by destruct (Z.ltb_spec (Z.of_nat i) 0); [lia|].
Qed.
Lemma filled_length f k l : length (filled f k l) = length l.
Proof. apply length_imap. Qed.
Lemma filled_lookup f k l i :
  filled f k l !! i = (λ d, if Z.of_nat i <? k then f (Z.of_nat i) d else d) <$> l !! i.
Proof. unfold filled. by rewrite list_lookup_imap. Qed.
Lemma filled_step f k l d : 0 ≤ k → l !! Z.to_nat k = Some d →
  <[Z.to_nat k := f k d]> (filled f k l) = filled f (k + 1) l.
Proof.
  intros Hk Hd. apply list_eq. intros j. destruct (decide (j = Z.to_nat k)) as [->|Hj].
  - rewrite list_lookup_insert_eq by (rewrite filled_length; by eapply lookup_lt_Some).
    rewrite filled_lookup, Hd. simpl. rewrite Z2Nat.id by done.
    by destruct (Z.ltb_spec k (k + 1)); [|lia].
  - rewrite list_lookup_insert_ne by done. rewrite !filled_lookup. destruct (l !! j); [|done].
    simpl. destruct (Z.ltb_spec (Z.of_nat j) k), (Z.ltb_spec (Z.of_nat j) (k + 1)); [done|lia|lia|done].
Qed.

(** The loop that rewrites every descriptor of a ring. *)
Lemma fill_loop_wp a f l (body : Z → L unit) s :
  desc_mem s !! a = Some l →
  (∀ i d l', 0 ≤ i < Z.of_nat (length l) → length l' = length l → l' !! Z.to_nat i = Some d →
     wp (body i) (λ _ s', s' = nic_desc (<[a := <[Z.to_nat i := f i d]> l']> (desc_mem s)) s)
        (nic_desc (<[a := l']> (desc_mem s)) s)) →
  wp (for_up (length l) 0 body)
     (λ _ s', s' = nic_desc (<[a := filled f (Z.of_nat (length l)) l]> (desc_mem s)) s) s.
Proof.
  intros Ha Hb.
  apply (wp_for_up (length l) 0 body (λ k s', s' = nic_desc (<[a := filled f k l]> (desc_mem s)) s)).
  { by rewrite filled_0, insert_id, nic_desc_id. }
  intros i s' Hi ->.
  destruct (lookup_lt_is_Some_2 l (Z.to_nat i)) as [d Hd]; [lia|].
  assert (filled f i l !! Z.to_nat i = Some d) as Hl.
  { rewrite filled_lookup, Hd. simpl. rewrite Z2Nat.id by lia. by rewrite Z.ltb_irrefl. }
  eapply wp_mono; [apply (Hb i d (filled f i l)); [lia|apply filled_length|done]|].
  intros [] s' ->. by rewrite <- (filled_step f i l d) by (lia || done).
Qed.

(** ** Initial descriptors *)
Definition tx_init (n : Z) (dma_at : Z → Z) (i : Z) (d : rx_tx_desc) : rx_tx_desc :=
  Desc (u64 (dma_at i)) (if i =? n - 1 then RingEnd else dsc_opts1 d).
Definition rx_init (sz : Z) (dma_at : Z → Z) (i : Z) (d : rx_tx_desc) : rx_tx_desc :=
  Desc (u64 (dma_at i)) (u32 (Z.lor (Z.lor DescOwn (Z.land (dsc_opts1 d) RingEnd)) sz)).

Lemma contig_bufs_length n size a d : length (contig_bufs n size a d) = n.
Proof. revert a d. induction n; intros; simpl; auto. Qed.
Lemma contig_bufs_lookup n size a d i : (i < n)%nat →
  contig_bufs n size a d !! i =
    Some (RtlBuf (a + Z.of_nat i * size) (d + Z.of_nat i * size) size).
Proof.
  revert a d i. induction n as [|n IH]; intros a d [|i] Hi; simpl; [lia|lia|f_equal; f_equal; lia|].
  rewrite IH by lia. f_equal; f_equal; lia.
Qed.

Section fills.
Context (p : ring_ptr) (r : rtl8125_ring) (bufs : list rtl8125_buf) (l : list rx_tx_desc) (s : nic).
Context (Hat : at_ring p r s) (Hbufs : r_bufs r = Some bufs) (Hlen : length bufs = length l)
  (Hsize : r_ring_size r = Z.of_nat (length l)) (Hdesc : desc_mem s !! r_desc_addr r = Some l).

Definition dma_of_buf (i : Z) : Z := match bufs !! Z.to_nat i with Some b => b_dma_addr b | None => 0 end.

Lemma load_buf_wp i b Q m :
  bufs !! Z.to_nat i = Some b → Q b (nic_desc m s) → wp (load_buf p i) Q (nic_desc m s).
Proof.
  intros Hb HQ. unfold load_buf. apply wp_bind. eapply get_ring_wp.
  - unfold at_ring. by rewrite rings_of_desc.
  - eapply wp_lift_opt; [|done]. by rewrite Hbufs.
Qed.

Lemma store_buf_same_wp i b (Q : unit → nic → Prop) m :
  0 ≤ i → bufs !! Z.to_nat i = Some b → Q tt (nic_desc m s) → wp (store_buf p i b) Q (nic_desc m s).
Proof.
  intros Hi Hb HQ. unfold store_buf. apply wp_bind.
  assert (at_ring p r (nic_desc m s)) as Hat' by (unfold at_ring; by rewrite rings_of_desc).
  eapply get_ring_wp; [done|]. rewrite Hbufs. pose proof (lookup_lt_Some _ _ _ Hb).
  case_decide; [|lia]. apply set_ring_wp.
  replace (w_bufs _ r) with r by (rewrite list_insert_id by done; rewrite <- Hbufs; by destruct r).
  by rewrite put_ring_id.
Qed.

Lemma tx_fill_wp : wp (rtl8125_lib_tx_fill p)
  (λ _ s', s' = nic_desc (<[r_desc_addr r :=
     filled (tx_init (r_ring_size r) dma_of_buf) (r_ring_size r) l]> (desc_mem s)) s) s.
Proof.
  unfold rtl8125_lib_tx_fill. apply wp_bind. eapply get_ring_wp; [done|].
  rewrite Hsize, Nat2Z.id. apply fill_loop_wp; [done|]. intros i d l' Hi Hl' Hd.
  destruct (lookup_lt_is_Some_2 bufs (Z.to_nat i)) as [b Hb]; [lia|].
  apply wp_bind. eapply load_buf_wp; [done|]. apply wp_bind.
  eapply load_desc_in; [done|].
  apply wp_bind. apply store_desc_in; [lia|].
  unfold tx_init, dma_of_buf. rewrite Hb. destruct (i =? _) eqn:E.
  - apply store_desc_in; [rewrite length_insert; lia|]. by rewrite list_insert_insert_eq.
  - by apply wp_ret.
Qed.

Lemma rx_fill_wp : 1 ≤ r_ring_size r ≤ 2 ^ 32 → wp (rtl8125_lib_rx_fill p)
  (λ _ s', s' = nic_desc (<[r_desc_addr r := alter (λ d, Desc (dsc_addr d) (Z.lor (dsc_opts1 d) RingEnd))
     (pred (length l)) (filled (rx_init (r_buff_size r) dma_of_buf) (r_ring_size r) l)]> (desc_mem s)) s) s.
Proof.
  intros Hn. unfold rtl8125_lib_rx_fill. apply wp_bind. eapply get_ring_wp; [done|].
  apply wp_bind. rewrite Hsize, Nat2Z.id.
  eapply wp_mono; [apply (fill_loop_wp (r_desc_addr r) (rx_init (r_buff_size r) dma_of_buf) l); [done|]|].
  - intros i d l' Hi Hl' Hd.
    destruct (lookup_lt_is_Some_2 bufs (Z.to_nat i)) as [b Hb]; [lia|].
    apply wp_bind. eapply load_buf_wp; [done|]. unfold rtl8125_map_to_asic.
    apply wp_bind. eapply load_buf_wp; [done|]. apply wp_bind.
    eapply store_buf_same_wp; [lia|rewrite Hb; by destruct b|].
    apply wp_bind. eapply load_desc_in; [done|].
    apply wp_bind. apply store_desc_in; [lia|]. unfold rtl8125_mark_to_asic.
    apply wp_bind. eapply load_desc_in;
      [by rewrite list_lookup_insert_eq by lia|].
    apply store_desc_in; [rewrite length_insert; lia|]. rewrite list_insert_insert_eq.
    unfold rx_init, dma_of_buf. by rewrite Hb.
  - intros [] s0 ->. unfold rtl8125_mark_as_last_descriptor.
    assert (Z.to_nat (u32 (Z.of_nat (length l) - 1)) = pred (length l)) as E.
    { unfold u32. rewrite Z.mod_small by lia. lia. }
    set (l1 := filled _ _ l).
    destruct (lookup_lt_is_Some_2 l1 (pred (length l))) as [d Hd];
      [unfold l1; rewrite filled_length; lia|].
    apply wp_bind. eapply load_desc_in; [by rewrite E|].
    apply store_desc_in.
    + unfold l1. rewrite filled_length. unfold u32. rewrite Z.mod_small by lia. lia.
    + rewrite E. f_equal. f_equal.
      apply list_eq. intros j. destruct (decide (j = pred (length l))) as [->|Hj].
      * rewrite list_lookup_insert_eq by (by eapply lookup_lt_Some).
        by rewrite list_lookup_alter_eq, Hd.
      * by rewrite list_lookup_insert_ne, list_lookup_alter_ne by done.
Qed.
End fills.

(** ** Normal forms of states: ring updates outermost *)
Lemma nic_desc_put m p r s : nic_desc m (put_ring p r s) = put_ring p r (nic_desc m s).
Proof. by destruct p as [[]]. Qed.
Lemma nic_dma_put m v p r s : nic_dma m v (put_ring p r s) = put_ring p r (nic_dma m v s).
Proof. by destruct p as [[]]. Qed.
Lemma nic_hw_put h p r s : nic_hw h (put_ring p r s) = put_ring p r (nic_hw h s).
Proof. by destruct p as [[]]. Qed.
Lemma put_ring_desc p r s : desc_mem (put_ring p r s) = desc_mem s.
Proof. by destruct p as [[]]. Qed.
Lemma put_ring_dma p r s : dma (put_ring p r s) = dma s.
Proof. by destruct p as [[]]. Qed.
Lemma put_ring_vnext p r s : vnext (put_ring p r s) = vnext s.
Proof. by destruct p as [[]]. Qed.
Lemma put_ring_faults p r s : faults (put_ring p r s) = faults s.
Proof. by destruct p as [[]]. Qed.
Lemma put_ring_hw p r s : hw (put_ring p r s) = hw s.
Proof. by destruct p as [[]]. Qed.
Lemma put_ring_rings d i r s :
  rings_of d (put_ring (RingPtr d i) r s) = <[i := r]> (rings_of d s).
Proof. unfold put_ring. simpl. by rewrite rings_of_set. Qed.
Lemma put_ring_other d i r s :
  rings_of (other_dir d) (put_ring (RingPtr d i) r s) = rings_of (other_dir d) s.
Proof. by destruct d. Qed.
#[export] Hint Rewrite nic_desc_put nic_dma_put nic_hw_put put_ring_desc put_ring_dma put_ring_vnext
  put_ring_faults put_ring_hw put_put : nic.

Lemma at_ring_desc p r m s : at_ring p r s → at_ring p r (nic_desc m s).
Proof. unfold at_ring. by rewrite rings_of_desc. Qed.
Lemma at_ring_dma p r m v s : at_ring p r s → at_ring p r (nic_dma m v s).
Proof. unfold at_ring. by rewrite rings_of_dma. Qed.
Lemma at_ring_hw p r h s : at_ring p r s → at_ring p r (nic_hw h s).
Proof. unfold at_ring. by rewrite rings_of_hw. Qed.
#[export] Hint Resolve at_ring_desc at_ring_dma at_ring_hw at_put : nic_at.

(** ** Memory *)
Lemma ask_wp Q s : faults s = [] → Q 0 s → wp ask Q s.
Proof. intros Hf HQ. unfold wp, ask. rewrite Hf. simpl. destruct s; simpl in *; by subst. Qed.

Lemma ask_nil s : faults s = [] → ask s = Some (0, s).
Proof. intros Hf. unfold ask. rewrite Hf. simpl. destruct s; simpl in *; by subst. Qed.

Section mem.
Context `{NicApi}.

Lemma dma_alloc_wp size (Q : Z * Z → nic → Prop) s : faults s = [] →
  Q (vnext s, dma_of (vnext s))
    (nic_dma (<[vnext s := (size, dma_of (vnext s))]> (dma s)) (vnext s + Z.max 1 size) s) →
  wp (dma_alloc_coherent size) Q s.
Proof.
  intros Hf HQ. unfold dma_alloc_coherent. apply wp_bind, ask_wp; [done|]. simpl. by wp_steps.
Qed.

Lemma dma_free_wp size a d (Q : unit → nic → Prop) s :
  a ≠ 0 → dma s !! a = Some (size, d) → Q tt (nic_dma (delete a (dma s)) (vnext s) s) →
  wp (dma_free_coherent size a d) Q s.
Proof.
  intros Ha Hm HQ. unfold dma_free_coherent. destruct (Z.eqb_spec a 0); [done|].
  unfold wp. by case_decide.
Qed.

Lemma contig_bufs_snoc n size a d :
  contig_bufs (S n) size a d =
    contig_bufs n size a d ++ [RtlBuf (a + Z.of_nat n * size) (d + Z.of_nat n * size) size].
Proof.
  apply list_eq. intros i. destruct (decide (i < n)%nat).
  - rewrite lookup_app_l by (rewrite contig_bufs_length; lia).
    by rewrite !contig_bufs_lookup by lia.
  - rewrite lookup_app_r by (rewrite contig_bufs_length; lia). rewrite contig_bufs_length.
    destruct (decide (i = n)) as [->|].
    + rewrite contig_bufs_lookup by lia. by rewrite Nat.sub_diag.
    + rewrite !lookup_ge_None_2; [done|simpl; lia|rewrite contig_bufs_length; lia].
Qed.

(** The buffers while the block is being cut up. *)
Definition partial_bufs (n k : nat) (sz a d : Z) : list rtl8125_buf :=
  contig_bufs k sz a d ++ replicate (n - k) null_buf.

Lemma chain_bufs_wp p r n sz a d s :
  at_ring p r s → 1 ≤ n → r_bufs r = Some (partial_bufs (Z.to_nat n) 1 sz a d) →
  wp (chain_bufs p n sz)
     (λ _ s', s' = put_ring p (w_bufs (Some (contig_bufs (Z.to_nat n) sz a d)) r) s) s.
Proof.
  intros Hat Hn Hb. unfold chain_bufs.
  eapply wp_mono; [apply (wp_for_up _ 1 _ (λ k s', s' =
    put_ring p (w_bufs (Some (partial_bufs (Z.to_nat n) (Z.to_nat k) sz a d)) r) s))|].
  - replace (w_bufs _ r) with r; [by rewrite put_ring_id|]. change (Z.to_nat 1) with 1%nat.
    rewrite <- Hb. by destruct r.
  - intros i s' Hi ->.
    assert (at_ring p (w_bufs (Some (partial_bufs (Z.to_nat n) (Z.to_nat i) sz a d)) r)
      (put_ring p (w_bufs (Some (partial_bufs (Z.to_nat n) (Z.to_nat i) sz a d)) r) s)) as Hat'
      by (by eapply at_put).
    apply wp_bind. unfold load_buf. apply wp_bind. eapply get_ring_wp; [done|].
    eapply wp_lift_opt.
    { simpl. unfold partial_bufs. rewrite lookup_app_l by (rewrite contig_bufs_length; lia).
      by rewrite contig_bufs_lookup by lia. }
    simpl. unfold store_buf. apply wp_bind. eapply get_ring_wp; [done|]. simpl.
    assert (length (partial_bufs (Z.to_nat n) (Z.to_nat i) sz a d) = Z.to_nat n) as Hlen.
    { unfold partial_bufs. rewrite length_app, contig_bufs_length, length_replicate. lia. }
    case_decide; [|lia]. apply set_ring_wp. rewrite put_put. f_equal. unfold w_bufs. simpl.
    f_equal. f_equal. unfold partial_bufs.
    replace (Z.to_nat n - Z.to_nat i)%nat with (S (Z.to_nat n - S (Z.to_nat i))) by lia.
    rewrite insert_app_r_alt by (rewrite contig_bufs_length; lia).
    rewrite contig_bufs_length, Nat.sub_diag. simpl.
    replace (Z.to_nat (i + 1)) with (S (Z.to_nat i)) by lia.
    rewrite contig_bufs_snoc, <- app_assoc. simpl. rewrite !Z2Nat.id by lia.
    do 2 f_equal. f_equal; lia.
  - intros [] s' ->. f_equal. f_equal. f_equal. unfold partial_bufs.
    replace (Z.to_nat (1 + Z.of_nat (Z.to_nat (n - 1)))) with (Z.to_nat n) by lia.
    by rewrite Nat.sub_diag, app_nil_r.
Qed.

(** ** Requesting a ring *)
Definition lib_first (d : ioss_channel_dir) : nat :=
  match d with IOSS_CH_DIR_TX => num_tx_rings | IOSS_CH_DIR_RX => num_rx_rings end.
Definition lib_upto (d : ioss_channel_dir) : nat :=
  match d with IOSS_CH_DIR_TX => HwSuppNumTxQueues | IOSS_CH_DIR_RX => HwSuppNumRxQueues end.

(** The first ring of a direction that is not lent. *)
Definition first_free (d : ioss_channel_dir) (i : nat) (r : rtl8125_ring) (s : nic) : Prop :=
  (lib_first d ≤ i < lib_upto d)%nat ∧ at_ring (RingPtr d i) r s ∧ r_allocated r = false ∧
  ∀ j, (lib_first d ≤ j < i)%nat → ∃ r', at_ring (RingPtr d j) r' s ∧ r_allocated r' = true.

Lemma find_free_wp d i r s j n :
  (j ≤ i < j + n)%nat → at_ring (RingPtr d i) r s → r_allocated r = false →
  (∀ k, (j ≤ k < i)%nat → ∃ r', at_ring (RingPtr d k) r' s ∧ r_allocated r' = true) →
  wp (find_free d j n) (λ p s', p = Some (RingPtr d i) ∧
    s' = put_ring (RingPtr d i) (w_allocated true r) s) s.
Proof.
  intros Hj Hi Hr Hk. revert j Hj Hk. induction n as [|n IH]; intros j Hj Hk; [lia|]. simpl.
  apply wp_bind. destruct (decide (j = i)) as [->|Hne].
  - eapply get_ring_wp; [done|]. rewrite Hr. wp_step. apply set_ring_wp. by apply wp_ret.
  - destruct (Hk j) as (r' & Hr' & Ha); [lia|]. eapply get_ring_wp; [done|]. rewrite Ha.
    apply IH; [lia|]. intros k ?. apply Hk. lia.
Qed.

Lemma no_free_wp d s j n :
  (∀ k, (j ≤ k < j + n)%nat → ∃ r', at_ring (RingPtr d k) r' s ∧ r_allocated r' = true) →
  wp (find_free d j n) (λ p s', p = None ∧ s' = s) s.
Proof.
  revert j. induction n as [|n IH]; intros j Hk; simpl; [by apply wp_ret|].
  apply wp_bind. destruct (Hk j) as (r' & Hr' & Ha); [lia|]. eapply get_ring_wp; [done|].
  rewrite Ha. apply IH. intros k ?. apply Hk. lia.
Qed.

Definition get_lib_ring (d : ioss_channel_dir) : L (option ring_ptr) :=
  match d with
  | IOSS_CH_DIR_TX => rtl8125_get_tx_ring
  | IOSS_CH_DIR_RX => rtl8125_get_rx_ring
  end.

Lemma get_lib_ring_wp d i r s : first_free d i r s →
  wp (get_lib_ring d) (λ p s', p = Some (RingPtr d i) ∧
    s' = put_ring (RingPtr d i) (w_allocated true r) s) s.
Proof.
  intros (Hi & Hat & Hf & Hk).
  destruct d; simpl in *; apply find_free_wp with (r := r); (done || lia).
Qed.

(** The size of the buffer block of a ring. *)
Definition buff_bytes (n sz : Z) : Z := u32 (n * sz).

(** The ring with its memory: descriptors at [a], buffers at [ba]. *)
Definition with_memory (a ba : Z) (r : rtl8125_ring) : rtl8125_ring :=
  w_bufs (Some (contig_bufs (Z.to_nat (r_ring_size r)) (r_buff_size r) ba (dma_of ba)))
    (w_desc a (dma_of a) (w_desc_size (desc_bytes (r_direction r) (r_ring_size r)) r)).

Lemma alloc_ring_mem_wp p r s :
  at_ring p r s → faults s = [] → 0 < vnext s → 1 ≤ r_ring_size r →
  r_mem_ops r = false → contig r = true →
  let n := r_ring_size r in let ds := desc_bytes (r_direction r) n in
  let a := vnext s in let ba := a + Z.max 1 ds in let bs := buff_bytes n (r_buff_size r) in
  wp (rtl8125_alloc_ring_mem p) (λ rc s', rc = 0 ∧
    s' = put_ring p (with_memory a ba r)
      (nic_desc (<[a := replicate (Z.to_nat n) (Desc 0 0)]> (desc_mem s))
      (nic_dma (<[ba := (bs, dma_of ba)]> (<[a := (ds, dma_of a)]> (dma s))) (ba + Z.max 1 bs) s))) s.
Proof.
  intros Hat Hf Hv Hn Hops Hc n ds a ba bs. unfold rtl8125_alloc_ring_mem.
  apply wp_bind. eapply get_ring_wp; [done|]. apply wp_bind, ask_wp; [done|]. simpl.
  apply wp_bind. eapply upd_ring_wp; [done|]. rewrite Hops.
  apply wp_bind. eapply upd_ring_wp; [by eapply at_put|]. apply wp_bind.
  apply dma_alloc_wp; [by autorewrite with nic|]. cbv beta. autorewrite with nic. fold n ds a.
  apply wp_bind. eapply upd_ring_wp; [eauto using at_put with nic_at|].
  autorewrite with nic. destruct (Z.eqb_spec a 0); [unfold a in *; lia|].
  apply wp_bind, wp_modify. rewrite Hc.
  apply wp_bind. apply dma_alloc_wp; [by autorewrite with nic|]. cbv beta. autorewrite with nic. simpl.
  fold n (buff_bytes n (r_buff_size r)) ds a ba bs.
  apply wp_bind. unfold store_buf. apply wp_bind. eapply get_ring_wp; [eauto using at_put with nic_at|].
  simpl. case_decide as Hd; [|rewrite length_replicate in Hd; lia]. clear Hd.
  apply set_ring_wp. autorewrite with nic.
  destruct (Z.eqb_spec ba 0); [unfold ba, a in *; lia|].
  apply wp_bind. eapply wp_mono.
  - eapply chain_bufs_wp; [eauto using at_put with nic_at|done|]. simpl.
    unfold partial_bufs. simpl. destruct (Z.to_nat n) as [|k] eqn:E; [lia|]. simpl.
    by rewrite Nat.sub_0_r.
  - intros [] s' ->. apply wp_ret. split; [done|]. by rewrite put_put.
Qed.

(** What the [i]-th of [n] descriptors holds, for buffers of [sz] bytes from
    bus address [bd]. *)
Definition desc_for (d : ioss_channel_dir) (n sz bd i : Z) : rx_tx_desc :=
  Desc (u64 (bd + i * sz))
    (match d with
     | IOSS_CH_DIR_TX => if i =? n - 1 then RingEnd else 0
     | IOSS_CH_DIR_RX =>
         let opts := u32 (Z.lor DescOwn sz) in if i =? n - 1 then Z.lor opts RingEnd else opts
     end).
Definition ring_descs (d : ioss_channel_dir) (n sz bd : Z) : list rx_tx_desc :=
  desc_for d n sz bd <$> seqZ 0 n.

Lemma ring_descs_lookup d n sz bd i : (i < Z.to_nat n)%nat →
  ring_descs d n sz bd !! i = Some (desc_for d n sz bd (Z.of_nat i)).
Proof.
  intros Hi. unfold ring_descs. rewrite list_lookup_fmap.
  by rewrite (proj2 (lookup_seqZ 0 n i (Z.of_nat i))) by lia.
Qed.
Lemma ring_descs_length d n sz bd : length (ring_descs d n sz bd) = Z.to_nat n.
Proof. unfold ring_descs. by rewrite length_fmap, length_seqZ. Qed.

Lemma dma_of_contig n sz ba bd i : 0 ≤ i < Z.of_nat n →
  dma_of_buf (contig_bufs n sz ba bd) i = bd + i * sz.
Proof.
  intros Hi. unfold dma_of_buf. rewrite contig_bufs_lookup by lia. simpl. by rewrite Z2Nat.id by lia.
Qed.

Lemma tx_descs n sz ba bd : 1 ≤ n →
  filled (tx_init n (dma_of_buf (contig_bufs (Z.to_nat n) sz ba bd))) n (replicate (Z.to_nat n) (Desc 0 0))
  = ring_descs IOSS_CH_DIR_TX n sz bd.
Proof.
  intros Hn. apply list_eq. intros i. rewrite filled_lookup. destruct (decide (i < Z.to_nat n)%nat).
  - rewrite lookup_replicate_2, ring_descs_lookup by done. simpl.
    destruct (Z.ltb_spec (Z.of_nat i) n); [|lia].
    unfold tx_init, desc_for. by rewrite dma_of_contig by lia.
  - rewrite !lookup_ge_None_2; [done|rewrite ring_descs_length; lia|rewrite length_replicate; lia].
Qed.

Lemma rx_descs n sz ba bd : 1 ≤ n →
  alter (λ d, Desc (dsc_addr d) (Z.lor (dsc_opts1 d) RingEnd)) (pred (Z.to_nat n))
    (filled (rx_init sz (dma_of_buf (contig_bufs (Z.to_nat n) sz ba bd))) n
       (replicate (Z.to_nat n) (Desc 0 0)))
  = ring_descs IOSS_CH_DIR_RX n sz bd.
Proof.
  intros Hn. apply list_eq. intros i. destruct (decide (i < Z.to_nat n)%nat) as [Hi|Hi].
  2:{ rewrite !lookup_ge_None_2; [done|rewrite ring_descs_length; lia|].
      rewrite length_alter, filled_length, length_replicate. lia. }
  assert (filled (rx_init sz (dma_of_buf (contig_bufs (Z.to_nat n) sz ba bd))) n
    (replicate (Z.to_nat n) (Desc 0 0)) !! i =
    Some (Desc (u64 (bd + Z.of_nat i * sz)) (u32 (Z.lor DescOwn sz)))) as Hl.
  { rewrite filled_lookup, lookup_replicate_2 by done. simpl.
    destruct (Z.ltb_spec (Z.of_nat i) n); [|lia].
    unfold rx_init. by rewrite dma_of_contig, Z.land_0_l, Z.lor_0_r by lia. }
  rewrite ring_descs_lookup by done. unfold desc_for. destruct (Z.eqb_spec (Z.of_nat i) (n - 1)).
  - replace (pred (Z.to_nat n)) with i by lia. by rewrite list_lookup_alter_eq, Hl.
  - rewrite list_lookup_alter_ne by lia. by rewrite Hl.
Qed.

(** The registers that receive the ring's base. *)
Definition base_reg (d : ioss_channel_dir) (q : Z) : Z :=
  u16 (match d with IOSS_CH_DIR_TX => TNPDS_Q1_LOW_8125 | IOSS_CH_DIR_RX => RDSAR_Q1_LOW_8125 end
       + (q - 1) * 8).
Definition base_writes (d : ioss_channel_dir) (q daddr : Z) : list hw_call :=
  [RTL_W32 (base_reg d q + 4) (Z.shiftr (u64 daddr) 32);
   RTL_W32 (base_reg d q) (Z.land (u64 daddr) (2 ^ 32 - 1))].

Definition init_dir_ring (d : ioss_channel_dir) (p : ring_ptr) : L unit :=
  match d with
  | IOSS_CH_DIR_TX => rtl8125_init_tx_ring p
  | IOSS_CH_DIR_RX => rtl8125_init_rx_ring p
  end.

(** Initialising a ring rewrites its descriptors in place and programs its base. *)
Lemma init_ring_wp d p r n sz ba bd l s :
  at_ring p r s → r_allocated r = true → r_bufs r = Some (contig_bufs (Z.to_nat n) sz ba bd) →
  r_ring_size r = n → r_buff_size r = sz → 1 ≤ n ≤ 2 ^ 32 →
  desc_mem s !! r_desc_addr r = Some l → length l = Z.to_nat n →
  wp (init_dir_ring d p) (λ _ s', ∃ l', length l' = Z.to_nat n ∧
    (l = replicate (Z.to_nat n) (Desc 0 0) → l' = ring_descs d n sz bd) ∧
    s' = nic_hw (base_writes d (r_queue_num r) (r_desc_daddr r) ++ hw s)
           (nic_desc (<[r_desc_addr r := l']> (desc_mem s)) s)) s.
Proof.
  intros Hat Ha Hb Hrn Hsz Hn Hl Hlen.
  assert (length (contig_bufs (Z.to_nat n) sz ba bd) = length l) as Hcl
    by (rewrite contig_bufs_length; lia).
  assert (r_ring_size r = Z.of_nat (length l)) as Hrl by lia.
  destruct d; simpl; [unfold rtl8125_init_rx_ring|unfold rtl8125_init_tx_ring];
    (apply wp_bind; eapply get_ring_wp; [done|]; rewrite Ha; simpl; apply wp_bind).
  - eapply wp_mono; [eapply rx_fill_wp; (done || lia)|]. intros [] s' ->.
    eexists. split; [|split; [|by unfold write_ring_base, hwcall; wp_steps]].
    + by rewrite length_alter, filled_length.
    + intros ->. rewrite length_replicate, Hrn, Hsz. apply rx_descs; lia.
  - eapply wp_mono; [eapply tx_fill_wp; (done || lia)|]. intros [] s' ->.
    eexists. split; [|split; [|by unfold write_ring_base, hwcall; wp_steps]].
    + by rewrite filled_length.
    + intros ->. rewrite Hrn. apply tx_descs; lia.
Qed.

(** The state after a ring was requested: blocks at the next two addresses. *)
Definition desc_at (s : nic) : Z := vnext s.
Definition bufs_at (d : ioss_channel_dir) (n : Z) (s : nic) : Z :=
  vnext s + Z.max 1 (desc_bytes d n).
Definition lent_ring (d : ioss_channel_dir) (n sz : Z) (r : rtl8125_ring) (s : nic) : rtl8125_ring :=
  with_memory (desc_at s) (bufs_at d n s)
    (w_geometry n sz false RTL8125_CONTIG_BUFS (w_allocated true r)).
Definition lent_state (p : ring_ptr) (n sz : Z) (r : rtl8125_ring) (s : nic) : nic :=
  let d := rp_dir p in let a := desc_at s in let ba := bufs_at d n s in
  put_ring p (lent_ring d n sz r s)
    (nic_hw (base_writes d (r_queue_num r) (dma_of a) ++ hw s)
    (nic_desc (<[a := ring_descs d n sz (dma_of ba)]> (desc_mem s))
    (nic_dma (<[ba := (buff_bytes n sz, dma_of ba)]> (<[a := (desc_bytes d n, dma_of a)]> (dma s)))
       (ba + Z.max 1 (buff_bytes n sz)) s))).

Lemma request_ring_unfold n sz d fl ops s :
  rtl8125_request_ring n sz d fl ops s =
  bind (get_lib_ring d) (λ ring, match ring with
    | None => request_error None
    | Some p =>
        upd_ring p (w_geometry n sz ops fl) ;;
        let* rc := rtl8125_alloc_ring_mem p in
        if negb (rc =? 0) then request_error (Some p) else init_dir_ring d p ;; ret (Some p)
    end) s.
Proof. by destruct d. Qed.

Lemma request_ring_wp d i r n sz s :
  first_free d i r s → r_direction r = d → faults s = [] → 0 < vnext s → 1 ≤ n ≤ 2 ^ 32 →
  wp (rtl8125_request_ring n sz d RTL8125_CONTIG_BUFS false)
     (λ ring s', ring = Some (RingPtr d i) ∧ s' = lent_state (RingPtr d i) n sz r s) s.
Proof.
  intros Hff Hd Hf Hv Hn. unfold wp. rewrite request_ring_unfold.
  change (wp (bind (get_lib_ring d) (λ ring, match ring with
    | None => request_error None
    | Some p =>
        upd_ring p (w_geometry n sz false RTL8125_CONTIG_BUFS) ;;
        let* rc := rtl8125_alloc_ring_mem p in
        if negb (rc =? 0) then request_error (Some p) else init_dir_ring d p ;; ret (Some p)
    end)) (λ ring s', ring = Some (RingPtr d i) ∧ s' = lent_state (RingPtr d i) n sz r s) s).
  assert (at_ring (RingPtr d i) r s) as Hat by apply Hff.
  apply wp_bind. eapply wp_mono; [by apply get_lib_ring_wp|]. intros ? ? [-> ->].
  apply wp_bind. eapply upd_ring_wp; [by eapply at_put|]. rewrite put_put.
  set (r1 := w_geometry _ _ _ _ _).
  apply wp_bind. eapply wp_mono.
  { eapply alloc_ring_mem_wp; [by eapply at_put|by rewrite put_ring_faults|by rewrite put_ring_vnext
      |simpl; lia|done|done]. }
  intros rc ? [-> ->]. simpl (negb _). cbv iota. autorewrite with nic.
  apply wp_bind. eapply wp_mono.
  { eapply (init_ring_wp d); [eauto using at_put with nic_at|done|done|done|done|done| |].
    - simpl. autorewrite with nic. simpl. by rewrite lookup_insert_eq.
    - simpl. by rewrite length_replicate. }
  intros [] s' (l' & Hl' & Hini & ->). apply wp_ret. split; [done|].
  simpl in Hini. rewrite Hini by done. unfold lent_state, lent_ring. simpl. rewrite Hd.
  autorewrite with nic. simpl. rewrite insert_insert_eq. done.
Qed.
End mem.
