(* ===== verification/RtlLibInv.v ===== *)
(** * The r8125 offload library: the invariant

    The rings and their memory stay consistent: every lent ring owns its two
    blocks, no two rings share one, and every operation on a lent ring is
    defined and keeps it so. *)
From stdpp Require Import base tactics sets list gmap numbers.
From Stdlib Require Import ZArith Lia.
From S2P Require Import Prelude IossUtils RtlLib RtlLibSpec.

Section inv.
Context `{NicApi}.

Definition buf_base (r : rtl8125_ring) : Z :=
  match r_bufs r with Some (b :: _) => b_addr b | _ => 0 end.
Definition blocks (r : rtl8125_ring) : list Z := [r_desc_addr r; buf_base r].

(** A lent ring and the memory it owns. *)
Definition lent_ok (r : rtl8125_ring) (dmas : gmap Z (Z * Z)) (lens : gmap Z nat) : Prop :=
  let n := r_ring_size r in let sz := r_buff_size r in
  contig r = true ∧ r_mem_ops r = false ∧ 1 ≤ n ≤ 2 ^ 32 ∧
  r_desc_size r = desc_bytes (r_direction r) n ∧
  r_desc_addr r ≠ 0 ∧ buf_base r ≠ 0 ∧ r_desc_addr r ≠ buf_base r ∧
  dmas !! r_desc_addr r = Some (r_desc_size r, r_desc_daddr r) ∧
  lens !! r_desc_addr r = Some (Z.to_nat n) ∧
  ∃ bd, r_bufs r = Some (contig_bufs (Z.to_nat n) sz (buf_base r) bd) ∧
        dmas !! buf_base r = Some (buff_bytes n sz, bd).

Definition desc_lens (s : nic) : gmap Z nat := length <$> desc_mem s.

Definition lib_ok (s : nic) : Prop :=
  0 < vnext s ∧
  (∀ a, vnext s ≤ a → dma s !! a = None ∧ desc_lens s !! a = None) ∧
  (∀ d, (lib_first d ≤ lib_upto d ≤ length (rings_of d s))%nat) ∧
  (∀ d i r, at_ring (RingPtr d i) r s → r_direction r = d ∧ r_queue_num r = Z.of_nat i ∧
     (r_allocated r = true → lent_ok r (dma s) (desc_lens s))) ∧
  (∀ p r p' r', at_ring p r s → at_ring p' r' s → r_allocated r = true → r_allocated r' = true →
     p ≠ p' → ∀ x, x ∈ blocks r → x ∉ blocks r').

(** The invariant looks at the rings, the allocations and the array lengths. *)
Lemma lib_ok_ext s s' :
  (∀ d, rings_of d s' = rings_of d s) → dma s' = dma s → vnext s' = vnext s →
  desc_lens s' = desc_lens s → lib_ok s → lib_ok s'.
Proof.
  unfold lib_ok, at_ring. intros Hr Hd Hv Hl (H1 & H2 & H3 & H4 & H5).
  rewrite Hv, Hd, Hl. split_and!; [done|done|intros d; rewrite Hr; apply H3| |].
  - intros d i r. simpl. rewrite Hr. apply (H4 d i r).
  - intros p r p' r'. rewrite !Hr. apply H5.
Qed.

Lemma lib_ok_hw h s : lib_ok s → lib_ok (nic_hw h s).
Proof. apply lib_ok_ext; (done || by intros []). Qed.
Lemma lib_ok_indir t s : lib_ok s → lib_ok (nic_indir t s).
Proof. apply lib_ok_ext; (done || by intros []). Qed.

(** Changing a ring's flags and event only. *)
Definition same_mem (r r' : rtl8125_ring) : Prop :=
  r' = w_enabled (r_enabled r') (w_event (r_event r') r).

Lemma lent_ok_same r r' d l : same_mem r r' → lent_ok r d l → lent_ok r' d l.
Proof. intros -> Hl. exact Hl. Qed.

Lemma put_ring_lens p r s : desc_lens (put_ring p r s) = desc_lens s.
Proof. unfold desc_lens. by rewrite put_ring_desc. Qed.

Lemma put_ring_length d p r s : length (rings_of d (put_ring p r s)) = length (rings_of d s).
Proof.
  unfold put_ring. destruct (decide (d = rp_dir p)) as [->|Hd].
  - by rewrite rings_of_set, length_insert.
  - by rewrite rings_of_set_ne.
Qed.

Lemma lib_ok_put p r r' s :
  at_ring p r s → same_mem r r' → lib_ok s → lib_ok (put_ring p r' s).
Proof.
  intros Hat Hsm (H1 & H2 & H3 & H4 & H5). unfold lib_ok.
  rewrite put_ring_vnext, put_ring_dma, put_ring_lens. split_and!; [done|done| | |].
  - intros d. rewrite put_ring_length. apply H3.
  - intros d i r0 Hr0. apply at_put_inv in Hr0 as [[<- ->]|[_ Hr0]]; [|by apply H4].
    destruct (H4 _ _ _ Hat) as (? & ? & Hl). rewrite Hsm. simpl. split_and!; [done|done|exact Hl].
  - assert (∀ p0 r0, at_ring p0 r0 (put_ring p r' s) → ∃ r1, at_ring p0 r1 s ∧
      r_allocated r1 = r_allocated r0 ∧ blocks r1 = blocks r0) as Hold.
    { intros p0 r0 Hr0. apply at_put_inv in Hr0 as [[-> ->]|[_ Hr0]]; [|by exists r0].
      exists r. rewrite Hsm. done. }
    intros p1 r1 p2 r2 Hr1 Hr2 Ha1 Ha2 Hne x.
    destruct (Hold _ _ Hr1) as (q1 & ? & E1 & <-), (Hold _ _ Hr2) as (q2 & ? & E2 & <-).
    rewrite <- E1 in Ha1. rewrite <- E2 in Ha2. by apply (H5 p1 q1 p2 q2).
Qed.

Lemma lib_ok_at s p r : lib_ok s → at_ring p r s → r_allocated r = true → lent_ok r (dma s) (desc_lens s).
Proof. intros (_ & _ & _ & H4 & _) Hat. destruct p as [d i]. by apply (H4 d i r). Qed.

Lemma lent_ok_on r d d' l l' :
  (∀ x, x ∈ blocks r → d' !! x = d !! x ∧ l' !! x = l !! x) → lent_ok r d l → lent_ok r d' l'.
Proof.
  intros Hx (H1 & H2 & H3 & H4 & H5 & H6 & H7 & H8 & H9 & bd & H10 & H11).
  destruct (Hx (r_desc_addr r)) as [E1 E2]; [unfold blocks; set_solver|].
  destruct (Hx (buf_base r)) as [E3 _]; [unfold blocks; set_solver|].
  unfold lent_ok. rewrite E1, E2. split_and!; try (done || lia). exists bd. by rewrite E3.
Qed.

Lemma lent_blocks_live r d l x : lent_ok r d l → x ∈ blocks r → is_Some (d !! x).
Proof.
  intros (_ & _ & _ & _ & _ & _ & _ & H8 & _ & bd & _ & H11) Hx.
  unfold blocks in Hx. assert (x = r_desc_addr r ∨ x = buf_base r) as [-> | ->] by set_solver; by eexists.
Qed.

Lemma lent_below s p r x : lib_ok s → at_ring p r s → r_allocated r = true → x ∈ blocks r → x < vnext s.
Proof.
  intros Hok Hat Ha Hx. pose proof (lent_blocks_live _ _ _ _ (lib_ok_at _ _ _ Hok Hat Ha) Hx) as [v Hv].
  destruct Hok as (_ & Hfresh & _). destruct (Z.lt_ge_cases x (vnext s)) as [|Hge]; [done|].
  destruct (Hfresh x Hge). congruence.
Qed.

(** A new lent ring in an otherwise unchanged set of rings. *)
Lemma lent_ring_ok d n sz r s : 0 < vnext s → 1 ≤ n ≤ 2 ^ 32 → r_direction r = d →
  let a := desc_at s in let ba := bufs_at d n s in
  let r' := lent_ring d n sz r s in
  blocks r' = [a; ba] ∧
  lent_ok r' (<[ba := (buff_bytes n sz, dma_of ba)]> (<[a := (desc_bytes d n, dma_of a)]> (dma s)))
    (<[a := Z.to_nat n]> (desc_lens s)).
Proof.
  intros Hv Hn Hd a ba r'.
  assert (a ≠ ba) as Hne by (unfold a, ba, desc_at, bufs_at; lia).
  assert (buf_base r' = ba) as Hbb.
  { unfold buf_base, r'. simpl. destruct (Z.to_nat n) eqn:E; [lia|]. done. }
  split; [unfold blocks; by rewrite Hbb|].
  unfold lent_ok. rewrite Hbb. simpl. rewrite Hd. split_and!; try done; try lia.
  - unfold a, desc_at. lia.
  - unfold ba, bufs_at. lia.
  - rewrite lookup_insert_ne by done. fold a. by rewrite lookup_insert_eq.
  - fold a. by rewrite lookup_insert_eq.
  - exists (dma_of ba). split; [done|]. by rewrite lookup_insert_eq.
Qed.

Lemma lib_ok_request d i r n sz s :
  first_free d i r s → 1 ≤ n ≤ 2 ^ 32 → lib_ok s → lib_ok (lent_state (RingPtr d i) n sz r s).
Proof.
  intros (Hi & Hat & Hf & _) Hn Hok. pose proof Hok as (H1 & H2 & H3 & H4 & H5).
  destruct (H4 _ _ _ Hat) as (Hd & Hq & _).
  destruct (lent_ring_ok d n sz r s H1 Hn Hd) as [Hbl Hlok].
  set (a := desc_at s) in *. set (ba := bufs_at d n s) in *.
  assert (a = vnext s) as Ea by done. assert (vnext s < ba) as Eba by (unfold ba, bufs_at; lia).
  unfold lent_state. simpl rp_dir. cbv zeta. fold a ba. set (st := nic_hw _ _).
  assert (desc_lens st = <[a := Z.to_nat n]> (desc_lens s)) as El.
  { unfold desc_lens, st. simpl. by rewrite fmap_insert, ring_descs_length. }
  unfold lib_ok. rewrite put_ring_vnext, put_ring_dma, put_ring_lens, El.
  change (vnext st) with (ba + Z.max 1 (buff_bytes n sz)).
  change (dma st) with (<[ba := (buff_bytes n sz, dma_of ba)]> (<[a := (desc_bytes d n, dma_of a)]> (dma s))).
  assert (∀ p0 r0 x, at_ring p0 r0 s → r_allocated r0 = true → x ∈ blocks r0 → x ≠ a ∧ x ≠ ba) as Hold.
  { intros p0 r0 x Hr0 Ha0 Hx. pose proof (lent_below _ _ _ _ Hok Hr0 Ha0 Hx). lia. }
  assert (∀ p0 r0, at_ring p0 r0 (put_ring (RingPtr d i) (lent_ring d n sz r s) st) →
    p0 = RingPtr d i ∧ r0 = lent_ring d n sz r s ∨ p0 ≠ RingPtr d i ∧ at_ring p0 r0 s) as Hinv.
  { intros p0 r0 Hr0. apply at_put_inv in Hr0 as [?|[? Hr0]]; [by left|right].
    split; [done|]. unfold at_ring in *. revert Hr0. by destruct (rp_dir p0). }
  split_and!.
  - lia.
  - intros x Hx. rewrite !lookup_insert_ne by lia. apply H2. lia.
  - intros dd. rewrite put_ring_length. pose proof (H3 dd) as Hdd. destruct dd; exact Hdd.
  - intros dd j r0 Hr0. apply Hinv in Hr0 as [[[= -> ->] ->]|[Hne Hr0]]; [|].
    + simpl. split_and!; [done|done|]. done.
    + destruct (H4 _ _ _ Hr0) as (? & ? & Hl). split_and!; [done|done|]. intros Ha0.
      eapply lent_ok_on; [|by apply Hl]. intros x Hx. destruct (Hold _ _ x Hr0 Ha0 Hx).
      by rewrite !lookup_insert_ne by done.
  - intros p1 r1 p2 r2 Hr1 Hr2 Ha1 Ha2 Hne x Hx1 Hx2.
    apply Hinv in Hr1 as [[-> ->]|[_ Hr1]], Hr2 as [[-> ->]|[_ Hr2]].
    + done.
    + rewrite Hbl in Hx1. destruct (Hold _ _ x Hr2 Ha2 Hx2). set_solver.
    + rewrite Hbl in Hx2. destruct (Hold _ _ x Hr1 Ha1 Hx1). set_solver.
    + by eapply (H5 p1 r1 p2 r2).
Qed.

(** ** Releasing a ring *)
Definition released (r : rtl8125_ring) : rtl8125_ring :=
  w_allocated false (w_bufs None (w_desc 0 (r_desc_daddr r) r)).

Definition freed_state (p : ring_ptr) (r : rtl8125_ring) (s : nic) : nic :=
  put_ring p (released r)
    (nic_dma (delete (buf_base r) (delete (r_desc_addr r) (dma s))) (vnext s)
    (nic_desc (delete (r_desc_addr r) (desc_mem s)) s)).

(** The interface is restarted once its last ring is back. *)
Definition restart_calls (s : nic) : list hw_call :=
  if negb (lent (lib_tx_ring s) num_tx_rings HwSuppNumTxQueues)
     && negb (lent (lib_rx_ring s) num_rx_rings HwSuppNumRxQueues)
  then if netif_running then [DevOpen; DevClose] else [EnableLinkchgInt]
  else [].

Lemma contig_flags r r' : r_flags r = r_flags r' → contig r = contig r'.
Proof. unfold contig. by intros ->. Qed.

Lemma free_ring_mem_wp p r s :
  at_ring p r s → lent_ok r (dma s) (desc_lens s) →
  wp (rtl8125_free_ring_mem (Some p)) (λ _ s', s' =
    put_ring p (w_bufs None (w_desc 0 (r_desc_daddr r) r))
      (nic_dma (delete (buf_base r) (delete (r_desc_addr r) (dma s))) (vnext s)
      (nic_desc (delete (r_desc_addr r) (desc_mem s)) s))) s.
Proof.
  intros Hat (H1 & H2 & H3 & H4 & H5 & H6 & H7 & H8 & H9 & bd & H10 & H11).
  unfold rtl8125_free_ring_mem. apply wp_bind. eapply get_ring_wp; [done|].
  destruct (Z.eqb_spec (r_desc_addr r) 0); [done|]. simpl negb. cbv iota.
  apply wp_bind, wp_bind. eapply dma_free_wp; [done|done|].
  apply wp_bind, wp_modify. eapply upd_ring_wp; [eauto with nic_at|]. rewrite H1.
  apply wp_bind, wp_bind. unfold load_buf. apply wp_bind.
  eapply get_ring_wp; [eauto using at_put with nic_at|]. simpl r_bufs. rewrite H10.
  destruct (Z.to_nat (r_ring_size r)) as [|k] eqn:En; [lia|]. simpl contig_bufs.
  eapply wp_lift_opt; [done|]. simpl b_addr. simpl b_dma_addr.
  eapply dma_free_wp; [done| |].
  - autorewrite with nic. simpl. rewrite lookup_delete_ne by done. exact H11.
  - eapply upd_ring_wp; [eauto using at_put with nic_at|]. autorewrite with nic. done.
Qed.

Lemma release_ring_wp p r s :
  at_ring p r s → lent_ok r (dma s) (desc_lens s) →
  wp (rtl8125_release_ring (Some p)) (λ _ s',
    s' = nic_hw (restart_calls (freed_state p r s) ++ hw s) (freed_state p r s)) s.
Proof.
  intros Hat Hok. unfold rtl8125_release_ring. apply wp_bind.
  eapply wp_mono; [by apply free_ring_mem_wp|]. intros [] s' ->.
  apply wp_bind. unfold rtl8125_put_ring. eapply upd_ring_wp; [eauto using at_put with nic_at|].
  rewrite put_put. fold (released r). fold (freed_state p r s).
  assert (hw (freed_state p r s) = hw s) as Ehw by (unfold freed_state; by rewrite put_ring_hw).
  unfold rtl8125_all_ring_released, restart_calls. unfold id, hwcall. wp_steps. simpl.
  destruct (_ && _); [destruct netif_running|]; wp_steps; simpl; rewrite ?Ehw; try done.
  by destruct p as [[] ?]; destruct s.
Qed.

Lemma lib_ok_release p r s :
  at_ring p r s → r_allocated r = true → lib_ok s → lib_ok (freed_state p r s).
Proof.
  intros Hat Ha Hok. pose proof Hok as (H1 & H2 & H3 & H4 & H5). unfold freed_state.
  set (st := nic_dma _ _ _). unfold lib_ok. rewrite put_ring_vnext, put_ring_dma, put_ring_lens.
  change (vnext st) with (vnext s).
  change (dma st) with (delete (buf_base r) (delete (r_desc_addr r) (dma s))).
  assert (desc_lens st = delete (r_desc_addr r) (desc_lens s)) as El.
  { unfold desc_lens, st. simpl. by rewrite fmap_delete. }
  rewrite El.
  assert (∀ p0 r0, at_ring p0 r0 (put_ring p (released r) st) → r_allocated r0 = true →
    p0 ≠ p ∧ at_ring p0 r0 s) as Hinv.
  { intros p0 r0 Hr0 Ha0. apply at_put_inv in Hr0 as [[-> ->]|[? Hr0]]; [done|]. split; [done|].
    unfold at_ring in *. revert Hr0. by destruct (rp_dir p0). }
  split_and!.
  - done.
  - intros x Hx. destruct (H2 x Hx). rewrite !lookup_delete_None. auto.
  - intros dd. rewrite put_ring_length. pose proof (H3 dd) as Hdd. destruct dd; exact Hdd.
  - intros d i r0 Hr0.
    assert (r_direction r0 = d ∧ r_queue_num r0 = Z.of_nat i) as [? ?].
    { apply at_put_inv in Hr0 as [[<- ->]|[_ Hr0]].
      - destruct (H4 _ _ _ Hat) as (? & ? & _). done.
      - destruct (H4 d i r0) as (? & ? & _); [|done]. revert Hr0. by destruct d. }
    split_and!; [done|done|]. intros Ha0. destruct (Hinv _ _ Hr0 Ha0) as [Hne Hr0'].
    eapply lent_ok_on; [|by eapply lib_ok_at]. intros x Hx.
    assert (x ∉ blocks r) as Hnx by (eapply H5; [exact Hr0'|exact Hat|..]; done).
    unfold blocks in Hnx. rewrite !not_elem_of_cons in Hnx. destruct Hnx as (? & ? & _).
    by rewrite !lookup_delete_ne by congruence.
  - intros p1 r1 p2 r2 Hr1 Hr2 Ha1 Ha2 Hne x Hx1.
    destruct (Hinv _ _ Hr1 Ha1), (Hinv _ _ Hr2 Ha2). by eapply (H5 p1 r1 p2 r2).
Qed.
End inv.
