(* ===== verification/RtlLibOps.v ===== *)
(** * The r8125 offload library: events, restarts and RSS

    The effect of the remaining operations, and the proof that every
    operation of the library keeps the invariant. *)
From stdpp Require Import base tactics sets list gmap numbers.
From Stdlib Require Import ZArith Lia.
From S2P Require Import Prelude IossUtils RtlLib RtlLibSpec RtlLibInv.

Section ops.
Context `{NicApi}.

(** ** Events *)
Definition msix_reg (id : Z) : Z := u16 (id * 0x10).
(** The four words of a table entry, latest first. *)
Definition msix_writes (id addr data : Z) : list hw_call :=
  [EriWrite (msix_reg id + 12) (u32 (Z.shiftr data 32)); EriWrite (msix_reg id + 8) (u32 data);
   EriWrite (msix_reg id + 4) (Z.shiftr (u64 addr) 32);
   EriWrite (msix_reg id) (Z.land (u64 addr) (2 ^ 32 - 1))].

(** What [rtl8125_request_event] saves of the entry it replaces. *)
Definition saved_event (r : rtl8125_ring) (h : list hw_call) : rtl8125_event :=
  let reg := msix_reg (message_id_of r) in
  RtlEvent (Z.lor (eri_read h reg) (Z.shiftl (eri_read h (reg + 4)) 32))
    (Z.lor (eri_read h (reg + 8)) (Z.shiftl (eri_read h (reg + 8)) 32))
    true (e_enabled (r_event r)) (message_id_of r) (e_delay (r_event r)).

Lemma write_msix_wp id addr data (Q : unit → nic → Prop) s :
  Q tt (nic_hw (msix_writes id addr data ++ hw s) s) → wp (write_msix (msix_reg id) addr data) Q s.
Proof. intros HQ. unfold write_msix, hwcall. wp_steps. exact HQ. Qed.

Lemma request_event_wp p r addr data s :
  at_ring p r s → e_allocated (r_event r) = false →
  wp (rtl8125_request_event (Some p) MSIX_event_type addr data) (λ rc s', rc = 0 ∧
    s' = put_ring p (w_event (saved_event r (hw s)) r)
           (nic_hw (msix_writes (message_id_of r) addr data ++ hw s) s)) s.
Proof.
  intros Hat Ha. unfold rtl8125_request_event. apply wp_bind. eapply get_ring_wp; [done|].
  rewrite Ha. simpl. unfold eri_r. wp_steps.
  change (u16 (message_id_of r * 16)) with (msix_reg (message_id_of r)).
  apply write_msix_wp. wp_step. eapply upd_ring_wp; [by eapply at_ring_hw|]. by apply wp_ret.
Qed.

Lemma request_event_exists p r flags addr data s :
  at_ring p r s → e_allocated (r_event r) = true →
  wp (rtl8125_request_event (Some p) flags addr data) (λ rc s', rc = - EEXIST ∧ s' = s) s.
Proof.
  intros Hat Ha. unfold rtl8125_request_event. apply wp_bind. eapply get_ring_wp; [done|].
  rewrite Ha. by apply wp_ret.
Qed.

Lemma release_event_wp p r s :
  at_ring p r s →
  wp (rtl8125_release_event (Some p)) (λ _ s', s' =
    if e_allocated (r_event r)
    then put_ring p (w_event (w_ev_allocated false (r_event r)) r)
      (nic_hw (msix_writes (e_message_id (r_event r)) (e_addr (r_event r)) (e_data (r_event r)) ++ hw s) s)
    else s) s.
Proof.
  intros Hat. unfold rtl8125_release_event. apply wp_bind. eapply get_ring_wp; [done|].
  destruct (e_allocated (r_event r)); simpl; [|by apply wp_ret].
  wp_steps. change (u16 (e_message_id (r_event r) * 16)) with (msix_reg (e_message_id (r_event r))).
  apply write_msix_wp. eapply upd_ring_wp; [by eapply at_ring_hw|]. done.
Qed.

Lemma set_intr_mod_wp p r delay s :
  at_ring p r s → e_allocated (r_event r) = true →
  wp (rtl8125_set_ring_intr_mod (Some p) delay) (λ rc s', rc = 0 ∧
    s' = put_ring p (w_event (w_ev_delay delay (r_event r)) r)
           (nic_hw (SetTimerInt (e_message_id (r_event r)) (u8 delay) :: hw s) s)) s.
Proof.
  intros Hat Ha. unfold rtl8125_set_ring_intr_mod. apply wp_bind. eapply get_ring_wp; [done|].
  rewrite Ha. simpl. apply wp_bind. eapply upd_ring_wp; [done|]. unfold hwcall. wp_steps.
  split; [done|]. by autorewrite with nic.
Qed.

(** Enabling programs the moderation timer and unmasks the message. *)
Definition event_on (r : rtl8125_ring) : list hw_call :=
  [RTL_W32 IMR_V2_SET_REG_8125 (u32 (Z.shiftl 1 (e_message_id (r_event r))));
   SetTimerInt (e_message_id (r_event r)) (u8 (e_delay (r_event r)))].
Definition event_off (r : rtl8125_ring) : list hw_call :=
  [RTL_W32 IMR_V2_CLEAR_REG_8125 (u32 (Z.shiftl 1 (e_message_id (r_event r))))].

Lemma enable_event_wp p r s :
  at_ring p r s →
  wp (rtl8125_enable_event (Some p)) (λ rc s',
    if e_allocated (r_event r)
    then rc = 0 ∧ s' = put_ring p (w_event (w_ev_enabled true (r_event r)) r)
                         (nic_hw (event_on r ++ hw s) s)
    else rc = - EINVAL ∧ s' = s) s.
Proof.
  intros Hat. unfold rtl8125_enable_event. apply wp_bind. eapply get_ring_wp; [done|].
  destruct (e_allocated (r_event r)) eqn:Ha; simpl; [|by apply wp_ret].
  apply wp_bind. eapply wp_mono; [by apply set_intr_mod_wp|]. intros rc ? [-> ->].
  unfold hwcall. wp_steps. eapply get_ring_wp; [eauto using at_put with nic_at|].
  apply wp_bind, set_ring_wp, wp_ret. split; [done|]. autorewrite with nic. f_equal.
Qed.

Lemma disable_event_wp p r s :
  at_ring p r s →
  wp (rtl8125_disable_event (Some p)) (λ rc s',
    if e_allocated (r_event r)
    then rc = 0 ∧ s' = put_ring p (w_event (w_ev_enabled false (r_event r)) r)
                         (nic_hw (event_off r ++ hw s) s)
    else rc = - EINVAL ∧ s' = s) s.
Proof.
  intros Hat. unfold rtl8125_disable_event. apply wp_bind. eapply get_ring_wp; [done|].
  destruct (e_allocated (r_event r)); simpl; [|by apply wp_ret].
  unfold hwcall. wp_steps. eapply upd_ring_wp; [by eapply at_ring_hw|]. by apply wp_ret.
Qed.

(** ** Restarting the device *)
(** A change of descriptors' contents and of the hardware only. *)
Definition quiet (s s' : nic) : Prop :=
  (∀ d, rings_of d s' = rings_of d s) ∧ dma s' = dma s ∧ vnext s' = vnext s ∧
  faults s' = faults s ∧ desc_lens s' = desc_lens s ∧ rss_indir_tbl s' = rss_indir_tbl s ∧
  lib_nh s' = lib_nh s ∧ ∃ ev, hw s' = ev ++ hw s.

Lemma quiet_refl s : quiet s s.
Proof. unfold quiet. split_and!; try done. by exists []. Qed.
Lemma quiet_trans s1 s2 s3 : quiet s1 s2 → quiet s2 s3 → quiet s1 s3.
Proof.
  intros (A1 & A2 & A3 & A4 & A5 & A6 & A7 & e & A8) (B1 & B2 & B3 & B4 & B5 & B6 & B7 & e' & B8).
  unfold quiet. split_and!; try congruence.
  exists (e' ++ e). by rewrite B8, A8, app_assoc.
Qed.
Lemma quiet_hw ev s : quiet s (nic_hw (ev ++ hw s) s).
Proof. unfold quiet. split_and!; try done; by exists ev. Qed.
Lemma quiet_hw1 c s : quiet s (nic_hw (c :: hw s) s).
Proof. apply (quiet_hw [c]). Qed.
Lemma quiet_ok s s' : quiet s s' → lib_ok s → lib_ok s'.
Proof. intros (A1 & A2 & A3 & A4 & A5 & _). by apply lib_ok_ext. Qed.
Lemma quiet_at s s' p r : quiet s s' → at_ring p r s → at_ring p r s'.
Proof. intros (A1 & _). unfold at_ring. by rewrite A1. Qed.
Lemma quiet_put p r s s' : quiet s s' → quiet (put_ring p r s) (put_ring p r s').
Proof.
  intros (A1 & A2 & A3 & A4 & A5 & A6 & A7 & e & A8). unfold quiet.
  rewrite !put_ring_lens. destruct p as [dd i].
  split_and!; try (destruct dd; done).
  - intros d. destruct (decide (d = dd)) as [->|Hd].
    + by rewrite !put_ring_rings, A1.
    + unfold put_ring. simpl. by rewrite !rings_of_set_ne.
  - exists e. by rewrite !put_ring_hw.
Qed.

Lemma at_ring_rings p r s s' : (∀ d, rings_of d s' = rings_of d s) → at_ring p r s' ↔ at_ring p r s.
Proof. intros E. unfold at_ring. by rewrite E. Qed.

(** Re-initialising an enabled event or a lent ring leaves the ring as it is. *)
Lemma reenable_quiet p r s : at_ring p r s → e_enabled (r_event r) = true →
  wp (rtl8125_enable_event (Some p)) (λ _ s', quiet s s') s.
Proof.
  intros Hat He. eapply wp_mono; [by apply enable_event_wp|]. intros rc s'.
  destruct (e_allocated _); intros [_ ->]; [|apply quiet_refl].
  rewrite put_ring_id; [apply quiet_hw|].
  replace (w_event _ r) with r; [by apply at_ring_hw|].
  destruct r as [????????????[]]; simpl in *. by subst.
Qed.

Lemma reinit_quiet d i r s : lib_ok s → at_ring (RingPtr d i) r s → r_allocated r = true →
  wp (init_dir_ring d (RingPtr d i)) (λ _ s', quiet s s') s.
Proof.
  intros Hok Hat Ha. pose proof (lib_ok_at _ _ _ Hok Hat Ha) as
    (H1 & H2 & H3 & H4 & H5 & H6 & H7 & H8 & H9 & bd & H10 & H11).
  unfold desc_lens in H9. rewrite lookup_fmap in H9.
  destruct (desc_mem s !! r_desc_addr r) as [l|] eqn:El; [|done]. simpl in H9. injection H9 as Hl.
  eapply wp_mono; [eapply (init_ring_wp d); (done || lia)|].
  intros [] s' (l' & Hl' & _ & ->). eapply quiet_trans; [|apply (quiet_hw _ (nic_desc _ s))].
  unfold quiet, desc_lens. simpl. rewrite fmap_insert, Hl'.
  split_and!; try done; [|by exists []].
  apply insert_id. rewrite lookup_fmap, El. simpl. by rewrite Hl.
Qed.

Lemma init_lib_one_wp d i s : lib_ok s → (i < length (rings_of d s))%nat →
  wp (init_lib_one d i) (λ _ s', quiet s s') s.
Proof.
  intros Hok Hi. destruct (lookup_lt_is_Some_2 _ _ Hi) as [r Hr].
  assert (at_ring (RingPtr d i) r s) as Hat by done.
  unfold init_lib_one. apply wp_bind. eapply get_ring_wp; [done|].
  destruct (r_allocated r) eqn:Ha; simpl; [|by apply wp_ret, quiet_refl].
  apply wp_bind. eapply wp_mono with (Q := λ _ s', quiet s s').
  - destruct (e_enabled (r_event r)) eqn:He; [|by apply wp_ret, quiet_refl].
    apply wp_bind. eapply wp_mono; [by eapply reenable_quiet|]. intros rc s' Hq. by apply wp_ret.
  - intros [] s' Hq.
    change (wp (init_dir_ring d (RingPtr d i)) (λ _ s', quiet s s') s').
    eapply wp_mono; [eapply reinit_quiet; [by eapply quiet_ok|by eapply quiet_at|done]|].
    intros [] s'' ?. by eapply quiet_trans.
Qed.

Lemma init_lib_from_wp d i n s : lib_ok s → (i + n ≤ length (rings_of d s))%nat →
  wp (init_lib_from d i n) (λ _ s', quiet s s') s.
Proof.
  revert i s. induction n as [|n IH]; intros i s Hok Hi; simpl; [apply wp_ret, quiet_refl|].
  apply wp_bind. eapply wp_mono; [apply init_lib_one_wp; [done|lia]|]. intros [] s' Hq.
  eapply wp_mono; [apply IH; [by eapply quiet_ok|destruct Hq as [-> _]; lia]|].
  intros [] s'' ?. by eapply quiet_trans.
Qed.

Lemma init_lib_ring_wp s : lib_ok s → wp rtl8125_init_lib_ring (λ _ s', quiet s s') s.
Proof.
  intros Hok. pose proof Hok as (_ & _ & H3 & _). unfold rtl8125_init_lib_ring.
  pose proof (H3 IOSS_CH_DIR_TX). pose proof (H3 IOSS_CH_DIR_RX). simpl in *.
  apply wp_bind. eapply wp_mono; [apply init_lib_from_wp; [done|simpl; lia]|]. intros [] s' Hq.
  eapply wp_mono; [apply init_lib_from_wp; [by eapply quiet_ok|]|].
  - destruct Hq as [-> _]. simpl. lia.
  - intros [] s'' ?. by eapply quiet_trans.
Qed.

Lemma notify_all_quiet action nbs s : wp (notify_all action nbs) (λ _ s', quiet s s') s.
Proof.
  revert s. induction nbs as [|nb nbs IH]; intros s; simpl; [apply wp_ret, quiet_refl|].
  apply wp_bind, hwcall_wp. eapply wp_mono; [apply IH|]. intros [] s' ?.
  eapply quiet_trans; [apply quiet_hw1|done].
Qed.

Lemma hw_reset_wp s : wp rtl8125_hw_reset (λ _ s', quiet s s') s.
Proof.
  unfold rtl8125_hw_reset, rtl8125_lib_reset_prepare. wp_steps.
  eapply wp_mono; [apply notify_all_quiet|]. intros [] s' ?. apply hwcall_wp.
  eapply quiet_trans; [done|apply quiet_hw1].
Qed.

Lemma hw_start_wp s : lib_ok s → wp rtl8125_hw_start (λ _ s', quiet s s') s.
Proof.
  intros Hok. unfold rtl8125_hw_start. apply wp_bind.
  eapply wp_mono; [by apply init_lib_ring_wp|]. intros [] s' Hq.
  apply wp_bind, hwcall_wp, wp_bind, hwcall_wp. unfold rtl8125_lib_reset_complete. wp_steps.
  eapply wp_mono; [apply notify_all_quiet|]. intros [] s'' ?.
  eapply quiet_trans; [exact Hq|]. eapply quiet_trans; [apply quiet_hw1|].
  eapply quiet_trans; [apply quiet_hw1|]. done.
Qed.

(** Indexing the rings again changes nothing. *)
Lemma index_rings_id d n s : lib_ok s → index_rings d n (rings_of d s) = rings_of d s.
Proof.
  intros (_ & _ & _ & H4 & _). apply list_eq. intros i. unfold index_rings.
  rewrite list_lookup_imap. destruct (rings_of d s !! i) as [r|] eqn:Er; simpl; [|done].
  destruct (Nat.ltb i n); [|done]. destruct (H4 d i r Er) as (Hd & Hq & _).
  unfold w_index. rewrite <- Hd, <- Hq. by destruct r.
Qed.

Lemma init_indexes_wp s : lib_ok s → wp rtl8125_init_ring_indexes (λ _ s', s' = s) s.
Proof.
  intros Hok. unfold rtl8125_init_ring_indexes. wp_steps.
  rewrite (index_rings_id IOSS_CH_DIR_TX _ s) by done. rewrite set_rings_id.
  rewrite index_rings_id by done. by rewrite set_rings_id.
Qed.

Lemma enable_ring_wp p r s : lib_ok s → at_ring p r s →
  wp (rtl8125_enable_ring (Some p)) (λ rc s', rc = 0 ∧ quiet (put_ring p (w_enabled true r) s) s') s.
Proof.
  intros Hok Hat. unfold rtl8125_enable_ring. do 2 (apply wp_bind, hwcall_wp). apply wp_bind.
  eapply wp_mono; [apply hw_reset_wp|]. intros [] s0 Hq0. do 2 (apply wp_bind, hwcall_wp).
  set (s1 := nic_hw _ _). assert (quiet s s1) as Hq1.
  { subst s1. repeat (eapply quiet_trans; [|apply quiet_hw1]).
    eapply quiet_trans; [|exact Hq0]. repeat (eapply quiet_trans; [|apply quiet_hw1]). apply quiet_refl. }
  clearbody s1. apply wp_bind. eapply wp_mono; [apply init_indexes_wp; by eapply quiet_ok|].
  intros [] ? ->. apply wp_bind, hwcall_wp, wp_bind. eapply upd_ring_wp.
  { apply at_ring_hw. by eapply quiet_at. }
  apply wp_bind, hwcall_wp. set (s2 := nic_hw _ _).
  assert (quiet (put_ring p (w_enabled true r) s) s2) as Hq2.
  { subst s2. eapply quiet_trans; [|apply quiet_hw1]. apply quiet_put.
    eapply quiet_trans; [exact Hq1|apply quiet_hw1]. }
  clearbody s2. assert (lib_ok s2) as Hok2.
  { eapply quiet_ok; [exact Hq2|]. by eapply lib_ok_put; [exact Hat| |exact Hok]; destruct r. }
  apply wp_bind. eapply wp_mono; [by apply hw_start_wp|]. intros [] s3 Hq3.
  do 2 (apply wp_bind, hwcall_wp). apply wp_ret. split; [done|].
  eapply quiet_trans; [exact Hq2|]. eapply quiet_trans; [exact Hq3|].
  eapply quiet_trans; [apply quiet_hw1|apply quiet_hw1].
Qed.

Lemma disable_ring_wp p r s : at_ring p r s →
  wp (rtl8125_disable_ring (Some p)) (λ _ s', quiet (put_ring p (w_enabled false r) s) s') s.
Proof.
  intros Hat. unfold rtl8125_disable_ring. apply wp_bind. eapply wp_mono; [apply hw_reset_wp|].
  intros [] s' Hq. eapply upd_ring_wp; [by eapply quiet_at|]. by apply quiet_put.
Qed.
End ops.
