(* ===== verification/RtlLibRss.v ===== *)
(** * The r8125 offload library: RSS redirection

    The indirection table and the registers it is stored to, four entries to a
    register; redirecting all traffic to one ring and going back. *)
From stdpp Require Import base tactics list gmap numbers.
From Stdlib Require Import ZArith Lia.
From S2P Require Import Prelude IossUtils RtlLib RtlLibSpec RtlLibInv RtlLibOps.

(** ** Packing bytes into words *)
Lemma lor_shiftl_add a b n : 0 ≤ n → 0 ≤ a < 2 ^ n → Z.lor a (Z.shiftl b n) = a + b * 2 ^ n.
Proof.
  intros Hn Ha. rewrite <- Z.shiftl_mul_pow2 by done.
  assert (Z.land a (Z.shiftl b n) = 0) as Hl.
  { apply Z.bits_inj'. intros i Hi. rewrite Z.land_spec, Z.shiftl_spec, Z.bits_0 by done.
    destruct (Z.lt_ge_cases i n).
    - rewrite (Z.testbit_neg_r b) by lia. apply andb_false_r.
    - destruct (decide (a = 0)) as [->|]; [by rewrite Z.bits_0|].
      rewrite (Z.bits_above_log2 a i); [done|lia|].
      apply Z.log2_lt_pow2; [lia|]. eapply Z.lt_le_trans; [apply Ha|]. apply Z.pow_le_mono_r; lia. }
  pose proof (Z.add_lor_land a (Z.shiftl b n)). lia.
Qed.

Definition word_of (e0 e1 e2 e3 : Z) : Z := e0 + e1 * 2 ^ 8 + e2 * 2 ^ 16 + e3 * 2 ^ 24.

(** The registers a table is stored to, latest write first. *)
Fixpoint reta_writes (tbl : list Z) (reg : Z) (h : list hw_call) : list hw_call :=
  match tbl with
  | e0 :: e1 :: e2 :: e3 :: tbl' => reta_writes tbl' (reg + 4) (RTL_W32 reg (word_of e0 e1 e2 e3) :: h)
  | _ => h
  end.

Definition byte (z : Z) : Prop := 0 ≤ z < 256.

Section rss.
Context `{NicApi}.

Lemma reta_step e i j reta (Q : unit → nic → Prop) tbl reg s :
  i `mod` 4 = j → j < 3 →
  wp (store_reta_loop tbl (i + 1) reg (Z.lor reta (u32 (Z.shiftl e (j * 8))))) Q s →
  wp (store_reta_loop (e :: tbl) i reg reta) Q s.
Proof.
  intros Hi Hj HQ. simpl. change 3 with (Z.ones 2). rewrite Z.land_ones by lia.
  change (2 ^ 2) with 4. rewrite Hi. change (Z.ones 2) with 3. destruct (Z.eqb_spec j 3); [lia|done].
Qed.

Lemma byte_shift e j : byte e → 0 ≤ j ≤ 3 → u32 (Z.shiftl e (j * 8)) = Z.shiftl e (j * 8).
Proof.
  intros He Hj. unfold u32, byte in *. rewrite Z.shiftl_mul_pow2 by lia. apply Z.mod_small.
  assert (2 ^ (j * 8) ≤ 2 ^ 24) by (apply Z.pow_le_mono_r; lia). nia.
Qed.

Lemma word_of_lor e0 e1 e2 e3 : byte e0 → byte e1 → byte e2 → byte e3 →
  Z.lor (Z.lor (Z.lor (Z.lor 0 (u32 (Z.shiftl e0 (0 * 8)))) (u32 (Z.shiftl e1 (1 * 8))))
    (u32 (Z.shiftl e2 (2 * 8)))) (u32 (Z.shiftl e3 (3 * 8))) = word_of e0 e1 e2 e3.
Proof.
  intros H0 H1 H2 H3. rewrite !byte_shift by (done || lia). rewrite Z.lor_0_l, Z.shiftl_0_r.
  unfold word_of, byte in *.
  rewrite (lor_shiftl_add e0), (lor_shiftl_add _ e2), (lor_shiftl_add _ e3) by lia. done.
Qed.

Lemma store_reta_loop_wp k tbl i reg s (Q : unit → nic → Prop) :
  length tbl = (4 * k)%nat → Forall byte tbl → i `mod` 4 = 0 →
  0 ≤ reg → reg + Z.of_nat (length tbl) < 2 ^ 16 →
  Q tt (nic_hw (reta_writes tbl reg (hw s)) s) → wp (store_reta_loop tbl i reg 0) Q s.
Proof.
  revert tbl i reg s. induction k as [|k IH]; intros tbl i reg s Hlen Hb Hi Hreg Hmax HQ.
  { destruct tbl; [|done]. simpl. apply wp_ret. simpl in HQ. by destruct s. }
  destruct tbl as [|e0 [|e1 [|e2 [|e3 tbl]]]]; [simpl in Hlen; lia..|].
  inversion_clear Hb as [|? ? B0 Hb']. inversion_clear Hb' as [|? ? B1 Hb''].
  inversion_clear Hb'' as [|? ? B2 Hb']. inversion_clear Hb' as [|? ? B3 Hb].
  simpl in Hlen, Hmax.
  apply reta_step with (j := 0); [done|lia|]. apply reta_step with (j := 1); [by rewrite Z.add_mod, Hi|lia|].
  apply reta_step with (j := 2); [by rewrite <- Z.add_assoc, Z.add_mod, Hi|lia|].
  cbn [store_reta_loop]. change 3 with (Z.ones 2). rewrite Z.land_ones by lia. change (2 ^ 2) with 4.
  replace ((i + 1 + 1 + 1) `mod` 4) with 3 by (rewrite <- !Z.add_assoc, Z.add_mod, Hi by lia; done).
  change (Z.ones 2) with 3. rewrite word_of_lor by done. simpl (3 =? 3). cbv iota.
  apply wp_bind, hwcall_wp. unfold u16. rewrite Z.mod_small by lia.
  apply IH; [lia|done|by rewrite <- !Z.add_assoc, Z.add_mod, Hi|lia|lia|exact HQ].
Qed.

(** ** Redirecting and resetting *)
Definition fill_table (f : nat → Z) (tbl : list Z) : list Z :=
  imap (λ i e, if Nat.ltb i HwSuppIndirTblEntries then f i else e) tbl.

(** What storing the table does to the hardware. *)
Definition config_calls (tbl : list Z) (h : list hw_call) : list hw_call :=
  StoreRssKey :: reta_writes (firstn HwSuppIndirTblEntries tbl) RSS_INDIRECTION_TBL_8125_V2
    (SetRssHashOpt :: h).

Definition table_ok (s : nic) : Prop :=
  (HwSuppIndirTblEntries ≤ length (rss_indir_tbl s))%nat ∧
  (∃ k, HwSuppIndirTblEntries = 4 * k)%nat ∧
  RSS_INDIRECTION_TBL_8125_V2 + Z.of_nat HwSuppIndirTblEntries < 2 ^ 16.

Lemma fill_table_length f tbl : length (fill_table f tbl) = length tbl.
Proof. apply length_imap. Qed.
Lemma fill_table_lookup f tbl i : fill_table f tbl !! i =
  (λ e, if Nat.ltb i HwSuppIndirTblEntries then f i else e) <$> tbl !! i.
Proof. apply list_lookup_imap. Qed.

Lemma fill_table_bytes f tbl : (∀ i, byte (f i)) → Forall byte (firstn HwSuppIndirTblEntries (fill_table f tbl)).
Proof.
  intros Hf. apply Forall_lookup. intros i e. rewrite lookup_take_Some, fill_table_lookup.
  intros [Hl Hi]. destruct (tbl !! i); [|done]. simpl in Hl. injection Hl as <-.
  by destruct (Nat.ltb_spec i HwSuppIndirTblEntries); [|lia].
Qed.

Lemma config_wp f s : table_ok s → (∀ i, byte (f i)) →
  wp (fill_indir f ;; _rtl8125_config_rss) (λ _ s', s' =
    nic_hw (config_calls (fill_table f (rss_indir_tbl s)) (hw s))
      (nic_indir (fill_table f (rss_indir_tbl s)) s)) s.
Proof.
  intros (Hlen & [k Hk] & Hmax) Hf. unfold fill_indir, _rtl8125_config_rss, rtl8125_store_reta.
  wp_steps. apply hwcall_wp. wp_steps. simpl. fold (fill_table f (rss_indir_tbl s)).
  assert (length (firstn HwSuppIndirTblEntries (fill_table f (rss_indir_tbl s))) =
    HwSuppIndirTblEntries) as Hl by (rewrite length_take, fill_table_length; lia).
  eapply store_reta_loop_wp with (k := k); [by rewrite Hl|by apply fill_table_bytes|done
    |done|by rewrite Hl|]. by apply hwcall_wp.
Qed.

Lemma rss_redirect_wp p r s : at_ring p r s → table_ok s →
  wp (rtl8125_rss_redirect (Some p)) (λ rc s', rc = 0 ∧
    let tbl := fill_table (λ _, u8 (r_queue_num r)) (rss_indir_tbl s) in
    s' = nic_hw (config_calls tbl (hw s)) (nic_indir tbl s)) s.
Proof.
  intros Hat Htbl. unfold rtl8125_rss_redirect. apply wp_bind. eapply get_ring_wp; [done|].
  assert (byte (u8 (r_queue_num r))) as Hb by (unfold byte, u8; apply Z.mod_pos_bound; lia).
  pose proof (config_wp (λ _, u8 (r_queue_num r)) s Htbl (λ _, Hb)) as Hc.
  rewrite wp_bind_iff in Hc. apply wp_bind. eapply wp_mono; [exact Hc|]. intros [] s1 H1.
  apply wp_bind. eapply wp_mono; [exact H1|]. intros [] s2 ->. by apply wp_ret.
Qed.

Definition default_entry (i : nat) : Z := u8 (Z.of_nat i mod Z.of_nat num_rx_rings).

Lemma rss_reset_wp s : table_ok s →
  wp rtl8125_rss_reset (λ rc s', rc = 0 ∧
    let tbl := fill_table default_entry (rss_indir_tbl s) in
    s' = nic_hw (config_calls tbl (RssKeyFill :: hw s)) (nic_indir tbl s)) s.
Proof.
  intros Htbl. unfold rtl8125_rss_reset, rtl8125_init_rss. apply wp_bind, wp_bind, wp_modify, hwcall_wp.
  assert (∀ i, byte (default_entry i)) as Hb by (intros; unfold byte, default_entry, u8; apply Z.mod_pos_bound; lia).
  pose proof (config_wp default_entry (nic_hw (RssKeyFill :: hw s) s) Htbl Hb) as Hc.
  rewrite wp_bind_iff in Hc.
  apply wp_bind. eapply wp_mono; [exact Hc|]. intros [] s2 ->. by apply wp_ret.
Qed.

(** Redirecting makes every supported entry of the indirection table, and
    every byte of the registers it is stored to, the ring's queue; resetting
    the table afterwards spreads the entries over the host's own rings again.
    Neither touches the rings or their memory. *)
Theorem rss_redirect_reset p r s : at_ring p r s → table_ok s →
  wp (rtl8125_rss_redirect (Some p))
    (λ rc s', rc = 0 ∧ (∀ d, rings_of d s' = rings_of d s) ∧ dma s' = dma s ∧
       (∀ i, (i < HwSuppIndirTblEntries)%nat → rss_indir_tbl s' !! i = Some (u8 (r_queue_num r))) ∧
       hw s' = config_calls (rss_indir_tbl s') (hw s) ∧
       wp rtl8125_rss_reset (λ rc' s'', rc' = 0 ∧ (∀ d, rings_of d s'' = rings_of d s) ∧
         (∀ i, (i < HwSuppIndirTblEntries)%nat → rss_indir_tbl s'' !! i = Some (default_entry i)) ∧
         (∀ i, (HwSuppIndirTblEntries ≤ i)%nat → rss_indir_tbl s'' !! i = rss_indir_tbl s !! i)) s') s.
Proof.
  intros Hat Htbl. eapply wp_mono; [by apply rss_redirect_wp|]. intros rc s' [-> ->].
  assert (∀ f tbl i, (HwSuppIndirTblEntries ≤ length tbl)%nat → (i < HwSuppIndirTblEntries)%nat →
    fill_table f tbl !! i = Some (f i)) as Hin.
  { intros f tbl i Hl Hi. rewrite fill_table_lookup.
    destruct (lookup_lt_is_Some_2 tbl i) as [e ->]; [lia|]. simpl.
    by destruct (Nat.ltb_spec i HwSuppIndirTblEntries); [|lia]. }
  pose proof Htbl as (Hlen & _). split_and!; try done.
  - intros i Hi. simpl. by rewrite Hin.
  - eapply wp_mono; [apply rss_reset_wp|].
    { destruct Htbl as (? & ? & ?). split_and!; [simpl; by rewrite fill_table_length|done|done]. }
    intros rc'' s'' [-> ->]. split_and!; try done.
    + intros i Hi. simpl. rewrite Hin; [done| |done]. by rewrite fill_table_length.
    + intros i Hi. simpl. rewrite !fill_table_lookup. destruct (rss_indir_tbl s !! i); [|done].
      simpl. by destruct (Nat.ltb_spec i HwSuppIndirTblEntries); [lia|].
Qed.
End rss.
