(* ===== verification/RtlLibThms.v ===== *)
(** * The r8125 offload library: theorems

    Requesting and releasing rings, the invariant over every operation, the
    undefined failure paths, and the MSI-X round trip. *)
From stdpp Require Import base tactics sets list gmap numbers.
From Stdlib Require Import ZArith Lia.
From S2P Require Import Prelude IossUtils RtlLib RtlLibSpec RtlLibInv RtlLibOps RtlLibRss.

Section thms.
Context `{NicApi}.

(** ** Requesting a ring *)
(** C30: When memory can be had, a request lends the first free ring of the
    direction: it gets two fresh blocks, its buffers cut the second one
    contiguously, its descriptors point to them in order with the end-of-ring
    bit on the last one only, the ring's base is programmed into its queue's
    registers, and nothing else changes. *)
Theorem request_ring_spec d i r n sz s :
  lib_ok s → first_free d i r s → faults s = [] → 1 ≤ n ≤ 2 ^ 32 →
  wp (rtl8125_request_ring n sz d RTL8125_CONTIG_BUFS false)
    (λ ring s', ring = Some (RingPtr d i) ∧ lib_ok s' ∧ faults s' = [] ∧
       rings_of (other_dir d) s' = rings_of (other_dir d) s ∧
       ∃ r' ba, rings_of d s' = <[i := r']> (rings_of d s) ∧
         r_allocated r' = true ∧ r_ring_size r' = n ∧ r_buff_size r' = sz ∧
         r_bufs r' = Some (contig_bufs (Z.to_nat n) sz ba (dma_of ba)) ∧
         desc_mem s' = <[r_desc_addr r' := ring_descs d n sz (dma_of ba)]> (desc_mem s) ∧
         dma s !! r_desc_addr r' = None ∧ dma s !! ba = None ∧
         dma s' = <[ba := (buff_bytes n sz, dma_of ba)]>
                    (<[r_desc_addr r' := (desc_bytes d n, dma_of (r_desc_addr r'))]> (dma s)) ∧
         hw s' = base_writes d (Z.of_nat i) (dma_of (r_desc_addr r')) ++ hw s) s.
Proof.
  intros Hok Hff Hf Hn. pose proof Hff as (Hi & Hat & Hfr & _).
  pose proof Hok as (Hv & Hfresh & _ & H4 & _). destruct (H4 _ _ _ Hat) as (Hd & Hq & _).
  eapply wp_mono; [by apply request_ring_wp|]. intros ring s' [-> ->]. split; [done|].
  split; [by apply lib_ok_request|]. unfold lent_state. simpl rp_dir. cbv zeta.
  rewrite put_ring_faults, put_ring_desc, put_ring_dma, put_ring_hw, put_ring_other, put_ring_rings.
  split_and!; [done|by destruct d|].
  exists (lent_ring d n sz r s), (bufs_at d n s). rewrite <- Hq. split_and!; try done.
  - apply Hfresh. simpl. unfold desc_at. lia.
  - apply Hfresh. unfold bufs_at. lia.
Qed.

(** C35: A ring that is requested and released again leaves the allocations and
    the descriptor memory exactly as they were and every other ring untouched,
    and is free for the next request. *)
Theorem request_release_roundtrip d i r n sz s :
  lib_ok s → first_free d i r s → faults s = [] → 1 ≤ n ≤ 2 ^ 32 →
  wp (let* ring := rtl8125_request_ring n sz d RTL8125_CONTIG_BUFS false in
      rtl8125_release_ring ring)
    (λ _ s', dma s' = dma s ∧ desc_mem s' = desc_mem s ∧ lib_ok s' ∧
       rings_of (other_dir d) s' = rings_of (other_dir d) s ∧
       ∃ r', rings_of d s' = <[i := r']> (rings_of d s) ∧
         r_allocated r' = false ∧ r_bufs r' = None ∧ r_desc_addr r' = 0 ∧
         first_free d i r' s') s.
Proof.
  intros Hok Hff Hf Hn. pose proof Hff as (Hi & Hat & Hfr & Hbefore).
  pose proof Hok as (Hv & Hfresh & _ & H4 & _). destruct (H4 _ _ _ Hat) as (Hd & Hq & _).
  assert (lib_ok (lent_state (RingPtr d i) n sz r s)) as Hok' by (by apply lib_ok_request).
  assert (at_ring (RingPtr d i) (lent_ring d n sz r s) (lent_state (RingPtr d i) n sz r s)) as Hat'.
  { unfold lent_state. eapply at_put with (r := r). by destruct d. }
  apply wp_bind. eapply wp_mono; [by apply request_ring_wp|]. intros ring s' [-> ->].
  eapply wp_mono; [apply release_ring_wp; [exact Hat'|by apply (lib_ok_at _ _ _ Hok' Hat')]|].
  intros [] s' ->. destruct (lent_ring_ok d n sz r s Hv Hn Hd) as [Hbl _].
  set (s1 := lent_state _ _ _ _ _) in *. set (r1 := lent_ring _ _ _ _ _) in *.
  assert (dma s !! desc_at s = None ∧ desc_mem s !! desc_at s = None) as [Hda Hdm].
  { destruct (Hfresh (desc_at s)) as [? Hl]; [unfold desc_at; lia|]. split; [done|].
    unfold desc_lens in Hl. rewrite lookup_fmap in Hl. by destruct (desc_mem s !! _). }
  assert (dma s !! bufs_at d n s = None) as Hba by (apply Hfresh; unfold bufs_at; lia).
  unfold blocks in Hbl. injection Hbl as Eb.
  assert (r_desc_addr r1 = desc_at s) as Ea' by done.
  assert (rings_of d (freed_state (RingPtr d i) r1 s1) = <[i := released r1]> (rings_of d s)) as Er.
  { unfold freed_state. rewrite put_ring_rings, rings_of_dma, rings_of_desc. unfold s1, lent_state.
    rewrite put_ring_rings, list_insert_insert_eq. by destruct d. }
  split_and!.
  - simpl. unfold freed_state. rewrite put_ring_dma. simpl. unfold s1, lent_state.
    rewrite put_ring_dma. simpl. rewrite ?Ea', Eb.
    rewrite delete_insert_ne by (unfold bufs_at, desc_at; lia). rewrite delete_insert_eq, delete_insert_eq.
    rewrite (delete_id (dma s)) by done. by rewrite delete_id.
  - simpl. unfold freed_state. rewrite put_ring_desc. simpl. unfold s1, lent_state.
    rewrite put_ring_desc. simpl. rewrite ?Ea', delete_insert_eq. by rewrite delete_id.
  - apply lib_ok_hw, lib_ok_release; done.
  - unfold freed_state. rewrite rings_of_hw, put_ring_other. unfold s1, lent_state.
    rewrite rings_of_dma, rings_of_desc, put_ring_other. by destruct d.
  - exists (released r1). rewrite rings_of_hw. split_and!; try done.
    unfold first_free, at_ring. rewrite rings_of_hw. simpl rp_dir. simpl rp_idx. rewrite Er.
    split_and!; [apply Hi..| |done|].
    + apply list_lookup_insert_eq. by eapply lookup_lt_Some.
    + intros j Hj. destruct (Hbefore j Hj) as (r' & ? & ?). exists r'. split; [|done].
      unfold at_ring in *. simpl in *. by rewrite rings_of_hw, Er, list_lookup_insert_ne by lia.
Qed.

(** ** The failure paths *)
Lemma undef_bind {A B} (m : L A) (k : A → L B) s : m s = None → bind m k s = None.
Proof. unfold bind. by intros ->. Qed.
Lemma undef_after {A B} (m : L A) (k : A → L B) s : wp m (λ a s', k a s' = None) s → bind m k s = None.
Proof. unfold wp, bind. by destruct (m s) as [[a s']|]. Qed.

(** Freeing a ring whose buffer array is NULL reads through it. *)
Lemma free_null_bufs p r s : at_ring p r s → r_desc_addr r = 0 → contig r = true → r_bufs r = None →
  rtl8125_free_ring_mem (Some p) s = None.
Proof.
  intros Hat Hd Hc Hb. unfold rtl8125_free_ring_mem. apply undef_after.
  eapply get_ring_wp; [done|]. rewrite Hd, Hc. simpl. apply undef_after, wp_ret, undef_bind.
  apply undef_bind. unfold load_buf. apply undef_after. eapply get_ring_wp; [done|].
  unfold lift_opt. by rewrite Hb.
Qed.

(** The clean-up after a failed allocation leaves such a ring. *)
Lemma oom_wp p r s :
  at_ring p r s → contig r = true →
  (r_desc_addr r = 0 ∨
   r_desc_addr r ≠ 0 ∧ dma s !! r_desc_addr r = Some (r_desc_size r, r_desc_daddr r)) →
  (∃ b l, r_bufs r = Some (b :: l) ∧ b_addr b = 0) →
  wp (oom p) (λ rc s', rc = - ENOMEM ∧ ∃ r', at_ring p r' s' ∧ r_desc_addr r' = 0 ∧
    contig r' = true ∧ r_bufs r' = None) s.
Proof.
  intros Hat Hc Hd (b & l & Hb & Hb0). unfold oom. apply wp_bind. unfold rtl8125_free_ring_mem.
  apply wp_bind. eapply get_ring_wp; [done|]. rewrite Hc. apply wp_bind.
  eapply wp_mono with (Q := λ _ s', ∃ r', at_ring p r' s' ∧ r_desc_addr r' = 0 ∧
    contig r' = true ∧ r_bufs r' = r_bufs r).
  - destruct Hd as [Hd|[Hd Hm]].
    + rewrite Hd. simpl. apply wp_ret. by exists r.
    + destruct (Z.eqb_spec (r_desc_addr r) 0); [done|]. simpl. apply wp_bind.
      eapply dma_free_wp; [done|done|]. wp_steps. eapply upd_ring_wp; [eauto with nic_at|].
      eexists. split; [eauto using at_put with nic_at|done].
  - intros [] s' (r' & Hat' & Hd' & Hc' & Hb'). apply wp_bind, wp_bind. unfold load_buf.
    apply wp_bind. eapply get_ring_wp; [done|]. rewrite Hb', Hb. eapply wp_lift_opt; [done|].
    simpl. rewrite Hb0. unfold dma_free_coherent. simpl. apply wp_ret.
    eapply upd_ring_wp; [done|]. apply wp_ret. split; [done|].
    eexists. split; [by eapply at_put|done].
Qed.

Lemma ask_cons_wp z f (Q : Z → nic → Prop) s : faults s = z :: f → Q z (nic_faults f s) → wp ask Q s.
Proof. intros Hf HQ. unfold wp, ask. rewrite Hf. done. Qed.

Lemma put_ring_faults_comm p r f s : nic_faults f (put_ring p r s) = put_ring p r (nic_faults f s).
Proof. by destruct p as [[]]. Qed.
Lemma at_ring_faults p r f s : at_ring p r s → at_ring p r (nic_faults f s).
Proof. unfold at_ring. by rewrite rings_of_faults. Qed.

Lemma dma_alloc_ok_wp size f (Q : Z * Z → nic → Prop) s : faults s = 0 :: f →
  (let s1 := nic_faults f s in
   Q (vnext s, dma_of (vnext s))
     (nic_dma (<[vnext s := (size, dma_of (vnext s))]> (dma s)) (vnext s + Z.max 1 size) s1)) →
  wp (dma_alloc_coherent size) Q s.
Proof.
  intros Hf HQ. unfold dma_alloc_coherent. apply wp_bind. eapply ask_cons_wp; [done|]. simpl. by wp_steps.
Qed.
Lemma dma_alloc_fail_wp size z f (Q : Z * Z → nic → Prop) s : faults s = z :: f → z ≠ 0 →
  Q (0, 0) (nic_faults f s) → wp (dma_alloc_coherent size) Q s.
Proof.
  intros Hf Hz HQ. unfold dma_alloc_coherent. apply wp_bind. eapply ask_cons_wp; [done|].
  destruct (Z.eqb_spec z 0); [done|]. by apply wp_ret.
Qed.

(** Whichever of the three allocations fails, the ring is left without
    descriptors and without a buffer array. *)
Lemma alloc_fails_wp k rc f p r s :
  (k ≤ 2)%nat → rc ≠ 0 → faults s = replicate k 0 ++ rc :: f → 0 < vnext s →
  at_ring p r s → contig r = true → r_mem_ops r = false → 1 ≤ r_ring_size r → r_desc_addr r = 0 →
  wp (rtl8125_alloc_ring_mem p) (λ rc' s', rc' = - ENOMEM ∧ ∃ r', at_ring p r' s' ∧
    r_desc_addr r' = 0 ∧ contig r' = true ∧ r_bufs r' = None) s.
Proof.
  intros Hk Hrc Hf Hv Hat Hc Hops Hn Hd. unfold rtl8125_alloc_ring_mem.
  apply wp_bind. eapply get_ring_wp; [done|]. apply wp_bind.
  assert (1 ≤ Z.to_nat (r_ring_size r))%nat as Hn1 by lia.
  destruct k as [|k].
  { simpl in Hf. eapply ask_cons_wp; [done|]. destruct (Z.eqb_spec rc 0); [done|]. simpl.
    apply wp_bind. eapply upd_ring_wp; [by apply at_ring_faults|]. apply wp_ret. split; [done|].
    eexists. split; [eapply at_put; by apply at_ring_faults|done]. }
  simpl in Hf. eapply ask_cons_wp; [done|]. simpl. apply wp_bind.
  eapply upd_ring_wp; [by apply at_ring_faults|]. rewrite Hops. apply wp_bind.
  eapply upd_ring_wp; [eapply at_put; by apply at_ring_faults|]. rewrite put_put. apply wp_bind.
  destruct k as [|k].
  - simpl in Hf. eapply dma_alloc_fail_wp; [by rewrite put_ring_faults|done|].
    rewrite put_ring_faults_comm. apply wp_bind.
    eapply upd_ring_wp; [eapply at_put; by apply at_ring_faults|]. rewrite put_put. simpl.
    eapply oom_wp; [eapply at_put; by apply at_ring_faults|done|by left|].
    destruct (Z.to_nat (r_ring_size r)); [lia|]. eexists _, _. split; [simpl; done|done].
  - destruct k as [|k]; [|lia]. simpl in Hf.
    eapply dma_alloc_ok_wp; [by rewrite put_ring_faults|]. cbv zeta.
    rewrite put_ring_faults_comm, put_ring_dma, put_ring_vnext, nic_dma_put. simpl.
    apply wp_bind. eapply upd_ring_wp; [eapply at_put; apply at_ring_dma; by do 2 apply at_ring_faults|].
    rewrite put_put. destruct (Z.eqb_spec (vnext s) 0); [lia|]. apply wp_bind, wp_modify. rewrite Hc.
    rewrite put_ring_desc, nic_desc_put. simpl. apply wp_bind.
    eapply dma_alloc_fail_wp; [by rewrite put_ring_faults|done|]. rewrite put_ring_faults_comm.
    apply wp_bind. unfold store_buf. apply wp_bind. eapply get_ring_wp.
    { eapply at_put. apply at_ring_faults, at_ring_desc, at_ring_dma. by do 2 apply at_ring_faults. }
    simpl. case_decide as Hd0; [|rewrite length_replicate in Hd0; lia].
    apply set_ring_wp. rewrite put_put. simpl.
    destruct (Z.to_nat (r_ring_size r)) as [|m] eqn:Em; [lia|]. simpl.
    eapply oom_wp.
    + eapply at_put. apply at_ring_faults, at_ring_desc, at_ring_dma. by do 2 apply at_ring_faults.
    + done.
    + right. simpl. split; [done|]. rewrite put_ring_dma. simpl. by rewrite lookup_insert_eq.
    + eexists _, _. split; [simpl; done|done].
Qed.

(** The error path of a request is never survived: with no ring left, or
    with any of the ring's three allocations failing, the clean-up follows a
    NULL pointer. *)
Theorem request_ring_failure_undefined d n sz s : 1 ≤ n →
  ((∀ j, (lib_first d ≤ j < lib_upto d)%nat →
      ∃ r, at_ring (RingPtr d j) r s ∧ r_allocated r = true) →
   rtl8125_request_ring n sz d RTL8125_CONTIG_BUFS false s = None) ∧
  (∀ i r k rc f, first_free d i r s → r_desc_addr r = 0 → 0 < vnext s → (k ≤ 2)%nat → rc ≠ 0 →
     faults s = replicate k 0 ++ rc :: f →
     rtl8125_request_ring n sz d RTL8125_CONTIG_BUFS false s = None).
Proof.
  intros Hn. split.
  - intros Hall. rewrite request_ring_unfold. apply undef_after.
    eapply wp_mono with (Q := λ p s', p = None ∧ s' = s); [|by intros p s' [-> ->]].
    destruct d; (apply no_free_wp; intros k Hk; apply Hall; simpl; lia).
  - intros i r k rc f Hff Hd Hv Hk Hrc Hf. rewrite request_ring_unfold. apply undef_after.
    pose proof Hff as (_ & Hat & _).
    eapply wp_mono; [by apply get_lib_ring_wp|]. intros ? ? [-> ->].
    apply undef_after. eapply upd_ring_wp; [by eapply at_put|]. rewrite put_put.
    apply undef_after. eapply wp_mono.
    { eapply (alloc_fails_wp k rc f); [done|done|by rewrite put_ring_faults|by rewrite put_ring_vnext
        |by eapply at_put|done|done|done|done]. }
    intros rc' s' [-> (r' & Hat' & Hd' & Hc' & Hb')]. simpl. unfold request_error.
    by apply undef_bind, (free_null_bufs _ r').
Qed.

(** ** Every operation *)
Inductive lib_op :=
  | OpRequest (d : ioss_channel_dir) (n sz : Z) | OpRelease (p : ring_ptr)
  | OpEnable (p : ring_ptr) | OpDisable (p : ring_ptr)
  | OpRequestEvent (p : ring_ptr) (flags addr data : Z) | OpReleaseEvent (p : ring_ptr)
  | OpEnableEvent (p : ring_ptr) | OpDisableEvent (p : ring_ptr) | OpIntrMod (p : ring_ptr) (delay : Z)
  | OpRedirect (p : ring_ptr) | OpRssReset.

Definition run_op (op : lib_op) : L unit :=
  match op with
  | OpRequest d n sz => let* _ := rtl8125_request_ring n sz d RTL8125_CONTIG_BUFS false in ret tt
  | OpRelease p => rtl8125_release_ring (Some p)
  | OpEnable p => let* _ := rtl8125_enable_ring (Some p) in ret tt
  | OpDisable p => rtl8125_disable_ring (Some p)
  | OpRequestEvent p flags addr data =>
      let* _ := rtl8125_request_event (Some p) flags addr data in ret tt
  | OpReleaseEvent p => rtl8125_release_event (Some p)
  | OpEnableEvent p => let* _ := rtl8125_enable_event (Some p) in ret tt
  | OpDisableEvent p => let* _ := rtl8125_disable_event (Some p) in ret tt
  | OpIntrMod p delay => let* _ := rtl8125_set_ring_intr_mod (Some p) delay in ret tt
  | OpRedirect p => let* _ := rtl8125_rss_redirect (Some p) in ret tt
  | OpRssReset => let* _ := rtl8125_rss_reset in ret tt
  end.

Definition op_ring (op : lib_op) : option ring_ptr :=
  match op with
  | OpRequest _ _ _ | OpRssReset => None
  | OpRelease p | OpEnable p | OpDisable p | OpRequestEvent p _ _ _ | OpReleaseEvent p
  | OpEnableEvent p | OpDisableEvent p | OpIntrMod p _ | OpRedirect p => Some p
  end.

(** The client holds the ring it names; a request finds a free ring. *)
Definition op_ok (op : lib_op) (s : nic) : Prop :=
  match op with
  | OpRequest d n _ => 1 ≤ n ≤ 2 ^ 32 ∧ ∃ i r, first_free d i r s
  | _ => table_ok s ∧
      match op_ring op with Some p => ∃ r, at_ring p r s ∧ r_allocated r = true | None => True end
  end.

Definition good (s : nic) : Prop := lib_ok s ∧ faults s = [].

Lemma good_put p r r' s h : at_ring p r s → same_mem r r' → good s → good (put_ring p r' (nic_hw h s)).
Proof.
  intros Hat Hsm [Hok Hf]. split; [|by rewrite put_ring_faults].
  eapply lib_ok_put; [by apply at_ring_hw|done|by apply lib_ok_hw].
Qed.
Lemma good_event p r e s h : at_ring p r s → good s → good (put_ring p (w_event e r) (nic_hw h s)).
Proof. intros Hat. eapply good_put; [done|by destruct r]. Qed.

Lemma good_restart p r b s s' : at_ring p r s → good s → quiet (put_ring p (w_enabled b r) s) s' → good s'.
Proof.
  intros Hat [Hok Hf] Hq. split.
  - eapply quiet_ok; [done|]. eapply lib_ok_put; [done| |done]. by destruct r.
  - destruct Hq as (_ & _ & _ & -> & _). by rewrite put_ring_faults.
Qed.

(** Weakening a call's rule to the invariant, whatever its result. *)
Lemma drop_result {A} (m : L A) (Q : A → nic → Prop) s :
  wp m Q s → (∀ a s', Q a s' → good s') → wp (let* _ := m in ret tt) (λ _ s', good s') s.
Proof. intros Hm HQ. apply wp_bind. eapply wp_mono; [exact Hm|]. intros a s' Hs. by apply wp_ret, (HQ a). Qed.

Lemma op_event_safe p r flags addr data s : at_ring p r s → good s →
  wp (let* _ := rtl8125_request_event (Some p) flags addr data in ret tt) (λ _ s', good s') s.
Proof.
  intros Hat Hg. destruct (e_allocated (r_event r)) eqn:Ha.
  { eapply drop_result; [by eapply request_event_exists|]. by intros rc s' [_ ->]. }
  apply wp_bind. unfold rtl8125_request_event. apply wp_bind. eapply get_ring_wp; [done|]. rewrite Ha.
  destruct (Z.land flags MSIX_event_type =? 0); [by apply wp_ret, wp_ret|].
  unfold eri_r. wp_steps. change (u16 (message_id_of r * 16)) with (msix_reg (message_id_of r)).
  apply write_msix_wp. wp_step. eapply upd_ring_wp; [by apply at_ring_hw|].
  apply wp_ret, wp_ret. by apply good_event.
Qed.

(** C5: From a consistent state, every operation on a ring its caller holds,
    and a request while a ring is free and memory can be had, is defined and
    leaves the state consistent. *)
Theorem lib_op_preserves op s : lib_ok s → faults s = [] → op_ok op s →
  wp (run_op op) (λ _ s', lib_ok s' ∧ faults s' = []) s.
Proof.
  intros Hok Hf Hop. assert (good s) as Hg by done.
  change (wp (run_op op) (λ _ s', good s') s).
  destruct op as [d n sz|p|p|p|p flags addr data|p|p|p|p delay|p|]; simpl in Hop;
    [|destruct Hop as [Htbl (r & Hat & Ha)]..|]; simpl run_op.
  - destruct Hop as (Hn & i & r & Hff). destruct Hff as (Hi & Hat & ?). pose proof Hok as (Hv & _ & _ & H4 & _).
    eapply drop_result; [eapply (request_ring_wp d i r); try done|].
    + by destruct (H4 _ _ _ Hat).
    + intros ring s' [_ ->]. split; [by apply lib_ok_request|]. unfold lent_state.
      by rewrite put_ring_faults.
  - eapply wp_mono; [eapply release_ring_wp; [done|by eapply lib_ok_at]|]. intros [] s' ->.
    split; [by apply lib_ok_hw, lib_ok_release|]. simpl. unfold freed_state. by rewrite put_ring_faults.
  - eapply drop_result; [by eapply enable_ring_wp|]. intros rc s' [_ Hq]. by eapply good_restart.
  - eapply wp_mono; [by eapply disable_ring_wp|]. intros [] s' Hq. by eapply good_restart.
  - by eapply op_event_safe.
  - eapply wp_mono; [by eapply release_event_wp|]. intros [] s' ->.
    destruct (e_allocated _); [by apply good_event|done].
  - eapply drop_result; [by eapply enable_event_wp|]. intros rc s'.
    destruct (e_allocated _); intros [_ ->]; [by apply good_event|done].
  - eapply drop_result; [by eapply disable_event_wp|]. intros rc s'.
    destruct (e_allocated _); intros [_ ->]; [by apply good_event|done].
  - destruct (e_allocated (r_event r)) eqn:He.
    + eapply drop_result; [by eapply set_intr_mod_wp|]. intros rc s' [_ ->]. by apply good_event.
    + apply wp_bind. unfold rtl8125_set_ring_intr_mod. apply wp_bind.
      eapply get_ring_wp; [done|]. rewrite He. simpl. by apply wp_ret, wp_ret.
  - eapply drop_result; [by eapply rss_redirect_wp|]. intros rc s' [_ ->]. split; [|done].
    by apply lib_ok_hw, lib_ok_indir.
  - eapply drop_result; [apply rss_reset_wp, Hop|]. intros rc s' [_ ->]. split; [|done].
    by apply lib_ok_hw, lib_ok_indir.
Qed.

(** ** The MSI-X table *)
(** The table behaves as memory of 32-bit words. *)
Definition eri_memory : Prop :=
  (∀ h reg, 0 ≤ eri_read h reg < 2 ^ 32) ∧
  (∀ h reg v reg', 0 ≤ v < 2 ^ 32 →
     eri_read (EriWrite reg v :: h) reg' = if reg' =? reg then v else eri_read h reg').

Lemma low_word a b : 0 ≤ a < 2 ^ 32 → 0 ≤ b < 2 ^ 32 →
  Z.land (u64 (Z.lor a (Z.shiftl b 32))) (2 ^ 32 - 1) = a ∧ Z.shiftr (u64 (Z.lor a (Z.shiftl b 32))) 32 = b ∧
  u32 (Z.lor a (Z.shiftl b 32)) = a ∧ u32 (Z.shiftr (Z.lor a (Z.shiftl b 32)) 32) = b.
Proof.
  intros Ha Hb. rewrite lor_shiftl_add by lia. unfold u64, u32.
  rewrite (Z.mod_small _ (2 ^ 64)) by lia. change (2 ^ 32 - 1) with (Z.ones 32).
  rewrite Z.land_ones, Z.shiftr_div_pow2 by lia.
  rewrite Z.mod_add, Z.div_add, (Z.div_small a), (Z.mod_small a) by lia.
  rewrite Z.mod_small by lia. lia.
Qed.

Lemma eri_after id addr data h : eri_memory →
  let reg := msix_reg id in let h' := msix_writes id addr data ++ h in
  eri_read h' reg = Z.land (u64 addr) (2 ^ 32 - 1) ∧ eri_read h' (reg + 4) = Z.shiftr (u64 addr) 32 ∧
  eri_read h' (reg + 8) = u32 data ∧ eri_read h' (reg + 12) = u32 (Z.shiftr data 32).
Proof.
  intros [Hr Hw] reg h'. assert (∀ z, 0 ≤ u32 z < 2 ^ 32) as H32 by (intros; apply Z.mod_pos_bound; lia).
  assert (0 ≤ u64 addr < 2 ^ 64) as H64 by (apply Z.mod_pos_bound; lia).
  assert (0 ≤ Z.land (u64 addr) (2 ^ 32 - 1) < 2 ^ 32) as Hlo.
  { change (2 ^ 32 - 1) with (Z.ones 32). rewrite Z.land_ones by lia. apply Z.mod_pos_bound. lia. }
  assert (0 ≤ Z.shiftr (u64 addr) 32 < 2 ^ 32) as Hhi.
  { rewrite Z.shiftr_div_pow2 by lia. split; [apply Z.div_pos; lia|]. apply Z.div_lt_upper_bound; lia. }
  unfold h', msix_writes, reg. simpl app. split_and!; rewrite !Hw by done;
    repeat match goal with |- context [?x =? ?y] => destruct (Z.eqb_spec x y); try lia end.
Qed.

(** Requesting an event points the ring's MSI-X entry at the doorbell;
    releasing it restores the entry's address and its low data word, but the
    high data word comes back as a copy of the low one. *)
Theorem msix_roundtrip p r addr data s :
  eri_memory → at_ring p r s → e_allocated (r_event r) = false →
  let reg := msix_reg (message_id_of r) in
  wp (rtl8125_request_event (Some p) MSIX_event_type addr data) (λ rc s1, rc = 0 ∧
    eri_read (hw s1) reg = Z.land (u64 addr) (2 ^ 32 - 1) ∧
    eri_read (hw s1) (reg + 4) = Z.shiftr (u64 addr) 32 ∧
    eri_read (hw s1) (reg + 8) = u32 data ∧ eri_read (hw s1) (reg + 12) = u32 (Z.shiftr data 32) ∧
    wp (rtl8125_release_event (Some p)) (λ _ s2,
      eri_read (hw s2) reg = eri_read (hw s) reg ∧
      eri_read (hw s2) (reg + 4) = eri_read (hw s) (reg + 4) ∧
      eri_read (hw s2) (reg + 8) = eri_read (hw s) (reg + 8) ∧
      eri_read (hw s2) (reg + 12) = eri_read (hw s) (reg + 8) ∧
      ∃ r2, at_ring p r2 s2 ∧ e_allocated (r_event r2) = false) s1) s.
Proof.
  intros Heri Hat Ha reg. eapply wp_mono; [by apply request_event_wp|]. intros rc s1 [-> ->].
  pose proof (eri_after (message_id_of r) addr data (hw s) Heri) as Hreq. cbv zeta in Hreq. fold reg in Hreq.
  rewrite put_ring_hw. split; [done|].
  do 4 (split; [apply Hreq|]).
  set (sv := saved_event r (hw s)).
  eapply wp_mono; [eapply release_event_wp; eapply at_put; by apply at_ring_hw|]. intros [] s2 Es2.
  change (e_allocated _) with true in Es2. cbv iota in Es2.
  assert (hw s2 = msix_writes (message_id_of r) (e_addr sv) (e_data sv) ++
    msix_writes (message_id_of r) addr data ++ hw s) as Eh.
  { rewrite Es2, !put_ring_hw. done. }
  pose proof Heri as [Hr _].
  destruct (low_word (eri_read (hw s) reg) (eri_read (hw s) (reg + 4))) as (E1 & E2 & _); [done..|].
  destruct (low_word (eri_read (hw s) (reg + 8)) (eri_read (hw s) (reg + 8))) as (_ & _ & E3 & E4); [done..|].
  pose proof (eri_after (message_id_of r) (e_addr sv) (e_data sv)
    (msix_writes (message_id_of r) addr data ++ hw s) Heri) as (R1 & R2 & R3 & R4).
  fold reg in R1, R2, R3, R4. rewrite Eh. split_and!.
  - by rewrite R1. 
  - by rewrite R2.
  - by rewrite R3.
  - by rewrite R4.
  - rewrite Es2. eexists. split; [eapply at_put; apply at_ring_hw; eapply at_put; by apply at_ring_hw|done].
Qed.
End thms.
