(* ===== verification/RtlExamples.v ===== *)
(** * The r8125 offload library: a device

    An RTL8125B as the driver finds it: one ring of each direction to lend,
    128 indirection entries, an MSI-X table that behaves as memory; and the
    theorems of the library on it. *)
From stdpp Require Import base tactics sets list gmap numbers.
From Stdlib Require Import ZArith Lia.
From S2P Require Import Prelude IossUtils RtlLib RtlLibSpec RtlLibInv RtlLibOps RtlLibRss RtlLibThms.

Fixpoint msix_mem (h : list hw_call) (reg : Z) : Z :=
  match h with
  | [] => 0
  | EriWrite reg' v :: h' => if reg =? reg' then u32 v else msix_mem h' reg
  | _ :: h' => msix_mem h' reg
  end.

#[export] Instance rtl8125b : NicApi := {|
  num_tx_rings := 1; num_rx_rings := 1; HwSuppNumTxQueues := 2; HwSuppNumRxQueues := 2;
  RxDescLength := 32; HwSuppIndirTblEntries := 128; netif_running := true;
  dma_of := λ a, a + 2 ^ 32; eri_read := msix_mem |}.

Definition no_event : rtl8125_event := RtlEvent 0 0 false false 0 0.
Definition idle_ring (d : ioss_channel_dir) (q : Z) : rtl8125_ring :=
  RtlRing false false d q 0 0 0 0 0 0 None false no_event.
Definition fresh_nic : nic :=
  Nic [idle_ring IOSS_CH_DIR_TX 0; idle_ring IOSS_CH_DIR_TX 1]
      [idle_ring IOSS_CH_DIR_RX 0; idle_ring IOSS_CH_DIR_RX 1]
      ∅ ∅ 4096 [] (replicate 128 0) [] [].

(** The position of a ring in the two lists of two. *)
Lemma two_at (a b : rtl8125_ring) i r : [a; b] !! i = Some r → i = 0%nat ∧ r = a ∨ i = 1%nat ∧ r = b.
Proof. destruct i as [|[|i]]; simpl; intros [= <-]; auto. Qed.

Lemma fresh_nic_ok : lib_ok fresh_nic.
Proof.
  unfold lib_ok, at_ring. split_and!.
  - done.
  - intros a _. unfold desc_lens. simpl. by rewrite fmap_empty, !lookup_empty.
  - intros []; simpl; lia.
  - intros [] i r Hr; simpl in Hr; apply two_at in Hr as [[-> ->]|[-> ->]]; done.
  - intros [[] i] r p' r' Hr _ Ha; simpl in Hr; apply two_at in Hr as [[_ ->]|[_ ->]]; done.
Qed.

Lemma fresh_free d : first_free d 1 (idle_ring d 1) fresh_nic.
Proof. unfold first_free, at_ring. split_and!; destruct d; (done || (simpl; lia) || (simpl; intros; lia)). Qed.

Lemma fresh_table : table_ok fresh_nic.
Proof. unfold table_ok. split_and!; [simpl; lia|by exists 32%nat|done]. Qed.

Lemma msix_mem_range h reg : 0 ≤ msix_mem h reg < 2 ^ 32.
Proof.
  induction h as [|[] h IH]; simpl; try done. destruct (_ =? _); [|done]. apply Z.mod_pos_bound. lia.
Qed.
Lemma msix_is_memory : eri_memory.
Proof.
  split; [apply msix_mem_range|]. intros h reg v reg' Hv. simpl.
  destruct (reg' =? reg); [|done]. unfold u32. by apply Z.mod_small.
Qed.

(** ** The theorems applied *)
Lemma request_ring_runs :
  wp (rtl8125_request_ring 4 2048 IOSS_CH_DIR_RX RTL8125_CONTIG_BUFS false)
    (λ ring s', ring = Some (RingPtr IOSS_CH_DIR_RX 1) ∧
       desc_mem s' !! 4096 = Some (ring_descs IOSS_CH_DIR_RX 4 2048 (4224 + 2 ^ 32))) fresh_nic.
Proof. vm_compute. done. Qed.

Lemma request_ring_spec_witness :
  wp (rtl8125_request_ring 1024 2048 IOSS_CH_DIR_TX RTL8125_CONTIG_BUFS false)
    (λ ring s', ring = Some (RingPtr IOSS_CH_DIR_TX 1) ∧ lib_ok s') fresh_nic.
Proof.
  eapply wp_mono.
  - apply (request_ring_spec IOSS_CH_DIR_TX 1 (idle_ring IOSS_CH_DIR_TX 1) 1024 2048 fresh_nic);
      [apply fresh_nic_ok|apply fresh_free|reflexivity|lia].
  - intros ring s' (-> & Hok & _). split; [reflexivity|exact Hok].
Defined.

Lemma request_release_roundtrip_witness :
  wp (let* ring := rtl8125_request_ring 1024 2048 IOSS_CH_DIR_RX RTL8125_CONTIG_BUFS false in
      rtl8125_release_ring ring) (λ _ s', dma s' = ∅ ∧ desc_mem s' = ∅) fresh_nic.
Proof.
  eapply wp_mono.
  - apply (request_release_roundtrip IOSS_CH_DIR_RX 1 (idle_ring IOSS_CH_DIR_RX 1) 1024 2048 fresh_nic);
      [apply fresh_nic_ok|apply fresh_free|reflexivity|lia].
  - intros [] s' (E1 & E2 & _). split; [exact E1|exact E2].
Defined.

(** The buffer block of the first request cannot be had. *)
Lemma request_ring_failure_undefined_witness :
  rtl8125_request_ring 1024 2048 IOSS_CH_DIR_RX RTL8125_CONTIG_BUFS false
    (nic_faults [0; 0; ENOMEM] fresh_nic) = None.
Proof.
  apply (proj2 (request_ring_failure_undefined IOSS_CH_DIR_RX 1024 2048
    (nic_faults [0; 0; ENOMEM] fresh_nic) ltac:(lia))
    1%nat (idle_ring IOSS_CH_DIR_RX 1) 2%nat ENOMEM []);
    [apply fresh_free|reflexivity|reflexivity|lia|discriminate|reflexivity].
Defined.

Lemma lib_op_preserves_witness :
  op_ok (OpRequest IOSS_CH_DIR_RX 1024 2048) fresh_nic ∧
  wp (run_op (OpRequest IOSS_CH_DIR_RX 1024 2048)) (λ _ s', lib_ok s' ∧ faults s' = []) fresh_nic.
Proof.
  assert (op_ok (OpRequest IOSS_CH_DIR_RX 1024 2048) fresh_nic) as Hop.
  { split; [lia|]. exists 1%nat, (idle_ring IOSS_CH_DIR_RX 1). apply fresh_free. }
  split; [exact Hop|]. apply (lib_op_preserves (OpRequest IOSS_CH_DIR_RX 1024 2048) fresh_nic);
    [apply fresh_nic_ok|reflexivity|exact Hop].
Defined.

(** The transmit ring's entry, doorbell 0x1_2345_6788. *)
Lemma msix_roundtrip_witness :
  wp (rtl8125_request_event (Some (RingPtr IOSS_CH_DIR_TX 1)) MSIX_event_type 0x123456788 7)
    (λ rc s1, rc = 0 ∧ msix_mem (hw s1) 288 = 0x23456788) fresh_nic.
Proof.
  eapply wp_mono.
  - apply (msix_roundtrip (RingPtr IOSS_CH_DIR_TX 1) (idle_ring IOSS_CH_DIR_TX 1) 0x123456788 7 fresh_nic);
      [apply msix_is_memory|reflexivity|reflexivity].
  - intros rc s1 (-> & E & _). split; [reflexivity|exact E].
Defined.

Lemma rss_redirect_reset_witness :
  wp (rtl8125_rss_redirect (Some (RingPtr IOSS_CH_DIR_RX 1)))
    (λ rc s', rc = 0 ∧ rss_indir_tbl s' !! 5%nat = Some 1) fresh_nic.
Proof.
  eapply wp_mono.
  - apply (rss_redirect_reset (RingPtr IOSS_CH_DIR_RX 1) (idle_ring IOSS_CH_DIR_RX 1) fresh_nic);
      [reflexivity|apply fresh_table].
  - intros rc s' (-> & _ & _ & Ht & _). split; [reflexivity|]. apply (Ht 5%nat). simpl. lia.
Defined.
