(* ===== verification/R8125Access.v ===== *)
(** * The r8125 driver: access to the chip

    The register windows of [r8125_n.c]: the PHY and MAC behind the OCP
    registers, the PCIe PHY, the configuration space, and the ERI registers
    that are read and written bytewise. Each access is a command written to a
    register and a flag that is polled. *)
From stdpp Require Import base tactics numbers.
From Stdlib Require Import ZArith Lia.
From S2P Require Import Prelude.

(** ** The chip *)
(** [RTL_W32], [RTL_R32] and a byte of configuration space, on a device whose
    state is its own. A read can change it. *)
Class Mmio := {
  chip : Type;
  writel : Z → Z → chip → chip; readl : Z → chip → Z * chip;
  cfg_write8 : Z → Z → chip → chip; cfg_read8 : Z → chip → Z * chip }.

(** What [struct rtl8125_private] keeps for these functions. *)
Record tp `{Mmio} := Tp {
  mmio : chip; cur_page : Z; ocp_base : Z; rtk_enable_diag : bool; mcfg_default : bool }.
Arguments Tp {_}.
Arguments mmio {_}.
Arguments cur_page {_}.
Arguments ocp_base {_}.
Arguments rtk_enable_diag {_}.
Arguments mcfg_default {_}.

Definition PHYOCP : Z := 0xB8.
Definition MACOCP : Z := 0xB0.
Definition EPHYAR : Z := 0x80.
Definition CSIDR : Z := 0x64.
Definition CSIAR : Z := 0x68.
Definition ERIDR : Z := 0x70.
Definition ERIAR : Z := 0x74.
(** The flag of each command register, and the write bit of its commands. *)
Definition OCPR_Flag : Z := 0x80000000.
Definition OCPR_Write : Z := 0x80000000.
Definition OCPR_Addr_Reg_shift : Z := 16.
Definition OCPDR_Data_Mask : Z := 0xFFFF.
Definition OCP_STD_PHY_BASE_PAGE : Z := 0x0A40.
Definition OCP_STD_PHY_BASE : Z := 0xa400.
Definition EPHYAR_Reg_Mask_v2 : Z := 0x7f.
Definition CSIAR_ByteEn : Z := 0x0f.
Definition CSIAR_Addr_Mask : Z := 0x0fff.
Definition ERIAR_Addr_Align : Z := 4.
Definition ERIAR_ByteEn : Z := 0x0f.
Definition R8125_CHANNEL_WAIT_COUNT : Z := 20000.

Section access.
Context `{Mmio}.
Abbreviation T := (M tp).

Definition t_mmio (c : chip) (t : tp) : tp := Tp c (cur_page t) (ocp_base t) (rtk_enable_diag t) (mcfg_default t).
Definition t_page (p : Z) (t : tp) : tp := Tp (mmio t) p (ocp_base t) (rtk_enable_diag t) (mcfg_default t).
Definition t_base (b : Z) (t : tp) : tp := Tp (mmio t) (cur_page t) b (rtk_enable_diag t) (mcfg_default t).

Definition RTL_W32 (reg v : Z) : T unit := modify (λ t, t_mmio (writel reg v (mmio t)) t).
Definition RTL_R32 (reg : Z) : T Z := λ t, Some ((readl reg (mmio t)).1, t_mmio (readl reg (mmio t)).2 t).

Definition flagged (v : Z) : bool := negb (Z.land v OCPR_Flag =? 0).
(** [for (i = 0; i < R8125_CHANNEL_WAIT_COUNT; i++) if (... & Flag) break;],
    for the flag set or clear; whether it was seen in time. *)
Fixpoint wait_loop (n : nat) (reg : Z) (set : bool) : T bool :=
  match n with
  | O => ret false
  | S n' =>
      let* v := RTL_R32 reg in
      if eqb (flagged v) set then ret true else wait_loop n' reg set
  end.
Definition wait_flag (reg : Z) (set : bool) : T bool := wait_loop (Z.to_nat R8125_CHANNEL_WAIT_COUNT) reg set.

(** ** The PHY, by OCP address *)
Definition map_phy_ocp_addr (PageNum RegNum : Z) : Z :=
  let RegNum := u8 RegNum in
  let '(page, reg) :=
    if PageNum =? 0 then (u16 (OCP_STD_PHY_BASE_PAGE + RegNum / 8), u8 (0x10 + RegNum mod 8))
    else (PageNum, RegNum) in
  let page := u16 (Z.shiftl page 4) in
  if reg <? 16 then 0 else u16 (page + u8 (Z.shiftl (u8 (reg - 16)) 1)).

Definition mdio_real_direct_write_phy_ocp (RegAddr value : Z) : T unit :=
  RTL_W32 PHYOCP (Z.lor (u32 (Z.shiftl (RegAddr / 2) OCPR_Addr_Reg_shift)) (Z.lor OCPR_Write value)) ;;
  let* _ := wait_flag PHYOCP false in ret tt.
Definition mdio_direct_write_phy_ocp (RegAddr value : Z) : T unit :=
  let* t := gets id in
  if rtk_enable_diag t then ret tt else mdio_real_direct_write_phy_ocp RegAddr value.

(** The data is read whether or not the flag was seen. *)
Definition mdio_real_direct_read_phy_ocp (RegAddr : Z) : T Z :=
  RTL_W32 PHYOCP (u32 (Z.shiftl (RegAddr / 2) OCPR_Addr_Reg_shift)) ;;
  let* _ := wait_flag PHYOCP true in
  let* v := RTL_R32 PHYOCP in
  ret (Z.land v OCPDR_Data_Mask).
Definition mdio_direct_read_phy_ocp (RegAddr : Z) : T Z :=
  let* t := gets id in
  if rtk_enable_diag t then ret 0xffffffff else mdio_real_direct_read_phy_ocp RegAddr.

(** ** The PHY, by page and register *)
Definition rtl8125_mdio_real_write_phy_ocp (PageNum RegAddr value : Z) : T unit :=
  mdio_real_direct_write_phy_ocp (map_phy_ocp_addr PageNum RegAddr) (u16 value).
Definition rtl8125_mdio_real_read_phy_ocp (PageNum RegAddr : Z) : T Z :=
  mdio_real_direct_read_phy_ocp (map_phy_ocp_addr PageNum RegAddr).

Definition mdio_real_write (RegAddr value : Z) : T unit :=
  if RegAddr =? 0x1F then modify (t_page value)
  else let* t := gets id in rtl8125_mdio_real_write_phy_ocp (cur_page t) RegAddr value.
Definition mdio_real_read (RegAddr : Z) : T Z :=
  let* t := gets id in rtl8125_mdio_real_read_phy_ocp (cur_page t) RegAddr.

Definition rtl8125_mdio_write (RegAddr value : Z) : T unit :=
  let* t := gets id in if rtk_enable_diag t then ret tt else mdio_real_write RegAddr value.
Definition rtl8125_mdio_read (RegAddr : Z) : T Z :=
  let* t := gets id in if rtk_enable_diag t then ret 0xffffffff else mdio_real_read RegAddr.

(** ** The MAC *)
Definition rtl8125_mac_ocp_write (reg_addr value : Z) : T unit :=
  RTL_W32 MACOCP (Z.lor (u32 (u32 (Z.shiftl (reg_addr / 2) OCPR_Addr_Reg_shift) + value)) OCPR_Write).
Definition rtl8125_mac_ocp_read (reg_addr : Z) : T Z :=
  RTL_W32 MACOCP (u32 (Z.shiftl (reg_addr / 2) OCPR_Addr_Reg_shift)) ;;
  let* v := RTL_R32 MACOCP in
  ret (u16 v).

Definition mac_mcu_write (reg value : Z) : T unit :=
  if reg =? 0x1f then modify (t_base (Z.shiftl value 4))
  else let* t := gets id in rtl8125_mac_ocp_write (u16 (ocp_base t + reg)) value.
Definition mac_mcu_read (reg : Z) : T Z :=
  let* t := gets id in rtl8125_mac_ocp_read (u16 (ocp_base t + reg)).

(** ** The PCIe PHY *)
Definition rtl8125_ephy_write (RegAddr value : Z) : T unit :=
  RTL_W32 EPHYAR (Z.lor OCPR_Write (Z.lor (Z.shiftl (Z.land RegAddr EPHYAR_Reg_Mask_v2) 16) (Z.land value 0xffff))) ;;
  let* _ := wait_flag EPHYAR false in ret tt.
Definition rtl8125_ephy_read (RegAddr : Z) : T Z :=
  RTL_W32 EPHYAR (Z.shiftl (Z.land RegAddr EPHYAR_Reg_Mask_v2) 16) ;;
  let* ok := wait_flag EPHYAR true in
  if ok : bool then let* v := RTL_R32 EPHYAR in ret (u16 (Z.land v 0xffff)) else ret 0xffff.

(** ** The configuration space *)
Definition csi_cmd (write : bool) (fn addr : Z) : Z :=
  Z.lor (Z.lor (if write then OCPR_Write else 0) (Z.lor (Z.shiftl CSIAR_ByteEn 12) (Z.land addr CSIAR_Addr_Mask)))
    (Z.shiftl fn 16).

(** Function 0 on a chip that is not known; no function above 7. *)
Definition rtl8125_csi_other_fun_read (multi_fun_sel_bit addr : Z) : T Z :=
  let* t := gets id in
  let fn := if mcfg_default t then 0 else multi_fun_sel_bit in
  if 7 <? fn then ret 0xffffffff
  else
    RTL_W32 CSIAR (csi_cmd false fn addr) ;;
    let* ok := wait_flag CSIAR true in
    if ok : bool then let* v := RTL_R32 CSIDR in ret (u32 v) else ret 0xffffffff.
Definition rtl8125_csi_other_fun_write (multi_fun_sel_bit addr value : Z) : T unit :=
  RTL_W32 CSIDR value ;;
  let* t := gets id in
  let fn := if mcfg_default t then 0 else multi_fun_sel_bit in
  if 7 <? fn then ret tt
  else RTL_W32 CSIAR (csi_cmd true fn addr) ;; let* _ := wait_flag CSIAR false in ret tt.

Definition rtl8125_csi_read (addr : Z) : T Z := rtl8125_csi_other_fun_read 0 addr.
Definition rtl8125_csi_write (addr value : Z) : T unit := rtl8125_csi_other_fun_write 0 addr value.

Definition rtl8125_csi_fun0_read_byte (addr : Z) : T Z :=
  let* t := gets id in
  if mcfg_default t then λ t, Some ((cfg_read8 addr (mmio t)).1, t_mmio (cfg_read8 addr (mmio t)).2 t)
  else
    let* v := rtl8125_csi_other_fun_read 0 (u16 (Z.land addr (Z.lnot 3))) in
    ret (u8 (Z.shiftr v (8 * Z.land addr 3))).
Definition rtl8125_csi_fun0_write_byte (addr value : Z) : T unit :=
  let* t := gets id in
  if mcfg_default t then modify (λ t, t_mmio (cfg_write8 addr value (mmio t)) t)
  else
    let reg := u16 (Z.land addr (Z.lnot 3)) in
    let shift := 8 * Z.land addr 3 in
    let* v := rtl8125_csi_other_fun_read 0 reg in
    rtl8125_csi_other_fun_write 0 reg
      (Z.lor (Z.land v (u32 (Z.lnot (Z.shiftl 0xFF shift)))) (u32 (Z.shiftl value shift))).

(** ** The ERI registers *)
Definition eri_base (base_address : Z) : Z :=
  u32 (Z.lor (Z.shiftl (Z.land base_address 0x00FFF000) 6) (Z.land base_address 0x000FFF)).
Definition eri_cmd (write : bool) (base addr type : Z) : Z :=
  let cmd := Z.lor (if write then OCPR_Write else 0) (Z.lor base (Z.lor (Z.shiftl type 16)
    (Z.lor (Z.shiftl ERIAR_ByteEn 12) (Z.land addr 0x0FFF)))) in
  if Z.land addr 0xF000 =? 0 then cmd
  else Z.lor cmd (Z.land (Z.shiftl (Z.shiftr (Z.land addr 0xF000) 12) 20) 0x00F00000).

(** The bytes of this round: [len] of them, from [val_shift] on. *)
Definition eri_mask (len val_shift : Z) : Z :=
  u32 (Z.shiftl (if len =? 1 then 0xFF else if len =? 2 then 0xFFFF else if len =? 3 then 0xFFFFFF else 0xFFFFFFFF)
    (8 * val_shift)).

(** [while (len > 0)]; each round takes at least one byte. *)
Fixpoint eri_read_loop (fuel : nat) (addr len type base shift value2 : Z) : T Z :=
  if len <=? 0 then ret value2
  else match fuel with
  | O => ub
  | S fuel' =>
      let val_shift := Z.rem addr ERIAR_Addr_Align in
      let addr := Z.land addr (Z.lnot 3) in
      RTL_W32 ERIAR (eri_cmd false base addr type) ;;
      let* _ := wait_flag ERIAR true in
      let* v := RTL_R32 ERIDR in
      let value1 := Z.land v (eri_mask len val_shift) in
      let value2 := Z.lor value2 (u32 (Z.shiftl (Z.shiftr value1 (8 * val_shift)) (8 * shift))) in
      if len <=? 4 - val_shift then ret value2
      else eri_read_loop fuel' (addr + 4) (len - (4 - val_shift)) type base (4 - val_shift) value2
  end.
(** The error is -1 as an unsigned value. *)
Definition rtl8125_eri_read_with_oob_base_address (addr len type base_address : Z) : T Z :=
  if (4 <? len) || (len <=? 0) then ret (u32 (-1))
  else eri_read_loop (Z.to_nat len) addr len type (eri_base base_address) 0 0.
Definition rtl8125_eri_read (addr len type : Z) : T Z := rtl8125_eri_read_with_oob_base_address addr len type 0.

Fixpoint eri_write_loop (fuel : nat) (addr len value type base_address shift : Z) : T unit :=
  if len <=? 0 then ret tt
  else match fuel with
  | O => ub
  | S fuel' =>
      let val_shift := Z.rem addr ERIAR_Addr_Align in
      let addr := Z.land addr (Z.lnot 3) in
      let* old := rtl8125_eri_read_with_oob_base_address addr 4 type base_address in
      let value1 := Z.lor (Z.land old (u32 (Z.lnot (eri_mask len val_shift))))
        (Z.shiftr (u32 (Z.shiftl value (8 * val_shift))) (8 * shift)) in
      RTL_W32 ERIDR value1 ;;
      RTL_W32 ERIAR (eri_cmd true (eri_base base_address) addr type) ;;
      let* _ := wait_flag ERIAR false in
      if len <=? 4 - val_shift then ret tt
      else eri_write_loop fuel' (addr + 4) (len - (4 - val_shift)) value type base_address (4 - val_shift)
  end.
Definition rtl8125_eri_write_with_oob_base_address (addr len value type base_address : Z) : T Z :=
  if (4 <? len) || (len <=? 0) then ret (-1)
  else eri_write_loop (Z.to_nat len) addr len value type base_address 0 ;; ret 0.
Definition rtl8125_eri_write (addr len value type : Z) : T Z :=
  rtl8125_eri_write_with_oob_base_address addr len value type 0.

(** ** Clearing and setting bits *)
Definition clear_and_set (read : T Z) (write : Z → T unit) (clearmask setmask : Z) : T unit :=
  let* v := read in write (u16 (Z.lor (Z.land (u16 v) (u16 (Z.lnot clearmask))) setmask)).
Definition ClearAndSetEthPhyBit (addr clearmask setmask : Z) : T unit :=
  clear_and_set (rtl8125_mdio_read addr) (rtl8125_mdio_write addr) clearmask setmask.
Definition ClearAndSetEthPhyOcpBit (addr clearmask setmask : Z) : T unit :=
  clear_and_set (mdio_direct_read_phy_ocp addr) (mdio_direct_write_phy_ocp addr) clearmask setmask.
Definition ClearAndSetMcuAccessRegBit (addr clearmask setmask : Z) : T unit :=
  clear_and_set (rtl8125_mac_ocp_read addr) (rtl8125_mac_ocp_write addr) clearmask setmask.
Definition ClearAndSetPCIePhyBit (addr clearmask setmask : Z) : T unit :=
  clear_and_set (rtl8125_ephy_read addr) (rtl8125_ephy_write addr) clearmask setmask.
End access.
