(* ===== verification/R8125AccessSpec.v ===== *)
(** * The r8125 driver: access to the chip, correctness

    On a chip whose windows are plain registers, the accesses read and write
    exactly the registers, bits and bytes they name. *)
From stdpp Require Import base tactics numbers.
From Stdlib Require Import ZArith Lia.
From S2P Require Import Prelude R8125Access.

(** ** Bits *)
Definition field (lo n v : Z) : Z := Z.land (Z.shiftr v lo) (Z.ones n).

Lemma field_spec lo n v i : 0 ≤ lo → 0 ≤ n → 0 ≤ i → Z.testbit (field lo n v) i = (i <? n) && Z.testbit v (i + lo).
Proof.
  intros. unfold field. rewrite Z.land_spec, Z.shiftr_spec, Z.testbit_ones by lia.
  rewrite andb_comm. destruct (Z.leb_spec 0 i); [|lia]. by rewrite andb_true_l.
Qed.
Lemma testbit_small v n i : 0 ≤ v < 2 ^ n → n ≤ i → Z.testbit v i = false.
Proof.
  intros Hv Hi. destruct (Z.ltb_spec n 0) as [Hn|Hn]; [rewrite Z.pow_neg_r in Hv by lia; lia|].
  rewrite <- (Z.mod_small v (2 ^ n)) by lia. by rewrite Z.mod_pow2_bits_high by lia.
Qed.
Lemma mod_bits v n i : 0 ≤ n → 0 ≤ i → Z.testbit (v mod 2 ^ n) i = (i <? n) && Z.testbit v i.
Proof.
  intros Hn Hi. destruct (Z.ltb_spec i n); [by rewrite Z.mod_pow2_bits_low|by rewrite Z.mod_pow2_bits_high].
Qed.
Lemma bits_bound v n : 0 ≤ n → 0 ≤ v → (∀ i, n ≤ i → Z.testbit v i = false) → v < 2 ^ n.
Proof.
  intros Hn Hv Hb. destruct (Z.eq_dec v 0) as [->|Hne]; [by apply Z.pow_pos_nonneg|].
  assert (Z.log2 v < n); [|by apply Z.log2_lt_pow2; lia]. destruct (Z.ltb_spec (Z.log2 v) n) as [?|Hl]; [done|].
  specialize (Hb (Z.log2 v) Hl). rewrite Z.bit_log2 in Hb by lia. done.
Qed.
Lemma ones_bits n i : 0 ≤ n → 0 ≤ i → Z.testbit (Z.ones n) i = (i <? n).
Proof. intros. rewrite Z.testbit_ones by lia. destruct (Z.leb_spec 0 i); [done|lia]. Qed.

(** Rewrites a bit of an expression down to bits of its variables. *)
Ltac bit_rules := repeat first
  [ rewrite Z.lor_spec | rewrite Z.land_spec | rewrite Z.shiftl_spec by lia | rewrite Z.shiftr_spec by lia
  | rewrite Z.lnot_spec by lia | rewrite mod_bits by lia | rewrite field_spec by lia | rewrite ones_bits by lia
  | rewrite Z.pow2_bits_eqb by lia | rewrite Z.bits_0 | rewrite Z.testbit_neg_r by lia ].
Ltac bool_cases := repeat match goal with
  | |- context [?a <? ?b] => destruct (Z.ltb_spec a b); try lia
  | |- context [?a <=? ?b] => destruct (Z.leb_spec a b); try lia
  | |- context [?a =? ?b] => destruct (Z.eqb_spec a b); try lia
  end.

(** ** What the windows hold *)
Record regs := Regs {
  phy_reg : Z → Z;         (* by half the OCP address *)
  mac_reg : Z → Z; ephy_reg : Z → Z;
  csi_reg : Z → Z → Z;     (* by function and address *)
  eri_reg : Z → Z → Z }.   (* by type and address *)
Definition upd (f : Z → Z) (a v : Z) : Z → Z := λ x, if x =? a then v else f x.
Definition set_phy (a v : Z) (m : regs) : regs := Regs (upd (phy_reg m) a v) (mac_reg m) (ephy_reg m) (csi_reg m) (eri_reg m).
Definition set_mac (a v : Z) (m : regs) : regs := Regs (phy_reg m) (upd (mac_reg m) a v) (ephy_reg m) (csi_reg m) (eri_reg m).
Definition set_ephy (a v : Z) (m : regs) : regs := Regs (phy_reg m) (mac_reg m) (upd (ephy_reg m) a v) (csi_reg m) (eri_reg m).
Definition set_csi (f a v : Z) (m : regs) : regs :=
  Regs (phy_reg m) (mac_reg m) (ephy_reg m) (λ x, if x =? f then upd (csi_reg m f) a v else csi_reg m x) (eri_reg m).
Definition set_eri (y a v : Z) (m : regs) : regs :=
  Regs (phy_reg m) (mac_reg m) (ephy_reg m) (csi_reg m) (λ x, if x =? y then upd (eri_reg m y) a v else eri_reg m x).

Section laws.
Context `{Mmio}.

(** The flag takes the value within the polls there are; then [Q]. *)
Fixpoint settle (n : nat) (reg : Z) (set : bool) (Q : chip → Prop) (c : chip) : Prop :=
  match n with
  | O => False
  | S n' => if eqb (flagged (readl reg c).1) set then Q (readl reg c).2 else settle n' reg set Q (readl reg c).2
  end.
Definition settles := settle (Z.to_nat R8125_CHANNEL_WAIT_COUNT).
Definition answers (reg : Z) (P : Z → Prop) (Q : chip → Prop) (c : chip) : Prop :=
  P (readl reg c).1 ∧ Q (readl reg c).2.

(** The address in an ERI command. *)
Definition eri_addr (cmd : Z) : Z := Z.lor (field 0 12 cmd) (Z.shiftl (field 20 4 cmd) 12).

(** A chip that carries commands out in time, on registers that hold what is
    written to them: bit 31 of a command says whether it writes. *)
Class ChipLaws := {
  chip_rep : regs → chip → Prop;
  phy_law m c cmd : chip_rep m c → 0 ≤ cmd < 2 ^ 32 →
    if Z.testbit cmd 31
    then settles PHYOCP false (chip_rep (set_phy (field 16 15 cmd) (field 0 16 cmd) m)) (writel PHYOCP cmd c)
    else settles PHYOCP true (answers PHYOCP (λ v, field 0 16 v = phy_reg m (field 16 15 cmd)) (chip_rep m))
           (writel PHYOCP cmd c);
  mac_law m c cmd : chip_rep m c → 0 ≤ cmd < 2 ^ 32 →
    if Z.testbit cmd 31
    then chip_rep (set_mac (field 16 15 cmd) (field 0 16 cmd) m) (writel MACOCP cmd c)
    else answers MACOCP (λ v, field 0 16 v = mac_reg m (field 16 15 cmd)) (chip_rep m) (writel MACOCP cmd c);
  ephy_law m c cmd : chip_rep m c → 0 ≤ cmd < 2 ^ 32 →
    if Z.testbit cmd 31
    then settles EPHYAR false (chip_rep (set_ephy (field 16 7 cmd) (field 0 16 cmd) m)) (writel EPHYAR cmd c)
    else settles EPHYAR true (answers EPHYAR (λ v, field 0 16 v = ephy_reg m (field 16 7 cmd)) (chip_rep m))
           (writel EPHYAR cmd c);
  csi_write_law m c cmd v : chip_rep m c → 0 ≤ cmd < 2 ^ 32 → 0 ≤ v < 2 ^ 32 → Z.testbit cmd 31 = true →
    field 12 4 cmd = 15 →
    settles CSIAR false (chip_rep (set_csi (field 16 3 cmd) (field 0 12 cmd) v m)) (writel CSIAR cmd (writel CSIDR v c));
  csi_read_law m c cmd : chip_rep m c → 0 ≤ cmd < 2 ^ 32 → Z.testbit cmd 31 = false → field 12 4 cmd = 15 →
    settles CSIAR true (answers CSIDR (λ v, field 0 32 v = csi_reg m (field 16 3 cmd) (field 0 12 cmd)) (chip_rep m))
      (writel CSIAR cmd c);
  eri_write_law m c cmd v : chip_rep m c → 0 ≤ cmd < 2 ^ 32 → 0 ≤ v < 2 ^ 32 → Z.testbit cmd 31 = true →
    field 12 4 cmd = 15 → field 24 7 cmd = 0 →
    settles ERIAR false (chip_rep (set_eri (field 16 4 cmd) (eri_addr cmd) v m)) (writel ERIAR cmd (writel ERIDR v c));
  eri_read_law m c cmd : chip_rep m c → 0 ≤ cmd < 2 ^ 32 → Z.testbit cmd 31 = false →
    field 12 4 cmd = 15 → field 24 7 cmd = 0 →
    settles ERIAR true (answers ERIDR (λ v, field 0 32 v = eri_reg m (field 16 4 cmd) (eri_addr cmd)) (chip_rep m))
      (writel ERIAR cmd c) }.

(** ** Rules *)
Lemma w32_wp reg v (Q : unit → tp → Prop) t : Q tt (t_mmio (writel reg v (mmio t)) t) → wp (RTL_W32 reg v) Q t.
Proof. done. Qed.
Lemma r32_wp reg (P : Z → Prop) (R : chip → Prop) (Q : Z → tp → Prop) t : answers reg P R (mmio t) →
  (∀ v c, P v → R c → Q v (t_mmio c t)) → wp (RTL_R32 reg) Q t.
Proof. intros [HP HR] HQ. unfold wp, RTL_R32. by apply HQ. Qed.
Lemma wait_wp reg set (R : chip → Prop) (Q : bool → tp → Prop) t : settles reg set R (mmio t) →
  (∀ c, R c → Q true (t_mmio c t)) → wp (wait_flag reg set) Q t.
Proof.
  unfold settles, wait_flag. generalize (Z.to_nat R8125_CHANNEL_WAIT_COUNT). intros n. revert t.
  induction n as [|n IH]; intros t Hs HQ; [done|]. cbn [settle wait_loop] in *.
  apply wp_bind. unfold wp at 1, RTL_R32. destruct (eqb _ set); [by apply wp_ret, HQ|]. by apply IH.
Qed.
End laws.
Arguments ChipLaws {_}.

(** ** The PHY *)
(** The page and register of the standard window; page 0 is a view of it. *)
Definition std_reg (page reg : Z) : Z * Z :=
  if page =? 0 then (OCP_STD_PHY_BASE_PAGE + reg / 8, 16 + reg mod 8) else (page, reg).
Definition in_window (page reg : Z) : Prop := 0 ≤ page < 0x1000 ∧ if page =? 0 then 0 ≤ reg < 31 else 16 ≤ reg < 24.

Lemma ocp_sum p r : 0 ≤ p < 0x1000 → 16 ≤ r < 24 →
  (if r <? 16 then 0 else u16 (u16 (Z.shiftl p 4) + u8 (Z.shiftl (u8 (r - 16)) 1))) = 16 * p + 2 * (r - 16).
Proof.
  intros Hp Hr. destruct (Z.ltb_spec r 16); [lia|]. unfold u8, u16. rewrite !Z.shiftl_mul_pow2 by lia.
  rewrite (Z.mod_small (r - 16)), (Z.mod_small (p * _)), (Z.mod_small (_ * 2 ^ 1)), Z.mod_small by lia. lia.
Qed.

Lemma map_std page reg : in_window page reg →
  map_phy_ocp_addr page reg = 16 * (std_reg page reg).1 + 2 * ((std_reg page reg).2 - 16) ∧
  0 ≤ (std_reg page reg).1 < 0x1000 ∧ 16 ≤ (std_reg page reg).2 < 24.
Proof.
  unfold in_window, std_reg, map_phy_ocp_addr, OCP_STD_PHY_BASE_PAGE. intros [Hp Hr].
  destruct (Z.eqb_spec page 0) as [->|Hne].
  - pose proof (Z.mod_pos_bound reg 8 ltac:(lia)). pose proof (Z.div_mod reg 8 ltac:(lia)).
    assert (0 ≤ reg / 8 < 4) by (split; [apply Z.div_pos; lia|apply Z.div_lt_upper_bound; lia]).
    assert (u8 reg = reg) as -> by (apply Z.mod_small; lia).
    assert (u16 (0xA40 + reg / 8) = 0xA40 + reg / 8) as -> by (apply Z.mod_small; lia).
    assert (u8 (0x10 + reg mod 8) = 16 + reg mod 8) as -> by (apply Z.mod_small; lia).
    rewrite ocp_sum by lia. cbn [fst snd]. lia.
  - assert (u8 reg = reg) as -> by (apply Z.mod_small; lia). rewrite ocp_sum by lia. cbn [fst snd]. lia.
Qed.

(** The word of a register, the same for two exactly when they are one. *)
Definition phy_word (page reg : Z) : Z := map_phy_ocp_addr page reg / 2.
Lemma phy_word_inj p r p' r' : in_window p r → in_window p' r' →
  phy_word p r = phy_word p' r' ↔ std_reg p r = std_reg p' r'.
Proof.
  intros Hw Hw'. unfold phy_word. destruct (map_std p r Hw) as (-> & ? & ?), (map_std p' r' Hw') as (-> & ? & ?).
  destruct (std_reg p r) as [q x], (std_reg p' r') as [q' x']. simpl in *.
  replace (16 * q + 2 * (x - 16)) with ((8 * q + (x - 16)) * 2) by lia.
  replace (16 * q' + 2 * (x' - 16)) with ((8 * q' + (x' - 16)) * 2) by lia. rewrite !Z.div_mul by lia.
  split; [intros E; f_equal; lia|intros [= -> ->]; done].
Qed.
Lemma phy_word_bound p r : in_window p r → 0 ≤ phy_word p r < 2 ^ 15 ∧ 0 ≤ map_phy_ocp_addr p r < 2 ^ 16.
Proof.
  intros Hw. unfold phy_word. destruct (map_std p r Hw) as (-> & ? & ?).
  split; [split; [apply Z.div_pos; lia|apply Z.div_lt_upper_bound; lia]|lia].
Qed.

(** A command: the flag, an address and a value. *)
Lemma phy_cmd (wr : bool) a v : 0 ≤ a < 2 ^ 15 → 0 ≤ v < 2 ^ 16 →
  let cmd := Z.lor (u32 (Z.shiftl a 16)) (Z.lor (if wr then OCPR_Write else 0) v) in
  0 ≤ cmd < 2 ^ 32 ∧ Z.testbit cmd 31 = wr ∧ field 16 15 cmd = a ∧ field 0 16 cmd = v.
Proof.
  intros Ha Hv cmd. assert (∀ i, 0 ≤ i → Z.testbit (if wr then OCPR_Write else 0) i = wr && (i =? 31)) as Hf.
  { intros i Hi. destruct wr; [|by rewrite Z.bits_0]. change OCPR_Write with (2 ^ 31).
    rewrite Z.pow2_bits_eqb by lia. apply Z.eqb_sym. }
  assert (∀ i, 0 ≤ i → Z.testbit cmd i = if i <? 16 then Z.testbit v i else
      if i <? 31 then Z.testbit a (i - 16) else wr && (i =? 31)) as Hb.
  { intros i Hi. unfold cmd, u32. bit_rules. rewrite Hf by done.
    destruct (Z.ltb_spec i 16); [rewrite Z.testbit_neg_r by lia; bool_cases; by rewrite !andb_false_r|].
    rewrite (testbit_small v 16) by lia. rewrite orb_false_r.
    destruct (Z.ltb_spec i 31); [bool_cases; by rewrite andb_false_r, orb_false_r|].
    rewrite (testbit_small a 15) by lia. by rewrite andb_false_r. }
  assert (0 ≤ cmd) as H0.
  { unfold cmd. apply Z.lor_nonneg. split; [apply Z.mod_pos_bound; lia|]. apply Z.lor_nonneg. split; [|lia]. by destruct wr. }
  split; [split; [done|]|split_and!].
  - apply bits_bound; [lia|done|]. intros i Hi. rewrite Hb by lia. bool_cases; by rewrite ?andb_false_r.
  - rewrite Hb by lia. simpl. apply andb_true_r.
  - apply Z.bits_inj'. intros i Hi. bit_rules. rewrite Hb by lia. bool_cases; simpl;
      first [f_equal; lia|by rewrite ?andb_false_r, (testbit_small a 15) by lia].
  - apply Z.bits_inj'. intros i Hi. bit_rules. rewrite Hb by lia. rewrite Z.add_0_r. bool_cases; simpl;
      first [done|by rewrite ?andb_false_r, (testbit_small v 16) by lia].
Qed.

Section access.
Context `{ChipLaws}.

Definition tp_rep (m : regs) (t : tp) : Prop := chip_rep m (mmio t).

Lemma phy_write_wp m a v t : tp_rep m t → 0 ≤ a < 2 ^ 16 → 0 ≤ v < 2 ^ 16 →
  wp (mdio_real_direct_write_phy_ocp a v) (λ _ t', ∃ c, t' = t_mmio c t ∧ tp_rep (set_phy (a / 2) v m) t') t.
Proof.
  intros Hm Ha Hv. unfold mdio_real_direct_write_phy_ocp. apply wp_bind, w32_wp, wp_bind.
  destruct (phy_cmd true (a / 2) v) as (Hc & Hw & Hf & Hd);
    [split; [apply Z.div_pos; lia|apply Z.div_lt_upper_bound; lia]|done|].
  pose proof (phy_law m (mmio t) _ Hm Hc) as Hl. rewrite Hw, Hf, Hd in Hl.
  eapply wait_wp; [exact Hl|]. intros c Hr. apply wp_ret. by exists c.
Qed.
Lemma phy_read_wp m a t : tp_rep m t → 0 ≤ a < 2 ^ 16 →
  wp (mdio_real_direct_read_phy_ocp a) (λ v t', v = phy_reg m (a / 2) ∧ ∃ c, t' = t_mmio c t ∧ tp_rep m t') t.
Proof.
  intros Hm Ha. unfold mdio_real_direct_read_phy_ocp. apply wp_bind, w32_wp, wp_bind.
  destruct (phy_cmd false (a / 2) 0) as (Hc & Hw & Hf & _);
    [split; [apply Z.div_pos; lia|apply Z.div_lt_upper_bound; lia]|done|].
  rewrite !Z.lor_0_r in *. pose proof (phy_law m (mmio t) _ Hm Hc) as Hl. rewrite Hw, Hf in Hl.
  eapply wait_wp; [exact Hl|]. intros c Hr. apply wp_bind. eapply r32_wp; [exact Hr|]. intros v c' Hv Hc'.
  apply wp_ret. split; [exact Hv|by exists c'].
Qed.
End access.

(** ** ERI commands *)
Lemma align4 a : Z.land a (Z.lnot 3) = 4 * (a / 4).
Proof.
  change 3 with (Z.ones 2). rewrite <- Z.ldiff_land, Z.ldiff_ones_r by lia.
  rewrite Z.shiftl_mul_pow2, Z.shiftr_div_pow2 by lia. change (2 ^ 2) with 4. lia.
Qed.
Lemma aligned_bits q i : 0 ≤ i < 2 → Z.testbit (4 * q) i = false.
Proof. intros. replace (4 * q) with (Z.shiftl q 2) by (rewrite Z.shiftl_mul_pow2 by lia; lia). rewrite Z.shiftl_spec by lia. by rewrite Z.testbit_neg_r by lia. Qed.

Lemma eri_cmd_bits (wr : bool) a y i : 0 ≤ a < 2 ^ 16 → 0 ≤ y < 2 ^ 4 → 0 ≤ i →
  Z.testbit (eri_cmd wr 0 a y) i =
    if i <? 12 then Z.testbit a i else if i <? 16 then true else if i <? 20 then Z.testbit y (i - 16)
    else if i <? 24 then Z.testbit a (i - 8) else wr && (i =? 31).
Proof.
  intros Ha Hy Hi. assert (Z.testbit (if wr then OCPR_Write else 0) i = wr && (i =? 31)) as Hf.
  { destruct wr; [|by rewrite Z.bits_0]. change OCPR_Write with (2 ^ 31). rewrite Z.pow2_bits_eqb by lia. apply Z.eqb_sym. }
  unfold eri_cmd. change 0x0FFF with (Z.ones 12). change ERIAR_ByteEn with (Z.ones 4).
  change 0xF000 with (Z.shiftl (Z.ones 4) 12). change 0x00F00000 with (Z.shiftl (Z.ones 4) 20).
  assert (∀ j, 0 ≤ j → Z.testbit (Z.land a (Z.shiftl (Z.ones 4) 12)) j = Z.testbit a j && ((12 <=? j) && (j <? 16))) as Hh.
  { intros j Hj. bit_rules. destruct (Z.leb_spec 12 j); [rewrite ones_bits by lia; f_equal; bool_cases; done|].
    by rewrite (Z.testbit_neg_r _ (j - 12)), !andb_false_r by lia. }
  assert (Z.testbit y (i - 16) = (16 <=? i) && (i <? 20) && Z.testbit y (i - 16)) as Hyb.
  { bool_cases; simpl; first [done|by rewrite (testbit_small y 4) by lia|by rewrite Z.testbit_neg_r by lia]. }
  destruct (Z.eqb_spec (Z.land a (Z.shiftl (Z.ones 4) 12)) 0) as [E|E].
  - assert (∀ j, 12 ≤ j < 16 → Z.testbit a j = false) as Hlow.
    { intros j Hj. specialize (Hh j ltac:(lia)). rewrite E, Z.bits_0 in Hh. destruct (Z.testbit a j); [|done].
      destruct (Z.leb_spec 12 j), (Z.ltb_spec j 16); simpl in Hh; [done|lia..]. }
    rewrite !Z.lor_spec, Hf, Z.bits_0, !Z.shiftl_spec, Z.land_spec, Hyb, !Z.testbit_ones by lia.
    bool_cases; simpl; rewrite ?andb_false_r, ?andb_true_r, ?orb_false_r, ?orb_true_r; try done.
    by rewrite Hlow by lia.
  - assert (Z.testbit (Z.shiftr (Z.land a (Z.shiftl (Z.ones 4) 12)) 12) (i - 20) =
      (20 <=? i) && (i <? 24) && Z.testbit a (i - 8)) as Ha'.
    { destruct (Z.leb_spec 20 i); [|by rewrite Z.testbit_neg_r by lia].
      rewrite Z.shiftr_spec, Hh by lia. replace (i - 20 + 12) with (i - 8) by lia.
      bool_cases; simpl; by rewrite ?andb_false_r, ?andb_true_r. }
    rewrite !Z.lor_spec, Hf, Z.bits_0, !Z.land_spec, !Z.shiftl_spec, Ha', Hyb, !Z.testbit_ones by lia.
    bool_cases; simpl; rewrite ?andb_false_r, ?andb_true_r, ?orb_false_r, ?orb_true_r; done.
Qed.

Lemma eri_cmd_ok (wr : bool) q y : 0 ≤ q < 2 ^ 14 → 0 ≤ y < 2 ^ 4 → let cmd := eri_cmd wr 0 (4 * q) y in
  0 ≤ cmd < 2 ^ 32 ∧ Z.testbit cmd 31 = wr ∧ field 12 4 cmd = 15 ∧ field 24 7 cmd = 0 ∧
  field 16 4 cmd = y ∧ eri_addr cmd = 4 * q.
Proof.
  intros Hq Hy cmd. pose proof (λ i, eri_cmd_bits wr (4 * q) y i ltac:(lia) ltac:(lia)) as Hb. fold cmd in Hb.
  assert (0 ≤ cmd) as Hc0.
  { unfold cmd, eri_cmd. destruct (_ =? 0); rewrite ?Z.lor_nonneg, ?Z.land_nonneg, ?Z.shiftl_nonneg;
      (split_and!; try lia; try (right; lia); by destruct wr). }
  split; [split; [done|]|split_and!].
  - apply bits_bound; [lia|done|]. intros i Hi. rewrite Hb by lia. bool_cases; by rewrite ?andb_false_r.
  - rewrite Hb by lia. simpl. apply andb_true_r.
  - apply Z.bits_inj'. intros i Hi. change 15 with (Z.ones 4). bit_rules. rewrite Hb by lia. bool_cases; done.
  - apply Z.bits_inj'. intros i Hi. bit_rules. rewrite Hb by lia. bool_cases; by rewrite ?andb_false_r.
  - apply Z.bits_inj'. intros i Hi. bit_rules. rewrite Hb by lia.
    bool_cases; simpl; first [f_equal; lia|by rewrite ?andb_false_r, (testbit_small y 4) by lia].
  - apply Z.bits_inj'. intros i Hi. unfold eri_addr. bit_rules. rewrite Hb by lia. destruct (Z.ltb_spec i 12).
    + rewrite (Z.testbit_neg_r _ (i - 12)), orb_false_r, Z.add_0_r by lia. bool_cases; done.
    + rewrite field_spec, Hb by lia. bool_cases; simpl; first [f_equal; lia|by rewrite ?andb_false_r, (testbit_small (4 * q) 16) by lia].
Qed.

Lemma eri_mask_bits len s i : 1 ≤ len ≤ 4 → 0 ≤ s → 0 ≤ i →
  Z.testbit (eri_mask len s) i = (i <? 32) && ((8 * s <=? i) && (i <? 8 * (s + len))).
Proof.
  intros Hl Hs Hi. unfold eri_mask, u32. rewrite mod_bits, Z.shiftl_spec by lia. f_equal.
  assert ((if len =? 1 then 0xFF else if len =? 2 then 0xFFFF else if len =? 3 then 0xFFFFFF else 0xFFFFFFFF) =
    Z.ones (8 * len)) as ->.
  { assert (len = 1 ∨ len = 2 ∨ len = 3 ∨ len = 4) as [->|[->|[->| ->]]] by lia; done. }
  rewrite Z.testbit_ones by lia. bool_cases; done.
Qed.

(** Bit [k] of the registers of type [y], counted from byte 0. *)
Definition eri_bit (m : regs) (y k : Z) : bool := Z.testbit (eri_reg m y (4 * (k / 32))) (k mod 32).

Lemma eri_bit_word m y w i : 0 ≤ i < 32 → eri_bit m y (32 * w + i) = Z.testbit (eri_reg m y (4 * w)) i.
Proof.
  intros Hi. unfold eri_bit. rewrite (Z.add_comm _ i), (Z.mul_comm 32), Z.div_add, Z.mod_add by lia.
  by rewrite Z.div_small, Z.mod_small by lia.
Qed.

(** [r] is the [n] bytes from [A] on, little-endian. *)
Definition eri_reads (m : regs) (y A n r : Z) : Prop :=
  ∀ j, 0 ≤ j → Z.testbit r j = (j <? 8 * n) && eri_bit m y (8 * A + j).
(** [m'] is [m] with the [n] bytes from [A] on replaced by those of [v]. *)
Definition eri_writes (m m' : regs) (y A n v : Z) : Prop :=
  phy_reg m' = phy_reg m ∧ mac_reg m' = mac_reg m ∧ ephy_reg m' = ephy_reg m ∧ csi_reg m' = csi_reg m ∧
  (∀ y', y' ≠ y → eri_reg m' y' = eri_reg m y') ∧
  ∀ k, 0 ≤ k → eri_bit m' y k = if (8 * A <=? k) && (k <? 8 * (A + n)) then Z.testbit v (k - 8 * A) else eri_bit m y k.

Section eri.
Context `{ChipLaws}.
Abbreviation T := (M tp).

Lemma eri_word_wp m q y (k : Z → T Z) Q t : tp_rep m t → 0 ≤ q < 2 ^ 14 → 0 ≤ y < 2 ^ 4 →
  (∀ v c, (∀ i, 0 ≤ i < 32 → Z.testbit v i = eri_bit m y (32 * q + i)) → chip_rep m c → wp (k v) Q (t_mmio c t)) →
  wp (RTL_W32 ERIAR (eri_cmd false 0 (4 * q) y) ;;
      let* _ := wait_flag ERIAR true in let* v := RTL_R32 ERIDR in k v) Q t.
Proof.
  intros Hm Hq Hy HQ. destruct (eri_cmd_ok false q y Hq Hy) as (Hc & Hw & F1 & F2 & F3 & F4).
  pose proof (eri_read_law m (mmio t) _ Hm Hc Hw F1 F2) as Hl. rewrite F3, F4 in Hl.
  apply wp_bind, w32_wp, wp_bind. eapply wait_wp; [exact Hl|]. intros c Hr. apply wp_bind.
  eapply r32_wp; [exact Hr|]. intros v c' Hv Hc'. apply HQ; [|done]. intros i Hi.
  rewrite eri_bit_word, <- Hv, field_spec, Z.add_0_r by lia. bool_cases; done.
Qed.

Lemma eri_read_loop_wp m y A fuel cur len sh r t : tp_rep m t → 0 ≤ y < 2 ^ 4 → 0 ≤ cur → cur + len ≤ 2 ^ 16 →
  len ≤ Z.of_nat fuel → 0 ≤ len → 0 ≤ sh → sh + len ≤ 4 → cur = A + sh → (sh ≠ 0 → cur mod 4 = 0) →
  eri_reads m y A sh r →
  wp (eri_read_loop fuel cur len y 0 sh r) (λ v t', eri_reads m y A (sh + len) v ∧ ∃ c, t' = t_mmio c t ∧ tp_rep m t') t.
Proof.
  intros Hm Hy. revert cur len sh r t Hm. induction fuel as [|fuel IH]; intros cur len sh r t Hm Hc0 Hc Hf Hl0 Hs0 Hsl Hcur Hal Hr;
    cbn [eri_read_loop]; (destruct (Z.leb_spec len 0); [assert (len = 0) as -> by lia; rewrite Z.add_0_r; apply wp_ret; split; [done|]; exists (mmio t); by destruct t|]); [lia|].
  cbv zeta. unfold ERIAR_Addr_Align. rewrite Z.rem_mod_nonneg, align4 by lia.
  pose proof (Z.mod_pos_bound cur 4 ltac:(lia)) as Hs. pose proof (Z.div_mod cur 4 ltac:(lia)) as Hdm.
  set (s := cur mod 4) in *. set (q := cur / 4) in *.
  assert (0 ≤ q < 2 ^ 14) as Hq by (split; [apply Z.div_pos; lia|apply Z.div_lt_upper_bound; lia]).
  apply (eri_word_wp m q y); [done|done|done|]. intros v c Hv Hc'.
  set (r' := Z.lor _ _). set (n := Z.min len (4 - s)).
  assert (eri_reads m y A (sh + n) r') as Hr'.
  { intros j Hj. unfold r', u32. rewrite Z.lor_spec, mod_bits, Z.shiftl_spec, (Hr j) by lia.
    destruct (Z.ltb_spec (j - 8 * sh) 0); [rewrite Z.testbit_neg_r by lia; bool_cases; by rewrite ?andb_false_r, ?orb_false_r|].
    rewrite Z.shiftr_spec, Z.land_spec, eri_mask_bits by lia.
    destruct (Z.ltb_spec (j - 8 * sh + 8 * s) 32).
    2:{ bool_cases; simpl; by rewrite ?andb_false_r. }
    rewrite Hv by lia. replace (32 * q + (j - 8 * sh + 8 * s)) with (8 * A + j) by lia.
    bool_cases; simpl; by rewrite ?andb_false_r, ?andb_true_r. }
  destruct (Z.leb_spec len (4 - s)).
  - apply wp_ret. replace len with n by lia. split; [done|]. by exists c.
  - assert (sh = 0) as -> by lia. eapply wp_mono; [apply IH; try lia|].
    + done.
    + intros _. replace (4 * q + 4) with ((q + 1) * 4) by lia. by rewrite Z.mod_mul.
    + replace (4 - s) with (0 + n) by lia. exact Hr'.
    + intros v' t' (Hv' & c2 & -> & Hc2). replace (4 - s + (len - (4 - s))) with (0 + len) in Hv' by lia.
      split; [done|]. by exists c2.
Qed.

Lemma eri_read_wp m y A len t : tp_rep m t → 0 ≤ y < 2 ^ 4 → 0 ≤ A → A + len ≤ 2 ^ 16 → 1 ≤ len ≤ 4 →
  wp (rtl8125_eri_read A len y) (λ v t', eri_reads m y A len v ∧ ∃ c, t' = t_mmio c t ∧ tp_rep m t') t.
Proof.
  intros Hm Hy HA Hb Hl. unfold rtl8125_eri_read, rtl8125_eri_read_with_oob_base_address.
  destruct (Z.ltb_spec 4 len), (Z.leb_spec len 0); try lia. simpl orb. cbv iota. change (eri_base 0) with 0.
  replace len with (0 + len) at 3 by lia. apply eri_read_loop_wp; try lia; [done|].
  intros j Hj. rewrite Z.bits_0. bool_cases; done.
Qed.

Lemma eri_set_bit m y w v k : 0 ≤ v < 2 ^ 32 → 0 ≤ k →
  eri_bit (set_eri y (4 * w) v m) y k = if k / 32 =? w then Z.testbit v (k mod 32) else eri_bit m y k.
Proof.
  intros Hv Hk. unfold eri_bit. simpl. rewrite Z.eqb_refl. unfold upd.
  destruct (Z.eqb_spec (4 * (k / 32)) (4 * w)), (Z.eqb_spec (k / 32) w); try done; lia.
Qed.

Lemma eri_store_wp m q y v (k : T unit) Q t : tp_rep m t → 0 ≤ q < 2 ^ 14 → 0 ≤ y < 2 ^ 4 → 0 ≤ v < 2 ^ 32 →
  (∀ c, chip_rep (set_eri y (4 * q) v m) c → wp k Q (t_mmio c t)) →
  wp (RTL_W32 ERIDR v ;; RTL_W32 ERIAR (eri_cmd true 0 (4 * q) y) ;; let* _ := wait_flag ERIAR false in k) Q t.
Proof.
  intros Hm Hq Hy Hv HQ. destruct (eri_cmd_ok true q y Hq Hy) as (Hc & Hw & F1 & F2 & F3 & F4).
  pose proof (eri_write_law m (mmio t) _ v Hm Hc Hv Hw F1 F2) as Hl. rewrite F3, F4 in Hl.
  apply wp_bind, w32_wp, wp_bind, w32_wp, wp_bind. eapply wait_wp; [exact Hl|]. intros c Hr. by apply HQ.
Qed.

(** The word of a round: the old one outside the bytes, the value's bytes in them. *)
Lemma round_bits old len s sh value i : 0 ≤ old < 2 ^ 32 → 1 ≤ len → 0 ≤ s < 4 → 0 ≤ sh → sh + len ≤ 4 →
  (sh ≠ 0 → s = 0) → 0 ≤ value < 2 ^ (8 * (sh + len)) → 0 ≤ i < 32 →
  Z.testbit (Z.lor (Z.land old (u32 (Z.lnot (eri_mask len s)))) (Z.shiftr (u32 (Z.shiftl value (8 * s))) (8 * sh))) i =
  if (8 * s <=? i) && (i <? 8 * (s + len)) then Z.testbit value (i - 8 * s + 8 * sh) else Z.testbit old i.
Proof.
  intros Ho Hl Hs Hsh Hsl Hs0 Hv Hi. unfold u32.
  rewrite Z.lor_spec, Z.land_spec, mod_bits, Z.lnot_spec, eri_mask_bits, Z.shiftr_spec, mod_bits, Z.shiftl_spec by lia.
  replace (i + 8 * sh - 8 * s) with (i - 8 * s + 8 * sh) by lia.
  assert (i + 8 * sh < 32 ∨ Z.testbit value (i - 8 * s + 8 * sh) = false) as Hov.
  { destruct (Z.lt_ge_cases (i + 8 * sh) 32); [by left|right]. apply (testbit_small value (8 * (sh + len))); lia. }
  assert (8 * (s + len) ≤ i → Z.testbit value (i - 8 * s + 8 * sh) = false) as Hhi
    by (intros; apply (testbit_small value (8 * (sh + len))); lia).
  assert (i < 8 * s → Z.testbit value (i - 8 * s + 8 * sh) = false) as Hlo.
  { intros. assert (sh = 0) as -> by lia. apply Z.testbit_neg_r. lia. }
  destruct (Z.leb_spec (8 * s) i), (Z.ltb_spec i (8 * (s + len))), (Z.ltb_spec i 32), (Z.ltb_spec (i + 8 * sh) 32); try lia;
    simpl; rewrite ?Hhi, ?Hlo, ?andb_false_r, ?andb_true_r, ?orb_false_r by lia; try done.
Qed.

Lemma writes_refl m y A v : eri_writes m m y A 0 v.
Proof. unfold eri_writes. split_and!; try done. intros k Hk. bool_cases; done. Qed.

Lemma eri_write_loop_wp m y A N value fuel cur len sh m1 t : tp_rep m1 t → 0 ≤ y < 2 ^ 4 → 0 ≤ cur → cur + len ≤ 2 ^ 16 →
  len ≤ Z.of_nat fuel → 0 ≤ len → 0 ≤ sh → sh + len = N → N ≤ 4 → cur = A + sh → (sh ≠ 0 → cur mod 4 = 0) →
  0 ≤ value < 2 ^ (8 * N) → eri_writes m m1 y A sh value →
  wp (eri_write_loop fuel cur len value y 0 sh) (λ _ t', ∃ m2 c, t' = t_mmio c t ∧ tp_rep m2 t' ∧ eri_writes m m2 y A N value) t.
Proof.
  intros Hm Hy. revert cur len sh m1 t Hm.
  induction fuel as [|fuel IH]; intros cur len sh m1 t Hm Hc0 Hc Hf Hl0 Hs0 <- Hsl Hcur Hal Hval Hwr;
    cbn [eri_write_loop]; (destruct (Z.leb_spec len 0);
      [assert (len = 0) as -> by lia; rewrite Z.add_0_r; apply wp_ret; exists m1, (mmio t); split; [by destruct t|done]|]); [lia|].
  cbv zeta. unfold ERIAR_Addr_Align. rewrite Z.rem_mod_nonneg, align4 by lia.
  pose proof (Z.mod_pos_bound cur 4 ltac:(lia)) as Hs. pose proof (Z.div_mod cur 4 ltac:(lia)) as Hdm.
  set (s := cur mod 4) in *. set (q := cur / 4) in *.
  assert (0 ≤ q < 2 ^ 14) as Hq by (split; [apply Z.div_pos; lia|apply Z.div_lt_upper_bound; lia]).
  apply wp_bind. eapply wp_mono; [apply (eri_read_wp m1 y (4 * q) 4); try lia; done|].
  intros old t1 (Ho & c1 & -> & Hm1). change (eri_base 0) with 0.
  assert (0 ≤ old < 2 ^ 32) as Hob.
  { assert (0 ≤ old) as Hon.
    { apply Z.bits_iff_nonneg_ex. exists 31. intros i Hi. rewrite (Ho i) by lia. bool_cases; done. }
    split; [done|]. apply bits_bound; [lia|done|]. intros i Hi. rewrite (Ho i) by lia. bool_cases; done. }
  set (v1 := Z.lor _ _). set (n := Z.min len (4 - s)).
  assert (∀ i, 0 ≤ i < 32 → Z.testbit v1 i = if (8 * s <=? i) && (i <? 8 * (s + len))
    then Z.testbit value (i - 8 * s + 8 * sh) else eri_bit m1 y (32 * q + i)) as Hv1.
  { intros i Hi. unfold v1. rewrite round_bits by (try lia; intros; rewrite Hal in *; lia).
    destruct ((8 * s <=? i) && _); [done|]. rewrite (Ho i) by lia. replace (8 * (4 * q) + i) with (32 * q + i) by lia.
    bool_cases; done. }
  assert (0 ≤ v1 < 2 ^ 32) as Hv1b.
  { assert (0 ≤ v1) as Hv0.
    { unfold v1. apply Z.lor_nonneg. split; [apply Z.land_nonneg; lia|]. apply Z.shiftr_nonneg, Z.mod_pos_bound. lia. }
    split; [done|]. apply bits_bound; [lia|done|]. intros i Hi. unfold v1, u32.
    rewrite Z.lor_spec, Z.land_spec, (testbit_small old 32), Z.shiftr_spec, !mod_bits by lia. bool_cases; done. }
  apply (eri_store_wp m1 q y v1); [done|done|done|done|]. intros c2 Hc2.
  set (m2 := set_eri y (4 * q) v1 m1) in *.
  assert (eri_writes m m2 y A (sh + n) value) as Hw2.
  { destruct Hwr as (W1 & W2 & W3 & W4 & W5 & W6). split; [exact W1|]. split; [exact W2|]. split; [exact W3|]. split; [exact W4|].
    split; [intros y' Hy'; unfold m2; simpl; destruct (Z.eqb_spec y' y); [done|by apply W5]|].
    intros k Hk. unfold m2. rewrite eri_set_bit by lia. pose proof (Z.div_mod k 32 ltac:(lia)). pose proof (Z.mod_pos_bound k 32 ltac:(lia)).
    destruct (Z.eqb_spec (k / 32) q) as [Ek|Ek].
    - rewrite Hv1 by lia. replace (32 * q + k mod 32) with k by lia. rewrite (W6 k) by lia.
      replace (k mod 32 - 8 * s + 8 * sh) with (k - 8 * A) by lia. bool_cases; simpl; done.
    - rewrite (W6 k) by lia. bool_cases; simpl; done. }
  destruct (Z.leb_spec len (4 - s)).
  - apply wp_ret. exists m2, c2. replace (sh + len) with (sh + n) by lia. done.
  - assert (sh = 0) as -> by lia. eapply wp_mono; [apply (IH _ _ _ m2); try lia|].
    + exact Hc2.
    + intros _. replace (4 * q + 4) with ((q + 1) * 4) by lia. by rewrite Z.mod_mul.
    + replace (4 - s) with (0 + n) by lia. exact Hw2.
    + intros [] t' (m3 & c3 & -> & Hm3 & Hw3). by exists m3, c3.
Qed.
End eri.

(** ** The MAC, the PCIe PHY and the configuration space *)
Lemma half_bound a : 0 ≤ a < 2 ^ 16 → 0 ≤ a / 2 < 2 ^ 15.
Proof. intros. split; [apply Z.div_pos; lia|apply Z.div_lt_upper_bound; lia]. Qed.

(** Field [F] of a command that is [f] shifted by 16. *)
Lemma ephy_cmd (wr : bool) a v : 0 ≤ a < 2 ^ 7 → 0 ≤ v < 2 ^ 16 →
  let cmd := Z.lor (if wr then OCPR_Write else 0) (Z.lor (Z.shiftl (Z.land a EPHYAR_Reg_Mask_v2) 16) (Z.land v 0xffff)) in
  0 ≤ cmd < 2 ^ 32 ∧ Z.testbit cmd 31 = wr ∧ field 16 7 cmd = a ∧ field 0 16 cmd = v.
Proof.
  intros Ha Hv cmd. destruct (phy_cmd wr a v) as (H1 & H2 & H3 & H4); [lia|lia|].
  assert (cmd = Z.lor (u32 (Z.shiftl a 16)) (Z.lor (if wr then OCPR_Write else 0) v)) as ->.
  { unfold cmd. change EPHYAR_Reg_Mask_v2 with (Z.ones 7). change 0xffff with (Z.ones 16).
    rewrite !Z.land_ones, !Z.mod_small by lia. unfold u32. rewrite Z.mod_small.
    - by rewrite !Z.lor_assoc, (Z.lor_comm (Z.shiftl a 16)).
    - rewrite Z.shiftl_mul_pow2 by lia. lia. }
  split; [done|]. split; [done|]. split; [|done].
  transitivity (field 0 7 (field 16 15 (Z.lor (u32 (Z.shiftl a 16)) (Z.lor (if wr then OCPR_Write else 0) v)))).
  - apply Z.bits_inj'. intros i Hi. rewrite !field_spec by lia. rewrite Z.add_0_r. bool_cases; done.
  - rewrite H3. unfold field. rewrite Z.shiftr_0_r, Z.land_ones, Z.mod_small by lia. done.
Qed.

(** The address mask of [csi] and the function's number. *)
Lemma csi_cmd_ok (wr : bool) f a : 0 ≤ f < 8 → 0 ≤ a < 2 ^ 12 → let cmd := csi_cmd wr f a in
  0 ≤ cmd < 2 ^ 32 ∧ Z.testbit cmd 31 = wr ∧ field 12 4 cmd = 15 ∧ field 16 3 cmd = f ∧ field 0 12 cmd = a.
Proof.
  intros Hf Ha cmd. assert (∀ i, 0 ≤ i → Z.testbit (if wr then OCPR_Write else 0) i = wr && (i =? 31)) as Hw.
  { intros i Hi. destruct wr; [|by rewrite Z.bits_0]. change OCPR_Write with (2 ^ 31).
    rewrite Z.pow2_bits_eqb by lia. apply Z.eqb_sym. }
  assert (∀ i, 0 ≤ i → Z.testbit cmd i = if i <? 12 then Z.testbit a i else if i <? 16 then true
      else if i <? 19 then Z.testbit f (i - 16) else wr && (i =? 31)) as Hb.
  { intros i Hi. unfold cmd, csi_cmd. change CSIAR_ByteEn with (Z.ones 4). change CSIAR_Addr_Mask with (Z.ones 12).
    rewrite !Z.lor_spec, Hw, Z.land_spec, !Z.shiftl_spec, !Z.testbit_ones by lia.
    destruct (Z.ltb_spec i 16); [rewrite (Z.testbit_neg_r f) by lia|];
      bool_cases; simpl; rewrite ?andb_false_r, ?andb_true_r, ?orb_false_r, ?orb_true_r; try done;
      by rewrite (testbit_small f 3), ?orb_false_r by lia. }
  assert (0 ≤ cmd) as H0.
  { unfold cmd, csi_cmd. rewrite !Z.lor_nonneg, Z.land_nonneg, !Z.shiftl_nonneg.
    split; [split; [by destruct wr|split; [done|lia]]|lia]. }
  split; [split; [done|]|split_and!].
  - apply bits_bound; [lia|done|]. intros i Hi. rewrite Hb by lia. bool_cases; by rewrite ?andb_false_r.
  - rewrite Hb by lia. simpl. apply andb_true_r.
  - apply Z.bits_inj'. intros i Hi. change 15 with (Z.ones 4). bit_rules. rewrite Hb by lia. bool_cases; done.
  - apply Z.bits_inj'. intros i Hi. bit_rules. rewrite Hb by lia.
    bool_cases; simpl; first [f_equal; lia|by rewrite ?andb_false_r, (testbit_small f 3) by lia].
  - apply Z.bits_inj'. intros i Hi. bit_rules. rewrite Hb by lia. rewrite Z.add_0_r.
    bool_cases; simpl; first [done|by rewrite ?andb_false_r, (testbit_small a 12) by lia].
Qed.

Lemma add_flagged a v : 0 ≤ a < 2 ^ 15 → 0 ≤ v < 2 ^ 16 →
  Z.lor (u32 (u32 (Z.shiftl a 16) + v)) OCPR_Write = Z.lor (u32 (Z.shiftl a 16)) (Z.lor OCPR_Write v).
Proof.
  intros Ha Hv. assert (Z.land (Z.shiftl a 16) v = 0) as Hd.
  { apply Z.bits_inj'. intros i Hi. rewrite Z.land_spec, Z.bits_0, Z.shiftl_spec by lia.
    destruct (Z.ltb_spec i 16); [by rewrite Z.testbit_neg_r by lia|]. by rewrite (testbit_small v 16), andb_false_r by lia. }
  assert (Z.shiftl a 16 = a * 2 ^ 16) as Ea by (apply Z.shiftl_mul_pow2; lia).
  unfold u32. rewrite (Z.mod_small (Z.shiftl a 16)), Z.mod_small by lia.
  rewrite (Z.lor_comm OCPR_Write), Z.lor_assoc. f_equal. by rewrite Z.add_nocarry_lxor, Z.lxor_lor.
Qed.

Section windows.
Context `{ChipLaws}.
Abbreviation T := (M tp).

Lemma mac_write_wp m a v t : tp_rep m t → 0 ≤ a < 2 ^ 16 → 0 ≤ v < 2 ^ 16 →
  wp (rtl8125_mac_ocp_write a v) (λ _ t', ∃ c, t' = t_mmio c t ∧ tp_rep (set_mac (a / 2) v m) t') t.
Proof.
  intros Hm Ha Hv. unfold rtl8125_mac_ocp_write. apply w32_wp. rewrite add_flagged by (try apply half_bound; done).
  destruct (phy_cmd true (a / 2) v) as (Hc & Hw & Hf & Hd); [by apply half_bound|done|].
  pose proof (mac_law m (mmio t) _ Hm Hc) as Hl. rewrite Hw, Hf, Hd in Hl. eexists. split; [done|exact Hl].
Qed.
Lemma mac_read_wp m a t : tp_rep m t → 0 ≤ a < 2 ^ 16 →
  wp (rtl8125_mac_ocp_read a) (λ v t', v = mac_reg m (a / 2) ∧ ∃ c, t' = t_mmio c t ∧ tp_rep m t') t.
Proof.
  intros Hm Ha. unfold rtl8125_mac_ocp_read. apply wp_bind, w32_wp, wp_bind.
  destruct (phy_cmd false (a / 2) 0) as (Hc & Hw & Hf & _); [by apply half_bound|done|].
  rewrite !Z.lor_0_r in *. pose proof (mac_law m (mmio t) _ Hm Hc) as Hl. rewrite Hw, Hf in Hl.
  eapply r32_wp; [exact Hl|]. intros v c Hv Hc'. apply wp_ret. split; [|by exists c].
  rewrite <- Hv. unfold field, u16. by rewrite Z.shiftr_0_r, Z.land_ones by lia.
Qed.

Lemma ephy_write_wp m a v t : tp_rep m t → 0 ≤ a < 2 ^ 7 → 0 ≤ v < 2 ^ 16 →
  wp (rtl8125_ephy_write a v) (λ _ t', ∃ c, t' = t_mmio c t ∧ tp_rep (set_ephy a v m) t') t.
Proof.
  intros Hm Ha Hv. unfold rtl8125_ephy_write. apply wp_bind, w32_wp, wp_bind.
  destruct (ephy_cmd true a v Ha Hv) as (Hc & Hw & Hf & Hd).
  pose proof (ephy_law m (mmio t) _ Hm Hc) as Hl. rewrite Hw, Hf, Hd in Hl.
  eapply wait_wp; [exact Hl|]. intros c Hr. apply wp_ret. by exists c.
Qed.
Lemma ephy_read_wp m a t : tp_rep m t → 0 ≤ a < 2 ^ 7 →
  wp (rtl8125_ephy_read a) (λ v t', v = ephy_reg m a ∧ ∃ c, t' = t_mmio c t ∧ tp_rep m t') t.
Proof.
  intros Hm Ha. unfold rtl8125_ephy_read. apply wp_bind, w32_wp, wp_bind.
  destruct (ephy_cmd false a 0 Ha ltac:(lia)) as (Hc & Hw & Hf & _). simpl Z.land in Hc, Hw, Hf.
  rewrite Z.lor_0_l, Z.lor_0_r in *. pose proof (ephy_law m (mmio t) _ Hm Hc) as Hl. rewrite Hw, Hf in Hl.
  eapply wait_wp; [exact Hl|]. intros c Hr. simpl. apply wp_bind. eapply r32_wp; [exact Hr|].
  intros v c' Hv Hc'. apply wp_ret. split; [|by exists c'].
  rewrite <- Hv. change 0xffff with (Z.ones 16). unfold field, u16. rewrite Z.shiftr_0_r, !Z.land_ones by lia. apply Z.mod_mod. lia.
Qed.

Lemma csi_word_write_wp m f a v t : tp_rep m t → mcfg_default t = false → 0 ≤ f < 8 → 0 ≤ a < 2 ^ 12 → 0 ≤ v < 2 ^ 32 →
  wp (rtl8125_csi_other_fun_write f a v) (λ _ t', ∃ c, t' = t_mmio c t ∧ tp_rep (set_csi f a v m) t') t.
Proof.
  intros Hm Hd Hf Ha Hv. unfold rtl8125_csi_other_fun_write. apply wp_bind, w32_wp, wp_bind.
  unfold gets, wp at 1, id. change (mcfg_default (t_mmio _ t)) with (mcfg_default t). rewrite Hd.
  destruct (Z.ltb_spec 7 f); [lia|]. destruct (csi_cmd_ok true f a Hf Ha) as (Hc & Hw & F1 & F2 & F3).
  pose proof (csi_write_law m (mmio t) _ v Hm Hc Hv Hw F1) as Hl. rewrite F2, F3 in Hl.
  apply wp_bind, w32_wp, wp_bind. eapply wait_wp; [exact Hl|]. intros c Hr. apply wp_ret. by exists c.
Qed.
Lemma csi_word_read_wp m f a t : tp_rep m t → mcfg_default t = false → 0 ≤ f < 8 → 0 ≤ a < 2 ^ 12 →
  wp (rtl8125_csi_other_fun_read f a) (λ v t', v = csi_reg m f a ∧ ∃ c, t' = t_mmio c t ∧ tp_rep m t') t.
Proof.
  intros Hm Hd Hf Ha. unfold rtl8125_csi_other_fun_read. apply wp_bind. unfold gets, wp at 1, id. rewrite Hd.
  destruct (Z.ltb_spec 7 f); [lia|]. destruct (csi_cmd_ok false f a Hf Ha) as (Hc & Hw & F1 & F2 & F3).
  pose proof (csi_read_law m (mmio t) _ Hm Hc Hw F1) as Hl. rewrite F2, F3 in Hl.
  apply wp_bind, w32_wp, wp_bind. eapply wait_wp; [exact Hl|]. intros c Hr. simpl. apply wp_bind.
  eapply r32_wp; [exact Hr|]. intros v c' Hv Hc'. apply wp_ret. split; [|by exists c'].
  rewrite <- Hv. unfold field, u32. by rewrite Z.shiftr_0_r, Z.land_ones by lia.
Qed.
End windows.
