(* ===== verification/R8125AccessThms.v ===== *)
(** * The r8125 driver: access to the chip, theorems

    What the paged PHY registers, the bytes of the configuration space and the
    ERI registers promise to the rest of the driver. *)
From stdpp Require Import base tactics numbers.
From Stdlib Require Import ZArith Lia.
From S2P Require Import Prelude R8125Access R8125AccessSpec.

(** ** Bytes of a word *)
Definition csi_byte (m : regs) (a : Z) : Z := field (8 * (a mod 4)) 8 (csi_reg m 0 (4 * (a / 4))).

Lemma align4_16 a : 0 ≤ a < 2 ^ 12 → u16 (Z.land a (Z.lnot 3)) = 4 * (a / 4) ∧ Z.land a 3 = a mod 4 ∧
  0 ≤ 4 * (a / 4) < 2 ^ 12 ∧ 0 ≤ a mod 4 < 4.
Proof.
  intros Ha. pose proof (Z.div_mod a 4 ltac:(lia)). pose proof (Z.mod_pos_bound a 4 ltac:(lia)).
  assert (0 ≤ a / 4) by (apply Z.div_pos; lia). rewrite align4. unfold u16. rewrite Z.mod_small by lia.
  split; [done|]. split; [|lia]. change 3 with (Z.ones 2). by rewrite Z.land_ones by lia.
Qed.

(** The byte at [s] of a word replaced. *)
Lemma put_byte s w v i : 0 ≤ s < 4 → 0 ≤ w < 2 ^ 32 → 0 ≤ v < 2 ^ 8 → 0 ≤ i →
  Z.testbit (Z.lor (Z.land w (u32 (Z.lnot (Z.shiftl 0xFF (8 * s))))) (u32 (Z.shiftl v (8 * s)))) i =
  if (8 * s <=? i) && (i <? 8 * s + 8) then Z.testbit v (i - 8 * s) else Z.testbit w i.
Proof.
  intros Hs Hw Hv Hi. change 0xFF with (Z.ones 8). unfold u32.
  rewrite Z.lor_spec, Z.land_spec, !mod_bits, Z.lnot_spec, !Z.shiftl_spec, Z.testbit_ones by lia.
  destruct (Z.leb_spec (8 * s) i).
  - destruct (Z.ltb_spec i (8 * s + 8)).
    + bool_cases; simpl; by rewrite ?andb_false_r.
    + rewrite (testbit_small v 8 (i - 8 * s)) by lia. bool_cases; simpl;
        by rewrite ?andb_false_r, ?andb_true_r, ?orb_false_r, ?(testbit_small w 32 i) by lia.
  - rewrite (Z.testbit_neg_r v) by lia. bool_cases; simpl; by rewrite ?andb_false_r, ?andb_true_r, ?orb_false_r.
Qed.

Section theorems.
Context `{ChipLaws}.
Abbreviation T := (M tp).


Lemma page_wp p (Q : unit → tp → Prop) t : rtk_enable_diag t = false → Q tt (t_page p t) → wp (rtl8125_mdio_write 0x1F p) Q t.
Proof. intros Hd HQ. unfold rtl8125_mdio_write. apply wp_bind, wp_gets. unfold id. by rewrite Hd. Qed.

Lemma in_window_reg p r : in_window p r → (r =? 0x1F) = false.
Proof. unfold in_window. destruct (p =? 0); intros [_ Hr]; apply Z.eqb_neq; lia. Qed.

Lemma mdio_write_wp m p r v t : tp_rep m t → rtk_enable_diag t = false → cur_page t = p → in_window p r → 0 ≤ v < 2 ^ 16 →
  wp (rtl8125_mdio_write r v) (λ _ t', ∃ c, t' = t_mmio c t ∧ tp_rep (set_phy (phy_word p r) v m) t') t.
Proof.
  intros Hm Hd Hp Hw Hv. unfold rtl8125_mdio_write, mdio_real_write, rtl8125_mdio_real_write_phy_ocp.
  apply wp_bind, wp_gets. unfold id. rewrite Hd, (in_window_reg p) by done. apply wp_bind, wp_gets. unfold id. rewrite Hp.
  unfold u16. rewrite Z.mod_small by lia. apply phy_write_wp; [done|by apply phy_word_bound|done].
Qed.
Lemma mdio_read_wp m p r t : tp_rep m t → rtk_enable_diag t = false → cur_page t = p → in_window p r →
  wp (rtl8125_mdio_read r) (λ v t', v = phy_reg m (phy_word p r) ∧ ∃ c, t' = t_mmio c t ∧ tp_rep m t') t.
Proof.
  intros Hm Hd Hp Hw. unfold rtl8125_mdio_read, mdio_real_read, rtl8125_mdio_real_read_phy_ocp.
  apply wp_bind, wp_gets. unfold id. rewrite Hd. apply wp_bind, wp_gets. unfold id. rewrite Hp.
  apply phy_read_wp; [done|by apply phy_word_bound].
Qed.

(** The PHY's registers are paged by writes to register 31. A value
    written under one page is what a read under any page gives where page and
    register name the same one of the PHY: page 0 shows the registers of the
    standard window eight to a page, every other page its own eight from 16
    on. No other register of the PHY changes. *)
Theorem paged_phy_access m t p r v p' r' :
  tp_rep m t → rtk_enable_diag t = false → in_window p r → in_window p' r' → 0 ≤ v < 2 ^ 16 →
  wp (rtl8125_mdio_write 0x1F p ;; rtl8125_mdio_write r v ;; rtl8125_mdio_write 0x1F p' ;; rtl8125_mdio_read r')
    (λ x t', x = (if decide (std_reg p r = std_reg p' r') then v else phy_reg m (phy_word p' r')) ∧
       cur_page t' = p' ∧ tp_rep (set_phy (phy_word p r) v m) t') t.
Proof.
  intros Hm Hd Hw Hw' Hv. apply wp_bind, page_wp; [done|]. apply wp_bind.
  eapply wp_mono; [apply (mdio_write_wp m p r v); done|]. intros [] t1 (c & -> & Hm1).
  apply wp_bind, page_wp; [done|]. eapply wp_mono; [apply (mdio_read_wp (set_phy (phy_word p r) v m) p' r'); done|].
  intros x t2 (-> & c2 & -> & Hm2). split; [|done]. simpl. unfold upd.
  pose proof (phy_word_inj p r p' r' Hw Hw') as Hi. destruct (Z.eqb_spec (phy_word p' r') (phy_word p r)) as [E|E];
    destruct (decide _) as [D|D]; try done; [exfalso; by apply D, Hi|exfalso; apply E; symmetry; by apply Hi].
Qed.

(** C33: The ERI registers are words, and the accesses are to up to four bytes
    from any address, across a word's end if need be. A write of as many bytes
    as its value fits in replaces those bytes and nothing else, and a read of
    them then gives the value. A length of no bytes or of more than four is
    refused, by both, without an access. *)
Theorem eri_bytes m t y A n v :
  tp_rep m t → 0 ≤ y < 2 ^ 4 → 0 ≤ A → A + n ≤ 2 ^ 16 →
  (1 ≤ n ≤ 4 → 0 ≤ v < 2 ^ (8 * n) →
    wp (let* rc := rtl8125_eri_write A n v y in let* x := rtl8125_eri_read A n y in ret (rc, x))
      (λ r t', r = (0, v) ∧ ∃ m', tp_rep m' t' ∧ eri_writes m m' y A n v) t) ∧
  (n < 1 ∨ 4 < n → rtl8125_eri_write A n v y t = Some (-1, t) ∧ rtl8125_eri_read A n y t = Some (2 ^ 32 - 1, t)).
Proof.
  intros Hm Hy HA Hb. split; intros Hn.
  - intros Hv. apply wp_bind. unfold rtl8125_eri_write, rtl8125_eri_write_with_oob_base_address.
    destruct (Z.ltb_spec 4 n), (Z.leb_spec n 0); try lia. simpl orb. cbv iota. apply wp_bind.
    eapply wp_mono; [eapply (eri_write_loop_wp m y A n v _ A n 0 m); try lia; [done|apply writes_refl]|].
    intros [] t1 (m1 & c & -> & Hm1 & Hw). apply wp_ret, wp_bind.
    eapply wp_mono; [apply (eri_read_wp m1 y A n); done|]. intros x t2 (Hx & c2 & -> & Hm2). apply wp_ret.
    split; [|by exists m1]. f_equal. apply Z.bits_inj'. intros j Hj. rewrite (Hx j Hj).
    destruct Hw as (_ & _ & _ & _ & _ & W). rewrite W by lia. replace (8 * A + j - 8 * A) with j by lia.
    destruct (Z.ltb_spec j (8 * n)); [bool_cases; done|]. by rewrite (testbit_small v (8 * n)) by lia.
  - unfold rtl8125_eri_write, rtl8125_eri_write_with_oob_base_address, rtl8125_eri_read,
      rtl8125_eri_read_with_oob_base_address.
    destruct (Z.ltb_spec 4 n), (Z.leb_spec n 0); try lia; done.
Qed.

Lemma csi_bytes_wp m a v t : tp_rep m t → mcfg_default t = false → 0 ≤ csi_reg m 0 (4 * (a / 4)) < 2 ^ 32 →
  0 ≤ a < 2 ^ 12 → 0 ≤ v < 2 ^ 8 →
  wp (rtl8125_csi_fun0_write_byte a v) (λ _ t', ∃ m' c, t' = t_mmio c t ∧ tp_rep m' t' ∧
    csi_byte m' a = v ∧ (∀ b, b ≠ a → csi_byte m' b = csi_byte m b) ∧
    ∃ w, m' = set_csi 0 (4 * (a / 4)) w m) t.
Proof.
  intros Hm Hd Hw Ha Hv. unfold rtl8125_csi_fun0_write_byte. apply wp_bind, wp_gets. unfold id. rewrite Hd.
  destruct (align4_16 a Ha) as (-> & -> & Hb & Hs). cbv zeta. apply wp_bind.
  eapply wp_mono; [apply (csi_word_read_wp m 0); done|]. intros w t1 (-> & c & -> & Hm1).
  set (w' := Z.lor _ _). pose proof (λ i, put_byte (a mod 4) _ v i Hs Hw Hv) as Hp. fold w' in Hp.
  assert (0 ≤ w' < 2 ^ 32) as Hw'.
  { assert (0 ≤ w') as Hw0.
    { unfold w'. apply Z.lor_nonneg. split; [apply Z.land_nonneg; lia|apply Z.mod_pos_bound; lia]. }
    split; [done|]. apply bits_bound; [lia|done|]. intros i Hi. rewrite Hp by lia.
    rewrite (testbit_small _ 32 i Hw) by lia. bool_cases; done. }
  eapply wp_mono; [apply (csi_word_write_wp m 0); done|]. intros [] t2 (c2 & -> & Hm2).
  eexists _, c2. split; [done|]. split; [exact Hm2|]. unfold csi_byte. cbn [csi_reg set_csi]. rewrite !Z.eqb_refl. unfold upd.
  split; [|split; [|by exists w']].
  - rewrite Z.eqb_refl. apply Z.bits_inj'. intros i Hi. rewrite field_spec, Hp by lia.
    replace (i + 8 * (a mod 4) - 8 * (a mod 4)) with i by lia.
    destruct (Z.ltb_spec i 8); [bool_cases; done|]. by rewrite (testbit_small v 8 i) by lia.
  - intros b Hne. destruct (Z.eqb_spec (4 * (b / 4)) (4 * (a / 4))) as [E|E]; [|done]. rewrite E.
    pose proof (Z.div_mod a 4 ltac:(lia)). pose proof (Z.div_mod b 4 ltac:(lia)). pose proof (Z.mod_pos_bound b 4 ltac:(lia)).
    apply Z.bits_inj'. intros i Hi. rewrite !field_spec, Hp by lia. bool_cases; done.
Qed.

(** A byte of the configuration space is written through the word that
    holds it: a read of the byte then gives what was written, and a read of
    any other byte what it gave before. *)
Theorem csi_byte_access m t a v b :
  tp_rep m t → mcfg_default t = false → 0 ≤ csi_reg m 0 (4 * (a / 4)) < 2 ^ 32 →
  0 ≤ a < 2 ^ 12 → 0 ≤ b < 2 ^ 12 → 0 ≤ v < 2 ^ 8 →
  wp (rtl8125_csi_fun0_write_byte a v ;; rtl8125_csi_fun0_read_byte b)
    (λ x _, x = if b =? a then v else csi_byte m b) t.
Proof.
  intros Hm Hd Hw Ha Hb Hv. apply wp_bind. eapply wp_mono; [by apply csi_bytes_wp|].
  intros [] t1 (m' & c & -> & Hm' & Hva & Ho & _). unfold rtl8125_csi_fun0_read_byte.
  apply wp_bind, wp_gets. unfold id. change (mcfg_default (t_mmio c t)) with (mcfg_default t). rewrite Hd.
  destruct (align4_16 b Hb) as (-> & -> & Hb' & Hs). apply wp_bind.
  eapply wp_mono; [apply (csi_word_read_wp m' 0); done|]. intros w t2 (-> & _). apply wp_ret.
  transitivity (csi_byte m' b); [|destruct (Z.eqb_spec b a) as [->|]; auto].
  unfold csi_byte, field, u8. by rewrite Z.land_ones by lia.
Qed.

(** The word a clear-and-set leaves. *)
Definition cleared_set (old clearmask setmask : Z) : Z := u16 (Z.lor (Z.land (u16 old) (u16 (Z.lnot clearmask))) setmask).
Lemma cleared_set_bound o c s : 0 ≤ cleared_set o c s < 2 ^ 16.
Proof. apply Z.mod_pos_bound. lia. Qed.

#[local] Hint Resolve cleared_set_bound : core.

Lemma clear_and_set_wp old read (write : Z → T unit) c s (Q : unit → tp → Prop) t :
  wp read (λ v t1, v = old ∧ wp (write (cleared_set old c s)) Q t1) t → wp (clear_and_set read write c s) Q t.
Proof. intros Hr. apply wp_bind. eapply wp_mono; [exact Hr|]. by intros v t1 [-> Hw]. Qed.

Lemma direct_read_wp m a t : tp_rep m t → rtk_enable_diag t = false → 0 ≤ a < 2 ^ 16 →
  wp (mdio_direct_read_phy_ocp a) (λ v t', v = phy_reg m (a / 2) ∧ ∃ c, t' = t_mmio c t ∧ tp_rep m t') t.
Proof.
  intros Hm Hd Ha. unfold mdio_direct_read_phy_ocp. apply wp_bind, wp_gets. unfold id. rewrite Hd. by apply phy_read_wp.
Qed.
Lemma ocp_bit_wp m a c s t : tp_rep m t → rtk_enable_diag t = false → 0 ≤ a < 2 ^ 16 →
  wp (ClearAndSetEthPhyOcpBit a c s)
    (λ _ t', ∃ c', t' = t_mmio c' t ∧ tp_rep (set_phy (a / 2) (cleared_set (phy_reg m (a / 2)) c s) m) t') t.
Proof.
  intros Hm Hd Ha. apply (clear_and_set_wp (phy_reg m (a / 2))).
  eapply wp_mono; [by apply direct_read_wp|]. intros v t1 (Hv & c1 & -> & Hm1). split; [done|].
  unfold mdio_direct_write_phy_ocp. apply wp_bind, wp_gets. unfold id.
  change (rtk_enable_diag (t_mmio c1 t)) with (rtk_enable_diag t). rewrite Hd.
  eapply wp_mono; [apply (phy_write_wp m); done|]. intros [] t2 (c2 & -> & Hm2). by exists c2.
Qed.

(** The clear-and-set accesses, to the PHY by page or by address, to the
    MAC and to the PCIe PHY, rewrite one register of their window and no
    other: bits of the set mask are one, the other bits of the clear mask
    zero, and the rest are kept. *)
Theorem clear_and_set_spec m t a r c s :
  tp_rep m t → rtk_enable_diag t = false → 0 ≤ a < 2 ^ 16 → in_window (cur_page t) r →
  let holds f g := wp f (λ _ t', tp_rep g t') t in
  holds (ClearAndSetEthPhyBit r c s)
    (set_phy (phy_word (cur_page t) r) (cleared_set (phy_reg m (phy_word (cur_page t) r)) c s) m) ∧
  holds (ClearAndSetEthPhyOcpBit a c s) (set_phy (a / 2) (cleared_set (phy_reg m (a / 2)) c s) m) ∧
  holds (ClearAndSetMcuAccessRegBit a c s) (set_mac (a / 2) (cleared_set (mac_reg m (a / 2)) c s) m) ∧
  (a < 2 ^ 7 → holds (ClearAndSetPCIePhyBit a c s) (set_ephy a (cleared_set (ephy_reg m a) c s) m)) ∧
  ∀ old i, 0 ≤ i < 16 → Z.testbit (cleared_set old c s) i = Z.testbit s i || Z.testbit old i && negb (Z.testbit c i).
Proof.
  intros Hm Hd Ha Hw holds. unfold holds. split; [|split; [|split; [|split]]].
  - apply (clear_and_set_wp (phy_reg m (phy_word (cur_page t) r))).
    eapply wp_mono; [by apply (mdio_read_wp m (cur_page t) r)|]. intros v t1 (Hv & c1 & -> & Hm1). split; [done|].
    eapply wp_mono; [apply (mdio_write_wp m (cur_page t) r); done|]. by intros [] t2 (c2 & -> & Hm2).
  - eapply wp_mono; [by apply ocp_bit_wp|]. by intros [] t1 (c1 & -> & Hm1).
  - apply (clear_and_set_wp (mac_reg m (a / 2))).
    eapply wp_mono; [by apply (mac_read_wp m)|]. intros v t1 (Hv & c1 & -> & Hm1). split; [done|].
    eapply wp_mono; [apply (mac_write_wp m); done|]. by intros [] t2 (c2 & -> & Hm2).
  - intros Ha7. apply (clear_and_set_wp (ephy_reg m a)).
    eapply wp_mono; [apply (ephy_read_wp m); [done|lia]|]. intros v t1 (Hv & c1 & -> & Hm1). split; [done|].
    eapply wp_mono; [apply (ephy_write_wp m); [done|lia|done]|]. by intros [] t2 (c2 & -> & Hm2).
  - intros old i Hi. unfold cleared_set, u16. bit_rules.
    destruct (Z.ltb_spec i 16); [|lia]. simpl. by rewrite orb_comm.
Qed.
End theorems.
