(* ===== verification/R8125AccessExamples.v ===== *)
(** * The r8125 driver: access to the chip, examples

    A chip that takes three polls to carry a command out, which keeps the laws,
    and the accesses run on it. *)
From stdpp Require Import base tactics numbers.
From Stdlib Require Import ZArith Lia.
From S2P Require Import Prelude R8125Access R8125AccessSpec R8125AccessThms.

Record sim := Sim { s_regs : regs; csidr : Z; eridr : Z; reply : Z; wait : nat }.

(** A command: what it does to the registers, what the data register and its
    own register read afterwards. *)
Definition sim_writel (reg v : Z) (c : sim) : sim :=
  let wr := Z.testbit v 31 in
  let m := s_regs c in
  if reg =? CSIDR then Sim m v (eridr c) (reply c) (wait c)
  else if reg =? ERIDR then Sim m (csidr c) v (reply c) (wait c)
  else if reg =? PHYOCP then
    if wr then Sim (set_phy (field 16 15 v) (field 0 16 v) m) (csidr c) (eridr c) 0 3
    else Sim m (csidr c) (eridr c) (OCPR_Flag + phy_reg m (field 16 15 v)) 3
  else if reg =? MACOCP then
    if wr then Sim (set_mac (field 16 15 v) (field 0 16 v) m) (csidr c) (eridr c) 0 0
    else Sim m (csidr c) (eridr c) (mac_reg m (field 16 15 v)) 0
  else if reg =? EPHYAR then
    if wr then Sim (set_ephy (field 16 7 v) (field 0 16 v) m) (csidr c) (eridr c) 0 3
    else Sim m (csidr c) (eridr c) (OCPR_Flag + ephy_reg m (field 16 7 v)) 3
  else if reg =? CSIAR then
    if wr then Sim (set_csi (field 16 3 v) (field 0 12 v) (csidr c) m) (csidr c) (eridr c) 0 3
    else Sim m (csi_reg m (field 16 3 v) (field 0 12 v)) (eridr c) OCPR_Flag 3
  else if reg =? ERIAR then
    if wr then Sim (set_eri (field 16 4 v) (eri_addr v) (eridr c) m) (csidr c) (eridr c) 0 3
    else Sim m (csidr c) (eri_reg m (field 16 4 v) (eri_addr v)) OCPR_Flag 3
  else c.
Definition sim_readl (reg : Z) (c : sim) : Z * sim :=
  if reg =? CSIDR then (csidr c, c) else if reg =? ERIDR then (eridr c, c)
  else match wait c with
  | S n => (if flagged (reply c) then 0 else OCPR_Flag, Sim (s_regs c) (csidr c) (eridr c) (reply c) n)
  | O => (reply c, c)
  end.
#[export] Instance sim_chip : Mmio := {
  chip := sim; writel := sim_writel; readl := sim_readl;
  cfg_write8 a v c := c; cfg_read8 a c := (0, c) }.

Record regs_wf (m : regs) : Prop := RegsWf {
  wf_phy a : 0 ≤ phy_reg m a < 2 ^ 16; wf_mac a : 0 ≤ mac_reg m a < 2 ^ 16; wf_ephy a : 0 ≤ ephy_reg m a < 2 ^ 16;
  wf_csi f a : 0 ≤ csi_reg m f a < 2 ^ 32; wf_eri y a : 0 ≤ eri_reg m y a < 2 ^ 32 }.
Definition sim_rep (m : regs) (c : sim) : Prop := s_regs c = m ∧ regs_wf m.

Lemma field_bound lo n v : 0 ≤ n → 0 ≤ field lo n v < 2 ^ n.
Proof. intros. unfold field. rewrite Z.land_ones by lia. apply Z.mod_pos_bound. by apply Z.pow_pos_nonneg. Qed.
Lemma field_small v n : 0 ≤ n → 0 ≤ v < 2 ^ n → field 0 n v = v.
Proof. intros. unfold field. rewrite Z.shiftr_0_r, Z.land_ones by lia. by apply Z.mod_small. Qed.
Lemma upd_wf f a v (P : Z → Prop) : (∀ x, P (f x)) → P v → ∀ x, P (upd f a v x).
Proof. intros Hf Hv x. unfold upd. by destruct (x =? a). Qed.

Lemma wf_set_phy m a v : regs_wf m → 0 ≤ v < 2 ^ 16 → regs_wf (set_phy a v m).
Proof. intros [] Hv. constructor; simpl; auto. by apply (upd_wf _ _ _ (λ z, 0 ≤ z < 2 ^ 16)). Qed.
Lemma wf_set_mac m a v : regs_wf m → 0 ≤ v < 2 ^ 16 → regs_wf (set_mac a v m).
Proof. intros [] Hv. constructor; simpl; auto. by apply (upd_wf _ _ _ (λ z, 0 ≤ z < 2 ^ 16)). Qed.
Lemma wf_set_ephy m a v : regs_wf m → 0 ≤ v < 2 ^ 16 → regs_wf (set_ephy a v m).
Proof. intros [] Hv. constructor; simpl; auto. by apply (upd_wf _ _ _ (λ z, 0 ≤ z < 2 ^ 16)). Qed.
Lemma wf_set_csi m f a v : regs_wf m → 0 ≤ v < 2 ^ 32 → regs_wf (set_csi f a v m).
Proof.
  intros [] Hv. constructor; simpl; auto. intros g. destruct (g =? f); [|auto].
  apply (upd_wf _ _ _ (λ z, 0 ≤ z < 2 ^ 32)); auto.
Qed.
Lemma wf_set_eri m y a v : regs_wf m → 0 ≤ v < 2 ^ 32 → regs_wf (set_eri y a v m).
Proof.
  intros [] Hv. constructor; simpl; auto. intros g. destruct (g =? y); [|auto].
  apply (upd_wf _ _ _ (λ z, 0 ≤ z < 2 ^ 32)); auto.
Qed.

Lemma flagged_flag v : 0 ≤ v < 2 ^ 31 → flagged (OCPR_Flag + v) = true.
Proof.
  intros Hv. unfold flagged. destruct (Z.eqb_spec (Z.land (OCPR_Flag + v) OCPR_Flag) 0) as [E|]; [|done].
  assert (Z.testbit (Z.land (OCPR_Flag + v) OCPR_Flag) 31 = false) as Ht by (by rewrite E, Z.bits_0).
  rewrite Z.land_spec in Ht. change (Z.testbit OCPR_Flag 31) with true in Ht. rewrite andb_true_r in Ht.
  rewrite Z.testbit_eqb in Ht by lia. change OCPR_Flag with (1 * 2 ^ 31) in Ht.
  rewrite Z.add_comm, Z.div_add, Z.div_small in Ht by lia. done.
Qed.
Lemma field_flag v : 0 ≤ v < 2 ^ 16 → field 0 16 (OCPR_Flag + v) = v.
Proof.
  intros Hv. unfold field. rewrite Z.shiftr_0_r, Z.land_ones by lia. change OCPR_Flag with (2 ^ 15 * 2 ^ 16).
  rewrite Z.add_comm, Z.mod_add by lia. by apply Z.mod_small.
Qed.

(** The polls of a command register end when the wait does. *)
Lemma sim_settle n reg set Q (c : sim) : reg ≠ CSIDR → reg ≠ ERIDR → (wait c < n)%nat → flagged (reply c) = set →
  Q (Sim (s_regs c) (csidr c) (eridr c) (reply c) 0) → settle n reg set Q c.
Proof.
  intros H1 H2. revert c. induction n as [|n IH]; intros c Hw Hf HQ; [lia|]. cbn [settle readl sim_chip].
  unfold sim_readl. rewrite (proj2 (Z.eqb_neq _ _) H1), (proj2 (Z.eqb_neq _ _) H2).
  destruct c as [m cs er rp [|w]]; simpl in *.
  - rewrite Hf. by destruct set.
  - rewrite Hf. replace (eqb _ set) with false by (by destruct set). apply IH; simpl; [lia|done..].
Qed.
Lemma sim_settles reg set Q (c : sim) : reg ≠ CSIDR → reg ≠ ERIDR → (wait c ≤ 3)%nat → flagged (reply c) = set →
  Q (Sim (s_regs c) (csidr c) (eridr c) (reply c) 0) → settles reg set Q c.
Proof. intros. apply sim_settle; try done. unfold R8125_CHANNEL_WAIT_COUNT. lia. Qed.

#[local] Arguments settles : simpl never.
#[local] Arguments Z.testbit : simpl never.
#[local] Arguments field : simpl never.
#[local] Arguments Z.add : simpl never.
Ltac sim_settled := apply sim_settles; cbn; [done|done|lia| |].

#[export, refine] Instance sim_laws : ChipLaws := { chip_rep := sim_rep }.
Proof.
  - intros m c cmd [<- Hm] Hc. cbn. unfold sim_writel. cbn. destruct (Z.testbit cmd 31); sim_settled.
    + done.
    + split; [done|]. by apply wf_set_phy, field_bound.
    + apply flagged_flag. pose proof (wf_phy _ Hm (field 16 15 cmd)). lia.
    + split; [|done]. apply field_flag, Hm.
  - intros m c cmd [<- Hm] Hc. cbn. unfold sim_writel. cbn. destruct (Z.testbit cmd 31).
    + split; [done|]. by apply wf_set_mac, field_bound.
    + split; [|done]. apply field_small; [lia|apply Hm].
  - intros m c cmd [<- Hm] Hc. cbn. unfold sim_writel. cbn. destruct (Z.testbit cmd 31); sim_settled.
    + done.
    + split; [done|]. by apply wf_set_ephy, field_bound.
    + apply flagged_flag. pose proof (wf_ephy _ Hm (field 16 7 cmd)). lia.
    + split; [|done]. apply field_flag, Hm.
  - intros m c cmd v [<- Hm] Hc Hv Hw _. cbn. unfold sim_writel. cbn. rewrite Hw. sim_settled; [done|].
    split; [done|]. by apply wf_set_csi.
  - intros m c cmd [<- Hm] Hc Hw _. cbn. unfold sim_writel. cbn. rewrite Hw. sim_settled; [done|].
    split; [|done]. apply field_small; [lia|apply Hm].
  - intros m c cmd v [<- Hm] Hc Hv Hw _ _. cbn. unfold sim_writel. cbn. rewrite Hw. sim_settled; [done|].
    split; [done|]. by apply wf_set_eri.
  - intros m c cmd [<- Hm] Hc Hw _ _. cbn. unfold sim_writel. cbn. rewrite Hw. sim_settled; [done|].
    split; [|done]. apply field_small; [lia|apply Hm].
Defined.

(** Every register of a window reads the same. *)
Definition regs0 : regs := Regs (λ _, 0x1111) (λ _, 0x2222) (λ _, 0x3333) (λ _ _, 0x44332211) (λ _ _, 0x88776655).
Definition tp0 : tp := Tp (Sim regs0 0 0 0 0) 0 0 false false.
Lemma tp0_rep : tp_rep regs0 tp0.
Proof. split; [done|]. by constructor. Qed.

Lemma paged_phy_access_witness :
  wp (rtl8125_mdio_write 0x1F 0 ;; rtl8125_mdio_write 11 7 ;; rtl8125_mdio_write 0x1F 0xA41 ;; rtl8125_mdio_read 19)
    (λ x t', x = 7 ∧ cur_page t' = 0xA41 ∧ tp_rep (set_phy (phy_word 0 11) 7 regs0) t') tp0.
Proof. apply (paged_phy_access regs0 tp0 0 11 7 0xA41 19); [exact tp0_rep|done|unfold in_window; simpl; lia..|lia]. Defined.

Lemma eri_bytes_witness :
  wp (let* rc := rtl8125_eri_write 0x102 4 0xAABBCCDD 0 in let* x := rtl8125_eri_read 0x102 4 0 in ret (rc, x))
    (λ r t', r = (0, 0xAABBCCDD) ∧ ∃ m', tp_rep m' t' ∧ eri_writes regs0 m' 0 0x102 4 0xAABBCCDD) tp0.
Proof. apply (proj1 (eri_bytes regs0 tp0 0 0x102 4 0xAABBCCDD tp0_rep ltac:(lia) ltac:(lia) ltac:(lia))); lia. Defined.

Lemma csi_byte_access_witness :
  wp (rtl8125_csi_fun0_write_byte 0x79 0x40 ;; rtl8125_csi_fun0_read_byte 0x7a) 
    (λ x _, x = if 0x7a =? 0x79 then 0x40 else csi_byte regs0 0x7a) tp0.
Proof. apply (csi_byte_access regs0 tp0 0x79 0x40 0x7a); [exact tp0_rep|done|simpl; lia|lia..]. Defined.

Lemma clear_and_set_spec_witness :
  wp (ClearAndSetMcuAccessRegBit 0xE8DE 0x4000 0x1)
    (λ _ t', tp_rep (set_mac 0x746F (cleared_set 0x2222 0x4000 0x1) regs0) t') tp0.
Proof.
  assert (in_window (cur_page tp0) 16) as Hw by (unfold in_window; simpl; lia).
  exact (proj1 (proj2 (proj2 (clear_and_set_spec regs0 tp0 0xE8DE 16 0x4000 0x1 tp0_rep eq_refl ltac:(lia) Hw)))).
Defined.

(** What the registers read after a run. *)
Definition after {A} (m : M tp A) (f : A → regs → Z) : option Z :=
  match m tp0 with Some (a, t) => Some (f a (s_regs (mmio t))) | None => None end.

(** Page 0 register 11 is register 19 of page 0xA41. *)
Example page_view :
  after (rtl8125_mdio_write 0x1F 0 ;; rtl8125_mdio_write 11 7 ;; rtl8125_mdio_write 0x1F 0xA41 ;; rtl8125_mdio_read 19)
    (λ x _, x) = Some 7.
Proof. vm_compute. reflexivity. Qed.
(** Two words for four bytes from 0x102 on. *)
Example eri_straddles :
  after (rtl8125_eri_write 0x102 4 0xAABBCCDD 0) (λ _ m, eri_reg m 0 0x100) = Some 0xCCDD6655 ∧
  after (rtl8125_eri_write 0x102 4 0xAABBCCDD 0) (λ _ m, eri_reg m 0 0x104) = Some 0x8877AABB.
Proof. split; vm_compute; reflexivity. Qed.
(** A value wider than the length is ORed into the byte that follows. *)
Example eri_write_spills :
  after (rtl8125_eri_write 0x100 1 0x1AA 0) (λ _ m, eri_reg m 0 0x100) = Some 0x887767AA.
Proof. vm_compute. reflexivity. Qed.
(** Reads by word at the addresses 0, 1, 2 overlap: the second and third words
    of a copy made so are not the registers 4 and 8. *)
Example eri_read_by_index :
  after (let* _ := rtl8125_eri_write 0 4 0x03020100 0 in let* _ := rtl8125_eri_write 4 4 0x07060504 0 in rtl8125_eri_read 1 4 0) (λ x _, x)
    = Some 0x04030201.
Proof. vm_compute. reflexivity. Qed.
