(* ===== verification/R8125Fw.v ===== *)
(** * The r8125 driver: PHY firmware

    [r8125_firmware.c]: a firmware image is checked and then run, as a program
    of register accesses with conditional skips and backward jumps. And what
    [r8125_n.c] does with it: request, apply and release, the version of the
    code in the PHY and the requests to patch it. *)
From stdpp Require Import base tactics list strings numbers option.
From Stdlib Require Import ZArith Lia.
From S2P Require Import Prelude R8125Access.

Inductive rtl_fw_opcode :=
  PHY_READ | PHY_DATA_OR | PHY_DATA_AND | PHY_BJMPN | PHY_MDIO_CHG | PHY_CLEAR_READCOUNT | PHY_WRITE
  | PHY_READCOUNT_EQ_SKIP | PHY_COMP_EQ_SKIPN | PHY_COMP_NEQ_SKIPN | PHY_WRITE_PREVIOUS | PHY_SKIPN | PHY_DELAY_MS.
#[export] Instance rtl_fw_opcode_eq_dec : EqDecision rtl_fw_opcode.
Proof. solve_decision. Defined.
Definition opcode_of (n : Z) : option rtl_fw_opcode :=
  match n with
  | 0x0 => Some PHY_READ | 0x1 => Some PHY_DATA_OR | 0x2 => Some PHY_DATA_AND | 0x3 => Some PHY_BJMPN
  | 0x4 => Some PHY_MDIO_CHG | 0x7 => Some PHY_CLEAR_READCOUNT | 0x8 => Some PHY_WRITE
  | 0x9 => Some PHY_READCOUNT_EQ_SKIP | 0xa => Some PHY_COMP_EQ_SKIPN | 0xb => Some PHY_COMP_NEQ_SKIPN
  | 0xc => Some PHY_WRITE_PREVIOUS | 0xd => Some PHY_SKIPN | 0xe => Some PHY_DELAY_MS | _ => None
  end.

(** The image, as bytes, and where the code is in it: [code] is the offset of
    [pa->code], [size] counts words. *)
Record rtl8125_fw := Fw { fw : list Z; fw_name : string; version : list Z; code : Z; size : Z }.
Definition fw_size (f : rtl8125_fw) : Z := Z.of_nat (length (fw f)).

Definition RTL8125_VER_SIZE : Z := 32.
Definition FW_OPCODE_SIZE : Z := 4.
(** [struct fw_info] is packed: magic, version, start, length, checksum. *)
Definition sizeof_fw_info : Z := 45.
Definition off_version : Z := 4.
Definition off_fw_start : Z := 36.
Definition off_fw_len : Z := 40.

Definition byte_at (img : list Z) (i : Z) : option Z := if i <? 0 then None else img !! Z.to_nat i.
Definition le32_at (img : list Z) (i : Z) : option Z :=
  a ← byte_at img i; b ← byte_at img (i + 1); c ← byte_at img (i + 2); d ← byte_at img (i + 3);
  Some (a + 2 ^ 8 * b + 2 ^ 16 * c + 2 ^ 24 * d).
(** [strscpy] of [n] bytes at most, the last of them a NUL. *)
Fixpoint strscpy (src : list Z) (n : nat) : list Z :=
  match n, src with
  | S (S n'), c :: src' => if c =? 0 then [] else c :: strscpy src' (S n')
  | _, _ => []
  end.

Definition rtl8125_fw_format_ok (f : rtl8125_fw) : option (bool * rtl8125_fw) :=
  if fw_size f <? FW_OPCODE_SIZE then Some (false, f)
  else
    magic ← le32_at (fw f) 0;
    if magic =? 0 then
      if fw_size f <? sizeof_fw_info then Some (false, f)
      else if negb (u8 (foldr Z.add 0 (fw f)) =? 0) then Some (false, f)
      else
        start ← le32_at (fw f) off_fw_start;
        if fw_size f <? start then Some (false, f)
        else
          n ← le32_at (fw f) off_fw_len;
          if (fw_size f - start) / FW_OPCODE_SIZE <? n then Some (false, f)
          else Some (true, Fw (fw f) (fw_name f)
            (strscpy (drop (Z.to_nat off_version) (fw f)) (Z.to_nat RTL8125_VER_SIZE)) start n)
    else if negb (fw_size f mod FW_OPCODE_SIZE =? 0) then Some (false, f)
    else Some (true, Fw (fw f) (fw_name f) (strscpy (chars (fw_name f)) (Z.to_nat RTL8125_VER_SIZE)) 0
      (fw_size f / FW_OPCODE_SIZE)).

(** ** Words of the program *)
Definition fw_word (f : rtl8125_fw) (index : Z) : option Z := le32_at (fw f) (code f + 4 * index).
Definition fw_data (action : Z) : Z := Z.land action 0x0000ffff.
Definition fw_regno (action : Z) : Z := Z.shiftr (Z.land action 0x0fff0000) 16.
Definition fw_opcode (action : Z) : option rtl_fw_opcode := opcode_of (Z.shiftr action 28).

(** One case of the switch: whether the word is in order at [index]. *)
Definition fw_word_ok (size index action : Z) : bool :=
  let val := fw_data action in
  let regno := fw_regno action in
  match fw_opcode action with
  | Some (PHY_READ | PHY_DATA_OR | PHY_DATA_AND | PHY_CLEAR_READCOUNT | PHY_WRITE | PHY_WRITE_PREVIOUS | PHY_DELAY_MS) => true
  | Some PHY_MDIO_CHG => negb (1 <? val)
  | Some PHY_BJMPN => negb (index <? regno)
  | Some PHY_READCOUNT_EQ_SKIP => negb (size <=? index + 2)
  | Some (PHY_COMP_EQ_SKIPN | PHY_COMP_NEQ_SKIPN | PHY_SKIPN) => negb (size <=? index + 1 + regno)
  | None => false
  end.
Fixpoint fw_data_ok_loop (n : nat) (f : rtl8125_fw) (index : Z) : option bool :=
  match n with
  | O => Some true
  | S n' =>
      action ← fw_word f index;
      if fw_word_ok (size f) index action then fw_data_ok_loop n' f (index + 1) else Some false
  end.
Definition rtl8125_fw_data_ok (f : rtl8125_fw) : option bool := fw_data_ok_loop (Z.to_nat (size f)) f 0.

(** ** Running a program *)
(** The locals of [rtl8125_fw_write_firmware]: which accessors are in use is
    [use_mac]. [predata] is kept as its 32 bits. *)
Record fwst := Fwst { index : Z; predata : Z; count : Z; use_mac : bool }.

Section fw.
Context `{Mmio}.
Abbreviation T := (M tp).

Definition fw_write (mac : bool) (regno data : Z) : T unit :=
  (if mac then mac_mcu_write else rtl8125_mdio_write) (u16 regno) (u16 data).
Definition fw_read (mac : bool) (regno : Z) : T Z := (if mac then mac_mcu_read else rtl8125_mdio_read) (u16 regno).

(** A word's effect: how many words it skips (a negative number jumps back),
    and the locals after it. *)
Definition fw_action (action predata count : Z) (mac : bool) : T (Z * Z * Z * bool) :=
  let data := fw_data action in
  let regno := fw_regno action in
  match fw_opcode action with
  | Some PHY_READ => let* v := fw_read mac regno in ret (0, u32 v, u32 (count + 1), mac)
  | Some PHY_DATA_OR => ret (0, Z.lor predata data, count, mac)
  | Some PHY_DATA_AND => ret (0, Z.land predata data, count, mac)
  | Some PHY_BJMPN => ret (- (regno + 1), predata, count, mac)
  | Some PHY_MDIO_CHG => ret (0, predata, count, negb (data =? 0))
  | Some PHY_CLEAR_READCOUNT => ret (0, predata, 0, mac)
  | Some PHY_WRITE => fw_write mac regno data ;; ret (0, predata, count, mac)
  | Some PHY_READCOUNT_EQ_SKIP => ret (if count =? data then 1 else 0, predata, count, mac)
  | Some PHY_COMP_EQ_SKIPN => ret (if predata =? data then regno else 0, predata, count, mac)
  | Some PHY_COMP_NEQ_SKIPN => ret (if predata =? data then 0 else regno, predata, count, mac)
  | Some PHY_WRITE_PREVIOUS => fw_write mac regno predata ;; ret (0, predata, count, mac)
  | Some PHY_SKIPN => ret (regno, predata, count, mac)
  | Some PHY_DELAY_MS | None => ret (0, predata, count, mac)
  end.

(** One round of the loop; [None] is its end. The index is a [size_t],
    of 32 bits. *)
Definition fw_step (f : rtl8125_fw) (x : fwst) : T (option fwst) :=
  if negb (index x <? size f) then ret None
  else
    let* action := lift_opt (fw_word f (index x)) in
    if action =? 0 then ret None
    else
      let* r := fw_action action (predata x) (count x) (use_mac x) in
      let '(skip, p, c, mac) := r in
      ret (Some (Fwst (u32 (u32 (index x + skip) + 1)) p c mac)).
(** [n] rounds at most; [None] if the loop has ended. *)
Fixpoint fw_run (n : nat) (f : rtl8125_fw) (x : fwst) : T (option fwst) :=
  match n with
  | O => ret (Some x)
  | S n' => let* r := fw_step f x in match r with None => ret None | Some x' => fw_run n' f x' end
  end.
Definition rtl8125_fw_write_firmware (n : nat) (f : rtl8125_fw) : T (option fwst) := fw_run n f (Fwst 0 0 0 false).

(** ** The PHY's own code *)
Definition MII_BMCR : Z := 0.
Definition BMCR_RESET : Z := 0x8000.
Definition BIT_4 : Z := 0x10.
Definition BIT_6 : Z := 0x40.

Fixpoint wait_phy_reset_loop (n : nat) : T Z :=
  match n with
  | O => ret (-1)
  | S n' =>
      let* v := rtl8125_mdio_read MII_BMCR in
      if Z.land v BMCR_RESET =? 0 then ret 0 else wait_phy_reset_loop n'
  end.
Definition rtl8125_wait_phy_reset_complete : T Z := wait_phy_reset_loop 2500.

(** [0xffff] on a chip that is not known. *)
Definition rtl8125_get_hw_phy_mcu_code_ver : T Z :=
  let* t := gets id in
  if mcfg_default t then ret 0xffff
  else
    mdio_direct_write_phy_ocp 0xA436 0x801E ;;
    let* v := mdio_direct_read_phy_ocp 0xA438 in ret (u16 v).

Definition SetEthPhyOcpBit (addr mask : Z) : T unit := ClearAndSetEthPhyOcpBit addr 0 mask.
Definition ClearEthPhyOcpBit (addr mask : Z) : T unit := ClearAndSetEthPhyOcpBit addr mask 0.
(** [do ... while (!stop && WaitCount < 1000)]: the last value, the count. *)
Fixpoint poll_phy (n : nat) (stop : Z → bool) (WaitCount : Z) : T (Z * Z) :=
  let* v := mdio_direct_read_phy_ocp 0xB800 in
  let gphy_val := u16 v in
  match n with
  | O => ret (gphy_val, WaitCount + 1)
  | S n' => if stop gphy_val then ret (gphy_val, WaitCount + 1) else poll_phy n' stop (WaitCount + 1)
  end.
Definition patch_ready (v : Z) : bool := negb (Z.land v BIT_6 =? 0).
Definition rtl8125_set_phy_mcu_patch_request : T bool :=
  SetEthPhyOcpBit 0xB820 BIT_4 ;;
  let* r := poll_phy 999 patch_ready 0 in
  ret (negb (negb (patch_ready r.1) && (r.2 =? 1000))).
Definition rtl8125_clear_phy_mcu_patch_request : T bool :=
  ClearEthPhyOcpBit 0xB820 BIT_4 ;;
  let* r := poll_phy 999 (λ v, negb (patch_ready v)) 0 in
  ret (negb (patch_ready r.1 && (r.2 =? 1000))).
End fw.

(** ** The driver's firmware *)
(** The kernel's firmware loader: an error or an image. *)
Class FwLoader := { request_firmware_image : string → Z + list Z }.

Record drv `{Mmio} := Drv {
  d_tp : tp; d_fw_name : option string; d_rtl_fw : option rtl8125_fw;
  hw_ram_code_ver : Z; sw_ram_code_ver : Z; HwHasWrRamCodeToMicroP : bool;
  allocs : list bool;   (* what [kzalloc] will answer *)
  fw_held : Z; fw_mem : Z   (* images and structures held *) }.
Arguments Drv {_}.
Arguments d_tp {_}.
Arguments d_fw_name {_}.
Arguments d_rtl_fw {_}.
Arguments hw_ram_code_ver {_}.
Arguments sw_ram_code_ver {_}.
Arguments HwHasWrRamCodeToMicroP {_}.
Arguments allocs {_}.
Arguments fw_held {_}.
Arguments fw_mem {_}.

Section drv.
Context `{Mmio, FwLoader}.
Abbreviation D := (M drv).

Definition d_set (t : tp) (s : drv) : drv :=
  Drv t (d_fw_name s) (d_rtl_fw s) (hw_ram_code_ver s) (sw_ram_code_ver s) (HwHasWrRamCodeToMicroP s) (allocs s)
    (fw_held s) (fw_mem s).
Definition d_fw (o : option rtl8125_fw) (s : drv) : drv :=
  Drv (d_tp s) (d_fw_name s) o (hw_ram_code_ver s) (sw_ram_code_ver s) (HwHasWrRamCodeToMicroP s) (allocs s)
    (fw_held s) (fw_mem s).
Definition d_vers (hw sw : Z) (has : bool) (s : drv) : drv :=
  Drv (d_tp s) (d_fw_name s) (d_rtl_fw s) hw sw has (allocs s) (fw_held s) (fw_mem s).
Definition d_hold (dh dm : Z) (s : drv) : drv :=
  Drv (d_tp s) (d_fw_name s) (d_rtl_fw s) (hw_ram_code_ver s) (sw_ram_code_ver s) (HwHasWrRamCodeToMicroP s) (allocs s)
    (fw_held s + dh) (fw_mem s + dm).
Definition on_tp {A} (m : M tp A) : D A :=
  λ s, match m (d_tp s) with Some (a, t) => Some (a, d_set t s) | None => None end.

Definition kzalloc : D bool := λ s,
  match allocs s with
  | b :: l => Some (b, Drv (d_tp s) (d_fw_name s) (d_rtl_fw s) (hw_ram_code_ver s) (sw_ram_code_ver s)
      (HwHasWrRamCodeToMicroP s) l (fw_held s) (fw_mem s + if b then 1 else 0))
  | [] => Some (true, d_hold 0 1 s)
  end.
Definition kfree : D unit := modify (d_hold 0 (-1)).
Definition release_firmware : D unit := modify (d_hold (-1) 0).
Definition request_firmware (name : string) : D (Z + list Z) :=
  match request_firmware_image name with
  | inl e => ret (inl e)
  | inr img => modify (d_hold 1 0) ;; ret (inr img)
  end.

(** The result and the structure as it leaves it. *)
Definition rtl8125_fw_request_firmware (f : rtl8125_fw) : D (Z * rtl8125_fw) :=
  let* r := request_firmware (fw_name f) in
  match r with
  | inl rc => ret (rc, f)
  | inr img =>
      let f := Fw img (fw_name f) (version f) (code f) (size f) in
      let* r1 := lift_opt (rtl8125_fw_format_ok f) in
      let* ok := if r1.1 : bool then lift_opt (rtl8125_fw_data_ok r1.2) else ret false in
      if ok : bool then ret (0, r1.2) else release_firmware ;; ret (- EINVAL, r1.2)
  end.

Definition rtl8125_request_firmware : D unit :=
  let* s := gets id in
  match d_rtl_fw s, d_fw_name s with
  | None, Some name =>
      let* ok := kzalloc in
      if negb ok then ret tt
      else
        let* r := rtl8125_fw_request_firmware (Fw [] name [] 0 0) in
        if negb (r.1 =? 0) then kfree else modify (d_fw (Some r.2))
  | _, _ => ret tt
  end.

Definition rtl8125_release_firmware : D unit :=
  let* s := gets id in
  match d_rtl_fw s with
  | Some _ => release_firmware ;; kfree ;; modify (d_fw None)
  | None => ret tt
  end.

(** [n] rounds of the program at most; whether it ended in them. *)
Definition rtl8125_apply_firmware (n : nat) : D bool :=
  let* s := gets id in
  match d_rtl_fw s with
  | None => ret true
  | Some f =>
      let* r := on_tp (rtl8125_fw_write_firmware n f) in
      match r with
      | Some _ => ret false
      | None =>
          on_tp (modify (t_base OCP_STD_PHY_BASE)) ;;
          let* _ := on_tp rtl8125_wait_phy_reset_complete in
          let* v := on_tp rtl8125_get_hw_phy_mcu_code_ver in
          modify (d_vers v v true) ;; ret true
      end
  end.

Definition rtl8125_check_hw_phy_mcu_code_ver : D Z :=
  let* v := on_tp rtl8125_get_hw_phy_mcu_code_ver in
  let* s := gets id in
  if v =? sw_ram_code_ver s then modify (d_vers v (sw_ram_code_ver s) true) ;; ret 1
  else modify (d_vers v (sw_ram_code_ver s) (HwHasWrRamCodeToMicroP s)) ;; ret 0.
End drv.
