(* ===== verification/R8125FwSpec.v ===== *)
(** * The r8125 driver: PHY firmware, correctness

    A program that the checks accept is run without leaving the image; one
    without backward jumps runs like its list of words read once, front to
    back; the driver holds an image and a structure exactly while it has a
    program. *)
From stdpp Require Import base tactics list strings numbers option.
From Stdlib Require Import ZArith Lia.
From S2P Require Import Prelude R8125Access R8125Fw.

(** ** The checks *)
Definition is_bytes (img : list Z) : Prop := Forall (λ b, 0 ≤ b < 2 ^ 8) img ∧ Z.of_nat (length img) < 2 ^ 32.

Lemma byte_at_in img i : is_bytes img → 0 ≤ i < Z.of_nat (length img) → ∃ b, byte_at img i = Some b ∧ 0 ≤ b < 2 ^ 8.
Proof.
  intros [Hb _] Hi. unfold byte_at. destruct (Z.ltb_spec i 0); [lia|].
  destruct (lookup_lt_is_Some_2 img (Z.to_nat i)) as [b Hl]; [lia|]. exists b. split; [done|].
  by eapply Forall_lookup_1 in Hb.
Qed.
Lemma le32_at_in img i : is_bytes img → 0 ≤ i → i + 4 ≤ Z.of_nat (length img) → ∃ v, le32_at img i = Some v ∧ 0 ≤ v < 2 ^ 32.
Proof.
  intros Hb Hi Hl. unfold le32_at. destruct (byte_at_in img i Hb) as (a & -> & ?); [lia|].
  destruct (byte_at_in img (i + 1) Hb) as (b & -> & ?); [lia|]. destruct (byte_at_in img (i + 2) Hb) as (c & -> & ?); [lia|].
  destruct (byte_at_in img (i + 3) Hb) as (d & -> & ?); [lia|]. eexists. split; [done|]. lia.
Qed.

(** The code lies within the image. *)
Definition in_image (f : rtl8125_fw) : Prop := is_bytes (fw f) ∧ 0 ≤ code f ∧ 0 ≤ size f ∧ code f + 4 * size f ≤ fw_size f.
(** And every word passes the check. *)
Definition accepted (f : rtl8125_fw) : Prop :=
  in_image f ∧ ∀ i, 0 ≤ i < size f → ∃ w, fw_word f i = Some w ∧ fw_word_ok (size f) i w = true.

Lemma format_ok_spec f : is_bytes (fw f) →
  ∃ ok f', rtl8125_fw_format_ok f = Some (ok, f') ∧ fw f' = fw f ∧ fw_name f' = fw_name f ∧ (ok = true → in_image f').
Proof.
  intros Hb. unfold rtl8125_fw_format_ok. assert (0 ≤ fw_size f) as Hs by (unfold fw_size; lia).
  destruct (Z.ltb_spec (fw_size f) FW_OPCODE_SIZE) as [|H4]; [by exists false, f|].
  destruct (le32_at_in (fw f) 0 Hb) as (magic & -> & _); [lia|unfold fw_size, FW_OPCODE_SIZE in *; lia|]. cbn [mbind option_bind].
  destruct (magic =? 0).
  - destruct (Z.ltb_spec (fw_size f) sizeof_fw_info) as [|H45]; [by exists false, f|].
    destruct (negb _); [by exists false, f|].
    destruct (le32_at_in (fw f) off_fw_start Hb) as (start & -> & Hst);
      [done|unfold fw_size, sizeof_fw_info, off_fw_start in *; lia|]. cbn [mbind option_bind].
    destruct (Z.ltb_spec (fw_size f) start); [by exists false, f|].
    destruct (le32_at_in (fw f) off_fw_len Hb) as (n & -> & Hn);
      [done|unfold fw_size, sizeof_fw_info, off_fw_len in *; lia|]. cbn [mbind option_bind].
    destruct (Z.ltb_spec ((fw_size f - start) / FW_OPCODE_SIZE) n) as [|Hsz]; [by exists false, f|].
    eexists _, _. split; [done|]. split; [done|]. split; [done|]. intros _. unfold in_image, fw_size in *. simpl.
    pose proof (Z.mul_div_le (Z.of_nat (length (fw f)) - start) FW_OPCODE_SIZE ltac:(done)).
    unfold FW_OPCODE_SIZE in *. split; [done|lia].
  - destruct (negb _); [by exists false, f|].
    eexists _, _. split; [done|]. split; [done|]. split; [done|]. intros _. unfold in_image, fw_size in *. simpl.
    pose proof (Z.mul_div_le (Z.of_nat (length (fw f))) FW_OPCODE_SIZE ltac:(done)).
    assert (0 ≤ Z.of_nat (length (fw f)) / FW_OPCODE_SIZE) by (apply Z.div_pos; [lia|done]).
    unfold FW_OPCODE_SIZE in *. split; [done|lia].
Qed.

Lemma fw_word_in f i : in_image f → 0 ≤ i < size f → ∃ w, fw_word f i = Some w ∧ 0 ≤ w < 2 ^ 32.
Proof. intros (Hb & Hc & Hs & He) Hi. unfold fw_word. apply le32_at_in; [done|lia|]. unfold fw_size in *. lia. Qed.

Lemma data_ok_spec f : in_image f → ∃ ok, rtl8125_fw_data_ok f = Some ok ∧ (ok = true ↔ accepted f).
Proof.
  intros Hf. unfold rtl8125_fw_data_ok.
  enough (∀ n i, 0 ≤ i → i + Z.of_nat n = size f → ∃ ok, fw_data_ok_loop n f i = Some ok ∧
    (ok = true ↔ ∀ j, i ≤ j < size f → ∃ w, fw_word f j = Some w ∧ fw_word_ok (size f) j w = true)) as Hl.
  { destruct (Hl (Z.to_nat (size f)) 0) as (ok & -> & Hok); [lia|destruct Hf as (_ & _ & ? & _); lia|].
    exists ok. split; [done|]. rewrite Hok. unfold accepted. naive_solver. }
  induction n as [|n IH]; intros i Hi Hn; cbn [fw_data_ok_loop].
  - exists true. split; [done|]. split; [lia|done].
  - destruct (fw_word_in f i Hf) as (w & Hw & _); [lia|]. rewrite Hw. cbn [mbind option_bind].
    destruct (fw_word_ok (size f) i w) eqn:E.
    + destruct (IH (i + 1)) as (ok & -> & Hok); [lia..|]. exists ok. split; [done|]. rewrite Hok. split.
      * intros Hj j Hij. destruct (decide (j = i)) as [->|]; [by exists w|]. apply Hj. lia.
      * intros Hj j Hij. apply Hj. lia.
    + exists false. split; [done|]. split; [done|]. intros Hj. destruct (Hj i) as (w' & Hw' & Ew); [lia|]. congruence.
Qed.

(** ** Running *)
Lemma regno_bound a : 0 ≤ fw_regno a < 2 ^ 12.
Proof.
  unfold fw_regno. rewrite Z.shiftr_land. change (Z.shiftr 0x0fff0000 16) with (Z.ones 12).
  rewrite Z.land_ones by lia. by apply Z.mod_pos_bound.
Qed.
Lemma index_wraps z : -1 ≤ z < 2 ^ 31 → u32 (u32 z + 1) = z + 1.
Proof. intros Hz. unfold u32. rewrite Zplus_mod_idemp_l. apply Z.mod_small. lia. Qed.

Section total.
Context {St : Type}.
(** Defined on every state. *)
Definition total {A} (m : M St A) : Prop := ∀ s, wp m (λ _ _, True) s.
Lemma total_ret {A} (a : A) : total (ret a). Proof. done. Qed.
Lemma total_gets {A} (f : St → A) : total (gets f). Proof. done. Qed.
Lemma total_modify (f : St → St) : total (modify f). Proof. done. Qed.
Lemma total_bind {A B} (m : M St A) (k : A → M St B) : total m → (∀ a, total (k a)) → total (bind m k).
Proof. intros Hm Hk s. apply wp_bind. eapply wp_mono; [apply Hm|]. intros a s' _. apply Hk. Qed.
Lemma total_if {A} (b : bool) (m m' : M St A) : total m → total m' → total (if b then m else m').
Proof. by destruct b. Qed.
Lemma total_run {A} (m : M St A) s : total m → ∃ a s', m s = Some (a, s').
Proof. intros Hm. specialize (Hm s). unfold wp in Hm. destruct (m s) as [[a s']|]; [eauto|done]. Qed.
End total.
Create HintDb total.
Create HintDb quiet.
#[export] Hint Resolve total_ret total_gets total_modify : total.
#[export] Hint Extern 3 (total (bind _ _)) => apply total_bind; [|intros] : total.
#[export] Hint Extern 3 (total (if _ then _ else _)) => apply total_if : total.

Section run.
Context `{Mmio}.
Abbreviation T := (M tp).

(** ** Accesses that leave the driver's own fields alone *)
Definition quiet {A} (m : T A) : Prop := ∀ t, wp m (λ _ t', ∃ c, t' = t_mmio c t) t.
Lemma quiet_ret {A} (a : A) : quiet (ret a). Proof. intros t. exists (mmio t). by destruct t. Qed.
Lemma quiet_gets {A} (f : tp → A) : quiet (gets f). Proof. intros t. exists (mmio t). by destruct t. Qed.
Lemma quiet_bind {A B} (m : T A) (k : A → T B) : quiet m → (∀ a, quiet (k a)) → quiet (bind m k).
Proof.
  intros Hm Hk t. apply wp_bind. eapply wp_mono; [apply Hm|]. intros a t1 (c & ->).
  eapply wp_mono; [apply Hk|]. intros b t2 (c2 & ->). by exists c2.
Qed.
Lemma quiet_if {A} (b : bool) (m m' : T A) : quiet m → quiet m' → quiet (if b then m else m').
Proof. by destruct b. Qed.
Lemma quiet_total {A} (m : T A) : quiet m → total m.
Proof. intros Hm t. eapply wp_mono; [apply Hm|]. done. Qed.
Lemma quiet_w32 reg v : quiet (RTL_W32 reg v). Proof. intros t. by eexists. Qed.
Lemma quiet_r32 reg : quiet (RTL_R32 reg). Proof. intros t. by eexists. Qed.
#[local] Hint Resolve quiet_ret quiet_gets quiet_w32 quiet_r32 quiet_if : quiet.
#[local] Hint Extern 3 (quiet (bind _ _)) => apply quiet_bind; [|intros] : quiet.

Lemma quiet_wait reg set : quiet (wait_flag reg set).
Proof.
  unfold wait_flag. generalize (Z.to_nat R8125_CHANNEL_WAIT_COUNT). intros n. induction n; simpl; auto with quiet.
Qed.
#[local] Hint Resolve quiet_wait : quiet.
Lemma quiet_phy_write a v : quiet (mdio_direct_write_phy_ocp a v).
Proof. unfold mdio_direct_write_phy_ocp, mdio_real_direct_write_phy_ocp. auto 10 with quiet. Qed.
Lemma quiet_phy_read a : quiet (mdio_direct_read_phy_ocp a).
Proof. unfold mdio_direct_read_phy_ocp, mdio_real_direct_read_phy_ocp. auto 10 with quiet. Qed.
Lemma quiet_mdio_read r : quiet (rtl8125_mdio_read r).
Proof.
  unfold rtl8125_mdio_read, mdio_real_read, rtl8125_mdio_real_read_phy_ocp, mdio_real_direct_read_phy_ocp. auto 10 with quiet.
Qed.
#[local] Hint Resolve quiet_phy_write quiet_phy_read quiet_mdio_read : quiet.
(** As all reads, they are defined. *)
Lemma fw_read_total mac r : total (fw_read mac r).
Proof.
  unfold fw_read. destruct mac; apply quiet_total; [|apply quiet_mdio_read].
  unfold mac_mcu_read, rtl8125_mac_ocp_read. auto 10 with quiet.
Qed.
Lemma quiet_wait_reset : quiet rtl8125_wait_phy_reset_complete.
Proof. unfold rtl8125_wait_phy_reset_complete. generalize 2500%nat. intros n. induction n; simpl; auto with quiet. Qed.
Lemma code_ver_range t : wp rtl8125_get_hw_phy_mcu_code_ver (λ v _, 0 ≤ v < 2 ^ 16) t.
Proof.
  unfold rtl8125_get_hw_phy_mcu_code_ver. apply wp_bind, wp_gets. destruct (mcfg_default _); [by apply wp_ret|].
  apply wp_bind. eapply wp_mono; [apply quiet_phy_write|]. intros _ t1 _. apply wp_bind.
  eapply wp_mono; [apply quiet_phy_read|]. intros v t2 _. apply wp_ret. by apply Z.mod_pos_bound.
Qed.
Lemma quiet_code_ver : quiet rtl8125_get_hw_phy_mcu_code_ver.
Proof. unfold rtl8125_get_hw_phy_mcu_code_ver. auto 10 with quiet. Qed.

#[local] Hint Resolve quiet_total : total.
Lemma fw_write_total mac r v : total (fw_write mac r v).
Proof.
  unfold fw_write, mac_mcu_write, rtl8125_mac_ocp_write, rtl8125_mdio_write, mdio_real_write,
    rtl8125_mdio_real_write_phy_ocp, mdio_real_direct_write_phy_ocp. destruct mac; eauto 10 with total quiet.
Qed.
#[local] Hint Resolve fw_read_total fw_write_total : total.

Lemma fw_action_total a p c mac : total (fw_action a p c mac).
Proof. unfold fw_action. destruct (fw_opcode a) as [[]|]; eauto 10 with total. Qed.

(** A word in order leads to one of the program or to its end, and backwards
    by a jump alone. *)
Lemma fw_action_range n i a p c mac t r t' : 0 ≤ i < n → fw_word_ok n i a = true →
  fw_action a p c mac t = Some (r, t') →
  0 ≤ i + r.1.1.1 + 1 ≤ n ∧ (fw_opcode a ≠ Some PHY_BJMPN → 0 ≤ r.1.1.1).
Proof.
  intros Hi Hok Hr. pose proof (regno_bound a) as Hg.
  assert (wp (fw_action a p c mac) (λ r _, 0 ≤ i + r.1.1.1 + 1 ≤ n ∧ (fw_opcode a ≠ Some PHY_BJMPN → 0 ≤ r.1.1.1)) t)
    as Hw; [|unfold wp in Hw; by rewrite Hr in Hw].
  clear Hr. unfold fw_action, fw_word_ok in *. destruct (fw_opcode a) as [[]|]; try apply wp_ret; simpl.
  all: try (apply wp_bind; eapply wp_mono; [apply fw_read_total || apply fw_write_total|]; intros; apply wp_ret; simpl).
  all: repeat match goal with
    | |- context [if ?b then _ else _] => destruct b
    | H : negb (?a <=? ?b) = true |- _ => destruct (Z.leb_spec a b); [done|clear H]
    | H : negb (?a <? ?b) = true |- _ => destruct (Z.ltb_spec a b); [done|clear H]
    end; split; try lia; done.
Qed.

Lemma fw_step_spec f x t : accepted f → 0 ≤ index x ≤ size f →
  wp (fw_step f x) (λ r _, ∀ x', r = Some x' → 0 ≤ index x' ≤ size f) t.
Proof.
  intros [Hf Hok] Hx. unfold fw_step. destruct (Z.ltb_spec (index x) (size f)) as [Hlt|]; simpl; [|by apply wp_ret].
  destruct (Hok (index x)) as (w & Hw & Hwk); [lia|]. apply wp_bind. eapply wp_lift_opt; [exact Hw|].
  destruct (w =? 0); [by apply wp_ret|]. apply wp_bind.
  destruct (total_run _ t (fw_action_total w (predata x) (count x) (use_mac x))) as (r & t' & Hr).
  eapply wp_intro; [exact Hr|]. destruct (fw_action_range (size f) (index x) w _ _ _ _ _ _ ltac:(lia) Hwk Hr) as [Hb _].
  destruct r as [[[sk p] c] mac]. simpl in Hb. apply wp_ret. intros x' [= <-]. simpl.
  assert (size f < 2 ^ 30) by (destruct Hf as ([_ ?] & ? & ? & ?); unfold fw_size in *; lia).
  rewrite index_wraps by lia. lia.
Qed.
Lemma fw_run_spec n f x t : accepted f → 0 ≤ index x ≤ size f →
  wp (fw_run n f x) (λ r _, ∀ x', r = Some x' → 0 ≤ index x' ≤ size f) t.
Proof.
  intros Hf. revert x t. induction n as [|n IH]; intros x t Hx; simpl; [apply wp_ret; by intros x' [= <-]|].
  apply wp_bind. eapply wp_mono; [by apply fw_step_spec|]. intros [x'|] t' Hx'; [|by apply wp_ret].
  apply IH. by apply Hx'.
Qed.
End run.
