(* ===== verification/R8125FwThms.v ===== *)
(** * The r8125 driver: PHY firmware, theorems

    The reference reading of a program without backward jumps, and the
    properties of checking, running and holding firmware. *)
From stdpp Require Import base tactics list strings numbers option.
From Stdlib Require Import ZArith Lia.
From S2P Require Import Prelude R8125Access R8125AccessSpec R8125AccessThms R8125Fw R8125FwSpec.

(** ** A program read front to back *)
Definition fw_words (f : rtl8125_fw) : list Z := map (λ i, default 0 (fw_word f i)) (seqZ 0 (size f)).
Definition forward (f : rtl8125_fw) : Prop := Forall (λ w, fw_opcode w ≠ Some PHY_BJMPN) (fw_words f).

Lemma fw_words_length f : 0 ≤ size f → Z.of_nat (length (fw_words f)) = size f.
Proof. intros. unfold fw_words. rewrite length_map, length_seqZ. lia. Qed.
Lemma fw_words_lookup f (i : nat) w : in_image f → fw_words f !! i = Some w → fw_word f (Z.of_nat i) = Some w.
Proof.
  intros Hf. unfold fw_words. rewrite list_lookup_fmap. intros (j & Hj & ->)%fmap_Some.
  apply lookup_seqZ in Hj as [-> Hi]. destruct (fw_word_in f (Z.of_nat i) Hf) as (v & Hv & _); [lia|].
  by rewrite Z.add_0_l, Hv.
Qed.

Section run.
Context `{Mmio}.
Abbreviation T := (M tp).

(** The words that are left, of which the first [skip] are passed over. *)
Fixpoint fw_exec (ws : list Z) (skip : nat) (p c : Z) (mac : bool) : T unit :=
  match ws, skip with
  | [], _ => ret tt
  | _ :: ws', S k => fw_exec ws' k p c mac
  | w :: ws', O =>
      if w =? 0 then ret tt
      else
        let* r := fw_action w p c mac in
        let '(sk, p, c, mac) := r in
        fw_exec ws' (Z.to_nat sk) p c mac
  end.
Lemma fw_exec_total ws k p c mac : total (fw_exec ws k p c mac).
Proof.
  revert k p c mac. induction ws as [|w ws IH]; intros [|k] p c mac; simpl; try apply total_ret; [|apply IH].
  apply total_if; [apply total_ret|]. apply total_bind; [apply fw_action_total|]. intros [[[sk p'] c'] mac']. apply IH.
Qed.

Lemma fw_run_forward f ws k p c mac n t : accepted f → forward f → (k ≤ length ws < n)%nat →
  (∃ pre, fw_words f = pre ++ ws) →
  fw_run n f (Fwst (size f - Z.of_nat (length ws) + Z.of_nat k) p c mac) t = (fw_exec ws k p c mac ;; ret None) t.
Proof.
  intros Hf Hfw. assert (in_image f) as Hin by apply Hf. assert (0 ≤ size f < 2 ^ 30) as Hsz.
  { destruct Hin as ([_ ?] & ? & ? & ?). unfold fw_size in *. lia. }
  revert k p c mac n t. induction ws as [|w ws IH]; intros k p c mac n t Hk [pre Hpre].
  - destruct n as [|n]; [lia|]. assert (k = 0)%nat as -> by (simpl in Hk; lia). cbn [fw_run fw_exec].
    unfold fw_step, bind at 1. cbn [index length]. destruct (Z.ltb_spec (size f - Z.of_nat 0 + Z.of_nat 0) (size f)); [lia|]. done.
  - assert (∃ pre, fw_words f = pre ++ ws) as Hpre' by (exists (pre ++ [w]); by rewrite <- app_assoc).
    cbn [length] in *. destruct k as [|k].
    2:{ cbn [fw_exec]. etransitivity; [|apply (IH k p c mac n t); [lia|done]]. f_equal. f_equal. lia. }
    destruct n as [|n]; [lia|]. cbn [fw_run fw_exec].
    assert (Z.of_nat (length pre) + Z.of_nat (S (length ws)) = size f) as Hlen.
    { rewrite <- (fw_words_length f), Hpre, length_app by lia. cbn [length]. lia. }
    assert (size f - Z.of_nat (S (length ws)) + Z.of_nat 0 = Z.of_nat (length pre)) as -> by lia.
    assert (fw_words f !! length pre = Some w) as Hlk by (rewrite Hpre; by apply list_lookup_middle).
    assert (fw_opcode w ≠ Some PHY_BJMPN) as Hnj by exact (Forall_lookup_1 _ _ _ _ Hfw Hlk).
    apply fw_words_lookup in Hlk; [|done].
    destruct (proj2 Hf (Z.of_nat (length pre))) as (w' & Hw' & Hok); [lia|]. assert (w' = w) as -> by congruence.
    unfold fw_step, bind at 1. cbn [index predata count use_mac].
    destruct (Z.ltb_spec (Z.of_nat (length pre)) (size f)); [|lia]. cbn [negb]. rewrite Hw'. cbn.
    destruct (w =? 0); [done|].
    destruct (total_run _ t (fw_action_total w p c mac)) as (r & t' & Hr). unfold bind. rewrite Hr.
    destruct (fw_action_range (size f) (Z.of_nat (length pre)) w _ _ _ _ _ _ ltac:(lia) Hok Hr) as [Hb Hn].
    specialize (Hn Hnj). destruct r as [[[sk p'] c'] mac']. cbn [fst snd] in Hb, Hn. cbn.
    rewrite index_wraps by lia. fold (@bind tp). etransitivity; [|apply (IH (Z.to_nat sk) p' c' mac' n t'); [lia|done]].
    f_equal. f_equal. lia.
Qed.
End run.

Section theorems.
Context `{Mmio}.
Abbreviation T := (M tp).

(** C31: Checking an image never reads outside it, whatever its bytes say
    about the place and length of the code. A program that passes both checks
    is run for as long as one likes without reading outside the image or the
    code: skips end at the end of the program at the latest and backward jumps
    at its start, whatever the chip answers to the reads in between. *)
Theorem firmware_stays_in_image f : is_bytes (fw f) →
  ∃ ok f', rtl8125_fw_format_ok f = Some (ok, f') ∧ (ok = true →
    ∃ b, rtl8125_fw_data_ok f' = Some b ∧ (b = true →
      code f' + 4 * size f' ≤ fw_size f ∧
      ∀ n t, wp (rtl8125_fw_write_firmware n f') (λ r _, ∀ x, r = Some x → 0 ≤ index x ≤ size f') t)).
Proof.
  intros Hb. destruct (format_ok_spec f Hb) as (ok & f' & Hr & Hfw & _ & Hin). exists ok, f'. split; [done|]. intros Hok.
  destruct (data_ok_spec f' (Hin Hok)) as (b & Hd & Hacc). exists b. split; [done|]. intros Hbt. apply Hacc in Hbt.
  destruct (Hin Hok) as (_ & _ & Hs & Hc). split; [unfold fw_size in *; by rewrite <- Hfw|].
  intros n t. apply fw_run_spec; [done|]. simpl. lia.
Qed.

(** C32: A program that passes the checks and has no backward jump ends, within
    one round more than it has words, and is the list of its words read once
    from front to back, a skip passing over as many as it says. *)
Theorem forward_program_runs f n t : accepted f → forward f → size f < Z.of_nat n →
  ∃ t', rtl8125_fw_write_firmware n f t = Some (None, t') ∧ fw_exec (fw_words f) 0 0 0 false t = Some (tt, t').
Proof.
  intros Hf Hfw Hn. assert (0 ≤ size f) as Hs by apply Hf. pose proof (fw_words_length f Hs) as Hl.
  destruct (total_run _ t (fw_exec_total (fw_words f) 0 0 0 false)) as ([] & t' & He). exists t'. split; [|done].
  assert ((0 ≤ length (fw_words f) < n)%nat) as Hk by lia.
  pose proof (fw_run_forward f (fw_words f) 0 0 0 false n t Hf Hfw Hk (ex_intro _ [] eq_refl)) as Hr.
  replace (size f - Z.of_nat (length (fw_words f)) + Z.of_nat 0) with 0 in Hr by lia.
  unfold rtl8125_fw_write_firmware. rewrite Hr. unfold bind. by rewrite He.
Qed.

Lemma self_jump f i p c mac n t : 0 ≤ i < size f → size f < 2 ^ 30 → fw_word f i = Some 0x30000000 →
  fw_run n f (Fwst i p c mac) t = Some (Some (Fwst i p c mac), t).
Proof.
  intros Hi Hs Hw. induction n as [|n IH]; [done|]. cbn [fw_run]. unfold fw_step, bind at 1. cbn [index predata count use_mac].
  destruct (Z.ltb_spec i (size f)); [|lia]. cbn [negb]. rewrite Hw.
  transitivity (fw_run n f (Fwst (u32 (u32 (i + -1) + 1)) p c mac) t); [done|].
  rewrite index_wraps by lia. replace (i + -1 + 1) with i by lia. exact IH.
Qed.

(** The checks do not make a program end: an image of one word, a jump
    that goes back to itself, passes both, and running it never ends, on any
    chip. *)
Theorem endless_program_passes name v c s :
  ∃ f, rtl8125_fw_format_ok (Fw [0; 0; 0; 0x30] name v c s) = Some (true, f) ∧ rtl8125_fw_data_ok f = Some true ∧
    ∀ n t, rtl8125_fw_write_firmware n f t = Some (Some (Fwst 0 0 0 false), t).
Proof.
  eexists. split; [reflexivity|]. split; [vm_compute; reflexivity|]. intros n t. apply self_jump; [vm_compute; split; done|done|done].
Qed.

(** ** Polling *)
(** The value of the last poll, and how many there were. *)
Lemma poll_spec n stop k t :
  wp (poll_phy n stop k) (λ r _, k < r.2 ≤ k + 1 + Z.of_nat n ∧ (stop r.1 = false → r.2 = k + 1 + Z.of_nat n)) t.
Proof.
  revert k t. induction n as [|n IH]; intros k t; cbn [poll_phy]; apply wp_bind;
    (eapply wp_mono; [apply (quiet_total _ (quiet_phy_read _))|]; intros v t1 _).
  - apply wp_ret. simpl. lia.
  - destruct (stop (u16 v)) eqn:E; [apply wp_ret; simpl; rewrite E; split; [lia|done]|].
    eapply wp_mono; [apply IH|]. intros r t2 [Hr Hs]. split; [lia|]. intros Hr'. rewrite Hs by done. lia.
Qed.
End theorems.

Section patch.
Context `{ChipLaws}.

Lemma poll_plain m stop n k t : tp_rep m t → rtk_enable_diag t = false → 0 ≤ phy_reg m 0x5C00 < 2 ^ 16 →
  wp (poll_phy n stop k) (λ r t', r.1 = phy_reg m 0x5C00 ∧ tp_rep m t') t.
Proof.
  intros Hm Hd Hv. revert k t Hm Hd. assert (u16 (phy_reg m 0x5C00) = phy_reg m 0x5C00) as Hu by (by apply Z.mod_small).
  induction n as [|n IH]; intros k t Hm Hd; cbn [poll_phy]; apply wp_bind;
    (eapply wp_mono; [apply (direct_read_wp m 0xB800); [done|done|lia]|]; intros v t1 (-> & c & -> & Hm1);
     change (0xB800 / 2) with 0x5C00; rewrite Hu); [by apply wp_ret|].
  destruct (stop _); [by apply wp_ret|by apply IH].
Qed.

(** The two requests around a patch of the PHY's code set and clear the
    request bit of one register and report whether the PHY answered, which is
    what the ready bit says when the poll stops: at the answer, or after a
    thousand reads. *)
Theorem patch_request_spec m t : tp_rep m t → rtk_enable_diag t = false → 0 ≤ phy_reg m 0x5C00 < 2 ^ 16 →
  let ready := patch_ready (phy_reg m 0x5C00) in
  let with_request clear set := set_phy 0x5C10 (cleared_set (phy_reg m 0x5C10) clear set) m in
  wp rtl8125_set_phy_mcu_patch_request (λ b t', b = ready ∧ tp_rep (with_request 0 BIT_4) t') t ∧
  wp rtl8125_clear_phy_mcu_patch_request (λ b t', b = negb ready ∧ tp_rep (with_request BIT_4 0) t') t.
Proof.
  intros Hm Hd Hv ready with_request. split; apply wp_bind.
  - eapply wp_mono; [apply (ocp_bit_wp m 0xB820 0 BIT_4); [done|done|lia]|]. intros [] t1 (c & -> & Hm1).
    apply wp_bind. eapply wp_mono; [apply wp_and; [by apply (poll_plain (with_request 0 BIT_4))|apply poll_spec]|].
    intros [v k] t2 [[Hr Hm2] [_ Hs]]. apply wp_ret. split; [|done]. change (phy_reg (with_request 0 BIT_4) 0x5C00) with (phy_reg m 0x5C00) in Hr. cbn [fst snd] in *. subst v. fold ready in Hs |- *.
    destruct ready; [done|]. by rewrite Hs.
  - eapply wp_mono; [apply (ocp_bit_wp m 0xB820 BIT_4 0); [done|done|lia]|]. intros [] t1 (c & -> & Hm1).
    apply wp_bind. eapply wp_mono; [apply wp_and; [by apply (poll_plain (with_request BIT_4 0))|apply poll_spec]|].
    intros [v k] t2 [[Hr Hm2] [_ Hs]]. apply wp_ret. split; [|done]. change (phy_reg (with_request BIT_4 0) 0x5C00) with (phy_reg m 0x5C00) in Hr. cbn [fst snd] in *. subst v. fold ready in Hs |- *.
    destruct ready; [|done]. by rewrite Hs.
Qed.
End patch.

(** ** What the driver holds *)
Section drv.
Context `{Mmio, FwLoader}.
Abbreviation D := (M drv).

(** The loader's errors are negative and its images are bytes. *)
Definition loader_ok : Prop :=
  ∀ name, match request_firmware_image name with inl e => e < 0 | inr img => is_bytes img end.
(** A program is there with its image and structure, or nothing is. *)
Definition holds (s s' : drv) : Prop :=
  match d_rtl_fw s' with
  | None => fw_held s' = fw_held s ∧ fw_mem s' = fw_mem s
  | Some f => fw_held s' = fw_held s + 1 ∧ fw_mem s' = fw_mem s + 1 ∧ accepted f ∧
      ∃ name, d_fw_name s = Some name ∧ request_firmware_image name = inr (fw f)
  end.
Definition same_chip (s s' : drv) : Prop := d_tp s' = d_tp s ∧ d_fw_name s' = d_fw_name s.

Lemma request_image_wp name s : loader_ok →
  wp (rtl8125_fw_request_firmware (Fw [] name [] 0 0))
    (λ r s', same_chip s s' ∧ d_rtl_fw s' = d_rtl_fw s ∧ fw_mem s' = fw_mem s ∧
       if r.1 =? 0 then fw_held s' = fw_held s + 1 ∧ accepted r.2 ∧ request_firmware_image name = inr (fw r.2)
       else fw_held s' = fw_held s) s.
Proof.
  intros Hl. specialize (Hl name). unfold rtl8125_fw_request_firmware, request_firmware. cbn [fw_name].
  destruct (request_firmware_image name) as [e|img] eqn:Eimg.
  - apply wp_bind, wp_ret, wp_ret. split; [done|]. split; [done|]. split; [done|]. simpl. by destruct (Z.eqb_spec e 0); [lia|].
  - apply wp_bind, wp_bind, wp_modify, wp_ret. cbn [fw_name version code size].
    destruct (format_ok_spec (Fw img name [] 0 0) Hl) as (ok & f & Hf & Hfw & _ & Hin).
    apply wp_bind. eapply wp_lift_opt; [exact Hf|]. cbn [fst snd]. destruct ok; cycle 1.
    + apply wp_bind, wp_ret, wp_bind, wp_modify, wp_ret. split; [done|]. split; [done|]. simpl. lia.
    + destruct (data_ok_spec f (Hin eq_refl)) as (b & Hd & Hacc). apply wp_bind. eapply wp_lift_opt; [exact Hd|].
      destruct b; [apply wp_ret|apply wp_bind, wp_modify, wp_ret]; (split; [done|]; split; [done|]; simpl; split; [lia|]); [|lia].
      split; [lia|]. split; [by apply Hacc|]. by rewrite Hfw.
Qed.

Lemma request_wp s : loader_ok → d_rtl_fw s = None →
  wp rtl8125_request_firmware (λ _ s', same_chip s s' ∧ holds s s') s.
Proof.
  intros Hl Hn. unfold rtl8125_request_firmware. apply wp_bind, wp_gets. unfold id. rewrite Hn.
  destruct (d_fw_name s) as [name|] eqn:En; [|apply wp_ret; split; [done|]; unfold holds; by rewrite Hn].
  apply wp_bind. unfold wp at 1, kzalloc.
  assert (∀ s1, same_chip s s1 → d_rtl_fw s1 = None → fw_held s1 = fw_held s → fw_mem s1 = fw_mem s + 1 →
    wp (let* r := rtl8125_fw_request_firmware (Fw [] name [] 0 0) in
        if negb (r.1 =? 0) then kfree else modify (d_fw (Some r.2))) (λ _ s', same_chip s s' ∧ holds s s') s1) as Hok.
  { intros s1 [Ht Hf1] Hn1 Hh Hm. apply wp_bind. eapply wp_mono; [by apply request_image_wp|].
    intros r s2 ([Ht2 Hf2] & Hr2 & Hm2 & Hres). destruct (r.1 =? 0); cbn [negb]; apply wp_modify;
      (split; [split; simpl; congruence|]); unfold holds; simpl.
    - destruct Hres as (Hh2 & Ha & Hi). split; [lia|]. split; [lia|]. split; [done|]. by exists name.
    - rewrite Hr2, Hn1. lia. }
  destruct (allocs s) as [|[|] l]; cbn [negb]; [apply Hok; simpl; try done; lia..|].
  apply wp_ret. split; [done|]. unfold holds. simpl. rewrite Hn. lia.
Qed.

(** C34: Requesting the firmware gives the driver a program that passes the
    checks, with its image and its structure, or nothing, whether the
    allocation, the loader or a check refused it; requesting it again changes
    nothing; and releasing it leaves neither image nor structure behind. *)
Theorem firmware_held_exactly s : loader_ok → d_rtl_fw s = None →
  wp rtl8125_request_firmware
    (λ _ s1, holds s s1 ∧
       (d_rtl_fw s1 ≠ None → rtl8125_request_firmware s1 = Some (tt, s1)) ∧
       wp rtl8125_release_firmware
         (λ _ s2, d_rtl_fw s2 = None ∧ fw_held s2 = fw_held s ∧ fw_mem s2 = fw_mem s ∧ d_tp s2 = d_tp s) s1) s.
Proof.
  intros Hl Hn. eapply wp_mono; [by apply request_wp|]. intros [] s1 [[Ht Hnm] Hh]. split; [done|]. split.
  - intros Hs. unfold rtl8125_request_firmware, bind, gets, id. destruct (d_rtl_fw s1); [|done]. by destruct (d_fw_name s1).
  - unfold rtl8125_release_firmware. apply wp_bind, wp_gets. unfold id. unfold holds in Hh. destruct (d_rtl_fw s1) as [f|] eqn:E.
    + apply wp_bind, wp_modify, wp_bind, wp_modify, wp_modify. simpl. destruct Hh as (? & ? & _). split; [done|]. split; [lia|]. split; [lia|done].
    + apply wp_ret. by destruct Hh.
Qed.

Lemma on_tp_wp {A} (m : M tp A) (Q : A → drv → Prop) s :
  wp m (λ a t, Q a (d_set t s)) (d_tp s) → wp (on_tp m) Q s.
Proof. unfold wp, on_tp. by destruct (m (d_tp s)) as [[a t]|]. Qed.
Lemma on_tp_total {A} (m : M tp A) (Q : A → drv → Prop) s : total m → (∀ a t, Q a (d_set t s)) → wp (on_tp m) Q s.
Proof. intros Hm HQ. apply on_tp_wp. eapply wp_mono; [apply Hm|]. intros a t _. apply HQ. Qed.

(** Applying a program without backward jumps ends; it leaves the MAC
    accessors at the standard page whatever the program did to them, and the
    driver's two versions of the PHY's code equal and the code marked as
    written. *)
Theorem apply_forward_firmware s f n : d_rtl_fw s = Some f → accepted f → forward f → size f < Z.of_nat n →
  wp (rtl8125_apply_firmware n)
    (λ ok s', ok = true ∧ ocp_base (d_tp s') = OCP_STD_PHY_BASE ∧ hw_ram_code_ver s' = sw_ram_code_ver s' ∧
       HwHasWrRamCodeToMicroP s' = true ∧ d_rtl_fw s' = Some f ∧ fw_held s' = fw_held s ∧ fw_mem s' = fw_mem s ∧
       0 ≤ sw_ram_code_ver s' < 2 ^ 16) s.
Proof.
  intros Hs Ha Hf Hn. unfold rtl8125_apply_firmware. apply wp_bind, wp_gets. unfold id. rewrite Hs.
  destruct (forward_program_runs f n (d_tp s) Ha Hf Hn) as (t' & Hr & _).
  apply wp_bind, on_tp_wp. eapply wp_intro; [exact Hr|].
  apply wp_bind, on_tp_wp, wp_modify, wp_bind, on_tp_wp. eapply wp_mono; [apply quiet_wait_reset|].
  intros rc t1 (c1 & ->). apply wp_bind, on_tp_wp.
  eapply wp_mono; [apply wp_and; [apply quiet_code_ver|apply code_ver_range]|]. intros v t2 [(c2 & ->) Hv].
  apply wp_bind, wp_modify, wp_ret. done.
Qed.
End drv.
