(* ===== verification/R8125FwExamples.v ===== *)
(** * The r8125 driver: PHY firmware, examples

    A loader with one image, the image's program run on the chip of
    [R8125AccessExamples], and images that are refused. *)
From stdpp Require Import base tactics list strings numbers option.
From Stdlib Require Import ZArith Lia.
From S2P Require Import Prelude R8125Access R8125AccessSpec R8125AccessThms R8125AccessExamples R8125Fw R8125FwSpec R8125FwThms.

(** Page 0xA43; read register 16; skip the write of register 16 if it was
    0x1111; set the top bit and write the result to register 17. *)
Definition prog : list Z := [0x801F0A43; 0x00100000; 0xA0011111; 0x80100001; 0x10008000; 0xC0110000; 0].
Definition word_bytes (w : Z) : list Z := [w mod 256; w / 256 mod 256; w / 65536 mod 256; w / 16777216 mod 256].
Definition image : list Z := prog ≫= word_bytes.
Definition loaded : rtl8125_fw := Fw image "rtl8125b-2.fw" (chars "rtl8125b-2.fw") 0 7.
#[export] Instance one_image : FwLoader := {
  request_firmware_image name := if String.eqb name "rtl8125b-2.fw" then inr image else inl (- ENOENT) }.

Lemma image_bytes : is_bytes image.
Proof. split; [|vm_compute; done]. apply (bool_decide_unpack _). vm_compute. exact I. Qed.
Lemma one_image_ok : loader_ok.
Proof. intros name. simpl. destruct (String.eqb _ _); [exact image_bytes|done]. Qed.

Example image_passes : rtl8125_fw_format_ok (Fw image "rtl8125b-2.fw" [] 0 0) = Some (true, loaded) ∧
  rtl8125_fw_data_ok loaded = Some true.
Proof. split; vm_compute; reflexivity. Qed.
Lemma loaded_in_image : in_image loaded.
Proof. split; [exact image_bytes|]. by vm_compute. Qed.
Lemma loaded_accepted : accepted loaded.
Proof.
  destruct (data_ok_spec loaded loaded_in_image) as (ok & Hd & Hok). apply Hok.
  destruct image_passes as [_ Hp]. congruence.
Qed.
Lemma loaded_forward : forward loaded.
Proof. unfold forward. apply (bool_decide_unpack _). vm_compute. exact I. Qed.

Lemma firmware_stays_in_image_witness :
  ∃ ok f', rtl8125_fw_format_ok loaded = Some (ok, f') ∧ (ok = true →
    ∃ b, rtl8125_fw_data_ok f' = Some b ∧ (b = true →
      code f' + 4 * size f' ≤ fw_size loaded ∧
      ∀ n t, wp (rtl8125_fw_write_firmware n f') (λ r _, ∀ x, r = Some x → 0 ≤ index x ≤ size f') t)).
Proof. exact (firmware_stays_in_image loaded image_bytes). Defined.

Lemma forward_program_runs_witness :
  ∃ t', rtl8125_fw_write_firmware 8 loaded tp0 = Some (None, t') ∧ fw_exec (fw_words loaded) 0 0 0 false tp0 = Some (tt, t').
Proof. exact (forward_program_runs loaded 8 tp0 loaded_accepted loaded_forward eq_refl). Defined.

Definition drv0 : drv := Drv tp0 (Some "rtl8125b-2.fw"%string) None 0 0 false [true] 0 0.
Definition drv1 : drv := Drv tp0 (Some "rtl8125b-2.fw"%string) (Some loaded) 0 0 false [] 1 1.

Lemma firmware_held_exactly_witness :
  wp rtl8125_request_firmware
    (λ _ s1, holds drv0 s1 ∧
       (d_rtl_fw s1 ≠ None → rtl8125_request_firmware s1 = Some (tt, s1)) ∧
       wp rtl8125_release_firmware
         (λ _ s2, d_rtl_fw s2 = None ∧ fw_held s2 = 0 ∧ fw_mem s2 = 0 ∧ d_tp s2 = tp0) s1) drv0.
Proof. exact (firmware_held_exactly drv0 one_image_ok eq_refl). Defined.

Lemma apply_forward_firmware_witness :
  wp (rtl8125_apply_firmware 8)
    (λ ok s', ok = true ∧ ocp_base (d_tp s') = OCP_STD_PHY_BASE ∧ hw_ram_code_ver s' = sw_ram_code_ver s' ∧
       HwHasWrRamCodeToMicroP s' = true ∧ d_rtl_fw s' = Some loaded ∧ fw_held s' = fw_held drv1 ∧ fw_mem s' = fw_mem drv1 ∧
       0 ≤ sw_ram_code_ver s' < 2 ^ 16) drv1.
Proof. exact (apply_forward_firmware drv1 loaded 8 eq_refl loaded_accepted loaded_forward eq_refl). Defined.

Lemma patch_request_spec_witness :
  wp rtl8125_set_phy_mcu_patch_request
    (λ b t', b = patch_ready 0x1111 ∧ tp_rep (set_phy 0x5C10 (cleared_set 0x1111 0 BIT_4) regs0) t') tp0.
Proof.
  assert (0 ≤ phy_reg regs0 0x5C00 < 2 ^ 16) as Hv by (simpl; lia).
  exact (proj1 (patch_request_spec regs0 tp0 tp0_rep eq_refl Hv)).
Defined.

(** Register 16 of page 0xA43 is skipped, register 17 written. *)
Example program_writes :
  after (rtl8125_fw_write_firmware 8 loaded) (λ _ m, phy_reg m (phy_word 0xA43 16)) = Some 0x1111 ∧
  after (rtl8125_fw_write_firmware 8 loaded) (λ _ m, phy_reg m (phy_word 0xA43 17)) = Some 0x9111.
Proof. split; vm_compute; reflexivity. Qed.
(** The driver takes the image; with no memory, or another name, nothing. *)
Example request_outcomes :
  (λ s, (bool_decide (is_Some (d_rtl_fw s)), fw_held s, fw_mem s)) ∘ snd <$> rtl8125_request_firmware drv0 = Some (true, 1, 1) ∧
  (λ s, (bool_decide (is_Some (d_rtl_fw s)), fw_held s, fw_mem s)) ∘ snd <$>
    rtl8125_request_firmware (Drv tp0 (Some "rtl8125b-2.fw"%string) None 0 0 false [false] 0 0) = Some (false, 0, 0) ∧
  (λ s, (bool_decide (is_Some (d_rtl_fw s)), fw_held s, fw_mem s)) ∘ snd <$>
    rtl8125_request_firmware (Drv tp0 (Some "other.fw"%string) None 0 0 false [true] 0 0) = Some (false, 0, 0).
Proof. split; [|split]; vm_compute; reflexivity. Qed.
(** A skip that would pass the end, a jump before the start, an unknown word
    and an image of five bytes are refused. *)
Example refused :
  rtl8125_fw_data_ok (Fw (word_bytes 0xD0010000 ++ word_bytes 0) "" [] 0 2) = Some false ∧
  rtl8125_fw_data_ok (Fw (word_bytes 0x30010000) "" [] 0 1) = Some false ∧
  rtl8125_fw_data_ok (Fw (word_bytes 0x50000000) "" [] 0 1) = Some false ∧
  (rtl8125_fw_format_ok (Fw (word_bytes 0x50000000 ++ [0]) "" [] 0 0) ≫= λ r, Some r.1) = Some false.
Proof. split; [|split; [|split]]; vm_compute; reflexivity. Qed.
