(* ===== verification/IossData.v ===== *)
(** * IOSS: data

    [ioss.h]: channels with their configuration, event and memory lists, and
    the state of one interface: its channels, the network device and the
    library under it. *)
From stdpp Require Import base tactics list gmap strings numbers.
From Stdlib Require Import ZArith Lia.
From S2P Require Import Prelude IossUtils RtlLib.

(** ** Channels *)
(** The two memory allocators a configuration can name. *)
Inductive ioss_mem_allocator := ioss_default_alctr | ioss_llcc_alctr.
#[export] Instance alctr_eq_dec : EqDecision ioss_mem_allocator.
Proof. solve_decision. Defined.

Record ioss_channel_config := ChConfig {
  ring_size : Z; buff_size : Z; desc_alctr : ioss_mem_allocator; buff_alctr : ioss_mem_allocator }.

(** [struct ioss_channel_event]; the moderation bounds but the upper time are
    not used. *)
Record ioss_channel_event := ChEvent {
  ev_paddr : Z; ev_daddr : Z; ev_data : Z; mod_usecs_max : Z; ev_allocated : bool; ev_enabled : bool }.

Record ioss_mem := IMem { m_addr : Z; m_daddr : Z; m_size : Z }.

(** [struct ipa_eth_client_pipe_info] with its [struct ipa_eth_pipe_setup_info]. *)
Inductive ipa_pipe_dir := IPA_ETH_PIPE_DIR_TX | IPA_ETH_PIPE_DIR_RX.
Record ipa_smmu_map := SmmuMap { iova : Z; pa : Z }.
(** [struct ipa_eth_realtek_setup_info]. *)
Record realtek_info := RtkInfo { bar_addr : Z; bar_size : Z; queue_number : Z; dest_tail_ptr_offs : Z }.
Record pipe_info := PipeInfo {
  pi_dir : option ipa_pipe_dir; is_transfer_ring_valid : bool;
  transfer_ring_base : Z; transfer_ring_size : Z;
  data_buff_list : option (list ipa_smmu_map); data_buff_list_size : Z; fix_buffer_size : Z;
  pi_notify : bool; pi_client : bool; pi_rtk : realtek_info }.
Definition no_rtk : realtek_info := RtkInfo 0 0 0 0.
(** [memset(&cp->ipa_pi, 0, ...)]. *)
Definition no_pipe : pipe_info := PipeInfo None false 0 0 None 0 0 false false no_rtk.

Record ioss_channel := Chan {
  default_config : ioss_channel_config; config : ioss_channel_config;
  direction : ioss_channel_dir; filter_types : Z; event : ioss_channel_event;
  ch_id : Z; desc_list : list ioss_mem; buff_list : list ioss_mem;
  ch_private : option ring_ptr; ch_debugfs : bool; ch_allocated : bool; ch_enabled : bool;
  ipa_pi : pipe_info }.

Definition IOSS_RXF_F_BE : Z := Z.shiftl 1 0.
Definition IOSS_RXF_F_IP : Z := Z.shiftl 1 1.

(** ** The interface *)
(** What the IPA driver and the network stack hold of the interface. *)
Inductive ioss_call :=
  | IpaConnPipes (channels : nat) | IpaDisconnPipes | IpaRegIntf | IpaUnregIntf | IpaPerfProfile (mbps : Z)
  | PciPmControl (enable_pc : bool)
  | DmaMapTcm | DmaUnmap (addr size : Z) | IommuUnmap (addr size : Z) | IommuMap (addr size : Z)
  | TcmDeactivate
  | SetWol (opts : Z) | PmWakeupEvent (ms : Z).

(** The interface's side of the IPA driver: its client record is filled in, its
    pipes are connected, the interface is registered; and what the driver
    answered when it was last asked to disconnect them and to unregister it,
    0 from connecting and registering on. *)
Record ipa_link := IpaLink { il_client : bool; il_conn : bool; il_reg : bool; il_disconn : Z; il_unreg : Z }.

Record iface := Iface {
  channels : list ioss_channel;
  if_state : ioss_interface_state;
  link_speed : Z;
  tcm_mem : option (Z * Z * Z);      (* the activated TCM: physical and virtual base, size *)
  tcm_in_use : bool;
  ipa_client : ipa_link;
  ring_nic : nic;                    (* the network device's offload library *)
  idev_private : option Z;           (* the glue driver's notifier block, if open *)
  results : list Z;                  (* results of the fallible calls to come *)
  calls : list ioss_call }.          (* calls out of the program, latest first *)

Abbreviation W := (M iface).

(** ** State access *)
Definition if_channels (l : list ioss_channel) (w : iface) : iface :=
  Iface l (if_state w) (link_speed w) (tcm_mem w) (tcm_in_use w) (ipa_client w)
    (ring_nic w) (idev_private w) (results w) (calls w).
Definition if_set_state (st : ioss_interface_state) (w : iface) : iface :=
  Iface (channels w) st (link_speed w) (tcm_mem w) (tcm_in_use w) (ipa_client w)
    (ring_nic w) (idev_private w) (results w) (calls w).
Definition if_speed (z : Z) (w : iface) : iface :=
  Iface (channels w) (if_state w) z (tcm_mem w) (tcm_in_use w) (ipa_client w)
    (ring_nic w) (idev_private w) (results w) (calls w).
Definition if_tcm (t : option (Z * Z * Z)) (b : bool) (w : iface) : iface :=
  Iface (channels w) (if_state w) (link_speed w) t b (ipa_client w)
    (ring_nic w) (idev_private w) (results w) (calls w).
Definition if_client (b : ipa_link) (w : iface) : iface :=
  Iface (channels w) (if_state w) (link_speed w) (tcm_mem w) (tcm_in_use w) b
    (ring_nic w) (idev_private w) (results w) (calls w).
Definition if_nic (s : nic) (w : iface) : iface :=
  Iface (channels w) (if_state w) (link_speed w) (tcm_mem w) (tcm_in_use w) (ipa_client w)
    s (idev_private w) (results w) (calls w).
Definition if_results (l : list Z) (w : iface) : iface :=
  Iface (channels w) (if_state w) (link_speed w) (tcm_mem w) (tcm_in_use w) (ipa_client w)
    (ring_nic w) (idev_private w) l (calls w).
Definition if_calls (l : list ioss_call) (w : iface) : iface :=
  Iface (channels w) (if_state w) (link_speed w) (tcm_mem w) (tcm_in_use w) (ipa_client w)
    (ring_nic w) (idev_private w) (results w) l.

Definition if_private (p : option Z) (w : iface) : iface :=
  Iface (channels w) (if_state w) (link_speed w) (tcm_mem w) (tcm_in_use w) (ipa_client w)
    (ring_nic w) p (results w) (calls w).

(** The result of the next fallible call, 0 once none is left. *)
Definition result : W Z := λ w, Some (default 0 (head (results w)), if_results (tail (results w)) w).
Definition callout (c : ioss_call) : W unit := modify (λ w, if_calls (c :: calls w) w).

(** A call into the library. *)
Definition on_nic {A} (m : L A) : W A := λ w,
  match m (ring_nic w) with Some (a, s) => Some (a, if_nic s w) | None => None end.

Definition get_ch (i : nat) : W ioss_channel := let* w := gets id in lift_opt (channels w !! i).
Definition upd_ch (i : nat) (f : ioss_channel → ioss_channel) : W unit :=
  let* c := get_ch i in modify (λ w, if_channels (<[i := f c]> (channels w)) w).

Definition c_config (x : ioss_channel_config) (c : ioss_channel) : ioss_channel :=
  Chan (default_config c) x (direction c) (filter_types c) (event c) (ch_id c) (desc_list c) (buff_list c)
    (ch_private c) (ch_debugfs c) (ch_allocated c) (ch_enabled c) (ipa_pi c).
Definition c_event (e : ioss_channel_event) (c : ioss_channel) : ioss_channel :=
  Chan (default_config c) (config c) (direction c) (filter_types c) e (ch_id c) (desc_list c) (buff_list c)
    (ch_private c) (ch_debugfs c) (ch_allocated c) (ch_enabled c) (ipa_pi c).
Definition c_handle (id : Z) (p : option ring_ptr) (c : ioss_channel) : ioss_channel :=
  Chan (default_config c) (config c) (direction c) (filter_types c) (event c) id (desc_list c) (buff_list c)
    p (ch_debugfs c) (ch_allocated c) (ch_enabled c) (ipa_pi c).
Definition c_mem (d b : list ioss_mem) (c : ioss_channel) : ioss_channel :=
  Chan (default_config c) (config c) (direction c) (filter_types c) (event c) (ch_id c) d b
    (ch_private c) (ch_debugfs c) (ch_allocated c) (ch_enabled c) (ipa_pi c).
Definition c_flags (dbg al en : bool) (c : ioss_channel) : ioss_channel :=
  Chan (default_config c) (config c) (direction c) (filter_types c) (event c) (ch_id c) (desc_list c) (buff_list c)
    (ch_private c) dbg al en (ipa_pi c).
Definition c_pipe (p : pipe_info) (c : ioss_channel) : ioss_channel :=
  Chan (default_config c) (config c) (direction c) (filter_types c) (event c) (ch_id c) (desc_list c) (buff_list c)
    (ch_private c) (ch_debugfs c) (ch_allocated c) (ch_enabled c) p.

Definition c_debugfs (b : bool) (c : ioss_channel) : ioss_channel := c_flags b (ch_allocated c) (ch_enabled c) c.
Definition c_allocated (b : bool) (c : ioss_channel) : ioss_channel := c_flags (ch_debugfs c) b (ch_enabled c) c.
Definition c_enabled (b : bool) (c : ioss_channel) : ioss_channel := c_flags (ch_debugfs c) (ch_allocated c) b c.

Definition e_door (pa data : Z) (e : ioss_channel_event) : ioss_channel_event :=
  ChEvent pa (ev_daddr e) data (mod_usecs_max e) (ev_allocated e) (ev_enabled e).
Definition e_map (d : Z) (e : ioss_channel_event) : ioss_channel_event :=
  ChEvent (ev_paddr e) d (ev_data e) (mod_usecs_max e) (ev_allocated e) (ev_enabled e).
Definition e_flags (al en : bool) (e : ioss_channel_event) : ioss_channel_event :=
  ChEvent (ev_paddr e) (ev_daddr e) (ev_data e) (mod_usecs_max e) al en.

(** The environment: doorbell mappings, diagnostic switches of the glue
    driver, and the kernel's address translation. *)
Class IossApi := {
  dma_map_resource : Z → Z;             (* device address of a doorbell *)
  page_pa : Z → Z;                      (* physical address of a [vmalloc] address *)
  linear_pa : Z → Z;                    (* [virt_to_phys] *)
  tcm_activate : Z * Z * Z;             (* what [llcc_tcm_activate] hands out *)
  pci_bar : Z → Z * Z;                  (* start and length of a BAR *)
  driver_name : string;                 (* of the network device's PCI driver *)
  rdev_addr : Z;                        (* where the glue driver's private data is allocated *)
  RTL_R16 : Z → Z;                      (* a register of the device *)
  diag_skip_open_device : bool; diag_skip_request_channel : bool;
  diag_skip_enable_channel : bool; diag_skip_request_event : bool;
  diag_skip_enable_event : bool;
  disable_tcm : bool;
  max_ddr_bandwidth : Z }.             (* of the platform node *)

(** ** Inlines of [ioss.h] *)
Section inlines.
Context `{IossApi}.

(** The list a memory belongs to. *)
Inductive mem_list := DescMem | BuffMem.
Definition list_of (l : mem_list) (c : ioss_channel) : list ioss_mem :=
  match l with DescMem => desc_list c | BuffMem => buff_list c end.
Definition set_list (l : mem_list) (ms : list ioss_mem) (c : ioss_channel) : ioss_channel :=
  match l with DescMem => c_mem ms (buff_list c) c | BuffMem => c_mem (desc_list c) ms c end.

Definition ioss_channel_add_mem (i : nat) (l : mem_list) (addr daddr size : Z) : W Z :=
  let* rc := result in
  if negb (rc =? 0) then ret (- ENOMEM)
  else
    let* rc := result in
    if negb (rc =? 0) then ret (- EFAULT)
    else upd_ch i (λ c, set_list l (list_of l c ++ [IMem addr daddr size]) c) ;; ret 0.

Definition ioss_channel_del_mem (i : nat) (l : mem_list) (addr : Z) : W unit :=
  upd_ch i (λ c, set_list l (filter (λ m, m_addr m ≠ addr) (list_of l c)) c).

Definition ioss_channel_map_event (i : nat) : W Z :=
  let* c := get_ch i in
  if negb (ev_daddr (event c) =? 0) then ret (- EEXIST)
  else
    let* rc := result in
    if negb (rc =? 0) then upd_ch i (λ c, c_event (e_map 0 (event c)) c) ;; ret (- EFAULT)
    else upd_ch i (λ c, c_event (e_map (dma_map_resource (ev_paddr (event c))) (event c)) c) ;; ret 0.

Definition ioss_channel_unmap_event (i : nat) : W unit :=
  let* c := get_ch i in
  if ev_daddr (event c) =? 0 then ret tt
  else upd_ch i (λ c, c_event (e_map 0 (event c)) c).
End inlines.

(** ** The network driver's operations

    [struct ioss_driver_ops]: an operation that is not provided is NULL. *)
Class ioss_driver_ops := {
  op_request_channel : option (nat → W Z); op_release_channel : option (nat → W Z);
  op_enable_channel : option (nat → W Z); op_disable_channel : option (nat → W Z);
  op_request_event : option (nat → W Z); op_release_event : option (nat → W Z);
  op_enable_event : option (nat → W Z); op_disable_event : option (nat → W Z) }.

(** [ioss_dev_op]. *)
Definition ioss_dev_op (op : option (nat → W Z)) (i : nat) : W Z :=
  match op with Some f => f i | None => ret (- ENOENT) end.

(** The IPA side of an interface. *)
Class IpaOps := { ioss_ipa_register : W Z; ioss_ipa_unregister : W Z }.
