(* ===== verification/IossOf.v ===== *)
(** * IOSS: the device tree of an interface

    [ioss_of.c]: the channels an interface is made of, read from the device's
    node or built in. It reads the tree the enabler writes: [DeviceTree] has
    the nodes and the allocator, [OfRead] the kernel functions only this side
    calls. *)
From stdpp Require Import base tactics list gmap strings numbers sets.
From Stdlib Require Import ZArith Lia Ascii.
From S2P Require Import Prelude DeviceTree Enabler EnablerSpec IossUtils RtlLib IossData.

(** ** The kernel's readers *)
Class OfRead := {
  of_node_get : dtree → Z → dtree;
  of_property_read_u32 : dtree → Z → string → option Z;      (* [None] is an error *)
  of_count_phandle : dtree → Z → string → Z;                 (* [of_count_phandle_with_args(np, name, NULL)] *)
  of_parse_phandle : dtree → Z → string → Z → option Z * dtree;
  of_node_name_eq : dtree → Z → string → bool;
  of_match_compatible : dtree → Z → string → bool }.

(** What the platform and PCI buses know of a device and of the root. *)
Class OfPlatform := {
  pci_ids_of_dev : option (Z * Z);     (* vendor and device, if it is a PCI device *)
  node_data : Z → option Z;            (* [np->data]: the IOSS root bound to a node *)
  pdev_of_root : Z → Z;                (* [ioss->pdev] *)
  root_pdev : Z }.                     (* [idev->root->pdev] *)

(** [ioss_main.c] *)
Definition ioss_find_dev_from_of_node `{OfPlatform} (np : Z) : option Z := pdev_of_root <$> node_data np.

(** *** Their documented behaviour *)
Fixpoint assoc (name : string) (ws : list (string * list Z)) : option (list Z) :=
  match ws with
  | [] => None
  | (n, v) :: ws' => if String.eqb n name then Some v else assoc name ws'
  end.

(** Cell [i] of a value, big-endian. *)
Definition cell (v : list Z) (i : Z) : option Z :=
  match drop (4 * Z.to_nat i) v with
  | a :: b :: c :: d :: _ => Some (Z.lor (Z.shiftl a 24) (Z.lor (Z.shiftl b 16) (Z.lor (Z.shiftl c 8) d)))
  | _ => None
  end.

(** The NUL-terminated strings of a value. *)
Fixpoint str_list (cur v : list Z) : list (list Z) :=
  match v with
  | [] => []
  | a :: v' => if a =? 0 then cur :: str_list [] v' else str_list (cur ++ [a]) v'
  end.

(** [strcasecmp] of a string with each of a value's is 0 for one of them. *)
Definition to_lower (a : Z) : Z := if (65 <=? a) && (a <=? 90) then a + 32 else a.
Definition compat_among (c : string) (v : list Z) : bool :=
  bool_decide (map to_lower (chars c) ∈ map (map to_lower) (str_list [] v)).

(** The last component of a path, without its unit address. *)
Fixpoint base_name (cur : string) (path : string) : string :=
  match path with
  | EmptyString => cur
  | String a p => if Ascii.eqb a "/"%char then base_name "" p else base_name (cur +:+ String a "") p
  end.
Fixpoint before_at (s : string) : string :=
  match s with
  | EmptyString => ""
  | String a p => if Ascii.eqb a "@"%char then "" else String a (before_at p)
  end.

Definition node_vals (t : dtree) (n : Z) : list (string * list Z) :=
  match dt_nodes t !! n with Some d => vals (d_props d) | None => [] end.

Class OfReadOk `{OfRead} : Prop := {
  ok_get : ∀ t n, dt_nodes (of_node_get t n) = dt_nodes t ∧
    ∀ x, dt_refs (of_node_get t n) x = dt_refs t x + one_if (Some n) x;
  ok_read_u32 : ∀ t n name, of_property_read_u32 t n name =
    (v ← assoc name (node_vals t n); cell v 0);
  ok_count : ∀ t n name, of_count_phandle t n name =
    match assoc name (node_vals t n) with Some v => Z.of_nat (length v / 4) | None => - ENOENT end;
  ok_parse : ∀ t n name i, got t (of_parse_phandle t n name i) ∧
    ∀ m d, (of_parse_phandle t n name i).1 = Some m → dt_nodes t !! m = Some d →
      (v ← assoc name (node_vals t n); cell v i) = Some (d_phandle d);
  (* the reference counts do not matter *)
  ok_parse_nodes : ∀ t t' n name i, dt_nodes t = dt_nodes t' →
    (of_parse_phandle t n name i).1 = (of_parse_phandle t' n name i).1;
  ok_parse_found : ∀ t n name i m d, dt_nodes t !! m = Some d → d_detached d = false → d_phandle d ≠ 0 →
    (v ← assoc name (node_vals t n); cell v i) = Some (d_phandle d) →
    is_Some (of_parse_phandle t n name i).1;
  ok_name_eq : ∀ t n name d, dt_nodes t !! n = Some d →
    of_node_name_eq t n name = String.eqb (before_at (base_name "" (d_full_name d))) name;
  ok_match : ∀ t n c, of_match_compatible t n c =
    match assoc "compatible" (node_vals t n) with
    | Some v => compat_among c v | None => false end }.

(** ** Data *)
(** A channel as the parser leaves it, with its two blocks. *)
Record dt_channel := DtChan {
  dc_direction : ioss_channel_dir; dc_ring_size : Z; dc_buff_size : Z;
  mod_count_min : Z; mod_count_max : Z; mod_usecs_min : Z; dc_mod_usecs_max : Z;
  dc_filter_types : Z; dc_blk : Z; dc_priv : Z }.

Record ofst := Ofst {
  of_d : dts; of_channels : list dt_channel; instance_id : Z; ioss_priv : option Z; of_wolopts : Z }.

Abbreviation N := (M ofst).

(** The channel the rest of the driver works on; [kzalloc] clears what the
    parser does not set. *)
Definition to_channel (c : dt_channel) : ioss_channel :=
  Chan (ChConfig (dc_ring_size c) (dc_buff_size c) ioss_default_alctr ioss_default_alctr)
    (ChConfig 0 0 ioss_default_alctr ioss_default_alctr)
    (dc_direction c) (dc_filter_types c) (ChEvent 0 0 0 (dc_mod_usecs_max c) false false)
    0 [] [] None false false false no_pipe.

Definition on_d {A} (m : D A) : N A := λ s,
  match m (of_d s) with
  | Some (a, d) => Some (a, Ofst d (of_channels s) (instance_id s) (ioss_priv s) (of_wolopts s))
  | None => None
  end.
Definition s_channels (l : list dt_channel) (s : ofst) : ofst :=
  Ofst (of_d s) l (instance_id s) (ioss_priv s) (of_wolopts s).
Definition s_instance (z : Z) (s : ofst) : ofst :=
  Ofst (of_d s) (of_channels s) z (ioss_priv s) (of_wolopts s).
Definition s_priv (p : option Z) (s : ofst) : ofst :=
  Ofst (of_d s) (of_channels s) (instance_id s) p (of_wolopts s).
Definition s_wol (z : Z) (s : ofst) : ofst :=
  Ofst (of_d s) (of_channels s) (instance_id s) (ioss_priv s) z.

Definition IOSS_R8125_PCI_DEVICE_ID : Z := 0x8125.
Definition PCI_VENDOR_ID_REALTEK : Z := 0x10ec.
Definition IOSS_R8125_INSTANCE_ID : Z := 0.
Definition IOSS_R8125_RX_RING_SIZE : Z := 1023.
Definition IOSS_R8125_TX_RING_SIZE : Z := 1024.
Definition IOSS_R8125_BUFFER_SIZE : Z := 2048.
Definition IOSS_R8125_MOD_COUNT_MIN : Z := 32.
Definition IOSS_R8125_MOD_COUNT_MAX : Z := 64.
Definition IOSS_R8125_MOD_USECS_MIN : Z := 30.
Definition IOSS_R8125_MOD_USECS_MAX : Z := 60.
Definition WAKE_PHY : Z := 1.
Definition WAKE_MAGIC : Z := 32.

Section dt.
Context `{OfApi} `{OfRead} `{OfPlatform}.

(** [kfree] of a pointer that may be NULL. *)
Definition kfree_opt (p : option Z) : N unit :=
  match p with Some b => on_d (kfree b) | None => ret tt end.

Fixpoint free_list (l : list dt_channel) : N unit :=
  match l with
  | [] => ret tt
  | c :: l' =>
      modify (s_channels l') ;;
      on_d (kfree (dc_priv c)) ;; on_d (kfree (dc_blk c)) ;; free_list l'
  end.
Definition ioss_of_free_channels : N unit :=
  let* l := gets of_channels in free_list l.

(** The two blocks of a channel, or none. *)
Definition alloc_channel : N (option (Z * Z)) :=
  let* ch := on_d kalloc in
  match ch with
  | None => ret None
  | Some ch =>
      let* priv := on_d kalloc in
      match priv with
      | None => on_d (kfree ch) ;; ret None
      | Some priv => ret (Some (ch, priv))
      end
  end.

Definition add_channel (c : dt_channel) : N unit := modify (λ s, s_channels (of_channels s ++ [c]) s).

(** ** The built-in configuration *)
Definition ioss_of_add_fallback_channel (direction : ioss_channel_dir) : N Z :=
  let* blks := alloc_channel in
  match blks with
  | None => ret (- ENOMEM)
  | Some (ch, priv) =>
      add_channel (DtChan direction
        (match direction with IOSS_CH_DIR_RX => IOSS_R8125_RX_RING_SIZE | IOSS_CH_DIR_TX => IOSS_R8125_TX_RING_SIZE end)
        IOSS_R8125_BUFFER_SIZE IOSS_R8125_MOD_COUNT_MIN IOSS_R8125_MOD_COUNT_MAX
        IOSS_R8125_MOD_USECS_MIN IOSS_R8125_MOD_USECS_MAX
        (match direction with IOSS_CH_DIR_RX => IOSS_RXF_F_IP | IOSS_CH_DIR_TX => 0 end) ch priv) ;;
      ret 0
  end.

(** The common error path: no channels, no private block. *)
Definition drop_interface : N unit :=
  ioss_of_free_channels ;;
  let* p := gets ioss_priv in
  kfree_opt p ;; modify (s_priv None).

Definition ioss_of_parse_r8125_fallback : N Z :=
  let* p := on_d kalloc in
  modify (s_priv p) ;;
  match p with
  | None => ret (- ENOMEM)
  | Some _ =>
      modify (s_instance IOSS_R8125_INSTANCE_ID) ;;
      let* rc := ioss_of_add_fallback_channel IOSS_CH_DIR_RX in
      if negb (rc =? 0) then drop_interface ;; ret rc
      else
        let* rc := ioss_of_add_fallback_channel IOSS_CH_DIR_TX in
        if negb (rc =? 0) then drop_interface ;; ret rc
        else ret 0
  end.

Definition ioss_is_r8125_pci_dev : bool :=
  match pci_ids_of_dev with
  | Some (v, d) => (v =? PCI_VENDOR_ID_REALTEK) && (d =? IOSS_R8125_PCI_DEVICE_ID)
  | None => false
  end.

(** ** One channel *)
Definition find_prop (np : Z) (name : string) : N bool :=
  let* s := gets of_d in ret (of_find_property (tree s) np name).
Definition read_u32 (np : Z) (name : string) : N (option Z) :=
  let* s := gets of_d in ret (of_property_read_u32 (tree s) np name).

(** The keys in order, up to the first that cannot be read. *)
Fixpoint read_keys (np : Z) (keys : list string) : N (option (list Z)) :=
  match keys with
  | [] => ret (Some [])
  | k :: keys' =>
      let* v := read_u32 np k in
      match v with
      | None => ret None
      | Some v => let* r := read_keys np keys' in ret ((λ l, v :: l) <$> r)
      end
  end.
Definition channel_keys : list string :=
  ["qcom,ring-size"; "qcom,buff-size"; "qcom,mod-count-min"; "qcom,mod-count-max";
   "qcom,mod-usecs-min"; "qcom,mod-usecs-max"]%string.

Definition ioss_of_parse_channel (np : option Z) : N Z :=
  let* blks := alloc_channel in
  match blks with
  | None => ret (- ENOMEM)
  | Some (ch, priv) =>
      let err := on_d (kfree priv) ;; on_d (kfree ch) ;; ret (- EINVAL) in
      match np with
      | None => err
      | Some np =>
          let* rx := find_prop np "qcom,dir-rx" in
          let* tx := (if rx : bool then ret false else find_prop np "qcom,dir-tx") in
          if negb (rx || tx) then err
          else
            let* keys := read_keys np channel_keys in
            match keys with
            | Some [ring; buff; cmin; cmax; umin; umax] =>
                let* be := find_prop np "qcom,rx-filter-be" in
                let* ip := find_prop np "qcom,rx-filter-ip" in
                add_channel (DtChan (if rx : bool then IOSS_CH_DIR_RX else IOSS_CH_DIR_TX) ring buff
                  cmin cmax umin umax
                  (Z.lor (if be : bool then IOSS_RXF_F_BE else 0) (if ip : bool then IOSS_RXF_F_IP else 0))
                  ch priv) ;;
                ret 0
            | _ => err
            end
      end
  end.

(** ** Finding a channel node among the children *)
Definition is_channel_name (name : string) : bool := String.prefix "channel-" name.

(** The first child that satisfies the test, with the references of the walk;
    it is got once more on return. *)
Fixpoint child_loop (fuel : nat) (np : Z) (child : option Z) (seen : Z)
    (test : Z → Z → N (bool * Z)) : N (option Z) :=
  match fuel with
  | O => ub
  | S f =>
      match child with
      | None => ret None
      | Some c =>
          let* '(stop, seen) := test c seen in
          if stop : bool then on_d (of_call (λ t, (tt, of_node_get t c))) ;; ret (Some c)
          else
            let* next := on_d (of_call (λ t, of_get_next_child t np (Some c))) in
            child_loop f np next seen test
      end
  end.
Definition each_child (np : Z) (test : Z → Z → N (bool * Z)) : N (option Z) :=
  let* s := gets of_d in
  let* child := on_d (of_call (λ t, of_get_next_child t np None)) in
  child_loop (S (S (size (dt_nodes (tree s))))) np child 0 test.

Definition name_test (name : string) (c seen : Z) : N (bool * Z) :=
  let* s := gets of_d in ret (of_node_name_eq (tree s) c name, seen).
Definition order_test (index c seen : Z) : N (bool * Z) :=
  let* d := on_d (deref c) in
  ret (if negb (is_channel_name (d_name d)) then (false, seen)
       else if seen =? index then (true, seen) else (false, seen + 1)).

Definition ioss_of_find_fallback_channel (np : option Z) (index : Z) : N (option Z) :=
  match np with
  | None => ret None
  | Some np =>
      let name := if index =? 0 then Some "channel-rx"%string
                  else if index =? 1 then Some "channel-tx"%string else None in
      let* found := (match name with Some name => each_child np (name_test name) | None => ret None end) in
      match found with
      | Some c => ret (Some c)
      | None => each_child np (order_test index)
      end
  end.

(** ** The node of a device *)
Definition node_put (n : Z) : N unit := on_d (put (Some n)).

(** One turn of the loop over the channels. *)
Definition parse_nth (np i : Z) : N Z :=
  let* n := on_d (of_call (λ t, of_parse_phandle t np "qcom,ioss_channels" i)) in
  let* n := (match n with
    | None => ret None
    | Some n =>
        let* d := on_d (deref n) in
        if negb (is_channel_name (d_name d)) then node_put n ;; ret None else ret (Some n)
    end) in
  let* fallback := (match n with Some _ => ret None | None => ioss_of_find_fallback_channel (Some np) i end) in
  let n := match n with Some n => Some n | None => fallback end in
  match n with
  | None => ret (- EINVAL)
  | Some n =>
      let* rc := ioss_of_parse_channel (Some n) in
      if rc =? 0 then node_put n ;; ret 0
      else
        match fallback with
        | Some _ => node_put n ;; ret (- EINVAL)
        | None =>
            let* fallback := ioss_of_find_fallback_channel (Some np) i in
            match fallback with
            | Some fb =>
                if negb (fb =? n) then
                  node_put n ;;
                  let* rc := ioss_of_parse_channel (Some fb) in
                  node_put fb ;; ret (if rc =? 0 then 0 else - EINVAL)
                else node_put n ;; ret (- EINVAL)
            | None => node_put n ;; ret (- EINVAL)
            end
        end
  end.

Fixpoint parse_from (np : Z) (i : Z) (count : nat) : N Z :=
  match count with
  | O => ret 0
  | S count' =>
      let* rc := parse_nth np i in
      if rc =? 0 then parse_from np (i + 1) count' else ret rc
  end.

Definition set_wol (np : Z) (name : string) (bit : Z) : N unit :=
  let* b := find_prop np name in
  if b : bool then modify (λ s, s_wol (Z.lor (of_wolopts s) bit) s) else ret tt.

Definition ioss_of_parse_v2 (np : Z) : N Z :=
  let* p := on_d kalloc in
  modify (s_priv p) ;;
  match p with
  | None => ret (- ENOMEM)
  | Some _ =>
      let err := drop_interface ;; ret (- EINVAL) in
      let* inst := read_u32 np "qcom,ioss_instance" in
      match inst with
      | None => err
      | Some inst =>
          modify (s_instance inst) ;;
          let* s := gets of_d in
          let count := of_count_phandle (tree s) np "qcom,ioss_channels" in
          if count <? 0 then err
          else
            let* rc := parse_from np 0 (Z.to_nat count) in
            if negb (rc =? 0) then err
            else
              set_wol np "qcom,ioss-wol-phy" WAKE_PHY ;;
              set_wol np "qcom,ioss-wol-magic" WAKE_MAGIC ;;
              ret 0
      end
  end.

Definition ioss_of_parse_node (np : Z) : N Z :=
  let* s := gets of_d in
  if of_match_compatible (tree s) np "qcom,ioss-v2-device" then ioss_of_parse_v2 np
  else ret (- EINVAL).

(** The reference on the root node is not put. *)
Definition ioss_of_parse (np : option Z) : N Z :=
  let fallback rc := if ioss_is_r8125_pci_dev then ioss_of_parse_r8125_fallback else ret rc in
  match np with
  | None => fallback (- EINVAL)
  | Some np =>
      let* of_root := on_d (of_call (λ t, of_parse_phandle t np "qcom,ioss" 0)) in
      match of_root with
      | None => fallback (- ENOENT)
      | Some of_root =>
          match ioss_find_dev_from_of_node of_root with
          | None => ret (- EFAULT)
          | Some pdev =>
              if negb (root_pdev =? pdev) then ret (- ENOENT)
              else
                let* rc := ioss_of_parse_node np in
                if rc =? 0 then ret 0 else fallback rc
          end
      end
  end.
End dt.
