(* ===== verification/IossOfSpec.v ===== *)
(** * IOSS: the device tree of an interface, correctness

    What the parser reads is a function of the tree, every block it allocates
    is owned by the interface or freed, and the nodes the enabler attaches are
    not what it looks for. *)
From stdpp Require Import base tactics list gmap strings numbers sets.
From Stdlib Require Import ZArith Lia Ascii.
From S2P Require Import Prelude DeviceTree Enabler EnablerSpec EnablerAttach IossUtils RtlLib IossData IossOf.

(** ** What is read *)
Record ch_cfg := ChCfg {
  cf_direction : ioss_channel_dir; cf_numbers : list Z; cf_filters : Z }.
Definition cfg_of (c : dt_channel) : ch_cfg :=
  ChCfg (dc_direction c) [dc_ring_size c; dc_buff_size c; mod_count_min c; mod_count_max c;
    mod_usecs_min c; dc_mod_usecs_max c] (dc_filter_types c).
Record iface_cfg := IfaceCfg { ic_instance : Z; ic_channels : list ch_cfg; ic_wol : Z }.

Definition has (name : string) (ws : list (string * list Z)) : bool := bool_decide (is_Some (assoc name ws)).
Definition num (ws : list (string * list Z)) (name : string) : option Z := v ← assoc name ws; cell v 0.
Definition bits (b : bool) (z : Z) : Z := if b then z else 0.

(** The channel of a node's properties. *)
Definition chan_of (ws : list (string * list Z)) : option ch_cfg :=
  dir ← (if has "qcom,dir-rx" ws then Some IOSS_CH_DIR_RX
         else if has "qcom,dir-tx" ws then Some IOSS_CH_DIR_TX else None);
  ks ← mapM (num ws) channel_keys;
  Some (ChCfg dir ks (Z.lor (bits (has "qcom,rx-filter-be" ws) IOSS_RXF_F_BE)
                            (bits (has "qcom,rx-filter-ip" ws) IOSS_RXF_F_IP))).

Definition built_in : iface_cfg :=
  IfaceCfg 0 [ChCfg IOSS_CH_DIR_RX [1023; 2048; 32; 64; 30; 60] IOSS_RXF_F_IP;
              ChCfg IOSS_CH_DIR_TX [1024; 2048; 32; 64; 30; 60] 0] 0.

(** The node at an index among children [l]: by name, else by order among the
    channels. *)
Definition name_is (ns : gmap Z device_node) (name : string) (c : Z) : bool :=
  match ns !! c with Some d => String.eqb (before_at (base_name "" (d_full_name d))) name | None => false end.
Definition chan_named (ns : gmap Z device_node) (c : Z) : bool :=
  match ns !! c with Some d => is_channel_name (d_name d) | None => false end.
Definition index_name (i : Z) : option string :=
  if i =? 0 then Some "channel-rx"%string else if i =? 1 then Some "channel-tx"%string else None.
Definition fallback_of (ns : gmap Z device_node) (l : list Z) (i : Z) : option Z :=
  match (name ← index_name i; head (base.filter (λ c, name_is ns name c = true) l)) with
  | Some c => Some c
  | None => base.filter (λ c, chan_named ns c = true) l !! Z.to_nat i
  end.

Lemma assoc_names name ps : is_Some (assoc name (vals ps)) ↔ name ∈ prop_names ps.
Proof.
  unfold vals, prop_names. induction ps as [|p ps IH]; simpl.
  - split; [intros [? [=]]|intros ?%not_elem_of_nil; done].
  - rewrite elem_of_cons. destruct (String.eqb_spec (p_name p) name) as [->|Hne].
    + split; [by left|]. eauto.
    + rewrite IH. split; [by right|]. intros [->|?]; done.
Qed.

Section expected.
Context `{OfApi} `{OfRead} `{OfPlatform}.

Definition node_chan (t : dtree) (n : Z) : option ch_cfg := chan_of (node_vals t n).

(** The phandle's target, if it is a channel, else the child at the index. *)
Definition target_of (t : dtree) (np i : Z) : option Z :=
  n ← (of_parse_phandle t np "qcom,ioss_channels" i).1;
  if chan_named (dt_nodes t) n then Some n else None.
Definition nth_cfg (t : dtree) (np : Z) (l : list Z) (i : Z) : option ch_cfg :=
  match (target_of t np i ≫= node_chan t) with
  | Some c => Some c
  | None => fallback_of (dt_nodes t) l i ≫= node_chan t
  end.

Definition dt_cfg (t : dtree) (np : Z) (l : list Z) : option iface_cfg :=
  if negb (of_match_compatible t np "qcom,ioss-v2-device") then None else
  inst ← num (node_vals t np) "qcom,ioss_instance";
  v ← assoc "qcom,ioss_channels" (node_vals t np);
  cs ← mapM (nth_cfg t np l) (seqZ 0 (Z.of_nat (length v / 4)));
  Some (IfaceCfg inst cs (Z.lor (bits (has "qcom,ioss-wol-phy" (node_vals t np)) WAKE_PHY)
                                (bits (has "qcom,ioss-wol-magic" (node_vals t np)) WAKE_MAGIC))).

(** What is parsed: an error or a configuration. *)
Definition or_built_in (rc : Z) : Z + iface_cfg := if ioss_is_r8125_pci_dev then inr built_in else inl rc.
Definition expected (t : dtree) (np : option Z) (l : list Z) : Z + iface_cfg :=
  match np with
  | None => or_built_in (- EINVAL)
  | Some np =>
      match (of_parse_phandle t np "qcom,ioss" 0).1 with
      | None => or_built_in (- ENOENT)
      | Some root =>
          match ioss_find_dev_from_of_node root with
          | None => inl (- EFAULT)
          | Some pdev =>
              if root_pdev =? pdev
              then match dt_cfg t np l with Some c => inr c | None => or_built_in (- EINVAL) end
              else inl (- ENOENT)
          end
      end
  end.
End expected.

Section spec.
Context `{OfOk} `{!OfRead} `{!OfReadOk} `{OfPlatform}.

(** ** Blocks *)
Definition chan_blocks (l : list dt_channel) : list Z := l ≫= (λ c, [dc_priv c; dc_blk c]).
Definition owned (s : ofst) : list Z :=
  match ioss_priv s with Some p => [p] | None => [] end ++ chan_blocks (of_channels s).

(** Besides what was live before, the blocks of the interface and those in
    hand are live, each once; the tree's nodes do not change. *)
Record holding (extra : list Z) (d0 : dts) (s : ofst) : Prop := Holding {
  ho_heap : heap_ok (of_d s);
  ho_live : ∀ b, b ∈ live (of_d s) ↔ b ∈ extra ++ owned s ∨ b ∈ live d0;
  ho_nodup : NoDup (extra ++ owned s);
  ho_fresh : ∀ b, b ∈ extra ++ owned s → b ∉ live d0;
  ho_nodes : dt_nodes (tree (of_d s)) = dt_nodes (tree d0) }.
Abbreviation accounts := (holding []).

Definition with_d (d : dts) (s : ofst) : ofst := Ofst d (of_channels s) (instance_id s) (ioss_priv s) (of_wolopts s).

(** Channels are added; allocations succeed as long as none is set to fail. *)
Record moved (l : list dt_channel) (s s' : ofst) : Prop := Moved {
  mv_channels : of_channels s' = of_channels s ++ l;
  mv_instance : instance_id s' = instance_id s;
  mv_priv : ioss_priv s' = ioss_priv s;
  mv_wol : of_wolopts s' = of_wolopts s;
  mv_lucky : fails (of_d s) = [] → fails (of_d s') = [] }.

Lemma moved_refl s : moved [] s s.
Proof. split; try done. by rewrite app_nil_r. Qed.
Lemma moved_trans l1 l2 s1 s2 s3 : moved l1 s1 s2 → moved l2 s2 s3 → moved (l1 ++ l2) s1 s3.
Proof. intros [] []. split; try congruence; [|tauto]. rewrite app_assoc. congruence. Qed.
Lemma moved_trans0 l s1 s2 s3 : moved [] s1 s2 → moved l s2 s3 → moved l s1 s3.
Proof. apply (moved_trans [] l). Qed.
Lemma moved_trans1 l s1 s2 s3 : moved l s1 s2 → moved [] s2 s3 → moved l s1 s3.
Proof. intros Ha Hb. rewrite <- (app_nil_r l). by eapply moved_trans. Qed.
Lemma moved_d d s : (fails (of_d s) = [] → fails d = []) → moved [] s (with_d d s).
Proof. intros Hf. split; try done. by rewrite app_nil_r. Qed.

Lemma holding_perm extra extra' d0 s s' : of_d s' = of_d s → extra ++ owned s ≡ₚ extra' ++ owned s' →
  holding extra d0 s → holding extra' d0 s'.
Proof.
  intros Ed Hp [Hh Hl Hn Hf Ht]. split; rewrite ?Ed; try done.
  - intros b. rewrite <- Hp. apply Hl.
  - by rewrite <- Hp.
  - intros b. rewrite <- Hp. apply Hf.
Qed.

(** The blocks do not depend on the numbers. *)
Lemma holding_instance extra d0 z s : holding extra d0 s → holding extra d0 (s_instance z s).
Proof. by intros []. Qed.
Lemma holding_wol extra d0 z s : holding extra d0 s → holding extra d0 (s_wol z s).
Proof. by intros []. Qed.

Lemma on_d_wp {A} (m : D A) (Q : A → ofst → Prop) s :
  wp m (λ a d, Q a (with_d d s)) (of_d s) → wp (on_d m) Q s.
Proof. unfold wp, on_d. destruct (m (of_d s)) as [[a d]|]; done. Qed.

Lemma kalloc_wp' extra d0 s : holding extra d0 s →
  wp (on_d kalloc) (λ o s', ∃ d, s' = with_d d s ∧ moved [] s s' ∧
    match o with
    | Some b => holding (b :: extra) d0 s'
    | None => holding extra d0 s' ∧ fails (of_d s) ≠ []
    end) s.
Proof.
  intros [Hh Hl Hn Hf Ht]. apply on_d_wp, wp_kalloc; [done|..].
  - intros d (Et & _) Hd El En Hne. exists d. split_and!; try done; [by apply moved_d|].
    split; simpl; try done; [|by rewrite Et]. intros b. rewrite El. apply Hl.
  - intros b d (Et & _) Hd -> En Hb El Ef. exists d. split; [done|].
    split; [apply moved_d; intros E; by rewrite Ef, E|].
    assert (nextb (of_d s) ∉ extra ++ owned s) as Hne by (intros Hx; apply Hb, Hl; by left).
    assert (nextb (of_d s) ∉ live d0) as Hn0 by (intros Hx; apply Hb, Hl; by right).
    split; simpl; [done| | | |by rewrite Et].
    + intros x. rewrite El, elem_of_union, elem_of_singleton, elem_of_cons, Hl. tauto.
    + by constructor.
    + intros x [->|Hx]%elem_of_cons; [done|by apply Hf].
Qed.

(** [s1]: the state with the block in hand. *)
Lemma kfree_wp' b extra d0 s s1 : holding (b :: extra) d0 s1 → of_d s = of_d s1 →
  wp (on_d (kfree b)) (λ _ s', ∃ d, s' = with_d d s ∧ moved [] s s' ∧ holding extra d0 (with_d d s1)) s.
Proof.
  intros [Hh Hl Hn Hf Ht] Ed. apply on_d_wp. rewrite Ed. apply wp_kfree.
  { apply Hl. left. simpl. by left. }
  intros d (Et & _) El En Ef. exists d. split; [done|].
  split; [apply moved_d; rewrite Ed; congruence|].
  simpl in Hn. apply NoDup_cons in Hn as [Hb Hn'].
  split; simpl; [| |done| |by rewrite Et].
  - intros x. rewrite El, En, elem_of_difference. intros [Hx _]. by apply Hh.
  - intros x. rewrite El, elem_of_difference, elem_of_singleton, Hl. simpl. rewrite elem_of_cons.
    split; [tauto|]. intros [Hx|Hx]; (split; [tauto|]); intros ->; [done|].
    apply (Hf b); [simpl; by left|done].
  - intros x Hx. apply Hf. simpl. by right.
Qed.

Lemma alloc_channel_wp d0 s : accounts d0 s →
  wp alloc_channel (λ o s', ∃ d, s' = with_d d s ∧ moved [] s s' ∧
    match o with
    | Some (ch, priv) => holding [priv; ch] d0 s'
    | None => accounts d0 s' ∧ fails (of_d s) ≠ []
    end) s.
Proof.
  intros Ha. unfold alloc_channel. apply wp_bind. eapply wp_mono; [by apply kalloc_wp'|].
  intros [ch|] s1 (d1 & -> & M1 & P1).
  2:{ apply wp_ret. eauto. }
  apply wp_bind. eapply wp_mono; [by apply kalloc_wp'|]. intros [priv|] s2 (d2 & -> & M2 & P2).
  { apply wp_ret. exists d2. split; [done|]. split; [by eapply moved_trans0|done]. }
  destruct P2 as [P2 F2]. apply wp_bind. eapply wp_mono; [by eapply kfree_wp'|].
  intros _ s3 (d3 & -> & M3 & P3). apply wp_ret. exists d3. split; [done|].
  split; [eapply moved_trans0, moved_trans0; done|]. split; [done|].
  intros E. by apply F2, (mv_lucky _ _ _ M1).
Qed.

Lemma add_channel_holding c d0 s : holding [dc_priv c; dc_blk c] d0 s →
  accounts d0 (s_channels (of_channels s ++ [c]) s).
Proof.
  apply holding_perm; [done|]. unfold owned, chan_blocks. simpl. rewrite bind_app. simpl.
  solve_Permutation.
Qed.

Lemma add_channel_moved c s : moved [c] s (s_channels (of_channels s ++ [c]) s).
Proof. done. Qed.

Lemma free_list_wp l d0 s : of_channels s = l → accounts d0 s →
  wp (free_list l) (λ _ s', ∃ d, s' = s_channels [] (with_d d s) ∧ moved [] (s_channels [] s) s' ∧ accounts d0 s') s.
Proof.
  revert s. induction l as [|c l IH]; intros s Hl Ha; simpl.
  { apply wp_ret. exists (of_d s). destruct s; simpl in *; subst. split; [done|]. by split; [apply moved_refl|]. }
  apply wp_bind, wp_modify.
  assert (holding [dc_priv c; dc_blk c] d0 (s_channels l s)) as B1.
  { eapply holding_perm; [..|exact Ha]; [done|]. unfold owned, chan_blocks. rewrite Hl. simpl. solve_Permutation. }
  apply wp_bind. eapply wp_mono; [by eapply kfree_wp'|]. intros [] s1 (d1 & -> & M1 & B2).
  apply wp_bind. eapply wp_mono; [by eapply kfree_wp'|]. intros [] s2 (d2 & -> & M2 & B3).
  eapply wp_mono; [by apply IH|]. intros _ s3 (d3 & -> & M3 & B4). exists d3. split; [done|].
  split; [|done]. destruct M1 as [_ _ _ _ L1], M2 as [_ _ _ _ L2], M3 as [_ _ _ _ L3]. split; simpl in *; auto.
Qed.

(** The error path leaves nothing. *)
Lemma drop_interface_wp d0 s : accounts d0 s →
  wp drop_interface (λ _ s', accounts d0 s' ∧ of_channels s' = [] ∧ ioss_priv s' = None ∧
    of_wolopts s' = of_wolopts s ∧ (fails (of_d s) = [] → fails (of_d s') = [])) s.
Proof.
  intros Ha. unfold drop_interface, ioss_of_free_channels. wp_steps.
  eapply wp_mono; [by apply free_list_wp|]. intros _ s1 (d1 & -> & M1 & B1). simpl in *. wp_steps.
  assert (wp (kfree_opt (ioss_priv s)) (λ _ s', ∃ d, s' = with_d d (s_channels [] s) ∧
    (fails d1 = [] → fails d = []) ∧ accounts d0 (s_priv None s')) (s_channels [] (with_d d1 s))) as Hk.
  { unfold kfree_opt. simpl. destruct (ioss_priv s) as [p|] eqn:E.
    - eapply wp_mono; [apply (kfree_wp' p [] d0 _ (s_priv None (s_channels [] (with_d d1 s)))); [|done]|].
      + eapply holding_perm; [..|exact B1]; [done|]. unfold owned. simpl. by rewrite E.
      + intros [] s2 (d2 & -> & M2 & B2). exists d2. split; [done|]. split; [apply (mv_lucky _ _ _ M2)|done].
    - apply wp_ret. exists d1. split; [done|]. split; [done|].
      eapply holding_perm; [..|exact B1]; [done|]. unfold owned. simpl. by rewrite E. }
  simpl in *. eapply wp_mono; [exact Hk|]. intros [] s2 (d2 & -> & L2 & B2). wp_steps.
  split_and!; try done. simpl. intros E. apply L2, (mv_lucky _ _ _ M1). done.
Qed.

(** ** Reading a channel *)
Lemma holding_some d0 extra s n : holding extra d0 s → is_Some (dt_nodes (tree d0) !! n) →
  is_Some (dt_nodes (tree (of_d s)) !! n).
Proof. intros Hh. by rewrite (ho_nodes _ _ _ Hh). Qed.

Lemma node_vals_eq t t' n : dt_nodes t = dt_nodes t' → node_vals t n = node_vals t' n.
Proof. unfold node_vals. by intros ->. Qed.

Lemma find_prop_wp np name (Q : bool → ofst → Prop) s : is_Some (dt_nodes (tree (of_d s)) !! np) →
  Q (has name (node_vals (tree (of_d s)) np)) s → wp (find_prop np name) Q s.
Proof.
  intros [d E] HQ. unfold find_prop. wp_steps. rewrite (ok_find_property _ _ _ _ E).
  unfold node_vals, has in HQ. rewrite E in HQ. erewrite bool_decide_ext; [exact HQ|]. symmetry. apply assoc_names.
Qed.

Lemma read_u32_wp np name (Q : option Z → ofst → Prop) s :
  Q (num (node_vals (tree (of_d s)) np) name) s → wp (read_u32 np name) Q s.
Proof. intros HQ. unfold read_u32. wp_steps. by rewrite ok_read_u32. Qed.

Lemma read_keys_wp np keys (Q : option (list Z) → ofst → Prop) s :
  Q (mapM (num (node_vals (tree (of_d s)) np)) keys) s → wp (read_keys np keys) Q s.
Proof.
  revert Q. induction keys as [|k keys IH]; intros Q HQ; cbn [read_keys]; [by apply wp_ret|].
  apply wp_bind, read_u32_wp. simpl in HQ. destruct (num _ k) as [v|]; [|by apply wp_ret].
  apply wp_bind, IH, wp_ret. simpl in HQ. by destruct (mapM _ keys).
Qed.

Lemma mapM_6 {A} (f : string → option A) k1 k2 k3 k4 k5 k6 r : mapM f [k1; k2; k3; k4; k5; k6] = Some r →
  ∃ a b c d e g, r = [a; b; c; d; e; g].
Proof. intros E%mapM_Some_1%Forall2_length. simpl in E. do 7 (destruct r as [|? r]; simpl in E; try lia). eauto 10. Qed.

(** What a channel's parser leaves. *)
Definition channel_post (d0 : dts) (n : Z) (s : ofst) (rc : Z) (s' : ofst) : Prop :=
  accounts d0 s' ∧ ∃ l, moved l s s' ∧
  ((rc = 0 ∧ cfg_of <$> l = option_list (node_chan (tree d0) n) ∧ l ≠ []) ∨
   (rc < 0 ∧ l = [] ∧ (fails (of_d s) = [] → node_chan (tree d0) n = None))).

Lemma parse_channel_wp d0 n s : accounts d0 s → is_Some (dt_nodes (tree d0) !! n) →
  wp (ioss_of_parse_channel (Some n)) (channel_post d0 n s) s.
Proof.
  intros Ha Hn. unfold ioss_of_parse_channel. apply wp_bind. eapply wp_mono; [by apply alloc_channel_wp|].
  intros [[ch priv]|] s1 (d1 & -> & M1 & P1).
  2:{ apply wp_ret. destruct P1 as [P1 F1]. split; [done|]. exists []. split; [done|]. right. done. }
  assert (node_vals (tree d1) n = node_vals (tree d0) n) as Ev by apply node_vals_eq, (ho_nodes _ _ _ P1).
  assert (is_Some (dt_nodes (tree d1) !! n)) as Hn1 by by apply (holding_some _ _ _ _ P1).
  assert (node_chan (tree d0) n = None →
    wp (on_d (kfree priv) ;; on_d (kfree ch) ;; ret (- EINVAL)) (channel_post d0 n s) (with_d d1 s)) as Herr.
  { intros En. apply wp_bind. eapply wp_mono; [by eapply kfree_wp'|]. intros [] s2 (d2 & -> & M2 & B2).
    apply wp_bind. eapply wp_mono; [by eapply kfree_wp'|]. intros [] s3 (d3 & -> & M3 & B3).
    apply wp_ret. split; [done|]. exists []. split; [do 2 (eapply moved_trans0; [done|]); done|]. right. done. }
  revert Herr. unfold node_chan, chan_of. intros Herr.
  apply wp_bind, find_prop_wp; [done|]. cbn [of_d with_d]. rewrite ?Ev. apply wp_bind.
  set (rx := has "qcom,dir-rx" (node_vals (tree d0) n)) in *.
  set (tx := has "qcom,dir-tx" (node_vals (tree d0) n)) in *.
  assert (∀ (Q : bool → ofst → Prop), Q (if rx then false else tx) (with_d d1 s) →
    wp (if rx then ret false else find_prop n "qcom,dir-tx") Q (with_d d1 s)) as Htx.
  { intros Q HQ. destruct rx; [by apply wp_ret|]. apply find_prop_wp; [done|]. simpl. by rewrite Ev. }
  apply Htx. destruct (negb (rx || (if rx then false else tx))) eqn:Eno.
  { apply Herr. by destruct rx, tx. }
  apply wp_bind, read_keys_wp. cbn [of_d with_d]. rewrite ?Ev. destruct (mapM _ channel_keys) as [ks|] eqn:Ek.
  2:{ apply Herr. by destruct rx, tx. }
  destruct (mapM_6 _ _ _ _ _ _ _ _ Ek) as (a & b & c & d & e & g & ->).
  apply wp_bind, find_prop_wp; [done|]. apply wp_bind, find_prop_wp; [done|]. cbn [of_d with_d]. rewrite ?Ev.
  unfold add_channel. wp_steps. split.
  { eapply holding_perm; [..|exact P1]; [done|]. unfold owned, chan_blocks. simpl. rewrite bind_app. simpl.
    solve_Permutation. }
  eexists [_]. split; [eapply moved_trans0; [exact M1|done]|]. left. split_and!; [done| |done].
  unfold node_chan, chan_of. fold rx tx. rewrite Ek. by destruct rx, tx.
Qed.

(** ** Finding a channel *)
(** Only reference counts move. *)
Definition only_refs (s s' : ofst) : Prop :=
  ∃ t, s' = with_d (set_tree (of_d s) t) s ∧ dt_nodes t = dt_nodes (tree (of_d s)).

Lemma only_refs_refl s : only_refs s s.
Proof. exists (tree (of_d s)). by destruct s as [[]]. Qed.
Lemma only_refs_trans s1 s2 s3 : only_refs s1 s2 → only_refs s2 s3 → only_refs s1 s3.
Proof. intros (t & -> & E) (t' & -> & E'). exists t'. split; [done|]. by rewrite E'. Qed.
Lemma only_refs_moved s s' : only_refs s s' → moved [] s s'.
Proof. intros (t & -> & E). by apply moved_d. Qed.
Lemma only_refs_holding extra d0 s s' : only_refs s s' → holding extra d0 s → holding extra d0 s'.
Proof. intros (t & -> & E) [Hh Hl Hn Hf Ht]. split; try done. simpl. by rewrite E. Qed.
Lemma only_refs_nodes s s' : only_refs s s' → dt_nodes (tree (of_d s')) = dt_nodes (tree (of_d s)).
Proof. by intros (t & -> & E). Qed.

Lemma of_call_wp {A} (f : dtree → A * dtree) (Q : A → ofst → Prop) s :
  dt_nodes (f (tree (of_d s))).2 = dt_nodes (tree (of_d s)) →
  (∀ s', only_refs s s' → Q (f (tree (of_d s))).1 s') → wp (on_d (of_call f)) Q s.
Proof. intros E HQ. apply on_d_wp, wp_of_call, HQ. eexists. split; [done|exact E]. Qed.

Lemma node_put_wp n (Q : unit → ofst → Prop) s : (∀ s', only_refs s s' → Q tt s') → wp (node_put n) Q s.
Proof.
  intros HQ. unfold node_put, put. apply of_call_wp; [|done]. apply (ok_put (tree (of_d s)) (Some n)).
Qed.

(** The walk: the first child the test stops at. *)
Fixpoint scan (p : Z → Z → bool * Z) (l : list Z) (seen : Z) : option Z :=
  match l with
  | [] => None
  | c :: l' => let '(stop, seen') := p c seen in if stop then Some c else scan p l' seen'
  end.

(** A test that reads only nodes. *)
Definition tests (ns : gmap Z device_node) (test : Z → Z → N (bool * Z)) (p : Z → Z → bool * Z) : Prop :=
  ∀ c seen s, dt_nodes (tree (of_d s)) = ns → is_Some (ns !! c) → test c seen s = Some (p c seen, s).

Lemma child_loop_wp fuel np dp child l seen test p s :
  (length l < fuel)%nat → dt_nodes (tree (of_d s)) !! np = Some dp →
  chain (dt_nodes (tree (of_d s))) child l → tests (dt_nodes (tree (of_d s))) test p →
  wp (child_loop fuel np child seen test) (λ r s', r = scan p l seen ∧ only_refs s s') s.
Proof.
  revert fuel child seen s. induction l as [|n l IH]; intros [|fuel] child seen s Hf Ep Hc Ht; simpl in Hf; try lia;
    inversion Hc; subst; simpl.
  { apply wp_ret. split; [done|]. apply only_refs_refl. }
  rename select (dt_nodes (tree (of_d s)) !! n = Some _) into En.
  apply wp_bind. eapply wp_intro; [apply Ht; eauto|]. destruct (p n seen) as [[] seen'].
  { apply wp_bind, of_call_wp; [apply ok_get|]. intros s' Hs. by apply wp_ret. }
  destruct (ok_next_child (tree (of_d s)) np dp (Some n) Ep) as (R1 & R2 & _). simpl in R1. rewrite En in R1.
  apply wp_bind, of_call_wp; [done|]. rewrite R1. intros s1 Hs. pose proof (only_refs_nodes _ _ Hs) as E1.
  eapply wp_mono; [apply IH; rewrite ?E1; try done; lia|]. simpl.
  intros r s2 [-> Hr]. split; [done|]. by eapply only_refs_trans.
Qed.

Lemma each_child_wp np l test p s : children (dt_nodes (tree (of_d s))) np l →
  tests (dt_nodes (tree (of_d s))) test p →
  wp (each_child np test) (λ r s', r = scan p l 0 ∧ only_refs s s') s.
Proof.
  intros (dp & Ep & Hc) Ht. unfold each_child. wp_steps.
  destruct (ok_next_child (tree (of_d s)) np dp None Ep) as (R1 & R2 & _).
  apply of_call_wp; [done|]. rewrite R1. intros s1 Hs. pose proof (only_refs_nodes _ _ Hs) as E1.
  eapply wp_mono; [eapply child_loop_wp; rewrite ?E1; [|done..]; apply chain_length in Hc; lia|]. simpl.
  intros r s2 [-> Hr]. split; [done|]. by eapply only_refs_trans.
Qed.

Lemma scan_name ns name l seen : scan (λ c seen, (name_is ns name c, seen)) l seen
  = head (base.filter (λ c, name_is ns name c = true) l).
Proof.
  induction l as [|c l IH]; [done|]. simpl. rewrite filter_cons. case_decide as E; [by rewrite E|].
  destruct (name_is ns name c); [done|]. apply IH.
Qed.

Lemma scan_order ns index l seen : seen ≤ index →
  scan (λ c seen, if negb (chan_named ns c) then (false, seen)
                  else if seen =? index then (true, seen) else (false, seen + 1)) l seen
  = base.filter (λ c, chan_named ns c = true) l !! Z.to_nat (index - seen).
Proof.
  revert seen. induction l as [|c l IH]; intros seen Hs; [done|]. simpl. rewrite filter_cons.
  case_decide as E; [|destruct (chan_named ns c); [done|]; simpl; by apply IH].
  rewrite E. simpl. destruct (Z.eqb_spec seen index) as [->|Hne].
  - by rewrite Z.sub_diag.
  - rewrite IH by lia. replace (Z.to_nat (index - seen)) with (S (Z.to_nat (index - (seen + 1)))) by lia. done.
Qed.

Lemma find_fallback_wp np l i s : 0 ≤ i → children (dt_nodes (tree (of_d s))) np l →
  wp (ioss_of_find_fallback_channel (Some np) i)
     (λ r s', r = fallback_of (dt_nodes (tree (of_d s))) l i ∧ only_refs s s') s.
Proof.
  intros Hi Hc. unfold ioss_of_find_fallback_channel. cbv zeta. apply wp_bind.
  change (if i =? 0 then _ else _) with (index_name i). set (ns := dt_nodes (tree (of_d s))) in *.
  assert (wp (match index_name i with Some name => each_child np (name_test name) | None => ret None end)
    (λ r s', r = (name ← index_name i; head (base.filter (λ c, name_is ns name c = true) l)) ∧ only_refs s s') s) as Hn.
  { destruct (index_name i) as [name|]; [|apply wp_ret; split; [done|apply only_refs_refl]].
    eapply wp_mono; [apply (each_child_wp np l _ (λ c seen, (name_is ns name c, seen))); [done|]|].
    - intros c seen s1 E [d Ed]. unfold name_test, bind, gets, ret. rewrite <- E in Ed.
      rewrite (ok_name_eq _ _ _ _ Ed). unfold name_is. fold ns in E. rewrite <- E. by rewrite Ed.
    - intros r s1 [-> Hr]. split; [|done]. by rewrite scan_name. }
  eapply wp_mono; [exact Hn|]. intros r s1 [-> Hr]. unfold fallback_of.
  destruct (name ← index_name i; _) as [c|]; [by apply wp_ret|].
  pose proof (only_refs_nodes _ _ Hr) as E1. fold ns in E1. eapply wp_mono.
  { apply (each_child_wp np l _ (λ c seen, if negb (chan_named ns c) then (false, seen)
                  else if seen =? i then (true, seen) else (false, seen + 1))); rewrite E1; [done|].
    intros c seen s2 E [d Ed]. unfold order_test, on_d, deref, bind, ret. rewrite E, Ed. simpl.
    unfold chan_named. rewrite Ed. destruct s2. by destruct (is_channel_name _); simpl; [destruct (seen =? i)|]. }
  simpl. intros r s2 [-> Hr2]. split; [|by eapply only_refs_trans].
  rewrite scan_order by done. by rewrite Z.sub_0_r.
Qed.

(** ** One entry of the channel list *)
Lemma fallback_in ns np l i c : children ns np l → fallback_of ns l i = Some c → is_Some (ns !! c).
Proof.
  intros (dp & _ & Hc) E. eapply chain_in; [exact Hc|]. unfold fallback_of in E.
  destruct (name ← index_name i; _) as [c'|] eqn:En.
  - simplify_eq. destruct (index_name i) as [name|]; [|done]. simpl in En.
    apply head_Some_elem_of in En. by apply list_elem_of_filter in En as [_ ?].
  - apply list_elem_of_lookup_2, list_elem_of_filter in E as [_ ?]. done.
Qed.

Lemma target_wp np i d0 s : dt_nodes (tree (of_d s)) = dt_nodes (tree d0) →
  wp (let* n := on_d (of_call (λ t, of_parse_phandle t np "qcom,ioss_channels" i)) in
      match n with
      | None => ret None
      | Some n =>
          let* d := on_d (deref n) in
          if negb (is_channel_name (d_name d)) then node_put n ;; ret None else ret (Some n)
      end) (λ r s', r = target_of (tree d0) np i ∧ only_refs s s' ∧
              ∀ n, r = Some n → is_Some (dt_nodes (tree d0) !! n)) s.
Proof.
  intros E0. apply wp_bind. destruct (ok_parse (tree (of_d s)) np "qcom,ioss_channels" i) as [(E1 & Hin & _) _].
  apply of_call_wp; [done|]. intros s1 Hs. unfold target_of. rewrite <- (ok_parse_nodes _ _ np _ i E0).
  destruct (of_parse_phandle _ _ _ _).1 as [n|]; simpl; [|by apply wp_ret].
  destruct (Hin n eq_refl) as [d Ed]. apply wp_bind. apply on_d_wp. eapply wp_deref.
  { by rewrite (only_refs_nodes _ _ Hs). }
  replace (with_d (of_d s1) s1) with s1 by by destruct s1.
  unfold chan_named. rewrite <- E0, Ed. destruct (is_channel_name (d_name d)); simpl.
  - apply wp_ret. split_and!; [done..|]. intros ? [= ->]. eauto.
  - apply wp_bind, node_put_wp. intros s2 Hs2. apply wp_ret. split_and!; [done|by eapply only_refs_trans|done].
Qed.

Definition nth_post (d0 : dts) (np : Z) (l : list Z) (i : Z) (s : ofst) (rc : Z) (s' : ofst) : Prop :=
  accounts d0 s' ∧ rc ≤ 0 ∧ ∃ cs, moved cs s s' ∧
  (fails (of_d s) = [] → match nth_cfg (tree d0) np l i with
                         | Some c => rc = 0 ∧ cfg_of <$> cs = [c] | None => rc ≠ 0 end).

(** A put at the end of a turn. *)
Lemma put_end d0 np l i n rc s0 s cs : accounts d0 s → moved cs s0 s → rc ≤ 0 →
  (fails (of_d s0) = [] → match nth_cfg (tree d0) np l i with
                         | Some c => rc = 0 ∧ cfg_of <$> cs = [c] | None => rc ≠ 0 end) →
  wp (node_put n ;; ret rc) (nth_post d0 np l i s0) s.
Proof.
  intros Ha Hm Hr HP. apply wp_bind, node_put_wp. intros s' Hs. apply wp_ret. split_and!; [|done|].
  - by eapply only_refs_holding.
  - exists cs. split; [by eapply moved_trans1, only_refs_moved|done].
Qed.

Lemma parse_channel_refs d0 n s0 s cs : accounts d0 s → moved cs s0 s → is_Some (dt_nodes (tree d0) !! n) →
  wp (ioss_of_parse_channel (Some n)) (λ rc s', accounts d0 s' ∧ ∃ l, moved (cs ++ l) s0 s' ∧
  ((rc = 0 ∧ ∃ c, node_chan (tree d0) n = Some c ∧ cfg_of <$> l = [c]) ∨
   (rc < 0 ∧ l = [] ∧ (fails (of_d s0) = [] → node_chan (tree d0) n = None)))) s.
Proof.
  intros Ha Hm Hn. eapply wp_mono; [by apply parse_channel_wp|]. intros rc s' (Ha' & l & Ml & Hl).
  split; [done|]. exists l. split; [by eapply moved_trans|]. destruct Hl as [(-> & E & Hne)|(? & -> & Hf)].
  - left. split; [done|]. destruct (node_chan (tree d0) n) as [c|]; [eauto|]. by destruct l.
  - right. split_and!; try done. intros E. by apply Hf, (mv_lucky _ _ _ Hm).
Qed.

Lemma parse_nth_wp d0 np l i s : accounts d0 s → 0 ≤ i → children (dt_nodes (tree d0)) np l →
  wp (parse_nth np i) (nth_post d0 np l i s) s.
Proof.
  intros Ha Hi Hc. unfold parse_nth.
  pose proof (target_wp np i d0 s (ho_nodes _ _ _ Ha)) as Ht. rewrite wp_bind_iff in Ht.
  apply wp_bind. eapply wp_mono; [exact Ht|]. clear Ht. cbv beta. intros o s1 Ht. apply wp_bind.
  eapply wp_mono; [exact Ht|]. clear o s1 Ht. intros tg s1 (Etg & R1 & Htg).
  assert (accounts d0 s1) as A1 by by eapply only_refs_holding.
  pose proof (only_refs_moved _ _ R1) as M1.
  assert (∀ s1, accounts d0 s1 → moved [] s s1 → wp (ioss_of_find_fallback_channel (Some np) i)
    (λ r s', r = fallback_of (dt_nodes (tree d0)) l i ∧ accounts d0 s' ∧ moved [] s s') s1) as Hfb.
  { intros s2 A2 M2. rewrite <- (ho_nodes _ _ _ A2) in *.
    eapply wp_mono; [by apply find_fallback_wp|]. intros r s3 [-> R3]. split; [done|].
    split; [by eapply only_refs_holding|by eapply moved_trans0, only_refs_moved]. }
  assert (∀ fb, fallback_of (dt_nodes (tree d0)) l i = Some fb → is_Some (dt_nodes (tree d0) !! fb)) as Hin
    by (intros; by eapply fallback_in).
  assert (nth_cfg (tree d0) np l i = match tg ≫= node_chan (tree d0) with
    | Some c => Some c | None => fallback_of (dt_nodes (tree d0)) l i ≫= node_chan (tree d0) end) as En
    by by rewrite Etg.
  clear Etg. apply wp_bind. destruct tg as [n|]; simpl in En.
  - apply wp_ret. apply wp_bind.
    eapply wp_mono; [apply (parse_channel_refs _ _ _ _ _ A1 M1); eauto|]. simpl.
    intros rc s2 (A2 & cs & M2 & Hcs).
    destruct Hcs as [(-> & c & Ec & Ecs)|(Hrc & -> & Hf)]; simpl.
    { eapply put_end; [done..|]. rewrite En, Ec. done. }
    rewrite (proj2 (Z.eqb_neq rc 0)) by lia. apply wp_bind. eapply wp_mono; [by apply Hfb|].
    simpl. intros fb s3 (-> & A3 & M3).
    destruct (fallback_of _ l i) as [fb|] eqn:Efb; simpl in En.
    2:{ eapply put_end; [done..|]. intros Hl. rewrite En, Hf by done. done. }
    destruct (Z.eqb_spec fb n) as [->|Hne]; simpl.
    { eapply put_end; [done..|]. intros Hl. rewrite En, Hf by done. done. }
    apply wp_bind, node_put_wp. intros s4 R4. apply wp_bind.
    eapply wp_mono; [eapply (parse_channel_refs d0 fb s); [by eapply only_refs_holding|
      eapply moved_trans0; [exact M3|by apply only_refs_moved]|by apply Hin]|].
    intros rc' s5 (A5 & cs & M5 & Hcs). simpl in M5.
    destruct Hcs as [(-> & c & Ec & Ecs)|(Hrc' & -> & Hf')]; simpl.
    + eapply put_end; [done..|]. intros Hl. rewrite En, (Hf Hl), Ec. done.
    + rewrite (proj2 (Z.eqb_neq rc' 0)) by lia.
      eapply put_end; [done..|]. intros Hl. rewrite En, (Hf Hl), (Hf' Hl). done.
  - eapply wp_mono; [by apply Hfb|]. intros fb s2 (-> & A2 & M2).
    destruct (fallback_of _ l i) as [fb|] eqn:Efb; simpl in En.
    2:{ apply wp_ret. split_and!; [done|done|]. exists []. split; [done|]. by rewrite En. }
    apply wp_bind.
    eapply wp_mono; [apply (parse_channel_refs _ _ _ _ _ A2 M2); by apply Hin|]. simpl.
    intros rc s3 (A3 & cs & M3 & Hcs).
    destruct Hcs as [(-> & c & Ec & Ecs)|(Hrc & -> & Hf)]; simpl.
    + eapply put_end; [done..|]. rewrite En, Ec. done.
    + rewrite (proj2 (Z.eqb_neq rc 0)) by lia. eapply put_end; [done..|]. intros Hl. rewrite En, Hf by done. done.
Qed.

(** ** A node *)
Lemma parse_from_wp d0 np l count i s : accounts d0 s → 0 ≤ i → children (dt_nodes (tree d0)) np l →
  wp (parse_from np i count) (λ rc s', accounts d0 s' ∧ rc ≤ 0 ∧ ∃ cs, moved cs s s' ∧
    (fails (of_d s) = [] → match mapM (nth_cfg (tree d0) np l) (seqZ i (Z.of_nat count)) with
                           | Some r => rc = 0 ∧ cfg_of <$> cs = r | None => rc ≠ 0 end)) s.
Proof.
  intros Ha Hi Hc. revert i s Ha Hi. induction count as [|count IH]; intros i s Ha Hi; simpl parse_from.
  { apply wp_ret. split_and!; [done..|]. exists []. split; [apply moved_refl|done]. }
  apply wp_bind. eapply wp_mono; [by apply parse_nth_wp|]. intros rc s1 (A1 & Hrc & cs & M1 & L1).
  rewrite seqZ_cons by lia. replace (Z.pred (Z.of_nat (S count))) with (Z.of_nat count) by lia. simpl.
  destruct (Z.eqb_spec rc 0) as [->|Hne].
  - eapply wp_mono; [apply IH; [done|lia]|]. intros rc' s2 (A2 & Hrc' & cs' & M2 & L2).
    split_and!; [done..|]. exists (cs ++ cs'). split; [by eapply moved_trans|]. intros Hl.
    specialize (L1 Hl). specialize (L2 (mv_lucky _ _ _ M1 Hl)). destruct (nth_cfg _ _ _ i) as [c|]; [|done].
    simpl. destruct L1 as [_ Ec]. replace (Z.succ i) with (i + 1) by lia.
    destruct (mapM _ _) as [r|]; simpl; [|done]. destruct L2 as [-> Er]. split; [done|].
    by rewrite fmap_app, Ec, Er.
  - apply wp_ret. split_and!; [done..|]. exists cs. split; [done|]. intros Hl. specialize (L1 Hl).
    destruct (nth_cfg _ _ _ i) as [c|]; [by destruct L1|done].
Qed.

Lemma set_wol_wp np name bit (Q : unit → ofst → Prop) s : is_Some (dt_nodes (tree (of_d s)) !! np) →
  Q tt (s_wol (Z.lor (of_wolopts s) (bits (has name (node_vals (tree (of_d s)) np)) bit)) s) →
  wp (set_wol np name bit) Q s.
Proof.
  intros Hn HQ. unfold set_wol. apply wp_bind, find_prop_wp; [done|]. destruct (has _ _); simpl in HQ.
  - by apply wp_modify.
  - apply wp_ret. rewrite Z.lor_0_r in HQ. by destruct s.
Qed.

Definition nothing (s : ofst) : Prop := of_channels s = [] ∧ ioss_priv s = None.

(** How a parser ends: nothing kept on an error; and the result, when every
    allocation succeeds. *)
Definition outcome (d0 : dts) (e : Z + iface_cfg) (s : ofst) (rc : Z) (s' : ofst) : Prop :=
  accounts d0 s' ∧ rc ≤ 0 ∧ (rc ≠ 0 → nothing s' ∧ of_wolopts s' = of_wolopts s) ∧
  (rc = 0 → is_Some (ioss_priv s')) ∧
  (fails (of_d s) = [] → fails (of_d s') = [] ∧
     match e with
     | inl r => rc = r
     | inr c => rc = 0 ∧ instance_id s' = ic_instance c ∧ cfg_of <$> of_channels s' = ic_channels c ∧
                of_wolopts s' = Z.lor (of_wolopts s) (ic_wol c)
     end).

Lemma drop_outcome d0 rc e s0 s : accounts d0 s → rc < 0 → of_wolopts s = of_wolopts s0 →
  (fails (of_d s0) = [] → fails (of_d s) = [] ∧ e = inl rc) →
  wp (drop_interface ;; ret rc) (outcome d0 e s0) s.
Proof.
  intros Ha Hr Hw He. apply wp_bind. eapply wp_mono; [by apply drop_interface_wp|].
  intros [] s1 (A1 & C1 & P1 & W1 & F1). apply wp_ret. unfold outcome, nothing. split_and!; try done; try lia.
  - intros _. split_and!; congruence.
  - intros Hf. destruct (He Hf) as [Hf1 ->]. auto.
Qed.

Lemma outcome_ext d0 e e' m s0 s : (fails (of_d s0) = [] → e = e') →
  wp m (outcome d0 e s0) s → wp m (outcome d0 e' s0) s.
Proof.
  intros He Hm. eapply wp_mono; [exact Hm|]. intros rc s' (Ha & Hr & Hn & Hp & Hl).
  split_and!; try done. intros Hf. rewrite <- He by done. auto.
Qed.

(** The private block. *)
Lemma alloc_priv_wp d0 e s (k : N Z) : accounts d0 s → nothing s →
  (∀ p s', accounts d0 s' → of_channels s' = [] → ioss_priv s' = Some p → of_wolopts s' = of_wolopts s →
     (fails (of_d s) = [] → fails (of_d s') = []) → wp k (outcome d0 e s) s') →
  wp (let* p := on_d kalloc in
      modify (s_priv p) ;; match p with None => ret (- ENOMEM) | Some _ => k end) (outcome d0 e s) s.
Proof.
  intros Ha [Hc Hp] Hk. apply wp_bind. eapply wp_mono; [by apply kalloc_wp'|].
  intros [p|] s1 (d1 & -> & M1 & P1); wp_steps.
  - eapply Hk; try done; [|apply (mv_lucky _ _ _ M1)].
    eapply holding_perm; [..|exact P1]; [done|]. unfold owned. simpl. by rewrite Hp.
  - destruct P1 as [P1 F1]. unfold outcome, nothing. split_and!; try done.
    eapply holding_perm; [..|exact P1]; [done|]. unfold owned. simpl. by rewrite Hp.
Qed.

Lemma parse_v2_wp d0 np l s : accounts d0 s → nothing s → children (dt_nodes (tree d0)) np l →
  of_match_compatible (tree d0) np "qcom,ioss-v2-device" = true →
  wp (ioss_of_parse_v2 np)
     (outcome d0 (match dt_cfg (tree d0) np l with Some c => inr c | None => inl (- EINVAL) end) s) s.
Proof.
  intros Ha Hno Hc Hm. unfold ioss_of_parse_v2. apply alloc_priv_wp; [done..|].
  intros p s1 A1 C1 P1 W1 F1.
  unfold dt_cfg. rewrite Hm. simpl negb. cbv iota.
  apply wp_bind, read_u32_wp. rewrite (node_vals_eq _ _ np (ho_nodes _ _ _ A1)).
  destruct (num _ "qcom,ioss_instance") as [inst|]; [|apply drop_outcome; try done; eauto].
  pose proof (holding_instance _ _ inst _ A1) as A1'. wp_steps. rewrite ok_count. rewrite (node_vals_eq _ (tree d0)) by apply (ho_nodes _ _ _ A1).
  change (of_d (s_instance inst s1)) with (of_d s1).
  destruct (assoc _ _) as [v|]; cbn [mbind option_bind]; [|apply drop_outcome; try done; eauto].
  destruct (Z.ltb_spec (Z.of_nat (length v / 4)) 0); [lia|]. rewrite Nat2Z.id. apply wp_bind.
  eapply wp_mono; [apply (parse_from_wp d0 np l); [exact A1'|done|exact Hc]|]. intros rc s2 (A2 & Hrc & cs & M2 & L2).
  assert (is_Some (dt_nodes (tree (of_d s2)) !! np)) as Hn.
  { rewrite (ho_nodes _ _ _ A2). destruct Hc as (d & -> & _). eauto. }
  pose proof (ho_nodes _ _ _ A2) as N2.
  destruct (Z.eqb_spec rc 0) as [->|Hne]; simpl negb; cbv iota.
  - apply wp_bind, set_wol_wp; [done|]. apply wp_bind, set_wol_wp; [done|].
    cbn [of_d of_wolopts s_wol]. rewrite (node_vals_eq _ _ np N2). apply wp_ret.
    unfold outcome, nothing. split_and!; try done.
    { by do 2 apply holding_wol. }
    { intros _. simpl. rewrite (mv_priv _ _ _ M2). simpl. rewrite P1. eauto. }
    intros Hf. specialize (L2 (F1 Hf)). split; [by apply (mv_lucky _ _ _ M2), F1|].
    destruct (mapM _ _) as [r|]; [|done]. destruct L2 as [_ Er]. simpl. split_and!; try done.
    + by rewrite (mv_instance _ _ _ M2).
    + rewrite (mv_channels _ _ _ M2). simpl. by rewrite C1.
    + by rewrite (mv_wol _ _ _ M2), Z.lor_assoc, <- W1.
  - apply drop_outcome; try done.
    + by rewrite (mv_wol _ _ _ M2).
    + intros Hf. specialize (L2 (F1 Hf)). split; [by apply (mv_lucky _ _ _ M2), F1|].
      destruct (mapM _ _) as [r|]; [by destruct L2|done].
Qed.

(** ** The built-in configuration *)
Lemma add_fallback_wp d0 dir s : accounts d0 s →
  wp (ioss_of_add_fallback_channel dir) (λ rc s', accounts d0 s' ∧ ∃ cs, moved cs s s' ∧
    ((rc = 0 ∧ cfg_of <$> cs = [ChCfg dir [match dir with IOSS_CH_DIR_RX => 1023 | IOSS_CH_DIR_TX => 1024 end;
                                           2048; 32; 64; 30; 60]
                                 (match dir with IOSS_CH_DIR_RX => IOSS_RXF_F_IP | IOSS_CH_DIR_TX => 0 end)])
     ∨ (rc = - ENOMEM ∧ fails (of_d s) ≠ []))) s.
Proof.
  intros Ha. unfold ioss_of_add_fallback_channel. apply wp_bind.
  eapply wp_mono; [by apply alloc_channel_wp|]. intros [[ch priv]|] s1 (d1 & -> & M1 & P1).
  - unfold add_channel. wp_steps. split; [by apply add_channel_holding|].
    eexists [_]. split; [eapply moved_trans0; [exact M1|apply add_channel_moved]|]. left. by destruct dir.
  - destruct P1 as [P1 F1]. apply wp_ret. split; [done|]. exists []. split; [done|]. by right.
Qed.

Lemma fallback_wp d0 s : accounts d0 s → nothing s → wp ioss_of_parse_r8125_fallback (outcome d0 (inr built_in) s) s.
Proof.
  intros Ha Hno. unfold ioss_of_parse_r8125_fallback. apply alloc_priv_wp; [done..|].
  intros p s1 A1 C1 P1 W1 F1. wp_steps.
  pose proof (holding_instance _ _ IOSS_R8125_INSTANCE_ID _ A1) as A1'.
  eapply wp_mono; [by apply add_fallback_wp|]. intros rc s2 (A2 & c1 & M2 & [[-> E2]|[-> F2]]).
  2:{ simpl. apply drop_outcome; try done; [by rewrite (mv_wol _ _ _ M2)|]. intros Hf. by destruct F2; apply F1. }
  simpl. apply wp_bind. eapply wp_mono; [by apply add_fallback_wp|].
  intros rc s3 (A3 & c2 & M3 & [[-> E3]|[-> F3]]).
  2:{ simpl. apply drop_outcome; try done; [by rewrite (mv_wol _ _ _ M3), (mv_wol _ _ _ M2)|].
      intros Hf. destruct F3. by apply (mv_lucky _ _ _ M2), F1. }
  pose proof (moved_trans _ _ _ _ _ M2 M3) as M. apply wp_ret. unfold outcome. split_and!; try done.
  - intros _. rewrite (mv_priv _ _ _ M). simpl. rewrite P1. eauto.
  - intros Hf. split; [by apply (mv_lucky _ _ _ M), F1|]. split_and!; try done.
    + by rewrite (mv_instance _ _ _ M).
    + by rewrite (mv_channels _ _ _ M), fmap_app, fmap_app, E2, E3; simpl; rewrite C1.
    + rewrite (mv_wol _ _ _ M). simpl. by rewrite W1, Z.lor_0_r.
Qed.

(** ** The device *)
(** The first attempt left nothing. *)
Lemma or_built_in_wp d0 rc s0 s : accounts d0 s → rc < 0 → nothing s → of_wolopts s = of_wolopts s0 →
  (fails (of_d s0) = [] → fails (of_d s) = []) →
  wp (if ioss_is_r8125_pci_dev then ioss_of_parse_r8125_fallback else ret rc)
     (outcome d0 (or_built_in rc) s0) s.
Proof.
  intros Ha Hrc Hno Hw Hf. unfold or_built_in. destruct ioss_is_r8125_pci_dev.
  - eapply wp_mono; [by apply fallback_wp|]. intros r s' (A' & R' & E' & P' & L').
    unfold outcome. rewrite <- Hw. split_and!; auto. 
  - apply wp_ret. unfold outcome. split_and!; auto; intros; lia.
Qed.

Lemma parse_node_wp d0 np l s0 s : accounts d0 s → moved [] s0 s → nothing s0 → children (dt_nodes (tree d0)) np l →
  wp (let* rc := ioss_of_parse_node np in
      if rc =? 0 then ret 0 else if ioss_is_r8125_pci_dev then ioss_of_parse_r8125_fallback else ret rc)
     (outcome d0 (match dt_cfg (tree d0) np l with Some c => inr c | None => or_built_in (- EINVAL) end) s0) s.
Proof.
  intros Ha Hm Hno Hc. assert (nothing s) as Hno'.
  { destruct Hno as [E1 E2], Hm as [C1 _ P1 _ _]. split; [by rewrite C1, E1|congruence]. }
  unfold ioss_of_parse_node. apply wp_bind. wp_steps. rewrite ok_match.
  rewrite (node_vals_eq _ (tree d0)) by apply (ho_nodes _ _ _ Ha). rewrite <- ok_match.
  destruct (of_match_compatible _ _ _) eqn:Em.
  - eapply wp_mono; [by apply (parse_v2_wp d0 np l)|]. intros rc s1 (A1 & R1 & E1 & P1 & L1).
    rewrite (mv_wol _ _ _ Hm) in *. destruct (Z.eqb_spec rc 0) as [->|Hne].
    + apply wp_ret. split_and!; try done. intros Hf. destruct (L1 (mv_lucky _ _ _ Hm Hf)) as [? L].
      split; [done|]. by destruct (dt_cfg _ _ _).
    + destruct (E1 Hne) as [Hn1 Hw1]. eapply outcome_ext; [|eapply or_built_in_wp; try done; [lia|]].
      * intros Hf. destruct (L1 (mv_lucky _ _ _ Hm Hf)) as [_ L]. destruct (dt_cfg _ _ _); [by destruct L|]. by subst rc.
      * intros Hf. by apply L1, (mv_lucky _ _ _ Hm).
  - apply wp_ret. simpl. unfold dt_cfg. rewrite Em. simpl. apply or_built_in_wp; try done;
      [apply (mv_wol _ _ _ Hm)|apply (mv_lucky _ _ _ Hm)].
Qed.

Lemma parse_wp np l s : heap_ok (of_d s) → nothing s →
  (∀ n, np = Some n → children (dt_nodes (tree (of_d s))) n l) →
  wp (ioss_of_parse np) (outcome (of_d s) (expected (tree (of_d s)) np l) s) s.
Proof.
  intros Hh Hno Hc. assert (accounts (of_d s) s) as Ha.
  { destruct Hno as [Hn1 Hn2]. split; try done; unfold owned; rewrite Hn1, Hn2; simpl.
    - intros b. rewrite elem_of_nil. tauto.
    - constructor.
    - intros b []%elem_of_nil. }
  unfold ioss_of_parse. destruct np as [np|]; [|by apply or_built_in_wp]. cbv zeta. simpl expected.
  apply wp_bind. destruct (ok_parse (tree (of_d s)) np "qcom,ioss" 0) as [(En & _ & _) _].
  apply of_call_wp; [done|]. intros s1 R1. pose proof (only_refs_moved _ _ R1) as M1.
  assert (accounts (of_d s) s1) as A1 by by eapply only_refs_holding.
  assert (nothing s1) as Hno1 by (destruct R1 as (t & -> & _); exact Hno).
  assert (∀ rc, rc < 0 → wp (ret rc) (outcome (of_d s) (inl rc) s) s1) as Herr.
  { intros rc Hrc. apply wp_ret. split; [done|]. split; [lia|]. split; [|split; [intros; lia|]].
    - intros _. split; [done|apply (mv_wol _ _ _ M1)].
    - intros Hf. split; [by apply (mv_lucky _ _ _ M1)|done]. }
  destruct (of_parse_phandle _ _ _ _).1 as [root|].
  2:{ apply or_built_in_wp; try done; [apply (mv_wol _ _ _ M1)|apply (mv_lucky _ _ _ M1)]. }
  destruct (ioss_find_dev_from_of_node root) as [pdev|]; [|by apply Herr].
  destruct (root_pdev =? pdev); simpl; [|by apply Herr]. apply parse_node_wp; auto.
Qed.

(** C11: From a device without channels, on every tree and whichever
    allocations fail, [ioss_of_parse] ends; on an error nothing is left
    allocated, and on success the live blocks are those from before and, each
    once, those of the interface. When no allocation fails, its result is a
    function of the tree: the configuration the nodes give (each channel from
    the phandle's target when that is a channel that can be read, else from the
    child at that index), the built-in one for an RTL8125 without such nodes, or
    the error. *)
Theorem ioss_of_parse_spec np l s :
  heap_ok (of_d s) → nothing s → (∀ n, np = Some n → children (dt_nodes (tree (of_d s))) n l) →
  wp (ioss_of_parse np) (outcome (of_d s) (expected (tree (of_d s)) np l) s) s.
Proof. apply parse_wp. Qed.

(** ** The nodes of the enabler *)
(** A node of the new tree: one of the three, or an old one with its name. *)
Lemma injected_old pcie soc rp iph gph ns ns' rx tx dev dsoc drp dpcie n d :
  injected pcie soc rp iph gph ns ns' rx tx dev dsoc drp dpcie →
  ns !! soc = Some dsoc ∧ ns !! rp = Some drp ∧ ns !! pcie = Some dpcie → ns' !! n = Some d →
  d_name d ∈ ["r8125_rx"; "r8125_tx"; "realtek,rtl8125"]%string ∨
  ∃ d0, ns !! n = Some d0 ∧ d_name d0 = d_name d ∧ d_phandle d0 = d_phandle d.
Proof.
  intros [_ (drx & Erx & Nrx & _) (dtx & Etx & Ntx & _) (ddv & Edv & Ndv & _) Es Er (ps & Ep & _) Hrest]
    (Os & Or & Op) En.
  destruct (decide (n ∈ [pcie; soc; rp; rx; tx; dev])) as [Hin|Hn]; [|rewrite Hrest in En by done; eauto].
  rewrite !elem_of_cons, elem_of_nil in Hin.
  destruct Hin as [->|[->|[->|[->|[->|[->|[]]]]]]]; simplify_eq.
  - right. exists dpcie. done.
  - right. eexists. split; [exact Os|done].
  - right. eexists. split; [exact Or|done].
  - left. rewrite Nrx. set_solver.
  - left. rewrite Ntx. set_solver.
  - left. rewrite Ndv. set_solver.
Qed.

(** The node of the device gives no configuration. *)
Lemma dev_unread t dev d i g : dt_nodes t !! dev = Some d → vals (d_props d) = dev_vals i g →
  (∀ n e, dt_nodes t !! n = Some e → d_phandle e = RTL8125_PHANDLE_RX → is_channel_name (d_name e) = false) →
  dt_cfg t dev [] = None.
Proof.
  intros Ed Ev Hch. unfold dt_cfg.
  assert (node_vals t dev = dev_vals i g) as -> by (unfold node_vals; by rewrite Ed).
  destruct (negb _); [done|].
  change (assoc "qcom,ioss_channels" (dev_vals i g)) with (Some (concat [be32 0x8125; be32 0x8126])).
  change (num (dev_vals i g) "qcom,ioss_instance") with (cell (be32 0) 0). cbn [mbind option_bind].
  change (seqZ 0 _) with [0; 1].
  assert (nth_cfg t dev [] 0 = None) as Hn; [|by cbn [mapM]; rewrite Hn].
  assert (target_of t dev 0 = None) as Ht; [|unfold nth_cfg; by rewrite Ht].
  unfold target_of. destruct (ok_parse t dev "qcom,ioss_channels" 0) as [(_ & Hin & _) Hph].
  destruct (of_parse_phandle _ _ _ _).1 as [n|]; [|done]. simpl. destruct (Hin n eq_refl) as [e Ee].
  specialize (Hph n e eq_refl Ee). unfold node_vals in Hph. rewrite Ed, Ev in Hph. simpl in Hph. simplify_eq Hph.
  intros Hp. unfold chan_named. rewrite Ee, (Hch n e Ee); [done|]. by rewrite <- Hp.
Qed.

(** C12: The two drivers together: after a successful injection, and with no
    older channel node under the phandle 0x8125, [ioss_of_parse] on the injected
    device succeeds with the built-in configuration and not the injected one.
    The receive node can be read as a channel, with a ring of 1024; its name
    does not start with [channel-], so the parser drops it, and the interface
    gets the built-in ring of 1023. *)
Theorem injected_channels_unread pcie soc ioss group rp ls lr lp s :
  dts_ok s → syms_ok s → deps pcie soc ioss group rp ls lr lp s →
  dev_of (dt_nodes (tree s)) ls lr = None → ioss_is_r8125_pci_dev = true →
  (∀ n d, dt_nodes (tree s) !! n = Some d → d_phandle d = RTL8125_PHANDLE_RX → is_channel_name (d_name d) = false) →
  wp pcie_attach_runtime_nodes (λ r s', r = 0 → ∃ rx dev,
    (∃ d, dt_nodes (tree s') !! rx = Some d ∧ d_name d = "r8125_rx"%string ∧
       chan_of (vals (d_props d)) = Some (ChCfg IOSS_CH_DIR_RX [1024; 2048; 32; 64; 30; 60] IOSS_RXF_F_IP)) ∧
    children (dt_nodes (tree s')) rp (dev :: lr) ∧
    ∀ o, dt_nodes (tree (of_d o)) = dt_nodes (tree s') → heap_ok (of_d o) → nothing o → fails (of_d o) = [] →
      (∀ n, (of_parse_phandle (tree (of_d o)) dev "qcom,ioss" 0).1 = Some n →
         ioss_find_dev_from_of_node n = Some root_pdev) →
      wp (ioss_of_parse (Some dev)) (λ rc o', rc = 0 ∧ instance_id o' = 0 ∧
        cfg_of <$> of_channels o' = ic_channels built_in) o) s.
Proof.
  intros Hk Hy Hd Hmiss Hpci Hold. eapply wp_mono; [by apply (attach_runtime_nodes_wp pcie soc ioss group rp ls lr lp)|].
  intros r s' (_ & _ & _ & Hin & _) Hr.
  destruct (Hin Hr) as (rx & tx & dev & i & g & dsoc & drp & dpcie & _ & _ & Hnodes & Hinj & _ & Hcr).
  exists rx, dev. pose proof Hinj as [_ (drx & Erx & Nrx & _ & _ & _ & _ & Vrx) _ (ddv & Edv & _ & _ & Cdv & _ & _ & Vdv) _ _ _ _].
  split_and!; [exists drx; by rewrite Vrx|done|]. intros o Eo Ho Hno Hf Hroot.
  assert (children (dt_nodes (tree (of_d o))) dev []) as Hc.
  { exists ddv. rewrite Eo, Cdv. split; [done|constructor]. }
  eapply wp_mono; [apply (parse_wp (Some dev) []); [done|done|by intros n [= <-]]|].
  intros rc o' (_ & _ & _ & _ & Hl). destruct (Hl Hf) as [_ Hres]. clear Hl.
  assert (dt_cfg (tree (of_d o)) dev [] = None) as En.
  { eapply dev_unread; [by rewrite Eo|done|]. intros n e. rewrite Eo. intros Ee Hp.
    destruct (injected_old _ _ _ _ _ _ _ _ _ _ _ _ _ _ _ Hinj Hnodes Ee) as [Hn|(d0 & Ed0 & Nd & Pd)].
    - rewrite !elem_of_cons, elem_of_nil in Hn. by destruct Hn as [->|[->|[->|[]]]].
    - rewrite <- Nd. eapply Hold; [done|congruence]. }
  unfold expected, or_built_in in Hres. rewrite En, Hpci in Hres.
  destruct (of_parse_phandle _ _ _ _).1 as [n|]; [|naive_solver].
  rewrite (Hroot n eq_refl), Z.eqb_refl in Hres. naive_solver.
Qed.
End spec.
