(* ===== verification/IossBus.v ===== *)
(** * IOSS: the bus, its devices and drivers

    [ioss_bus.c] and the device half of [ioss_pci.c]: the tables of devices and
    drivers, and PCI devices that come and go. Each offload device is an
    allocated block with an interface; its channels are parsed by [IossOf]. *)
From stdpp Require Import base tactics list gmap strings numbers sets.
From Stdlib Require Import ZArith Lia.
From S2P Require Import Prelude DeviceTree Enabler IossUtils RtlLib IossData IossOf.

(** ** Data *)
(** [struct ioss_device], as far as the bus keeps it. *)
Record bus_idev := BusIdev {
  bi_parent : Z;                       (* the real device *)
  bi_registered : bool;
  bi_channels : list dt_channel; bi_instance : Z; bi_priv : option Z; bi_wolopts : Z }.

(** The devices by address, the two tables, the registered drivers, and
    whether the notifier of the PCI bus is registered. *)
Record busst := Bus {
  bus_d : dts; ioss_devices : list (option Z); idevs : gmap Z bus_idev;
  ioss_drivers : list (option Z); bound_drivers : gset Z; pci_bus_nb : bool }.

Abbreviation B := (M busst).

Definition MAX_IOSS_DEVICES : nat := 10.
Definition MAX_IOSS_DRIVERS : nat := 10.
Definition no_bus (d : dts) : busst :=
  Bus d (replicate MAX_IOSS_DEVICES None) ∅ (replicate MAX_IOSS_DRIVERS None) ∅ false.

(** What the kernel answers: which devices have a driver, and one with PM
    callbacks; the results of registering. *)
Record bus_world := BusWorld {
  bw_driver : Z → bool; bw_pm : Z → bool; bw_register : Z → Z;
  bw_notifier : Z; bw_driver_register : Z }.

Definition b_d (d : dts) (b : busst) : busst :=
  Bus d (ioss_devices b) (idevs b) (ioss_drivers b) (bound_drivers b) (pci_bus_nb b).
Definition b_devices (l : list (option Z)) (b : busst) : busst :=
  Bus (bus_d b) l (idevs b) (ioss_drivers b) (bound_drivers b) (pci_bus_nb b).
Definition b_idevs (m : gmap Z bus_idev) (b : busst) : busst :=
  Bus (bus_d b) (ioss_devices b) m (ioss_drivers b) (bound_drivers b) (pci_bus_nb b).
Definition b_drivers (l : list (option Z)) (s : gset Z) (b : busst) : busst :=
  Bus (bus_d b) (ioss_devices b) (idevs b) l s (pci_bus_nb b).
Definition b_nb (nb : bool) (b : busst) : busst :=
  Bus (bus_d b) (ioss_devices b) (idevs b) (ioss_drivers b) (bound_drivers b) nb.

Definition on_heap {A} (m : D A) : B A := λ b,
  match m (bus_d b) with Some (r, d) => Some (r, b_d d b) | None => None end.

(** The parser's view of a device. *)
Definition of_st (d : dts) (i : bus_idev) : ofst :=
  Ofst d (bi_channels i) (bi_instance i) (bi_priv i) (bi_wolopts i).
Definition from_of (o : ofst) (i : bus_idev) : bus_idev :=
  BusIdev (bi_parent i) (bi_registered i) (of_channels o) (instance_id o) (ioss_priv o) (of_wolopts o).
Definition on_iface {A} (a : Z) (m : N A) : B A := λ b,
  match idevs b !! a with
  | Some i =>
      match m (of_st (bus_d b) i) with
      | Some (r, o) => Some (r, b_idevs (<[a := from_of o i]> (idevs b)) (b_d (of_d o) b))
      | None => None
      end
  | None => None
  end.

Definition set_registered (r : bool) (i : bus_idev) : bus_idev :=
  BusIdev (bi_parent i) r (bi_channels i) (bi_instance i) (bi_priv i) (bi_wolopts i).

(** ** The tables *)
Definition free_slot (l : list (option Z)) : option nat := fst <$> list_find (λ o, o = None) l.
(** [for (i = 0; ...; i++) if (table[i] == x) { table[i] = NULL; break; }] *)
Definition clear_slot (x : Z) (l : list (option Z)) : list (option Z) :=
  match list_find (λ o, o = Some x) l with Some (i, _) => <[i := None]> l | None => l end.

Section bus.
Context `{OfApi} `{OfRead} (plat : Z → OfPlatform) (dev_of_node : Z → option Z).

(** ** Devices *)
Definition ioss_bus_alloc_idev (k : bus_world) (dev : Z) : B (option Z) :=
  let* b := gets id in
  match free_slot (ioss_devices b) with
  | None => ret None
  | Some i =>
      if negb (bw_driver k dev && bw_pm k dev) then ret None
      else
        let* idev := on_heap kalloc in
        match idev with
        | None => ret None
        | Some a =>
            modify (λ b, b_devices (<[i := Some a]> (ioss_devices b)) b) ;;
            modify (λ b, b_idevs (<[a := BusIdev dev false [] 0 None 0]> (idevs b)) b) ;;
            ret (Some a)
        end
  end.

Definition ioss_bus_free_idev (a : Z) : B unit :=
  on_iface a drop_interface ;;      (* the same loop, and the private block *)
  modify (λ b, b_devices (clear_slot a (ioss_devices b)) b) ;;
  modify (λ b, b_idevs (delete a (idevs b)) b) ;;
  on_heap (kfree a).

(** Two devices of one parent would have one name: the second is refused. *)
Definition device_register (k : bus_world) (a : Z) : B Z :=
  let* b := gets id in
  match idevs b !! a with
  | None => ub
  | Some i =>
      if bool_decide (map_Exists (λ _ j, bi_registered j = true ∧ bi_parent j = bi_parent i) (idevs b))
      then ret (- EEXIST)
      else
        let rc := bw_register k (bi_parent i) in
        if rc =? 0 then modify (λ b, b_idevs (<[a := set_registered true i]> (idevs b)) b) ;; ret 0
        else ret rc
  end.
Definition device_unregister (a : Z) : B unit :=
  modify (λ b, b_idevs (alter (set_registered false) a (idevs b)) b).

Definition ioss_bus_register_idev (k : bus_world) (dev a : Z) : B Z :=
  let* rc := on_iface a (@ioss_of_parse _ _ (plat dev) (dev_of_node dev)) in
  if negb (rc =? 0) then ret (- EINVAL) else device_register k a.
Definition ioss_bus_unregister_idev (a : Z) : B unit := device_unregister a.

(** ** PCI devices *)
Definition ioss_pci_add_device (k : bus_world) (dev : Z) : B Z :=
  let* idev := ioss_bus_alloc_idev k dev in
  match idev with
  | None => ret (- ENOMEM)
  | Some a =>
      let* rc := ioss_bus_register_idev k dev a in
      if negb (rc =? 0) then ioss_bus_free_idev a ;; ret rc else ret 0
  end.

(** [device_find_child] with [__match_idev]. *)
Definition is_idev_of (dev : Z) (p : Z * bus_idev) : Prop := bi_registered p.2 = true ∧ bi_parent p.2 = dev.
#[export] Instance is_idev_of_dec dev p : Decision (is_idev_of dev p).
Proof. unfold is_idev_of. apply _. Defined.
Definition ioss_real_to_idev (dev : Z) (b : busst) : option Z :=
  fst <$> (snd <$> list_find (is_idev_of dev) (map_to_list (idevs b))).

Definition ioss_pci_remove_device (dev : Z) : B Z :=
  let* idev := gets (ioss_real_to_idev dev) in
  match idev with
  | None => ret (- ENODEV)
  | Some a => ioss_bus_unregister_idev a ;; ioss_bus_free_idev a ;; ret 0
  end.

Inductive bus_action := BUS_NOTIFY_BOUND_DRIVER | BUS_NOTIFY_UNBIND_DRIVER | BUS_NOTIFY_OTHER.

Definition pci_bus_notification (k : bus_world) (action : bus_action) (dev : Z) : B unit :=
  match action with
  | BUS_NOTIFY_BOUND_DRIVER => let* _ := ioss_pci_add_device k dev in ret tt
  | BUS_NOTIFY_UNBIND_DRIVER => let* _ := ioss_pci_remove_device dev in ret tt
  | BUS_NOTIFY_OTHER => ret tt
  end.

(** [bus_for_each_dev] with a walker that always goes on. *)
Fixpoint pcie_walk (k : bus_world) (action : bus_action) (devs : list Z) : B unit :=
  match devs with
  | [] => ret tt
  | dev :: devs' =>
      (if bw_driver k dev then pci_bus_notification k action dev else ret tt) ;;
      pcie_walk k action devs'
  end.

Definition ioss_pci_start (k : bus_world) (devs : list Z) : B Z :=
  let rc := bw_notifier k in
  if negb (rc =? 0) then ret rc
  else modify (b_nb true) ;; pcie_walk k BUS_NOTIFY_BOUND_DRIVER devs ;; ret 0.

Definition ioss_pci_stop (k : bus_world) (devs : list Z) : B unit :=
  modify (b_nb false) ;; pcie_walk k BUS_NOTIFY_UNBIND_DRIVER devs.

(** ** Drivers *)
Definition ioss_bus_register_driver (k : bus_world) (idrv : Z) : B Z :=
  let* b := gets id in
  match free_slot (ioss_drivers b) with
  | None => ret (- ENOSPC)
  | Some i =>
      modify (λ b, b_drivers (<[i := Some idrv]> (ioss_drivers b)) (bound_drivers b) b) ;;
      let rc := bw_driver_register k in
      if negb (rc =? 0) then
        modify (λ b, b_drivers (<[i := None]> (ioss_drivers b)) (bound_drivers b) b) ;; ret rc
      else modify (λ b, b_drivers (ioss_drivers b) ({[ idrv ]} ∪ bound_drivers b) b) ;; ret 0
  end.

Definition ioss_bus_unregister_driver (idrv : Z) : B unit :=
  modify (λ b, b_drivers (ioss_drivers b) (bound_drivers b ∖ {[ idrv ]}) b) ;;
  modify (λ b, b_drivers (clear_slot idrv (ioss_drivers b)) (bound_drivers b) b).
End bus.
