(* ===== verification/IossBusSpec.v ===== *)
(** * IOSS: the bus, correctness

    Whatever PCI devices come and go, and whichever allocations and
    registrations fail, the table of devices lists exactly the devices there
    are and every live block belongs to one of them. *)
From stdpp Require Import base tactics list gmap strings numbers sets relations.
From Stdlib Require Import ZArith Lia.
From S2P Require Import Prelude DeviceTree Enabler EnablerSpec IossUtils RtlLib IossData IossOf IossOfSpec IossBus.

(** ** The table of devices *)
(** A table of [n] entries that lists the set once each. *)
Record lists (n : nat) (l : list (option Z)) (s : gset Z) : Prop := Lists {
  li_length : length l = n;
  li_in : ∀ a, Some a ∈ l ↔ a ∈ s;
  li_once : ∀ i j a, l !! i = Some (Some a) → l !! j = Some (Some a) → i = j }.

Lemma free_slot_spec l i : free_slot l = Some i → l !! i = Some None.
Proof.
  unfold free_slot. destruct (list_find _ l) as [[j o]|] eqn:E; [|done]. intros [= <-].
  apply list_find_Some in E as (E & -> & _). done.
Qed.

Lemma free_slot_none n l s : lists n l s → free_slot l = None → (n ≤ size s)%nat.
Proof.
  intros [Hl Hin Hone]. unfold free_slot. destruct (list_find _ l) as [|] eqn:E; [done|]. intros _.
  apply list_find_None in E. subst n. assert (length l = length (omap id l)) as ->.
  { clear Hin Hone. induction E as [|[a|] l Ho _ IH]; simpl; [done|f_equal; exact IH|by destruct Ho]. }
  rewrite <- (size_list_to_set (C := gset Z)).
  - apply subseteq_size. intros a. rewrite elem_of_list_to_set, list_elem_of_omap.
    intros (o & Ho & Ea). simpl in Ea. subst o. by apply Hin.
  - clear Hin. assert (∀ i a, omap id l !! i = Some a → l !! i = Some (Some a)) as Hat.
    { clear Hone. induction E as [|[a|] l Ho _ IH]; [done| |done]. intros [|i] b; simpl; [by intros [= ->]|apply IH]. }
    apply NoDup_alt. intros i j a Hi Hj. eapply Hone; apply Hat; done.
Qed.

Lemma lists_insert n l s i a : lists n l s → l !! i = Some None → a ∉ s → lists n (<[i := Some a]> l) ({[ a ]} ∪ s).
Proof.
  intros [Hl Hin Hone] Hi Ha. split.
  - by rewrite length_insert.
  - intros b. rewrite elem_of_union, elem_of_singleton, <- Hin, !list_elem_of_lookup. split.
    + intros [j Hj]. apply list_lookup_insert_Some in Hj as [(_ & [= ->] & _)|[_ Hj]]; eauto.
    + intros [->|[j Hj]].
      * exists i. apply list_lookup_insert_eq. by eapply lookup_lt_Some.
      * exists j. rewrite list_lookup_insert_ne; [done|]. intros ->. congruence.
  - assert (∀ j, l !! j = Some (Some a) → False) as Hno.
    { intros j Hj. apply Ha, Hin. by eapply list_elem_of_lookup_2. }
    intros j1 j2 b E1 E2.
    apply list_lookup_insert_Some in E1 as [(<- & [= <-] & _)|[? E1]];
      apply list_lookup_insert_Some in E2 as [(? & ? & _)|[? E2]]; simplify_eq; eauto; exfalso; eauto.
Qed.

Lemma lists_clear n l s a : lists n l s → lists n (clear_slot a l) (s ∖ {[ a ]}).
Proof.
  intros [Hl Hin Hone]. unfold clear_slot. destruct (list_find _ l) as [[i o]|] eqn:E.
  - apply list_find_Some in E as (Ei & -> & _). split.
    + by rewrite length_insert.
    + intros b. rewrite elem_of_difference, elem_of_singleton, <- Hin, !list_elem_of_lookup. split.
      * intros [j Hj]. apply list_lookup_insert_Some in Hj as [(_ & ? & _)|[Hne Hj]]; [done|].
        split; [eauto|]. intros ->. by destruct (Hone _ _ _ Ei Hj).
      * intros [[j Hj] Hb]. exists j. rewrite list_lookup_insert_ne; [done|]. intros ->. congruence.
    + intros j1 j2 b E1 E2. apply list_lookup_insert_Some in E1 as [(_ & ? & _)|[_ E1]]; [done|].
      apply list_lookup_insert_Some in E2 as [(_ & ? & _)|[_ E2]]; [done|]. eauto.
  - apply list_find_None in E. split; [done| |done]. intros b. rewrite elem_of_difference, elem_of_singleton.
    rewrite Hin. split; [|tauto]. intros Hb. split; [done|]. intros ->. apply Hin in Hb.
    rewrite Forall_forall in E. by apply (E _ Hb).
Qed.

Lemma lists_size n l s : lists n l s → (size s ≤ n)%nat.
Proof.
  intros [Hl Hin Hone]. rewrite <- Hl.
  transitivity (size (list_to_set (C := gset Z) (omap id l))).
  - apply subseteq_size. intros a Ha. apply elem_of_list_to_set, list_elem_of_omap. exists (Some a).
    split; [by apply Hin|done].
  - assert (∀ l : list Z, (size (list_to_set (C := gset Z) l) ≤ length l)%nat) as Hle.
    { clear. induction l as [|a l IH]; [done|]. cbn [list_to_set length]. rewrite size_union_alt, size_singleton.
      apply le_n_S. etransitivity; [|exact IH]. apply subseteq_size, subseteq_difference_l. done. }
    etransitivity; [apply Hle|]. clear. induction l as [|[a|] l IH]; [done|by apply le_n_S|by apply le_S].
Qed.

(** ** Blocks *)
Definition idev_owned (i : bus_idev) : list Z :=
  match bi_priv i with Some p => [p] | None => [] end ++ chan_blocks (bi_channels i).
Definition bus_owned (m : gmap Z bus_idev) : list Z := map_to_list m ≫= (λ p, p.1 :: idev_owned p.2).

Lemma bus_owned_insert m a i : m !! a = None → bus_owned (<[a := i]> m) ≡ₚ a :: idev_owned i ++ bus_owned m.
Proof. intros E. unfold bus_owned. by rewrite map_to_list_insert. Qed.
Lemma bus_owned_delete m a i : m !! a = Some i → bus_owned m ≡ₚ a :: idev_owned i ++ bus_owned (delete a m).
Proof.
  intros E. rewrite <- (insert_delete_id m a i E) at 1. apply bus_owned_insert, lookup_delete_eq.
Qed.
Lemma bus_owned_update m a i j : m !! a = Some i →
  bus_owned (<[a := j]> m) ≡ₚ a :: idev_owned j ++ bus_owned (delete a m).
Proof.
  intros E. rewrite <- insert_delete_eq. apply bus_owned_insert, lookup_delete_eq.
Qed.

(** The blocks [l], each once, and those of [base] are live. *)
Record owns (l : list Z) (base : gset Z) (ns : gmap Z device_node) (d : dts) : Prop := Owns {
  ow_heap : heap_ok d;
  ow_live : ∀ x, x ∈ live d ↔ x ∈ l ∨ x ∈ base;
  ow_nodup : NoDup l;
  ow_fresh : ∀ x, x ∈ l → x ∉ base;
  ow_nodes : dt_nodes (tree d) = ns }.

Lemma owns_perm l l' base ns d : l ≡ₚ l' → owns l base ns d → owns l' base ns d.
Proof.
  intros Hp [Hh Hl Hn Hf Ht]. split; try done.
  - intros x. rewrite <- Hp. apply Hl.
  - by rewrite <- Hp.
  - intros x. rewrite <- Hp. apply Hf.
Qed.

(** What an interface's parser keeps, seen from the bus, and back. *)
Lemma owns_holding l1 l2 base ns d0 s : owns (l1 ++ l2) base ns (of_d s) → owned s = l1 →
  (∀ x, x ∈ live d0 ↔ x ∈ l2 ∨ x ∈ base) → dt_nodes (tree d0) = ns → holding [] d0 s.
Proof.
  intros [Hh Hl Hn Hf Ht] Ho H0 E0. apply list.NoDup_app in Hn as (Hn1 & Hd & Hn2).
  split; simpl; rewrite ?Ho; try done.
  - intros x. rewrite Hl, H0, elem_of_app. tauto.
  - intros x Hx. rewrite H0. intros [Hx2|Hb]; [by eapply Hd|]. eapply Hf; [|done]. apply elem_of_app. by left.
  - by rewrite Ht, E0.
Qed.

Lemma holding_owns l2 base ns d0 s : holding [] d0 s → NoDup l2 → (∀ x, x ∈ l2 → x ∉ base) →
  (∀ x, x ∈ live d0 ↔ x ∈ l2 ∨ x ∈ base) → dt_nodes (tree d0) = ns → owns (owned s ++ l2) base ns (of_d s).
Proof.
  intros [Hh Hl Hn Hf Ht] Hn2 Hb H0 E0. simpl in *. split; try done.
  - intros x. rewrite Hl, H0, elem_of_app. tauto.
  - apply list.NoDup_app. split_and!; [done| |done]. intros x Hx Hx2. apply (Hf x Hx), H0. by left.
  - intros x [Hx|Hx]%elem_of_app; [|by apply Hb]. intros Hxb. apply (Hf x Hx), H0. by right.
  - by rewrite Ht.
Qed.

(** A block in hand. *)
Lemma heap_alloc_wp l base ns b : owns l base ns (bus_d b) →
  wp (on_heap kalloc) (λ o b', ∃ d, b' = b_d d b ∧
    match o with
    | Some a => owns (a :: l) base ns d ∧ a ∉ l
    | None => owns l base ns d ∧ live d = live (bus_d b)
    end) b.
Proof.
  intros [Hh Hl Hn Hf Ht]. assert (∀ (Q : option Z → busst → Prop),
    wp kalloc (λ o d, Q o (b_d d b)) (bus_d b) → wp (on_heap kalloc) Q b) as Hlift.
  { intros Q. unfold wp, on_heap. by destruct (kalloc (bus_d b)) as [[]|]. }
  apply Hlift, wp_kalloc; [done|..].
  - intros d (Et & _) Hd El _ _. exists d. split; [done|]. split; [|done].
    split; try done; [|by rewrite Et]. intros x. by rewrite El.
  - intros a d (Et & _) Hd -> _ Ha El _. exists d. split; [done|].
    assert (nextb (bus_d b) ∉ l ∧ nextb (bus_d b) ∉ base) as [Hal Hab]
      by (split; intros Hx; apply Ha, Hl; auto).
    split; [|done]. split; try done.
    + intros x. rewrite El, elem_of_union, elem_of_singleton, elem_of_cons, Hl. tauto.
    + by constructor.
    + intros x [->|Hx]%elem_of_cons; auto.
    + by rewrite Et.
Qed.

Lemma heap_free_wp a l base ns b : owns (a :: l) base ns (bus_d b) →
  wp (on_heap (kfree a)) (λ _ b', ∃ d, b' = b_d d b ∧ owns l base ns d) b.
Proof.
  intros [Hh Hl Hn Hf Ht]. assert (∀ (Q : unit → busst → Prop),
    wp (kfree a) (λ o d, Q o (b_d d b)) (bus_d b) → wp (on_heap (kfree a)) Q b) as Hlift.
  { intros Q. unfold wp, on_heap. by destruct (kfree a (bus_d b)) as [[]|]. }
  apply Hlift, wp_kfree; [apply Hl; left; left|]. intros d (Et & _) El En _. exists d. split; [done|].
  apply NoDup_cons in Hn as [Ha Hn]. split; try done.
  - intros x. rewrite El, En, elem_of_difference. intros [Hx _]. by apply Hh.
  - intros x. rewrite El, elem_of_difference, elem_of_singleton, Hl, elem_of_cons.
    split; [tauto|]. intros [Hx|Hx]; (split; [tauto|]); intros ->; [done|]. by apply (Hf a); [left|].
  - intros x Hx. apply Hf. by right.
  - by rewrite Et.
Qed.

Section spec.
Context `{OfOk} `{!OfRead} `{!OfReadOk} (plat : Z → OfPlatform) (dev_of_node : Z → option Z).

(** ** The state of the bus *)
(** Between notifications: every block is a device's, the table lists the
    devices, each is registered, one for a parent. *)
Record bus_ok (base : gset Z) (ns : gmap Z device_node) (b : busst) : Prop := BusOk {
  bo_owns : owns (bus_owned (idevs b)) base ns (bus_d b);
  bo_lists : lists MAX_IOSS_DEVICES (ioss_devices b) (dom (idevs b));
  bo_registered : ∀ a i, idevs b !! a = Some i → bi_registered i = true;
  bo_parents : ∀ a1 a2 i1 i2, idevs b !! a1 = Some i1 → idevs b !! a2 = Some i2 → bi_parent i1 = bi_parent i2 → a1 = a2 }.

Lemma owned_of_st d i : owned (of_st d i) = idev_owned i.
Proof. done. Qed.
Lemma owned_from o i : idev_owned (from_of o i) = owned o.
Proof. done. Qed.

(** An operation on a device's interface; [d0] holds the blocks of the others. *)
Lemma on_iface_wp {A} a i d0 base ns (m : N A) (Φ : A → ofst → Prop) b :
  idevs b !! a = Some i → owns (bus_owned (idevs b)) base ns (bus_d b) →
  (∀ x, x ∈ live d0 ↔ x ∈ a :: bus_owned (delete a (idevs b)) ∨ x ∈ base) → dt_nodes (tree d0) = ns →
  (holding [] d0 (of_st (bus_d b) i) → wp m (λ r o, holding [] d0 o ∧ Φ r o) (of_st (bus_d b) i)) →
  wp (on_iface a m) (λ r b', ∃ o, b' = b_idevs (<[a := from_of o i]> (idevs b)) (b_d (of_d o) b) ∧
    owns (bus_owned (<[a := from_of o i]> (idevs b))) base ns (of_d o) ∧ Φ r o) b.
Proof.
  intros Ea Ho Hd0 En Hm.
  assert (bus_owned (idevs b) ≡ₚ idev_owned i ++ (a :: bus_owned (delete a (idevs b)))) as Hp.
  { rewrite (bus_owned_delete _ _ _ Ea). by rewrite Permutation_middle. }
  pose proof (owns_perm _ _ _ _ _ Hp Ho) as Ho'. pose proof Ho' as [_ _ Hnd Hfr _].
  apply list.NoDup_app in Hnd as (_ & _ & Hnd).
  assert (holding [] d0 (of_st (bus_d b) i)) as Hh by by eapply owns_holding.
  specialize (Hm Hh). unfold wp, on_iface in *. rewrite Ea. destruct (m _) as [[r o]|]; [|done].
  destruct Hm as [Hm HΦ]. exists o. split; [done|]. split; [|done].
  eapply owns_perm; [|eapply (holding_owns (a :: bus_owned (delete a (idevs b))))]; try done.
  - rewrite (bus_owned_update _ _ _ _ Ea), owned_from. by rewrite Permutation_middle.
  - intros x Hx. apply Hfr. apply elem_of_app. by right.
Qed.

(** The blocks and the table; what holds in the middle of a notification too. *)
Definition consistent (base : gset Z) (ns : gmap Z device_node) (b : busst) : Prop :=
  owns (bus_owned (idevs b)) base ns (bus_d b) ∧ lists MAX_IOSS_DEVICES (ioss_devices b) (dom (idevs b)).

Lemma dom_owned m a : is_Some (m !! a) → a ∈ bus_owned m.
Proof. intros [i E]. rewrite (bus_owned_delete _ _ _ E). left. Qed.

(** Everything but devices and blocks. *)
Definition same_rest (b b' : busst) : Prop :=
  ioss_drivers b' = ioss_drivers b ∧ bound_drivers b' = bound_drivers b ∧ pci_bus_nb b' = pci_bus_nb b.

Lemma alloc_idev_wp base ns k dev b : consistent base ns b →
  wp (ioss_bus_alloc_idev k dev) (λ o b', consistent base ns b' ∧ same_rest b b' ∧
    match o with
    | None => idevs b' = idevs b ∧ ioss_devices b' = ioss_devices b
    | Some a => idevs b !! a = None ∧ idevs b' = <[a := BusIdev dev false [] 0 None 0]> (idevs b)
    end) b.
Proof.
  intros [Ho Hl]. unfold ioss_bus_alloc_idev. apply wp_bind, wp_gets. simpl.
  destruct (free_slot (ioss_devices b)) as [i|] eqn:Ei; [|by apply wp_ret].
  destruct (negb _); [by apply wp_ret|]. apply wp_bind. eapply wp_mono; [by eapply heap_alloc_wp|].
  intros [a|] b1 (d & -> & P); [|apply wp_ret; by destruct P]. destruct P as [Ha Hn].
  assert (idevs b !! a = None) as Ea by (destruct (idevs b !! a) eqn:E; [destruct Hn; apply dom_owned; eauto|done]).
  wp_steps. split_and!; [|done|done|done]. split; simpl.
  - eapply owns_perm; [|exact Ha]. by rewrite bus_owned_insert.
  - rewrite dom_insert_L. apply lists_insert; [done|by apply free_slot_spec|by apply not_elem_of_dom].
Qed.

Lemma free_idev_wp base ns a i b : consistent base ns b → idevs b !! a = Some i →
  wp (ioss_bus_free_idev a) (λ _ b', consistent base ns b' ∧ same_rest b b' ∧ idevs b' = delete a (idevs b)) b.
Proof.
  intros [Ho Hl] Ea. unfold ioss_bus_free_idev. apply wp_bind.
  set (d0 := Dts (tree (bus_d b)) (list_to_set (a :: bus_owned (delete a (idevs b))) ∪ base) 0 []
    (pcie_syms (bus_d b)) (pcie_node (bus_d b))).
  eapply wp_mono; [apply (on_iface_wp a i d0 base ns _ (λ _ o, of_channels o = [] ∧ ioss_priv o = None)); try done|].
  - intros x. unfold d0. cbn [live]. rewrite elem_of_union, elem_of_list_to_set. done.
  - apply (ow_nodes _ _ _ _ Ho).
  - intros Hh. eapply wp_mono; [by apply drop_interface_wp|]. naive_solver.
  - intros [] b1 (o & -> & Ho1 & C1 & P1). wp_steps. eapply wp_mono.
    { apply (heap_free_wp _ (bus_owned (delete a (idevs b))) base ns). simpl.
      eapply owns_perm; [|exact Ho1]. rewrite (bus_owned_update _ _ _ _ Ea).
      unfold idev_owned. simpl. by rewrite C1, P1. }
    intros [] b2 (d & -> & Ho2). simpl. rewrite delete_insert_eq. split_and!; [|done|done]. split; simpl.
    + done.
    + rewrite dom_delete_L. by apply lists_clear.
Qed.

(** The device's node has a proper list of children. *)
Definition nodes_ok (ns : gmap Z device_node) (dev : Z) : Prop :=
  ∀ np, dev_of_node dev = Some np → ∃ l, children ns np l.

Lemma register_idev_wp base ns k dev a b : consistent base ns b → nodes_ok ns dev →
  idevs b !! a = Some (BusIdev dev false [] 0 None 0) →
  wp (ioss_bus_register_idev plat dev_of_node k dev a) (λ rc b', consistent base ns b' ∧ same_rest b b' ∧
    ∃ i, idevs b' = <[a := i]> (idevs b) ∧ bi_parent i = dev ∧
      (rc = 0 → bi_registered i = true ∧
         ∀ x j, idevs b !! x = Some j → bi_registered j = true → bi_parent j ≠ dev)) b.
Proof.
  intros [Ho Hl] Hns Ea. unfold ioss_bus_register_idev. apply wp_bind.
  pose proof (ow_nodes _ _ _ _ Ho) as En.
  eapply wp_mono; [apply (on_iface_wp a _ (bus_d b) base ns _ (λ _ _, True) _ Ea Ho); [|done|]|].
  - intros x. rewrite (ow_live _ _ _ _ Ho), (bus_owned_delete _ _ _ Ea). done.
  - intros _. assert (∃ l, ∀ n, dev_of_node dev = Some n → children ns n l) as [l Hc].
    { destruct (dev_of_node dev) as [np|] eqn:E; [|by exists []]. destruct (Hns np E) as [l ?].
      exists l. by intros n [= <-]. }
    eapply wp_mono; [apply (@parse_wp _ _ _ _ (plat dev) (dev_of_node dev) l); [apply Ho|done|simpl; rewrite En; exact Hc]|].
    intros rc o (Ha & _). done.
  - intros rc b1 (o & -> & Ho1 & _). set (m := <[a := from_of o _]> (idevs b)) in *.
    assert (lists MAX_IOSS_DEVICES (ioss_devices b) (dom m)) as Hl1.
    { unfold m. rewrite dom_insert_lookup_L; [done|eauto]. }
    destruct (negb (rc =? 0)) eqn:Erc.
    { apply wp_ret. split_and!; try done. eexists. split_and!; [done|done|]. intros. by destruct (rc =? 0) eqn:?; simplify_eq. }
    unfold device_register. apply wp_bind, wp_gets. simpl. unfold m at 1. rewrite lookup_insert_eq.
    case_bool_decide as Hdup.
    { apply wp_ret. split_and!; try done. eexists. split_and!; [done|done|done]. }
    destruct (Z.eqb_spec (bw_register k (bi_parent (from_of o (BusIdev dev false [] 0 None 0)))) 0) as [E|E].
    2:{ apply wp_ret. split_and!; try done. eexists. split_and!; [done|done|done]. }
    wp_steps. simpl. unfold m. rewrite insert_insert_eq. split_and!; [split; simpl| |].
    + eapply owns_perm; [|exact Ho1]. unfold m. by rewrite !(bus_owned_update _ _ _ _ Ea).
    + rewrite dom_insert_lookup_L; [done|eauto].
    + done.
    + eexists. split_and!; [done|done|]. intros _. split; [done|]. intros x j Ej Hj Hp. apply Hdup.
      exists x, j. split; [|done]. unfold m. rewrite lookup_insert_ne; [done|]. intros ->. rewrite Ea in Ej. injection Ej as <-. discriminate Hj.
Qed.

Lemma same_rest_trans b1 b2 b3 : same_rest b1 b2 → same_rest b2 b3 → same_rest b1 b3.
Proof. intros (? & ? & ?) (? & ? & ?). repeat split; congruence. Qed.

(** ** Devices come and go *)
Definition added (dev rc : Z) (b b' : busst) : Prop :=
  (rc = 0 ∧ ∃ a i, idevs b !! a = None ∧ idevs b' = <[a := i]> (idevs b) ∧
     bi_parent i = dev ∧ bi_registered i = true) ∨
  (rc ≠ 0 ∧ idevs b' = idevs b).

Lemma add_device_wp base ns k dev b : bus_ok base ns b → nodes_ok ns dev →
  wp (ioss_pci_add_device plat dev_of_node k dev) (λ rc b', bus_ok base ns b' ∧ same_rest b b' ∧ added dev rc b b') b.
Proof.
  intros [Ho Hl Hr Hp] Hns. unfold ioss_pci_add_device. apply wp_bind.
  eapply wp_mono; [by eapply alloc_idev_wp|]. intros [a|] b1 ([Ho1 Hl1] & R1 & P1).
  2:{ destruct P1 as [E1 E2]. apply wp_ret. split_and!; [|done|by right]. split; rewrite ?E1; try done.
      - by rewrite <- E1. - by rewrite <- E1. }
  destruct P1 as [Ea E1]. apply wp_bind.
  eapply wp_mono; [apply register_idev_wp; [done|done|by rewrite E1, lookup_insert_eq]|].
  intros rc b2 (C2 & R2 & i & E2 & Pi & Hreg). rewrite E1, insert_insert_eq in E2.
  destruct (Z.eqb_spec rc 0) as [->|Hne]; simpl.
  - destruct (Hreg eq_refl) as [Hi Hd]. apply wp_ret. split_and!.
    + destruct C2 as [Ho2 Hl2]. split; [done|done|..].
      * intros x j. rewrite E2. intros [[_ <-]|[_ Ej]]%lookup_insert_Some; eauto.
      * assert (∀ x j, idevs b !! x = Some j → bi_parent i ≠ bi_parent j) as Hd'.
        { intros x j Ej E. apply (Hd x j); [|by eapply Hr|congruence].
          rewrite E1, lookup_insert_ne; [done|]. intros ->. congruence. }
        intros x1 x2 i1 i2. rewrite E2. intros [[<- <-]|[_ Ex1]]%lookup_insert_Some
          [[<- <-]|[_ Ex2]]%lookup_insert_Some E; [done|..|eauto]; exfalso; [by eapply Hd'|].
        by eapply Hd'.
    + by eapply same_rest_trans.
    + left. split; [done|]. by exists a, i.
  - apply wp_bind. eapply wp_mono; [eapply free_idev_wp; [exact C2|by rewrite E2, lookup_insert_eq]|].
    intros [] b3 ([Ho3 Hl3] & R3 & E3). apply wp_ret.
    rewrite E2, delete_insert_eq, delete_id in E3 by done. split_and!.
    + split; rewrite ?E3; try done; by rewrite <- E3.
    + eapply same_rest_trans; [exact R1|]. by eapply same_rest_trans.
    + by right.
Qed.

Lemma real_to_idev_spec dev b : match ioss_real_to_idev dev b with
  | Some a => ∃ i, idevs b !! a = Some i ∧ is_idev_of dev (a, i)
  | None => ∀ a i, idevs b !! a = Some i → bi_registered i = true → bi_parent i ≠ dev
  end.
Proof.
  unfold ioss_real_to_idev. destruct (list_find _ _) as [[n [a i]]|] eqn:E; simpl.
  - apply list_find_Some in E as (E & Hi & _). exists i. split; [|done].
    by apply list_elem_of_lookup_2, elem_of_map_to_list in E.
  - apply list_find_None in E. intros a i Ei Hr Hp. rewrite Forall_forall in E.
    apply (E (a, i)); [by apply elem_of_map_to_list|done].
Qed.

Definition removed (dev rc : Z) (b b' : busst) : Prop :=
  (rc = 0 ∧ ∃ a i, idevs b !! a = Some i ∧ bi_parent i = dev ∧ idevs b' = delete a (idevs b)) ∨
  (rc = - ENODEV ∧ b' = b ∧ ∀ a i, idevs b !! a = Some i → bi_parent i ≠ dev).

Lemma remove_device_wp base ns dev b : bus_ok base ns b →
  wp (ioss_pci_remove_device dev) (λ rc b', bus_ok base ns b' ∧ same_rest b b' ∧ removed dev rc b b') b.
Proof.
  intros Hb. pose proof Hb as [Ho Hl Hr Hp]. unfold ioss_pci_remove_device. apply wp_bind, wp_gets.
  pose proof (real_to_idev_spec dev b) as Hf. destruct (ioss_real_to_idev dev b) as [a|].
  2:{ apply wp_ret. split_and!; [done|done|]. right. split_and!; try done. eauto. }
  destruct Hf as (i & Ea & _ & Hi). simpl in Hi. apply wp_bind, wp_modify.
  assert (alter (set_registered false) a (idevs b) = <[a := set_registered false i]> (idevs b)) as Ealt.
  { apply map_eq. intros x. destruct (decide (x = a)) as [->|Hne].
    - by rewrite lookup_alter_eq, lookup_insert_eq, Ea.
    - by rewrite lookup_alter_ne, lookup_insert_ne. }
  apply wp_bind. eapply wp_mono; [eapply (free_idev_wp base ns a (set_registered false i))|].
  - split; simpl; rewrite Ealt.
    + eapply owns_perm; [|exact Ho]. rewrite (bus_owned_update _ _ _ _ Ea). by rewrite (bus_owned_delete _ _ _ Ea).
    + rewrite dom_insert_lookup_L; [done|eauto].
  - simpl. rewrite Ealt. apply lookup_insert_eq.
  - intros [] b2 ([Ho2 Hl2] & R2 & E2). simpl in E2. rewrite Ealt, delete_insert_eq in E2.
    apply wp_ret. split_and!; [|done|left; split; [done|]; by exists a, i]. split; [done|done|..].
    + intros x j. rewrite E2. intros [_ Ej]%lookup_delete_Some. eauto.
    + intros x1 x2 i1 i2. rewrite E2. intros [_ E3]%lookup_delete_Some [_ E4]%lookup_delete_Some. eauto.
Qed.

(** ** Every sequence of operations *)
Definition bus_inv (base : gset Z) (ns : gmap Z device_node) (b : busst) : Prop :=
  bus_ok base ns b ∧ lists MAX_IOSS_DRIVERS (ioss_drivers b) (bound_drivers b).

Lemma inv_rest base ns b b' : bus_ok base ns b' → same_rest b b' → bus_inv base ns b → bus_inv base ns b'.
Proof. intros Hb (E1 & E2 & _) [_ Hl]. split; [done|]. by rewrite E1, E2. Qed.

Inductive bus_op :=
  | Notify (action : bus_action) (dev : Z) | PciStart (devs : list Z) | PciStop (devs : list Z)
  | RegisterDriver (idrv : Z) | UnregisterDriver (idrv : Z).
Definition bus_run (k : bus_world) (op : bus_op) : B unit :=
  match op with
  | Notify action dev => pci_bus_notification plat dev_of_node k action dev
  | PciStart devs => let* _ := ioss_pci_start plat dev_of_node k devs in ret tt
  | PciStop devs => ioss_pci_stop plat dev_of_node k devs
  | RegisterDriver idrv => let* _ := ioss_bus_register_driver k idrv in ret tt
  | UnregisterDriver idrv => ioss_bus_unregister_driver idrv
  end.
(** A driver is registered once. *)
Definition bus_enabled (b : busst) (op : bus_op) : Prop :=
  match op with RegisterDriver idrv => idrv ∉ bound_drivers b | _ => True end.
Definition bus_step (b b' : busst) : Prop := ∃ k op, bus_enabled b op ∧ bus_run k op b = Some (tt, b').

Lemma nb_inv base ns nb b : bus_inv base ns b → bus_inv base ns (b_nb nb b).
Proof. by intros [[] ?]. Qed.

Lemma notification_wp base ns k action dev b : bus_inv base ns b → nodes_ok ns dev →
  wp (pci_bus_notification plat dev_of_node k action dev)
     (λ _ b', bus_inv base ns b' ∧ same_rest b b' ∧
        (action = BUS_NOTIFY_UNBIND_DRIVER → ∃ rc, removed dev rc b b')) b.
Proof.
  intros [Hb Hd] Hns. destruct action; simpl.
  - apply wp_bind. eapply wp_mono; [by eapply add_device_wp|]. intros rc b' (Hb' & R & _). apply wp_ret.
    split_and!; [by eapply inv_rest|done|done].
  - apply wp_bind. eapply wp_mono; [by eapply remove_device_wp|]. intros rc b' (Hb' & R & Hrm). apply wp_ret.
    split_and!; [by eapply inv_rest|done|eauto].
  - by apply wp_ret.
Qed.

Lemma pcie_walk_wp base ns k action devs b : bus_inv base ns b → (∀ dev, nodes_ok ns dev) →
  wp (pcie_walk plat dev_of_node k action devs) (λ _ b', bus_inv base ns b' ∧ same_rest b b') b.
Proof.
  intros Hb Hns. revert b Hb. induction devs as [|dev devs IH]; intros b Hb; simpl; [by apply wp_ret|].
  apply wp_bind. assert (wp (if bw_driver k dev then pci_bus_notification plat dev_of_node k action dev else ret tt)
    (λ _ b', bus_inv base ns b' ∧ same_rest b b') b) as Hn.
  { destruct (bw_driver k dev); [|by apply wp_ret]. eapply wp_mono; [by eapply notification_wp|]. naive_solver. }
  eapply wp_mono; [exact Hn|]. intros [] b1 [Hb1 R1]. eapply wp_mono; [by apply IH|].
  intros [] b2 [Hb2 R2]. split; [done|]. by eapply same_rest_trans.
Qed.

Lemma register_driver_wp base ns k idrv b : bus_inv base ns b → idrv ∉ bound_drivers b →
  wp (ioss_bus_register_driver k idrv) (λ rc b', bus_inv base ns b' ∧
    bound_drivers b' = if rc =? 0 then {[ idrv ]} ∪ bound_drivers b else bound_drivers b) b.
Proof.
  intros [Hb Hl] Hn. unfold ioss_bus_register_driver. apply wp_bind, wp_gets. simpl.
  destruct (free_slot (ioss_drivers b)) as [i|] eqn:Ei; [|by apply wp_ret].
  apply free_slot_spec in Ei. wp_steps. destruct (Z.eqb_spec (bw_driver_register k) 0) as [E|E]; simpl; wp_steps; simpl.
  - split; [|done]. split; [by destruct Hb|]. simpl. by apply lists_insert.
  - destruct (Z.eqb_spec (bw_driver_register k) 0); [done|]. split; [|done]. split; [by destruct Hb|]. simpl.
    rewrite list_insert_insert_eq. by rewrite list_insert_id.
Qed.

Lemma bus_run_wp base ns k op b : bus_inv base ns b → (∀ dev, nodes_ok ns dev) → bus_enabled b op →
  wp (bus_run k op) (λ _ b', bus_inv base ns b') b.
Proof.
  intros Hb Hns He. destruct op as [action dev|devs|devs|idrv|idrv]; simpl in *.
  - eapply wp_mono; [by eapply notification_wp|]. naive_solver.
  - unfold ioss_pci_start. apply wp_bind. destruct (negb _); wp_steps; [done|].
    eapply wp_mono; [apply pcie_walk_wp; [by apply nb_inv|done]|]. intros [] b' [Hb' _]. by wp_steps.
  - unfold ioss_pci_stop. wp_steps. eapply wp_mono; [apply pcie_walk_wp; [by apply nb_inv|done]|]. naive_solver.
  - apply wp_bind. eapply wp_mono; [by eapply register_driver_wp|]. intros rc b' [Hb' _]. by apply wp_ret.
  - destruct Hb as [Hb Hl]. unfold ioss_bus_unregister_driver. wp_steps. split; [by destruct Hb|].
    simpl. by apply lists_clear.
Qed.

Lemma no_bus_inv d : heap_ok d → bus_inv (live d) (dt_nodes (tree d)) (no_bus d).
Proof.
  intros Hh. assert (∀ n, lists n (replicate n None) ∅) as Hl.
  { intros n. split; [by rewrite length_replicate| |].
    - intros a. split; [|by intros ?%not_elem_of_empty]. by intros (? & ?)%elem_of_replicate.
    - intros i j a E. by apply lookup_replicate in E as [? _]. }
  split; [split|apply Hl]; simpl; try done.
  - unfold bus_owned. rewrite map_to_list_empty. simpl. split; try done.
    + intros x. rewrite elem_of_nil. tauto.
    + constructor.
    + by intros x ?%elem_of_nil.
Qed.

(** The walk that unbinds keeps only devices it does not meet. *)
Lemma unbind_walk_wp base ns k devs b : bus_inv base ns b → (∀ dev, nodes_ok ns dev) →
  wp (pcie_walk plat dev_of_node k BUS_NOTIFY_UNBIND_DRIVER devs) (λ _ b', bus_inv base ns b' ∧
    same_rest b b' ∧ ∀ a i, idevs b' !! a = Some i →
      idevs b !! a = Some i ∧ ¬ (bi_parent i ∈ devs ∧ bw_driver k (bi_parent i) = true)) b.
Proof.
  intros Hb Hns. revert b Hb. induction devs as [|dev devs IH]; intros b Hb; simpl.
  { apply wp_ret. split_and!; [done|done|]. intros a i E. split; [done|]. by intros [?%elem_of_nil _]. }
  assert (wp (if bw_driver k dev then pci_bus_notification plat dev_of_node k BUS_NOTIFY_UNBIND_DRIVER dev else ret tt)
    (λ _ b1, bus_inv base ns b1 ∧ same_rest b b1 ∧ ∀ a i, idevs b1 !! a = Some i → idevs b !! a = Some i ∧
       ¬ (bi_parent i = dev ∧ bw_driver k dev = true)) b) as Hn.
  { destruct (bw_driver k dev) eqn:Ed; [|apply wp_ret; split_and!; [done|done|intros a i Ei; split; [done|by intros [_ ?]]]].
    eapply wp_mono; [by eapply notification_wp|]. intros [] b1 (Hb1 & R1 & Hrm). split_and!; [done|done|].
    intros a i Ei. destruct (Hrm eq_refl) as (rc & [(_ & x & j & Ej & Hj & E)|(_ & -> & Hno)]).
    - rewrite E in Ei. apply lookup_delete_Some in Ei as [Hne Ei]. split; [done|]. intros [Hi _].
      apply Hne. eapply (bo_parents base ns b); [apply Hb|exact Ej|exact Ei|congruence].
    - split; [done|]. intros [Hi _]. by eapply Hno. }
  apply wp_bind. eapply wp_mono; [exact Hn|]. intros [] b1 (Hb1 & R1 & H1b).
  eapply wp_mono; [by apply IH|]. intros [] b2 (Hb2 & R2 & H2b). split_and!; [done|by eapply same_rest_trans|].
  intros a i Ei. destruct (H2b a i Ei) as [E1 N1]. destruct (H1b a i E1) as [E0 N0]. split; [done|].
  rewrite elem_of_cons. intros [[Hd|Hd] Hk]; [|by apply N1]. apply N0. split; [done|by rewrite <- Hd].
Qed.

(** C15: From the empty bus, over every sequence of PCI notifications, scans and
    stops, and of glue drivers registering and unregistering, whichever of the
    allocations and registrations fail: every operation is defined, the table
    of devices lists each allocated device once and no other, the table of
    drivers each registered driver, there are at most ten of each, no PCI device
    has two, and the live blocks are those from before and, each once, those of
    the devices. *)
Theorem hotplug_safe d b : heap_ok d → (∀ dev, nodes_ok (dt_nodes (tree d)) dev) → rtc bus_step (no_bus d) b →
  bus_inv (live d) (dt_nodes (tree d)) b ∧ (size (idevs b) ≤ 10)%nat ∧ (size (bound_drivers b) ≤ 10)%nat ∧
  ∀ k op, bus_enabled b op → ∃ b', bus_run k op b = Some (tt, b').
Proof.
  intros Hh Hns Hrun. assert (bus_inv (live d) (dt_nodes (tree d)) b) as Hb.
  { eapply (rtc_ind_r (λ b, bus_inv (live d) (dt_nodes (tree d)) b)); [by apply no_bus_inv| |exact Hrun].
    intros b1 b2 _ (k & op & He & E) Hb1. pose proof (bus_run_wp _ _ k op _ Hb1 Hns He) as Hw.
    unfold wp in Hw. by rewrite E in Hw. }
  split_and!; [done|..].
  - rewrite <- size_dom. apply (lists_size MAX_IOSS_DEVICES (ioss_devices b)), Hb.
  - apply (lists_size MAX_IOSS_DRIVERS (ioss_drivers b)), Hb.
  - intros k op He. destruct (wp_elim _ _ _ (bus_run_wp _ _ k op _ Hb Hns He)) as ([] & b' & E & _). eauto.
Qed.

(** Stopping removes every device whose PCI device is still bound: when
    the walk meets them all, no device is left, the table is empty, exactly the
    blocks from before are live, and no notification will follow. *)
Theorem stop_leaves_nothing base ns k devs b : bus_inv base ns b → (∀ dev, nodes_ok ns dev) →
  (∀ a i, idevs b !! a = Some i → bi_parent i ∈ devs ∧ bw_driver k (bi_parent i) = true) →
  wp (ioss_pci_stop plat dev_of_node k devs) (λ _ b', idevs b' = ∅ ∧ live (bus_d b') = base ∧
    pci_bus_nb b' = false ∧ ∀ a, Some a ∉ ioss_devices b') b.
Proof.
  intros Hb Hns Hall. unfold ioss_pci_stop. wp_steps.
  eapply wp_mono; [apply unbind_walk_wp; [by apply nb_inv|done]|].
  intros [] b' ([[Ho Hl _ _] _] & (_ & _ & Enb) & Hnone). simpl in *.
  assert (idevs b' = ∅) as Ee.
  { apply map_empty. intros a. destruct (idevs b' !! a) as [i|] eqn:Ei; [|done].
    destruct (Hnone a i Ei) as [E0 []]. by eapply Hall. }
  rewrite Ee in Ho, Hl. split_and!; [done| |done|].
  - apply set_eq. intros x. rewrite (ow_live _ _ _ _ Ho). unfold bus_owned. rewrite map_to_list_empty. simpl.
    rewrite elem_of_nil. tauto.
  - intros a Ha. apply Hl in Ha. by rewrite dom_empty_L, elem_of_empty in Ha.
Qed.
End spec.
