(* ===== verification/IossPm.v ===== *)
(** * IOSS: power management hooks

    The second half of [ioss_pci.c]: the suspend and resume callbacks put in
    place of a PCI driver's own, which do nothing for a device that is on line
    and delegate otherwise; and the statement that every sequence of probes,
    removals, suspends and resumes is served. *)
From stdpp Require Import base tactics list gmap strings numbers sets relations.
From Stdlib Require Import ZArith Lia.
From S2P Require Import Prelude IossUtils RtlLib IossData.

(** ** Data *)
(** What [dev->driver->pm] points to: the driver's own operations or IOSS's. *)
Inductive pm_ops := RealPm | IossPm.
#[export] Instance pm_ops_eq_dec : EqDecision pm_ops.
Proof. solve_decision. Defined.

Record pci_flags := PciFlags { state_saved : bool; no_d3hot : bool }.
Record pm_stats := PmStats { apps_suspend : Z; apps_resume : Z; system_suspend : Z; system_resume : Z }.
Inductive real_call := RealSuspend (dev : Z) | RealResume (dev : Z).

(** The real driver and the glue driver that hijacks it, the devices' flags and
    counters, and the calls made to the real operations, latest first. *)
Record pci_pm := PciPm {
  driver_pm : option pm_ops; pm_ops_real : option pm_ops; pm_refcnt : Z;
  pci_devs : gmap Z pci_flags; dev_stats : gmap Z pm_stats; real_calls : list real_call }.

Abbreviation Y := (M pci_pm).

(** What there is of a device when a callback runs: its offload device's
    interface state and whether that is bound to the glue driver; the real
    driver's callbacks and their results. *)
Record pm_view := PmView {
  pv_idev : option (ioss_interface_state * bool);
  pv_suspend : option Z; pv_resume : option Z }.

Definition y_ops (p r : option pm_ops) (n : Z) (s : pci_pm) : pci_pm :=
  PciPm p r n (pci_devs s) (dev_stats s) (real_calls s).
Definition y_flags (dev : Z) (f : pci_flags) (s : pci_pm) : pci_pm :=
  PciPm (driver_pm s) (pm_ops_real s) (pm_refcnt s) (<[dev := f]> (pci_devs s)) (dev_stats s) (real_calls s).
Definition y_stats (dev : Z) (t : pm_stats) (s : pci_pm) : pci_pm :=
  PciPm (driver_pm s) (pm_ops_real s) (pm_refcnt s) (pci_devs s) (<[dev := t]> (dev_stats s)) (real_calls s).
Definition y_call (c : real_call) (s : pci_pm) : pci_pm :=
  PciPm (driver_pm s) (pm_ops_real s) (pm_refcnt s) (pci_devs s) (dev_stats s) (c :: real_calls s).

Definition flags_of (dev : Z) (s : pci_pm) : pci_flags := default (PciFlags false false) (pci_devs s !! dev).
Definition stats_of (dev : Z) (s : pci_pm) : pm_stats := default (PmStats 0 0 0 0) (dev_stats s !! dev).
Definition count (dev : Z) (f : pm_stats → pm_stats) : Y unit := modify (λ s, y_stats dev (f (stats_of dev s)) s).

(** ** Nothing to do *)
Definition ioss_pci_nop_suspend (dev : Z) : Y Z :=
  count dev (λ t, PmStats (u64 (apps_suspend t + 1)) (apps_resume t) (system_suspend t) (system_resume t)) ;;
  modify (λ s, y_flags dev (PciFlags false (no_d3hot (flags_of dev s))) s) ;;
  modify (λ s, y_flags dev (PciFlags (state_saved (flags_of dev s)) true) s) ;;
  ret 0.

Definition ioss_pci_nop_resume (dev : Z) : Y Z :=
  count dev (λ t, PmStats (apps_suspend t) (u64 (apps_resume t + 1)) (system_suspend t) (system_resume t)) ;;
  modify (λ s, y_flags dev (PciFlags (state_saved (flags_of dev s)) false) s) ;;
  ret 0.

(** ** Delegating *)
Definition ioss_check_pm_ops (o : pm_ops) : bool := match o with IossPm => true | RealPm => false end.

Definition real_pm_ops (v : pm_view) : Y (option pm_ops) :=
  let* s := gets id in
  match driver_pm s with
  | None => ub
  | Some o =>
      let pm := if ioss_check_pm_ops o then pm_ops_real s else None in
      match pm, pv_idev v with
      | Some p, _ => ret (Some p)
      | None, Some (_, true) => ret (pm_ops_real s)
      | None, _ => ret None
      end
  end.

(** Calling IOSS's own callback from itself would not end. *)
Definition ioss_pci_real_suspend (dev : Z) (v : pm_view) : Y Z :=
  let* o := real_pm_ops v in
  (match pv_idev v with
   | Some _ => count dev (λ t, PmStats (apps_suspend t) (apps_resume t) (u64 (system_suspend t + 1)) (system_resume t))
   | None => ret tt end) ;;
  match o, pv_suspend v with
  | Some IossPm, _ => ub
  | Some RealPm, Some rc => modify (y_call (RealSuspend dev)) ;; ret rc
  | _, _ => ret (- EINVAL)
  end.

Definition ioss_pci_real_resume (dev : Z) (v : pm_view) : Y Z :=
  let* o := real_pm_ops v in
  (match pv_idev v with
   | Some _ => count dev (λ t, PmStats (apps_suspend t) (apps_resume t) (system_suspend t) (u64 (system_resume t + 1)))
   | None => ret tt end) ;;
  match o, pv_resume v with
  | Some IossPm, _ => ub
  | Some RealPm, Some rc => modify (y_call (RealResume dev)) ;; ret rc
  | _, _ => ret (- EINVAL)
  end.

Definition is_online (v : pm_view) : bool :=
  match pv_idev v with Some (st, _) => bool_decide (st = IOSS_IF_ST_ONLINE) | None => false end.

Definition ioss_pci_suspend_handler (dev : Z) (v : pm_view) : Y Z :=
  if is_online v then ioss_pci_nop_suspend dev else ioss_pci_real_suspend dev v.
Definition ioss_pci_resume_handler (dev : Z) (v : pm_view) : Y Z :=
  if is_online v then ioss_pci_nop_resume dev else ioss_pci_real_resume dev v.

(** What the PCIe driver calls: the callback of whatever operations are in
    place; a missing one succeeds. *)
Definition pm_suspend (dev : Z) (v : pm_view) : Y Z :=
  let* s := gets id in
  match driver_pm s, pv_suspend v with
  | Some IossPm, _ => ioss_pci_suspend_handler dev v
  | Some RealPm, Some rc => modify (y_call (RealSuspend dev)) ;; ret rc
  | _, _ => ret 0
  end.
Definition pm_resume (dev : Z) (v : pm_view) : Y Z :=
  let* s := gets id in
  match driver_pm s, pv_resume v with
  | Some IossPm, _ => ioss_pci_resume_handler dev v
  | Some RealPm, Some rc => modify (y_call (RealResume dev)) ;; ret rc
  | _, _ => ret 0
  end.

(** ** Hijacking, under the glue driver's [pm_lock] *)
Definition ioss_pci_hijack_pm_ops : Y unit :=
  let* s := gets id in
  if pm_refcnt s =? 0 then modify (y_ops (Some IossPm) (driver_pm s) 1)
  else modify (y_ops (driver_pm s) (pm_ops_real s) (pm_refcnt s + 1)).

(** A count of zero is left alone, with a warning. *)
Definition ioss_pci_restore_pm_ops : Y unit :=
  let* s := gets id in
  if pm_refcnt s =? 0 then ret tt
  else if pm_refcnt s =? 1 then modify (y_ops (pm_ops_real s) (pm_ops_real s) 0)
  else modify (y_ops (driver_pm s) (pm_ops_real s) (pm_refcnt s - 1)).

(** ** What is preserved *)
(** With [n] devices probed. *)
Definition pm_ok (n : nat) (s : pci_pm) : Prop :=
  pm_refcnt s = Z.of_nat n ∧
  driver_pm s = Some (if decide (n = 0%nat) then RealPm else IossPm) ∧
  (n ≠ 0%nat → pm_ops_real s = Some RealPm).

Lemma hijack_wp n (Q : unit → pci_pm → Prop) s : pm_ok n s →
  (∀ s', pm_ok (S n) s' → pci_devs s' = pci_devs s → real_calls s' = real_calls s → Q tt s') →
  wp ioss_pci_hijack_pm_ops Q s.
Proof.
  intros (Hr & Hd & Ho) HQ. unfold ioss_pci_hijack_pm_ops. wp_steps. destruct (Z.eqb_spec (pm_refcnt (id s)) 0) as [E|E];
    simpl in E; apply wp_modify, HQ; try done; unfold pm_ok; simpl.
  - assert (n = 0%nat) as -> by lia. rewrite Hd. split_and!; done.
  - split_and!; [lia| |intros _; apply Ho; lia]. rewrite Hd. destruct n; [lia|done].
Qed.

Lemma restore_wp n (Q : unit → pci_pm → Prop) s : pm_ok (S n) s →
  (∀ s', pm_ok n s' → pci_devs s' = pci_devs s → real_calls s' = real_calls s → Q tt s') →
  wp ioss_pci_restore_pm_ops Q s.
Proof.
  intros (Hr & Hd & Ho) HQ. unfold ioss_pci_restore_pm_ops. wp_steps. simpl.
  destruct (Z.eqb_spec (pm_refcnt s) 0) as [E|E]; [lia|].
  destruct (Z.eqb_spec (pm_refcnt s) 1) as [E1|E1]; apply wp_modify, HQ; try done; unfold pm_ok; simpl.
  - assert (n = 0%nat) as -> by lia. rewrite Ho by done. by split_and!.
  - split_and!; [lia| |auto]. rewrite Hd. by destruct n; [lia|].
Qed.

(** Suspending, whatever is in place: nothing for a device on line that is
    probed, else one call of the real callback, or an error without one. *)
Definition suspended (n : nat) (dev : Z) (v : pm_view) (s : pci_pm) (rc : Z) (s' : pci_pm) : Prop :=
  pm_ok n s' ∧ (∀ d, d ≠ dev → flags_of d s' = flags_of d s) ∧
  if decide (n ≠ 0%nat ∧ is_online v = true)
  then rc = 0 ∧ flags_of dev s' = PciFlags false true ∧ real_calls s' = real_calls s
  else flags_of dev s' = flags_of dev s ∧
       match pv_suspend v with
       | Some r => rc = r ∧ real_calls s' = RealSuspend dev :: real_calls s
       | None => rc = (if decide (n = 0%nat) then 0 else - EINVAL) ∧ real_calls s' = real_calls s
       end.
Definition resumed (n : nat) (dev : Z) (v : pm_view) (s : pci_pm) (rc : Z) (s' : pci_pm) : Prop :=
  pm_ok n s' ∧ (∀ d, d ≠ dev → flags_of d s' = flags_of d s) ∧
  if decide (n ≠ 0%nat ∧ is_online v = true)
  then rc = 0 ∧ no_d3hot (flags_of dev s') = false ∧ state_saved (flags_of dev s') = state_saved (flags_of dev s) ∧
       real_calls s' = real_calls s
  else flags_of dev s' = flags_of dev s ∧
       match pv_resume v with
       | Some r => rc = r ∧ real_calls s' = RealResume dev :: real_calls s
       | None => rc = (if decide (n = 0%nat) then 0 else - EINVAL) ∧ real_calls s' = real_calls s
       end.

Lemma flags_insert dev f s : flags_of dev (y_flags dev f s) = f.
Proof. unfold flags_of. simpl. by rewrite lookup_insert_eq. Qed.
Lemma flags_insert_ne d dev f s : d ≠ dev → flags_of d (y_flags dev f s) = flags_of d s.
Proof. intros. unfold flags_of. simpl. by rewrite lookup_insert_ne. Qed.

Lemma pm_suspend_wp n dev v s : pm_ok n s → wp (pm_suspend dev v) (suspended n dev v s) s.
Proof.
  intros Hok. pose proof Hok as (Hr & Hd & Ho). unfold pm_suspend, suspended. wp_steps. simpl. rewrite Hd.
  destruct (decide (n = 0%nat)) as [->|Hn].
  { destruct (pv_suspend v); wp_steps; (rewrite decide_False by (by intros [? _])); split_and!; done. }
  unfold ioss_pci_suspend_handler. destruct (is_online v) eqn:Ev.
  - unfold ioss_pci_nop_suspend, count. wp_steps. rewrite decide_True by done. rewrite !flags_insert. simpl.
    split_and!; try done. intros d Hne. by rewrite !flags_insert_ne.
  - unfold ioss_pci_real_suspend, real_pm_ops, count. wp_steps. simpl.
    rewrite Hd, (Ho Hn). simpl. wp_steps. destruct (pv_idev v) as [[]|]; wp_steps; destruct (pv_suspend v); wp_steps;
      (rewrite decide_False by (by intros [_ ?])); split_and!; done.
Qed.

Lemma pm_resume_wp n dev v s : pm_ok n s → wp (pm_resume dev v) (resumed n dev v s) s.
Proof.
  intros Hok. pose proof Hok as (Hr & Hd & Ho). unfold pm_resume, resumed. wp_steps. simpl. rewrite Hd.
  destruct (decide (n = 0%nat)) as [->|Hn].
  { destruct (pv_resume v); wp_steps; (rewrite decide_False by (by intros [? _])); split_and!; done. }
  unfold ioss_pci_resume_handler. destruct (is_online v) eqn:Ev.
  - unfold ioss_pci_nop_resume, count. wp_steps. rewrite decide_True by done. rewrite !flags_insert. simpl.
    split_and!; try done. intros d Hne. by rewrite !flags_insert_ne.
  - unfold ioss_pci_real_resume, real_pm_ops, count. wp_steps. simpl.
    rewrite Hd, (Ho Hn). simpl. wp_steps. destruct (pv_idev v) as [[]|]; wp_steps; destruct (pv_resume v); wp_steps;
      (rewrite decide_False by (by intros [_ ?])); split_and!; done.
Qed.

(** ** Every sequence of operations *)
Inductive pm_op := Probe (dev : Z) | Remove (dev : Z) | Suspend (dev : Z) (v : pm_view) | Resume (dev : Z) (v : pm_view).

Definition pm_run (op : pm_op) : Y unit :=
  match op with
  | Probe _ => ioss_pci_hijack_pm_ops
  | Remove _ => ioss_pci_restore_pm_ops
  | Suspend dev v => let* _ := pm_suspend dev v in ret tt
  | Resume dev v => let* _ := pm_resume dev v in ret tt
  end.
(** The devices that are probed; a device is probed once before it is removed. *)
Definition pm_allowed (ps : gset Z) (op : pm_op) : Prop :=
  match op with Probe dev => dev ∉ ps | Remove dev => dev ∈ ps | _ => True end.
Definition pm_probed (ps : gset Z) (op : pm_op) : gset Z :=
  match op with Probe dev => {[ dev ]} ∪ ps | Remove dev => ps ∖ {[ dev ]} | _ => ps end.
Definition pm_step (x y : gset Z * pci_pm) : Prop :=
  ∃ op, pm_allowed x.1 op ∧ y.1 = pm_probed x.1 op ∧ pm_run op x.2 = Some (tt, y.2).

Lemma pm_run_wp ps op s : pm_ok (size ps) s → pm_allowed ps op →
  wp (pm_run op) (λ _ s', pm_ok (size (pm_probed ps op)) s') s.
Proof.
  intros Hok Hal. destruct op as [dev|dev|dev v|dev v]; simpl in *.
  - eapply hijack_wp; [done|]. intros s' Hs' _ _. rewrite size_union, size_singleton by set_solver. done.
  - assert (size ps = S (size (ps ∖ {[ dev ]}))) as E.
    { rewrite size_difference by set_solver. rewrite size_singleton.
      assert (size ps ≠ 0%nat); [|lia]. intros E. apply size_empty_inv in E. set_solver. }
    rewrite E in Hok. eapply restore_wp; [done|]. done.
  - apply wp_bind. eapply wp_mono; [by eapply pm_suspend_wp|]. intros rc s' Hs'. apply wp_ret, Hs'.
  - apply wp_bind. eapply wp_mono; [by eapply pm_resume_wp|]. intros rc s' Hs'. apply wp_ret, Hs'.
Qed.

(** C17: Over every sequence of probes, removals, suspends and resumes of the
    devices of one driver, none of which runs into undefined behaviour (IOSS's
    callbacks never call themselves): the driver's operations are its own
    exactly when no device is probed; and a suspend of a device is nothing when
    it is probed (or another one is) and its interface on line, and otherwise
    one call of the real callback, whose result it returns. *)
Theorem pm_hooks_safe s0 ps s dev v : pm_ok 0 s0 → rtc pm_step (∅, s0) (ps, s) →
  (driver_pm s = Some RealPm ↔ ps = ∅) ∧
  (∀ op, pm_allowed ps op → ∃ s', pm_run op s = Some (tt, s')) ∧
  wp (pm_suspend dev v) (suspended (size ps) dev v s) s.
Proof.
  intros H0 Hrun. assert (pm_ok (size ps) s) as Hok.
  { change (pm_ok (size (ps, s).1) (ps, s).2).
    eapply (rtc_ind_r (λ x, pm_ok (size x.1) x.2) (∅, s0)); [exact H0| |exact Hrun].
    intros x y _ (op & Hal & -> & E) Hx. exact (wp_run _ _ _ _ _ (pm_run_wp _ _ _ Hx Hal) E). }
  split_and!.
  - destruct Hok as (_ & Ed & _). rewrite Ed. destruct (decide (size ps = 0%nat)) as [E|E]; split; try done.
    + intros _. by apply leibniz_equiv, size_empty_inv.
    + intros ->. by destruct E.
  - intros op Hal. destruct (wp_elim _ _ _ (pm_run_wp ps op s Hok Hal)) as ([] & s' & E & _). eauto.
  - by apply pm_suspend_wp.
Qed.

(** A suspend followed by a resume of a probed device, with its interface
    in the same state at both, are a pair: on line, neither calls the real
    driver, both succeed, and the device may enter D3hot again; otherwise the
    real driver is suspended and resumed once each, and the flags are as they
    were. *)
Theorem suspend_resume_pair n dev v v' s : pm_ok (S n) s → pv_idev v = pv_idev v' →
  is_Some (pv_suspend v) → is_Some (pv_resume v') →
  wp (let* r := pm_suspend dev v in let* r' := pm_resume dev v' in ret (r, r')) (λ rs s',
    pm_ok (S n) s' ∧
    if is_online v
    then rs = (0, 0) ∧ real_calls s' = real_calls s ∧ flags_of dev s' = PciFlags false false
    else rs = (default 0 (pv_suspend v), default 0 (pv_resume v')) ∧
         real_calls s' = RealResume dev :: RealSuspend dev :: real_calls s ∧ flags_of dev s' = flags_of dev s) s.
Proof.
  intros Hok Ev [r Er] [r' Er']. assert (is_online v' = is_online v) as Eo by (unfold is_online; by rewrite Ev).
  apply wp_bind. eapply wp_mono; [by eapply pm_suspend_wp|]. intros a s1 (Hok1 & _ & C1).
  apply wp_bind. eapply wp_mono; [by eapply pm_resume_wp|]. intros b s2 (Hok2 & _ & C2). apply wp_ret.
  rewrite Eo in C2. rewrite Er in *. rewrite Er' in *. split; [done|]. destruct (is_online v).
  - rewrite decide_True in C1, C2 by done. destruct C1 as (-> & F1 & R1), C2 as (-> & F2 & F3 & R2).
    split_and!; [done|congruence|]. rewrite F1 in F3. destruct (flags_of dev s2). simpl in *. by subst.
  - rewrite decide_False in C1, C2 by (by intros [_ ?]). destruct C1 as (F1 & -> & R1), C2 as (F2 & -> & R2).
    split_and!; [done|congruence|congruence].
Qed.

(** ** Examples *)
Definition real_driver : pci_pm := PciPm (Some RealPm) None 0 ∅ ∅ [].
Definition on_line : pm_view := PmView (Some (IOSS_IF_ST_ONLINE, true)) (Some 0) (Some 0).
Definition off_line : pm_view := PmView (Some (IOSS_IF_ST_OFFLINE, true)) (Some 0) (Some 0).

Lemma pm_hooks_safe_witness : ∃ s, pm_run (Probe 5) real_driver = Some (tt, s) ∧ driver_pm s ≠ Some RealPm.
Proof.
  eexists. split; [reflexivity|].
  destruct (pm_hooks_safe real_driver {[ 5 ]} (PciPm (Some IossPm) (Some RealPm) 1 ∅ ∅ []) 5 on_line) as (Hd & _).
  - split_and!; done.
  - apply rtc_once. exists (Probe 5). by split_and!.
  - intros E. apply Hd in E. discriminate (f_equal size E).
Defined.

Lemma suspend_resume_pair_witness :
  wp (let* r := pm_suspend 5 off_line in let* r' := pm_resume 5 off_line in ret (r, r'))
     (λ rs s', rs = (0, 0) ∧ real_calls s' = [RealResume 5; RealSuspend 5]) (PciPm (Some IossPm) (Some RealPm) 1 ∅ ∅ []).
Proof.
  eapply wp_mono; [apply (suspend_resume_pair 0 5 off_line off_line); [split_and!; done|done|eauto|eauto]|].
  simpl. intros rs s' (_ & -> & -> & _). done.
Defined.

(** An interface that leaves the line between the two: suspended by IOSS,
    resumed by the real driver, and kept from D3hot. *)
Example unpaired :
  (λ o, match o with Some (_, s) => (real_calls s, no_d3hot (flags_of 5 s)) | None => ([], false) end)
    ((let* _ := pm_suspend 5 on_line in pm_resume 5 off_line) (PciPm (Some IossPm) (Some RealPm) 1 ∅ ∅ []))
  = ([RealResume 5], true).
Proof. vm_compute. reflexivity. Qed.
