(* ===== verification/IossMain.v ===== *)
(** * IOSS: the root device and the module

    [ioss_main.c]: the platform device that owns the bus, the notification
    that the IPA is ready, and the module's init and exit. The devices of
    [IossBus] find the root through the data of its node. *)
From stdpp Require Import base tactics list gmap strings numbers sets.
From Stdlib Require Import ZArith Lia.
From S2P Require Import Prelude DeviceTree Enabler IossUtils RtlLib IossData IossOf IossBus.

(** ** Data *)
(** [struct ioss] and its private block: the pointer to the workqueue ([None]
    is NULL), the bandwidth limit and the three bits of [status]. *)
Record ioss_root := IossRoot {
  io_addr : Z; io_priv : Z; io_wq : option Z; io_bw : Z;
  io_error : bool; io_probed : bool; io_ipa_rdy : bool }.

(** The bus, the root there is, the two pointers to it, whether the ready
    callback is registered, and the workqueues there are. *)
Record rootst := Root {
  r_b : busst; r_ioss : option ioss_root; r_drvdata : option Z; np_data : option Z; r_ready_cb : bool;
  r_wqs : list Z }.

Abbreviation R := (M rootst).

(** What the kernel answers: the bus's own answers, the devices of a walk,
    the workqueue, the registration of the callback, and whether the IPA is
    ready by then, so that it runs at once. *)
Record root_world := RootWorld {
  rw_bus : bus_world; rw_devs : list Z; rw_wq : bool; rw_ready_cb : Z; rw_ready : bool }.

Definition r_bus (b : busst) (r : rootst) : rootst := Root b (r_ioss r) (r_drvdata r) (np_data r) (r_ready_cb r) (r_wqs r).
Definition r_root (o : option ioss_root) (r : rootst) : rootst := Root (r_b r) o (r_drvdata r) (np_data r) (r_ready_cb r) (r_wqs r).
Definition r_data (dd np : option Z) (r : rootst) : rootst := Root (r_b r) (r_ioss r) dd np (r_ready_cb r) (r_wqs r).
Definition r_cb (c : bool) (r : rootst) : rootst := Root (r_b r) (r_ioss r) (r_drvdata r) (np_data r) c (r_wqs r).
Definition r_set_wqs (l : list Z) (r : rootst) : rootst := Root (r_b r) (r_ioss r) (r_drvdata r) (np_data r) (r_ready_cb r) l.

Definition on_bus {A} (m : B A) : R A := λ r,
  match m (r_b r) with Some (a, b) => Some (a, r_bus b r) | None => None end.

Definition io_set_wq (x : option Z) (i : ioss_root) : ioss_root :=
  IossRoot (io_addr i) (io_priv i) x (io_bw i) (io_error i) (io_probed i) (io_ipa_rdy i).
Definition io_set_bw (x : Z) (i : ioss_root) : ioss_root :=
  IossRoot (io_addr i) (io_priv i) (io_wq i) x (io_error i) (io_probed i) (io_ipa_rdy i).
Definition io_set_status (e p y : bool) (i : ioss_root) : ioss_root :=
  IossRoot (io_addr i) (io_priv i) (io_wq i) (io_bw i) e p y.

(** An update of the root; there is one. *)
Definition upd_root (f : ioss_root → ioss_root) : R unit :=
  let* r := gets id in
  match r_ioss r with Some i => modify (r_root (Some (f i))) | None => ub end.

(** A new workqueue, or NULL; only one that there is may be destroyed. *)
Definition alloc_workqueue (k : root_world) : R (option Z) :=
  let* l := gets r_wqs in
  if rw_wq k then let q := 1 + foldr Z.max 0 l in modify (r_set_wqs (q :: l)) ;; ret (Some q) else ret None.
Definition destroy_workqueue (o : option Z) : R unit :=
  let* l := gets r_wqs in
  match o with
  | Some q => if decide (q ∈ l) then modify (r_set_wqs (filter (λ x, x ≠ q) l)) else ub
  | None => ub
  end.

Section root.
Context `{OfApi} `{OfRead} (pdev : Z) (root_node : option Z).
Context (pci_ids : Z → option (Z * Z)) (dev_of_node : Z → option Z).

(** The platform as the parser of a device sees it, through [np->data] of the
    root's node ([ioss_find_dev_from_of_node]). *)
Definition plat_of (r : rootst) (dev : Z) : OfPlatform := {|
  pci_ids_of_dev := pci_ids dev;
  node_data := λ n, if decide (root_node = Some n) then np_data r else None;
  pdev_of_root := λ _, pdev; root_pdev := pdev |}.

Definition ioss_parse_dt : R Z :=
  match root_node with
  | None => ret (- EFAULT)
  | Some np =>
      let* r := gets id in
      (match of_property_read_u32 (tree (bus_d (r_b r))) np "qcom,max-ddr-bandwidth" with
       | Some v => upd_root (io_set_bw v)
       | None => ret tt end) ;;
      ret 0
  end.

Definition ioss_ipa_ready_notif (k : root_world) : R unit :=
  upd_root (λ i, io_set_status (io_error i) (io_probed i) true i) ;;
  let* r := gets id in
  let* rc := on_bus (ioss_pci_start (plat_of r) dev_of_node (rw_bus k) (rw_devs k)) in
  if negb (rc =? 0) then upd_root (λ i, io_set_status true (io_probed i) (io_ipa_rdy i) i) else ret tt.

Definition ipa_eth_register_ready_cb (k : root_world) : R Z :=
  let rc := rw_ready_cb k in
  if rc =? 0 then
    modify (r_cb true) ;;
    (if rw_ready k then ioss_ipa_ready_notif k else ret tt) ;;
    ret 0
  else ret rc.
Definition ipa_eth_unregister_ready_cb : R unit := modify (r_cb false).

(** [kzfree] of the root and its private block. *)
Definition free_root (a p : Z) : R unit :=
  on_bus (on_heap (kfree p)) ;; on_bus (on_heap (kfree a)) ;; modify (r_root None).

Definition ioss_probe (k : root_world) : R Z :=
  let* ioss := on_bus (on_heap kalloc) in
  match ioss with
  | None => ret (- ENOMEM)
  | Some a =>
      let* priv := on_bus (on_heap kalloc) in
      match priv with
      | None => on_bus (on_heap (kfree a)) ;; ret (- ENOMEM)
      | Some p =>
          modify (r_root (Some (IossRoot a p None 0 false false false))) ;;
          let err :=
            let* r := gets id in
            (match r_ioss r with
             | Some i => if io_wq i is Some _ then destroy_workqueue (io_wq i) else ret tt
             | None => ub end) ;;
            free_root a p ;;
            modify (r_data None None) ;;
            ret (- EFAULT) in
          match root_node with
          | None => ub      (* [np->data] *)
          | Some np =>
              modify (r_data (Some a) (Some a)) ;;
              let* rc := ioss_parse_dt in
              if negb (rc =? 0) then err
              else
                let* wq := alloc_workqueue k in
                upd_root (io_set_wq wq) ;;
                if negb (bool_decide (is_Some wq)) then err
                else
                  let* rc := ipa_eth_register_ready_cb k in
                  if negb (rc =? 0) then err
                  else
                    upd_root (λ i, io_set_status (io_error i) true (io_ipa_rdy i) i) ;;
                    ret 0
          end
      end
  end.

(** Driver data that is missing or not the root's would be followed. *)
Definition ioss_remove (k : root_world) : R Z :=
  let* r := gets id in
  match r_drvdata r, r_ioss r with
  | Some a, Some i =>
      if negb (a =? io_addr i) then ub
      else
        ipa_eth_unregister_ready_cb ;;
        on_bus (ioss_pci_stop (plat_of r) dev_of_node (rw_bus k) (rw_devs k)) ;;
        destroy_workqueue (io_wq i) ;;
        free_root (io_addr i) (io_priv i) ;;
        modify (r_data None None) ;;
        ret 0
  | _, _ => ub
  end.

(** ** The module *)
Record modst := Mod {
  m_log : ioss_log; m_bus : bool; m_root_dir : bool; m_devices_dir : bool; m_platform : bool; m_root : rootst }.
Abbreviation MD := (M modst).

(** The results of the bus, of the two directories and of the platform driver,
    and whether a platform device matches it. *)
Record mod_world := ModWorld {
  mw_bus : Z; mw_root_dir : bool; mw_devices_dir : bool; mw_platform : Z; mw_match : bool; mw_root : root_world }.

Definition on_log {A} (m : M ioss_log A) : MD A := λ s,
  match m (m_log s) with
  | Some (a, l) => Some (a, Mod l (m_bus s) (m_root_dir s) (m_devices_dir s) (m_platform s) (m_root s))
  | None => None
  end.
Definition on_root {A} (m : R A) : MD A := λ s,
  match m (m_root s) with
  | Some (a, r) => Some (a, Mod (m_log s) (m_bus s) (m_root_dir s) (m_devices_dir s) (m_platform s) r)
  | None => None
  end.
Definition s_bus (b : bool) (s : modst) : modst :=
  Mod (m_log s) b (m_root_dir s) (m_devices_dir s) (m_platform s) (m_root s).
Definition s_dirs (rd dd : bool) (s : modst) : modst :=
  Mod (m_log s) (m_bus s) rd dd (m_platform s) (m_root s).
Definition s_platform (b : bool) (s : modst) : modst :=
  Mod (m_log s) (m_bus s) (m_root_dir s) (m_devices_dir s) b (m_root s).

Definition bus_register (w : mod_world) : MD Z :=
  if mw_bus w =? 0 then modify (s_bus true) ;; ret 0 else ret (mw_bus w).
Definition bus_unregister : MD unit := modify (s_bus false).

Definition ioss_debugfs_init (w : mod_world) : MD Z :=
  let* s := gets id in
  if m_root_dir s then ret 0
  else
    modify (s_dirs (mw_root_dir w) false) ;;
    if negb (mw_root_dir w) then modify (s_dirs false false) ;; ret (- EFAULT)
    else
      modify (s_dirs true (mw_devices_dir w)) ;;
      if negb (mw_devices_dir w) then modify (s_dirs false false) ;; ret (- EFAULT) else ret 0.
Definition ioss_debugfs_exit : MD unit := modify (s_dirs false false).

(** Registering the driver probes the device that matches; what probing
    returns is not the driver's result. A device that was bound is removed. *)
Definition platform_driver_register (w : mod_world) : MD Z :=
  if mw_platform w =? 0 then
    modify (s_platform true) ;;
    (if mw_match w then let* _ := on_root (ioss_probe (mw_root w)) in ret tt else ret tt) ;;
    ret 0
  else ret (mw_platform w).
Definition platform_driver_unregister (w : mod_world) : MD unit :=
  let* s := gets id in
  (match r_ioss (m_root s) with
   | Some _ => let* _ := on_root (ioss_remove (mw_root w)) in ret tt
   | None => ret tt end) ;;
  modify (s_platform false).

Definition ioss_module_init (w : mod_world) : MD Z :=
  let* rc := on_log ioss_log_init in
  if negb (rc =? 0) then ret rc
  else
    let err_bus rc := on_log ioss_log_deinit ;; ret rc in
    let err_debugfs rc := bus_unregister ;; err_bus rc in
    let err_platform rc := ioss_debugfs_exit ;; err_debugfs rc in
    let* rc := bus_register w in
    if negb (rc =? 0) then err_bus rc
    else
      let* rc := ioss_debugfs_init w in
      if negb (rc =? 0) then err_debugfs rc
      else
        let* rc := platform_driver_register w in
        if negb (rc =? 0) then err_platform rc else ret 0.

Definition ioss_module_exit (w : mod_world) : MD unit :=
  platform_driver_unregister w ;;
  ioss_debugfs_exit ;;
  bus_unregister ;;
  on_log ioss_log_deinit.
End root.
