(* ===== verification/IossMainSpec.v ===== *)
(** * IOSS: the root device and the module, correctness

    Probing the root is all or nothing, and from whatever the notifications
    lead to, removing it gives back every block; the module's init and exit
    are undone in the same way. *)
From stdpp Require Import base tactics list gmap strings numbers sets relations.
From Stdlib Require Import ZArith Lia.
From S2P Require Import Prelude DeviceTree Enabler EnablerSpec IossUtils RtlLib IossData IossOf IossOfSpec IossBus IossBusSpec IossMain.

(** ** Blocks of the root *)
(** A block that is held counts as one from before, and back. *)
Lemma owns_lend a l base ns d : owns (a :: l) base ns d → owns l ({[ a ]} ∪ base) ns d ∧ a ∉ base.
Proof.
  intros [Hh Hl Hn Hf Ht]. apply NoDup_cons in Hn as [Ha Hn]. split; [|apply Hf; left]. split; try done.
  - intros x. rewrite Hl, elem_of_cons, elem_of_union, elem_of_singleton. tauto.
  - intros x Hx. rewrite elem_of_union, elem_of_singleton. intros [->|Hb]; [done|]. apply (Hf x); [by right|done].
Qed.
Lemma owns_back a l base ns d : owns l ({[ a ]} ∪ base) ns d → a ∉ base → owns (a :: l) base ns d.
Proof.
  intros [Hh Hl Hn Hf Ht] Ha. split; try done.
  - intros x. rewrite Hl, elem_of_cons, elem_of_union, elem_of_singleton. tauto.
  - apply NoDup_cons. split; [|done]. intros Hx. apply (Hf a Hx). set_solver.
  - intros x [->|Hx]%elem_of_cons; [done|]. intros Hb. apply (Hf x Hx). set_solver.
Qed.

Lemma inv_heap base base' ns d b : bus_inv base ns b → owns (bus_owned (idevs b)) base' ns d →
  bus_inv base' ns (b_d d b).
Proof. intros [[Ho Hl Hr Hp] Hd] Ho'. split; [by split|done]. Qed.

Lemma block_alloc_wp base ns b : bus_inv base ns b →
  wp (on_heap kalloc) (λ o b', idevs b' = idevs b ∧
    match o with
    | Some a => a ∉ base ∧ bus_inv ({[ a ]} ∪ base) ns b'
    | None => bus_inv base ns b'
    end) b.
Proof.
  intros Hb. eapply wp_mono; [apply (heap_alloc_wp (bus_owned (idevs b)) base ns), Hb|]. intros [a|] b' (d & -> & Ho & _); (split; [done|]).
  - apply owns_lend in Ho as [Ho Ha]. split; [done|by eapply inv_heap].
  - by eapply inv_heap.
Qed.
Lemma block_free_wp a base ns b : bus_inv ({[ a ]} ∪ base) ns b → a ∉ base →
  wp (on_heap (kfree a)) (λ _ b', idevs b' = idevs b ∧ ioss_devices b' = ioss_devices b ∧ bus_inv base ns b') b.
Proof.
  intros Hb Ha. eapply wp_mono; [apply (heap_free_wp a (bus_owned (idevs b)) base ns), owns_back; [apply Hb|done]|].
  intros [] b' (d & -> & Ho). split; [done|]. split; [done|by eapply inv_heap].
Qed.

Section spec.
Context `{OfOk} `{!OfRead} `{!OfReadOk} (pdev : Z) (root_node : option Z).
Context (pci_ids : Z → option (Z * Z)) (dev_of_node : Z → option Z).
Abbreviation plat := (plat_of pdev root_node pci_ids).

Lemma on_bus_wp {A} (m : B A) (Q : A → rootst → Prop) r : wp m (λ a b, Q a (r_bus b r)) (r_b r) → wp (on_bus m) Q r.
Proof. unfold wp, on_bus. by destruct (m (r_b r)) as [[a b]|]. Qed.
Lemma upd_root_wp f i (Q : unit → rootst → Prop) r : r_ioss r = Some i → Q tt (r_root (Some (f i)) r) → wp (upd_root f) Q r.
Proof. intros E HQ. unfold upd_root. apply wp_bind, wp_gets. simpl. rewrite E. by apply wp_modify. Qed.

(** ** The root there is, and none *)
Definition no_root (base : gset Z) (ns : gmap Z device_node) (r : rootst) : Prop :=
  r_ioss r = None ∧ r_drvdata r = None ∧ np_data r = None ∧ r_ready_cb r = false ∧
  r_wqs r = [] ∧ bus_inv base ns (r_b r).

Definition has_root (i : ioss_root) (base : gset Z) (ns : gmap Z device_node) (r : rootst) : Prop :=
  r_ioss r = Some i ∧ r_drvdata r = Some (io_addr i) ∧ np_data r = Some (io_addr i) ∧
  r_wqs r = option_list (io_wq i) ∧
  io_addr i ∉ base ∧ io_priv i ∉ {[ io_addr i ]} ∪ base ∧
  bus_inv ({[ io_priv i ]} ∪ ({[ io_addr i ]} ∪ base)) ns (r_b r).
Definition root_ok (base : gset Z) (ns : gmap Z device_node) (r : rootst) : Prop :=
  r_ready_cb r = true ∧ ∃ i, has_root i base ns r ∧ is_Some (io_wq i) ∧ io_probed i = true.

Lemma has_update i j base ns r : has_root i base ns r → io_addr j = io_addr i → io_priv j = io_priv i →
  io_wq j = io_wq i → has_root j base ns (r_root (Some j) r).
Proof. intros (E1 & E2 & E3 & Ew & Ha & Hp & Hb) A1 A2 A3. unfold has_root. rewrite A1, A2, A3. by split_and!. Qed.

(** The root's workqueue: made when there is none, destroyed with it. *)
Lemma alloc_wq_wp i base ns k r : has_root i base ns r → io_wq i = None →
  wp (let* wq := alloc_workqueue k in upd_root (io_set_wq wq) ;; ret wq) (λ wq r', bool_decide (is_Some wq) = rw_wq k ∧
    idevs (r_b r') = idevs (r_b r) ∧ r_ready_cb r' = r_ready_cb r ∧ has_root (io_set_wq wq i) base ns r') r.
Proof.
  intros (E1 & E2 & E3 & Ew & Ha & Hp & Hb) En. rewrite En in Ew. unfold alloc_workqueue.
  apply wp_bind, wp_bind, wp_gets. rewrite Ew. destruct (rw_wq k); simpl.
  - apply wp_bind, wp_modify, wp_ret, wp_bind. eapply upd_root_wp; [exact E1|]. apply wp_ret. by split_and!.
  - apply wp_ret, wp_bind. eapply upd_root_wp; [exact E1|]. apply wp_ret. by split_and!.
Qed.

(** Its blocks and its workqueue but the pointers to it. *)
Definition no_wq (i : ioss_root) (base : gset Z) (ns : gmap Z device_node) (r : rootst) : Prop :=
  r_wqs r = [] ∧ io_addr i ∉ base ∧ io_priv i ∉ {[ io_addr i ]} ∪ base ∧
  bus_inv ({[ io_priv i ]} ∪ ({[ io_addr i ]} ∪ base)) ns (r_b r).
Lemma destroy_wq_wp i base ns r : has_root i base ns r → is_Some (io_wq i) →
  wp (destroy_workqueue (io_wq i)) (λ _ r', no_wq i base ns r' ∧ r_ready_cb r' = r_ready_cb r ∧ r_b r' = r_b r) r.
Proof.
  intros (E1 & E2 & E3 & Ew & Ha & Hp & Hb) [q Eq]. rewrite Eq in *. unfold destroy_workqueue. apply wp_bind, wp_gets.
  rewrite Ew. simpl. rewrite decide_True by by left. apply wp_modify. split; [|done]. split_and!; try done.
  simpl. rewrite filter_cons_False by (intros Hx; by apply Hx). done.
Qed.

Lemma free_root_wp i base ns r : no_wq i base ns r → 
  wp (free_root (io_addr i) (io_priv i) ;; modify (r_data None None)) (λ _ r',
    idevs (r_b r') = idevs (r_b r) ∧ ioss_devices (r_b r') = ioss_devices (r_b r) ∧
    (r_ready_cb r = false → no_root base ns r')) r.
Proof.
  intros (Ew & Ha & Hp & Hb). unfold free_root. apply wp_bind, wp_bind, on_bus_wp.
  eapply wp_mono; [by eapply block_free_wp|]. intros [] b1 (I1 & D1 & Hb1). apply wp_bind, on_bus_wp.
  eapply wp_mono; [by eapply block_free_wp|]. intros [] b2 (I2 & D2 & Hb2). wp_steps.
  simpl in *. split_and!; [congruence|congruence|]. intros Hc. by split_and!.
Qed.
Lemma free_root_then_wp {A} i base ns (m : R A) (Q : A → rootst → Prop) r : no_wq i base ns r → r_ready_cb r = false →
  (∀ r', no_root base ns r' → idevs (r_b r') = idevs (r_b r) → wp m Q r') →
  wp (free_root (io_addr i) (io_priv i) ;; modify (r_data None None) ;; m) Q r.
Proof.
  intros Hr Hc Hm. pose proof (free_root_wp i base ns r Hr) as Hf. unfold wp, bind in *.
  destruct (free_root _ _ r) as [[[] r2]|]; [|done]. simpl in *. destruct Hf as (I & _ & Hn). by apply Hm; [apply Hn|].
Qed.

Lemma root_err_wp i base ns r : has_root i base ns r → r_ready_cb r = false →
  wp (let* r := gets id in
      (match r_ioss r with
       | Some i => if io_wq i is Some _ then destroy_workqueue (io_wq i) else ret tt
       | None => ub end) ;;
      free_root (io_addr i) (io_priv i) ;; modify (r_data None None) ;; ret (- EFAULT))
    (λ rc r', rc = - EFAULT ∧ no_root base ns r' ∧ idevs (r_b r') = idevs (r_b r)) r.
Proof.
  intros Hr Hc. apply wp_bind, wp_gets. simpl. rewrite (proj1 Hr). apply wp_bind.
  assert (wp (if io_wq i is Some _ then destroy_workqueue (io_wq i) else ret tt)
    (λ _ r', no_wq i base ns r' ∧ r_ready_cb r' = r_ready_cb r ∧ r_b r' = r_b r) r) as Hw.
  { destruct (io_wq i) as [q|] eqn:Eq; [rewrite <- Eq; by apply destroy_wq_wp|]. apply wp_ret.
    destruct Hr as (E1 & E2 & E3 & Ew & Ha & Hp & Hb). rewrite Eq in Ew. by split_and!. }
  eapply wp_mono; [exact Hw|]. intros [] r1 (Hn & Ec & Eb). eapply free_root_then_wp; [done|congruence|].
  intros r' Hr' I'. apply wp_ret. rewrite <- Eb. done.
Qed.

(** ** The IPA is ready *)
Lemma pci_start_wp base ns r k devs b : bus_inv base ns b → (∀ dev, nodes_ok dev_of_node ns dev) →
  wp (ioss_pci_start (plat r) dev_of_node k devs) (λ rc b', bus_inv base ns b' ∧ rc = bw_notifier k) b.
Proof.
  intros Hb Hns. unfold ioss_pci_start. destruct (Z.eqb_spec (bw_notifier k) 0) as [E|E]; simpl; [|by apply wp_ret].
  wp_steps. eapply wp_mono; [apply pcie_walk_wp; [by apply nb_inv|done]|]. intros [] b' [Hb' _]. by wp_steps.
Qed.

Lemma ready_wp i base ns k r : has_root i base ns r → (∀ dev, nodes_ok dev_of_node ns dev) →
  wp (ioss_ipa_ready_notif pdev root_node pci_ids dev_of_node k) (λ _ r', r_ready_cb r' = r_ready_cb r ∧
    has_root (io_set_status (io_error i || negb (bw_notifier (rw_bus k) =? 0)) (io_probed i) true i) base ns r') r.
Proof.
  intros Hr Hns. unfold ioss_ipa_ready_notif. apply wp_bind. eapply upd_root_wp; [apply Hr|].
  set (j := io_set_status (io_error i) (io_probed i) true i). pose proof (has_update i j _ _ _ Hr eq_refl eq_refl eq_refl) as Hr1.
  apply wp_bind, wp_gets, wp_bind, on_bus_wp.
  eapply wp_mono; [apply pci_start_wp; [apply Hr1|done]|]. intros rc b [Hb ->]. simpl.
  assert (has_root j base ns (r_bus b (r_root (Some j) r))) as Hr2.
  { destruct Hr1 as (? & ? & ? & ? & ? & ? & _). by split_and!. }
  destruct (bw_notifier (rw_bus k) =? 0); cbn [negb].
  - apply wp_ret. split; [done|]. rewrite orb_false_r. exact Hr2.
  - eapply upd_root_wp; [apply Hr2|]. split; [done|]. rewrite orb_true_r. by eapply has_update.
Qed.

(** ** Probing *)
Lemma probe_root_wp np base ns k r : root_node = Some np → no_root base ns r → (∀ dev, nodes_ok dev_of_node ns dev) →
  wp (ioss_probe pdev root_node pci_ids dev_of_node k) (λ rc r',
    if rc =? 0 then root_ok base ns r'
    else no_root base ns r' ∧ idevs (r_b r') = idevs (r_b r)) r.
Proof.
  intros Enp (E1 & E2 & E3 & E4 & E5 & Hb) Hns. unfold ioss_probe. apply wp_bind, on_bus_wp.
  eapply wp_mono; [by eapply block_alloc_wp|]. intros [a|] b1 [I1 P1]; [|apply wp_ret; by split_and!].
  destruct P1 as [Ha Hb1]. apply wp_bind, on_bus_wp. simpl.
  eapply wp_mono; [by eapply block_alloc_wp|]. intros [p|] b2 [I2 P2].
  2:{ apply wp_bind, on_bus_wp. simpl. eapply wp_mono; [by eapply block_free_wp|]. intros [] b3 (I3 & _ & Hb3).
      apply wp_ret. simpl. split_and!; [done..|congruence]. }
  destruct P2 as [Hp Hb2]. apply wp_bind, wp_modify. cbv zeta. unfold ioss_parse_dt. rewrite Enp.
  apply wp_bind, wp_modify. simpl.
  set (i0 := IossRoot a p None 0 false false false). set (r1 := r_data _ _ _).
  assert (has_root i0 base ns r1) as Hr1 by by split_and!.
  apply wp_bind, wp_bind, wp_gets, wp_bind.
  assert (∀ (Q : unit → rootst → Prop), (∀ v, Q tt (r_root (Some (io_set_bw v i0)) r1)) →
    wp match of_property_read_u32 (tree (bus_d (r_b (id r1)))) np "qcom,max-ddr-bandwidth" with
       | Some v => upd_root (io_set_bw v) | None => ret tt end Q r1) as Hbw.
  { intros Q HQ. destruct (of_property_read_u32 _ _ _) as [v|]; [by eapply upd_root_wp|]. apply wp_ret. apply (HQ 0). }
  apply Hbw. intros v. apply wp_ret. simpl. set (i1 := io_set_bw v i0). set (r2 := r_root _ r1).
  pose proof (has_update i0 i1 _ _ _ Hr1 eq_refl eq_refl eq_refl) as Hr2. change (has_root i1 base ns r2) in Hr2.
  assert (idevs (r_b r2) = idevs (r_b r)) as Ei by (simpl in *; congruence).
  pose proof (alloc_wq_wp i1 base ns k r2 Hr2 eq_refl) as Hwq. apply wp_bind_iff in Hwq.
  apply wp_bind. eapply wp_mono; [exact Hwq|]. intros wq r2' Hwq'. apply wp_bind_iff in Hwq'. apply wp_bind.
  eapply wp_mono; [exact Hwq'|]. intros [] r3 (Eq & Ei3 & Ec3 & Hr3). simpl in Ec3. rewrite Eq.
  set (i2 := io_set_wq wq i1) in *.
  destruct (rw_wq k) eqn:Ek; simpl.
  2:{ eapply wp_mono; [by apply (root_err_wp i2); [|congruence]|]. intros rc r' (-> & ? & ?). split; [done|congruence]. }
  apply bool_decide_eq_true in Eq.
  apply wp_bind. unfold ipa_eth_register_ready_cb. destruct (Z.eqb_spec (rw_ready_cb k) 0) as [E|E].
  2:{ apply wp_ret. rewrite (proj2 (Z.eqb_neq _ _) E). simpl.
      eapply wp_mono; [by apply (root_err_wp i2); [|congruence]|]. intros rc r' (-> & ? & ?). split; [done|congruence]. }
  apply wp_bind, wp_modify. set (r4 := r_cb true r3). assert (has_root i2 base ns r4) as Hr4 by exact Hr3.
  apply wp_bind. rewrite <- Enp. assert (wp (if rw_ready k then ioss_ipa_ready_notif pdev root_node pci_ids dev_of_node k else ret tt)
    (λ _ r', r_ready_cb r' = true ∧ ∃ j, has_root j base ns r' ∧ is_Some (io_wq j)) r4) as Hw.
  { destruct (rw_ready k); [|by apply wp_ret; split; [|exists i2]].
    eapply wp_mono; [by apply (ready_wp i2)|]. intros [] r' [Ec Hj]. split; [done|]. by eexists. }
  eapply wp_mono; [exact Hw|]. intros [] r5 (Ec & j & Hj & Ewq). apply wp_ret. simpl.
  apply wp_bind. eapply upd_root_wp; [apply Hj|]. apply wp_ret. split; [done|]. eexists. split_and!;
    [by eapply has_update|done|done].
Qed.

(** ** While the root is there *)
Inductive root_op := Ready | BusOp (op : bus_op).
Definition root_run (k : root_world) (op : root_op) : R unit :=
  match op with
  | Ready => ioss_ipa_ready_notif pdev root_node pci_ids dev_of_node k
  | BusOp op => let* r := gets id in on_bus (bus_run (plat r) dev_of_node (rw_bus k) op)
  end.
Definition root_enabled (r : rootst) (op : root_op) : Prop :=
  match op with Ready => r_ready_cb r = true | BusOp op => is_Some (r_ioss r) ∧ bus_enabled (r_b r) op end.
Definition root_step (r r' : rootst) : Prop := ∃ k op, root_enabled r op ∧ root_run k op r = Some (tt, r').

Lemma root_run_wp base ns k op r : root_ok base ns r → (∀ dev, nodes_ok dev_of_node ns dev) → root_enabled r op →
  wp (root_run k op) (λ _ r', root_ok base ns r') r.
Proof.
  intros (Hc & i & Hi & Hwq & Hpr) Hns He. destruct op as [|op]; simpl.
  - eapply wp_mono; [by apply (ready_wp i)|]. intros [] r' [Ec Hj]. split; [congruence|]. by eexists.
  - destruct Hi as (E1 & E2 & E3 & Ew & Ha & Hp & Hb). apply wp_bind, wp_gets, on_bus_wp.
    eapply wp_mono; [apply bus_run_wp; [exact Hb|done|apply He]|]. intros [] b Hb'.
    split; [done|]. exists i. by split_and!.
Qed.
Lemma root_steps base ns r r' : rtc root_step r r' → (∀ dev, nodes_ok dev_of_node ns dev) →
  root_ok base ns r → root_ok base ns r'.
Proof.
  intros Hst Hns. induction Hst as [|r1 r2 r3 (k & op & He & E) _ IH]; [done|]. intros Hr. apply IH.
  exact (wp_run _ _ _ _ _ (root_run_wp base ns k op r1 Hr Hns He) E).
Qed.
Lemma no_steps r r' : r_ioss r = None → r_ready_cb r = false → rtc root_step r r' → r' = r.
Proof.
  intros E1 E2 Hst. destruct Hst as [|r1 r2 r3 (k & op & He & _) _]; [done|].
  destruct op; simpl in He; [congruence|]. rewrite E1 in He. by destruct He as [[? ?] _].
Qed.

(** ** Removing *)
Lemma owns_none base ns d : owns [] base ns d → live d = base.
Proof. intros Ho. apply set_eq. intros x. rewrite (ow_live _ _ _ _ Ho), elem_of_nil. tauto. Qed.

(** Every device is that of a PCI device the walk meets, still bound. *)
Definition all_met (k : root_world) (b : busst) : Prop := ∀ a i, idevs b !! a = Some i →
  bi_parent i ∈ rw_devs k ∧ bw_driver (rw_bus k) (bi_parent i) = true.

(** No root, pointer, callback, workqueue or device, and the blocks of before. *)
Definition clean (base : gset Z) (ns : gmap Z device_node) (r : rootst) : Prop :=
  no_root base ns r ∧ idevs (r_b r) = ∅ ∧ live (bus_d (r_b r)) = base.

Lemma clean_intro base ns r : no_root base ns r → idevs (r_b r) = ∅ → clean base ns r.
Proof.
  intros Hr Ee. split_and!; [done|done|]. destruct Hr as (_ & _ & _ & _ & _ & [[Ho _ _ _] _]). rewrite Ee in Ho.
  unfold bus_owned in Ho. rewrite map_to_list_empty in Ho. by apply owns_none in Ho.
Qed.

Lemma remove_root_wp base ns k r : root_ok base ns r → (∀ dev, nodes_ok dev_of_node ns dev) → all_met k (r_b r) →
  wp (ioss_remove pdev root_node pci_ids dev_of_node k) (λ rc r', rc = 0 ∧ clean base ns r') r.
Proof.
  intros (Hc & i & Hi & Hwq & _) Hns Hall. pose proof Hi as (E1 & E2 & E3 & Ew & Ha & Hp & Hb).
  unfold ioss_remove. apply wp_bind, wp_gets. simpl. rewrite E2, E1, Z.eqb_refl. simpl.
  unfold ipa_eth_unregister_ready_cb. apply wp_bind, wp_modify, wp_bind, on_bus_wp. simpl. unfold ioss_pci_stop.
  apply wp_bind, wp_modify. eapply wp_mono; [apply unbind_walk_wp; [by apply nb_inv|done]|].
  intros [] b (Hb' & _ & Hnone). simpl in Hnone.
  assert (idevs b = ∅) as Ee.
  { apply map_empty. intros a. destruct (idevs b !! a) as [j|] eqn:Ej; [|done].
    destruct (Hnone a j Ej) as [E0 []]. by eapply Hall. }
  set (r1 := r_bus b _). assert (has_root i base ns r1) as Hr1 by by split_and!.
  apply wp_bind. eapply wp_mono; [by apply (destroy_wq_wp i base ns)|]. intros [] r2 (Hn & Ec & Eb).
  eapply free_root_then_wp; [exact Hn|by rewrite Ec|]. intros r' Hr' I'. apply wp_ret. split; [done|].
  apply clean_intro; [done|]. rewrite I', Eb. exact Ee.
Qed.

(** ** The module *)
Definition down (base : gset Z) (ns : gmap Z device_node) (s : modst) : Prop :=
  buf_norm (m_log s) = false ∧ buf_prio (m_log s) = false ∧ m_bus s = false ∧ m_root_dir s = false ∧
  m_devices_dir s = false ∧ m_platform s = false ∧ clean base ns (m_root s).
Definition up (base : gset Z) (ns : gmap Z device_node) (s : modst) : Prop :=
  buf_norm (m_log s) = true ∧ buf_prio (m_log s) = true ∧ m_bus s = true ∧ m_root_dir s = true ∧
  m_devices_dir s = true ∧ m_platform s = true ∧ (clean base ns (m_root s) ∨ root_ok base ns (m_root s)).

Lemma on_log_wp {A} (m : M ioss_log A) (Q : A → modst → Prop) s :
  wp m (λ a l, Q a (Mod l (m_bus s) (m_root_dir s) (m_devices_dir s) (m_platform s) (m_root s))) (m_log s) →
  wp (on_log m) Q s.
Proof. unfold wp, on_log. by destruct (m (m_log s)) as [[a l]|]. Qed.
Definition s_root (r : rootst) (s : modst) : modst :=
  Mod (m_log s) (m_bus s) (m_root_dir s) (m_devices_dir s) (m_platform s) r.
Lemma on_root_wp {A} (m : R A) (Q : A → modst → Prop) s :
  wp m (λ a r, Q a (s_root r s)) (m_root s) → wp (on_root m) Q s.
Proof. unfold wp, on_root. by destruct (m (m_root s)) as [[a l]|]. Qed.

Lemma log_init_wp l : buf_norm l = false → buf_prio l = false →
  wp ioss_log_init (λ rc l', buf_norm l' = (rc =? 0) ∧ buf_prio l' = (rc =? 0)) l.
Proof.
  intros E1 E2. eapply wp_mono; [apply ioss_log_init_wp; congruence|]. intros rc l' (Es & Hrc & _).
  rewrite <- Es. assert (buf_norm l' = (rc =? 0)) as ->; [|done].
  destruct (Z.eqb_spec rc 0) as [E|E]; [by apply Hrc|]. destruct (buf_norm l'); [|done]. by destruct E; apply Hrc.
Qed.
#[local] Ltac all_parts := unfold up, down; simpl; split_and!; try done.

Lemma init_wp np base ns w s : root_node = Some np → (∀ dev, nodes_ok dev_of_node ns dev) → down base ns s →
  wp (ioss_module_init pdev root_node pci_ids dev_of_node w) (λ rc s', if rc =? 0 then up base ns s' else down base ns s') s.
Proof.
  intros Enp Hns (L1 & L2 & D1 & D2 & D3 & D4 & Hcl). unfold ioss_module_init. cbv zeta.
  apply wp_bind, on_log_wp. eapply wp_mono; [by apply log_init_wp|]. intros rc l (N1 & N2).
  destruct (rc =? 0) eqn:Erc; simpl; [|apply wp_ret; rewrite Erc; all_parts].
  unfold bus_register, bus_unregister, ioss_debugfs_init, ioss_debugfs_exit, platform_driver_register.
  assert (∀ rc s1 (Q : Z → modst → Prop), Q rc (Mod (IossLog false false (log_fails (m_log s1))) (m_bus s1)
    (m_root_dir s1) (m_devices_dir s1) (m_platform s1) (m_root s1)) → wp (on_log ioss_log_deinit ;; ret rc) Q s1) as Hlog.
  { intros rc1 s1 Q HQ. by apply wp_bind, on_log_wp, wp_modify, wp_ret. }
  apply wp_bind. destruct (mw_bus w =? 0) eqn:Ebus; wp_steps; rewrite ?Ebus; simpl.
  2:{ apply Hlog. rewrite Ebus. all_parts. }
  rewrite D2. apply wp_bind, wp_modify. simpl. destruct (mw_root_dir w) eqn:Erd; simpl; wp_steps; simpl.
  2:{ apply Hlog. all_parts. }
  destruct (mw_devices_dir w) eqn:Edd; simpl; wp_steps; simpl.
  2:{ apply Hlog. all_parts. }
  destruct (mw_platform w =? 0) eqn:Epf; wp_steps; rewrite ?Epf; simpl; wp_steps.
  2:{ apply Hlog. rewrite Epf. all_parts. }
  destruct (mw_match w); wp_steps; simpl.
  - apply on_root_wp. simpl. destruct Hcl as (Hno & Ee & _).
    eapply wp_mono; [by eapply probe_root_wp|]. intros rc' r Hr. wp_steps. simpl.
    all_parts. cbv beta in Hr. destruct (rc' =? 0); [by right|]. left. destruct Hr as [Hr Er].
    apply clean_intro; [done|by etransitivity; [exact Er|]].
  - all_parts. by left.
Qed.

Lemma exit_wp base ns w s : (∀ dev, nodes_ok dev_of_node ns dev) → up base ns s →
  all_met (mw_root w) (r_b (m_root s)) →
  wp (ioss_module_exit pdev root_node pci_ids dev_of_node w) (λ _ s', down base ns s') s.
Proof.
  intros Hns (L1 & L2 & D1 & D2 & D3 & D4 & Hr) Hall.
  unfold ioss_module_exit, platform_driver_unregister, ioss_debugfs_exit, bus_unregister.
  apply wp_bind, wp_bind, wp_gets, wp_bind. simpl. destruct Hr as [Hcl|Hok].
  - pose proof Hcl as ((E1 & _) & _). rewrite E1. wp_steps. apply on_log_wp, wp_modify. all_parts.
  - pose proof Hok as (_ & i & (E1 & _) & _). rewrite E1. apply wp_bind, on_root_wp.
    eapply wp_mono; [by apply remove_root_wp|]. intros rc r [_ Hcl]. wp_steps. apply on_log_wp, wp_modify. all_parts.
Qed.


(** The module's init brings up the log contexts, the bus, the debugfs
    directories and the platform driver (and the root device, when one matches)
    or, on the first error, takes down what it brought up; from whatever state
    the root is led to, exit takes everything down again. *)
Theorem module_init_exit np base ns w s : root_node = Some np → (∀ dev, nodes_ok dev_of_node ns dev) → down base ns s →
  wp (ioss_module_init pdev root_node pci_ids dev_of_node w) (λ rc s1,
    if rc =? 0
    then up base ns s1 ∧ ∀ w' r, rtc root_step (m_root s1) r → all_met (mw_root w') (r_b r) →
         wp (ioss_module_exit pdev root_node pci_ids dev_of_node w') (λ _ s', down base ns s') (s_root r s1)
    else down base ns s1) s.
Proof.
  intros Enp Hns Hd. eapply wp_mono; [by eapply init_wp|]. intros rc s1 Hs. cbv beta in Hs. destruct (rc =? 0); [|done].
  split; [done|]. intros w' r Hst Hall. apply exit_wp; [done| |done].
  destruct Hs as (L1 & L2 & D1 & D2 & D3 & D4 & Hr). all_parts. destruct Hr as [Hcl|Hok].
  - left. pose proof Hcl as ((E1 & _ & _ & E2 & _ & _) & _). by rewrite (no_steps _ _ E1 E2 Hst).
  - right. by eapply root_steps.
Qed.
End spec.
