(* ===== verification/R8125Ioss.v ===== *)
(** * The r8125 glue driver

    [r8125_ioss.c]: the driver operations of an interface on top of the
    offload library, and the status it reports. *)
From stdpp Require Import base tactics list gmap strings numbers.
From Stdlib Require Import ZArith Lia.
From S2P Require Import Prelude IossUtils RtlLib IossData.

Section driver.
Context `{NicApi} `{IossApi}.

(** ** Opening and closing *)
Definition r8125_ioss_open_device : W Z :=
  if diag_skip_open_device then ret 0
  else
    let* rc := result in
    if negb (rc =? 0) then ret (- ENOMEM)
    else
      let* rc := on_nic (rtl8125_register_notifier rdev_addr) in
      if negb (rc =? 0) then ret (- EFAULT)
      else modify (if_private (Some rdev_addr)) ;; ret 0.

(** [idev->private] is followed whether or not it was set. *)
Definition r8125_ioss_close_device : W Z :=
  let* p := gets idev_private in
  match p with
  | None => ub
  | Some nb => let* _ := on_nic (rtl8125_unregister_notifier nb) in ret 0
  end.

(** ** Channels *)
Definition ring_of (p : ring_ptr) : W rtl8125_ring := on_nic (get_ring p).

(** The buffers of [ring], from index [k] on, into the channel's list. *)
Fixpoint add_bufs (i : nat) (bufs : list rtl8125_buf) : W Z :=
  match bufs with
  | [] => ret 0
  | b :: bufs' =>
      let* rc := ioss_channel_add_mem i BuffMem (b_addr b) (b_dma_addr b) (b_size b) in
      if negb (rc =? 0) then ret rc else add_bufs i bufs'
  end.

Fixpoint del_bufs (i : nat) (bufs : list rtl8125_buf) : W unit :=
  match bufs with
  | [] => ret tt
  | b :: bufs' => ioss_channel_del_mem i BuffMem (b_addr b) ;; del_bufs i bufs'
  end.

(** [ring->bufs[0 .. ring_size - 1]]; a NULL array or a short one is undefined. *)
Definition ring_bufs (r : rtl8125_ring) : W (list rtl8125_buf) :=
  match r_bufs r with
  | Some l => if decide (Z.of_nat (length l) = r_ring_size r) then ret l else ub
  | None => if r_ring_size r <=? 0 then ret [] else ub
  end.

Definition r8125_ioss_request_channel (i : nat) : W Z :=
  let* c := get_ch i in
  if diag_skip_request_channel then upd_ch i (c_handle (-1) None) ;; ret 0
  else
    let* ring := on_nic (rtl8125_request_ring (ring_size (config c)) (buff_size (config c))
      (direction c) RTL8125_CONTIG_BUFS false) in
    match ring with
    | None => ret (- EFAULT)
    | Some p =>
        let err_add_desc rc :=
          on_nic (rtl8125_release_ring (Some p)) ;; upd_ch i (c_handle (-1) None) ;; ret rc in
        let* r := ring_of p in
        let* rc := ioss_channel_add_mem i DescMem (r_desc_addr r) (r_desc_daddr r) (r_desc_size r) in
        if negb (rc =? 0) then err_add_desc rc
        else
          let* bufs := ring_bufs r in
          let* rc := add_bufs i bufs in
          if negb (rc =? 0)
          then del_bufs i bufs ;; ioss_channel_del_mem i DescMem (r_desc_addr r) ;; err_add_desc rc
          else upd_ch i (c_handle (r_queue_num r) (Some p)) ;; ret 0
    end.

Definition r8125_ioss_release_channel (i : nat) : W Z :=
  let* c := get_ch i in
  match ch_private c with
  | None => ub
  | Some p =>
      let* r := ring_of p in
      ioss_channel_del_mem i DescMem (r_desc_addr r) ;;
      let* bufs := ring_bufs r in
      del_bufs i bufs ;;
      on_nic (rtl8125_release_ring (Some p)) ;;
      upd_ch i (c_handle (-1) None) ;;
      ret 0
  end.

Definition r8125_ioss_enable_channel (i : nat) : W Z :=
  let* c := get_ch i in
  if diag_skip_enable_channel then ret 0 else on_nic (rtl8125_enable_ring (ch_private c)).

Definition r8125_ioss_disable_channel (i : nat) : W Z :=
  let* c := get_ch i in
  on_nic (rtl8125_disable_ring (ch_private c)) ;; ret 0.

(** ** Events *)
Definition r8125_ioss_request_event (i : nat) : W Z :=
  let* c := get_ch i in
  let ring := ch_private c in
  if diag_skip_request_event then ret 0
  else
    let* rc := ioss_channel_map_event i in
    if negb (rc =? 0) then ret (- EFAULT)
    else
      let* c := get_ch i in
      let* rc := on_nic (rtl8125_request_event ring MSIX_event_type (ev_daddr (event c)) (ev_data (event c))) in
      if negb (rc =? 0) then ioss_channel_unmap_event i ;; ret (- EFAULT)
      else
        let* rc := on_nic (rtl8125_set_ring_intr_mod ring (mod_usecs_max (event c) / 2)) in
        if negb (rc =? 0)
        then on_nic (rtl8125_release_event ring) ;; ioss_channel_unmap_event i ;; ret (- EFAULT)
        else ret 0.

Definition r8125_ioss_release_event (i : nat) : W Z :=
  let* c := get_ch i in
  on_nic (rtl8125_release_event (ch_private c)) ;;
  ioss_channel_unmap_event i ;;
  ret 0.

Definition r8125_ioss_enable_filters (i : nat) : W Z :=
  let* c := get_ch i in
  let filters := filter_types c in
  if filters =? 0 then ret 0
  else if decide (direction c = IOSS_CH_DIR_RX) then
    let* rc := (if negb (Z.land filters IOSS_RXF_F_IP =? 0)
                then on_nic (rtl8125_rss_redirect (ch_private c)) else ret 0) in
    if negb (rc =? 0) then ret (- EFAULT)
    else if negb (Z.ldiff filters IOSS_RXF_F_IP =? 0)
         then let* _ := on_nic rtl8125_rss_reset in ret (- EFAULT)
         else ret 0
  else ret (- EFAULT).

Definition r8125_ioss_disable_filters (i : nat) : W Z :=
  let* c := get_ch i in
  let filters := filter_types c in
  if filters =? 0 then ret 0
  else if decide (direction c = IOSS_CH_DIR_RX) then
    if negb (Z.land filters IOSS_RXF_F_IP =? 0) then
      let* rc := on_nic rtl8125_rss_reset in
      if negb (rc =? 0) then ret (- EFAULT) else ret 0
    else ret 0
  else ret (- EFAULT).

Definition r8125_ioss_enable_event (i : nat) : W Z :=
  let* c := get_ch i in
  if diag_skip_enable_event then ret 0
  else
    let* rc := on_nic (rtl8125_enable_event (ch_private c)) in
    if negb (rc =? 0) then ret rc
    else
      let* rc := r8125_ioss_enable_filters i in
      if negb (rc =? 0) then let* _ := on_nic (rtl8125_disable_event (ch_private c)) in ret rc
      else ret 0.

Definition r8125_ioss_disable_event (i : nat) : W Z :=
  let* c := get_ch i in
  let* rc := r8125_ioss_disable_filters i in
  if negb (rc =? 0) then ret rc
  else
    let* rc := on_nic (rtl8125_disable_event (ch_private c)) in
    if negb (rc =? 0) then ret rc else ret 0.

(** [r8125_ioss_ops]. *)
Definition r8125_ioss_ops : ioss_driver_ops := {|
  op_request_channel := Some r8125_ioss_request_channel;
  op_release_channel := Some r8125_ioss_release_channel;
  op_enable_channel := Some r8125_ioss_enable_channel;
  op_disable_channel := Some r8125_ioss_disable_channel;
  op_request_event := Some r8125_ioss_request_event;
  op_release_event := Some r8125_ioss_release_event;
  op_enable_event := Some r8125_ioss_enable_event;
  op_disable_event := Some r8125_ioss_disable_event |}.

(** ** Status *)
Record ioss_channel_status := ChStatus {
  st_enabled : bool; st_ring_size : Z; st_interrupt_modc : Z; st_interrupt_modt : Z;
  st_head_ptr : Z; st_tail_ptr : Z }.

Definition MODC_UNIT_MASK : Z := 0x3000.
Definition MODC_UNIT_SHIFT : Z := 12.
Definition MODC_VAL_MASK : Z := 0x0F00.
Definition MODC_VAL_SHIFT : Z := 8.
Definition TC_MODE_MASK : Z := 0x0C00.
Definition TC_MODE_SHIFT : Z := 10.
Definition TIMER_MASK : Z := 0x00FF.
Definition TIMER_UNIT : Z := 2048.
Definition R8125_TX_NEW_CTRL : Z := 0x203E.
Definition INT_MITI_V2_0_RX : Z := 0x0A00.
Definition INT_MITI_V2_0_TX : Z := 0x0A02.
Definition SW_TAIL_PTR0_8125 : Z := 0x2800.
Definition HW_CLO_PTR0_8125 : Z := 0x2802.

(** The four packet units; an index outside the table is undefined. *)
Definition PKT_UNIT : list Z := [1; 2; 4; 16].

Definition get_ch_mod (i : nat) (st : ioss_channel_status) : W ioss_channel_status :=
  let* c := get_ch i in
  let reg := RTL_R16 (match direction c with
    | IOSS_CH_DIR_RX => INT_MITI_V2_0_RX | IOSS_CH_DIR_TX => INT_MITI_V2_0_TX end + ch_id c * 8) in
  let modc_unit := Z.shiftr (Z.land reg MODC_UNIT_MASK) MODC_UNIT_SHIFT in
  let modc_val := Z.shiftr (Z.land reg MODC_VAL_MASK) MODC_VAL_SHIFT in
  let* unit := lift_opt (PKT_UNIT !! Z.to_nat modc_unit) in
  ret (ChStatus (st_enabled st) (st_ring_size st) (modc_val * unit) (Z.land reg TIMER_MASK * TIMER_UNIT)
         (st_head_ptr st) (st_tail_ptr st)).

Definition set_enabled (b : bool) (st : ioss_channel_status) : ioss_channel_status :=
  ChStatus b (st_ring_size st) (st_interrupt_modc st) (st_interrupt_modt st) (st_head_ptr st) (st_tail_ptr st).

(** The handle is followed for a receive channel only. *)
Definition get_ch_enabled (i : nat) (st : ioss_channel_status) : W ioss_channel_status :=
  let* c := get_ch i in
  match direction c with
  | IOSS_CH_DIR_RX =>
      match ch_private c with
      | Some p => let* r := ring_of p in ret (set_enabled (r_enabled r) st)
      | None => ub
      end
  | IOSS_CH_DIR_TX =>
      let tc_mode := Z.shiftr (Z.land (RTL_R16 R8125_TX_NEW_CTRL) TC_MODE_MASK) TC_MODE_SHIFT in
      ret (if (tc_mode =? 1) || ((tc_mode =? 0) && (ch_id c =? 0)) then set_enabled true st else st)
  end.

Definition get_ch_ring_size (i : nat) (st : ioss_channel_status) : W ioss_channel_status :=
  let* c := get_ch i in
  match ch_private c with
  | None => ub
  | Some p =>
      let* r := ring_of p in
      let* d := on_nic (load_desc (r_desc_addr r) (u32 (r_ring_size r - 1))) in
      ret (if negb (Z.land (dsc_opts1 d) RingEnd =? 0)
           then ChStatus (st_enabled st) (r_ring_size r) (st_interrupt_modc st) (st_interrupt_modt st)
                  (st_head_ptr st) (st_tail_ptr st)
           else st)
  end.

Definition get_ch_head_tail_ptr (i : nat) (st : ioss_channel_status) : W ioss_channel_status :=
  let* c := get_ch i in
  ret (match direction c with
       | IOSS_CH_DIR_TX => ChStatus (st_enabled st) (st_ring_size st) (st_interrupt_modc st) (st_interrupt_modt st)
           (RTL_R16 (SW_TAIL_PTR0_8125 + ch_id c * 4)) (RTL_R16 (HW_CLO_PTR0_8125 + ch_id c * 4))
       | IOSS_CH_DIR_RX => st
       end).

Definition r8125_ioss_channel_status (i : nat) (st : ioss_channel_status) : W (Z * ioss_channel_status) :=
  let* st := get_ch_mod i st in
  let* st := get_ch_enabled i st in
  let* st := get_ch_ring_size i st in
  let* st := get_ch_head_tail_ptr i st in
  ret (0, st).
End driver.
