(* ===== verification/IossLaws.v ===== *)
(** * IOSS: the contract of a network driver

    What an interface relies on when it calls the driver operations: each
    channel moves through phases, an operation that fails leaves it where it
    was, those that take down never fail, and nothing but the driver's own
    part of the state changes. Also the rules for the state of an interface. *)
From stdpp Require Import base tactics list gmap numbers.
From Stdlib Require Import ZArith Lia.
From S2P Require Import Prelude IossUtils RtlLib IossData.

(** ** Rules *)
Definition put_ch (i : nat) (c : ioss_channel) (w : iface) : iface :=
  if_channels (<[i := c]> (channels w)) w.

Lemma put_ch_put i c c' w : put_ch i c (put_ch i c' w) = put_ch i c w.
Proof. unfold put_ch. simpl. by rewrite list_insert_insert_eq. Qed.
Lemma at_put_ch i c c' w : channels w !! i = Some c → channels (put_ch i c' w) !! i = Some c'.
Proof. intros Hc. simpl. apply list_lookup_insert_eq. by eapply lookup_lt_Some. Qed.
Lemma put_ch_id i c w : channels w !! i = Some c → put_ch i c w = w.
Proof. intros Hc. unfold put_ch. rewrite list_insert_id by done. by destruct w. Qed.

Lemma get_ch_wp i c Q w : channels w !! i = Some c → Q c w → wp (get_ch i) Q w.
Proof. intros Hc HQ. unfold get_ch. apply wp_bind, wp_gets. by eapply wp_lift_opt. Qed.
Lemma upd_ch_wp i f c Q w : channels w !! i = Some c → Q tt (put_ch i (f c) w) → wp (upd_ch i f) Q w.
Proof. intros Hc HQ. unfold upd_ch. apply wp_bind. eapply get_ch_wp; [done|]. exact HQ. Qed.

Lemma on_nic_wp {A} (m : L A) (Q : A → iface → Prop) w :
  wp m (λ a s', Q a (if_nic s' w)) (ring_nic w) → wp (on_nic m) Q w.
Proof. unfold wp, on_nic. destruct (m (ring_nic w)) as [[a s']|]; done. Qed.

Lemma result_wp (Q : Z → iface → Prop) w : (∀ z l, Q z (if_results l w)) → wp result Q w.
Proof. intros HQ. unfold wp, result. apply HQ. Qed.

Lemma callout_wp c (Q : unit → iface → Prop) w : Q tt (if_calls (c :: calls w) w) → wp (callout c) Q w.
Proof. done. Qed.

(** ** Two views of a channel: the interface's part and the driver's *)
Definition net_view (c : ioss_channel) :=
  (default_config c, config c, direction c, filter_types c,
   (ev_paddr (event c), ev_data (event c), mod_usecs_max (event c), ev_allocated (event c), ev_enabled (event c)),
   (ch_debugfs c, ch_allocated c, ch_enabled c), ipa_pi c).
Definition drv_view (c : ioss_channel) :=
  (direction c, filter_types c, ch_id c, desc_list c, buff_list c, ch_private c, ev_daddr (event c)).

Lemma views_eq c c' : net_view c = net_view c' → drv_view c = drv_view c' → c = c'.
Proof.
  unfold net_view, drv_view. destruct c as [???? [] ????????], c' as [???? [] ????????]; simpl.
  intros E1 E2. by simplify_eq.
Qed.

(** What a driver operation may change. *)
Definition drv_frame (w w' : iface) : Prop :=
  net_view <$> channels w' = net_view <$> channels w ∧
  if_state w' = if_state w ∧ link_speed w' = link_speed w ∧
  tcm_mem w' = tcm_mem w ∧ tcm_in_use w' = tcm_in_use w ∧ ipa_client w' = ipa_client w ∧
  idev_private w' = idev_private w ∧ calls w' = calls w.
(** What it may rely on not to change between operations. *)
Definition drv_same (w w' : iface) : Prop :=
  drv_view <$> channels w' = drv_view <$> channels w ∧ ring_nic w' = ring_nic w ∧ idev_private w' = idev_private w.

Lemma drv_frame_refl w : drv_frame w w.
Proof. by unfold drv_frame. Qed.
Lemma drv_frame_trans w1 w2 w3 : drv_frame w1 w2 → drv_frame w2 w3 → drv_frame w1 w3.
Proof. unfold drv_frame. intros (?&?&?&?&?&?&?&?) (?&?&?&?&?&?&?&?). split_and!; congruence. Qed.
Lemma drv_same_refl w : drv_same w w.
Proof. by unfold drv_same. Qed.
Lemma drv_same_trans w1 w2 w3 : drv_same w1 w2 → drv_same w2 w3 → drv_same w1 w3.
Proof. unfold drv_same. intros (?&?&?) (?&?&?). split_and!; congruence. Qed.

Lemma view_put {A} (v : ioss_channel → A) i c c' w : channels w !! i = Some c → v c' = v c →
  v <$> channels (put_ch i c' w) = v <$> channels w.
Proof.
  intros Hc Hv. simpl. rewrite list_fmap_insert, Hv, list_insert_id; [done|].
  by rewrite list_lookup_fmap, Hc.
Qed.
Lemma drv_frame_put i c c' w : channels w !! i = Some c → net_view c' = net_view c → drv_frame w (put_ch i c' w).
Proof. intros Hc Hv. split; [by eapply view_put|done]. Qed.
Lemma drv_frame_nic s w : drv_frame w (if_nic s w).
Proof. done. Qed.
Lemma drv_frame_results l w : drv_frame w (if_results l w).
Proof. done. Qed.
Lemma drv_same_put i c c' w : channels w !! i = Some c → drv_view c' = drv_view c → drv_same w (put_ch i c' w).
Proof. intros Hc Hv. split_and!; [by eapply view_put|done|done]. Qed.

(** ** Phases *)
Inductive phase := Idle | Held | EvReq | Ready | Running.
#[export] Instance phase_eq_dec : EqDecision phase.
Proof. solve_decision. Defined.

(** A channel's configuration that a ring can be made for. *)
Definition ring_size_ok (c : ioss_channel) : Prop := 1 ≤ ring_size (config c) < 2 ^ 32.

(** [op] takes a channel from one phase to the next, or fails and leaves it;
    a [sure] operation never fails. *)
Definition moves (rep : list phase → iface → Prop) (op : option (nat → W Z)) (from to : phase)
    (sure : bool) : Prop :=
  ∀ ps w i c, rep ps w → ps !! i = Some from → channels w !! i = Some c →
    (from = Idle → ring_size_ok c) →
    wp (ioss_dev_op op i) (λ rc w', drv_frame w w' ∧ (sure = true → rc = 0) ∧
      rep (if rc =? 0 then <[i := to]> ps else ps) w') w.

Class DriverLaws `{ioss_driver_ops} := {
  drv_rep : list phase → iface → Prop;
  drv_length ps w : drv_rep ps w → length ps = length (channels w);
  drv_stable ps w w' : drv_same w w' → drv_rep ps w → drv_rep ps w';
  request_channel_law : moves drv_rep op_request_channel Idle Held false;
  release_channel_law : moves drv_rep op_release_channel Held Idle true;
  request_event_law : moves drv_rep op_request_event Held EvReq false;
  release_event_law : moves drv_rep op_release_event EvReq Held true;
  enable_event_law : moves drv_rep op_enable_event EvReq Ready false;
  disable_event_law : moves drv_rep op_disable_event Ready EvReq true;
  enable_channel_law : moves drv_rep op_enable_channel Ready Running true;
  disable_channel_law : moves drv_rep op_disable_channel Running Ready true }.

(** ** The contract of the IPA side *)
Inductive ipa_phase := IpaDown | IpaUp | IpaStuck.

(** Registering may set the doorbell of each channel and the client's own
    record; the driver's view does not change. *)
Definition ipa_view (c : ioss_channel) :=
  (default_config c, config c, direction c, filter_types c,
   (mod_usecs_max (event c), ev_allocated (event c), ev_enabled (event c)),
   (ch_debugfs c, ch_allocated c, ch_enabled c)).
Definition ipa_frame (w w' : iface) : Prop :=
  drv_same w w' ∧ ipa_view <$> channels w' = ipa_view <$> channels w ∧
  if_state w' = if_state w ∧ link_speed w' = link_speed w ∧
  tcm_mem w' = tcm_mem w ∧ tcm_in_use w' = tcm_in_use w ∧ idev_private w' = idev_private w.
Definition ipa_same (w w' : iface) : Prop :=
  (λ c, (ev_paddr (event c), ev_data (event c), ipa_pi c)) <$> channels w' =
  (λ c, (ev_paddr (event c), ev_data (event c), ipa_pi c)) <$> channels w ∧ ipa_client w' = ipa_client w.

Class IpaLaws `{IpaOps} := {
  ipa_rep : ipa_phase → iface → Prop;
  ipa_stable ph w w' : ipa_same w w' → ipa_rep ph w → ipa_rep ph w';
  ipa_register_law w : ipa_rep IpaDown w →
    wp ioss_ipa_register (λ rc w', ipa_frame w w' ∧
      if rc =? 0 then ipa_rep IpaUp w' else ipa_rep IpaDown w' ∨ ipa_rep IpaStuck w') w;
  ipa_unregister_law w : ipa_rep IpaUp w →
    wp ioss_ipa_unregister (λ rc w', ipa_frame w w' ∧ ipa_rep (if rc =? 0 then IpaDown else IpaStuck) w') w }.

Lemma ipa_same_frame w w' : drv_frame w w' → ipa_same w w'.
Proof.
  intros (Hv & _ & _ & _ & _ & Hc & _). split; [|done]. apply list_eq. intros i.
  assert ((net_view <$> channels w') !! i = (net_view <$> channels w) !! i) as E by by rewrite Hv.
  rewrite !list_lookup_fmap in *. destruct (channels w !! i), (channels w' !! i); try done.
  simpl in *. unfold net_view in E. injection E. intros. congruence.
Qed.
