(* ===== verification/R8125Spec.v ===== *)
(** * The r8125 glue driver: correctness

    The driver implements the contract an interface relies on: the channels
    that hold a ring, the memory they describe, their events. *)
From stdpp Require Import base tactics sets list gmap numbers.
From Stdlib Require Import ZArith Lia.
From S2P Require Import Prelude IossUtils RtlLib RtlLibSpec RtlLibInv RtlLibOps RtlLibRss IossData IossLaws R8125Ioss.

Section spec.
Context `{NicApi} `{IossApi}.

(** ** Memory lists *)
Definition imem_of (b : rtl8125_buf) : ioss_mem := IMem (b_addr b) (b_dma_addr b) (b_size b).
Definition desc_of (r : rtl8125_ring) : ioss_mem := IMem (r_desc_addr r) (r_desc_daddr r) (r_desc_size r).

Lemma filter_every (P : ioss_mem → Prop) `{∀ m, Decision (P m)} (l : list ioss_mem) : (∀ m, m ∈ l → P m) → filter P l = l.
Proof.
  induction l as [|m l IH]; intros Hp; [done|]. rewrite filter_cons_True by (apply Hp; set_solver).
  rewrite IH; [done|]. intros m' Hm. apply Hp. set_solver.
Qed.
Lemma filter_no (P : ioss_mem → Prop) `{∀ m, Decision (P m)} (l : list ioss_mem) : (∀ m, m ∈ l → ¬ P m) → filter P l = [].
Proof.
  induction l as [|m l IH]; intros Hp; [done|]. rewrite filter_cons_False by (apply Hp; set_solver).
  apply IH. intros m' Hm. apply Hp. set_solver.
Qed.

Lemma add_mem_wp i l a d sz c w : channels w !! i = Some c →
  wp (ioss_channel_add_mem i l a d sz) (λ rc w', ∃ rs, w' = if_results rs
    (if rc =? 0 then put_ch i (set_list l (list_of l c ++ [IMem a d sz]) c) w else w)) w.
Proof.
  intros Hc. unfold ioss_channel_add_mem. apply wp_bind, result_wp. intros z1 l1.
  destruct (z1 =? 0); simpl; [|apply wp_ret; by eexists].
  apply wp_bind, result_wp. intros z2 l2. destruct (z2 =? 0); simpl; [|apply wp_ret; by eexists].
  apply wp_bind. eapply upd_ch_wp; [exact Hc|]. apply wp_ret. by eexists.
Qed.

Lemma add_bufs_wp i bufs c w : channels w !! i = Some c →
  wp (add_bufs i bufs) (λ rc w', ∃ rs k, (k ≤ length bufs)%nat ∧ (rc = 0 → k = length bufs) ∧
    w' = if_results rs (put_ch i (c_mem (desc_list c) (buff_list c ++ (imem_of <$> take k bufs)) c) w)) w.
Proof.
  revert c w. induction bufs as [|b bufs IH]; intros c w Hc; simpl.
  - apply wp_ret. exists (results w), 0%nat. split_and!; [lia|done|].
    rewrite app_nil_r. destruct c. simpl. rewrite put_ch_id by done. by destruct w.
  - apply wp_bind. eapply wp_mono; [by apply add_mem_wp|]. intros rc w' [rs ->].
    destruct (rc =? 0) eqn:E; simpl.
    + set (c1 := c_mem _ _ _).
      eapply wp_mono; [apply (IH c1); simpl; apply list_lookup_insert_eq; by eapply lookup_lt_Some|].
      intros rc' w' (rs' & k & Hk & Hrc & ->). exists rs', (S k). split_and!; [lia|intros ?; f_equal; auto|].
      unfold put_ch. simpl. rewrite list_insert_insert_eq. unfold c1, c_mem. simpl.
      by rewrite <- app_assoc.
    + apply wp_ret. exists rs, 0%nat. split_and!; [lia|lia|].
      rewrite app_nil_r. destruct c. simpl. rewrite put_ch_id by done. done.
Qed.

Lemma del_bufs_wp i bufs c w : channels w !! i = Some c →
  wp (del_bufs i bufs) (λ _ w', w' = put_ch i
    (c_mem (desc_list c) (filter (λ m, m_addr m ∉ (b_addr <$> bufs)) (buff_list c)) c) w) w.
Proof.
  revert c w. induction bufs as [|b bufs IH]; intros c w Hc; simpl.
  - apply wp_ret. rewrite filter_every; [|intros m _; apply not_elem_of_nil].
    destruct c. simpl. by rewrite put_ch_id.
  - apply wp_bind. unfold ioss_channel_del_mem. eapply upd_ch_wp; [done|].
    eapply wp_mono; [eapply IH, at_put_ch, Hc|]. intros [] w' ->. rewrite put_ch_put. simpl.
    unfold c_mem. simpl. do 2 f_equal. rewrite list_filter_filter. apply list_filter_iff.
    intros m. rewrite not_elem_of_cons. tauto.
Qed.

Lemma del_all bufs k : filter (λ m, m_addr m ∉ (b_addr <$> bufs)) (imem_of <$> take k bufs) = [].
Proof.
  apply filter_no. intros m Hm Hn. apply Hn.
  rewrite list_elem_of_fmap in Hm. destruct Hm as (b & -> & Hb). simpl.
  apply list_elem_of_fmap. exists b. split; [done|].
  apply elem_of_take in Hb as (j & Hj & _). by eapply list_elem_of_lookup_2.
Qed.

(** ** The representation *)
Definition ev_phase (ph : phase) : bool :=
  match ph with Idle | Held => false | EvReq | Ready | Running => true end.
(** The filters of a channel whose event is enabled. *)
Definition filters_on (c : ioss_channel) : Prop := filter_types c = 0 ∨ direction c = IOSS_CH_DIR_RX.

Definition ring_mem (c : ioss_channel) (r : rtl8125_ring) : Prop :=
  desc_list c = [desc_of r] ∧ ∃ bufs, r_bufs r = Some bufs ∧ buff_list c = imem_of <$> bufs.

Definition ch_ok (c : ioss_channel) (ph : phase) (s : nic) : Prop :=
  (ev_phase ph = false → ev_daddr (event c) = 0) ∧
  match ph with
  | Idle => ch_private c = None ∧ desc_list c = [] ∧ buff_list c = []
  | _ => ∃ p r, ch_private c = Some p ∧ rp_dir p = direction c ∧
           (lib_first (direction c) ≤ rp_idx p)%nat ∧ at_ring p r s ∧ r_allocated r = true ∧
           ring_mem c r ∧ e_allocated (r_event r) = ev_phase ph ∧
           (ph = Ready ∨ ph = Running → filters_on c)
  end.

Definition nic_ok (s : nic) : Prop := lib_ok s ∧ faults s = [] ∧ table_ok s.

(** A ring that can be lent is held by a channel, or has no event. *)
Definition ring_owned (chs : list ioss_channel) (p : ring_ptr) (r : rtl8125_ring) : Prop :=
  if r_allocated r then ∃ j c, chs !! j = Some c ∧ ch_private c = Some p
  else e_allocated (r_event r) = false.

Definition r8125_rep (ps : list phase) (w : iface) : Prop :=
  nic_ok (ring_nic w) ∧ length ps = length (channels w) ∧
  (∀ i j c c', channels w !! i = Some c → channels w !! j = Some c' → direction c = direction c' → i = j) ∧
  (∀ i c, channels w !! i = Some c → (lib_first (direction c) < lib_upto (direction c))%nat) ∧
  (∀ i c ph, channels w !! i = Some c → ps !! i = Some ph → ch_ok c ph (ring_nic w)) ∧
  (∀ p r, at_ring p r (ring_nic w) → (lib_first (rp_dir p) ≤ rp_idx p)%nat → ring_owned (channels w) p r).

Lemma same_lookup w w' i c' : drv_same w w' → channels w' !! i = Some c' →
  ∃ c, channels w !! i = Some c ∧ drv_view c = drv_view c'.
Proof.
  intros [Hv _] Hc. assert ((drv_view <$> channels w') !! i = Some (drv_view c')) as E
    by by rewrite list_lookup_fmap, Hc.
  rewrite Hv, list_lookup_fmap in E. destruct (channels w !! i) as [c|]; [|done].
  exists c. split; [done|]. by apply (inj Some) in E.
Qed.

Lemma drv_same_sym w w' : drv_same w w' → drv_same w' w.
Proof. intros (? & ? & ?). by split_and!. Qed.

Lemma drv_view_inj c c' : drv_view c = drv_view c' →
  direction c = direction c' ∧ filter_types c = filter_types c' ∧ ch_id c = ch_id c' ∧
  desc_list c = desc_list c' ∧ buff_list c = buff_list c' ∧ ch_private c = ch_private c' ∧
  ev_daddr (event c) = ev_daddr (event c').
Proof. unfold drv_view. intros E. injection E. intros. by split_and!. Qed.

Lemma ch_ok_view c c' ph s : drv_view c = drv_view c' → ch_ok c ph s → ch_ok c' ph s.
Proof.
  intros Hv. apply drv_view_inj in Hv as (E1 & E2 & _ & E4 & E5 & E6 & E7).
  unfold ch_ok, ring_mem, filters_on. rewrite E1, E2, E4, E5, E6, E7. done.
Qed.

Lemma r8125_stable ps w w' : drv_same w w' → r8125_rep ps w → r8125_rep ps w'.
Proof.
  intros Hs (R1 & R2 & R3 & R4 & R5 & R6). pose proof Hs as (Hv & Hn & _).
  unfold r8125_rep. rewrite Hn. split_and!.
  - done.
  - apply (f_equal length) in Hv. rewrite !length_fmap in Hv. lia.
  - intros i j c c' Hc Hc' Hd.
    destruct (same_lookup _ _ _ _ Hs Hc) as (c1 & Hc1 & V1).
    destruct (same_lookup _ _ _ _ Hs Hc') as (c2 & Hc2 & V2).
    apply drv_view_inj in V1 as (E1 & _), V2 as (E2 & _). apply (R3 i j c1 c2); congruence.
  - intros i c Hc. destruct (same_lookup _ _ _ _ Hs Hc) as (c1 & Hc1 & V1).
    apply drv_view_inj in V1 as (<- & _). by eapply R4.
  - intros i c ph Hc Hph. destruct (same_lookup _ _ _ _ Hs Hc) as (c1 & Hc1 & V1).
    eapply ch_ok_view; [done|by eapply R5].
  - intros p r Hr Hp. specialize (R6 p r Hr Hp). unfold ring_owned in *.
    destruct (r_allocated r); [|done]. destruct R6 as (j & c & Hc & Hcp).
    destruct (same_lookup _ _ _ _ (drv_same_sym _ _ Hs) Hc) as (c1 & Hc1 & V1).
    apply drv_view_inj in V1 as (_ & _ & _ & _ & _ & E & _). exists j, c1. split; [done|congruence].
Qed.

(** One channel moves, with the one ring it has or gets. *)
Lemma rep_step ps w i c c' ph p s' :
  r8125_rep ps w → channels w !! i = Some c → rp_dir p = direction c →
  direction c' = direction c → nic_ok s' →
  (∀ q r, q ≠ p → at_ring q r s' → at_ring q r (ring_nic w)) →
  (∀ q r, q ≠ p → at_ring q r (ring_nic w) → at_ring q r s') →
  (∀ q, ch_private c = Some q → q = p) → ch_ok c' ph s' →
  (∀ r, at_ring p r s' → if r_allocated r then ch_private c' = Some p else e_allocated (r_event r) = false) →
  r8125_rep (<[i := ph]> ps) (put_ch i c' (if_nic s' w)).
Proof.
  intros (R1 & R2 & R3 & R4 & R5 & R6) Hc Hp Hd Hok Hback Hkeep Hpriv Hch Hown.
  assert (∀ j cj, channels (put_ch i c' (if_nic s' w)) !! j = Some cj →
    j = i ∧ cj = c' ∨ j ≠ i ∧ channels w !! j = Some cj) as Hinv.
  { intros j cj Hcj. simpl in Hcj. apply list_lookup_insert_Some in Hcj as [(<- & <- & _)|[? ?]]; auto. }
  unfold r8125_rep. simpl ring_nic. split_and!.
  - done.
  - simpl. by rewrite !length_insert.
  - intros j k cj ck Hcj Hck Hdj. apply Hinv in Hcj as [[-> ->]|[? Hcj]], Hck as [[-> ->]|[? Hck]]; [done|..].
    + apply (R3 i k c ck); congruence.
    + apply (R3 j i cj c); congruence.
    + by apply (R3 j k cj ck).
  - intros j cj Hcj. apply Hinv in Hcj as [[-> ->]|[? Hcj]]; [rewrite Hd; by eapply R4|by eapply R4].
  - intros j cj phj Hcj Hphj. apply Hinv in Hcj as [[-> ->]|[Hji Hcj]].
    + apply list_lookup_insert_Some in Hphj as [(_ & <- & _)|[? _]]; done.
    + rewrite list_lookup_insert_ne in Hphj by done. destruct (R5 j cj phj Hcj Hphj) as [A B].
      split; [done|]. destruct phj; [done|..];
        destruct B as (q & r & B1 & B2 & B3 & B4 & B5); exists q, r; (split_and!; try done; [|apply B5..]);
        (apply Hkeep; [|done]); intros ->; apply Hji, (R3 j i cj c); congruence.
  - intros q r Hr Hq. destruct (decide (q = p)) as [->|Hqp].
    + specialize (Hown r Hr). unfold ring_owned. destruct (r_allocated r); [|done].
      exists i, c'. split; [|done]. by eapply at_put_ch.
    + specialize (R6 q r (Hback q r Hqp Hr) Hq). unfold ring_owned in *.
      destruct (r_allocated r); [|done]. destruct R6 as (j & cj & Hcj & Hcq). exists j, cj.
      split; [|done]. simpl. rewrite list_lookup_insert_ne; [done|].
      intros ->. apply Hqp, Hpriv. congruence.
Qed.

Lemma at_ring_inj p r r' s : at_ring p r s → at_ring p r' s → r = r'.
Proof. unfold at_ring. congruence. Qed.

(** ** A channel that holds a ring *)
Definition ring_step (p : ring_ptr) (r' : rtl8125_ring) (s s' : nic) : Prop :=
  nic_ok s' ∧ at_ring p r' s' ∧ ∀ q r, q ≠ p → (at_ring q r s' ↔ at_ring q r s).

Lemma put_ring_step p r r' s : nic_ok s → at_ring p r s → same_mem r r' → ring_step p r' s (put_ring p r' s).
Proof.
  intros (Hok & Hf & Ht) Hat Hsm. split_and!.
  - split_and!; [by eapply lib_ok_put|by rewrite put_ring_faults|].
    unfold table_ok in *. destruct p as [[] ?]; exact Ht.
  - by eapply at_put.
  - intros q r0 Hq. split; intros Hr0; [|by apply at_put_ne].
    apply at_put_inv in Hr0 as [[? _]|[_ ?]]; done.
Qed.

Lemma quiet_step p r' s s1 s' : ring_step p r' s s1 → quiet s1 s' → ring_step p r' s s'.
Proof.
  intros ((Hok & Hf & Ht) & Hat & Hq) Hqt. pose proof Hqt as (A1 & A2 & A3 & A4 & A5 & A6 & _).
  split_and!.
  - split_and!; [by eapply quiet_ok|congruence|]. unfold table_ok in *. by rewrite A6.
  - by eapply quiet_at.
  - intros q r Hne. rewrite <- Hq by done. unfold at_ring. by rewrite A1.
Qed.

Lemma same_mem_event r e : same_mem r (w_event e r).
Proof. by destruct r. Qed.
Lemma same_mem_enabled r b : same_mem r (w_enabled b r).
Proof. by destruct r. Qed.

(** What a channel that holds a ring gives. *)
Lemma held_inv ps w i c ph : r8125_rep ps w → channels w !! i = Some c → ps !! i = Some ph → ph ≠ Idle →
  ∃ p r, ch_private c = Some p ∧ rp_dir p = direction c ∧ at_ring p r (ring_nic w) ∧
    r_allocated r = true ∧ e_allocated (r_event r) = ev_phase ph ∧ ring_mem c r ∧
    (ev_phase ph = false → ev_daddr (event c) = 0) ∧ (ph = Ready ∨ ph = Running → filters_on c) ∧
    nic_ok (ring_nic w) ∧ lent_ok r (dma (ring_nic w)) (desc_lens (ring_nic w)).
Proof.
  intros (R1 & R2 & R3 & R4 & R5 & R6) Hc Hph Hne. destruct (R5 i c ph Hc Hph) as [Hd Hx].
  destruct ph; [done|..]; destruct Hx as (p & r & B1 & B2 & B3 & B4 & B5 & B6 & B7 & B8);
    exists p, r; (split_and!; try done; try apply R1; by eapply lib_ok_at; [apply R1|..]).
Qed.

Lemma move_held ps w i c c' ph0 ph p r r' s' :
  r8125_rep ps w → channels w !! i = Some c → ps !! i = Some ph0 → ph0 ≠ Idle → ph ≠ Idle →
  ch_private c = Some p → at_ring p r (ring_nic w) → same_mem r r' → ring_step p r' (ring_nic w) s' →
  direction c' = direction c ∧ desc_list c' = desc_list c ∧ buff_list c' = buff_list c ∧
    ch_private c' = ch_private c →
  e_allocated (r_event r') = ev_phase ph → (ev_phase ph = false → ev_daddr (event c') = 0) →
  (ph = Ready ∨ ph = Running → filters_on c') →
  r8125_rep (<[i := ph]> ps) (put_ch i c' (if_nic s' w)).
Proof.
  intros Hrep Hc Hph0 Hn0 Hn Hp Hat Hsm (Hok & Hat' & Hoth) (E1 & E2 & E3 & E4) Hev Hda Hfil.
  pose proof Hrep as (_ & _ & _ & _ & R5 & _). destruct (R5 i c ph0 Hc Hph0) as [_ Hx].
  assert (∃ p r, ch_private c = Some p ∧ rp_dir p = direction c ∧ (lib_first (direction c) ≤ rp_idx p)%nat ∧
    at_ring p r (ring_nic w) ∧ r_allocated r = true ∧ ring_mem c r) as (q & r0 & B1 & B2 & B3 & B4 & B5 & B6).
  { destruct ph0; [done|..]; destruct Hx as (q & r0 & B1 & B2 & B3 & B4 & B5 & B6 & _); by exists q, r0. }
  assert (q = p) as -> by congruence. assert (r0 = r) as -> by (unfold at_ring in *; congruence).
  assert (ring_mem c' r' ∧ r_allocated r' = true) as [Hm Ha].
  { rewrite Hsm. unfold ring_mem in *. rewrite E2, E3. done. }
  eapply (rep_step _ _ _ _ _ _ p); try done.
  - intros q r1 Hq. by apply Hoth.
  - intros q r1 Hq. by apply Hoth.
  - intros q Hq. congruence.
  - split; [done|]. destruct ph; [done|..]; exists p, r'; rewrite E1, E4; by split_and!.
  - intros r1 Hr1. assert (r1 = r') as -> by (unfold at_ring in *; congruence). rewrite Ha, E4. done.
Qed.

Lemma if_nic_id w : if_nic (ring_nic w) w = w.
Proof. by destruct w. Qed.

(** The laws, one operation at a time. *)
Context (skip1 : diag_skip_request_channel = false) (skip2 : diag_skip_enable_channel = false)
  (skip3 : diag_skip_request_event = false) (skip4 : diag_skip_enable_event = false).

Lemma rep_same_channel ps w i c s' ph0 ph p r r' :
  r8125_rep ps w → channels w !! i = Some c → ps !! i = Some ph0 → ph0 ≠ Idle → ph ≠ Idle →
  ch_private c = Some p → at_ring p r (ring_nic w) → same_mem r r' → ring_step p r' (ring_nic w) s' →
  e_allocated (r_event r') = ev_phase ph → (ev_phase ph = false → ev_daddr (event c) = 0) →
  (ph = Ready ∨ ph = Running → filters_on c) →
  r8125_rep (<[i := ph]> ps) (if_nic s' w).
Proof.
  intros. rewrite <- (put_ch_id i c (if_nic s' w)) by done. by eapply move_held.
Qed.

Lemma enable_channel_moves : moves r8125_rep (Some r8125_ioss_enable_channel) Ready Running true.
Proof.
  intros ps w i c Hrep Hph Hc _. destruct (held_inv _ _ _ _ _ Hrep Hc Hph ltac:(done))
    as (p & r & Hp & Hd & Hat & Ha & He & Hm & Hda & Hfil & Hok & Hl).
  simpl. unfold r8125_ioss_enable_channel. apply wp_bind. eapply get_ch_wp; [done|]. rewrite skip2, Hp.
  apply on_nic_wp. eapply wp_mono; [apply enable_ring_wp; [apply Hok|done]|].
  intros rc s' [-> Hq]. split_and!; [done|done|]. simpl.
  eapply (rep_same_channel _ w _ _ _ Ready Running p r (w_enabled true r)); try done.
  - eapply quiet_step; [|done]. eapply put_ring_step; [done|done|apply same_mem_enabled].
  - intros _. apply Hfil. by left.
Qed.

Lemma disable_channel_moves : moves r8125_rep (Some r8125_ioss_disable_channel) Running Ready true.
Proof.
  intros ps w i c Hrep Hph Hc _. destruct (held_inv _ _ _ _ _ Hrep Hc Hph ltac:(done))
    as (p & r & Hp & Hd & Hat & Ha & He & Hm & Hda & Hfil & Hok & Hl).
  simpl. unfold r8125_ioss_disable_channel. apply wp_bind. eapply get_ch_wp; [done|]. rewrite Hp.
  apply wp_bind, on_nic_wp. eapply wp_mono; [by apply disable_ring_wp|].
  intros [] s' Hq. apply wp_ret. split_and!; [done|done|]. simpl.
  eapply (rep_same_channel _ w _ _ _ Running Ready p r (w_enabled false r)); try done.
  - eapply quiet_step; [|done]. eapply put_ring_step; [done|done|apply same_mem_enabled].
  - intros _. apply Hfil. by right.
Qed.

Lemma hw_step p r r' h s : nic_ok s → at_ring p r s → same_mem r r' →
  ring_step p r' s (put_ring p r' (nic_hw h s)).
Proof.
  intros (Hok & Hf & Ht) Hat Hsm.
  destruct (put_ring_step p r r' (nic_hw h s)) as (A & B & C);
    [split_and!; [by apply lib_ok_hw|done|done]|by apply at_ring_hw|done|].
  split_and!; [done..|]. intros q r0 Hq. rewrite C by done. unfold at_ring. by rewrite rings_of_hw.
Qed.
Lemma step_trans p r1 r2 s s1 s2 : ring_step p r1 s s1 → ring_step p r2 s1 s2 → ring_step p r2 s s2.
Proof. intros (_ & _ & A) (B & C & D). split_and!; [done|done|]. intros q r Hq. by rewrite D, A. Qed.
Lemma same_mem_trans r1 r2 r3 : same_mem r1 r2 → same_mem r2 r3 → same_mem r1 r3.
Proof. unfold same_mem. intros -> ->. done. Qed.

Lemma rep_results ps rs w : r8125_rep ps w → r8125_rep ps (if_results rs w).
Proof. by apply r8125_stable. Qed.

Lemma same_phase (ps : list phase) (i : nat) ph : ps !! i = Some ph → <[i := ph]> ps = ps.
Proof. apply list_insert_id. Qed.

Lemma request_event_moves : moves r8125_rep (Some r8125_ioss_request_event) Held EvReq false.
Proof.
  intros ps w i c Hrep Hph Hc _. destruct (held_inv _ _ _ _ _ Hrep Hc Hph ltac:(done))
    as (p & r & Hp & Hd & Hat & Ha & He & Hm & Hda & Hfil & Hok & Hl). specialize (Hda eq_refl).
  simpl. unfold r8125_ioss_request_event. apply wp_bind. eapply get_ch_wp; [done|]. rewrite skip3, Hp.
  apply wp_bind. unfold ioss_channel_map_event. apply wp_bind. eapply get_ch_wp; [done|].
  rewrite Hda. simpl. apply wp_bind, result_wp. intros z rs. destruct (z =? 0); simpl.
  2:{ apply wp_bind. eapply upd_ch_wp; [done|]. do 2 apply wp_ret. split_and!; [|done|].
      - eapply drv_frame_trans; [apply (drv_frame_results rs)|].
        apply (drv_frame_put i c); [done|]. by destruct c as [???? []].
      - simpl. apply (r8125_stable _ (if_results rs w)); [|by apply rep_results].
        apply (drv_same_put i c); [done|]. unfold drv_view. simpl. by rewrite Hda. }
  apply wp_bind. eapply upd_ch_wp; [done|]. apply wp_ret. simpl.
  set (c1 := c_event _ c). apply wp_bind. eapply get_ch_wp; [by eapply at_put_ch|].
  apply wp_bind, on_nic_wp. eapply wp_mono; [by apply request_event_wp|]. intros rc s1 [-> ->]. simpl.
  set (r1 := w_event _ r). set (s1 := put_ring p r1 _).
  assert (ring_step p r1 (ring_nic w) s1) as Hs1 by (eapply hw_step; [done|done|apply same_mem_event]).
  assert (at_ring p r1 s1) as Hat1 by (by destruct Hs1 as (_ & ? & _)).
  apply wp_bind, on_nic_wp. eapply wp_mono; [eapply set_intr_mod_wp; [exact Hat1|done]|].
  intros rc s2 [-> ->]. simpl. apply wp_ret. set (r2 := w_event _ r1).
  split_and!; [|done|].
  - unfold drv_frame. simpl. split_and!; try done.
    eapply (view_put net_view i c c1 w); [done|]. by destruct c as [???? []].
  - simpl. eapply (move_held _ (if_results rs w) i c c1 Held EvReq p r r2); try done.
    + eapply step_trans; [exact Hs1|]. eapply hw_step; [apply Hs1|done|apply same_mem_event].
    + intros [?|?]; done.
Qed.

Lemma release_event_moves : moves r8125_rep (Some r8125_ioss_release_event) EvReq Held true.
Proof.
  intros ps w i c Hrep Hph Hc _. destruct (held_inv _ _ _ _ _ Hrep Hc Hph ltac:(done))
    as (p & r & Hp & Hd & Hat & Ha & He & Hm & Hda & Hfil & Hok & Hl).
  simpl. unfold r8125_ioss_release_event. apply wp_bind. eapply get_ch_wp; [done|]. rewrite Hp.
  apply wp_bind, on_nic_wp. eapply wp_mono; [by apply release_event_wp|]. intros [] s1 ->.
  rewrite He. simpl. set (r1 := w_event _ r). set (s1 := put_ring p r1 _).
  assert (ring_step p r1 (ring_nic w) s1) as Hs1 by (eapply hw_step; [done|done|apply same_mem_event]).
  apply wp_bind. unfold ioss_channel_unmap_event. apply wp_bind. eapply get_ch_wp; [done|].
  assert (wp (ret 0) (λ rc w', drv_frame w w' ∧ (true = true → rc = 0) ∧
    r8125_rep (if rc =? 0 then <[i := Held]> ps else ps) w')
    (put_ch i (c_event (e_map 0 (event c)) c) (if_nic s1 w))) as Hgoal.
  { apply wp_ret. split_and!; [|done|].
    - unfold drv_frame. simpl. split_and!; try done.
      eapply (view_put net_view i c _ w); [done|]. by destruct c as [???? []].
    - simpl. eapply (move_held _ w i c _ EvReq Held p r r1); try done. intros [?|?]; done. }
  destruct (ev_daddr (event c) =? 0) eqn:E.
  - apply wp_ret. apply Z.eqb_eq in E.
    assert (put_ch i (c_event (e_map 0 (event c)) c) (if_nic s1 w) = if_nic s1 w) as <-; [|exact Hgoal].
    apply put_ch_id. simpl. rewrite Hc. f_equal. destruct c as [???? []]. simpl in *. by rewrite E.
  - eapply upd_ch_wp; [done|]. exact Hgoal.
Qed.

Lemma indir_step p r f h s : nic_ok s → at_ring p r s →
  ring_step p r s (nic_hw h (nic_indir (fill_table f (rss_indir_tbl s)) s)).
Proof.
  intros (Hok & Hf & Hlen & Hk & Hm) Hat. split_and!.
  - split_and!; [by apply lib_ok_hw, lib_ok_indir|done|].
    unfold table_ok. simpl. rewrite fill_table_length. done.
  - destruct p as [[] j]; exact Hat.
  - intros [[] j] r0 _; done.
Qed.
Lemma id_step p r s : nic_ok s → at_ring p r s → ring_step p r s s.
Proof. intros Hok Hat. by split_and!. Qed.

Lemma redirect_step p r w (Q : Z → iface → Prop) : nic_ok (ring_nic w) → at_ring p r (ring_nic w) →
  (∀ s', ring_step p r (ring_nic w) s' → Q 0 (if_nic s' w)) →
  wp (on_nic (rtl8125_rss_redirect (Some p))) Q w.
Proof.
  intros Hok Hat HQ. apply on_nic_wp. eapply wp_mono; [apply rss_redirect_wp; [done|apply Hok]|].
  intros rc s' [-> ->]. apply HQ. by apply indir_step.
Qed.
Lemma reset_step p r w (Q : Z → iface → Prop) : nic_ok (ring_nic w) → at_ring p r (ring_nic w) →
  (∀ s', ring_step p r (ring_nic w) s' → Q 0 (if_nic s' w)) → wp (on_nic rtl8125_rss_reset) Q w.
Proof.
  intros Hok Hat HQ. apply on_nic_wp. eapply wp_mono; [apply rss_reset_wp, Hok|].
  intros rc s' [-> ->]. apply HQ. by apply indir_step.
Qed.

Lemma enable_filters_wp i c p r w :
  channels w !! i = Some c → ch_private c = Some p → nic_ok (ring_nic w) → at_ring p r (ring_nic w) →
  wp (r8125_ioss_enable_filters i) (λ rc w', ∃ s', w' = if_nic s' w ∧ ring_step p r (ring_nic w) s' ∧
    (rc = 0 → filters_on c)) w.
Proof.
  intros Hc Hp Hok Hat. unfold r8125_ioss_enable_filters. apply wp_bind. eapply get_ch_wp; [done|].
  assert (ring_step p r (ring_nic w) (ring_nic w)) as Hid by by apply id_step.
  destruct (Z.eqb_spec (filter_types c) 0) as [E|E].
  { apply wp_ret. exists (ring_nic w). rewrite if_nic_id. split_and!; [done|done|by left]. }
  case_decide as Hd.
  2:{ apply wp_ret. exists (ring_nic w). rewrite if_nic_id. by split_and!. }
  assert (∀ s', ring_step p r (ring_nic w) s' →
    wp (if negb (Z.ldiff (filter_types c) IOSS_RXF_F_IP =? 0)
        then let* _ := on_nic rtl8125_rss_reset in ret (- EFAULT) else ret 0)
      (λ rc w', ∃ s', w' = if_nic s' w ∧ ring_step p r (ring_nic w) s' ∧ (rc = 0 → filters_on c))
      (if_nic s' w)) as Htail.
  { intros s' Hs'. destruct (_ =? 0); simpl.
    - apply wp_ret. exists s'. split_and!; [done|done|by right].
    - apply wp_bind. destruct Hs' as (A & B & C). eapply reset_step; [done|done|].
      intros s'' Hs''. apply wp_ret. exists s''. split_and!; [done| |done].
      eapply step_trans; [|done]. by split_and!. }
  apply wp_bind. destruct (Z.land (filter_types c) IOSS_RXF_F_IP =? 0); simpl.
  - apply wp_ret. simpl. specialize (Htail _ Hid). by rewrite if_nic_id in Htail.
  - rewrite Hp. eapply redirect_step; [done|done|]. intros s' Hs'. simpl. by apply Htail.
Qed.

Lemma disable_filters_wp i c p r w :
  channels w !! i = Some c → filters_on c → nic_ok (ring_nic w) → at_ring p r (ring_nic w) →
  wp (r8125_ioss_disable_filters i) (λ rc w', rc = 0 ∧ ∃ s', w' = if_nic s' w ∧ ring_step p r (ring_nic w) s') w.
Proof.
  intros Hc Hon Hok Hat. unfold r8125_ioss_disable_filters. apply wp_bind. eapply get_ch_wp; [done|].
  assert (rc0 : (0:Z) = 0) by done.
  assert (∃ s', w = if_nic s' w ∧ ring_step p r (ring_nic w) s') as Hid.
  { exists (ring_nic w). rewrite if_nic_id. split; [done|by apply id_step]. }
  destruct (Z.eqb_spec (filter_types c) 0) as [E|E]; [by apply wp_ret|].
  destruct Hon as [?|Hon]; [done|]. case_decide; [|done].
  destruct (Z.land (filter_types c) IOSS_RXF_F_IP =? 0); simpl; [by apply wp_ret|].
  apply wp_bind. eapply reset_step; [done|done|].
  intros s' Hs'. simpl. apply wp_ret. split; [done|]. by exists s'.
Qed.

Lemma enable_event_moves : moves r8125_rep (Some r8125_ioss_enable_event) EvReq Ready false.
Proof.
  intros ps w i c Hrep Hph Hc _. destruct (held_inv _ _ _ _ _ Hrep Hc Hph ltac:(done))
    as (p & r & Hp & Hd & Hat & Ha & He & Hm & Hda & Hfil & Hok & Hl).
  simpl. unfold r8125_ioss_enable_event. apply wp_bind. eapply get_ch_wp; [done|]. rewrite skip4, Hp.
  apply wp_bind, on_nic_wp. eapply wp_mono; [by apply enable_event_wp|]. rewrite He. simpl.
  intros rc s1 [-> ->]. simpl. set (r1 := w_event _ r). set (s1 := put_ring p r1 _).
  assert (ring_step p r1 (ring_nic w) s1) as Hs1 by (eapply hw_step; [done|done|apply same_mem_event]).
  pose proof Hs1 as (Hok1 & Hat1 & _).
  apply wp_bind. eapply wp_mono; [eapply (enable_filters_wp i c p r1 (if_nic s1 w)); done|].
  intros rc w' (s2 & -> & Hs2 & Hon). simpl in Hs2. destruct (Z.eqb_spec rc 0) as [->|Hrc]; simpl.
  - apply wp_ret. split_and!; [done|done|]. simpl.
    eapply (rep_same_channel _ w _ _ _ EvReq Ready p r r1); try done.
    + by eapply step_trans.
    + by intros _; apply Hon.
  - apply wp_bind, on_nic_wp. pose proof Hs2 as (Hok2 & Hat2 & _).
    eapply wp_mono; [by apply disable_event_wp|]. simpl. unfold r1 at 1. simpl. rewrite He. simpl.
    intros rc' s3 [-> ->]. apply wp_ret. pose (r3 := w_event (w_ev_enabled false (r_event r1)) r1).
    split_and!; [done|done|]. destruct (Z.eqb_spec rc 0); [done|].
    rewrite <- (same_phase ps i EvReq) by done.
    eapply (rep_same_channel _ w _ _ _ EvReq EvReq p r r3); try done.
    + eapply step_trans; [by eapply step_trans|]. eapply hw_step; [done|done|apply same_mem_event].
Qed.

Lemma disable_event_moves : moves r8125_rep (Some r8125_ioss_disable_event) Ready EvReq true.
Proof.
  intros ps w i c Hrep Hph Hc _. destruct (held_inv _ _ _ _ _ Hrep Hc Hph ltac:(done))
    as (p & r & Hp & Hd & Hat & Ha & He & Hm & Hda & Hfil & Hok & Hl).
  simpl. unfold r8125_ioss_disable_event. apply wp_bind. eapply get_ch_wp; [done|]. rewrite Hp.
  apply wp_bind. eapply wp_mono; [eapply disable_filters_wp; [done|apply Hfil; by left|done|done]|].
  intros rc w' (-> & s1 & -> & Hs1). simpl. pose proof Hs1 as (Hok1 & Hat1 & _).
  apply wp_bind, on_nic_wp. eapply wp_mono; [by apply disable_event_wp|]. rewrite He. simpl.
  intros rc' s2 [-> ->]. simpl. apply wp_ret. split_and!; [done|done|]. simpl.
  eapply (rep_same_channel _ w _ _ _ Ready EvReq p r (w_event (w_ev_enabled false (r_event r)) r)); try done.
  - eapply step_trans; [exact Hs1|]. eapply hw_step; [done|done|apply same_mem_event].
  - intros [?|?]; done.
Qed.

(** ** Requesting and releasing *)
Definition other_rings (p : ring_ptr) (s s' : nic) : Prop :=
  ∀ q r, q ≠ p → (at_ring q r s' ↔ at_ring q r s).

Lemma put_others p r r' s st : at_ring p r s → (∀ d, rings_of d st = rings_of d s) →
  other_rings p s (put_ring p r' st) ∧ at_ring p r' (put_ring p r' st).
Proof.
  intros Hat Hst. assert (∀ q r0, at_ring q r0 st ↔ at_ring q r0 s) as E by (intros; unfold at_ring; by rewrite Hst).
  split.
  - intros q r0 Hq. rewrite <- E. split; intros Hr0; [|by apply at_put_ne].
    apply at_put_inv in Hr0 as [[? _]|[_ ?]]; done.
  - eapply at_put. by apply E.
Qed.

Lemma lent_facts d i r n sz s : nic_ok s → first_free d i r s → 1 ≤ n ≤ 2 ^ 32 →
  let p := RingPtr d i in let s' := lent_state p n sz r s in
  nic_ok s' ∧ at_ring p (lent_ring d n sz r s) s' ∧ other_rings p s s'.
Proof.
  intros (Hok & Hf & Ht) Hff Hn p s'. pose proof Hff as (_ & Hat & _).
  destruct (put_others p r (lent_ring d n sz r s) s
    (nic_hw (base_writes d (r_queue_num r) (dma_of (desc_at s)) ++ hw s)
    (nic_desc (<[desc_at s := ring_descs d n sz (dma_of (bufs_at d n s))]> (desc_mem s))
    (nic_dma (<[bufs_at d n s := (buff_bytes n sz, dma_of (bufs_at d n s))]>
       (<[desc_at s := (desc_bytes d n, dma_of (desc_at s))]> (dma s)))
       (bufs_at d n s + Z.max 1 (buff_bytes n sz)) s)))) as [A B]; [done|by intros []|].
  split_and!; [|done|done]. split_and!; [by apply lib_ok_request| |].
  - unfold s', lent_state. by rewrite put_ring_faults.
  - unfold table_ok in *. destruct d; exact Ht.
Qed.

Lemma freed_facts p r h s : nic_ok s → at_ring p r s → r_allocated r = true →
  let s' := nic_hw h (freed_state p r s) in
  nic_ok s' ∧ at_ring p (released r) s' ∧ other_rings p s s'.
Proof.
  intros (Hok & Hf & Ht) Hat Ha s'.
  destruct (put_others p r (released r) s
    (nic_dma (delete (buf_base r) (delete (r_desc_addr r) (dma s))) (vnext s)
    (nic_desc (delete (r_desc_addr r) (desc_mem s)) s))) as [A B]; [done|by intros []|].
  split_and!.
  - split_and!; [by apply lib_ok_hw, lib_ok_release| |].
    + simpl. unfold freed_state. by rewrite put_ring_faults.
    + unfold table_ok in *. destruct p as [[] j]; exact Ht.
  - by apply at_ring_hw.
  - intros q r0 Hq. rewrite <- (A q r0 Hq). unfold at_ring, s'. by rewrite rings_of_hw.
Qed.

Lemma release_on_nic p r w (Q : unit → iface → Prop) :
  at_ring p r (ring_nic w) → lent_ok r (dma (ring_nic w)) (desc_lens (ring_nic w)) →
  (∀ h, Q tt (if_nic (nic_hw h (freed_state p r (ring_nic w))) w)) →
  wp (on_nic (rtl8125_release_ring (Some p))) Q w.
Proof.
  intros Hat Hl HQ. apply on_nic_wp. eapply wp_mono; [by apply release_ring_wp|].
  intros [] s' ->. apply HQ.
Qed.

Lemma ring_bufs_wp r l (Q : list rtl8125_buf → iface → Prop) w :
  r_bufs r = Some l → Z.of_nat (length l) = r_ring_size r → Q l w → wp (ring_bufs r) Q w.
Proof. intros Hb Hl HQ. unfold ring_bufs. rewrite Hb. case_decide; [|done]. by apply wp_ret. Qed.

(** A channel without a ring can have the first of its direction. *)
Lemma idle_free ps w i c : r8125_rep ps w → channels w !! i = Some c → ch_private c = None →
  ∃ r, first_free (direction c) (lib_first (direction c)) r (ring_nic w) ∧
    r_direction r = direction c ∧ e_allocated (r_event r) = false.
Proof.
  intros (R1 & R2 & R3 & R4 & R5 & R6) Hc Hp. pose proof R1 as ((_ & _ & L3 & L4 & _) & _).
  set (d := direction c) in *. pose proof (R4 i c Hc) as Hlt. fold d in Hlt.
  destruct (lookup_lt_is_Some_2 (rings_of d (ring_nic w)) (lib_first d)) as [r Hr]; [specialize (L3 d); lia|].
  assert (at_ring (RingPtr d (lib_first d)) r (ring_nic w)) as Hat by done.
  pose proof (R6 _ _ Hat ltac:(simpl; lia)) as Hown. unfold ring_owned in Hown.
  destruct (r_allocated r) eqn:Ha.
  { destruct Hown as (j & cj & Hcj & Hcp).
    destruct (ps !! j) as [phj|] eqn:Hpj; [|apply lookup_lt_Some in Hcj; apply lookup_ge_None in Hpj; lia].
    destruct (R5 j cj phj Hcj Hpj) as [_ Hx].
    assert (rp_dir (RingPtr d (lib_first d)) = direction cj) as Hdj.
    { destruct phj; [destruct Hx as (? & _); congruence|..]; destruct Hx as (q & r0 & B1 & B2 & _); congruence. }
    simpl in Hdj. assert (i = j) as -> by (apply (R3 i j c cj); done). congruence. }
  exists r. destruct (L4 d _ r Hat) as (Hd & _). split_and!; [|done|done].
  split_and!; [lia|lia|done|done|]. intros j Hj. lia.
Qed.

Lemma request_channel_moves : moves r8125_rep (Some r8125_ioss_request_channel) Idle Held false.
Proof.
  intros ps w i c Hrep Hph Hc Hn. specialize (Hn eq_refl). unfold ring_size_ok in Hn.
  pose proof Hrep as (R1 & _ & _ & _ & R5 & _). destruct (R5 i c Idle Hc Hph) as (Hda & Hp & Hdl & Hbl).
  specialize (Hda eq_refl). destruct (idle_free _ _ _ _ Hrep Hc Hp) as (r & Hff & Hd & He).
  simpl. unfold r8125_ioss_request_channel. apply wp_bind. eapply get_ch_wp; [done|]. rewrite skip1.
  set (n := ring_size (config c)) in *. set (sz := buff_size (config c)).
  set (p := RingPtr (direction c) (lib_first (direction c))).
  pose proof R1 as (Hlib & Hfl & _). pose proof Hlib as (Hv & _).
  apply wp_bind, on_nic_wp. eapply wp_mono; [eapply request_ring_wp; (done || lia)|].
  intros ring s1 [-> ->]. fold p. cbv iota beta.
  destruct (lent_facts _ _ _ n sz _ R1 Hff ltac:(lia)) as (Hok1 & Hat1 & Hoth1). fold p in Hok1, Hat1, Hoth1.
  set (s1 := lent_state p n sz r (ring_nic w)) in *. set (r1 := lent_ring (direction c) n sz r (ring_nic w)) in *.
  assert (r_allocated r1 = true) as Ha1 by done.
  assert (lent_ok r1 (dma s1) (desc_lens s1)) as Hl1 by (eapply lib_ok_at; [apply Hok1|done..]).
  (* the clean-up, from any state where the ring is still lent and the lists are empty *)
  assert (∀ rc rs, rc ≠ 0 → wp (on_nic (rtl8125_release_ring (Some p)) ;; upd_ch i (c_handle (-1) None) ;; ret rc)
    (λ rc w', drv_frame w w' ∧ (false = true → rc = 0) ∧
      r8125_rep (if rc =? 0 then <[i := Held]> ps else ps) w') (if_results rs (if_nic s1 w))) as Hclean.
  { intros rc rs Hrc. apply wp_bind. eapply release_on_nic; [done|done|]. intros h.
    apply wp_bind. eapply upd_ch_wp; [done|]. apply wp_ret. split_and!; [|done|].
    - unfold drv_frame. simpl. split_and!; try done. by eapply (view_put net_view i c _ w).
    - destruct (Z.eqb_spec rc 0); [done|]. rewrite <- (same_phase ps i Idle) by done.
      destruct (freed_facts p r1 h s1 Hok1 Hat1 Ha1) as (Hok2 & Hat2 & Hoth2).
      eapply (rep_step _ (if_results rs w) i c _ Idle p); try done; try congruence.
      + intros q r0 Hq Hr0. apply Hoth1, Hoth2; done.
      + intros q r0 Hq Hr0. apply Hoth2, Hoth1; done.
      + intros r0 Hr0. assert (r0 = released r1) as -> by (eapply at_ring_inj; [exact Hr0|exact Hat2]). exact He. }
  apply wp_bind. unfold ring_of. apply on_nic_wp. eapply get_ring_wp; [exact Hat1|].
  apply wp_bind. eapply wp_mono; [by apply (add_mem_wp i DescMem _ _ _ c)|]. intros rc w' [rs ->].
  destruct (Z.eqb_spec rc 0) as [->|Hrc]; simpl; [|by apply Hclean].
  set (c1 := c_mem _ _ c).
  assert (Z.of_nat (length (contig_bufs (Z.to_nat n) sz (bufs_at (direction c) n (ring_nic w))
    (dma_of (bufs_at (direction c) n (ring_nic w))))) = r_ring_size r1) as Hlen.
  { rewrite contig_bufs_length. simpl. lia. }
  set (bufs := contig_bufs _ _ _ _) in Hlen.
  apply wp_bind. eapply ring_bufs_wp; [done|exact Hlen|].
  apply wp_bind. eapply wp_mono; [eapply (add_bufs_wp i bufs c1), at_put_ch; done|].
  intros rc w' (rs' & k & Hk & Hk0 & ->). simpl.
  assert (∀ c2 rs0, put_ch i c2 (if_results rs0 (put_ch i c1 (if_nic s1 w))) =
    if_results rs0 (put_ch i c2 (if_nic s1 w))) as Hcol.
  { intros. unfold put_ch. simpl. by rewrite list_insert_insert_eq. }
  rewrite Hcol. change (if_results rs' (if_results rs ?x)) with (if_results rs' x). set (c2 := c_mem _ _ c1).
  destruct (Z.eqb_spec rc 0) as [->|Hrc]; simpl.
  - specialize (Hk0 eq_refl). apply wp_bind. eapply upd_ch_wp; [by eapply at_put_ch|]. apply wp_ret.
    change (put_ch i ?x (if_results rs' (put_ch i c2 (if_nic s1 w))))
      with (put_ch i x (put_ch i c2 (if_nic s1 (if_results rs' w)))).
    rewrite put_ch_put. split_and!; [|done|].
    + unfold drv_frame. simpl. split_and!; try done. by eapply (view_put net_view i c _ w).
    + simpl. eapply (rep_step _ (if_results rs' w) i c _ Held p); try done; try congruence.
      * intros q r0 Hq. by apply Hoth1.
      * intros q r0 Hq. by apply Hoth1.
      * split; [by intros _|]. exists p, r1. split_and!; try done.
        -- unfold ring_mem. simpl. rewrite Hdl, Hbl. split; [done|]. exists bufs. split; [done|].
           simpl. by rewrite Hk0, firstn_all.
        -- intros [?|?]; done.
      * intros r0 Hr0. assert (r0 = r1) as -> by (eapply at_ring_inj; [exact Hr0|exact Hat1]). done.
  - apply wp_bind. eapply wp_mono; [eapply (del_bufs_wp i bufs c2), at_put_ch; done|].
    intros [] w' ->. apply wp_bind. unfold ioss_channel_del_mem. eapply upd_ch_wp; [eapply at_put_ch, at_put_ch; done|].
    rewrite put_ch_put. set (c3 := set_list _ _ _).
    replace (put_ch i c3 (if_results rs' (put_ch i c2 (if_nic s1 w)))) with (if_results rs' (if_nic s1 w));
      [by apply Hclean|].
    symmetry. unfold put_ch. simpl. rewrite list_insert_insert_eq.
    assert (c3 = c) as ->; [|by rewrite list_insert_id].
    unfold c3, c2, c1. simpl. rewrite Hdl, Hbl. simpl. rewrite filter_cons_False by (by intros Hx; apply Hx).
    rewrite filter_nil, del_all. destruct c; simpl in *. by rewrite Hdl, Hbl.
Qed.

Lemma release_channel_moves : moves r8125_rep (Some r8125_ioss_release_channel) Held Idle true.
Proof.
  intros ps w i c Hrep Hph Hc _. destruct (held_inv _ _ _ _ _ Hrep Hc Hph ltac:(done))
    as (p & r & Hp & Hd & Hat & Ha & He & Hm & Hda & Hfil & Hok & Hl). specialize (Hda eq_refl).
  destruct Hm as (Hdl & bufs & Hb & Hbl).
  simpl. unfold r8125_ioss_release_channel. apply wp_bind. eapply get_ch_wp; [done|]. rewrite Hp.
  apply wp_bind. unfold ring_of. apply on_nic_wp. eapply get_ring_wp; [exact Hat|]. rewrite if_nic_id.
  apply wp_bind. unfold ioss_channel_del_mem. eapply upd_ch_wp; [done|]. set (c1 := set_list _ _ c).
  apply wp_bind. eapply ring_bufs_wp; [done| |].
  { destruct Hl as (_ & _ & Hn & _ & _ & _ & _ & _ & _ & bd & Hb' & _). rewrite Hb in Hb'.
    injection Hb' as ->. rewrite contig_bufs_length. lia. }
  apply wp_bind. eapply wp_mono; [eapply (del_bufs_wp i bufs c1), at_put_ch; done|]. intros [] w' ->.
  rewrite put_ch_put. set (c2 := c_mem _ _ c1).
  apply wp_bind. eapply release_on_nic; [done|done|]. intros h.
  apply wp_bind. eapply upd_ch_wp; [by eapply at_put_ch|]. apply wp_ret.
  destruct (freed_facts p r h (ring_nic w) Hok Hat Ha) as (Hok2 & Hat2 & Hoth2).
  change (if_nic ?s (put_ch i c2 w)) with (put_ch i c2 (if_nic s w)). rewrite put_ch_put.
  split_and!; [|done|].
  - unfold drv_frame. simpl. split_and!; try done. by eapply (view_put net_view i c _ w).
  - simpl. eapply (rep_step _ w i c _ Idle p); try done; try congruence.
    + intros q r0 Hq. by apply Hoth2.
    + intros q r0 Hq. by apply Hoth2.
    + split; [done|]. split_and!; [done| |].
      * simpl. rewrite Hdl, filter_cons_False by (by intros Hx; apply Hx). by rewrite filter_nil.
      * simpl. rewrite Hbl. pose proof (del_all bufs (length bufs)) as E. by rewrite firstn_all in E.
    + intros r0 Hr0. assert (r0 = released r) as -> by (eapply at_ring_inj; [exact Hr0|exact Hat2]). exact He.
Qed.

Lemma r8125_rep_length ps w : r8125_rep ps w → length ps = length (channels w).
Proof. intros (_ & E & _). exact E. Qed.

(** The driver as an instance of the contract. *)
Definition r8125_laws : @DriverLaws r8125_ioss_ops.
Proof.
  refine {| drv_rep := r8125_rep; drv_length := r8125_rep_length; drv_stable := r8125_stable |}.
  - exact request_channel_moves.
  - exact release_channel_moves.
  - exact request_event_moves.
  - exact release_event_moves.
  - exact enable_event_moves.
  - exact disable_event_moves.
  - exact enable_channel_moves.
  - exact disable_channel_moves.
Defined.
End spec.

(** C8: With its diagnostic switches off, the glue driver keeps the contract
    of a network driver: from any state that represents the phases of the
    channels, each of its eight operations is defined, moves its channel to
    the next phase or fails and leaves it (its ring and its memory given back
    when adding it to the channel's lists fails half way), touches nothing of
    the interface's own state, and taking down never fails. *)
Theorem r8125_keeps_contract `{NicApi} `{IossApi} :
  diag_skip_request_channel = false → diag_skip_enable_channel = false →
  diag_skip_request_event = false → diag_skip_enable_event = false →
  moves r8125_rep (@op_request_channel r8125_ioss_ops) Idle Held false ∧
  moves r8125_rep (@op_release_channel r8125_ioss_ops) Held Idle true ∧
  moves r8125_rep (@op_request_event r8125_ioss_ops) Held EvReq false ∧
  moves r8125_rep (@op_release_event r8125_ioss_ops) EvReq Held true ∧
  moves r8125_rep (@op_enable_event r8125_ioss_ops) EvReq Ready false ∧
  moves r8125_rep (@op_disable_event r8125_ioss_ops) Ready EvReq true ∧
  moves r8125_rep (@op_enable_channel r8125_ioss_ops) Ready Running true ∧
  moves r8125_rep (@op_disable_channel r8125_ioss_ops) Running Ready true.
Proof.
  intros. split_and!;
    [by apply request_channel_moves|apply release_channel_moves|by apply request_event_moves
    |apply release_event_moves|by apply enable_event_moves|apply disable_event_moves
    |by apply enable_channel_moves|apply disable_channel_moves].
Qed.
