(* ===== verification/IossMem.v ===== *)
(** * IOSS: memory allocators

    [ioss_mem.c]: the translation the IPA pipes use, and the allocator that
    owns the one block of LLCC memory. *)
From stdpp Require Import base tactics list gmap numbers.
From Stdlib Require Import ZArith Lia.
From S2P Require Import Prelude IossUtils RtlLib IossData.

Section mem.
Context `{IossApi}.

Definition PAGE_SIZE : Z := 4096.

(** [page_to_phys(vmalloc_to_page(addr)) | (addr & ~PAGE_MASK)]. *)
Definition default_mem_pa (addr : Z) : Z := Z.lor (page_pa addr) (Z.land addr (PAGE_SIZE - 1)).

Definition tcm_phys (t : Z * Z * Z) : Z := t.1.1.
Definition tcm_virt (t : Z * Z * Z) : Z := t.1.2.
Definition tcm_size (t : Z * Z * Z) : Z := t.2.

(** A [phys_addr_t] has 32 bits on the modem's processor. *)
Definition llcc_mem_pa (addr : Z) : W Z :=
  let* t := gets tcm_mem in
  match t with
  | Some t => if tcm_virt t =? 0 then ret 0 else ret (u32 (tcm_phys t + (addr - tcm_virt t)))
  | None => ret 0
  end.

Definition alctr_pa (a : ioss_mem_allocator) (addr : Z) : W Z :=
  match a with
  | ioss_default_alctr => ret (default_mem_pa addr)
  | ioss_llcc_alctr => llcc_mem_pa addr
  end.

(** Activates the block once; 0 when it is taken or cannot be had. *)
Definition llcc_mem_get (size : Z) : W Z :=
  let* t := gets tcm_mem in
  match t with
  | Some _ => ret 0
  | None =>
      let* rc := result in
      if negb (rc =? 0) then ret 0
      else
        modify (λ w, if_tcm (Some tcm_activate) (tcm_in_use w) w) ;;
        ret (tcm_size tcm_activate)
  end.

Definition llcc_mem_put (size : Z) : W unit :=
  let* t := gets tcm_mem in
  match t with
  | None => ret tt
  | Some _ => modify (λ w, if_tcm None (tcm_in_use w) w) ;; callout TcmDeactivate
  end.

(** The block with a device address; [None] is NULL. The failure paths unmap
    the physical address, not the device address. *)
Definition llcc_mem_alloc (size : Z) : W (option (Z * Z)) :=
  let* t := gets tcm_mem in
  let* used := gets tcm_in_use in
  match t with
  | None => ret None
  | Some t =>
      if used || (tcm_size t <? size) then ret None
      else
        callout DmaMapTcm ;;
        let iova := dma_map_resource (tcm_phys t) in
        let* rc := result in
        if negb (rc =? 0) then ret None
        else
          callout (IommuUnmap iova (tcm_size t)) ;;
          let* rc := result in
          if negb (rc =? 0) then callout (DmaUnmap (tcm_phys t) (tcm_size t)) ;; ret None
          else
            callout (IommuMap iova (tcm_size t)) ;;
            let* rc := result in
            if negb (rc =? 0) then callout (DmaUnmap (tcm_phys t) (tcm_size t)) ;; ret None
            else
              modify (λ w, if_tcm (tcm_mem w) true w) ;;
              ret (Some (tcm_virt t, iova))
  end.

Definition llcc_mem_free (size daddr : Z) : W unit :=
  callout (DmaUnmap daddr size) ;;
  modify (λ w, if_tcm (tcm_mem w) false w).
End mem.
