(* ===== verification/IossNet.v ===== *)
(** * IOSS: taking an interface on and off line

    [ioss_net.c]: the channels' configuration, their allocation, their events,
    and the two transitions of the offload path with every error path. *)
From stdpp Require Import base tactics list gmap numbers.
From Stdlib Require Import ZArith Lia.
From S2P Require Import Prelude IossUtils RtlLib IossData IossMem.

Section net.
Context `{IossApi} `{ioss_driver_ops} `{IpaOps}.

(** ** Configuration *)
Definition is_power_of_2 (n : Z) : bool := negb (n =? 0) && (Z.land n (n - 1) =? 0).

Definition ioss_net_select_llcc_config (i : nat) : W Z :=
  let* c := get_ch i in
  if disable_tcm then ret (- ENOMEM)
  else
    let* mem_size := llcc_mem_get (u32 (ring_size (config c) * buff_size (config c))) in
    if mem_size =? 0 then ret (- ENOMEM)
    else if buff_size (config c) =? 0 then ub
    else
      let n := u32 (mem_size / buff_size (config c)) in
      if negb (is_power_of_2 n) then ret (- EINVAL)
      else
        upd_ch i (λ c, c_config (ChConfig n (buff_size (config c)) (desc_alctr (config c)) ioss_llcc_alctr) c) ;;
        ret 0.

Definition ioss_net_select_channel_config (i : nat) : W unit :=
  upd_ch i (λ c, c_config (default_config c) c) ;;
  let* c := get_ch i in
  let* speed := gets link_speed in
  if bool_decide (direction c = IOSS_CH_DIR_TX) && (max_ddr_bandwidth <? speed)
  then let* _ := ioss_net_select_llcc_config i in ret tt
  else ret tt.

Definition ioss_net_deselect_channel_config (i : nat) : W unit :=
  let* c := get_ch i in
  (if decide (buff_alctr (config c) = ioss_llcc_alctr)
   then llcc_mem_put (u32 (ring_size (config c) * buff_size (config c))) else ret tt) ;;
  upd_ch i (λ c, c_config (default_config c) c).

(** ** debugfs: five nodes per channel *)
Fixpoint create_nodes (n : nat) : W bool :=
  match n with
  | O => ret true
  | S n' => let* rc := result in if rc =? 0 then create_nodes n' else ret false
  end.

Definition ioss_debugfs_add_channel (i : nat) : W Z :=
  let* ok := create_nodes 5 in
  if (ok : bool) then upd_ch i (c_debugfs true) ;; ret 0
  else upd_ch i (c_debugfs false) ;; ret (- EFAULT).

Definition ioss_debugfs_remove_channel (i : nat) : W unit := upd_ch i (c_debugfs false).

(** ** Channels *)
Definition ioss_net_alloc_channel (i : nat) : W Z :=
  ioss_net_select_channel_config i ;;
  let* rc := ioss_dev_op op_request_channel i in
  if negb (rc =? 0) then ioss_net_deselect_channel_config i ;; ret rc
  else
    upd_ch i (c_allocated true) ;;
    let* rc := ioss_debugfs_add_channel i in
    if negb (rc =? 0) then
      let* _ := ioss_dev_op op_release_channel i in
      upd_ch i (c_allocated false) ;;
      ioss_net_deselect_channel_config i ;;
      ret rc
    else ret 0.

Definition ioss_net_free_channel (i : nat) : W Z :=
  ioss_debugfs_remove_channel i ;;
  let* rc := ioss_dev_op op_release_channel i in
  if negb (rc =? 0) then ret rc
  else
    upd_ch i (c_allocated false) ;;
    ioss_net_deselect_channel_config i ;;
    ret 0.

(** A failed enable releases the channel it was given. *)
Definition ioss_net_enable_channel (i : nat) : W Z :=
  let* rc := ioss_dev_op op_enable_channel i in
  if negb (rc =? 0) then let* _ := ioss_dev_op op_release_channel i in ret rc
  else upd_ch i (c_enabled true) ;; ret 0.

Definition ioss_net_disable_channel (i : nat) : W Z :=
  let* rc := ioss_dev_op op_disable_channel i in
  if negb (rc =? 0) then ret rc else upd_ch i (c_enabled false) ;; ret 0.

(** ** Events *)
Definition ev_set_allocated (b : bool) (c : ioss_channel) : ioss_channel :=
  c_event (e_flags b (ev_enabled (event c)) (event c)) c.
Definition ev_set_enabled (b : bool) (c : ioss_channel) : ioss_channel :=
  c_event (e_flags (ev_allocated (event c)) b (event c)) c.

Definition ioss_net_setup_event (i : nat) : W Z :=
  let* rc := ioss_dev_op op_request_event i in
  if negb (rc =? 0) then ret rc
  else
    upd_ch i (ev_set_allocated true) ;;
    let* rc := ioss_dev_op op_enable_event i in
    if negb (rc =? 0) then let* _ := ioss_dev_op op_release_event i in ret rc
    else upd_ch i (ev_set_enabled true) ;; ret 0.

Definition ioss_net_teardown_event (i : nat) : W Z :=
  let* rc1 := ioss_dev_op op_disable_event i in
  (if rc1 =? 0 then upd_ch i (ev_set_enabled false) else ret tt) ;;
  let* rc2 := ioss_dev_op op_release_event i in
  (if rc2 =? 0 then upd_ch i (ev_set_allocated false) else ret tt) ;;
  if negb (rc1 =? 0) || negb (rc2 =? 0) then ret (- EFAULT) else ret 0.

(** ** All channels *)
Definition all_channels : W (list nat) := gets (λ w, seq 0 (length (channels w))).

(** [ioss_for_each_channel(ch, iface) rc |= f(ch)]. *)
Fixpoint or_each (f : nat → W Z) (l : list nat) (rc : Z) : W Z :=
  match l with
  | [] => ret rc
  | i :: l' => let* rc' := f i in or_each f l' (Z.lor rc rc')
  end.

Definition revert (f : nat → W Z) (i : nat) : W unit := let* _ := f i in ret tt.

Definition ioss_net_alloc_channels : W Z :=
  let* l := all_channels in
  ioss_list_iter_action l ioss_net_alloc_channel (Some (revert ioss_net_free_channel)).
Definition ioss_net_free_channels : W Z :=
  let* l := all_channels in or_each ioss_net_free_channel l 0.
Definition ioss_net_enable_channels : W Z :=
  let* l := all_channels in
  ioss_list_iter_action l ioss_net_enable_channel (Some (revert ioss_net_disable_channel)).
Definition ioss_net_disable_channels : W Z :=
  let* l := all_channels in or_each ioss_net_disable_channel l 0.
Definition ioss_net_setup_events : W Z :=
  let* l := all_channels in
  ioss_list_iter_action l ioss_net_setup_event (Some (revert ioss_net_teardown_event)).
Definition ioss_net_teardown_events : W Z :=
  let* l := all_channels in or_each ioss_net_teardown_event l 0.

(** ** PCIe power collapse, [ioss_pci.c] *)
Definition ioss_pci_enable_pc : W Z := callout (PciPmControl true) ;; result.
Definition ioss_pci_disable_pc : W Z := callout (PciPmControl false) ;; result.

(** ** On and off line *)
Definition ioss_iface_set_online : W unit :=
  let* st := gets if_state in
  if decide (st ≠ IOSS_IF_ST_OFFLINE) then ret tt
  else
    let err_alloc_channels := modify (if_set_state IOSS_IF_ST_ERROR) in
    let err_ipa_register := let* _ := ioss_net_free_channels in err_alloc_channels in
    let err_setup_events := let* _ := ioss_ipa_unregister in err_ipa_register in
    let err_enable_channels := let* _ := ioss_net_teardown_events in err_setup_events in
    let err_disable_pc := let* _ := ioss_net_disable_channels in err_enable_channels in
    let* rc := ioss_net_alloc_channels in
    if negb (rc =? 0) then err_alloc_channels
    else
      let* rc := ioss_ipa_register in
      if negb (rc =? 0) then err_ipa_register
      else
        let* rc := ioss_net_setup_events in
        if negb (rc =? 0) then err_setup_events
        else
          let* rc := ioss_net_enable_channels in
          if negb (rc =? 0) then err_enable_channels
          else
            let* rc := ioss_pci_disable_pc in
            if negb (rc =? 0) then err_disable_pc
            else modify (if_set_state IOSS_IF_ST_ONLINE).

(** [if (rc) iface->state = IOSS_IF_ST_ERROR]. *)
Definition error_unless_0 (rc : Z) : W unit :=
  if negb (rc =? 0) then modify (if_set_state IOSS_IF_ST_ERROR) else ret tt.

Definition ioss_iface_set_offline : W unit :=
  let* st := gets if_state in
  if decide (st ≠ IOSS_IF_ST_ONLINE) then ret tt
  else
    modify (if_set_state IOSS_IF_ST_OFFLINE) ;;
    let* rc := ioss_pci_enable_pc in error_unless_0 rc ;;
    let* rc := ioss_net_disable_channels in error_unless_0 rc ;;
    let* rc := ioss_net_teardown_events in error_unless_0 rc ;;
    let* rc := ioss_ipa_unregister in error_unless_0 rc ;;
    let* rc := ioss_net_free_channels in error_unless_0 rc.

(** ** The refresh work *)
(** What the work sees of the network device when it runs; the speed is [None]
    when it cannot be read. *)
Record link_view := LinkView {
  lv_registered : bool; lv_running : bool; lv_carrier_ok : bool; lv_offline : bool; lv_unbinding : bool;
  lv_speed : option Z }.

Definition fetch_ethtool_link_speed (v : link_view) : Z := default 0 (lv_speed v).

Definition wants_online (v : link_view) : bool :=
  lv_running v && lv_carrier_ok v && negb (lv_offline v) && negb (lv_unbinding v).

Definition ioss_refresh_work (v : link_view) : W unit :=
  if negb (lv_registered v) then ret tt
  else
    modify (if_speed (fetch_ethtool_link_speed v)) ;;
    if wants_online v then ioss_iface_set_online else ioss_iface_set_offline.
End net.
