(* ===== verification/IossNetSpec.v ===== *)
(** * IOSS: on and off line, correctness

    Against the contracts of the network driver and of the IPA side: every
    step on a channel moves it or leaves it, the walks are all-or-nothing, and
    an interface goes up or down completely. *)
From stdpp Require Import base tactics list gmap numbers.
From Stdlib Require Import ZArith Lia.
From S2P Require Import Prelude IossUtils RtlLib IossData IossLaws IossMem IossNet.

Section spec.
Context `{IossApi} `{DriverLaws} `{IpaLaws}.

(** ** The state of an interface *)
Definition is_held (ph : phase) : bool := match ph with Idle => false | _ => true end.
Definition is_ready (ph : phase) : bool := match ph with Ready | Running => true | _ => false end.
Definition is_running (ph : phase) : bool := match ph with Running => true | _ => false end.
Definition flags_ok (ph : phase) (c : ioss_channel) : Prop :=
  ch_allocated c = is_held ph ∧ ch_enabled c = is_running ph ∧ ev_enabled (event c) = is_ready ph.

(** What the device tree gives a channel. *)
Definition cfg_ok (c : ioss_channel) : Prop :=
  1 ≤ ring_size (default_config c) < 2 ^ 32 ∧ 0 < buff_size (default_config c).

Definition net_rep (ps : list phase) (ip : ipa_phase) (st : ioss_interface_state) (w : iface) : Prop :=
  drv_rep ps w ∧ ipa_rep ip w ∧ if_state w = st ∧
  (∀ i c ph, channels w !! i = Some c → ps !! i = Some ph → flags_ok ph c) ∧
  (∀ i c, channels w !! i = Some c → cfg_ok c).

Lemma net_channel ps ip st w i ph : net_rep ps ip st w → ps !! i = Some ph →
  ∃ c, channels w !! i = Some c ∧ flags_ok ph c ∧ cfg_ok c.
Proof.
  intros (Hd & _ & _ & Hf & Hc) Hi. pose proof (drv_length _ _ Hd) as Hl.
  destruct (lookup_lt_is_Some_2 (channels w) i) as [c Hci]; [apply lookup_lt_Some in Hi; lia|].
  exists c. eauto.
Qed.

(** The interface's own updates of a channel. *)
Definition net_update (f : ioss_channel → ioss_channel) : Prop := ∀ c,
  drv_view (f c) = drv_view c ∧ default_config (f c) = default_config c ∧
  ev_paddr (event (f c)) = ev_paddr (event c) ∧ ev_data (event (f c)) = ev_data (event c) ∧
  ipa_pi (f c) = ipa_pi c.

Lemma rep_update ps ip st w i c f :
  (drv_rep ps w ∧ ipa_rep ip w ∧ if_state w = st ∧
   (∀ j c ph, j ≠ i → channels w !! j = Some c → ps !! j = Some ph → flags_ok ph c) ∧
   (∀ j c, channels w !! j = Some c → cfg_ok c)) →
  channels w !! i = Some c → net_update f → (∀ ph, ps !! i = Some ph → flags_ok ph (f c)) →
  net_rep ps ip st (put_ch i (f c) w).
Proof.
  intros (Hd & Hi & Hs & Hf & Hc) Hci Hu Hfl. destruct (Hu c) as (U1 & U2 & U3 & U4 & U5).
  split_and!.
  - eapply drv_stable; [|exact Hd]. by apply (drv_same_put i c).
  - eapply ipa_stable; [|exact Hi]. split; [|done].
    apply (view_put (λ c, (ev_paddr (event c), ev_data (event c), ipa_pi c)) i c); [done|]. congruence.
  - done.
  - intros j cj phj Hcj Hpj. simpl in Hcj. apply list_lookup_insert_Some in Hcj as [(<- & <- & _)|[? ?]]; eauto.
  - intros j cj Hcj. simpl in Hcj. apply list_lookup_insert_Some in Hcj as [(<- & <- & _)|[? ?]]; [|eauto].
    unfold cfg_ok. rewrite U2. by eapply Hc.
Qed.

(** An update that keeps the flags keeps everything. *)
Lemma net_keep ps ip st w i c f : net_rep ps ip st w → channels w !! i = Some c → net_update f →
  (∀ ph, flags_ok ph c → flags_ok ph (f c)) → net_rep ps ip st (put_ch i (f c) w).
Proof.
  intros (Hd & Hi & Hs & Hf & Hc) Hci Hu Hk. eapply rep_update; [|done|done|eauto].
  split_and!; eauto.
Qed.

(** Changes outside the channels. *)
Lemma net_outside ps ip st st' w w' : net_rep ps ip st w →
  channels w' = channels w → ring_nic w' = ring_nic w → idev_private w' = idev_private w →
  ipa_client w' = ipa_client w → if_state w' = st' →
  net_rep ps ip st' w'.
Proof.
  intros (Hd & Hi & Hs & Hf & Hc) E1 E2 E0 E3 E4. unfold net_rep. rewrite E1. split_and!; try done.
  - eapply drv_stable; [|exact Hd]. by split_and!; rewrite ?E1.
  - eapply ipa_stable; [|exact Hi]. by split; rewrite ?E1.
Qed.

(** ** A driver operation and the update that follows it *)
Lemma frame_lookup w w' i c' : drv_frame w w' → channels w' !! i = Some c' →
  ∃ c, channels w !! i = Some c ∧ net_view c = net_view c'.
Proof.
  intros (Hv & _) Hc. assert ((net_view <$> channels w') !! i = Some (net_view c')) as E
    by by rewrite list_lookup_fmap, Hc.
  rewrite Hv, list_lookup_fmap in E. destruct (channels w !! i) as [c|]; [|done].
  exists c. split; [done|]. by apply (inj Some) in E.
Qed.

Lemma net_view_flags c c' : net_view c = net_view c' →
  (∀ ph, flags_ok ph c → flags_ok ph c') ∧ (cfg_ok c → cfg_ok c').
Proof.
  unfold net_view. intros E. injection E. intros. unfold flags_ok, cfg_ok.
  replace (default_config c') with (default_config c). replace (ch_allocated c') with (ch_allocated c).
  replace (ch_enabled c') with (ch_enabled c).
  replace (ev_enabled (event c')) with (ev_enabled (event c)). auto.
Qed.

(** After the driver moved channel [i]: its flags are still those of [from]. *)
Definition moved (i : nat) (from : phase) (ps : list phase) (ip : ipa_phase) (st : ioss_interface_state)
    (w : iface) : Prop :=
  ∃ c, channels w !! i = Some c ∧ flags_ok from c ∧ drv_rep ps w ∧ ipa_rep ip w ∧ if_state w = st ∧
    (∀ j c ph, j ≠ i → channels w !! j = Some c → ps !! j = Some ph → flags_ok ph c) ∧
    (∀ j c, channels w !! j = Some c → cfg_ok c).

Lemma op_wp op from to sure ps ip st w i :
  moves drv_rep op from to sure → net_rep ps ip st w → ps !! i = Some from →
  (from = Idle → ∀ c, channels w !! i = Some c → ring_size_ok c) →
  wp (ioss_dev_op op i) (λ rc w', (sure = true → rc = 0) ∧
    (∀ c', channels w' !! i = Some c' → ∃ c, channels w !! i = Some c ∧ net_view c = net_view c') ∧
    if rc =? 0 then moved i from (<[i := to]> ps) ip st w' else net_rep ps ip st w') w.
Proof.
  intros Hm Hrep Hi Hcfg. destruct (net_channel _ _ _ _ _ _ Hrep Hi) as (c & Hc & Hfl & _).
  pose proof Hrep as (Hd & Hip & Hs & Hf & Hcf).
  eapply wp_mono; [eapply Hm; eauto|]. intros rc w' (Hfr & Hsure & Hd'). split; [done|].
  assert (∀ j cj, channels w' !! j = Some cj → ∃ c0, channels w !! j = Some c0 ∧ net_view c0 = net_view cj)
    as Hback by (intros; by eapply frame_lookup).
  assert (ipa_rep ip w') as Hip' by (eapply ipa_stable; [by apply ipa_same_frame|done]).
  assert (if_state w' = st) as Hs' by (destruct Hfr as (_ & -> & _); done).
  assert (∀ j cj, channels w' !! j = Some cj → cfg_ok cj) as Hcf'.
  { intros j cj Hcj. destruct (Hback _ _ Hcj) as (c0 & Hc0 & Hv). eapply net_view_flags; eauto. }
  split; [exact (Hback i)|]. destruct (rc =? 0).
  - assert (is_Some (channels w' !! i)) as [c' Hc'].
    { apply lookup_lt_is_Some_2. pose proof (drv_length _ _ Hd') as Hl. rewrite length_insert in Hl.
      apply lookup_lt_Some in Hi. lia. }
    destruct (Hback _ _ Hc') as (c0 & Hc0 & Hv). exists c'. split_and!; try done.
    + eapply net_view_flags; [exact Hv|]. congruence.
    + intros j cj phj Hj Hcj Hpj. rewrite list_lookup_insert_ne in Hpj by done.
      destruct (Hback _ _ Hcj) as (c1 & Hc1 & Hv1). eapply net_view_flags; eauto.
  - split_and!; try done. intros j cj phj Hcj Hpj.
    destruct (Hback _ _ Hcj) as (c1 & Hc1 & Hv1). eapply net_view_flags; eauto.
Qed.

Lemma moved_upd i from to ps ip st w f :
  moved i from ps ip st w → ps !! i = Some to → net_update f →
  (∀ c, flags_ok from c → flags_ok to (f c)) → wp (upd_ch i f) (λ _ w', net_rep ps ip st w') w.
Proof.
  intros (c & Hc & Hfl & Hd & Hip & Hs & Hf & Hcf) Hi Hu Hto. eapply upd_ch_wp; [done|].
  eapply rep_update; try done. intros ph Hph. assert (ph = to) as -> by congruence. auto.
Qed.

Lemma moved_same i from to ps ip st w :
  moved i from ps ip st w → ps !! i = Some to → (∀ c, flags_ok from c → flags_ok to c) → net_rep ps ip st w.
Proof.
  intros (c & Hc & Hfl & Hd & Hip & Hs & Hf & Hcf) Hi Hto. split_and!; try done.
  intros j cj phj Hcj Hpj. destruct (decide (j = i)) as [->|]; [|eauto].
  assert (cj = c) as -> by congruence. assert (phj = to) as -> by congruence. auto.
Qed.

Lemma at_new (ps : list phase) (i : nat) from to : ps !! i = Some from → <[i := to]> ps !! i = Some to.
Proof. intros Hi. apply list_lookup_insert_eq. by eapply lookup_lt_Some. Qed.

(** ** The steps on one channel *)
(** [f] takes a channel from one phase to the next or leaves it. *)
Definition chan_moves (f : nat → W Z) (from to : phase) (sure : bool) : Prop :=
  ∀ ps ip st w i, net_rep ps ip st w → ps !! i = Some from →
    wp (f i) (λ rc w', (sure = true → rc = 0) ∧
      net_rep (if rc =? 0 then <[i := to]> ps else ps) ip st w') w.

Lemma upd_keep f ps ip st w i : net_rep ps ip st w → is_Some (ps !! i) → net_update f →
  (∀ ph c, flags_ok ph c → flags_ok ph (f c)) → wp (upd_ch i f) (λ _ w', net_rep ps ip st w') w.
Proof.
  intros Hrep [ph Hi] Hu Hk. destruct (net_channel _ _ _ _ _ _ Hrep Hi) as (c & Hc & _).
  eapply upd_ch_wp; [done|]. by eapply net_keep; eauto.
Qed.

Lemma upd_config x : net_update (c_config x).
Proof. intros c. by destruct c. Qed.
Lemma upd_default : net_update (λ c, c_config (default_config c) c).
Proof. intros c. by destruct c. Qed.
Lemma upd_flags d a e : net_update (λ c, c_flags (d c) (a c) (e c) c).
Proof. intros c. by destruct c. Qed.
Lemma upd_debugfs b : net_update (c_debugfs b).
Proof. intros c. by destruct c. Qed.
Lemma upd_allocated b : net_update (c_allocated b).
Proof. intros c. by destruct c. Qed.
Lemma upd_enabled b : net_update (c_enabled b).
Proof. intros c. by destruct c. Qed.
Lemma upd_ev_allocated b : net_update (ev_set_allocated b).
Proof. intros [???? [] ????????]. done. Qed.
Lemma upd_ev_enabled b : net_update (ev_set_enabled b).
Proof. intros [???? [] ????????]. done. Qed.
Create HintDb net.
#[local] Hint Resolve upd_config upd_default upd_debugfs upd_allocated upd_enabled upd_ev_allocated
  upd_ev_enabled : net.

Lemma net_results ps ip st w rs : net_rep ps ip st w → net_rep ps ip st (if_results rs w).
Proof. intros Hr. by eapply net_outside; [exact Hr|..]; destruct Hr as (_ & _ & ? & _). Qed.
Lemma net_tcm ps ip st w t b : net_rep ps ip st w → net_rep ps ip st (if_tcm t b w).
Proof. intros Hr. by eapply net_outside; [exact Hr|..]; destruct Hr as (_ & _ & ? & _). Qed.
Lemma net_calls ps ip st w l : net_rep ps ip st w → net_rep ps ip st (if_calls l w).
Proof. intros Hr. by eapply net_outside; [exact Hr|..]; destruct Hr as (_ & _ & ? & _). Qed.
Lemma net_speed ps ip st w z : net_rep ps ip st w → net_rep ps ip st (if_speed z w).
Proof. intros Hr. by eapply net_outside; [exact Hr|..]; destruct Hr as (_ & _ & ? & _). Qed.

(** Giving the TCM back and taking the default configuration. *)
Lemma deselect_wp ps ip st w i : net_rep ps ip st w → is_Some (ps !! i) →
  wp (ioss_net_deselect_channel_config i) (λ _ w', net_rep ps ip st w') w.
Proof.
  intros Hrep Hi. pose proof Hi as [ph Hph].
  destruct (net_channel _ _ _ _ _ _ Hrep Hph) as (c & Hc & _).
  unfold ioss_net_deselect_channel_config. apply wp_bind. eapply get_ch_wp; [done|].
  apply wp_bind. eapply wp_mono with (Q := λ _ w', net_rep ps ip st w').
  - destruct (decide _); [|by apply wp_ret]. unfold llcc_mem_put. wp_steps.
    destruct (tcm_mem w); [|by apply wp_ret]. wp_steps. apply callout_wp. by apply net_calls, net_tcm.
  - intros [] w' Hw'. eapply upd_keep; [done|done|eauto with net|]. intros ? [] ?; done.
Qed.

Lemma power_of_2_pos n : is_power_of_2 n = true → n ≠ 0.
Proof. unfold is_power_of_2. destruct (Z.eqb_spec n 0); done. Qed.

(** Selecting leaves a configuration a ring can be made for. *)
Lemma select_wp ps ip st w i : net_rep ps ip st w → is_Some (ps !! i) →
  wp (ioss_net_select_channel_config i) (λ _ w', net_rep ps ip st w' ∧
    ∀ c, channels w' !! i = Some c → ring_size_ok c) w.
Proof.
  intros Hrep Hi. pose proof Hi as [ph Hph].
  destruct (net_channel _ _ _ _ _ _ Hrep Hph) as (c & Hc & Hfl & Hcf).
  unfold ioss_net_select_channel_config. apply wp_bind. eapply upd_ch_wp; [done|].
  set (c1 := c_config _ c). set (w1 := put_ch i c1 w).
  assert (net_rep ps ip st w1) as Hrep1.
  { apply (net_keep _ _ _ _ _ c (λ c, c_config (default_config c) c)); [done|done|eauto with net|by intros ? ?]. }
  assert (channels w1 !! i = Some c1) as Hc1 by by eapply at_put_ch.
  assert (∀ rs t b, net_rep ps ip st (if_results rs (if_tcm t b w1)) ∧
    ∀ c0, channels w1 !! i = Some c0 → ring_size_ok c0) as Hdone.
  { intros rs t b. split; [by apply net_results, net_tcm|]. intros c0 Hc0.
    assert (c0 = c1) as -> by congruence. apply Hcf. }
  apply wp_bind. eapply get_ch_wp; [done|]. wp_steps.
  destruct (_ && _).
  2:{ apply wp_ret. specialize (Hdone (results w1) (tcm_mem w1) (tcm_in_use w1)). by destruct w1. }
  apply wp_bind. unfold ioss_net_select_llcc_config. apply wp_bind. eapply get_ch_wp; [done|].
  destruct disable_tcm.
  { do 2 apply wp_ret. specialize (Hdone (results w1) (tcm_mem w1) (tcm_in_use w1)). by destruct w1. }
  apply wp_bind. unfold llcc_mem_get. wp_steps. destruct (tcm_mem w1) as [t|] eqn:Et.
  { do 3 apply wp_ret. specialize (Hdone (results w1) (tcm_mem w1) (tcm_in_use w1)). by destruct w1. }
  apply wp_bind, result_wp. intros z rs. destruct (z =? 0); simpl.
  2:{ do 3 apply wp_ret. specialize (Hdone rs (tcm_mem w1) (tcm_in_use w1)). by destruct w1. }
  wp_steps. specialize (Hdone rs (Some tcm_activate) (tcm_in_use w1)).
  destruct (tcm_size tcm_activate =? 0) eqn:Ez; [by do 2 apply wp_ret|].
  destruct (Z.eqb_spec (buff_size (default_config c)) 0) as [E0|E0]; [destruct Hcf; lia|].
  set (n := u32 _). destruct (is_power_of_2 n) eqn:Ep; simpl; [|by do 2 apply wp_ret].
  apply wp_bind. eapply upd_ch_wp; [done|]. do 2 apply wp_ret.
  destruct Hdone as [Hd2 _]. split.
  - apply (net_keep _ _ _ _ _ c1 (c_config _)); [done|done|eauto with net|by intros ? ?].
  - intros c0 Hc0. simpl in Hc0. apply list_lookup_insert_Some in Hc0 as [(_ & <- & _)|[? _]]; [|done].
    unfold ring_size_ok. simpl. apply power_of_2_pos in Ep.
    assert (0 ≤ n < 2 ^ 32) by (apply Z.mod_pos_bound; lia). lia.
Qed.

Lemma create_nodes_wp n ps ip st w : net_rep ps ip st w →
  wp (create_nodes n) (λ _ w', net_rep ps ip st w') w.
Proof.
  revert w. induction n as [|n IH]; intros w Hrep; simpl; [by apply wp_ret|].
  apply wp_bind, result_wp. intros z rs. destruct (z =? 0); [apply IH|apply wp_ret]; by apply net_results.
Qed.

Lemma debugfs_wp ps ip st w i : net_rep ps ip st w → is_Some (ps !! i) →
  wp (ioss_debugfs_add_channel i) (λ _ w', net_rep ps ip st w') w.
Proof.
  intros Hrep Hi. unfold ioss_debugfs_add_channel. apply wp_bind.
  eapply wp_mono; [by apply create_nodes_wp|]. intros ok w1 Hw1.
  destruct ok; apply wp_bind; (eapply wp_mono; [eapply upd_keep; [done|done|eauto with net|by intros ? []]|]);
    intros [] w2 Hw2; by apply wp_ret.
Qed.

Lemma rc_split (rc : Z) : rc = 0 ∧ (rc =? 0) = true ∨ rc ≠ 0 ∧ (rc =? 0) = false.
Proof. destruct (Z.eqb_spec rc 0); auto. Qed.

Lemma insert_same (ps : list phase) (i : nat) ph ph' : ps !! i = Some ph → <[i := ph]> (<[i := ph']> ps) = ps.
Proof. intros Hi. rewrite list_insert_insert_eq. by apply list_insert_id. Qed.

(** Releasing from [Held], then clearing the flag and the configuration. *)
Lemma release_tail_wp ps ip st w i (k : Z) : net_rep ps ip st w → ps !! i = Some Held →
  wp (ioss_dev_op op_release_channel i) (λ rc w', rc = 0 ∧
    wp (upd_ch i (c_allocated false) ;; ioss_net_deselect_channel_config i ;; ret k)
      (λ rc w'', rc = k ∧ net_rep (<[i := Idle]> ps) ip st w'') w') w.
Proof.
  intros Hrep Hi. eapply wp_mono; [eapply (op_wp _ Held Idle true); [apply release_channel_law|done|done|done]|].
  intros rc w1 (Hs & _ & Hm). rewrite Hs in * by done. split; [done|]. simpl in Hm.
  apply wp_bind. eapply wp_mono; [eapply (moved_upd _ Held Idle); [done|by eapply at_new|eauto with net|]|].
  { intros c (A & B & C). done. }
  intros [] w2 Hw2. apply wp_bind. eapply wp_mono; [eapply deselect_wp; [done|by eexists; eapply at_new]|].
  intros [] w3 Hw3. by apply wp_ret.
Qed.

Lemma alloc_channel_moves : chan_moves ioss_net_alloc_channel Idle Held false.
Proof.
  intros ps ip st w i Hrep Hi. unfold ioss_net_alloc_channel. apply wp_bind.
  eapply wp_mono; [by apply select_wp|]. intros [] w1 [Hw1 Hcfg]. apply wp_bind.
  eapply wp_mono; [eapply (op_wp _ Idle Held false); [apply request_channel_law|done|done|auto]|].
  intros rc w2 (_ & _ & Hm). destruct (rc_split rc) as [[-> E]|[Hrc E]]; rewrite E in *; simpl.
  2:{ apply wp_bind. eapply wp_mono; [by eapply deselect_wp|]. intros [] w3 Hw3. apply wp_ret.
      rewrite E. by split. }
  apply wp_bind. eapply wp_mono; [eapply (moved_upd _ Idle Held); [done|by eapply at_new|eauto with net|]|].
  { intros c (A & B & C). done. }
  intros [] w3 Hw3. apply wp_bind. eapply wp_mono; [eapply debugfs_wp; [done|by eexists; eapply at_new]|].
  intros rc w4 Hw4. cbv beta in Hw4. destruct (rc_split rc) as [[-> E']|[Hrc E']]; rewrite ?E'; simpl; [by apply wp_ret|].
  apply wp_bind. eapply wp_mono; [eapply (release_tail_wp _ _ _ _ _ rc); [done|by eapply at_new]|].
  intros rc' w5 [-> Hw5]. eapply wp_mono; [exact Hw5|]. intros k w6 [-> Hw6]. rewrite E'. split; [done|].
  by rewrite (insert_same ps i Idle) in Hw6 by done.
Qed.

Lemma free_channel_moves : chan_moves ioss_net_free_channel Held Idle true.
Proof.
  intros ps ip st w i Hrep Hi. unfold ioss_net_free_channel, ioss_debugfs_remove_channel. apply wp_bind.
  eapply wp_mono; [eapply upd_keep; [done|done|eauto with net|by intros ? []]|]. intros [] w1 Hw1.
  apply wp_bind. eapply wp_mono; [eapply (release_tail_wp _ _ _ _ _ 0); done|].
  intros rc w2 [-> Hw2]. simpl. eapply wp_mono; [exact Hw2|]. intros k w3 [-> Hw3]. by split.
Qed.

Lemma enable_channel_moves' : chan_moves ioss_net_enable_channel Ready Running true.
Proof.
  intros ps ip st w i Hrep Hi. unfold ioss_net_enable_channel. apply wp_bind.
  eapply wp_mono; [eapply (op_wp _ Ready Running true); [apply enable_channel_law|done|done|done]|].
  intros rc w1 (Hs & _ & Hm). rewrite Hs in * by done. simpl in *.
  apply wp_bind. eapply wp_mono; [eapply (moved_upd _ Ready Running); [done|by eapply at_new|eauto with net|]|].
  { intros c (A & B & C). done. }
  intros [] w2 Hw2. by apply wp_ret.
Qed.

Lemma disable_channel_moves' : chan_moves ioss_net_disable_channel Running Ready true.
Proof.
  intros ps ip st w i Hrep Hi. unfold ioss_net_disable_channel. apply wp_bind.
  eapply wp_mono; [eapply (op_wp _ Running Ready true); [apply disable_channel_law|done|done|done]|].
  intros rc w1 (Hs & _ & Hm). rewrite Hs in * by done. simpl in *.
  apply wp_bind. eapply wp_mono; [eapply (moved_upd _ Running Ready); [done|by eapply at_new|eauto with net|]|].
  { intros c (A & B & C). done. }
  intros [] w2 Hw2. by apply wp_ret.
Qed.

Lemma setup_event_moves : chan_moves ioss_net_setup_event Held Ready false.
Proof.
  intros ps ip st w i Hrep Hi. unfold ioss_net_setup_event. apply wp_bind.
  eapply wp_mono; [eapply (op_wp _ Held EvReq false); [apply request_event_law|done|done|done]|].
  intros rc w1 (_ & _ & Hm). destruct (rc_split rc) as [[-> E]|[Hrc E]]; rewrite E in *; simpl.
  2:{ apply wp_ret. rewrite E. by split. }
  apply wp_bind. eapply wp_mono; [eapply (moved_upd _ Held EvReq); [done|by eapply at_new|eauto with net|]|].
  { intros c (A & B & C). done. }
  intros [] w2 Hw2. apply wp_bind.
  eapply wp_mono; [eapply (op_wp _ EvReq Ready false); [apply enable_event_law|done|by eapply at_new|done]|].
  intros rc w3 (_ & _ & Hm3). rewrite list_insert_insert_eq in Hm3.
  destruct (rc_split rc) as [[-> E']|[Hrc E']]; rewrite E' in *; simpl.
  - apply wp_bind. eapply wp_mono; [eapply (moved_upd _ EvReq Ready); [done|by eapply at_new|eauto with net|]|].
    { intros c (A & B & C). done. }
    intros [] w4 Hw4. by apply wp_ret.
  - apply wp_bind.
    eapply wp_mono; [eapply (op_wp _ EvReq Held true); [apply release_event_law|done|by eapply at_new|done]|].
    intros rc' w4 (Hs & _ & Hm4). rewrite Hs in Hm4 by done. simpl in Hm4.
    apply wp_ret. rewrite E'. split; [done|]. rewrite (insert_same ps i Held) in Hm4 by done.
    eapply moved_same; [done|done|]. intros c (A & B & C). done.
Qed.

Lemma teardown_event_moves : chan_moves ioss_net_teardown_event Ready Held true.
Proof.
  intros ps ip st w i Hrep Hi. unfold ioss_net_teardown_event. apply wp_bind.
  eapply wp_mono; [eapply (op_wp _ Ready EvReq true); [apply disable_event_law|done|done|done]|].
  intros rc w1 (Hs & _ & Hm). rewrite Hs in * by done. simpl in *. apply wp_bind.
  eapply wp_mono; [eapply (moved_upd _ Ready EvReq); [done|by eapply at_new|eauto with net|]|].
  { intros c (A & B & C). done. }
  intros [] w2 Hw2. apply wp_bind.
  eapply wp_mono; [eapply (op_wp _ EvReq Held true); [apply release_event_law|done|by eapply at_new|done]|].
  intros rc' w3 (Hs' & _ & Hm3). rewrite Hs' in * by done. simpl in *.
  rewrite list_insert_insert_eq in Hm3. apply wp_bind.
  eapply wp_mono; [eapply (moved_upd _ EvReq Held); [done|by eapply at_new|eauto with net|]|].
  { intros c (A & B & C). done. }
  intros [] w4 Hw4. by apply wp_ret.
Qed.

(** ** All channels *)
Definition all (ph : phase) (n : nat) : list phase := replicate n ph.
Definition part (k n : nat) (to from : phase) : list phase := replicate k to ++ replicate (n - k) from.

Lemma part_0 n to from : part 0 n to from = all from n.
Proof. unfold part, all. by rewrite Nat.sub_0_r. Qed.
Lemma part_all n to from : part n n to from = all to n.
Proof. unfold part, all. by rewrite Nat.sub_diag, app_nil_r. Qed.
Lemma part_step k n to from : (k < n)%nat →
  part k n to from !! k = Some from ∧ <[k := to]> (part k n to from) = part (S k) n to from.
Proof.
  intros Hk. unfold part. replace (n - k)%nat with (S (n - S k)) by lia. simpl. split.
  - rewrite lookup_app_r by (rewrite length_replicate; lia). by rewrite length_replicate, Nat.sub_diag.
  - rewrite insert_app_r_alt by (rewrite length_replicate; lia). rewrite length_replicate, Nat.sub_diag. simpl.
    change (to :: replicate (n - S k) from) with ([to] ++ replicate (n - S k) from).
    rewrite app_assoc. f_equal. change [to] with (replicate 1 to). rewrite <- replicate_add, Nat.add_1_r. done.
Qed.
Lemma part_back k n to from : (k < n)%nat →
  part (S k) n to from !! k = Some to ∧ <[k := from]> (part (S k) n to from) = part k n to from.
Proof.
  intros Hk. destruct (part_step k n to from Hk) as [A B]. rewrite <- B. split.
  - apply list_lookup_insert_eq. by eapply lookup_lt_Some.
  - rewrite list_insert_insert_eq. by apply list_insert_id.
Qed.

Lemma seq_split n d i d' : seq 0 n = d ++ i :: d' → i = length d ∧ (length d < n)%nat.
Proof.
  intros E. assert (seq 0 n !! length d = Some i) as Hl by (rewrite E; by apply list_lookup_middle).
  apply lookup_seq in Hl as [-> ?]. simpl. lia.
Qed.

Lemma net_count ps ip st w : net_rep ps ip st w → length (channels w) = length ps.
Proof. intros (Hd & _). symmetry. by apply drv_length. Qed.

(** The walk takes all channels there, or none. *)
Lemma walk_wp f g from to ip st n w :
  chan_moves f from to false → chan_moves g to from true → net_rep (all from n) ip st w →
  wp (let* l := all_channels in ioss_list_iter_action l f (Some (revert g)))
    (λ rc w', net_rep (if rc =? 0 then all to n else all from n) ip st w') w.
Proof.
  intros Hf Hg Hrep. unfold all_channels. wp_steps. rewrite (net_count _ _ _ _ Hrep).
  unfold all at 1. rewrite length_replicate.
  eapply wp_mono; [apply (wp_iter (seq 0 n) f (revert g)
    (λ d w, net_rep (part (length d) n to from) ip st w))|].
  - by rewrite part_0.
  - intros d i d' w1 Hd Hw1. destruct (seq_split _ _ _ _ Hd) as [-> Hlt].
    destruct (part_step (length d) n to from Hlt) as [A B].
    eapply wp_mono; [by apply Hf|]. intros rc w2 [_ Hw2]. rewrite length_app. simpl.
    rewrite Nat.add_1_r, <- B. by destruct (rc =? 0).
  - intros d i d' w1 Hd Hw1. destruct (seq_split _ _ _ _ Hd) as [-> Hlt].
    rewrite length_app, Nat.add_1_r in Hw1. destruct (part_back (length d) n to from Hlt) as [A B].
    unfold revert. apply wp_bind. eapply wp_mono; [by apply Hg|]. intros rc w2 [Hs Hw2].
    apply wp_ret. rewrite Hs in Hw2 by done. simpl in Hw2. by rewrite B in Hw2.
  - intros rc w1 Hw1. cbv beta in Hw1. destruct (rc =? 0).
    + by rewrite length_seq, part_all in Hw1.
    + by rewrite part_0 in Hw1.
Qed.

Lemma or_each_wp f from to ip st n k l w :
  chan_moves f from to true → l = seq k (n - k) → (k ≤ n)%nat → net_rep (part k n to from) ip st w →
  wp (or_each f l 0) (λ rc w', rc = 0 ∧ net_rep (all to n) ip st w') w.
Proof.
  intros Hf -> Hk Hrep. remember (n - k)%nat as m eqn:Hm. revert k w Hk Hm Hrep.
  induction m as [|m IH]; intros k w Hk Hm Hrep; simpl.
  - apply wp_ret. split; [done|]. replace k with n in Hrep by lia. by rewrite part_all in Hrep.
  - destruct (part_step k n to from) as [A B]; [lia|]. apply wp_bind.
    eapply wp_mono; [by eapply Hf|]. intros rc w1 [Hs Hw1]. rewrite Hs in * by done. simpl in Hw1.
    rewrite B in Hw1. apply IH; [lia|lia|done].
Qed.

Lemma each_wp f from to ip st n w : chan_moves f from to true → net_rep (all from n) ip st w →
  wp (let* l := all_channels in or_each f l 0) (λ rc w', rc = 0 ∧ net_rep (all to n) ip st w') w.
Proof.
  intros Hf Hrep. unfold all_channels. wp_steps. rewrite (net_count _ _ _ _ Hrep).
  unfold all at 1. rewrite length_replicate. apply (or_each_wp f from to ip st n 0); [done| |lia|by rewrite part_0].
  by rewrite Nat.sub_0_r.
Qed.

(** ** The IPA side *)
Lemma ipa_step ps ip ip' st w w' : net_rep ps ip st w → ipa_frame w w' → ipa_rep ip' w' →
  net_rep ps ip' st w'.
Proof.
  intros (Hd & _ & Hs & Hf & Hc) (Hsame & Hv & Hst & _) Hip.
  assert (∀ i c', channels w' !! i = Some c' → ∃ c, channels w !! i = Some c ∧ ipa_view c = ipa_view c') as Hback.
  { intros i c' Hc'. assert ((ipa_view <$> channels w') !! i = Some (ipa_view c')) as E
      by by rewrite list_lookup_fmap, Hc'.
    rewrite Hv, list_lookup_fmap in E. destruct (channels w !! i) as [c|]; [|done].
    exists c. split; [done|]. by apply (inj Some) in E. }
  split_and!; [by eapply drv_stable|done|congruence| |].
  - intros i c' ph Hc' Hph. destruct (Hback _ _ Hc') as (c & Hci & E). injection E. intros.
    specialize (Hf i c ph Hci Hph). unfold flags_ok in *. by split_and!; destruct Hf as (? & ? & ?); congruence.
  - intros i c' Hc'. destruct (Hback _ _ Hc') as (c & Hci & E). injection E. intros.
    specialize (Hc i c Hci). unfold cfg_ok in *. replace (default_config c') with (default_config c). done.
Qed.

Lemma register_wp ps st w : net_rep ps IpaDown st w →
  wp ioss_ipa_register (λ rc w', if rc =? 0 then net_rep ps IpaUp st w'
    else ∃ ip, ip ≠ IpaUp ∧ net_rep ps ip st w') w.
Proof.
  intros Hrep. eapply wp_mono; [apply ipa_register_law, Hrep|]. intros rc w' [Hf Hip].
  destruct (rc =? 0); [by eapply ipa_step|].
  destruct Hip; (eexists; split; [|by eapply ipa_step]); done.
Qed.
Lemma unregister_wp ps st w : net_rep ps IpaUp st w →
  wp ioss_ipa_unregister (λ rc w', net_rep ps (if rc =? 0 then IpaDown else IpaStuck) st w') w.
Proof.
  intros Hrep. eapply wp_mono; [apply ipa_unregister_law, Hrep|]. intros rc w' [Hf Hip].
  by eapply ipa_step.
Qed.

Lemma pc_wp b ps ip st w : net_rep ps ip st w →
  wp (callout (PciPmControl b) ;; result) (λ _ w', net_rep ps ip st w') w.
Proof.
  intros Hrep. apply wp_bind, callout_wp, result_wp. intros z rs. by apply net_results, net_calls.
Qed.

Lemma state_wp ps ip st st' w : net_rep ps ip st w →
  wp (modify (if_set_state st')) (λ _ w', net_rep ps ip st' w') w.
Proof. intros Hrep. apply wp_modify. by eapply net_outside. Qed.

(** ** The three states of an interface *)
Definition offline (n : nat) (w : iface) : Prop := net_rep (all Idle n) IpaDown IOSS_IF_ST_OFFLINE w.
Definition online (n : nat) (w : iface) : Prop := net_rep (all Running n) IpaUp IOSS_IF_ST_ONLINE w.
Definition errored (n : nat) (w : iface) : Prop :=
  ∃ ip, ip ≠ IpaUp ∧ net_rep (all Idle n) ip IOSS_IF_ST_ERROR w.

Section online.
Context (n : nat) (st : ioss_interface_state).

(** The error path, from its last step back to its first. *)
Lemma err_register_wp ip w : ip ≠ IpaUp → net_rep (all Held n) ip st w →
  wp (let* _ := ioss_net_free_channels in modify (if_set_state IOSS_IF_ST_ERROR)) (λ _ w', errored n w') w.
Proof.
  intros Hip Hrep. apply wp_bind. eapply wp_mono; [eapply each_wp; [apply free_channel_moves|done]|].
  intros rc w1 [_ Hw1]. eapply wp_mono; [by eapply state_wp|]. intros [] w2 Hw2. by exists ip.
Qed.

Lemma err_setup_wp w : net_rep (all Held n) IpaUp st w →
  wp (let* _ := ioss_ipa_unregister in
      let* _ := ioss_net_free_channels in modify (if_set_state IOSS_IF_ST_ERROR)) (λ _ w', errored n w') w.
Proof.
  intros Hrep. apply wp_bind. eapply wp_mono; [by apply unregister_wp|]. intros rc w1 Hw1.
  eapply err_register_wp; [|exact Hw1]. by destruct (rc =? 0).
Qed.

Lemma err_enable_wp w : net_rep (all Ready n) IpaUp st w →
  wp (let* _ := ioss_net_teardown_events in let* _ := ioss_ipa_unregister in
      let* _ := ioss_net_free_channels in modify (if_set_state IOSS_IF_ST_ERROR)) (λ _ w', errored n w') w.
Proof.
  intros Hrep. apply wp_bind. eapply wp_mono; [eapply each_wp; [apply teardown_event_moves|done]|].
  intros rc w1 [_ Hw1]. by apply err_setup_wp.
Qed.

Lemma err_disable_pc_wp w : net_rep (all Running n) IpaUp st w →
  wp (let* _ := ioss_net_disable_channels in let* _ := ioss_net_teardown_events in
      let* _ := ioss_ipa_unregister in
      let* _ := ioss_net_free_channels in modify (if_set_state IOSS_IF_ST_ERROR)) (λ _ w', errored n w') w.
Proof.
  intros Hrep. apply wp_bind. eapply wp_mono; [eapply each_wp; [apply disable_channel_moves'|done]|].
  intros rc w1 [_ Hw1]. by apply err_enable_wp.
Qed.
End online.

Lemma set_online_wp n w : offline n w →
  wp ioss_iface_set_online (λ _ w', online n w' ∨ errored n w') w.
Proof.
  intros Hrep. unfold ioss_iface_set_online. wp_steps.
  replace (if_state w) with IOSS_IF_ST_OFFLINE by (by destruct Hrep as (_ & _ & -> & _)).
  destruct (decide _); [done|]. apply wp_bind.
  eapply wp_mono; [eapply (walk_wp _ _ Idle Held); [apply alloc_channel_moves|apply free_channel_moves|exact Hrep]|].
  intros rc w1 Hw1. cbv beta in Hw1. destruct (rc =? 0); simpl.
  2:{ eapply wp_mono; [by eapply state_wp|]. intros [] w2 Hw2. right. by exists IpaDown. }
  apply wp_bind. eapply wp_mono; [by apply register_wp|].
  intros rc2 w2 Hw2. cbv beta in Hw2. destruct (rc2 =? 0); simpl.
  2:{ destruct Hw2 as (ip & Hip & Hw2). eapply wp_mono; [by eapply (err_register_wp n _ ip)|]. intros [] w3 Hw3. by right. }
  apply wp_bind.
  eapply wp_mono; [eapply (walk_wp _ _ Held Ready); [apply setup_event_moves|apply teardown_event_moves|done]|].
  intros rc3 w3 Hw3. cbv beta in Hw3. destruct (rc3 =? 0); simpl.
  2:{ eapply wp_mono; [by eapply err_setup_wp|]. intros [] w4 Hw4. by right. }
  apply wp_bind.
  eapply wp_mono; [eapply (walk_wp _ _ Ready Running); [|apply disable_channel_moves'|done]|].
  { intros ps ip st' w' i Hr Hi. eapply wp_mono; [by apply enable_channel_moves'|].
    intros rc' w'' [_ ?]. by split. }
  intros rc4 w4 Hw4. cbv beta in Hw4. destruct (rc4 =? 0); simpl.
  2:{ eapply wp_mono; [by eapply err_enable_wp|]. intros [] w5 Hw5. by right. }
  apply wp_bind. eapply wp_mono; [by apply pc_wp|].
  intros rc5 w5 Hw5. cbv beta in Hw5. destruct (rc5 =? 0); simpl.
  2:{ eapply wp_mono; [by eapply err_disable_pc_wp|]. intros [] w6 Hw6. by right. }
  eapply wp_mono; [by eapply state_wp|]. intros [] w6 Hw6. by left.
Qed.

(** Going off line: each step is taken whatever the others return. *)
Lemma error_unless_wp rc ps ip st w : net_rep ps ip st w →
  wp (error_unless_0 rc) (λ _ w', net_rep ps ip (if rc =? 0 then st else IOSS_IF_ST_ERROR) w') w.
Proof.
  intros Hrep. unfold error_unless_0. destruct (rc =? 0); simpl; [by apply wp_ret|by eapply state_wp].
Qed.

Lemma set_offline_wp n w : online n w →
  wp ioss_iface_set_offline (λ _ w', offline n w' ∨ errored n w') w.
Proof.
  intros Hrep. unfold ioss_iface_set_offline. wp_steps.
  replace (if_state w) with IOSS_IF_ST_ONLINE by (by destruct Hrep as (_ & _ & -> & _)).
  destruct (decide _); [done|]. apply wp_bind. eapply wp_mono; [by eapply state_wp|]. intros [] w1 Hw1.
  apply wp_bind. eapply wp_mono; [by apply pc_wp|]. intros rc w2 Hw2. cbv beta in Hw2.
  apply wp_bind. eapply wp_mono; [by apply (error_unless_wp rc)|]. intros [] w3 Hw3. cbv beta in Hw3.
  apply wp_bind. eapply wp_mono; [eapply each_wp; [apply disable_channel_moves'|done]|].
  intros rc2 w4 [-> Hw4]. apply wp_bind. eapply wp_mono; [by apply (error_unless_wp 0)|]. intros [] w5 Hw5.
  apply wp_bind. eapply wp_mono; [eapply each_wp; [apply teardown_event_moves|done]|].
  intros rc3 w6 [-> Hw6]. apply wp_bind. eapply wp_mono; [by apply (error_unless_wp 0)|]. intros [] w7 Hw7.
  apply wp_bind. eapply wp_mono; [by apply unregister_wp|]. intros rc4 w8 Hw8. cbv beta in Hw8.
  apply wp_bind. eapply wp_mono; [by apply (error_unless_wp rc4)|]. intros [] w9 Hw9. cbv beta in Hw9.
  apply wp_bind. eapply wp_mono; [eapply each_wp; [apply free_channel_moves|done]|].
  intros rc5 w10 [-> Hw10]. eapply wp_mono; [by apply (error_unless_wp 0)|]. intros [] w11 Hw11.
  simpl in Hw11. destruct (rc4 =? 0), (rc =? 0); [by left|right|right|right]; eexists; (split; [|exact Hw11]); done.
Qed.
End spec.
