(* ===== verification/IossRefresh.v ===== *)
(** * IOSS: the refresh work, correctness

    Whatever the link does, an interface is completely off line, completely on
    line, or in error with every channel given back. *)
From stdpp Require Import base tactics list gmap numbers.
From Stdlib Require Import ZArith Lia.
From S2P Require Import Prelude IossUtils RtlLib IossData IossLaws IossMem IossNet IossNetSpec.

Section refresh.
Context `{IossApi} `{DriverLaws} `{IpaLaws}.

Definition net_inv (n : nat) (w : iface) : Prop := offline n w ∨ online n w ∨ errored n w.

Lemma offline_state n w : offline n w → if_state w = IOSS_IF_ST_OFFLINE.
Proof. by intros (_ & _ & ? & _). Qed.
Lemma online_state n w : online n w → if_state w = IOSS_IF_ST_ONLINE.
Proof. by intros (_ & _ & ? & _). Qed.
Lemma errored_state n w : errored n w → if_state w = IOSS_IF_ST_ERROR.
Proof. by intros (ip & _ & _ & _ & ? & _). Qed.

(** The state says which of the three it is. *)
Lemma inv_online n w : net_inv n w → if_state w = IOSS_IF_ST_ONLINE → online n w.
Proof. intros [Ho|[Ho|Ho]] E; [apply offline_state in Ho|done|apply errored_state in Ho]; congruence. Qed.
Lemma inv_offline n w : net_inv n w → if_state w = IOSS_IF_ST_OFFLINE → offline n w.
Proof. intros [Ho|[Ho|Ho]] E; [done|apply online_state in Ho|apply errored_state in Ho]; congruence. Qed.
Lemma inv_errored n w : net_inv n w → if_state w = IOSS_IF_ST_ERROR → errored n w.
Proof. intros [Ho|[Ho|Ho]] E; [apply offline_state in Ho|apply online_state in Ho|done]; congruence. Qed.

Lemma speed_inv n z w : net_inv n w → net_inv n (if_speed z w).
Proof.
  unfold net_inv, offline, online, errored. intros [?|[?|(ip & ? & ?)]].
  - left. by apply net_speed.
  - right; left. by apply net_speed.
  - right; right. exists ip. split; [done|]. by apply net_speed.
Qed.

(** Off line or in error, going off line does nothing; on line or in error,
    going on line does nothing. *)
Lemma online_wp n w : net_inv n w → wp ioss_iface_set_online (λ _ w',
  net_inv n w' ∧ if_state w' ≠ IOSS_IF_ST_OFFLINE ∧ (errored n w → errored n w')) w.
Proof.
  intros Hinv. destruct (decide (if_state w = IOSS_IF_ST_OFFLINE)) as [E|E].
  - pose proof (inv_offline _ _ Hinv E) as Ho. eapply wp_mono; [by apply set_online_wp|].
    intros [] w' [Hw|Hw]; (split_and!; [by (right; auto)| |intros He%errored_state; congruence]).
    + apply online_state in Hw. congruence.
    + apply errored_state in Hw. congruence.
  - unfold ioss_iface_set_online. wp_steps. destruct (decide _); [|done]. by apply wp_ret.
Qed.
Lemma offline_wp n w : net_inv n w → wp ioss_iface_set_offline (λ _ w',
  net_inv n w' ∧ if_state w' ≠ IOSS_IF_ST_ONLINE ∧ (errored n w → errored n w')) w.
Proof.
  intros Hinv. destruct (decide (if_state w = IOSS_IF_ST_ONLINE)) as [E|E].
  - pose proof (inv_online _ _ Hinv E) as Ho. eapply wp_mono; [by apply set_offline_wp|].
    intros [] w' [Hw|Hw]; (split_and!; [by (unfold net_inv; auto)| |intros He%errored_state; congruence]).
    + apply offline_state in Hw. congruence.
    + apply errored_state in Hw. congruence.
  - unfold ioss_iface_set_offline. wp_steps. destruct (decide _); [|done]. by apply wp_ret.
Qed.

Lemma refresh_wp n v w : net_inv n w → wp (ioss_refresh_work v) (λ _ w', net_inv n w' ∧
  (lv_registered v = false → w' = w) ∧ (errored n w → errored n w') ∧
  (lv_registered v = true → if_state w' ≠ if wants_online v then IOSS_IF_ST_OFFLINE else IOSS_IF_ST_ONLINE)) w.
Proof.
  intros Hinv. unfold ioss_refresh_work. destruct (lv_registered v); simpl; [|by apply wp_ret].
  apply wp_bind, wp_modify. pose proof (speed_inv n (fetch_ethtool_link_speed v) w Hinv) as Hs.
  assert (errored n w → errored n (if_speed (fetch_ethtool_link_speed v) w)) as He.
  { intros He. apply inv_errored; [done|]. by apply errored_state in He. }
  destruct (wants_online v); (eapply wp_mono; [by apply online_wp || by apply offline_wp|]);
    intros [] w' (? & ? & ?); split_and!; (done || auto).
Qed.
End refresh.

(** C2: Against any network driver and any IPA side that keep their
    contracts, an interface of [n] channels is always in one of three
    conditions: off line (every channel idle, the client down), on line (every
    channel running, the client up) or in error (every channel idle again and
    the client not up). The refresh work is defined and keeps this whatever
    fails on the way; it leaves error only to error, changes nothing when the
    device is not registered, and otherwise never ends off line when the link
    wants to be on line, nor on line when it does not. *)
Theorem refresh_spec `{IossApi} `{DriverLaws} `{IpaLaws} n v w : net_inv n w →
  wp (ioss_refresh_work v) (λ _ w', net_inv n w' ∧
    (lv_registered v = false → w' = w) ∧ (errored n w → errored n w') ∧
    (lv_registered v = true → wants_online v = true → online n w' ∨ errored n w') ∧
    (lv_registered v = true → wants_online v = false → offline n w' ∨ errored n w')) w.
Proof.
  intros Hinv. eapply wp_mono; [by apply (refresh_wp n v)|]. intros [] w' (Hn & Hr & He & Hw).
  split_and!; [done|done|done|..]; intros Hreg Hwant; specialize (Hw Hreg); rewrite Hwant in Hw;
    destruct Hn as [Ho|[Ho|Ho]]; try (by auto);
    [apply offline_state in Ho|apply online_state in Ho]; done.
Qed.
