(* ===== verification/IossWatch.v ===== *)
(** * IOSS: watching the network device

    [ioss_net.c] and [ioss_bus.c]: the device's events, the two works they
    queue, the wakeup source, the statistics hook, and the requests of the bus
    (offline, online, resume) that go through the same refresh work. *)
From stdpp Require Import base tactics list gmap strings numbers.
From Stdlib Require Import ZArith Lia.
From S2P Require Import Prelude IossUtils RtlLib IossData IossMem IossNet.

(** ** Data *)
(** The events the tables name; the others within the table, and beyond it. *)
Inductive netdev_event :=
  | NETDEV_REGISTER | NETDEV_UNREGISTER | NETDEV_CHANGENAME | NETDEV_PRE_UP | NETDEV_UP
  | NETDEV_GOING_DOWN | NETDEV_DOWN | NETDEV_CHANGE | NETDEV_CHANGELOWERSTATE
  | NETDEV_PRECHANGEUPPER | NETDEV_CHANGEUPPER | NETDEV_JOIN
  | NETDEV_UNNAMED | NETDEV_BEYOND.
#[export] Instance netdev_event_eq_dec : EqDecision netdev_event.
Proof. solve_decision. Defined.

Definition ioss_netdev_event_name (e : netdev_event) : string :=
  match e with
  | NETDEV_REGISTER => "REGISTER" | NETDEV_UNREGISTER => "UNREGISTER"
  | NETDEV_CHANGENAME => "CHANGE_NAME" | NETDEV_PRE_UP => "PRE_UP" | NETDEV_UP => "UP"
  | NETDEV_GOING_DOWN => "GOING_DOWN" | NETDEV_DOWN => "DOWN" | NETDEV_CHANGE => "CHANGE"
  | NETDEV_CHANGELOWERSTATE => "CHANGE_LOWER_STATE" | NETDEV_PRECHANGEUPPER => "PRE_CHANGE_UPPER"
  | NETDEV_CHANGEUPPER => "CHANGE_UPPER" | NETDEV_JOIN => "JOIN"
  | NETDEV_UNNAMED | NETDEV_BEYOND => "<unknown>"
  end%string.

(** A network device, as the notifier tells it from others. *)
Record net_device := NetDev { nd_name : string; nd_parent : Z }.

(** Whose operations [net_dev->netdev_ops] points to; [None] is NULL. *)
Inductive nd_ops := RealOps | IossOps.
#[export] Instance nd_ops_eq_dec : EqDecision nd_ops.
Proof. solve_decision. Defined.

Inductive pm_event := PM_SUSPEND_PREPARE | PM_POST_SUSPEND | PM_OTHER.

(** An offload device and its interface. *)
Record ioss_device := Idev {
  d_iface : iface;
  d_net_dev : net_device;
  d_parent : bool;                   (* [iface->dev.parent] is the network device *)
  d_refs : Z;                        (* references held on the network device *)
  d_offline : bool; d_unbinding : bool;
  d_refresh : bool; d_check : bool;  (* the works that are queued *)
  d_ws : option bool;                (* [active_ws], and whether it is awake *)
  d_nb : bool; d_pm_nb : bool;       (* the notifiers that are registered *)
  d_debugfs : bool;
  netdev_ops : option nd_ops; netdev_ops_real : option nd_ops;
  netdev_stats : Z;                  (* [rx_packets] at the last check *)
  exception_stats : Z * Z;           (* [rx_packets] and [rx_bytes] *)
  wolopts : Z }.

Abbreviation X := (M ioss_device).

(** What the kernel answers while an operation runs: the link, the traffic,
    the results of registering the interface's device, of the notifier calls,
    of the wakeup source, and whether the driver can set Wake-on-LAN. *)
Record world := World {
  k_running : bool; k_carrier : bool; k_speed : option Z; k_rx : Z * Z;
  k_device_register : Z; k_wakeup_source : bool; k_register_notifier : Z; k_unregister_notifier : Z;
  k_set_wol : bool }.

Definition on_if {A} (m : W A) : X A := λ d,
  match m (d_iface d) with
  | Some (a, w) => Some (a, Idev w (d_net_dev d) (d_parent d) (d_refs d) (d_offline d) (d_unbinding d)
      (d_refresh d) (d_check d) (d_ws d) (d_nb d) (d_pm_nb d) (d_debugfs d) (netdev_ops d)
      (netdev_ops_real d) (netdev_stats d) (exception_stats d) (wolopts d))
  | None => None
  end.

Definition w_parent (b : bool) (refs : Z) (d : ioss_device) : ioss_device :=
  Idev (d_iface d) (d_net_dev d) b refs (d_offline d) (d_unbinding d) (d_refresh d) (d_check d) (d_ws d)
    (d_nb d) (d_pm_nb d) (d_debugfs d) (netdev_ops d) (netdev_ops_real d) (netdev_stats d) (exception_stats d) (wolopts d).
Definition w_offline (b : bool) (d : ioss_device) : ioss_device :=
  Idev (d_iface d) (d_net_dev d) (d_parent d) (d_refs d) b (d_unbinding d) (d_refresh d) (d_check d) (d_ws d)
    (d_nb d) (d_pm_nb d) (d_debugfs d) (netdev_ops d) (netdev_ops_real d) (netdev_stats d) (exception_stats d) (wolopts d).
Definition w_unbinding (b : bool) (d : ioss_device) : ioss_device :=
  Idev (d_iface d) (d_net_dev d) (d_parent d) (d_refs d) (d_offline d) b (d_refresh d) (d_check d) (d_ws d)
    (d_nb d) (d_pm_nb d) (d_debugfs d) (netdev_ops d) (netdev_ops_real d) (netdev_stats d) (exception_stats d) (wolopts d).
Definition w_works (r c : bool) (d : ioss_device) : ioss_device :=
  Idev (d_iface d) (d_net_dev d) (d_parent d) (d_refs d) (d_offline d) (d_unbinding d) r c (d_ws d)
    (d_nb d) (d_pm_nb d) (d_debugfs d) (netdev_ops d) (netdev_ops_real d) (netdev_stats d) (exception_stats d) (wolopts d).
Definition w_ws (s : option bool) (d : ioss_device) : ioss_device :=
  Idev (d_iface d) (d_net_dev d) (d_parent d) (d_refs d) (d_offline d) (d_unbinding d) (d_refresh d) (d_check d) s
    (d_nb d) (d_pm_nb d) (d_debugfs d) (netdev_ops d) (netdev_ops_real d) (netdev_stats d) (exception_stats d) (wolopts d).
Definition w_notifiers (nb pm : bool) (d : ioss_device) : ioss_device :=
  Idev (d_iface d) (d_net_dev d) (d_parent d) (d_refs d) (d_offline d) (d_unbinding d) (d_refresh d) (d_check d) (d_ws d)
    nb pm (d_debugfs d) (netdev_ops d) (netdev_ops_real d) (netdev_stats d) (exception_stats d) (wolopts d).
Definition w_debugfs (b : bool) (d : ioss_device) : ioss_device :=
  Idev (d_iface d) (d_net_dev d) (d_parent d) (d_refs d) (d_offline d) (d_unbinding d) (d_refresh d) (d_check d) (d_ws d)
    (d_nb d) (d_pm_nb d) b (netdev_ops d) (netdev_ops_real d) (netdev_stats d) (exception_stats d) (wolopts d).
Definition w_ops (o r : option nd_ops) (d : ioss_device) : ioss_device :=
  Idev (d_iface d) (d_net_dev d) (d_parent d) (d_refs d) (d_offline d) (d_unbinding d) (d_refresh d) (d_check d) (d_ws d)
    (d_nb d) (d_pm_nb d) (d_debugfs d) o r (netdev_stats d) (exception_stats d) (wolopts d).
Definition w_stats (s : Z) (e : Z * Z) (d : ioss_device) : ioss_device :=
  Idev (d_iface d) (d_net_dev d) (d_parent d) (d_refs d) (d_offline d) (d_unbinding d) (d_refresh d) (d_check d) (d_ws d)
    (d_nb d) (d_pm_nb d) (d_debugfs d) (netdev_ops d) (netdev_ops_real d) s e (wolopts d).

Section watch.
Context `{IossApi} `{ioss_driver_ops} `{IpaOps}.

(** ** The refresh work *)
Definition seen (k : world) (d : ioss_device) : link_view :=
  LinkView (d_parent d) (k_running k) (k_carrier k) (d_offline d) (d_unbinding d) (k_speed k).

(** The worker runs the work if it is queued; so does a flush. *)
Definition run_refresh (k : world) : X unit :=
  let* d := gets id in
  if d_refresh d then
    modify (λ d, w_works false (d_check d) d) ;; on_if (ioss_refresh_work (seen k d))
  else ret tt.

Definition ioss_iface_queue_refresh (k : world) (flush : bool) : X unit :=
  modify (λ d, w_works true (d_check d) d) ;;
  if flush then run_refresh k else ret tt.

(** ** Statistics *)
(** The hook: the counters of the real operations and the exception path's. *)
Definition netdev_get_stats64 (k : world) : X (Z * Z) :=
  let* d := gets id in
  if negb (d_parent d) then ub    (* no child device to find *)
  else match netdev_ops_real d with
  | Some RealOps =>
      ret (u64 ((k_rx k).1 + (exception_stats d).1), u64 ((k_rx k).2 + (exception_stats d).2))
  | _ => ub     (* NULL, or itself again without end *)
  end.

(** [dev_get_stats] through whatever operations the device has. *)
Definition dev_get_stats (k : world) : X (Z * Z) :=
  let* d := gets id in
  match netdev_ops d with
  | Some RealOps => ret (k_rx k)
  | Some IossOps => netdev_get_stats64 k
  | None => ub
  end.

(** [__pm_stay_awake] and [__pm_relax] do nothing without a source. *)
Definition set_awake (b : bool) : X unit := modify (λ d, w_ws (const b <$> d_ws d) d).

Definition ioss_net_check_active (k : world) : X unit :=
  let* d := gets id in
  if negb (d_parent d) then ret tt
  else
    let* s := dev_get_stats k in
    modify (λ d, w_stats s.1 (exception_stats d) d) ;;
    set_awake (negb (netdev_stats d =? s.1)) ;;
    modify (λ d, w_works (d_refresh d) true d).

(** The real operations are copied, with the hook in place of theirs. *)
Definition hijack_netdev_ops : X unit :=
  let* d := gets id in
  match netdev_ops d with
  | Some o => modify (w_ops (Some IossOps) (Some o))
  | None => ub
  end.

Definition restore_netdev_ops : X unit :=
  let* d := gets id in
  if d_parent d then modify (λ d, w_ops (netdev_ops_real d) (netdev_ops_real d) d) else ub.

Definition pm_notifier_cb (k : world) (e : pm_event) : X unit :=
  match e with
  | PM_SUSPEND_PREPARE | PM_POST_SUSPEND => ioss_net_check_active k
  | PM_OTHER => ret tt
  end.

(** ** [ioss_bus.c]: the interface's device *)
(** The parent is set before the registration that can fail. *)
Definition ioss_bus_register_iface (k : world) : X Z :=
  modify (λ d, w_parent true (d_refs d + 1) d) ;; ret (k_device_register k).

Definition ioss_bus_unregister_iface : X unit :=
  modify (λ d, w_parent false (if d_parent d then d_refs d - 1 else d_refs d) d).

(** ** Events *)
Definition ioss_net_event_register (k : world) : X unit :=
  modify (λ d, w_stats (netdev_stats d) (0, 0) d) ;;
  let* rc := ioss_bus_register_iface k in
  if negb (rc =? 0) then on_if (modify (if_set_state IOSS_IF_ST_ERROR))
  else
    hijack_netdev_ops ;;
    modify (λ d, w_notifiers (d_nb d) true d) ;;
    ioss_iface_queue_refresh k false ;;
    ioss_net_check_active k.

Definition ioss_net_event_unregister (k : world) : X unit :=
  modify (λ d, w_works (d_refresh d) false d) ;;
  set_awake false ;;
  modify (λ d, w_notifiers (d_nb d) false d) ;;
  restore_netdev_ops ;;
  ioss_bus_unregister_iface ;;
  ioss_iface_queue_refresh k false.

Definition ioss_net_event_generic (k : world) : X unit := ioss_iface_queue_refresh k false.

Definition ioss_net_event_up (k : world) : X unit :=
  let* d := gets id in
  (if negb (wolopts d =? 0) && k_set_wol k then on_if (callout (SetWol (wolopts d))) else ret tt) ;;
  ioss_iface_queue_refresh k false.

Definition ioss_net_event_handlers (e : netdev_event) : option (world → X unit) :=
  match e with
  | NETDEV_REGISTER => Some ioss_net_event_register
  | NETDEV_UNREGISTER => Some ioss_net_event_unregister
  | NETDEV_UP => Some ioss_net_event_up
  | NETDEV_GOING_DOWN | NETDEV_CHANGE => Some ioss_net_event_generic
  | _ => None
  end.

Definition net_device_belongs_to (nd : net_device) (d : ioss_device) : bool :=
  nd_parent nd =? nd_parent (d_net_dev d).

Inductive notify := NOTIFY_OK | NOTIFY_DONE.

Definition ioss_net_device_event (k : world) (nd : net_device) (e : netdev_event) : X notify :=
  let* d := gets id in
  if negb (String.eqb (nd_name nd) (nd_name (d_net_dev d))) then ret NOTIFY_OK
  else if negb (net_device_belongs_to nd d) then ret NOTIFY_OK
  else match e with
    | NETDEV_BEYOND => ret NOTIFY_DONE
    | _ =>
        match ioss_net_event_handlers e with
        | Some handler => handler k ;; ret NOTIFY_OK
        | None => ret NOTIFY_OK
        end
    end.

(** The worker runs the delayed check. *)
Definition ioss_net_active_work (k : world) : X unit :=
  let* d := gets id in
  if d_check d then modify (λ d, w_works (d_refresh d) false d) ;; ioss_net_check_active k
  else ret tt.

(** ** The bus's requests *)
Definition store_suspend_ipa_offload (k : world) (input : option bool) : X unit :=
  match input with
  | None => ret tt
  | Some b => modify (w_offline b) ;; ioss_iface_queue_refresh k true
  end.

Definition ioss_bus_online_idev (k : world) : X unit :=
  modify (w_offline false) ;; ioss_iface_queue_refresh k true.
Definition ioss_bus_offline_idev (k : world) : X unit :=
  modify (w_offline true) ;; ioss_iface_queue_refresh k true.

Definition IOSS_RESUME_SETTLE_MS : Z := 5000.
Definition ioss_bus_resume_idev (k : world) : X unit :=
  let* d := gets id in
  let need_refresh := d_offline d in
  modify (λ d, if need_refresh then w_offline false d else d) ;;
  let was_suspended := negb (bool_decide (if_state (d_iface d) = IOSS_IF_ST_ONLINE)) in
  (if need_refresh then ioss_iface_queue_refresh k false else ret tt) ;;
  if was_suspended then on_if (callout (PmWakeupEvent IOSS_RESUME_SETTLE_MS)) else ret tt.

(** ** Watching and unwatching *)
(** The notifier calls replay events for the devices there are. *)
Fixpoint deliver (k : world) (evs : list (net_device * netdev_event)) : X unit :=
  match evs with
  | [] => ret tt
  | (nd, e) :: evs' => let* _ := ioss_net_device_event k nd e in deliver k evs'
  end.

Definition register_netdevice_notifier (k : world) (replayed : list (net_device * netdev_event)) : X Z :=
  let rc := k_register_notifier k in
  if rc =? 0 then modify (λ d, w_notifiers true (d_pm_nb d) d) ;; deliver k replayed ;; ret 0 else ret rc.
Definition unregister_netdevice_notifier (k : world) (replayed : list (net_device * netdev_event)) : X Z :=
  let* d := gets id in
  if negb (d_nb d) then ret (- ENOENT)
  else
    let rc := k_unregister_notifier k in
    if rc =? 0 then modify (λ d, w_notifiers false (d_pm_nb d) d) ;; deliver k replayed ;; ret 0 else ret rc.

(** Three debugfs nodes per device. *)
Definition ioss_debugfs_add_idev : X Z :=
  let* ok := on_if (create_nodes 3) in
  modify (w_debugfs ok) ;; ret (if ok : bool then 0 else - EFAULT).

Definition ioss_net_watch_device (k : world) (replayed gone : list (net_device * netdev_event)) : X Z :=
  let* rc := ioss_debugfs_add_idev in
  if negb (rc =? 0) then ret (- EFAULT)
  else
    modify (w_unbinding false) ;;
    modify (w_works false false) ;;
    let err_register rc :=
      let* _ := unregister_netdevice_notifier k gone in
      run_refresh k ;;
      modify (λ d, w_works (d_refresh d) false d) ;;
      modify (w_ws None) ;;
      modify (w_debugfs false) ;;
      ret rc in
    modify (w_ws (if k_wakeup_source k then Some false else None)) ;;
    if negb (k_wakeup_source k) then err_register 0      (* [rc] is still 0 *)
    else
      let* rc := register_netdevice_notifier k replayed in
      if negb (rc =? 0) then err_register rc else ret 0.

Definition ioss_net_unwatch_device (k : world) (gone : list (net_device * netdev_event)) : X Z :=
  modify (w_unbinding true) ;;
  ioss_iface_queue_refresh k true ;;
  let* rc := unregister_netdevice_notifier k gone in
  run_refresh k ;;
  modify (λ d, w_works (d_refresh d) false d) ;;
  modify (w_ws None) ;;
  modify (w_debugfs false) ;;
  ret rc.

(** ** Linking a device to its network device

    The walk leaves the inner loop at the first match of each name space; the
    cursor used afterwards is the last name space's, past its list unless it
    matched there. *)
Fixpoint first_match (parent : Z) (devs : list net_device) : option net_device :=
  match devs with
  | [] => None
  | nd :: devs' => if nd_parent nd =? parent then Some nd else first_match parent devs'
  end.

(** The device linked so far and the cursor, [None] when it is past the list. *)
Fixpoint walk_nets (parent : Z) (nets : list (list net_device)) (found cursor : option net_device)
    : option net_device * option net_device :=
  match nets with
  | [] => (found, cursor)
  | devs :: nets' =>
      let m := first_match parent devs in
      walk_nets parent nets' (match m with Some nd => Some nd | None => found end) m
  end.

(** The result and the device; using a cursor past the list is undefined. *)
Definition ioss_net_link_device (parent : Z) (net_dev : option net_device) (nets : list (list net_device))
    : option (Z * option net_device) :=
  match net_dev with
  | Some nd => Some (0, Some nd)
  | None =>
      match walk_nets parent nets None None with
      | (None, _) => Some (- ENOENT, None)
      | (Some nd, Some _) => Some (0, Some nd)
      | (Some _, None) => None
      end
  end.
End watch.
