(* ===== verification/IossWatchSpec.v ===== *)
(** * IOSS: watching the network device, correctness

    An invariant of every interleaving of events, works and requests, and what
    unwatching and unregistering leave. *)
From stdpp Require Import base tactics list gmap strings numbers relations.
From Stdlib Require Import ZArith Lia.
From S2P Require Import Prelude IossUtils RtlLib IossData IossLaws IossMem IossNet IossNetSpec IossRefresh IossWatch.

Section spec.
Context `{IossApi} `{DriverLaws} `{IpaLaws}.

(** ** The invariant *)
(** While the interface's device is registered the statistics hook is in place
    over the real operations and one reference is held; otherwise nothing of
    it is left. *)
Definition hooks_ok (d : ioss_device) : Prop :=
  if d_parent d
  then d_refs d = 1 ∧ netdev_ops d = Some IossOps ∧ netdev_ops_real d = Some RealOps ∧ d_pm_nb d = true
  else d_refs d = 0 ∧ netdev_ops d = Some RealOps ∧ d_pm_nb d = false ∧ d_check d = false.
Definition dinv (n : nat) (d : ioss_device) : Prop := net_inv n (d_iface d) ∧ hooks_ok d.

(** ** Steps *)
Inductive watch_op :=
  | Event (nd : net_device) (e : netdev_event) | Refresh | CheckActive | Pm (e : pm_event)
  | Store (input : option bool) | Online | Offline | Resume.

Definition run (k : world) (op : watch_op) : X unit :=
  match op with
  | Event nd e => let* _ := ioss_net_device_event k nd e in ret tt
  | Refresh => run_refresh k
  | CheckActive => ioss_net_active_work k
  | Pm e => pm_notifier_cb k e
  | Store input => store_suspend_ipa_offload k input
  | Online => ioss_bus_online_idev k
  | Offline => ioss_bus_offline_idev k
  | Resume => ioss_bus_resume_idev k
  end.

(** Ours, as the notifier decides it. *)
Definition ours (nd : net_device) (d : ioss_device) : Prop :=
  nd_name nd = nd_name (d_net_dev d) ∧ nd_parent nd = nd_parent (d_net_dev d).

(** When the kernel runs an operation: a device is registered once before it
    is unregistered, notifiers run while they are registered, works when they
    are queued. The interface's device can be registered. *)
Definition enabled (k : world) (d : ioss_device) (op : watch_op) : Prop :=
  match op with
  | Event nd e => d_nb d = true ∧ k_device_register k = 0 ∧
      (ours nd d → (e = NETDEV_REGISTER → d_parent d = false) ∧ (e = NETDEV_UNREGISTER → d_parent d = true))
  | Refresh => d_refresh d = true
  | CheckActive => d_check d = true
  | Pm _ => d_pm_nb d = true
  | _ => True
  end.

Definition step (d d' : ioss_device) : Prop := ∃ k op, enabled k d op ∧ run k op d = Some (tt, d').

(** ** Rules *)
Definition w_iface (w : iface) (d : ioss_device) : ioss_device :=
  Idev w (d_net_dev d) (d_parent d) (d_refs d) (d_offline d) (d_unbinding d) (d_refresh d) (d_check d) (d_ws d)
    (d_nb d) (d_pm_nb d) (d_debugfs d) (netdev_ops d) (netdev_ops_real d) (netdev_stats d) (exception_stats d) (wolopts d).

Lemma on_if_wp {A} (m : W A) (Q : A → ioss_device → Prop) d :
  wp m (λ a w, Q a (w_iface w d)) (d_iface d) → wp (on_if m) Q d.
Proof. unfold wp, on_if. destruct (m (d_iface d)) as [[a w]|]; done. Qed.

Lemma refresh_now_wp n k d : net_inv n (d_iface d) → d_refresh d = true →
  wp (run_refresh k) (λ _ d', ∃ w, d' = w_iface w (w_works false (d_check d) d) ∧ net_inv n w ∧
    (d_parent d = false → w = d_iface d) ∧
    (d_parent d = true → if_state w ≠ if wants_online (seen k d) then IOSS_IF_ST_OFFLINE else IOSS_IF_ST_ONLINE)) d.
Proof.
  intros Hn Hr. unfold run_refresh. apply wp_bind, wp_gets. simpl. rewrite Hr.
  apply wp_bind, wp_modify, on_if_wp. eapply wp_mono; [by apply (refresh_wp n (seen k d))|].
  intros [] w (Hw & HA & _ & HB). exists w. split_and!; [done|done|exact HA|exact HB].
Qed.

(** Queueing, with or without a flush. *)
Lemma queue_wp n k flush d : net_inv n (d_iface d) →
  wp (ioss_iface_queue_refresh k flush) (λ _ d', ∃ w, d' = w_iface w (w_works (negb flush) (d_check d) d) ∧
    net_inv n w ∧ (d_parent d = false → w = d_iface d) ∧ (flush = false → w = d_iface d) ∧
    (flush = true → d_parent d = true →
     if_state w ≠ if wants_online (seen k d) then IOSS_IF_ST_OFFLINE else IOSS_IF_ST_ONLINE)) d.
Proof.
  intros Hn. unfold ioss_iface_queue_refresh. apply wp_bind, wp_modify. destruct flush.
  - eapply wp_mono; [by apply (refresh_now_wp n k (w_works true (d_check d) d))|].
    intros [] d' (w & -> & Hw & HA & HB). exists w. by split_and!.
  - apply wp_ret. exists (d_iface d). split_and!; try done.
Qed.

Lemma dinv_queue n k flush d : dinv n d → wp (ioss_iface_queue_refresh k flush) (λ _ d', dinv n d') d.
Proof.
  intros [Hn Hh]. eapply wp_mono; [by apply (queue_wp n)|]. intros [] d' (w & -> & Hw & _). by split.
Qed.

(** A check reads the counters through the hook and queues itself again. *)
Lemma check_active_wp n k d : dinv n d →
  wp (ioss_net_check_active k) (λ _ d', d_iface d' = d_iface d ∧ d_parent d' = d_parent d ∧
    d_refresh d' = d_refresh d ∧ (d_parent d = false → d' = d) ∧ hooks_ok d') d.
Proof.
  intros [Hn Hh]. unfold ioss_net_check_active. apply wp_bind, wp_gets. simpl. unfold hooks_ok in *.
  destruct (d_parent d) eqn:Ep; simpl; [|apply wp_ret; rewrite Ep; done].
  destruct Hh as (HA & HB & HC & HD). apply wp_bind. unfold dev_get_stats. apply wp_bind, wp_gets. simpl. rewrite HB.
  unfold netdev_get_stats64. apply wp_bind, wp_gets. simpl. rewrite Ep, HC. simpl. apply wp_ret. wp_steps.
  unfold set_awake. wp_steps. simpl. rewrite Ep. done.
Qed.

Lemma dinv_check n k d : dinv n d → wp (ioss_net_check_active k) (λ _ d', dinv n d') d.
Proof.
  intros Hd. eapply wp_mono; [by apply (check_active_wp n)|]. intros [] d' (E & _ & _ & _ & Hh).
  split; [rewrite E; apply Hd|done].
Qed.

(** ** Events *)
Lemma calls_inv n c w : net_inv n w → net_inv n (if_calls c w).
Proof.
  unfold net_inv, offline, online, errored. intros [?|[?|(ip & ? & ?)]].
  - left. by apply net_calls.
  - right; left. by apply net_calls.
  - right; right. exists ip. split; [done|]. by apply net_calls.
Qed.

Lemma event_register_wp n k d : dinv n d → d_parent d = false → k_device_register k = 0 →
  wp (ioss_net_event_register k) (λ _ d', dinv n d') d.
Proof.
  intros [Hn Hh] Hp Hk. unfold hooks_ok in Hh. rewrite Hp in Hh. destruct Hh as (HA & HB & HC & HD).
  unfold ioss_net_event_register, ioss_bus_register_iface. wp_steps. rewrite Hk. simpl.
  apply wp_bind. unfold hijack_netdev_ops. apply wp_bind, wp_gets. simpl. rewrite HB. apply wp_modify. wp_steps.
  eapply wp_mono; [apply (dinv_queue n)|].
  { split; [done|]. unfold hooks_ok. simpl. rewrite HA. done. }
  intros [] d' Hd'. by apply dinv_check.
Qed.

Lemma event_unregister_wp n k d : dinv n d → d_parent d = true →
  wp (ioss_net_event_unregister k) (λ _ d', dinv n d' ∧ d_iface d' = d_iface d ∧ d_parent d' = false ∧
    d_refresh d' = true ∧ d_nb d' = d_nb d ∧ d_net_dev d' = d_net_dev d) d.
Proof.
  intros [Hn Hh] Hp. unfold hooks_ok in Hh. rewrite Hp in Hh. destruct Hh as (HA & HB & HC & HD).
  unfold ioss_net_event_unregister, set_awake, restore_netdev_ops, ioss_bus_unregister_iface. wp_steps.
  simpl. rewrite Hp. wp_steps. simpl. rewrite Hp, HC. unfold ioss_iface_queue_refresh. wp_steps.
  split_and!; try done. split; [done|]. unfold hooks_ok. simpl. rewrite HA. done.
Qed.

Lemma up_wp n k d : dinv n d → wp (ioss_net_event_up k) (λ _ d', dinv n d') d.
Proof.
  intros Hd. unfold ioss_net_event_up. apply wp_bind, wp_gets. simpl. apply wp_bind. destruct (_ && _).
  - apply on_if_wp, callout_wp. apply dinv_queue. split; [apply calls_inv, Hd|apply Hd].
  - by apply wp_ret, dinv_queue.
Qed.

Lemma ours_spec nd d : ours nd d ↔
  String.eqb (nd_name nd) (nd_name (d_net_dev d)) = true ∧ net_device_belongs_to nd d = true.
Proof. unfold ours, net_device_belongs_to. by rewrite String.eqb_eq, Z.eqb_eq. Qed.

Lemma event_wp n k nd e d : dinv n d → enabled k d (Event nd e) →
  wp (ioss_net_device_event k nd e) (λ _ d', dinv n d') d.
Proof.
  intros Hd (Hnb & Hk & He). unfold ioss_net_device_event. apply wp_bind, wp_gets. simpl.
  pose proof (ours_spec nd d) as Ho.
  destruct (String.eqb _ _); simpl; [|by apply wp_ret].
  destruct (net_device_belongs_to nd d); simpl; [|by apply wp_ret].
  destruct He as [He1 He2]; [by apply Ho|].
  destruct e; simpl; try (by apply wp_ret);
    (apply wp_bind; eapply wp_mono with (Q := λ _ d', dinv n d'); [|intros [] d' Hd'; apply wp_ret; exact Hd']).
  - apply event_register_wp; auto.
  - eapply wp_mono; [apply (event_unregister_wp n k d Hd); auto|]. intros [] d' Hu. apply Hu.
  - by apply up_wp.
Qed.

Lemma run_wp n k op d : dinv n d → enabled k d op → wp (run k op) (λ _ d', dinv n d') d.
Proof.
  intros Hd He. destruct op as [nd e| | |e|input| | |]; simpl in *.
  - apply wp_bind. eapply wp_mono; [by apply event_wp|]. intros r d' Hd'. by apply wp_ret.
  - eapply wp_mono; [apply (refresh_now_wp n); [apply Hd|done]|]. intros [] d' (w & -> & Hw & _).
    split; [done|apply Hd].
  - unfold ioss_net_active_work. apply wp_bind, wp_gets. simpl. rewrite He. apply wp_bind, wp_modify, dinv_check.
    destruct Hd as [Hn Hh]. split; [done|]. unfold hooks_ok in *. simpl. destruct (d_parent d); naive_solver.
  - destruct e; simpl; [by apply dinv_check|by apply dinv_check|by apply wp_ret].
  - destruct input as [b|]; simpl; [|by apply wp_ret]. apply wp_bind, wp_modify. by apply dinv_queue.
  - apply wp_bind, wp_modify. by apply dinv_queue.
  - apply wp_bind, wp_modify. by apply dinv_queue.
  - unfold ioss_bus_resume_idev. wp_steps. set (d1 := if d_offline (id d) then _ else d).
    assert (dinv n d1) as Hd1 by (unfold d1; by destruct (d_offline (id d))).
    eapply wp_mono with (Q := λ _ d', dinv n d').
    + destruct (d_offline (id d)); [by apply dinv_queue|by apply wp_ret].
    + intros [] d2 Hd2. destruct (negb _); [|by apply wp_ret]. apply on_if_wp, callout_wp.
      split; [apply calls_inv, Hd2|apply Hd2].
Qed.

Lemma steps_dinv n d d' : rtc step d d' → dinv n d → dinv n d'.
Proof.
  induction 1 as [|d1 d2 d3 (k & op & He & E) _ IH]; [done|]. intros Hd. apply IH.
  by eapply (wp_run _ _ d1 tt d2 (run_wp n k op d1 Hd He)).
Qed.

(** ** Unwatching *)
(** What unregistering a notifier replays for the device. *)
Definition going_away (nd : net_device) : list (net_device * netdev_event) :=
  [(nd, NETDEV_GOING_DOWN); (nd, NETDEV_DOWN); (nd, NETDEV_UNREGISTER)].

Lemma own_event_wp k nd e Q d : ours nd d → e ≠ NETDEV_BEYOND →
  wp (match ioss_net_event_handlers e with Some h => h k | None => ret tt end) (λ _ d', Q NOTIFY_OK d') d →
  wp (ioss_net_device_event k nd e) Q d.
Proof.
  intros [En Ep]%ours_spec He Hw. unfold ioss_net_device_event. apply wp_bind, wp_gets. simpl.
  rewrite En, Ep. simpl. destruct e; try done; simpl in *; try exact Hw; by apply wp_bind.
Qed.

Lemma going_away_wp n k nd d : dinv n d → d_parent d = true → ours nd d →
  wp (deliver k (going_away nd)) (λ _ d', dinv n d' ∧ d_iface d' = d_iface d ∧ d_parent d' = false ∧
    d_refresh d' = true ∧ d_nb d' = d_nb d) d.
Proof.
  intros Hd Hp Ho. unfold going_away. cbn [deliver].
  apply wp_bind. apply own_event_wp; [done|done|]. simpl.
  eapply wp_mono; [apply (queue_wp n k false), Hd|]. intros [] d1 (w & -> & Hw & _ & Hsame & _).
  specialize (Hsame eq_refl) as ->. set (d1 := w_iface _ _).
  assert (dinv n d1) as Hd1 by (split; [apply Hd|apply Hd]).
  apply wp_bind. apply own_event_wp; [done|done|]. apply wp_ret.
  apply wp_bind. apply own_event_wp; [done|done|]. simpl.
  eapply wp_mono; [by apply (event_unregister_wp n k d1)|]. intros [] d2 (? & ? & ? & ? & ? & _). by apply wp_ret.
Qed.

Definition quiesced (n : nat) (d : ioss_device) : Prop :=
  (offline n (d_iface d) ∨ errored n (d_iface d)) ∧
  d_parent d = false ∧ d_refs d = 0 ∧ netdev_ops d = Some RealOps ∧ d_pm_nb d = false ∧ d_nb d = false ∧
  d_refresh d = false ∧ d_check d = false ∧ d_ws d = None ∧ d_debugfs d = false.

Lemma unwatch_wp n k nd d : dinv n d → d_parent d = true → d_nb d = true → ours nd d →
  k_unregister_notifier k = 0 →
  wp (ioss_net_unwatch_device k (going_away nd)) (λ rc d', rc = 0 ∧ quiesced n d') d.
Proof.
  intros Hd Hp Hnb Ho Hk. unfold ioss_net_unwatch_device. apply wp_bind, wp_modify.
  apply wp_bind. eapply wp_mono; [apply (queue_wp n k true), Hd|].
  intros [] d1 (w & -> & Hw & _ & _ & Hst). specialize (Hst eq_refl Hp).
  set (d1 := w_iface w _). unfold unregister_netdevice_notifier. apply wp_bind, wp_bind, wp_gets. simpl.
  rewrite Hnb, Hk. simpl. apply wp_bind, wp_modify, wp_bind.
  eapply wp_mono; [apply (going_away_wp n k nd); [split; [done|apply Hd]|done|done]|].
  intros [] d2 (Hd2 & Ei & Hp2 & Hr2 & Hnb2). apply wp_ret.
  apply wp_bind. eapply wp_mono; [apply (refresh_now_wp n); [apply Hd2|done]|].
  intros [] d3 (w3 & -> & _ & Hw3 & _). rewrite (Hw3 Hp2), Ei. wp_steps. split; [done|].
  destruct Hd2 as [_ Hh]. unfold hooks_ok in Hh. rewrite Hp2 in Hh. destruct Hh as (HA & HB & HC & HD).
  unfold quiesced. simpl. split_and!; try done.
  assert (wants_online (seen k (w_unbinding true d)) = false) as E.
  { unfold wants_online. simpl. by rewrite andb_false_r. }
  rewrite E in Hst. destruct Hw as [?|[Hw%online_state|?]]; [by left|done|by right].
Qed.

(** ** Losing the device while on line *)
Definition step_away (d d' : ioss_device) : Prop := ∃ k op, enabled k d op ∧
  (∀ nd, ours nd d → op ≠ Event nd NETDEV_REGISTER) ∧ run k op d = Some (tt, d').
Definition stranded (n : nat) (d : ioss_device) : Prop := dinv n d ∧ online n (d_iface d) ∧ d_parent d = false.

Lemma online_calls n c w : online n w → online n (if_calls c w).
Proof. apply net_calls. Qed.

Lemma queue_gone_wp n k flush d : stranded n d → wp (ioss_iface_queue_refresh k flush) (λ _ d', stranded n d') d.
Proof.
  intros (Hd & Hon & Hp). eapply wp_mono; [apply (queue_wp n k flush), Hd|].
  intros [] d' (w & -> & Hw & Hg & _). specialize (Hg Hp) as ->. split_and!; [split; apply Hd|done|done].
Qed.

Lemma event_gone_wp n k nd e d : stranded n d → enabled k d (Event nd e) → (ours nd d → e ≠ NETDEV_REGISTER) →
  wp (ioss_net_device_event k nd e) (λ _ d', stranded n d') d.
Proof.
  intros Hd (_ & _ & He) Hne. unfold ioss_net_device_event. apply wp_bind, wp_gets. simpl.
  pose proof (ours_spec nd d) as Ho.
  destruct (String.eqb _ _); simpl; [|by apply wp_ret].
  destruct (net_device_belongs_to nd d); simpl; [|by apply wp_ret].
  assert (ours nd d) as Hours by by apply Ho. destruct (He Hours) as [_ He2]. specialize (Hne Hours).
  pose proof Hd as (_ & _ & Hp).
  destruct e; try done; try (specialize (He2 eq_refl); congruence);
    (apply wp_bind; eapply wp_mono with (Q := λ _ d', stranded n d'); [|intros [] d' Hd'; apply wp_ret; exact Hd']).
  - unfold ioss_net_event_up. apply wp_bind, wp_gets. simpl. apply wp_bind. destruct (_ && _).
    + apply on_if_wp, callout_wp, queue_gone_wp. destruct Hd as ((Hn & Hh) & Hon & _).
      split_and!; [split; [by apply calls_inv|done]|by apply online_calls|done].
    + by apply wp_ret, queue_gone_wp.
Qed.

Lemma check_gone_wp n k d : stranded n d → wp (ioss_net_check_active k) (λ _ d', stranded n d') d.
Proof.
  intros Hd. eapply wp_mono; [apply (check_active_wp n), Hd|]. intros [] d' (_ & _ & _ & E & _).
  by rewrite E by apply Hd.
Qed.

Lemma run_gone_wp n k op d : stranded n d → enabled k d op →
  (∀ nd, ours nd d → op ≠ Event nd NETDEV_REGISTER) → wp (run k op) (λ _ d', stranded n d') d.
Proof.
  intros Hd He Hne. pose proof Hd as (Hdi & Hon & Hp).
  assert (d_check d = false) as Hch by (destruct Hdi as [_ Hh]; unfold hooks_ok in Hh; rewrite Hp in Hh; apply Hh).
  destruct op as [nd e| | |e|input| | |]; simpl in *.
  - apply wp_bind. eapply wp_mono; [apply event_gone_wp; [done|done|]|].
    + intros Hours ->. by eapply Hne.
    + intros r d' Hd'. by apply wp_ret.
  - eapply wp_mono; [apply (refresh_now_wp n); [apply Hdi|done]|]. intros [] d' (w & -> & _ & Hg & _).
    specialize (Hg Hp) as ->. split_and!; [split; apply Hdi|done|done].
  - congruence.
  - destruct e; simpl; [by apply check_gone_wp|by apply check_gone_wp|by apply wp_ret].
  - destruct input as [b|]; simpl; [|by apply wp_ret]. apply wp_bind, wp_modify. by apply queue_gone_wp.
  - apply wp_bind, wp_modify. by apply queue_gone_wp.
  - apply wp_bind, wp_modify. by apply queue_gone_wp.
  - unfold ioss_bus_resume_idev. wp_steps. set (d1 := if d_offline (id d) then _ else d).
    assert (stranded n d1) as Hd1 by (unfold d1; by destruct (d_offline (id d))).
    eapply wp_mono with (Q := λ _ d', stranded n d').
    + destruct (d_offline (id d)); [by apply queue_gone_wp|by apply wp_ret].
    + intros [] d2 Hd2. destruct (negb _); [|by apply wp_ret]. apply on_if_wp, callout_wp.
      destruct Hd2 as ((Hn & Hh) & Hon2 & Hp2).
      split_and!; [split; [by apply calls_inv|done]|by apply online_calls|done].
Qed.

Lemma steps_stranded n d d' : rtc step_away d d' → stranded n d → stranded n d'.
Proof.
  induction 1 as [|d1 d2 d3 (k & op & He & Hne & E) _ IH]; [done|]. intros Hd. apply IH.
  by eapply (wp_run _ _ d1 tt d2 (run_gone_wp n k op d1 Hd He Hne)).
Qed.

Lemma going_down_wp n k nd d : dinv n d → ours nd d →
  wp (run k (Event nd NETDEV_GOING_DOWN)) (λ _ d1, dinv n d1 ∧ d_iface d1 = d_iface d ∧
    d_parent d1 = d_parent d ∧ ours nd d1) d.
Proof.
  intros Hd Ho. simpl. apply wp_bind, own_event_wp; [done|done|]. simpl.
  eapply wp_mono; [apply (queue_wp n k false), Hd|]. intros [] d1 (w & -> & Hw & _ & Hsame & _).
  specialize (Hsame eq_refl) as ->. apply wp_ret. split_and!; [split; apply Hd|done|done|exact Ho].
Qed.
Lemma strand_wp n k nd d : dinv n d → d_parent d = true → ours nd d → online n (d_iface d) →
  wp (run k (Event nd NETDEV_UNREGISTER)) (λ _ d', stranded n d') d.
Proof.
  intros Hd Hp Ho Hon. simpl. apply wp_bind, own_event_wp; [done|done|]. simpl.
  eapply wp_mono; [by apply (event_unregister_wp n k d)|]. intros [] d' (? & E & ? & _). apply wp_ret.
  unfold stranded. split_and!; [done|by rewrite E|done].
Qed.
End spec.

(** C9: From any state of the invariant, however the device's events, the two
    works, the power notifier and the requests of the bus interleave, the
    invariant holds: the interface is completely off line, on line or in
    error, and the statistics hook, the power notifier and one reference on
    the network device are held exactly while it is registered. Every
    operation the kernel may run next is defined (no NULL operations, no hook
    that calls itself, no lookup of an absent device). *)
Theorem watch_safe `{IossApi} `{DriverLaws} `{IpaLaws} n d0 d : dinv n d0 → rtc step d0 d →
  dinv n d ∧ ∀ k op, enabled k d op → ∃ d', run k op d = Some (tt, d') ∧ dinv n d'.
Proof.
  intros Hd0 Hs. pose proof (steps_dinv n _ _ Hs Hd0) as Hd. split; [done|]. intros k op He.
  pose proof (run_wp n k op d Hd He) as Hw. apply wp_elim in Hw as ([] & d' & E & Hd'). eauto.
Qed.

(** Unwatching a registered device succeeds and leaves nothing running:
    the interface is off line or in error with every channel given back, no
    work is queued, the network device has its own operations again and no
    reference or notifier is kept, from any state the events can lead to. *)
Theorem unwatch_quiesces `{IossApi} `{DriverLaws} `{IpaLaws} n k nd d0 d : dinv n d0 → rtc step d0 d →
  d_parent d = true → d_nb d = true → ours nd d → k_unregister_notifier k = 0 →
  wp (ioss_net_unwatch_device k (going_away nd)) (λ rc d', rc = 0 ∧ quiesced n d') d.
Proof. intros Hd0 Hs. pose proof (steps_dinv n _ _ Hs Hd0) as Hd. by apply unwatch_wp. Qed.

(** If the device is unregistered before the refresh work that its going
    down queued has run, the interface stays on line for good, every channel
    running: the work sees no device and returns, and so does every later
    event, check and request until a device is registered again. *)
Theorem unregister_strands `{IossApi} `{DriverLaws} `{IpaLaws} n k nd d d1 d2 : dinv n d →
  d_parent d = true → ours nd d → online n (d_iface d) →
  run k (Event nd NETDEV_GOING_DOWN) d = Some (tt, d1) → run k (Event nd NETDEV_UNREGISTER) d1 = Some (tt, d2) →
  ∀ d', rtc step_away d2 d' → online n (d_iface d') ∧ d_parent d' = false.
Proof.
  intros Hd Hp Ho Hon E1 E2 d' Hs. apply (steps_stranded n d2); [done|].
  pose proof (wp_run _ _ _ _ _ (going_down_wp n k nd d Hd Ho) E1) as (Hd1 & Ei & Hp1 & Ho1).
  apply (wp_run _ _ _ _ _ (strand_wp n k nd d1 Hd1 ltac:(congruence) Ho1 ltac:(by rewrite Ei)) E2).
Qed.
