(* ===== verification/IossStats.v ===== *)
(** * IOSS: statistics

    [ioss_debugfs.c]: what reading the nodes of a device and of its channels
    gives, and the exception path of [ioss_ipa.c] that one of the counters
    counts. The driver's counters are an interface, [StatsOps]. *)
From stdpp Require Import base tactics list gmap strings numbers.
From Stdlib Require Import ZArith Lia.
From S2P Require Import Prelude IossUtils RtlLib IossData R8125Ioss IossWatch.

(** ** Data *)
(** [struct ioss_device_stats]: [rx_packets (hwp s)] is [hwp_rx_packets]. *)
Record path_stats := Path {
  rx_packets : Z; tx_packets : Z; rx_bytes : Z; tx_bytes : Z;
  rx_errors : Z; tx_errors : Z; rx_drops : Z; tx_drops : Z }.
Record ioss_device_stats := DevStats {
  hwp : path_stats; expt : path_stats; emac : path_stats;
  emac_rx_pause_frames : Z; emac_tx_pause_frames : Z }.
Record ioss_channel_stats := ChStats { overflow_error : Z; underflow_error : Z; desc_unavail : Z }.
(** [memset(stats, 0, ...)]. *)
Definition path0 : path_stats := Path 0 0 0 0 0 0 0 0.
Definition stats0 : ioss_device_stats := DevStats path0 path0 path0 0 0.
Definition ch_stats0 : ioss_channel_stats := ChStats 0 0 0.
Definition status0 : ioss_channel_status := ChStatus false 0 0 0 0 0.

(** The counters of the real network device, received and sent. *)
Record link_stats := LinkStats { n_rx_packets : Z; n_rx_bytes : Z; n_tx_packets : Z; n_tx_bytes : Z }.

(** The operations of the driver; [None] is a NULL one. Its own state is
    [hwst], beside the interface. *)
Class StatsOps := {
  hwst : Type;
  get_device_statistics : option (ioss_device_stats → M (iface * hwst) (Z * ioss_device_stats));
  get_channel_statistics : option (nat → ioss_channel_stats → M (iface * hwst) (Z * ioss_channel_stats));
  get_channel_status : option (nat → ioss_channel_status → M (iface * hwst) (Z * ioss_channel_status)) }.

(** ** The text *)
(** The decimal digits of [%llu]; twenty are enough for 64 bits. *)
Fixpoint dec_loop (fuel : nat) (n : Z) : list Z :=
  match fuel with
  | O => []
  | S fuel' => (if n <? 10 then [] else dec_loop fuel' (n / 10)) ++ [48 + n mod 10]
  end.
Definition dec (n : Z) : list Z := dec_loop 20 n.

Definition BUF_LEN : Z := 3000.
(** [len += scnprintf(buf + len, BUF_LEN - len, ...)]: what fits, less a NUL. *)
Definition scnprintf (buf s : list Z) : list Z := buf ++ take (Z.to_nat (BUF_LEN - Z.of_nat (length buf) - 1)) s.
Definition print_all (items : list (list Z)) : list Z := foldl scnprintf [] items.

Definition named (name : string) (v : Z) : list Z := chars name ++ chars ": " ++ dec v ++ [10].
Definition spaced (v : Z) : list Z := dec v ++ [32].

(** [simple_read_from_buffer]: the result, and what is copied to the user. *)
Definition simple_read_from_buffer (size pos : Z) (buf : list Z) : Z * list Z :=
  if pos <? 0 then (- EINVAL, [])
  else
    let l := take (Z.to_nat size) (drop (Z.to_nat pos) buf) in
    (Z.of_nat (length l), l).

Section stats.
Context `{IossApi} `{StatsOps}.
Abbreviation Rd := (M (ioss_device * hwst)).

Definition on_dev {A} (m : X A) : Rd A := λ s,
  match m s.1 with Some (a, d) => Some (a, (d, s.2)) | None => None end.
Definition w_iface (w : iface) (d : ioss_device) : ioss_device :=
  Idev w (d_net_dev d) (d_parent d) (d_refs d) (d_offline d) (d_unbinding d)
      (d_refresh d) (d_check d) (d_ws d) (d_nb d) (d_pm_nb d) (d_debugfs d) (netdev_ops d)
      (netdev_ops_real d) (netdev_stats d) (exception_stats d) (wolopts d).
Definition on_drv {A} (m : M (iface * hwst) A) : Rd A := λ s,
  match m (d_iface s.1, s.2) with Some (a, (w, h)) => Some (a, (w_iface w s.1, h)) | None => None end.
(** [ioss_dev_op]. *)
Definition driver_op {A} (op : option (A → M (iface * hwst) (Z * A))) (a : A) : Rd (Z * A) :=
  match op with Some f => on_drv (f a) | None => ret (- ENOENT, a) end.

(** ** The exception path *)
(** [IPA_RECEIVE] or another event; whether the stack drops the packet. *)
Definition ioss_ipa_notify_cb (receive : bool) (len : Z) : X unit :=
  if negb receive then ret tt
  else modify (λ d, w_stats (netdev_stats d)
    (u64 ((exception_stats d).1 + 1), u64 ((exception_stats d).2 + len)) d).

(** ** Collecting *)
(** [dev_get_stats]: the hook of [IossWatch] adds to what is received only. *)
Definition dev_get_stats64 (k : world) (tx : Z * Z) : X link_stats :=
  let* rx := dev_get_stats k in ret (LinkStats rx.1 rx.2 tx.1 tx.2).

(** The loop over the channels; the error path of a channel leaves the sums
    collected so far. *)
Fixpoint add_channels (ids : list nat) (st : ioss_device_stats) : Rd (Z * ioss_device_stats) :=
  match ids with
  | [] => ret (0, st)
  | i :: ids' =>
      let* r := driver_op (option_map (λ f, f i) get_channel_statistics) ch_stats0 in
      if negb (r.1 =? 0) then ret (- EFAULT, st)
      else
        let* c := on_dev (on_if (get_ch i)) in
        let e := overflow_error r.2 + underflow_error r.2 in
        let h := hwp st in
        let h := match direction c with
          | IOSS_CH_DIR_RX => Path (rx_packets h) (tx_packets h) (rx_bytes h) (tx_bytes h)
              (u64 (rx_errors h + e)) (tx_errors h) (rx_drops h) (tx_drops h)
          | IOSS_CH_DIR_TX => Path (rx_packets h) (tx_packets h) (rx_bytes h) (tx_bytes h)
              (rx_errors h) (u64 (tx_errors h + e)) (rx_drops h) (tx_drops h)
          end in
        add_channels ids' (DevStats h (expt st) (emac st) (emac_rx_pause_frames st) (emac_tx_pause_frames st))
  end.

(** [hw = emac + exp - netdev], if the MAC counted anything. *)
Definition path_count (old m x n : Z) : Z := if m =? 0 then old else u64 (m + x - n).

Definition get_idev_statistics (k : world) (tx : Z * Z) : Rd (Z * ioss_device_stats) :=
  let* r := driver_op get_device_statistics stats0 in
  if negb (r.1 =? 0) then ret (- EFAULT, r.2)
  else
    let* s := gets fst in
    let* r := add_channels (seq 0 (length (channels (d_iface s)))) r.2 in
    if negb (r.1 =? 0) then ret (- EFAULT, r.2)
    else
      let st := r.2 in
      let* n := on_dev (dev_get_stats64 k tx) in
      let* s := gets fst in
      let x := expt st in
      let x := Path (u64 (rx_packets x + (exception_stats s).1)) (tx_packets x)
        (u64 (rx_bytes x + (exception_stats s).2)) (tx_bytes x) (rx_errors x) (tx_errors x) (rx_drops x) (tx_drops x) in
      let h := hwp st in
      let m := emac st in
      let h := Path
        (path_count (rx_packets h) (rx_packets m) (rx_packets x) (n_rx_packets n))
        (path_count (tx_packets h) (tx_packets m) (tx_packets x) (n_tx_packets n))
        (path_count (rx_bytes h) (rx_bytes m) (rx_bytes x) (n_rx_bytes n))
        (path_count (tx_bytes h) (tx_bytes m) (tx_bytes x) (n_tx_bytes n))
        (rx_errors h) (tx_errors h) (rx_drops m) (tx_drops h) in
      ret (0, DevStats h x m (emac_rx_pause_frames st) (emac_tx_pause_frames st)).

(** ** Reading *)
Definition path_fields (p : path_stats) : list Z :=
  [rx_packets p; tx_packets p; rx_bytes p; tx_bytes p; rx_errors p; tx_errors p; rx_drops p; tx_drops p].
Definition stats_fields (s : ioss_device_stats) : list Z :=
  path_fields (hwp s) ++ path_fields (expt s) ++ path_fields (emac s) ++ [emac_rx_pause_frames s; emac_tx_pause_frames s].
Definition stats_names : list string :=
  ["hwp_rx_packets"; "hwp_tx_packets"; "hwp_rx_bytes"; "hwp_tx_bytes"; "hwp_rx_errors"; "hwp_tx_errors"; "hwp_rx_drops";
   "hwp_tx_drops"; "exp_rx_packets"; "exp_tx_packets"; "exp_rx_bytes"; "exp_tx_bytes"; "exp_rx_errors"; "exp_tx_errors";
   "exp_rx_drops"; "exp_tx_drops"; "emac_rx_packets"; "emac_tx_packets"; "emac_rx_bytes"; "emac_tx_bytes"; "emac_rx_errors";
   "emac_tx_errors"; "emac_rx_drops"; "emac_tx_drops"; "emac_rx_pause_frames"; "emac_tx_pause_frames"]%string.
Definition ch_stats_fields (s : ioss_channel_stats) : list Z := [overflow_error s; underflow_error s; desc_unavail s].
Definition ch_stats_names : list string := ["overflow_errors"; "underflow_errors"; "desc_unavail"]%string.
Definition status_fields (s : ioss_channel_status) : list Z :=
  [Z.b2z (st_enabled s); st_ring_size s; st_interrupt_modc s; st_interrupt_modt s; st_head_ptr s; st_tail_ptr s].

Definition idev_statistics_text (s : ioss_device_stats) : list Z := print_all (zip_with named stats_names (stats_fields s)).
(** All but the last with a space. *)
Definition idev_stats_text (s : ioss_device_stats) : list Z :=
  print_all (map spaced (take 25 (stats_fields s)) ++ [dec (emac_tx_pause_frames s)] ++ [[10]]).
Definition ch_statistics_text (s : ioss_channel_stats) : list Z := print_all (zip_with named ch_stats_names (ch_stats_fields s)).
Definition ch_stats_text (s : ioss_channel_stats) : list Z := print_all (map spaced (ch_stats_fields s) ++ [[10]]).
Definition ch_status_text (s : ioss_channel_status) : list Z :=
  print_all [named "enabled" (Z.b2z (st_enabled s)); named "size" (st_ring_size s);
    named "interrupt_modc" (st_interrupt_modc s); chars "interrupt_modt: " ++ dec (st_interrupt_modt s) ++ chars " ns" ++ [10];
    named "head_ptr" (st_head_ptr s); named "tail_ptr" (st_tail_ptr s)].
Definition ch_stat_text (s : ioss_channel_status) : list Z :=
  print_all (map spaced (take 5 (status_fields s)) ++ [dec (st_tail_ptr s)] ++ [[10]]).

(** What the six read operations share: collect, allocate, print, copy. *)
Definition read_node {A} (get : Rd (Z * A)) (text : A → list Z) (size pos : Z) : Rd (Z * list Z) :=
  let* r := get in
  if negb (r.1 =? 0) then ret (- EFAULT, [])
  else
    let* rc := on_dev (on_if result) in
    if negb (rc =? 0) then ret (- ENOMEM, [])
    else ret (simple_read_from_buffer size pos (text r.2)).

Definition read_idev_statistics (k : world) (tx : Z * Z) (size pos : Z) : Rd (Z * list Z) :=
  read_node (get_idev_statistics k tx) idev_statistics_text size pos.
Definition read_idev_stats (k : world) (tx : Z * Z) (size pos : Z) : Rd (Z * list Z) :=
  read_node (get_idev_statistics k tx) idev_stats_text size pos.
Definition get_ch_stats (i : nat) : Rd (Z * ioss_channel_stats) :=
  driver_op (option_map (λ f, f i) get_channel_statistics) ch_stats0.
Definition get_ch_status (i : nat) : Rd (Z * ioss_channel_status) :=
  driver_op (option_map (λ f, f i) get_channel_status) status0.
Definition read_ch_statistics (i : nat) (size pos : Z) : Rd (Z * list Z) := read_node (get_ch_stats i) ch_statistics_text size pos.
Definition read_ch_stats (i : nat) (size pos : Z) : Rd (Z * list Z) := read_node (get_ch_stats i) ch_stats_text size pos.
Definition read_ch_status (i : nat) (size pos : Z) : Rd (Z * list Z) := read_node (get_ch_status i) ch_status_text size pos.
Definition read_ch_stat (i : nat) (size pos : Z) : Rd (Z * list Z) := read_node (get_ch_status i) ch_stat_text size pos.
End stats.
