(* ===== verification/IossStatsSpec.v ===== *)
(** * IOSS: statistics, correctness

    The texts of the nodes are whole and can be read back, in pieces too; the
    counters of the hardware path come out right whatever packets took the
    exception path. *)
From stdpp Require Import base tactics list gmap strings numbers.
From Stdlib Require Import ZArith Lia.
From S2P Require Import Prelude IossUtils RtlLib IossData IossLaws R8125Ioss IossWatch IossStats.

(** ** Reading numbers back *)
Definition is_digit (c : Z) : bool := (48 <=? c) && (c <=? 57).
(** The numbers in a text, in order; [cur] is the one being read. *)
Fixpoint numbers (cur : option Z) (l : list Z) : list Z :=
  match l with
  | [] => match cur with Some n => [n] | None => [] end
  | c :: l' =>
      if is_digit c then numbers (Some (10 * default 0 cur + (c - 48))) l'
      else match cur with Some n => n :: numbers None l' | None => numbers None l' end
  end.

Lemma digit_of n : 0 ≤ n < 10 → is_digit (48 + n) = true ∧ 48 + n - 48 = n.
Proof. intros. unfold is_digit. split; [|lia]. destruct (Z.leb_spec 48 (48 + n)), (Z.leb_spec (48 + n) 57); lia || done. Qed.
Lemma numbers_skip s l : forallb (λ c, negb (is_digit c)) s = true → numbers None (s ++ l) = numbers None l.
Proof. induction s as [|c s IH]; simpl; [done|]. destruct (is_digit c); [done|exact IH]. Qed.

Lemma dec_loop_read f n rest : 0 ≤ n < 10 ^ Z.of_nat f → (0 < f)%nat →
  numbers None (dec_loop f n ++ rest) = numbers (Some n) rest.
Proof.
  revert n rest. induction f as [|f IH]; intros n rest Hn Hf; [lia|]. cbn [dec_loop]. rewrite <- app_assoc.
  pose proof (Z.mod_pos_bound n 10 ltac:(lia)) as Hm. pose proof (Z.div_mod n 10 ltac:(lia)) as Hd.
  destruct (digit_of (n mod 10) Hm) as [Hdig Hval]. destruct (Z.ltb_spec n 10) as [Hs|Hs].
  - cbn [app numbers]. rewrite Hdig, Hval. simpl default. rewrite Z.mod_small by lia. done.
  - assert (0 < f)%nat as Hf' by (destruct f; [simpl in Hn; lia|lia]).
    rewrite IH; [|split; [apply Z.div_pos; lia|]|done].
    + cbn [app numbers]. rewrite Hdig, Hval. simpl default. f_equal. f_equal. lia.
    + apply Z.div_lt_upper_bound; [lia|]. rewrite Nat2Z.inj_succ, Z.pow_succ_r in Hn by lia. lia.
Qed.
Definition is_u64 (n : Z) : Prop := 0 ≤ n < 2 ^ 64.
Lemma dec_read n c rest : is_u64 n → is_digit c = false → numbers None (dec n ++ c :: rest) = n :: numbers None rest.
Proof.
  intros Hn Hc. unfold dec. rewrite dec_loop_read; [|unfold is_u64 in Hn; simpl Z.of_nat; lia|lia]. cbn [numbers]. by rewrite Hc.
Qed.
Lemma dec_length n : (length (dec n) ≤ 20)%nat.
Proof.
  unfold dec. generalize 20%nat. intros f. revert n. induction f as [|f IH]; intros n; [done|]. cbn [dec_loop].
  rewrite length_app. specialize (IH (n / 10)). destruct (n <? 10); simpl; lia.
Qed.

(** ** Whole texts *)
Lemma print_all_whole items : Z.of_nat (length (concat items)) < BUF_LEN → print_all items = concat items.
Proof.
  unfold print_all. change (concat items) with ([] ++ concat items). generalize (@nil Z). induction items as [|s items IH];
    intros buf Hl; simpl; [by rewrite app_nil_r|]. simpl in Hl. rewrite !length_app in Hl.
  assert (scnprintf buf s = buf ++ s) as ->.
  { unfold scnprintf. by rewrite take_ge by lia. }
  rewrite IH, app_assoc; [done|]. rewrite !length_app. lia.
Qed.
Lemma named_length names fs :
  (length (concat (zip_with named names fs)) ≤ sum_list_with (λ s, length (chars s) + 23) names)%nat.
Proof.
  revert fs. induction names as [|s names IH]; intros [|v fs]; simpl; try lia.
  specialize (IH fs). unfold named at 1. rewrite !length_app. pose proof (dec_length v). simpl. lia.
Qed.
Lemma spaced_length fs : (length (concat (map spaced fs)) ≤ 21 * length fs)%nat.
Proof.
  induction fs as [|v fs IH]; simpl; [lia|]. unfold spaced at 1. rewrite !length_app. pose proof (dec_length v). simpl. lia.
Qed.

Definition no_digits (s : string) : bool := forallb (λ c, negb (is_digit c)) (chars s).
Lemma named_one s v rest : no_digits s = true → is_u64 v → numbers None (named s v ++ rest) = v :: numbers None rest.
Proof.
  intros Hs Hv. unfold named. rewrite <- !app_assoc. rewrite numbers_skip by done. simpl. by rewrite dec_read.
Qed.
Lemma named_read names fs rest : forallb no_digits names = true → length names = length fs → Forall is_u64 fs →
  numbers None (concat (zip_with named names fs) ++ rest) = fs ++ numbers None rest.
Proof.
  revert fs. induction names as [|s names IH]; intros [|v fs] Hn Hl Hf; try done. simpl in Hn, Hl.
  apply andb_prop in Hn as [Hs Hn]. inversion Hf; subst. simpl. rewrite <- app_assoc, named_one by done. f_equal. apply IH; [done|lia|done].
Qed.
Lemma spaced_read fs rest : Forall is_u64 fs → numbers None (concat (map spaced fs) ++ rest) = fs ++ numbers None rest.
Proof.
  induction 1 as [|v fs Hv Hf IH]; simpl; [done|]. unfold spaced at 1. rewrite <- !app_assoc. simpl. rewrite dec_read by done. by rewrite IH.
Qed.

Lemma named_whole names fs : forallb no_digits names = true → length names = length fs → Forall is_u64 fs →
  Z.of_nat (sum_list_with (λ s, length (chars s) + 23)%nat names) < BUF_LEN →
  print_all (zip_with named names fs) = concat (zip_with named names fs) ∧
  numbers None (print_all (zip_with named names fs)) = fs.
Proof.
  intros Hn Hl Hf Hb. rewrite print_all_whole by (pose proof (named_length names fs); lia). split; [done|].
  pose proof (named_read names fs [] Hn Hl Hf) as E. by rewrite !app_nil_r in E.
Qed.
(** The last field without its space, then a newline. *)
Lemma spaced_whole fs v : Forall is_u64 fs → is_u64 v → (length fs < 100)%nat →
  let items := map spaced fs ++ [dec v] ++ [[10]] in
  print_all items = concat items ∧ numbers None (print_all items) = fs ++ [v].
Proof.
  intros Hf Hv Hl items. assert (print_all items = concat items) as E.
  { apply print_all_whole. unfold items, BUF_LEN. rewrite !concat_app, !length_app. simpl. rewrite !app_nil_r.
    pose proof (spaced_length fs). pose proof (dec_length v). lia. }
  split; [done|]. rewrite E. unfold items. rewrite !concat_app. simpl. rewrite app_nil_r.
  rewrite spaced_read by done. f_equal. by rewrite dec_read.
Qed.

Definition stats_ok (s : ioss_device_stats) : Prop := Forall is_u64 (stats_fields s).
Definition ch_stats_ok (s : ioss_channel_stats) : Prop := Forall is_u64 (ch_stats_fields s).
Definition status_ok (s : ioss_channel_status) : Prop := Forall is_u64 (status_fields s).

Lemma status_read u : status_ok u → numbers None (ch_status_text u) = status_fields u.
Proof.
  destruct u as [b r mc mt hp tp]. intros Hu. change (Forall is_u64 [Z.b2z b; r; mc; mt; hp; tp]) in Hu.
  change (status_fields _) with [Z.b2z b; r; mc; mt; hp; tp].
  inversion Hu as [|? ? Hb Hu1]. inversion Hu1 as [|? ? Hr Hu2]. inversion Hu2 as [|? ? Hmc Hu3].
  inversion Hu3 as [|? ? Hmt Hu4]. inversion Hu4 as [|? ? Hhp Hu5]. inversion Hu5 as [|? ? Htp _].
  unfold ch_status_text. rewrite print_all_whole.
  - cbn [concat st_enabled st_ring_size st_interrupt_modc st_interrupt_modt st_head_ptr st_tail_ptr].
    rewrite app_nil_r, !named_one by done. do 3 f_equal. rewrite <- !app_assoc, numbers_skip by done.
    change (chars " ns") with [32; 110; 115]. cbn [app]. rewrite dec_read by done. f_equal.
    etransitivity; [by apply (numbers_skip [110; 115; 10])|]. rewrite named_one by done. f_equal.
    pose proof (named_one "tail_ptr" tp [] eq_refl Htp) as E. by rewrite app_nil_r in E.
  - assert (∀ s v, length (named s v) ≤ length (chars s) + 23)%nat as Hn.
    { intros s v. unfold named. rewrite !length_app. pose proof (dec_length v). simpl. lia. }
    cbn [concat]. rewrite !length_app. cbn [length].
    pose proof (Hn "enabled"%string (Z.b2z b)). pose proof (Hn "size"%string r). pose proof (Hn "interrupt_modc"%string mc).
    pose proof (Hn "head_ptr"%string hp). pose proof (Hn "tail_ptr"%string tp). pose proof (dec_length mt).
    unfold BUF_LEN. cbn [st_enabled st_ring_size st_interrupt_modc st_interrupt_modt st_head_ptr st_tail_ptr] in *.
    change (length (chars "enabled")) with 7%nat in *. change (length (chars "size")) with 4%nat in *.
    change (length (chars "interrupt_modc")) with 14%nat in *. change (length (chars "head_ptr")) with 8%nat in *.
    change (length (chars "tail_ptr")) with 8%nat in *. change (length (chars "interrupt_modt: ")) with 16%nat.
    change (length (chars " ns")) with 3%nat. lia.
Qed.

(** The text of each node is whole: none of its lines is cut by the buffer
    it is printed into, and the numbers in it are the fields that were
    collected, in order, so both forms of a node say the same. *)
Theorem texts_read_back s c u : stats_ok s → ch_stats_ok c → status_ok u →
  numbers None (idev_statistics_text s) = stats_fields s ∧ numbers None (idev_stats_text s) = stats_fields s ∧
  numbers None (ch_statistics_text c) = ch_stats_fields c ∧ numbers None (ch_stats_text c) = ch_stats_fields c ∧
  numbers None (ch_status_text u) = status_fields u ∧ numbers None (ch_stat_text u) = status_fields u.
Proof.
  intros Hs Hc Hu. split; [|split; [|split; [|split; [|split]]]].
  - by apply named_whole.
  - destruct s as [h x m rp tp]. unfold idev_stats_text.
    replace (stats_fields (DevStats h x m rp tp)) with (take 25 (stats_fields (DevStats h x m rp tp)) ++ [tp]) at 2 by done.
    apply spaced_whole; [by apply Forall_take|exact (Forall_lookup_1 _ _ 25%nat tp Hs eq_refl)|simpl; lia].
  - by apply named_whole.
  - unfold ch_stats_text. rewrite print_all_whole.
    + rewrite concat_app. simpl concat at 2. by rewrite spaced_read by done.
    + rewrite concat_app, length_app. pose proof (spaced_length (ch_stats_fields c)). unfold BUF_LEN. simpl in *. lia.
  - by apply status_read.
  - destruct u as [b r mc mt hp tp]. unfold ch_stat_text.
    replace (status_fields (ChStatus b r mc mt hp tp)) with (take 5 (status_fields (ChStatus b r mc mt hp tp)) ++ [tp]) at 2 by done.
    apply spaced_whole; [by apply Forall_take|exact (Forall_lookup_1 _ _ 5%nat tp Hu eq_refl)|simpl; lia].
Qed.

(** A read of [n] bytes and the one that follows it, of [m], are the read of both. *)
Lemma read_splits buf n m pos : 0 ≤ pos → 0 ≤ n → 0 ≤ m →
  let '(rc, l) := simple_read_from_buffer n pos buf in
  l ++ (simple_read_from_buffer m (pos + rc) buf).2 = (simple_read_from_buffer (n + m) pos buf).2.
Proof.
  intros Hp Hn Hm. unfold simple_read_from_buffer. destruct (Z.ltb_spec pos 0); [lia|]. cbv zeta.
  set (l := take (Z.to_nat n) (drop (Z.to_nat pos) buf)). destruct (Z.ltb_spec (pos + Z.of_nat (length l)) 0); [lia|]. cbn [snd].
  assert (Z.to_nat (pos + Z.of_nat (length l)) = Z.to_nat pos + length l)%nat as -> by lia.
  rewrite Z2Nat.inj_add by done. rewrite <- drop_drop. set (b := drop (Z.to_nat pos) buf) in *.
  destruct (decide (Z.to_nat n ≤ length b)%nat) as [Hl|Hl].
  - assert (length l = Z.to_nat n) as -> by (unfold l; rewrite length_take; lia). unfold l. by rewrite take_take_drop.
  - assert (l = b) as -> by (unfold l; apply take_ge; lia). rewrite drop_ge, take_nil, app_nil_r by lia. symmetry. apply take_ge. lia.
Qed.

(** ** Counters *)
Lemma u64_off z : u64 z = z + - (z / 2 ^ 64) * 2 ^ 64.
Proof. unfold u64. rewrite Z.mod_eq by lia. lia. Qed.
Lemma u64_add_l a b : u64 (u64 a + b) = u64 (a + b).
Proof. unfold u64. apply Zplus_mod_idemp_l. Qed.
Lemma u64_u64 a : u64 (u64 a) = u64 a.
Proof. unfold u64. apply Z.mod_mod. lia. Qed.
(** What the MAC counted, less what software counted with the exceptions,
    with the exceptions added. *)
Lemma path_cancels a b x y : u64 y = u64 (a + x) → u64 (u64 (a + b) + x - y) = u64 b.
Proof.
  intros Hy. rewrite (u64_off (a + b)), (u64_off y) in *. rewrite (u64_off (a + x)) in Hy. unfold u64.
  replace (a + b + - ((a + b) / 2 ^ 64) * 2 ^ 64 + x - y)
    with (b + ((a + x) / 2 ^ 64 - (a + b) / 2 ^ 64 - y / 2 ^ 64) * 2 ^ 64) by lia. by apply Z.mod_add.
Qed.

Section counters.
Context `{IossApi} `{StatsOps}.
Abbreviation Rd := (M (ioss_device * hwst)).

(** The driver fills in what the MAC counts, and the errors of each channel,
    from its states in [P]. *)
Definition reports (P : hwst → Prop) (m : path_stats) (rp tp : Z) : Prop :=
  ∃ f, get_device_statistics = Some f ∧ 
    ∀ w h, P h → ∃ h', P h' ∧ f stats0 (w, h) = Some ((0, DevStats path0 path0 m rp tp), (w, h')).
Definition counts (P : hwst → Prop) (e : nat → Z) : Prop :=
  ∃ f, get_channel_statistics = Some f ∧ ∀ i w h, P h → ∃ h' o u du, P h' ∧
    f i ch_stats0 (w, h) = Some ((0, ChStats o u du), (w, h')) ∧ o + u = e i.
(** The errors of the channels of a direction, numbered from [k]. *)
Fixpoint errors_of (d : ioss_channel_dir) (e : nat → Z) (k : nat) (l : list ioss_channel) : Z :=
  match l with
  | [] => 0
  | c :: l' => (if decide (direction c = d) then e k else 0) + errors_of d e (S k) l'
  end.

Lemma w_iface_id d : w_iface (d_iface d) d = d. Proof. by destruct d. Qed.

Lemma on_idev_wp {A} (m : X A) (Q : A → ioss_device * hwst → Prop) d h :
  wp m (λ a d', Q a (d', h)) d → wp (on_dev m) Q (d, h).
Proof. unfold wp, on_dev. simpl. by destruct (m d) as [[a d']|]. Qed.

Definition with_errors (er et : Z) (st : ioss_device_stats) : ioss_device_stats :=
  DevStats (Path (rx_packets (hwp st)) (tx_packets (hwp st)) (rx_bytes (hwp st)) (tx_bytes (hwp st)) er et
    (rx_drops (hwp st)) (tx_drops (hwp st))) (expt st) (emac st) (emac_rx_pause_frames st) (emac_tx_pause_frames st).

Lemma add_channels_wp P e pre l st d h : counts P e → P h → channels (d_iface d) = pre ++ l →
  rx_errors (hwp st) = u64 (rx_errors (hwp st)) → tx_errors (hwp st) = u64 (tx_errors (hwp st)) →
  wp (add_channels (seq (length pre) (length l)) st)
    (λ r s', (∃ h', s' = (d, h')) ∧
       r = (0, with_errors (u64 (rx_errors (hwp st) + errors_of IOSS_CH_DIR_RX e (length pre) l))
                 (u64 (tx_errors (hwp st) + errors_of IOSS_CH_DIR_TX e (length pre) l)) st)) (d, h).
Proof.
  intros (f & Hf & Hc). revert pre st h. induction l as [|c l IH]; intros pre st h Hh Hch Hrx Htx.
  - apply wp_ret. split; [by exists h|]. simpl. rewrite !Z.add_0_r, <- Hrx, <- Htx. by destruct st as [[] ? ? ? ?].
  - cbn [length seq add_channels]. apply wp_bind. destruct (Hc (length pre) (d_iface d) h Hh) as (h' & o & u & du & Hh' & Hr & Ho).
    eapply wp_intro with (a := (0, ChStats o u du)) (s' := (d, h')).
    { unfold driver_op, on_drv. rewrite Hf. simpl. rewrite Hr. by rewrite w_iface_id. }
    simpl. apply wp_bind, on_idev_wp. unfold wp at 1, on_if. simpl.
    unfold get_ch, bind, gets, id, lift_opt. rewrite Hch, list_lookup_middle by done. simpl. cbn [length].
    replace (Idev _ _ _ _ _ _ _ _ _ _ _ _ _ _ _ _ _) with d by (by destruct d).
    specialize (IH (pre ++ [c])). rewrite <- app_assoc, length_app, Nat.add_1_r in IH. rewrite Ho.
    eapply wp_mono; [apply IH; [done|done|destruct (direction c); simpl; by rewrite ?u64_u64..]|].
    intros r s' [Hs' ->]. split; [done|]. f_equal. unfold with_errors. simpl.
    destruct (direction c); simpl; rewrite ?u64_add_l, ?Z.add_assoc, ?Z.add_0_r; done.
Qed.

(** What came in by the exception path: whether it was a packet, its length. *)
Fixpoint notify_all (evs : list (bool * Z)) : X unit :=
  match evs with [] => ret tt | ev :: evs' => ioss_ipa_notify_cb ev.1 ev.2 ;; notify_all evs' end.
Fixpoint packets (evs : list (bool * Z)) : Z :=
  match evs with [] => 0 | ev :: evs' => (if ev.1 : bool then 1 else 0) + packets evs' end.
Fixpoint bytes (evs : list (bool * Z)) : Z :=
  match evs with [] => 0 | ev :: evs' => (if ev.1 : bool then ev.2 else 0) + bytes evs' end.

Lemma notify_all_wp evs d : exception_stats d = (u64 (exception_stats d).1, u64 (exception_stats d).2) →
  wp (notify_all evs)
    (λ _ d', d' = w_stats (netdev_stats d)
       (u64 ((exception_stats d).1 + packets evs), u64 ((exception_stats d).2 + bytes evs)) d) d.
Proof.
  revert d. induction evs as [|[b n] evs IH]; intros d Hd; cbn [notify_all].
  - apply wp_ret. unfold packets. simpl. rewrite !Z.add_0_r, <- Hd. by destruct d.
  - apply wp_bind. unfold ioss_ipa_notify_cb. destruct b; cbn [negb fst snd]; [apply wp_modify|apply wp_ret].
    + eapply wp_mono; [apply IH; simpl; by rewrite !u64_u64|]. intros [] d' ->. simpl. unfold w_stats. simpl.
      f_equal. rewrite !u64_add_l. unfold packets. simpl. f_equal; f_equal; lia.
    + eapply wp_mono; [by apply IH|]. intros [] d' ->. unfold packets. simpl. done.
Qed.

(** C40: What reading the statistics of a device on the line gives. The
    counters of the MAC are the driver's. The exceptions are the packets and
    bytes that came in by the exception path, whatever other events came with
    them. The hardware path is what the MAC counted less what software
    received: the exceptions, which the statistics hook counts with the
    software, cancel out, and the counters may have wrapped around. Its errors
    are those of the channels of the direction, its drops the MAC's. A driver
    that fails, or without the operations, is an error. *)
Theorem statistics_count P evs d h m rp tp e k tx ipa ipab ipat ipatb :
  reports P m rp tp → counts P e → P h →
  d_parent d = true → netdev_ops d = Some IossOps → netdev_ops_real d = Some RealOps → exception_stats d = (0, 0) →
  rx_packets m = u64 ((k_rx k).1 + ipa) → rx_bytes m = u64 ((k_rx k).2 + ipab) →
  tx_packets m = u64 (tx.1 + ipat) → tx_bytes m = u64 (tx.2 + ipatb) →
  wp (on_dev (notify_all evs) ;; get_idev_statistics k tx)
    (λ r _, r.1 = 0 ∧ emac r.2 = m ∧
       expt r.2 = Path (u64 (packets evs)) 0 (u64 (bytes evs)) 0 0 0 0 0 ∧
       let n c v := if c =? 0 then 0 else u64 v in
       hwp r.2 = Path (n (rx_packets m) ipa) (n (tx_packets m) ipat) (n (rx_bytes m) ipab) (n (tx_bytes m) ipatb)
         (u64 (errors_of IOSS_CH_DIR_RX e 0 (channels (d_iface d))))
         (u64 (errors_of IOSS_CH_DIR_TX e 0 (channels (d_iface d)))) (rx_drops m) 0) (d, h).
Proof.
  intros (f & Hf & Hd) He Hh Hp Ho Hr Hx Hrx Hrb Htx Htb. apply wp_bind, on_idev_wp.
  eapply wp_mono; [apply notify_all_wp; by rewrite Hx|]. intros [] d1 ->. rewrite Hx. simpl fst. simpl snd.
  set (d1 := w_stats _ _ d). unfold get_idev_statistics. apply wp_bind. destruct (Hd (d_iface d1) h Hh) as (h' & Hh' & Hrun).
  eapply wp_intro with (a := (0, DevStats path0 path0 m rp tp)) (s' := (d1, h')).
  { unfold driver_op, on_drv. rewrite Hf. simpl. simpl in Hrun. by rewrite Hrun. }
  cbn [fst snd]. apply wp_bind, wp_gets, wp_bind.
  eapply wp_mono; [apply (add_channels_wp P e [] (channels (d_iface d1))); done|]. intros r s1 [(h2 & ->) ->].
  cbn [fst snd negb Z.eqb]. apply wp_bind, on_idev_wp. unfold dev_get_stats64. apply wp_bind.
  unfold dev_get_stats. apply wp_bind, wp_gets. unfold id. change (netdev_ops d1) with (netdev_ops d). rewrite Ho.
  unfold netdev_get_stats64. apply wp_bind, wp_gets. unfold id. change (d_parent d1) with (d_parent d).
  change (netdev_ops_real d1) with (netdev_ops_real d). rewrite Hp, Hr. cbn [negb].
  apply wp_ret, wp_ret, wp_bind, wp_gets, wp_ret. split; [done|]. split; [done|]. cbn.
  rewrite !Z.add_0_l, !u64_u64. split; [done|]. unfold path_count. rewrite Hrx, Hrb, Htx, Htb. f_equal.
  - destruct (_ =? 0); [done|]. apply path_cancels. by rewrite u64_u64.
  - destruct (_ =? 0); [done|]. apply path_cancels. by rewrite Z.add_0_r.
  - destruct (_ =? 0); [done|]. apply path_cancels. by rewrite u64_u64.
  - destruct (_ =? 0); [done|]. apply path_cancels. by rewrite Z.add_0_r.
Qed.
End counters.
