(* ===== verification/R8125Stats.v ===== *)
(** * The r8125 driver: counters and saved registers

    The tally counters the chip writes to memory ([r8125_n.c]), reading them
    and saving the registers ([r8125_lib.c]), and the glue driver's operations
    on top ([r8125_ioss.c]). *)
From stdpp Require Import base tactics list numbers.
From Stdlib Require Import ZArith Lia.
From S2P Require Import Prelude IossUtils RtlLib IossData R8125Access R8125Ioss IossWatch IossStats.

(** [struct rtl8125_counters]. *)
Record rtl8125_counters := Counters {
  c_tx_packets : Z; c_rx_packets : Z; c_tx_errors : Z; c_rx_errors : Z; c_rx_missed : Z; c_align_errors : Z;
  c_tx_one_collision : Z; c_tx_multi_collision : Z; c_rx_unicast : Z; c_rx_broadcast : Z; c_rx_multicast : Z;
  c_tx_aborted : Z; c_tx_underrun : Z;
  c_tx_octets : Z; c_rx_octets : Z; c_rx_multicast64 : Z; c_tx_unicast64 : Z; c_tx_broadcast64 : Z; c_tx_multicast64 : Z;
  c_tx_pause_on : Z; c_tx_pause_off : Z; c_tx_pause_all : Z; c_tx_deferred : Z; c_tx_late_collision : Z;
  c_tx_all_collision : Z; c_tx_aborted32 : Z; c_align_errors32 : Z; c_rx_frame_too_long : Z; c_rx_runt : Z;
  c_rx_pause_on : Z; c_rx_pause_off : Z; c_rx_pause_all : Z; c_rx_unknown_opcode : Z; c_rx_mac_error : Z;
  c_tx_underrun32 : Z; c_rx_mac_missed : Z; c_rx_tcam_dropped : Z; c_tdu : Z; c_rdu : Z }.

(** [struct rtl8125_regs_save]; [int_config] is never written. *)
Record rtl8125_regs_save := RegsSave {
  mac_io : list Z; pcie_phy : list Z; eth_phy : list Z; eri_regs : list Z; pci_regs : list Z;
  sw_tail_ptr_reg : list Z; hw_clo_ptr_reg : list Z;
  sw0_tail_ptr : Z; next_hwq0_clo_ptr : Z; sw1_tail_ptr : Z; next_hwq1_clo_ptr : Z;
  int_miti_rxq0 : Z; int_miti_txq0 : Z; int_miti_rxq1 : Z; int_miti_txq1 : Z;
  imr_new : Z; isr_new : Z; tdu_status : Z; rdu_status : Z; tc_mode : Z;
  pla_tx_q0_idle_credit : Z; pla_tx_q1_idle_credit : Z;
  txq1_dsc_st_addr_0 : Z; txq1_dsc_st_addr_2 : Z; rxq1_dsc_st_addr_0 : Z; rxq1_dsc_st_addr_2 : Z;
  rss_ctrl : Z; rss_key : list Z; rss_i_table : list Z; rss_queue_num_sel_r : Z }.

(** Narrow accesses, a word of configuration space, and what the device has
    written to the counter block at a bus address. *)
Class MmioMore `{Mmio} := {
  readb : Z → chip → Z * chip; readw : Z → chip → Z * chip; pci_read32 : Z → chip → Z * chip;
  tally_at : Z → chip → rtl8125_counters }.

Definition CounterAddrLow : Z := 0x10.
Definition CounterAddrHigh : Z := 0x14.
Definition CounterDump : Z := 0x8.
Definition R8125_MAC_REGS_SIZE : Z := 256.
Definition R8125_PHY_REGS_SIZE : Z := 16 * 2.
Definition R8125_EPHY_REGS_SIZE : Z := 31 * 2.
Definition R8125_ERI_REGS_SIZE : Z := 0x100.
Definition R8125_PCI_REGS_SIZE : Z := 0x100.
Definition R8125_MAX_TX_QUEUES : Z := 2.
Definition ERIAR_ExGMAC : Z := 0.
Definition IMR0_8125 : Z := 0x38.
Definition ISR0_8125 : Z := 0x3C.
Definition INT_MITI_V2_1_RX : Z := 0x0A08.
Definition INT_MITI_V2_1_TX : Z := 0x0A0A.
Definition TDU_STA_8125 : Z := 0x0D08.
Definition RDU_STA_8125 : Z := 0x0D0A.
Definition TX_NEW_CTRL : Z := 0x203E.
Definition PLA_TXQ0_IDLE_CREDIT : Z := 0x2500.
Definition PLA_TXQ1_IDLE_CREDIT : Z := 0x2504.
Definition RSS_CTRL_8125 : Z := 0x4500.
Definition Q_NUM_CTRL_8125 : Z := 0x4800.
Definition RSS_KEY_8125 : Z := 0x4600.
Definition RTL8125_RSS_KEY_SIZE : Z := 40.
Definition RTL8125_MAX_INDIRECTION_TABLE_ENTRIES : Z := 128.

Section stats.
Context `{MmioMore}.
Abbreviation T := (M tp).

Definition on_chip (f : chip → Z * chip) : T Z := λ t, Some ((f (mmio t)).1, t_mmio (f (mmio t)).2 t).
Definition R8 (reg : Z) : T Z := on_chip (readb reg).
Definition R16 (reg : Z) : T Z := on_chip (readw reg).
Definition pci_read_config_dword (where_ : Z) : T Z := on_chip (pci_read32 where_).

(** ** The tally counters *)
(** [while (... & CounterDump)]: the polls made, [WaitCnt] of them before; it
    stops when there are more than 20. *)
Fixpoint dump_loop (fuel : nat) (WaitCnt : Z) : T Z :=
  let* v := RTL_R32 CounterAddrLow in
  if Z.land v CounterDump =? 0 then ret WaitCnt
  else if 20 <? WaitCnt + 1 then ret (WaitCnt + 1)
  else match fuel with O => ub | S fuel' => dump_loop fuel' (WaitCnt + 1) end.
Definition rtl8125_dump_tally_counter (paddr : Z) : T Z :=
  RTL_W32 CounterAddrHigh (Z.shiftr (u64 paddr) 32) ;;
  let cmd := u32 paddr in
  RTL_W32 CounterAddrLow cmd ;;
  RTL_W32 CounterAddrLow (Z.lor cmd CounterDump) ;;
  let* WaitCnt := dump_loop 20 0 in
  ret (if WaitCnt <=? 20 then 0 else -1).

(** [tally] is the block's bus address, if it was allocated; the result, and
    [*stats] as it leaves it. *)
Definition rtl8125_lib_get_stats (tally : option Z) (stats : rtl8125_counters) : T (Z * rtl8125_counters) :=
  match tally with
  | None => ret (-1, stats)
  | Some paddr =>
      let* rc := rtl8125_dump_tally_counter paddr in
      if rc <? 0 then ret (rc, stats)
      else let* t := gets id in ret (rc, tally_at paddr (mmio t))
  end.

(** ** Saving the registers *)
(** [for (i = 0; i < n; i++) a[i] = f(i);] *)
Fixpoint read_list {A} (n : nat) (i : Z) (f : Z → T A) : T (list A) :=
  match n with
  | O => ret []
  | S n' => let* v := f i in let* l := read_list n' (i + 1) f in ret (v :: l)
  end.
Definition read_array {A} (n : Z) (f : Z → T A) : T (list A) := read_list (Z.to_nat n) 0 f.

Definition rtl8125_lib_save_regs : T (Z * rtl8125_regs_save) :=
  let* mac := read_array R8125_MAC_REGS_SIZE R8 in
  let* ephy := read_array (R8125_EPHY_REGS_SIZE / 2) rtl8125_ephy_read in
  rtl8125_mdio_write 0x1f 0 ;;
  let* phy := read_array (R8125_PHY_REGS_SIZE / 2) (λ i, let* v := rtl8125_mdio_read i in ret (u16 v)) in
  let* eri := read_array (R8125_ERI_REGS_SIZE / 4) (λ i, rtl8125_eri_read i 4 ERIAR_ExGMAC) in
  let* pci := read_array (R8125_PCI_REGS_SIZE / 4) pci_read_config_dword in
  let* ptrs := read_array R8125_MAX_TX_QUEUES (λ i,
    let* a := R16 (SW_TAIL_PTR0_8125 + i * 4) in let* b := R16 (HW_CLO_PTR0_8125 + i * 4) in ret (a, b)) in
  let* sw0 := R16 SW_TAIL_PTR0_8125 in let* hw0 := R16 HW_CLO_PTR0_8125 in
  let* sw1 := R16 (SW_TAIL_PTR0_8125 + 4) in let* hw1 := R16 (HW_CLO_PTR0_8125 + 4) in
  let* rx0 := R8 INT_MITI_V2_0_RX in let* tx0 := R8 INT_MITI_V2_0_TX in
  let* rx1 := R8 INT_MITI_V2_1_RX in let* tx1 := R8 INT_MITI_V2_1_TX in
  let* imr := RTL_R32 IMR0_8125 in let* isr := RTL_R32 ISR0_8125 in
  let* tdu := R8 TDU_STA_8125 in let* rdu := R16 RDU_STA_8125 in
  let* tc := R16 TX_NEW_CTRL in
  let* q0 := RTL_R32 PLA_TXQ0_IDLE_CREDIT in let* q1 := RTL_R32 PLA_TXQ1_IDLE_CREDIT in
  let* t0 := RTL_R32 TNPDS_Q1_LOW_8125 in let* t2 := RTL_R32 (TNPDS_Q1_LOW_8125 + 4) in
  let* r0 := RTL_R32 RDSAR_Q1_LOW_8125 in let* r2 := RTL_R32 (RDSAR_Q1_LOW_8125 + 4) in
  let* ctrl := RTL_R32 RSS_CTRL_8125 in
  let* key := read_array RTL8125_RSS_KEY_SIZE (λ i, R8 (RSS_KEY_8125 + i)) in
  let* tbl := read_array RTL8125_MAX_INDIRECTION_TABLE_ENTRIES (λ i, R8 (RSS_INDIRECTION_TBL_8125_V2 + i)) in
  let* qnum := R16 Q_NUM_CTRL_8125 in
  ret (0, RegsSave mac ephy phy eri pci ptrs.*1 ptrs.*2 sw0 hw0 sw1 hw1 rx0 tx0 rx1 tx1
    imr isr tdu rdu tc q0 q1 t0 t2 r0 r2 ctrl key tbl qnum).
End stats.

(** ** The glue driver *)
(** [struct r8125_ioss_device], and the private data of the network device. *)
Record rdev `{Mmio} := Rdev { rd_tp : tp; rd_tally : option Z; rd_stats : rtl8125_counters; rd_regs : option rtl8125_regs_save }.
Arguments Rdev {_}.
Arguments rd_tp {_}.
Arguments rd_tally {_}.
Arguments rd_stats {_}.
Arguments rd_regs {_}.

Section glue.
Context `{MmioMore}.
Abbreviation G := (M (iface * rdev)).

Definition rd_set (t : tp) (r : rdev) : rdev := Rdev t (rd_tally r) (rd_stats r) (rd_regs r).
Definition rd_put (c : rtl8125_counters) (r : rdev) : rdev := Rdev (rd_tp r) (rd_tally r) c (rd_regs r).
Definition rd_save (s : rtl8125_regs_save) (r : rdev) : rdev := Rdev (rd_tp r) (rd_tally r) (rd_stats r) (Some s).
Definition on_rtl {A} (m : M tp A) : G A := λ s,
  match m (rd_tp s.2) with Some (a, t) => Some (a, (s.1, rd_set t s.2)) | None => None end.
Definition on_rdev (f : rdev → rdev) : G unit := modify (λ s, (s.1, f s.2)).
Definition on_iface {A} (m : W A) : G A := λ s,
  match m s.1 with Some (a, w) => Some (a, (w, s.2)) | None => None end.

Definition get_stats : G Z :=
  let* s := gets snd in
  let* r := on_rtl (rtl8125_lib_get_stats (rd_tally s) (rd_stats s)) in
  on_rdev (rd_put r.2) ;; ret r.1.

Definition r8125_save_regs : G Z :=
  let* _ := get_stats in
  let* r := on_rtl rtl8125_lib_save_regs in
  on_rdev (rd_save r.2) ;; ret r.1.

Definition r8125_ioss_device_statistics (st : ioss_device_stats) : G (Z * ioss_device_stats) :=
  let* rc := get_stats in
  if negb (rc =? 0) then ret (rc, st)
  else
    let* s := gets snd in
    let c := rd_stats s in
    ret (rc, DevStats (hwp st) (expt st)
      (Path (c_rx_packets c) (c_tx_packets c) (c_rx_octets c) (c_tx_octets c) (c_rx_errors c) (c_tx_errors c)
         (c_rx_missed c) (c_tx_underrun32 c))
      (c_rx_pause_all c) (c_tx_pause_all c)).
Definition r8125_ioss_channel_statistics (i : nat) (st : ioss_channel_stats) : G (Z * ioss_channel_stats) := ret (0, st).
End glue.

Definition r8125_stats_ops `{NicApi} `{IossApi} `{MmioMore} : StatsOps := {|
  hwst := rdev;
  get_device_statistics := Some r8125_ioss_device_statistics;
  get_channel_statistics := Some r8125_ioss_channel_statistics;
  get_channel_status := Some (λ i st, on_iface (r8125_ioss_channel_status i st)) |}.
