(* ===== verification/R8125StatsSpec.v ===== *)
(** * The r8125 driver: counters and saved registers, correctness *)
From stdpp Require Import base tactics list numbers.
From Stdlib Require Import ZArith Lia.
From S2P Require Import Prelude IossUtils RtlLib IossData R8125Access R8125AccessSpec R8125AccessThms R8125Ioss IossWatch IossStats IossStatsSpec R8125Stats.

#[local] Existing Instance r8125_stats_ops.

Section tally.
Context `{NicApi} `{IossApi} `{MmioMore}.

(** Whether the dump is over within [n] polls, and the chip after them. *)
Fixpoint clears (n : nat) (c : chip) : bool * chip :=
  match n with
  | O => (false, c)
  | S n' => let r := readl CounterAddrLow c in if Z.land r.1 CounterDump =? 0 then (true, r.2) else clears n' r.2
  end.
(** The chip after a dump to [paddr] was requested. *)
Definition dump_to (paddr : Z) (c : chip) : chip :=
  writel CounterAddrLow (Z.lor (u32 paddr) CounterDump)
    (writel CounterAddrLow (u32 paddr) (writel CounterAddrHigh (Z.shiftr (u64 paddr) 32) c)).
Definition dumped (paddr : Z) (c : chip) : bool * chip := clears 21 (dump_to paddr c).

Lemma dump_loop_spec fuel w t : 0 ≤ w → w + Z.of_nat fuel = 20 →
  ∃ w', dump_loop fuel w t = Some (w', t_mmio (clears (S fuel) (mmio t)).2 t) ∧
    (w' <=? 20) = (clears (S fuel) (mmio t)).1.
Proof.
  revert w t. induction fuel as [|fuel IH]; intros w t Hw Hf; cbn [dump_loop]; unfold RTL_R32, bind at 1; cbn [clears].
  - destruct (_ =? 0); cbn [fst snd].
    + exists w. split; [done|]. by apply Z.leb_le; lia.
    + destruct (Z.ltb_spec 20 (w + 1)); [|lia]. exists (w + 1). split; [done|]. apply Z.leb_gt. lia.
  - destruct (_ =? 0); cbn [fst snd].
    + exists w. split; [done|]. by apply Z.leb_le; lia.
    + destruct (Z.ltb_spec 20 (w + 1)); [lia|].
      destruct (IH (w + 1) (t_mmio (readl CounterAddrLow (mmio t)).2 t)) as (w' & -> & Hw'); [lia..|].
      exists w'. done.
Qed.
Lemma dump_spec paddr t :
  rtl8125_dump_tally_counter paddr t = Some (if (dumped paddr (mmio t)).1 then 0 else -1, t_mmio (dumped paddr (mmio t)).2 t).
Proof.
  destruct (dump_loop_spec 20 0 (t_mmio (dump_to paddr (mmio t)) t)) as (w' & Hr & Hw); [lia..|].
  transitivity (match dump_loop 20 0 (t_mmio (dump_to paddr (mmio t)) t) with
    | Some (w, t') => Some (if w <=? 20 then 0 else -1, t') | None => None end); [done|].
  by rewrite Hr, Hw.
Qed.

(** What the glue driver makes of the counters. *)
Definition emac_of (c : rtl8125_counters) : path_stats :=
  Path (c_rx_packets c) (c_tx_packets c) (c_rx_octets c) (c_tx_octets c) (c_rx_errors c) (c_tx_errors c)
    (c_rx_missed c) (c_tx_underrun32 c).

Lemma get_stats_spec w r :
  get_stats (w, r) =
    match rd_tally r with
    | None => Some (-1, (w, r))
    | Some p =>
        let '(ok, c) := dumped p (mmio (rd_tp r)) in
        Some (if ok then 0 else -1,
          (w, Rdev (t_mmio c (rd_tp r)) (rd_tally r) (if ok then tally_at p c else rd_stats r) (rd_regs r)))
    end.
Proof.
  destruct r as [t [p|] st rg]; [|by destruct t].
  unfold get_stats, bind, gets, on_rtl, rtl8125_lib_get_stats. cbn [snd rd_tally rd_tp rd_stats].
  unfold bind. rewrite dump_spec. by destruct (dumped p (mmio t)) as [[] c].
Qed.

(** The counters of the device are those the chip wrote to the block of
    counters, if it did so within twenty-one polls; else, or without a block,
    the operation fails, at the end of the polls at the latest, and neither
    its result nor the counters kept from the last time change. *)
Theorem device_statistics_spec st w r :
  r8125_ioss_device_statistics st (w, r) =
    match rd_tally r with
    | None => Some ((-1, st), (w, r))
    | Some p =>
        let '(ok, c) := dumped p (mmio (rd_tp r)) in
        let r' k := Rdev (t_mmio c (rd_tp r)) (rd_tally r) k (rd_regs r) in
        if ok
        then let k := tally_at p c in
          Some ((0, DevStats (hwp st) (expt st) (emac_of k) (c_rx_pause_all k) (c_tx_pause_all k)), (w, r' k))
        else Some ((-1, st), (w, r' (rd_stats r)))
    end.
Proof.
  unfold r8125_ioss_device_statistics, bind at 1. rewrite get_stats_spec. destruct r as [t [p|] s rg]; [|done].
  cbn [rd_tally rd_tp]. by destruct (dumped p (mmio t)) as [[] c].
Qed.

(** A chip that counts, and writes what it counts in time. *)
Class TallyLaws := {
  counting : rtl8125_counters → chip → Prop;
  dump_law k c paddr : counting k c → let '(ok, c') := dumped paddr c in ok = true ∧ counting k c' ∧ tally_at paddr c' = k }.
End tally.

Section laws.
Context `{NicApi} `{IossApi} `{MmioMore} `{!TallyLaws}.

Definition ready (k : rtl8125_counters) (r : rdev) : Prop := is_Some (rd_tally r) ∧ counting k (mmio (rd_tp r)).
Lemma device_ok k w (r : rdev) : ready k r → ∃ r', ready k r' ∧
  r8125_ioss_device_statistics stats0 (w, r) =
    Some ((0, DevStats path0 path0 (emac_of k) (c_rx_pause_all k) (c_tx_pause_all k)), (w, r')).
Proof.
  intros [[p Hp] Hc]. pose proof (dump_law k _ p Hc) as Hd. pose proof (get_stats_spec w r) as Hg. rewrite Hp in Hg.
  destruct (dumped p (mmio (rd_tp r))) as [ok c] eqn:E. destruct Hd as (-> & Hc' & Ht).
  exists (Rdev (t_mmio c (rd_tp r)) (Some p) (tally_at p c) (rd_regs r)). split; [split; [by eexists|exact Hc']|].
  unfold r8125_ioss_device_statistics, bind at 1. rewrite Hg. simpl. by rewrite Ht.
Qed.
(** The glue driver is a driver as [IossStatsSpec] takes it: it reports the
    MAC's counters, and no errors of channels. *)
Lemma r8125_reports k : reports (ready k) (emac_of k) (c_rx_pause_all k) (c_tx_pause_all k).
Proof. eexists. split; [done|]. intros w r Hr. by apply device_ok. Qed.
Lemma r8125_counts k : counts (ready k) (λ _, 0).
Proof. eexists. split; [done|]. intros i w r Hr. by exists r, 0, 0, 0. Qed.
End laws.

(** ** The saved registers *)
(** The registers that are only read, byte by byte, word by word or whole. *)
Section saved.
Context `{ChipLaws} `{!MmioMore}.

Definition plain_reg (reg : Z) : Prop :=
  reg ∈ [IMR0_8125; ISR0_8125; PLA_TXQ0_IDLE_CREDIT; PLA_TXQ1_IDLE_CREDIT; TNPDS_Q1_LOW_8125; TNPDS_Q1_LOW_8125 + 4;
         RDSAR_Q1_LOW_8125; RDSAR_Q1_LOW_8125 + 4; RSS_CTRL_8125].
Class ReadLaws := {
  readb_law m reg c : chip_rep m c → chip_rep m (readb reg c).2;
  readw_law m reg c : chip_rep m c → chip_rep m (readw reg c).2;
  pci_law m a c : chip_rep m c → chip_rep m (pci_read32 a c).2;
  plain_law m reg c : plain_reg reg → chip_rep m c → chip_rep m (readl reg c).2 }.
End saved.

Section save.
Context `{ChipLaws} `{!MmioMore} `{!ReadLaws}.
Abbreviation T := (M tp).

(** A loop whose rounds keep [I] and read values that satisfy [P]. *)
Lemma read_list_wp {A} (I : tp → Prop) (P : Z → A → Prop) n k (f : Z → T A) t :
  (∀ i t, k ≤ i < k + Z.of_nat n → I t → wp (f i) (λ v t', P i v ∧ I t') t) → I t →
  wp (read_list n k f) (λ l t', I t' ∧ length l = n ∧ ∀ j v, l !! j = Some v → P (k + Z.of_nat j) v) t.
Proof.
  revert k t. induction n as [|n IH]; intros k t Hf Ht; cbn [read_list]; [by apply wp_ret|].
  apply wp_bind. eapply wp_mono; [apply Hf; [lia|done]|]. intros v t1 [Hv Ht1]. apply wp_bind.
  eapply wp_mono; [apply (IH (k + 1)); [|done]|].
  - intros i t2 Hi. apply Hf. lia.
  - intros l t2 (Ht2 & Hl & Hp). apply wp_ret. split; [done|]. split; [simpl; by rewrite Hl|].
    intros [|j] w; simpl; [intros [= ->]; by rewrite Z.add_0_r|]. intros Hj.
    replace (k + Z.of_nat (S j)) with (k + 1 + Z.of_nat j) by lia. by apply Hp.
Qed.
Lemma read_array_wp {A} (I : tp → Prop) (P : Z → A → Prop) n (f : Z → T A) t : 0 ≤ n →
  (∀ i t, 0 ≤ i < n → I t → wp (f i) (λ v t', P i v ∧ I t') t) → I t →
  wp (read_array n f) (λ l t', I t' ∧ Z.of_nat (length l) = n ∧ ∀ j v, l !! j = Some v → P (Z.of_nat j) v) t.
Proof.
  intros Hn Hf Ht. eapply wp_mono; [apply (read_list_wp I P (Z.to_nat n) 0); [intros; apply Hf; [lia|done]|done]|].
  intros l t1 (Hi & Hl & Hp). split; [done|]. split; [lia|]. exact Hp.
Qed.

Lemma array_is (l : list Z) n (g : Z → Z) : Z.of_nat (length l) = n → (∀ j v, l !! j = Some v → v = g (Z.of_nat j)) → l = map g (seqZ 0 n).
Proof.
  intros Hl Hg. apply (list_eq_same_length _ _ (length l)); [rewrite length_map, length_seqZ; lia|done|].
  intros i x y Hi Hx Hy. rewrite list_lookup_fmap in Hy.
  apply fmap_Some in Hy as (z & Hz & ->). apply lookup_seqZ in Hz as [-> _]. rewrite Z.add_0_l. by apply Hg.
Qed.

(** The state while registers are saved: on page [p], the windows as in [m]. *)
Definition saving (m : regs) (p : Z) (t : tp) : Prop := tp_rep m t ∧ rtk_enable_diag t = false ∧ cur_page t = p.
Lemma saving_chip m p c t : saving m p t → chip_rep m c → saving m p (t_mmio c t).
Proof. intros (_ & ? & ?) ?. by split. Qed.
#[local] Hint Resolve saving_chip : core.

(** A read that keeps the windows, before the rest. *)
Definition harmless {A} (f : T A) (m : regs) (p : Z) : Prop := ∀ t, saving m p t → wp f (λ _ t', saving m p t') t.
Lemma harmless_then {A B} (f : T A) m p (k : A → T B) Q t : harmless f m p → saving m p t →
  (∀ v t', saving m p t' → wp (k v) Q t') → wp (bind f k) Q t.
Proof. intros Hf Ht Hk. apply wp_bind. eapply wp_mono; [by apply Hf|]. auto. Qed.
Lemma harmless_R8 reg m p : harmless (R8 reg) m p.
Proof. intros t Ht. unfold wp, R8, on_chip. apply saving_chip; [done|]. apply readb_law, Ht. Qed.
Lemma harmless_R16 reg m p : harmless (R16 reg) m p.
Proof. intros t Ht. unfold wp, R16, on_chip. apply saving_chip; [done|]. apply readw_law, Ht. Qed.
Lemma harmless_pci a m p : harmless (pci_read_config_dword a) m p.
Proof. intros t Ht. unfold wp, pci_read_config_dword, on_chip. apply saving_chip; [done|]. apply pci_law, Ht. Qed.
Lemma harmless_R32 reg m p : plain_reg reg → harmless (RTL_R32 reg) m p.
Proof. intros Hr t Ht. unfold wp, RTL_R32. apply saving_chip; [done|]. apply plain_law; [done|apply Ht]. Qed.
Lemma harmless_array {A} n (f : Z → T A) m p : 0 ≤ n → (∀ i, harmless (f i) m p) → harmless (read_array n f) m p.
Proof.
  intros Hn Hf t Ht. eapply wp_mono; [apply (read_array_wp (saving m p) (λ _ _, True)); [done| |done]|by intros l t' [? _]].
  intros i t' _ Ht'. eapply wp_mono; [by apply Hf|]. done.
Qed.
Lemma harmless_pair {A B} (f : T A) (g : A → T B) m p : harmless f m p → (∀ a, harmless (g a) m p) → harmless (bind f g) m p.
Proof. intros Hf Hg t Ht. apply wp_bind. eapply wp_mono; [by apply Hf|]. intros a t' Ht'. by apply Hg. Qed.
Lemma harmless_ret {A} (a : A) m p : harmless (ret a) m p.
Proof. by intros t Ht. Qed.
Create HintDb harmless.
#[local] Hint Resolve harmless_R8 harmless_R16 harmless_pci harmless_ret : harmless.
#[local] Hint Extern 2 (harmless (RTL_R32 _) _ _) => apply harmless_R32; unfold plain_reg; apply (bool_decide_unpack _); vm_compute; exact I : harmless.
#[local] Hint Extern 2 (harmless (read_array _ _) _ _) => apply harmless_array; [done|intros] : harmless.
#[local] Hint Extern 3 (harmless (bind _ _) _ _) => apply harmless_pair; [|intros] : harmless.

(** What saving the registers puts in the arrays of the PCIe PHY, of the
    PHY and of the ERI registers, on a chip whose windows are registers: each
    of the first in order; the PHY's first sixteen as page 0 shows them,
    leaving page 0 selected; but for the ERI registers the four bytes from
    each of the addresses 0 to 63, not the sixty-four words. No register of
    a window changes. *)
Theorem saved_registers m t : tp_rep m t → rtk_enable_diag t = false → (∀ a, 0 ≤ phy_reg m a < 2 ^ 16) →
  wp rtl8125_lib_save_regs
    (λ r t', r.1 = 0 ∧ pcie_phy r.2 = map (ephy_reg m) (seqZ 0 31) ∧
       eth_phy r.2 = map (λ i, phy_reg m (phy_word 0 i)) (seqZ 0 16) ∧
       length (eri_regs r.2) = 64%nat ∧ (∀ i v, eri_regs r.2 !! i = Some v → eri_reads m 0 (Z.of_nat i) 4 v) ∧
       cur_page t' = 0 ∧ tp_rep m t') t.
Proof.
  intros Hm Hd Hphy. assert (saving m (cur_page t) t) as Ht by done. revert Ht. generalize (cur_page t) as p. intros p Ht.
  unfold rtl8125_lib_save_regs. eapply harmless_then; [eauto with harmless|exact Ht|]. intros mac t1 Ht1.
  apply wp_bind. eapply wp_mono; [apply (read_array_wp (saving m p) (λ i v, v = ephy_reg m i)); [done| |exact Ht1]|].
  { intros i t' Hi Ht'. eapply wp_mono; [apply (ephy_read_wp m); [apply Ht'|change (R8125_EPHY_REGS_SIZE / 2) with 31 in Hi; lia]|].
    intros v t2 (-> & c & -> & Hc). split; [done|]. by apply saving_chip. }
  intros ephy t2 (Ht2 & Hle & He). apply wp_bind, page_wp; [apply Ht2|].
  assert (saving m 0 (t_page 0 t2)) as Ht3 by (destruct Ht2 as (? & ? & _); done). clear Ht2.
  apply wp_bind. eapply wp_mono; [apply (read_array_wp (saving m 0) (λ i v, v = phy_reg m (phy_word 0 i))); [done| |exact Ht3]|].
  { intros i t' Hi (Hm' & Hd' & Hp'). change (R8125_PHY_REGS_SIZE / 2) with 16 in Hi. apply wp_bind.
    eapply wp_mono; [apply (mdio_read_wp m 0); [done..|unfold in_window; simpl; lia]|]. intros v t4 (-> & c & -> & Hc).
    apply wp_ret. split; [by apply Z.mod_small|]. by split. }
  intros phy t4 (Ht4 & Hlp & Hph). apply wp_bind.
  eapply wp_mono; [apply (read_array_wp (saving m 0) (λ i v, eri_reads m 0 i 4 v)); [done| |exact Ht4]|].
  { intros i t' Hi Ht'. change (R8125_ERI_REGS_SIZE / 4) with 64 in Hi.
    eapply wp_mono; [apply (eri_read_wp m ERIAR_ExGMAC i 4); [apply Ht'|unfold ERIAR_ExGMAC; lia..]|].
    intros v t5 (Hv & c & -> & Hc). split; [done|]. by apply saving_chip. }
  intros eri t5 (Ht5 & Hler & Her).
  do 25 (eapply harmless_then; [eauto 10 with harmless|eassumption|intros ? ? ?]).
  apply wp_ret. split; [done|]. cbn [snd pcie_phy eth_phy eri_regs].
  split; [by apply array_is|]. split; [by apply array_is|]. split; [change (R8125_ERI_REGS_SIZE / 4) with 64 in Hler; lia|].
  split; [exact Her|]. match goal with Hs : saving m 0 ?x |- context [tp_rep m ?x] => destruct Hs as (? & ? & ?) end. done.
Qed.
End save.
