(* ===== verification/R8125Tx.v ===== *)
(** * The r8125 driver: the transmit ring

    The transmit path of [r8125_n.c]: a ring of descriptors shared with the
    chip, filled by [start_xmit] and emptied by [tx_interrupt]. The kernel's
    answers (DMA mappings, memory for padding) are indexed by a count of the
    calls made; the rest of the state is one queue. Packet contents are not
    modelled: writing a checksum into a packet has no effect here. *)
From stdpp Require Import base tactics list numbers.
From Stdlib Require Import ZArith Lia.
From S2P Require Import Prelude IossUtils RtlLib.

(** ** Data *)
Definition FirstFrag : Z := Z.shiftl 1 29.
Definition LastFrag : Z := Z.shiftl 1 28.
Definition GiantSendv4 : Z := Z.shiftl 1 26.
Definition GiantSendv6 : Z := Z.shiftl 1 25.
Definition TxUDPCS_C : Z := Z.shiftl 1 31.
Definition TxTCPCS_C : Z := Z.shiftl 1 30.
Definition TxIPCS_C : Z := Z.shiftl 1 29.
Definition TxIPV6F_C : Z := Z.shiftl 1 28.
Definition TxVlanTag : Z := Z.shiftl 1 17.
Definition GTTCPHO_SHIFT : Z := 18.
Definition GTTCPHO_MAX : Z := 0x70.
Definition TCPHO_SHIFT : Z := 18.
Definition TCPHO_MAX : Z := 0x3ff.
Definition MSS_MAX : Z := 0x07ff.
Definition RTK_MAGIC_DEBUG_VALUE : Z := 0x0badbeef.
Definition RTL8125_MAGIC_NUMBER : Z := 0x0badbadbadbadbad.
Definition MAX_TX_NO_CLOSE_DESC_PTR_V2 : Z := 0x10000.
Definition MIN_PATCH_LEN : Z := 47.
Definition MIN_NUM_TX_DESC : Z := 256.
Definition MAX_NUM_TX_DESC : Z := 1024.
Definition TPPOLL_8125 : Z := 0x90.
(** Constants of the kernel. *)
Definition MAX_SKB_FRAGS : Z := 17.
Definition ETH_ZLEN : Z := 60.
Definition ETH_FRAME_LEN : Z := 1514.
Definition ETH_P_IP : Z := 0x0800.
Definition ETH_P_IPV6 : Z := 0x86DD.
Definition IPPROTO_TCP : Z := 6.
Definition IPPROTO_UDP : Z := 17.
Definition IPPROTO_RAW : Z := 255.

(** A packet: what the driver reads of [struct sk_buff]. [sk_frags] are the
    addresses and sizes of its page fragments; [sk_hdr] says whether
    [skb_header_pointer] finds the network header; [sk_proto4] is the
    transport protocol in it. *)
Record sk_buff := Skb {
  sk_id : Z; sk_data : Z; sk_len : Z; sk_frags : list (Z * Z);
  sk_gso_size : Z; sk_protocol : Z; sk_transport_offset : Z; sk_has_transport : bool;
  sk_hdr : bool; sk_proto4 : Z; sk_dest_port : Z; sk_partial : bool; sk_vlan : option Z }.
Definition skb_data_len (skb : sk_buff) : Z := foldr Z.add 0 ((sk_frags skb).*2).
Definition skb_headlen (skb : sk_buff) : Z := u32 (sk_len skb - skb_data_len skb).

(** [struct TxDesc], [struct ring_info] and [struct rtl8125_tx_ring]. *)
Record TxDesc := TxD { td_opts1 : Z; td_opts2 : Z; td_addr : Z }.
Record ring_info := RInfo { ri_skb : option sk_buff; ri_len : Z }.
Record rtl8125_tx_ring := TxRing {
  tr_index : Z; cur_tx : Z; dirty_tx : Z; num_tx_desc : Z;
  TxDescArray : list TxDesc; tx_skb : list ring_info;
  NextHwDesCloPtr : Z; BeginHwDesCloPtr : Z; hw_clo_ptr_reg : Z; tr_sw_tail_ptr_reg : Z }.

(** The fields of [struct rtl8125_private] and of the device's features that
    the transmit path reads and nothing changes while it runs. *)
Record txconf := TxConf {
  EnableTxNoClose : bool; RequireLSOPatch : bool; UseSwPaddingShortPkt : bool; ShortPacketSwChecksum : bool;
  feature_tso : bool; feature_ip_csum : bool; feature_ipv6_csum : bool }.

(** One queue. [tq_hw_clo] is what the chip's close pointer register reads,
    [tq_writes] the registers written, [tq_mapped] the live DMA mappings,
    [tq_freed] the packets the driver has given back to the kernel and
    [tq_pad_freed] those the kernel has freed because it could not pad them, by
    their identity. The statistics of the device are [unsigned long], 32 bits
    on the ARM processor of the modem. *)
Record txq := TxQ {
  txr : rtl8125_tx_ring; tq_stopped : bool; tq_calls : nat; tq_hw_clo : Z; tq_writes : list (Z * Z);
  tq_mapped : list (Z * Z); tq_freed : list Z; tq_pad_freed : list Z;
  st_tx_dropped : Z; st_tx_packets : Z; st_tx_bytes : Z }.

Definition q_ring (f : rtl8125_tx_ring → rtl8125_tx_ring) (s : txq) : txq :=
  TxQ (f (txr s)) (tq_stopped s) (tq_calls s) (tq_hw_clo s) (tq_writes s) (tq_mapped s) (tq_freed s) (tq_pad_freed s)
      (st_tx_dropped s) (st_tx_packets s) (st_tx_bytes s).
Definition q_stopped (b : bool) (s : txq) : txq :=
  TxQ (txr s) b (tq_calls s) (tq_hw_clo s) (tq_writes s) (tq_mapped s) (tq_freed s) (tq_pad_freed s)
      (st_tx_dropped s) (st_tx_packets s) (st_tx_bytes s).
Definition q_call (s : txq) : txq :=
  TxQ (txr s) (tq_stopped s) (S (tq_calls s)) (tq_hw_clo s) (tq_writes s) (tq_mapped s) (tq_freed s) (tq_pad_freed s)
      (st_tx_dropped s) (st_tx_packets s) (st_tx_bytes s).
Definition q_hw (v : Z) (s : txq) : txq :=
  TxQ (txr s) (tq_stopped s) (tq_calls s) v (tq_writes s) (tq_mapped s) (tq_freed s) (tq_pad_freed s)
      (st_tx_dropped s) (st_tx_packets s) (st_tx_bytes s).
Definition q_write (w : Z * Z) (s : txq) : txq :=
  TxQ (txr s) (tq_stopped s) (tq_calls s) (tq_hw_clo s) (tq_writes s ++ [w]) (tq_mapped s) (tq_freed s) (tq_pad_freed s)
      (st_tx_dropped s) (st_tx_packets s) (st_tx_bytes s).
Definition q_mapped (l : list (Z * Z)) (s : txq) : txq :=
  TxQ (txr s) (tq_stopped s) (tq_calls s) (tq_hw_clo s) (tq_writes s) l (tq_freed s) (tq_pad_freed s)
      (st_tx_dropped s) (st_tx_packets s) (st_tx_bytes s).
Definition q_freed (k : Z) (s : txq) : txq :=
  TxQ (txr s) (tq_stopped s) (tq_calls s) (tq_hw_clo s) (tq_writes s) (tq_mapped s) (tq_freed s ++ [k]) (tq_pad_freed s)
      (st_tx_dropped s) (st_tx_packets s) (st_tx_bytes s).
Definition q_pad_freed (k : Z) (s : txq) : txq :=
  TxQ (txr s) (tq_stopped s) (tq_calls s) (tq_hw_clo s) (tq_writes s) (tq_mapped s) (tq_freed s) (tq_pad_freed s ++ [k])
      (st_tx_dropped s) (st_tx_packets s) (st_tx_bytes s).
Definition q_dropped (s : txq) : txq :=
  TxQ (txr s) (tq_stopped s) (tq_calls s) (tq_hw_clo s) (tq_writes s) (tq_mapped s) (tq_freed s) (tq_pad_freed s)
      (u32 (st_tx_dropped s + 1)) (st_tx_packets s) (st_tx_bytes s).
Definition q_sent (len : Z) (s : txq) : txq :=
  TxQ (txr s) (tq_stopped s) (tq_calls s) (tq_hw_clo s) (tq_writes s) (tq_mapped s) (tq_freed s) (tq_pad_freed s)
      (st_tx_dropped s) (u32 (st_tx_packets s + 1)) (u32 (st_tx_bytes s + len)).

Definition r_descs (l : list TxDesc) (r : rtl8125_tx_ring) : rtl8125_tx_ring :=
  TxRing (tr_index r) (cur_tx r) (dirty_tx r) (num_tx_desc r) l (tx_skb r)
         (NextHwDesCloPtr r) (BeginHwDesCloPtr r) (hw_clo_ptr_reg r) (tr_sw_tail_ptr_reg r).
Definition r_infos (l : list ring_info) (r : rtl8125_tx_ring) : rtl8125_tx_ring :=
  TxRing (tr_index r) (cur_tx r) (dirty_tx r) (num_tx_desc r) (TxDescArray r) l
         (NextHwDesCloPtr r) (BeginHwDesCloPtr r) (hw_clo_ptr_reg r) (tr_sw_tail_ptr_reg r).
Definition r_cur (v : Z) (r : rtl8125_tx_ring) : rtl8125_tx_ring :=
  TxRing (tr_index r) v (dirty_tx r) (num_tx_desc r) (TxDescArray r) (tx_skb r)
         (NextHwDesCloPtr r) (BeginHwDesCloPtr r) (hw_clo_ptr_reg r) (tr_sw_tail_ptr_reg r).
Definition r_dirty (v : Z) (r : rtl8125_tx_ring) : rtl8125_tx_ring :=
  TxRing (tr_index r) (cur_tx r) v (num_tx_desc r) (TxDescArray r) (tx_skb r)
         (NextHwDesCloPtr r) (BeginHwDesCloPtr r) (hw_clo_ptr_reg r) (tr_sw_tail_ptr_reg r).
Definition r_clo (next begin : Z) (r : rtl8125_tx_ring) : rtl8125_tx_ring :=
  TxRing (tr_index r) (cur_tx r) (dirty_tx r) (num_tx_desc r) (TxDescArray r) (tx_skb r)
         next begin (hw_clo_ptr_reg r) (tr_sw_tail_ptr_reg r).

(** The kernel, at its [n]-th answer: [dma_map_single] (an address, or the
    mapping error), [skb_padto] (the address of the linear copy; without memory
    it frees the packet), and whether [skb_cow_head] fails. *)
Class TxApi := {
  dma_map_single : nat → Z → Z → option Z;
  skb_padto : nat → option Z;
  skb_cow_head_fails : nat → bool }.

Fixpoint remove_one (x : Z * Z) (l : list (Z * Z)) : option (list (Z * Z)) :=
  match l with
  | [] => None
  | y :: l' => if decide (x = y) then Some l' else cons y <$> remove_one x l'
  end.

Section transmit.
Context `{TxApi} (conf : txconf).
Abbreviation T := (M txq).

(** ** The kernel's functions *)
Definition dma_map (addr len : Z) : T (option Z) :=
  let* s := gets id in
  modify q_call ;;
  match dma_map_single (tq_calls s) addr len with
  | Some m => modify (q_mapped ((m, len) :: tq_mapped s)) ;; ret (Some m)
  | None => ret None
  end.
(** Unmapping what is not mapped is undefined. *)
Definition dma_unmap (m len : Z) : T unit :=
  let* s := gets id in
  let* l := lift_opt (remove_one (m, len) (tq_mapped s)) in
  modify (q_mapped l).
(** Giving back a packet that the kernel has freed is undefined. *)
Definition kfree_skb (skb : sk_buff) : T unit :=
  let* s := gets id in
  if decide (sk_id skb ∈ tq_pad_freed s) then ub else modify (q_freed (sk_id skb)).
Definition netif_stop_subqueue : T unit := modify (q_stopped true).
Definition netif_start_subqueue : T unit := modify (q_stopped false).
Definition RTL_W16 (reg v : Z) : T unit := modify (q_write (reg, u16 v)).

(** ** Descriptors *)
Definition get_desc (entry : Z) : T TxDesc := let* s := gets id in lift_opt (TxDescArray (txr s) !! Z.to_nat entry).
Definition set_desc (entry : Z) (d : TxDesc) : T unit := modify (λ s, q_ring (r_descs (<[Z.to_nat entry := d]> (TxDescArray (txr s)))) s).
Definition get_info (entry : Z) : T ring_info := let* s := gets id in lift_opt (tx_skb (txr s) !! Z.to_nat entry).
Definition set_info (entry : Z) (i : ring_info) : T unit := modify (λ s, q_ring (r_infos (<[Z.to_nat entry := i]> (tx_skb (txr s)))) s).

Definition rtl8125_get_txd_opts1 (ring : rtl8125_tx_ring) (opts1 len entry : Z) : Z :=
  let status := Z.lor opts1 len in
  if entry =? u32 (num_tx_desc ring - 1) then Z.lor status RingEnd else status.

Definition rtl8125_unmap_tx_skb (entry : Z) : T unit :=
  let* info := get_info entry in
  let* desc := get_desc entry in
  dma_unmap (td_addr desc) (ri_len info) ;;
  set_desc entry (TxD RTK_MAGIC_DEBUG_VALUE 0 RTL8125_MAGIC_NUMBER) ;;
  set_info entry (RInfo (ri_skb info) 0).

(** The entry of a counter; the division is by zero for an empty ring. *)
Definition ring_entry (n : Z) : T Z :=
  let* s := gets id in if num_tx_desc (txr s) =? 0 then ub else ret (u32 n mod num_tx_desc (txr s)).

Definition clear_entry (entry : Z) : T unit :=
  let* info := get_info entry in
  if ri_len info =? 0 then ret tt
  else
    rtl8125_unmap_tx_skb entry ;;
    match ri_skb info with
    | Some skb => modify q_dropped ;; kfree_skb skb ;; let* i := get_info entry in set_info entry (RInfo None (ri_len i))
    | None => ret tt
    end.
Definition rtl8125_tx_clear_range (start n : Z) : T unit :=
  for_up (Z.to_nat n) 0 (λ i, let* entry := ring_entry (start + i) in clear_entry entry).

(** One ring of [rtl8125_tx_clear]. *)
Definition rtl8125_tx_clear : T unit :=
  let* s := gets id in
  rtl8125_tx_clear_range (dirty_tx (txr s)) (num_tx_desc (txr s)) ;;
  modify (q_ring (λ r, r_dirty 0 (r_cur 0 r))).

(** [rtl8125_init_ring], the transmit side of one ring: the indexes, the
    descriptors, the packets. *)
Definition rtl8125_init_ring_indexes : T unit := modify (q_ring (λ r, r_clo 0 0 (r_cur 0 (r_dirty 0 r)))).
Definition rtl8125_tx_desc_init : T unit :=
  modify (q_ring (λ r, r_descs (replicate (length (TxDescArray r)) (TxD 0 0 0)) r)) ;;
  let* s := gets id in
  let entry := u32 (num_tx_desc (txr s) - 1) in
  let* d := get_desc entry in set_desc entry (TxD RingEnd (td_opts2 d) (td_addr d)).
Definition rtl8125_tx_init_ring : T unit :=
  rtl8125_init_ring_indexes ;;
  rtl8125_tx_desc_init ;;
  modify (q_ring (λ r, r_infos (replicate (length (tx_skb r)) (RInfo None 0)) r)).

(** ** Fragments *)
(** Mapping one buffer and writing its descriptor; [false] if it cannot be
    mapped. *)
Definition put_frag (opts0 opts1 addr len entry : Z) (last : bool) : T bool :=
  let* m := dma_map addr len in
  match m with
  | None => ret false
  | Some mapping =>
      let* s := gets id in
      let status := rtl8125_get_txd_opts1 (txr s) opts0 len entry in
      let status := if last then Z.lor status LastFrag else status in
      let* info := get_info entry in
      set_info entry (RInfo (ri_skb info) len) ;;
      set_desc entry (TxD status opts1 mapping) ;;
      ret true
  end.

(** The loop over the fragments that are left: [cur_frag] when it ends, and
    whether every buffer was mapped. *)
Definition next_entry (entry : Z) : T Z := ring_entry (entry + 1).
Definition lso_split (opts0 PktLenCnt len : Z) (last : bool) : bool :=
  RequireLSOPatch conf && last && negb (Z.land opts0 (Z.lor GiantSendv4 GiantSendv6) =? 0)
  && (PktLenCnt <? ETH_FRAME_LEN) && (1 <? len).
Fixpoint frags_loop (opts0 opts1 : Z) (frags : list (Z * Z)) (cur_frag entry PktLenCnt : Z) : T (Z * bool) :=
  match frags with
  | [] => ret (cur_frag, true)
  | (addr, len) :: frags' =>
      let last := match frags' with [] => true | _ => false end in
      let* entry := next_entry entry in
      if lso_split opts0 PktLenCnt len last then
        let* ok := put_frag opts0 opts1 addr (len - 1) entry false in
        if negb ok then ret (cur_frag, false) else
        let* entry := next_entry entry in
        let* ok := put_frag opts0 opts1 (addr + (len - 1)) 1 entry true in
        if negb ok then ret (cur_frag + 1, false)
        else frags_loop opts0 opts1 frags' (cur_frag + 1 + 1) entry (PktLenCnt + 1)
      else
        let* ok := put_frag opts0 opts1 addr len entry last in
        if negb ok then ret (cur_frag, false)
        else frags_loop opts0 opts1 frags' (cur_frag + 1) entry (PktLenCnt + len)
  end.
(** The number of descriptors filled, or [None] for [-EIO]. *)
Definition rtl8125_xmit_frags (skb : sk_buff) (opts0 opts1 : Z) : T (option Z) :=
  let* s := gets id in
  let* r := frags_loop opts0 opts1 (sk_frags skb) 0 (cur_tx (txr s)) 0 in
  let '(cur_frag, ok) := r in
  if ok : bool then ret (Some cur_frag)
  else rtl8125_tx_clear_range (u32 (cur_tx (txr s) + 1)) cur_frag ;; ret None.

(** ** Offloads *)
Definition swab16 (v : Z) : Z := Z.lor (Z.shiftl (Z.land v 0xff) 8) (Z.land (Z.shiftr v 8) 0xff).
Definition rtl8125_tx_vlan_tag (skb : sk_buff) : Z :=
  match sk_vlan skb with Some tag => Z.lor TxVlanTag (swab16 tag) | None => 0 end.

Definition rtl8125_get_l4_protocol (skb : sk_buff) : Z :=
  if ((sk_protocol skb =? ETH_P_IP) || (sk_protocol skb =? ETH_P_IPV6)) && sk_hdr skb then sk_proto4 skb else IPPROTO_RAW.

(** The padding a chip bug asks for. [trans_data_len] is an [int], compared
    with the header length as a [u32]. *)
Definition rtl8125_get_patch_pad_len (skb : sk_buff) : Z :=
  let pkt_len := sk_len skb in
  if negb (sk_has_transport skb && (pkt_len <? 175)) then 0 else
  let ip_protocol := rtl8125_get_l4_protocol skb in
  if negb ((ip_protocol =? IPPROTO_TCP) || (ip_protocol =? IPPROTO_UDP)) then 0 else
  let trans_data_len := s32 (pkt_len - sk_transport_offset skb) in
  let pad_len :=
    if (ip_protocol =? IPPROTO_UDP) && (3 <? trans_data_len) && (trans_data_len <? MIN_PATCH_LEN)
       && ((sk_dest_port skb =? 0x13f) || (sk_dest_port skb =? 0x140)) then MIN_PATCH_LEN - trans_data_len
    else
      let hdr_len := if ip_protocol =? IPPROTO_TCP then 20 else 8 in
      if u32 trans_data_len <? hdr_len then u32 (hdr_len - trans_data_len) else 0 in
  if u32 (pkt_len + pad_len) <? ETH_ZLEN then u32 (ETH_ZLEN - pkt_len) else pad_len.

(** A padded packet is linear; [None]: no memory, and the kernel has freed it. *)
Definition rtl8125_skb_pad_with_len (skb : sk_buff) (len : Z) : T (option sk_buff) :=
  let pad := λ data frags,
    Some (Skb (sk_id skb) data len frags (sk_gso_size skb) (sk_protocol skb) (sk_transport_offset skb)
              (sk_has_transport skb) (sk_hdr skb) (sk_proto4 skb) (sk_dest_port skb) (sk_partial skb) (sk_vlan skb)) in
  let* s := gets id in
  modify q_call ;;
  match skb_padto (tq_calls s) with
  | Some data => ret (pad data [])
  | None => modify (q_pad_freed (sk_id skb)) ;; ret None
  end.
Definition rtl8125_skb_pad (skb : sk_buff) : T (option sk_buff) := rtl8125_skb_pad_with_len skb ETH_ZLEN.

(** What [rtl8125_tso_csum] leaves: the packet, and the two option words. *)
Definition tso_opts (skb : sk_buff) (giant opts0 opts1 : Z) : option (Z * Z) :=
  if u32 (sk_transport_offset skb) <=? GTTCPHO_MAX then
    Some (Z.lor (Z.lor opts0 giant) (Z.shiftl (sk_transport_offset skb) GTTCPHO_SHIFT),
          Z.lor opts1 (Z.shiftl (Z.min (sk_gso_size skb) MSS_MAX) 18))
  else None.
(** [ip_protocol] and [csum_cmd] of a packet that wants its checksum done. *)
Definition csum_ip (skb : sk_buff) : Z * Z :=
  if sk_protocol skb =? ETH_P_IP then
    if feature_ip_csum conf then (sk_proto4 skb, TxIPCS_C) else (IPPROTO_RAW, 0)
  else if sk_protocol skb =? ETH_P_IPV6 then
    if feature_ipv6_csum conf && (0 <? sk_transport_offset skb) && (u32 (sk_transport_offset skb) <=? TCPHO_MAX)
    then (sk_proto4 skb, Z.lor TxIPV6F_C (Z.shiftl (sk_transport_offset skb) TCPHO_SHIFT)) else (IPPROTO_RAW, 0)
  else (IPPROTO_RAW, 0).
Definition csum_partial (skb : sk_buff) : Z * Z :=
  let '(ip_protocol, csum_cmd) := csum_ip skb in
  let csum_cmd := if ip_protocol =? IPPROTO_TCP then Z.lor csum_cmd TxTCPCS_C
                  else if ip_protocol =? IPPROTO_UDP then Z.lor csum_cmd TxUDPCS_C else csum_cmd in
  (ip_protocol, csum_cmd).

Definition rtl8125_tso_csum (skb : sk_buff) (opts0 opts1 : Z) : T (option (sk_buff * Z * Z)) :=
  if feature_tso conf && negb (sk_gso_size skb =? 0) then
    if sk_protocol skb =? ETH_P_IP then
      match tso_opts skb GiantSendv4 opts0 opts1 with Some (o0, o1) => ret (Some (skb, o0, o1)) | None => ret None end
    else if sk_protocol skb =? ETH_P_IPV6 then
      let* s := gets id in
      modify q_call ;;
      if skb_cow_head_fails (tq_calls s) then ret None else
      match tso_opts skb GiantSendv6 opts0 opts1 with Some (o0, o1) => ret (Some (skb, o0, o1)) | None => ret None end
    else ret None
  else
    let '(ip_protocol, csum_cmd) := if sk_partial skb then csum_partial skb else (IPPROTO_RAW, 0) in
    let sw_calc_csum := sk_partial skb && (csum_cmd =? 0) in
    let check_patch_required := negb (sk_partial skb && (ip_protocol =? IPPROTO_TCP)) in
    let pad_len := if check_patch_required then rtl8125_get_patch_pad_len skb else 0 in
    let* r := if 0 <? pad_len then
                let* p := rtl8125_skb_pad_with_len skb (u32 (sk_len skb + pad_len)) in
                ret ((λ skb', (skb', sw_calc_csum || negb (csum_cmd =? 0))) <$> p)
              else ret (Some (skb, sw_calc_csum)) in
    match r with
    | None => ret None
    | Some (skb, sw_calc_csum) =>
        let* r := if (sk_len skb <? ETH_ZLEN)
                     && (UseSwPaddingShortPkt conf || (ShortPacketSwChecksum conf && negb (csum_cmd =? 0))) then
                    let* p := rtl8125_skb_pad skb in
                    ret ((λ skb', (skb', sw_calc_csum || negb (csum_cmd =? 0))) <$> p)
                  else ret (Some (skb, sw_calc_csum)) in
        match r with
        | None => ret None
        | Some (skb, sw_calc_csum) => ret (Some (skb, opts0, if (sw_calc_csum : bool) then opts1 else Z.lor opts1 csum_cmd))
        end
    end.

(** ** Sending a packet *)
(** The slots are counted in [unsigned int]. *)
Definition rtl8125_tx_slots_avail : T bool :=
  let* s := gets id in
  ret (MAX_SKB_FRAGS <? u32 (dirty_tx (txr s) + num_tx_desc (txr s) - cur_tx (txr s))).

Inductive netdev_tx_t := NETDEV_TX_OK | NETDEV_TX_BUSY.
(** Where the first part of [rtl8125_start_xmit] ends. *)
Inductive filled := FBusy | FDropped | FQueued.

Definition err_stop : T filled := netif_stop_subqueue ;; modify q_dropped ;; ret FBusy.
Definition err_dma_0 (skb : sk_buff) : T filled := modify q_dropped ;; kfree_skb skb ;; ret FDropped.

(** Laying the packet out, from the first descriptor [entry] to the write of
    [cur_tx]. *)
Definition xmit_packet (skb : sk_buff) (entry : Z) : T filled :=
  let* r := rtl8125_tso_csum skb DescOwn (rtl8125_tx_vlan_tag skb) in
  match r with
  | None => err_dma_0 skb
  | Some (skb, opts0, opts1) =>
      let* frags := rtl8125_xmit_frags skb opts0 opts1 in
      match frags with
      | None => err_dma_0 skb
      | Some frags =>
          let len := if frags =? 0 then sk_len skb else skb_headlen skb in
          let opts0 := Z.lor opts0 (if frags =? 0 then Z.lor FirstFrag LastFrag else FirstFrag) in
          let* s := gets id in
          let opts0 := rtl8125_get_txd_opts1 (txr s) opts0 len entry in
          let* m := dma_map (sk_data skb) len in
          match m with
          | None =>
              let* i := get_info entry in
              set_info entry (RInfo None (ri_len i)) ;;
              rtl8125_tx_clear_range (u32 (cur_tx (txr s) + 1)) frags ;;
              err_dma_0 skb
          | Some mapping =>
              set_info entry (RInfo (Some skb) len) ;;
              set_desc entry (TxD opts0 opts1 mapping) ;;
              modify (q_ring (λ r, r_cur (u32 (cur_tx r + frags + 1)) r)) ;;
              ret FQueued
          end
      end
  end.
(** With the checks before it. *)
Definition xmit_fill (skb : sk_buff) : T filled :=
  let* avail := rtl8125_tx_slots_avail in
  if negb avail then err_stop else
  let* s := gets id in
  let* entry := ring_entry (cur_tx (txr s)) in
  let* txd := get_desc entry in
  if negb (EnableTxNoClose conf) && negb (Z.land (td_opts1 txd) DescOwn =? 0) then err_stop
  else xmit_packet skb entry.

(** The rest, in the pieces between which [tx_interrupt] may run: stopping the
    queue, telling the chip, looking again. *)
Definition xmit_want_stop : T bool := let* avail := rtl8125_tx_slots_avail in ret (negb avail).
Definition xmit_stop (stop_queue : bool) : T unit := when stop_queue then netif_stop_subqueue.
Definition xmit_doorbell : T unit :=
  let* s := gets id in
  if EnableTxNoClose conf then RTL_W16 (tr_sw_tail_ptr_reg (txr s)) (cur_tx (txr s) mod MAX_TX_NO_CLOSE_DESC_PTR_V2)
  else RTL_W16 TPPOLL_8125 (Z.shiftl 1 (tr_index (txr s))).
Definition xmit_recheck (stop_queue : bool) : T unit :=
  when stop_queue then (let* avail := rtl8125_tx_slots_avail in when avail then netif_start_subqueue).

Definition rtl8125_start_xmit (skb : sk_buff) : T netdev_tx_t :=
  let* r := xmit_fill skb in
  match r with
  | FBusy => ret NETDEV_TX_BUSY
  | FDropped => ret NETDEV_TX_OK
  | FQueued =>
      let* stop_queue := xmit_want_stop in
      xmit_stop stop_queue ;;
      xmit_doorbell ;;
      xmit_recheck stop_queue ;;
      ret NETDEV_TX_OK
  end.

(** ** The interrupt *)
Definition rtl8125_fast_mod (input ceil : Z) : Z := if ceil <=? input then input mod ceil else input.

(** Also in pieces: what there is to do, what the chip has closed of it,
    releasing it, waking the queue. *)
Definition intr_left : T Z := let* s := gets id in ret (u32 (cur_tx (txr s) - dirty_tx (txr s))).
Definition intr_closed (tx_left : Z) : T Z :=
  let* s := gets id in
  if EnableTxNoClose conf then
    let next := u16 (tq_hw_clo s) in
    let tx_desc_closed := rtl8125_fast_mod (u32 (next - BeginHwDesCloPtr (txr s))) MAX_TX_NO_CLOSE_DESC_PTR_V2 in
    modify (q_ring (r_clo next next)) ;;
    ret (if tx_desc_closed <? tx_left then tx_desc_closed else tx_left)
  else ret tx_left.
(** [while (tx_left > 0)]: the value of [dirty_tx] at the end. *)
Fixpoint intr_loop (tx_left : nat) (dirty : Z) : T Z :=
  match tx_left with
  | O => ret dirty
  | S n =>
      let* entry := ring_entry dirty in
      let* desc := get_desc entry in
      if negb (EnableTxNoClose conf) && negb (Z.land (td_opts1 desc) DescOwn =? 0) then ret dirty else
      let* info := get_info entry in
      modify (q_sent (ri_len info)) ;;
      rtl8125_unmap_tx_skb entry ;;
      let* i := get_info entry in
      match ri_skb i with
      | Some skb => kfree_skb skb ;; set_info entry (RInfo None (ri_len i))
      | None => ret tt
      end ;;
      intr_loop n (u32 (dirty + 1))
  end.
Definition intr_release (tx_left : Z) : T Z :=
  let* s := gets id in
  let* dirty := intr_loop (Z.to_nat tx_left) (dirty_tx (txr s)) in
  if dirty_tx (txr s) =? dirty then ret 0
  else modify (q_ring (r_dirty dirty)) ;; ret (u32 (dirty - dirty_tx (txr s))).
Definition intr_wake (count : Z) : T unit :=
  when negb (count =? 0) then (
    let* s := gets id in
    let* avail := rtl8125_tx_slots_avail in
    (when tq_stopped s && avail then netif_start_subqueue) ;;
    when negb (EnableTxNoClose conf) && negb (cur_tx (txr s) =? dirty_tx (txr s))
    then RTL_W16 TPPOLL_8125 (Z.shiftl 1 (tr_index (txr s)))).

Definition rtl8125_tx_interrupt : T Z :=
  let* tx_left := intr_left in
  let* tx_left := intr_closed tx_left in
  let* count := intr_release tx_left in
  intr_wake count ;;
  ret count.
End transmit.
