(* ===== verification/R8125TxSpec.v ===== *)
(** * The transmit ring: what the pieces of the transmit path do

    The ring is viewed as the window of its slots from the oldest one, each
    free or holding a buffer; mapping, unmapping and moving on are operations
    on the window. *)
From stdpp Require Import base tactics list numbers.
From Stdlib Require Import ZArith Lia.
From S2P Require Import Prelude IossUtils RtlLib R8125Tx.

(** ** Windows *)
(** A slot in use: the buffer's bus address and length, the descriptor's
    words, the packet that is freed with it. *)
Record slot := Slot { sl_addr : Z; sl_len : Z; sl_opts1 : Z; sl_opts2 : Z; sl_skb : option sk_buff }.
Abbreviation window := (list (option slot)).
Definition sl_map (x : slot) : Z * Z := (sl_addr x, sl_len x).
Definition sl_id (x : slot) : option Z := sk_id <$> sl_skb x.
Definition maps (w : window) : list (Z * Z) := omap (fmap sl_map) w.
Definition ids (w : window) : list Z := omap (λ o, o ≫= sl_id) w.

Definition ring_wf (r : rtl8125_tx_ring) : Prop :=
  ring_size (num_tx_desc r) ∧
  num_tx_desc r ≤ Z.of_nat (length (TxDescArray r)) ∧ num_tx_desc r ≤ Z.of_nat (length (tx_skb r)).

Definition slot_at (r : rtl8125_tx_ring) (e : nat) (o : option slot) : Prop :=
  match o with
  | None => tx_skb r !! e = Some (RInfo None 0)
  | Some x => tx_skb r !! e = Some (RInfo (sl_skb x) (sl_len x)) ∧ sl_len x ≠ 0 ∧
              TxDescArray r !! e = Some (TxD (sl_opts1 x) (sl_opts2 x) (sl_addr x))
  end.

Record view (s : txq) (D : Z) (w : window) : Prop := View {
  v_wf : ring_wf (txr s);
  v_len : Z.of_nat (length w) = num_tx_desc (txr s);
  v_at : ∀ i o, w !! i = Some o → slot_at (txr s) (entry_of (num_tx_desc (txr s)) D i) o;
  v_maps : tq_mapped s ≡ₚ maps w }.

(** What the operations on slots leave alone. *)
Record frame (s s' : txq) : Prop := Frame {
  fr_index : tr_index (txr s') = tr_index (txr s);
  fr_cur : cur_tx (txr s') = cur_tx (txr s);
  fr_dirty : dirty_tx (txr s') = dirty_tx (txr s);
  fr_num : num_tx_desc (txr s') = num_tx_desc (txr s);
  fr_next : NextHwDesCloPtr (txr s') = NextHwDesCloPtr (txr s);
  fr_begin : BeginHwDesCloPtr (txr s') = BeginHwDesCloPtr (txr s);
  fr_clo : hw_clo_ptr_reg (txr s') = hw_clo_ptr_reg (txr s);
  fr_tail : tr_sw_tail_ptr_reg (txr s') = tr_sw_tail_ptr_reg (txr s);
  fr_stopped : tq_stopped s' = tq_stopped s;
  fr_hw : tq_hw_clo s' = tq_hw_clo s;
  fr_writes : tq_writes s' = tq_writes s;
  fr_pad : tq_pad_freed s' = tq_pad_freed s }.

#[global] Instance frame_refl : Reflexive frame.
Proof. intros s. by split. Qed.
#[global] Instance frame_trans : Transitive frame.
Proof. intros s1 s2 s3 [] []. split; congruence. Qed.

(** ** Lists *)
Lemma remove_one_in x l : x ∈ l → ∃ k, remove_one x l = Some k ∧ l ≡ₚ x :: k.
Proof.
  induction l as [|y l IH]; [by intros ?%elem_of_nil|]. intros Hx. simpl. case_decide as E.
  - subst. by eexists.
  - apply elem_of_cons in Hx as [->|Hx]; [done|]. destruct (IH Hx) as (k & -> & Hk). exists (y :: k). split; [done|].
    rewrite Hk. apply Permutation_swap.
Qed.

Lemma maps_app w1 w2 : maps (w1 ++ w2) = maps w1 ++ maps w2.
Proof. apply omap_app. Qed.
Lemma ids_app w1 w2 : ids (w1 ++ w2) = ids w1 ++ ids w2.
Proof. apply omap_app. Qed.
Lemma maps_free n : maps (replicate n None) = [].
Proof. induction n; [done|]. simpl. done. Qed.
Lemma ids_free n : ids (replicate n None) = [].
Proof. induction n; [done|]. simpl. done. Qed.

Lemma ring_entry_wp s n D i (Q : Z → txq → Prop) :
  ring_wf (txr s) → n mod num_tx_desc (txr s) = (D + Z.of_nat i) mod num_tx_desc (txr s) →
  Q (Z.of_nat (entry_of (num_tx_desc (txr s)) D i)) s → wp (ring_entry n) Q s.
Proof.
  intros Hwf E HQ. pose proof (size_pos _ (proj1 Hwf)). unfold ring_entry. wp_steps. unfold id.
  rewrite (proj2 (Z.eqb_neq _ _)) by lia. wp_steps. by rewrite (u32_entry _ (proj1 Hwf)), E, <- (entry_Z _ (proj1 Hwf)).
Qed.

(** ** One slot *)
(** A change to the entry [e] only. *)
Record upd_at (e : nat) (r r' : rtl8125_tx_ring) : Prop := UpdAt {
  ua_num : num_tx_desc r' = num_tx_desc r;
  ua_ld : length (TxDescArray r') = length (TxDescArray r);
  ua_li : length (tx_skb r') = length (tx_skb r);
  ua_d : ∀ e', e' ≠ e → TxDescArray r' !! e' = TxDescArray r !! e';
  ua_i : ∀ e', e' ≠ e → tx_skb r' !! e' = tx_skb r !! e' }.

Lemma upd_at_trans e r1 r2 r3 : upd_at e r1 r2 → upd_at e r2 r3 → upd_at e r1 r3.
Proof.
  intros [] []. split; try congruence; intros e' He; [rewrite ua_d1, ua_d0|rewrite ua_i1, ua_i0]; done.
Qed.

Lemma upd_at_wf e r r' : upd_at e r r' → ring_wf r → ring_wf r'.
Proof. intros [] (? & ? & ?). unfold ring_wf. rewrite ua_num0, ua_ld0, ua_li0. done. Qed.

Lemma view_upd s s' D w i o o' :
  view s D w → w !! i = Some o → upd_at (entry_of (num_tx_desc (txr s)) D i) (txr s) (txr s') →
  slot_at (txr s') (entry_of (num_tx_desc (txr s)) D i) o' → tq_mapped s' ≡ₚ maps (<[i := o']> w) →
  view s' D (<[i := o']> w).
Proof.
  intros [Hwf Hl Hat _] Hi Hu Ho Hm. pose proof (upd_at_wf _ _ _ Hu Hwf) as Hwf'.
  assert (EE : ∀ j, entry_of (num_tx_desc (txr s')) D j = entry_of (num_tx_desc (txr s)) D j) by (intros j; unfold entry_of; by rewrite (ua_num _ _ _ Hu)).
  split; [done|by rewrite length_insert, (ua_num _ _ _ Hu)| |done].
  intros j oj Hj. rewrite EE. destruct (decide (j = i)) as [->|Hne].
  - rewrite list_lookup_insert_eq in Hj by (by eapply lookup_lt_Some). by injection Hj as <-.
  - rewrite list_lookup_insert_ne in Hj by done. specialize (Hat _ _ Hj).
    apply lookup_lt_Some in Hi, Hj.
    assert (Hn : entry_of (num_tx_desc (txr s)) D j ≠ entry_of (num_tx_desc (txr s)) D i) by (intros E; apply entry_inj in E; [done|apply Hwf|lia|lia]).
    destruct oj as [x|]; simpl in *; rewrite (ua_i _ _ _ Hu) by done; [|done].
    rewrite (ua_d _ _ _ Hu) by done. done.
Qed.

Lemma maps_fill w i x : w !! i = Some None → maps (<[i := Some x]> w) ≡ₚ sl_map x :: maps w.
Proof.
  intros Hi. apply list_elem_of_split_length in Hi as (w1 & w2 & -> & ->). rewrite middle_insert, !maps_app. simpl.
  by rewrite <- Permutation_middle.
Qed.
Lemma maps_take w i x : w !! i = Some (Some x) → maps w ≡ₚ sl_map x :: maps (<[i := None]> w).
Proof.
  intros Hi. apply list_elem_of_split_length in Hi as (w1 & w2 & -> & ->). rewrite middle_insert, !maps_app. simpl.
  by rewrite <- Permutation_middle.
Qed.

Lemma upd_desc e d r : upd_at e r (r_descs (<[e := d]> (TxDescArray r)) r).
Proof. split; simpl; rewrite ?length_insert; try done. intros. by rewrite list_lookup_insert_ne. Qed.
Lemma upd_info e i r : upd_at e r (r_infos (<[e := i]> (tx_skb r)) r).
Proof. split; simpl; rewrite ?length_insert; try done. intros. by rewrite list_lookup_insert_ne. Qed.

(** Moving the window on. *)
Lemma view_rotate s D o w : view s D (o :: w) ↔ view s (D + 1) (w ++ [o]).
Proof.
  assert (A : ring_wf (txr s) → Z.of_nat (S (length w)) = num_tx_desc (txr s) →
              entry_of (num_tx_desc (txr s)) (D + 1) (length w) = entry_of (num_tx_desc (txr s)) D 0)
    by (intros Hwf; apply entry_rotate, Hwf).
  assert (B : ∀ i, entry_of (num_tx_desc (txr s)) (D + 1) i = entry_of (num_tx_desc (txr s)) D (S i)) by (intros i; apply entry_succ).
  split; intros [Hwf Hl Hat Hm]; simpl in Hl; (split; [done| | |]).
  - rewrite length_app. simpl. lia.
  - intros i oi Hi. apply lookup_app_Some in Hi as [Hi|[Hle Hi]].
    + rewrite B. by apply Hat.
    + apply list_lookup_singleton_Some in Hi as [Hi <-]. replace i with (length w) by lia. rewrite A by done. by apply Hat.
  - rewrite Hm, maps_app. rewrite (Permutation_app_comm (maps w)). by destruct o.
  - rewrite length_app in Hl. simpl in *. lia.
  - rewrite length_app in Hl. simpl in Hl. intros [|i] oi Hi; simpl in Hi.
    + injection Hi as <-. rewrite <- A by (done || lia). apply Hat. rewrite lookup_app_r, Nat.sub_diag by lia. done.
    + rewrite <- B. apply Hat. rewrite lookup_app_l by (by eapply lookup_lt_Some). done.
  - rewrite Hm, maps_app. rewrite (Permutation_app_comm (maps w)). by destruct o.
Qed.

Lemma view_rotates s D w1 w2 : view s D (w1 ++ w2) ↔ view s (D + Z.of_nat (length w1)) (w2 ++ w1).
Proof.
  revert D w2. induction w1 as [|o w1 IH]; intros D w2; simpl.
  - by rewrite app_nil_r, Z.add_0_r.
  - rewrite view_rotate, <- app_assoc, IH, <- app_assoc. simpl.
    by replace (D + 1 + Z.of_nat (length w1)) with (D + Z.of_nat (S (length w1))) by lia.
Qed.

Lemma view_ext s s' D w : txr s' = txr s → tq_mapped s' = tq_mapped s → view s D w → view s' D w.
Proof. intros Er Em []. split; by rewrite ?Er, ?Em. Qed.

Section operations.
Context `{TxApi} (conf : txconf).

Lemma dma_map_wp s a len (Q : option Z → txq → Prop) :
  match dma_map_single (tq_calls s) a len with
  | Some m => Q (Some m) (q_mapped ((m, len) :: tq_mapped s) (q_call s))
  | None => Q None (q_call s)
  end → wp (dma_map a len) Q s.
Proof. intros HQ. unfold dma_map. wp_steps. unfold id. destruct (dma_map_single _ _ _); by wp_steps. Qed.

(** ** What a packet asks for
    The reference for the words of the descriptors and for padding, with the
    numbers of the chip's interface: bit 31 of the first word says that the
    chip owns it, bits 29 and 28 mark the first and the last buffer of a packet,
    bit 30 the last descriptor of the ring, bits 26 and 25 a large send of IPv4
    and IPv6, with the offset of the transport header from bit 18; the second
    word has the VLAN tag, its bytes swapped, under bit 17, and from bit 18 the
    segment size of a large send, or the checksums the chip is to do: bit 29
    IPv4, bit 28 IPv6 with the offset, bit 30 TCP, bit 31 UDP. *)
Definition is_v4 (skb : sk_buff) : bool := sk_protocol skb =? 0x0800.
Definition is_v6 (skb : sk_buff) : bool := sk_protocol skb =? 0x86DD.
Definition is_tcp (skb : sk_buff) : bool := sk_proto4 skb =? 6.
Definition is_udp (skb : sk_buff) : bool := sk_proto4 skb =? 17.
Definition wants_tso (skb : sk_buff) : bool := feature_tso conf && negb (sk_gso_size skb =? 0).
(** A large send that is not done: no IP, a header too far in, or an IPv6
    header that cannot be written. *)
Definition refused (s : txq) (skb : sk_buff) : bool :=
  wants_tso skb && (negb (is_v4 skb || is_v6 skb) || (0x70 <? u32 (sk_transport_offset skb))
                    || (is_v6 skb && skb_cow_head_fails (tq_calls s))).

(** The network layer's checksum command, if the chip can do the packet's. *)
Definition ip_cmd (skb : sk_buff) : option Z :=
  if negb (sk_partial skb) then None
  else if is_v4 skb then if feature_ip_csum conf then Some (2 ^ 29) else None
  else if is_v6 skb && feature_ipv6_csum conf && (0 <? sk_transport_offset skb) && (sk_transport_offset skb <=? 0x3ff)
  then Some (Z.lor (2 ^ 28) (Z.shiftl (sk_transport_offset skb) 18)) else None.
Definition csum_word (skb : sk_buff) : Z :=
  match ip_cmd skb with
  | Some w => if is_tcp skb then Z.lor w (2 ^ 30) else if is_udp skb then Z.lor w (2 ^ 31) else w
  | None => 0
  end.

(** The length that the patch for short TCP and UDP packets asks for: room for
    the transport header, 47 bytes of a packet to the PTP ports, and 60 in all. *)
Definition patched_len (skb : sk_buff) : Z :=
  if sk_has_transport skb && (sk_len skb <? 175) && (is_v4 skb || is_v6 skb) && sk_hdr skb && (is_tcp skb || is_udp skb) then
    let trans := sk_len skb - sk_transport_offset skb in
    let want := if is_tcp skb then 20
                else if (3 <? trans) && (trans <? 47) && ((sk_dest_port skb =? 319) || (sk_dest_port skb =? 320)) then 47 else 8 in
    Z.max 60 (if (0 <=? trans) && (trans <? want) then sk_transport_offset skb + want else sk_len skb)
  else sk_len skb.
(** The length that is sent, and whether that takes padding. *)
Definition sent_len (skb : sk_buff) : Z :=
  if wants_tso skb then sk_len skb else
  let l := if bool_decide (ip_cmd skb ≠ None) && is_tcp skb then sk_len skb else patched_len skb in
  if (l <? 60) && (UseSwPaddingShortPkt conf || (ShortPacketSwChecksum conf && negb (csum_word skb =? 0))) then 60 else l.
Definition padded (skb : sk_buff) : bool := sk_len skb <? sent_len skb.
Definition linear (data len : Z) (skb : sk_buff) : sk_buff :=
  Skb (sk_id skb) data len [] (sk_gso_size skb) (sk_protocol skb) (sk_transport_offset skb) (sk_has_transport skb)
      (sk_hdr skb) (sk_proto4 skb) (sk_dest_port skb) (sk_partial skb) (sk_vlan skb).
(** The kernel has no memory for the padding, and frees the packet. *)
Definition pad_fails (s : txq) (skb : sk_buff) : bool := padded skb && bool_decide (skb_padto (tq_calls s) = None).
(** What is sent for [skb]: itself, or its padded linear copy. *)
Definition sent_as (s : txq) (skb skb' : sk_buff) : Prop :=
  if padded skb then ∃ data, skb_padto (tq_calls s) = Some data ∧ skb' = linear data (sent_len skb) skb else skb' = skb.

Definition opts0_of (skb : sk_buff) : Z :=
  if wants_tso skb then Z.lor (Z.lor (2 ^ 31) (if is_v4 skb then 2 ^ 26 else 2 ^ 25)) (Z.shiftl (sk_transport_offset skb) 18)
  else 2 ^ 31.
Definition vlan_word (skb : sk_buff) : Z :=
  match sk_vlan skb with Some tag => Z.lor (2 ^ 17) (tag mod 256 * 256 + tag / 256 mod 256) | None => 0 end.
(** The checksum of a padded packet is done by the driver. *)
Definition opts1_of (skb : sk_buff) : Z :=
  Z.lor (vlan_word skb)
        (if wants_tso skb then Z.shiftl (Z.min (sk_gso_size skb) 2047) 18 else if padded skb then 0 else csum_word skb).

Lemma vlan_word_eq skb : rtl8125_tx_vlan_tag skb = vlan_word skb.
Proof.
  unfold rtl8125_tx_vlan_tag, vlan_word. destruct (sk_vlan skb) as [tag|]; [|done]. f_equal. unfold swab16.
  change 0xff with (Z.ones 8). rewrite !Z.land_ones, Z.shiftl_mul_pow2, Z.shiftr_div_pow2 by lia. change (2 ^ 8) with 256.
  assert (E : Z.land (tag mod 256 * 256) (tag / 256 mod 256) = 0).
  { apply Z.bits_inj'. intros n Hn. rewrite Z.land_spec, Z.bits_0. change 256 with (2 ^ 8).
    destruct (decide (n < 8)).
    - by rewrite Z.mul_pow2_bits_low.
    - rewrite Z.mod_pow2_bits_high by lia. apply andb_false_r. }
  by rewrite Z.add_nocarry_lxor, Z.lxor_lor.
Qed.

(** The fields of a packet that are C integers of 32 bits. *)
Definition offset_ok (skb : sk_buff) : Prop := - 2 ^ 31 ≤ sk_transport_offset skb < 2 ^ 31.

Lemma l4_protocol_eq skb :
  let p := rtl8125_get_l4_protocol skb in
  let ip := (is_v4 skb || is_v6 skb) && sk_hdr skb in
  (p =? IPPROTO_TCP) = ip && is_tcp skb ∧ (p =? IPPROTO_UDP) = ip && is_udp skb.
Proof. unfold rtl8125_get_l4_protocol, is_v4, is_v6, ETH_P_IP, ETH_P_IPV6. cbv zeta. by destruct (_ && _). Qed.

Lemma trans_signed l o : 0 < l < 175 → - 2 ^ 31 ≤ o < 2 ^ 31 →
  s32 (l - o) = if l - o <? 2 ^ 31 then l - o else l - o - 2 ^ 32.
Proof. intros. unfold s32. destruct (_ <? _) eqn:E; [apply Z.ltb_lt in E|apply Z.ltb_ge in E].
 - rewrite Z.mod_small; lia.
 - replace (l - o + 2 ^ 31) with (l - o - 2 ^ 31 + 1 * 2 ^ 32) by lia. rewrite Z.mod_add by lia. rewrite Z.mod_small; lia. Qed.
Lemma hdr_pad l o h : 0 < l < 175 → - 2 ^ 31 ≤ o < 2 ^ 31 → 0 < h ≤ 20 →
  (if u32 (s32 (l - o)) <? h then u32 (h - s32 (l - o)) else 0) = (if (0 <=? l - o) && (l - o <? h) then h - (l - o) else 0).
Proof.
  intros. rewrite trans_signed by done. unfold u32. destruct (l - o <? 2 ^ 31) eqn:E; [apply Z.ltb_lt in E|apply Z.ltb_ge in E].
  - destruct (0 <=? l - o) eqn:E3; [apply Z.leb_le in E3|apply Z.leb_gt in E3]; simpl.
    + rewrite (Z.mod_small (l-o)) by lia. destruct (_ <? _) eqn:E4; [|done]. apply Z.ltb_lt in E4. apply Z.mod_small. lia.
    + replace ((l-o) mod 2 ^ 32) with (l - o + 2 ^ 32) by (rewrite <- (Z.mod_add _ 1), Z.mod_small by lia; lia).
      rewrite (proj2 (Z.ltb_ge _ _)) by lia. done.
  - replace ((l - o - 2 ^ 32) mod 2 ^ 32) with (l - o) by (rewrite <- (Z.mod_add _ 1), Z.mod_small by lia; lia).
    rewrite !(proj2 (Z.ltb_ge _ _)) by lia. by rewrite andb_false_r.
Qed.

Lemma pad_total l pad : 0 < l < 175 → 0 ≤ pad < 100 →
  let p := if u32 (l + pad) <? ETH_ZLEN then u32 (ETH_ZLEN - l) else pad in
  u32 (l + p) = Z.max 60 (l + pad) ∧ (0 <? p) = (l <? Z.max 60 (l + pad)).
Proof.
  intros Hl Hp p. subst p. unfold ETH_ZLEN, u32. rewrite (Z.mod_small (l + pad)) by lia. destruct (_ <? _) eqn:E; [apply Z.ltb_lt in E|apply Z.ltb_ge in E].
  - rewrite (Z.mod_small (60 - l)), Z.mod_small, Z.max_l, !(proj2 (Z.ltb_lt _ _)) by lia. split; [lia|done].
  - rewrite Z.mod_small, Z.max_r by lia. split; [done|]. destruct (0 <? pad) eqn:E2; [apply Z.ltb_lt in E2|apply Z.ltb_ge in E2]; symmetry; [apply Z.ltb_lt|apply Z.ltb_ge]; lia.
Qed.
(** A packet to the PTP ports. *)
Lemma ptp_pad (ptp : bool) l o h : 0 < l < 175 → - 2 ^ 31 ≤ o < 2 ^ 31 → 0 < h ≤ 20 →
  let trans := l - o in
  let want := if ptp && (3 <? trans) && (trans <? 47) then 47 else h in
  (if ptp && (3 <? s32 trans) && (s32 trans <? MIN_PATCH_LEN) then MIN_PATCH_LEN - s32 trans
   else if u32 (s32 trans) <? h then u32 (h - s32 trans) else 0)
  = if (0 <=? trans) && (trans <? want) then want - trans else 0.
Proof.
  intros Hl Ho Hh trans want. subst trans want. rewrite hdr_pad by done. unfold MIN_PATCH_LEN. destruct ptp; simpl; [|done].
  rewrite trans_signed by done. destruct (l - o <? 2 ^ 31) eqn:E; [apply Z.ltb_lt in E|apply Z.ltb_ge in E].
  - destruct ((3 <? l - o) && (l - o <? 47)) eqn:E2; simpl; [|done].
    apply andb_prop in E2 as [E2 E3]. rewrite E3. apply Z.ltb_lt in E2. by rewrite (proj2 (Z.leb_le _ _)) by lia.
  - rewrite (proj2 (Z.ltb_ge 3 (l - o - _))), (proj2 (Z.ltb_ge (l - o) 47)) by lia. by rewrite andb_false_r.
Qed.

Lemma patched_eq skb : 0 < sk_len skb < 2 ^ 31 → offset_ok skb →
  u32 (sk_len skb + rtl8125_get_patch_pad_len skb) = patched_len skb ∧
  (0 <? rtl8125_get_patch_pad_len skb) = (sk_len skb <? patched_len skb).
Proof.
  intros Hl Ho. unfold offset_ok in Ho. destruct (l4_protocol_eq skb) as [Et Eu]. unfold rtl8125_get_patch_pad_len, patched_len.
  assert (E0 : u32 (sk_len skb + 0) = sk_len skb) by (unfold u32; rewrite Z.add_0_r; apply Z.mod_small; lia).
  rewrite <- !andb_assoc. destruct (sk_has_transport skb); simpl; [|rewrite E0, !Z.ltb_irrefl; done].
  destruct (sk_len skb <? 175) eqn:E1; simpl; [|rewrite E0, !Z.ltb_irrefl; done]. apply Z.ltb_lt in E1.
  rewrite Et, Eu, <- andb_orb_distrib_r, !andb_assoc.
  destruct ((is_v4 skb || is_v6 skb) && sk_hdr skb); simpl; [|rewrite E0, !Z.ltb_irrefl; done].
  destruct (is_tcp skb || is_udp skb) eqn:E2; simpl; [|rewrite E0, !Z.ltb_irrefl; done].
  set (ptp := is_udp skb && ((sk_dest_port skb =? 319) || (sk_dest_port skb =? 320))).
  set (h := if is_tcp skb then 20 else 8). assert (Hh : 0 < h ≤ 20) by (subst h; destruct (is_tcp skb); lia).
  pose proof (ptp_pad ptp _ _ h (conj (proj1 Hl) E1) Ho Hh) as Hp. cbv zeta in Hp. change 0x13f with 319. change 0x140 with 320.
  match goal with |- context [is_udp skb && ?a && ?b && ?c] =>
    replace (is_udp skb && a && b && c) with (ptp && a && b) by (subst ptp; by destruct (is_udp skb), a, b, c) end.
  rewrite Hp. assert (Ew : (if ptp && (3 <? sk_len skb - sk_transport_offset skb) && (sk_len skb - sk_transport_offset skb <? 47) then 47 else h) =
    if is_tcp skb then 20 else if (3 <? sk_len skb - sk_transport_offset skb) && (sk_len skb - sk_transport_offset skb <? 47) &&
      ((sk_dest_port skb =? 319) || (sk_dest_port skb =? 320)) then 47 else 8).
  { subst ptp h. unfold is_tcp, is_udp in *. destruct (sk_proto4 skb =? 6) eqn:E3; simpl in *.
    - apply Z.eqb_eq in E3. by rewrite E3.
    - rewrite E2. match goal with |- context [?a && ?b && (?c || ?d)] => by destruct a, b, c, d end. }
  rewrite Ew. set (want := if is_tcp skb then 20 else _). assert (Hw : 0 < want ≤ 47) by (subst want; clear; by repeat case_match).
  clearbody want. set (pad := if _ && _ then want - _ else 0).
  assert (Ep : sk_len skb + pad = if (0 <=? sk_len skb - sk_transport_offset skb) && (sk_len skb - sk_transport_offset skb <? want)
                                  then sk_transport_offset skb + want else sk_len skb) by (subst pad; clear; case_match; lia).
  rewrite <- Ep. apply pad_total; [lia|]. subst pad. clear - Hw. case_match eqn:E4; [|lia]. apply andb_prop in E4 as [E4 E5].
  apply Z.leb_le in E4. apply Z.ltb_lt in E5. lia.
Qed.

Lemma csum_ip_eq skb : offset_ok skb → sk_partial skb = true →
  csum_ip conf skb = match ip_cmd skb with Some w => (sk_proto4 skb, w) | None => (IPPROTO_RAW, 0) end.
Proof.
  intros Ho Hp. unfold offset_ok in Ho. unfold csum_ip, ip_cmd. rewrite Hp. simpl.
  change (sk_protocol skb =? ETH_P_IP) with (is_v4 skb). change (sk_protocol skb =? ETH_P_IPV6) with (is_v6 skb).
  destruct (is_v4 skb); [by destruct (feature_ip_csum conf)|]. destruct (is_v6 skb); simpl; [|done].
  destruct (feature_ipv6_csum conf); simpl; [|done]. destruct (0 <? _) eqn:E; simpl; [|done]. apply Z.ltb_lt in E.
  replace (u32 (sk_transport_offset skb)) with (sk_transport_offset skb) by (symmetry; apply Z.mod_small; lia). by destruct (_ <=? _).
Qed.
Lemma ip_cmd_partial skb : sk_partial skb = false → ip_cmd skb = None.
Proof. intros E. unfold ip_cmd. by rewrite E. Qed.

(** The command and the protocol that the code computes. *)
Lemma csum_cmd_eq skb : offset_ok skb →
  let r := if sk_partial skb then csum_partial conf skb else (IPPROTO_RAW, 0) in
  r.2 = csum_word skb ∧ (sk_partial skb && (r.1 =? IPPROTO_TCP)) = bool_decide (ip_cmd skb ≠ None) && is_tcp skb.
Proof.
  intros Ho. cbv zeta. destruct (sk_partial skb) eqn:Hp; simpl.
  - unfold csum_partial, csum_word. rewrite csum_ip_eq by done. destruct (ip_cmd skb) as [w|]; simpl; [|done]. split; [|done].
    unfold is_tcp, is_udp. change IPPROTO_TCP with 6. change IPPROTO_UDP with 17. by repeat destruct (_ =? _).
  - unfold csum_word. by rewrite ip_cmd_partial.
Qed.
Lemma csum_word_partial skb : sk_partial skb = false → csum_word skb = 0.
Proof. intros E. unfold csum_word. by rewrite ip_cmd_partial. Qed.

(** ** Preparing *)
Lemma tso_eq s skb o0 o1 : wants_tso skb = true →
  rtl8125_tso_csum conf skb o0 o1 s = Some
    (if refused s skb then None
     else Some (skb, Z.lor (Z.lor o0 (if is_v4 skb then 2 ^ 26 else 2 ^ 25)) (Z.shiftl (sk_transport_offset skb) 18),
                Z.lor o1 (Z.shiftl (Z.min (sk_gso_size skb) 2047) 18)),
     if negb (is_v4 skb) && is_v6 skb then q_call s else s).
Proof.
  intros Ew. unfold rtl8125_tso_csum, refused. rewrite Ew. unfold wants_tso in Ew. rewrite Ew. unfold tso_opts, GTTCPHO_MAX.
  change (sk_protocol skb =? ETH_P_IP) with (is_v4 skb). change (sk_protocol skb =? ETH_P_IPV6) with (is_v6 skb).
  assert (Ex : is_v4 skb && is_v6 skb = false).
  { unfold is_v4, is_v6. destruct (sk_protocol skb =? 0x0800) eqn:E; [|done]. apply Z.eqb_eq in E. by rewrite E. }
  rewrite (Z.leb_antisym 0x70). unfold bind, gets, modify, ret, id.
  destruct (is_v4 skb); simpl in *; [rewrite Ex; simpl; rewrite orb_false_r; by destruct (0x70 <? _)|].
  destruct (is_v6 skb); simpl; [|done]. destruct (skb_cow_head_fails _); [by rewrite orb_true_r|]. rewrite orb_false_r. by destruct (0x70 <? _).
Qed.

Lemma sent_len_short skb l : (l <? 60) = false →
  (if (l <? 60) && (UseSwPaddingShortPkt conf || (ShortPacketSwChecksum conf && negb (csum_word skb =? 0))) then 60 else l) = l.
Proof. by intros ->. Qed.

(** A packet that is no large send. *)
Lemma plain_eq s skb o0 o1 : 0 < sk_len skb < 2 ^ 31 → offset_ok skb → wants_tso skb = false →
  rtl8125_tso_csum conf skb o0 o1 s = Some
    (if padded skb then match skb_padto (tq_calls s) with
                        | Some data => (Some (linear data (sent_len skb) skb, o0, o1), q_call s)
                        | None => (None, q_pad_freed (sk_id skb) (q_call s))
                        end
     else (Some (skb, o0, Z.lor o1 (csum_word skb)), s)).
Proof.
  intros Hl Ho Ew. unfold rtl8125_tso_csum. unfold padded, sent_len. rewrite Ew. unfold wants_tso in Ew. rewrite Ew.
  destruct (csum_cmd_eq skb Ho) as [Ec Et]. pose proof (csum_word_partial skb) as Hnp.
  destruct (if sk_partial skb then _ else _) as [proto cmd]. simpl in Ec, Et. subst cmd.
  rewrite Et. destruct (patched_eq skb Hl Ho) as [Ep Ep0]. set (off := bool_decide _ && is_tcp skb) in *. clearbody off.
  set (sw := sk_partial skb && _). set (pad := if negb off then _ else 0).
  set (l := if off then sk_len skb else patched_len skb).
  assert (El : u32 (sk_len skb + pad) = l ∧ (0 <? pad) = (sk_len skb <? l)).
  { subst pad l. destruct off; simpl; [|by split]. rewrite Z.add_0_r, !Z.ltb_irrefl. split; [apply Z.mod_small; lia|done]. }
  destruct El as [El El0]. rewrite El0, El. unfold rtl8125_skb_pad, rtl8125_skb_pad_with_len, ETH_ZLEN.
  assert (Hsw : sw = false → sk_partial skb = true → csum_word skb ≠ 0) by (subst sw; intros E E'; rewrite E' in E; by apply Z.eqb_neq).
  assert (Hsw' : sw = true → csum_word skb = 0) by (subst sw; intros E; apply andb_prop in E as [_ E]; by apply Z.eqb_eq).
  clearbody sw. destruct (sk_len skb <? l) eqn:Epad.
  - assert (H60 : (l <? 60) = false).
    { subst l. destruct off; [by rewrite Z.ltb_irrefl in Epad|]. apply Z.ltb_ge. apply Z.ltb_lt in Epad. unfold patched_len in *. case_match; lia. }
    rewrite H60. simpl. rewrite Epad. unfold bind, gets, modify, ret, id. destruct (skb_padto _) as [data|]; [|done]. simpl. rewrite H60. simpl.
    destruct sw; simpl; [done|]. destruct (csum_word skb =? 0) eqn:E0; simpl; [|done]. apply Z.eqb_eq in E0. by rewrite E0, Z.lor_0_r.
  - assert (Ell : l = sk_len skb).
    { subst l. destruct off; [done|]. apply Z.ltb_ge in Epad. unfold patched_len in *. case_match; [case_match|]; lia. }
    rewrite Ell. unfold bind, gets, modify, ret, id. destruct ((sk_len skb <? 60) && _) eqn:Ez.
    + apply andb_prop in Ez as [Ez _]. rewrite Ez. destruct (skb_padto _) as [data|]; [|done]. simpl.
      destruct sw; simpl; [done|]. destruct (csum_word skb =? 0) eqn:E0; simpl; [|done]. apply Z.eqb_eq in E0. by rewrite E0, Z.lor_0_r.
    + rewrite Z.ltb_irrefl. destruct sw; [|done]. by rewrite Hsw', Z.lor_0_r.
Qed.

Definition tso_post (s : txq) (skb : sk_buff) (r : option (sk_buff * Z * Z)) (s' : txq) : Prop :=
  txr s' = txr s ∧ tq_mapped s' = tq_mapped s ∧ tq_freed s' = tq_freed s ∧ frame s s' ∧
  match r with
  | Some (skb', o0, o1) => refused s skb = false ∧ sent_as s skb skb' ∧ o0 = opts0_of skb ∧ o1 = opts1_of skb
  | None => refused s skb = true
  end.

Lemma tso_csum_wp s skb : 0 < sk_len skb < 2 ^ 31 → offset_ok skb → pad_fails s skb = false →
  wp (rtl8125_tso_csum conf skb DescOwn (rtl8125_tx_vlan_tag skb)) (tso_post s skb) s.
Proof.
  intros Hl Ho Hpad. rewrite vlan_word_eq. unfold pad_fails in Hpad. destruct (wants_tso skb) eqn:Ew.
  - eapply wp_intro; [by apply tso_eq|]. assert (Hs : ∀ s', s' = s ∨ s' = q_call s → txr s' = txr s ∧ tq_mapped s' = tq_mapped s ∧ tq_freed s' = tq_freed s ∧ frame s s').
    { intros s' [->| ->]; do 3 (split; [done|]); [done|by split]. }
    destruct (Hs (if negb (is_v4 skb) && is_v6 skb then q_call s else s)) as (H1 & H2 & H3 & H4); [case_match; auto|].
    split; [done|]. split; [done|]. split; [done|]. split; [done|]. destruct (refused s skb); [done|]. split; [done|].
    unfold sent_as, padded, sent_len, opts0_of, opts1_of. rewrite Ew, Z.ltb_irrefl. done.
  - assert (Hr : refused s skb = false) by (unfold refused; by rewrite Ew). unfold wp. rewrite plain_eq by done.
    unfold tso_post, sent_as, opts0_of, opts1_of. rewrite Ew. destruct (padded skb) eqn:Ep; simpl in *; [|done].
    destruct (skb_padto _) as [data|] eqn:Ed; [|by rewrite bool_decide_eq_true_2 in Hpad]. do 3 (split; [done|]). split; [by split|].
    rewrite Z.lor_0_r. eauto 10.
Qed.

(** Padding that fails leaves a packet that the kernel has freed. *)
Lemma tso_csum_pad_fails s skb : 0 < sk_len skb < 2 ^ 31 → offset_ok skb → pad_fails s skb = true →
  rtl8125_tso_csum conf skb DescOwn (rtl8125_tx_vlan_tag skb) s = Some (None, q_pad_freed (sk_id skb) (q_call s)).
Proof.
  intros Hl Ho Hpad. apply andb_prop in Hpad as [Hp Hd]. apply bool_decide_eq_true in Hd.
  destruct (wants_tso skb) eqn:Ew; [unfold padded, sent_len in Hp; by rewrite Ew, Z.ltb_irrefl in Hp|].
  rewrite plain_eq by done. by rewrite Hp, Hd.
Qed.

(** ** Mapping, unmapping *)
(** A piece of a packet in a slot: address, length, whether it is the last. *)
Abbreviation piece := (Z * Z * bool)%type.
Definition piece_opts1 (num o0 : Z) (e : nat) (p : piece) : Z :=
  let v := Z.lor o0 p.1.2 in
  let v := if Z.of_nat e =? u32 (num - 1) then Z.lor v (2 ^ 30) else v in
  if p.2 then Z.lor v (2 ^ 28) else v.
Definition map_refused : Prop := ∃ n a len, dma_map_single n a len = None.
Definition placed (num o0 o1 : Z) (e : nat) (p : piece) (x : slot) : Prop :=
  (∃ n, dma_map_single n p.1.1 p.1.2 = Some (sl_addr x)) ∧ sl_len x = p.1.2 ∧
  sl_opts1 x = piece_opts1 num o0 e p ∧ sl_opts2 x = o1 ∧ sl_skb x = None.

Lemma slot_info s D w i o : view s D w → w !! i = Some o →
  tx_skb (txr s) !! entry_of (num_tx_desc (txr s)) D i =
    Some match o with Some x => RInfo (sl_skb x) (sl_len x) | None => RInfo None 0 end.
Proof. intros Hv Hi. pose proof (v_at _ _ _ Hv _ _ Hi) as Ha. destruct o; [by destruct Ha|done]. Qed.

(** Every entry of a well-formed ring can be written. *)
Lemma entry_lt s D i : ring_wf (txr s) →
  (entry_of (num_tx_desc (txr s)) D i < length (TxDescArray (txr s)))%nat ∧ (entry_of (num_tx_desc (txr s)) D i < length (tx_skb (txr s)))%nat.
Proof. intros Hwf. pose proof (entry_bound _ (proj1 Hwf) D i). destruct Hwf as (_ & ? & ?). lia. Qed.

Lemma put_slot s D w i x s' :
  view s D w → w !! i = Some None → sl_len x ≠ 0 →
  txr s' = r_descs (<[entry_of (num_tx_desc (txr s)) D i := TxD (sl_opts1 x) (sl_opts2 x) (sl_addr x)]> (TxDescArray (txr s)))
             (r_infos (<[entry_of (num_tx_desc (txr s)) D i := RInfo (sl_skb x) (sl_len x)]> (tx_skb (txr s))) (txr s)) →
  tq_mapped s' = sl_map x :: tq_mapped s → view s' D (<[i := Some x]> w).
Proof.
  intros Hv Hi Hx Er Em. destruct (entry_lt s D i (v_wf _ _ _ Hv)) as [Hd Hn].
  eapply view_upd; [done|done| | |].
  - rewrite Er. eapply upd_at_trans; [apply upd_info|]. apply (upd_desc _ _ (r_infos _ _)).
  - rewrite Er. simpl. rewrite !list_lookup_insert_eq by done. done.
  - rewrite Em, maps_fill by done. by rewrite (v_maps _ _ _ Hv).
Qed.

Lemma put_frag_wp s D w i a len o0 o1 last entry :
  view s D w → w !! i = Some None → len ≠ 0 → entry = Z.of_nat (entry_of (num_tx_desc (txr s)) D i) →
  wp (put_frag o0 o1 a len entry last) (λ ok s', frame s s' ∧ tq_freed s' = tq_freed s ∧
    if ok then ∃ x, placed (num_tx_desc (txr s)) o0 o1 (entry_of (num_tx_desc (txr s)) D i) (a, len, last) x ∧ view s' D (<[i := Some x]> w)
    else map_refused ∧ view s' D w) s.
Proof.
  intros Hv Hi Hlen ->. unfold put_frag. wp_step. apply dma_map_wp. destruct (dma_map_single _ _ _) as [m|] eqn:Em.
  - wp_steps. unfold id, get_info. wp_steps. eapply wp_lift_opt; [rewrite Nat2Z.id; by apply (slot_info _ _ _ _ _ Hv Hi)|].
    unfold set_info, set_desc. wp_steps. unfold id. split; [by split|]. split; [done|]. rewrite !Nat2Z.id. simpl.
    eexists (Slot m len (piece_opts1 (num_tx_desc (txr s)) o0 (entry_of (num_tx_desc (txr s)) D i) (a, len, last)) o1 None).
    split; [|by eapply put_slot].
    repeat split; simpl; eauto.
  - wp_steps. split; [by split|]. split; [done|]. split; [by eexists _, _, _|]. by apply (view_ext s).
Qed.

Lemma dma_unmap_wp s m len k (Q : unit → txq → Prop) :
  tq_mapped s ≡ₚ (m, len) :: k → (∀ l, l ≡ₚ k → Q tt (q_mapped l s)) → wp (dma_unmap m len) Q s.
Proof.
  intros Hp HQ. unfold dma_unmap. wp_steps. unfold id.
  destruct (remove_one_in (m, len) (tq_mapped s)) as (l & -> & Hl); [rewrite Hp; apply list_elem_of_here|].
  eapply wp_lift_opt; [done|]. wp_steps. apply HQ. apply (Permutation_cons_inv (a := (m, len))). by rewrite <- Hl.
Qed.

(** What unmapping leaves of a slot: the packet is still in it. *)
Lemma unmap_wp s D w i x (Q : unit → txq → Prop) :
  view s D w → w !! i = Some (Some x) →
  (∀ s' d, frame s s' → tq_freed s' = tq_freed s → st_tx_packets s' = st_tx_packets s → st_tx_bytes s' = st_tx_bytes s →
     tq_mapped s' ≡ₚ maps (<[i := None]> w) →
     txr s' = r_infos (<[entry_of (num_tx_desc (txr s)) D i := RInfo (sl_skb x) 0]> (tx_skb (txr s)))
                (r_descs (<[entry_of (num_tx_desc (txr s)) D i := d]> (TxDescArray (txr s))) (txr s)) → Q tt s') →
  wp (rtl8125_unmap_tx_skb (Z.of_nat (entry_of (num_tx_desc (txr s)) D i))) Q s.
Proof.
  intros Hv Hi HQ. unfold rtl8125_unmap_tx_skb, get_info, get_desc. wp_steps. rewrite Nat2Z.id.
  pose proof (v_at _ _ _ Hv _ _ Hi) as (Ha & Hl & Hd).
  eapply wp_lift_opt; [done|]. wp_steps. eapply wp_lift_opt; [done|]. wp_steps. simpl.
  eapply dma_unmap_wp; [by rewrite (v_maps _ _ _ Hv), (maps_take _ _ _ Hi)|]. intros l Hl'.
  unfold set_desc, set_info. wp_steps. rewrite !Nat2Z.id. simpl. eapply HQ; by try split.
Qed.

Lemma slot_freed s D w i x s' d :
  view s D w → w !! i = Some (Some x) → tq_mapped s' ≡ₚ maps (<[i := None]> w) →
  txr s' = r_infos (<[entry_of (num_tx_desc (txr s)) D i := RInfo None 0]> (tx_skb (txr s)))
             (r_descs (<[entry_of (num_tx_desc (txr s)) D i := d]> (TxDescArray (txr s))) (txr s)) →
  view s' D (<[i := None]> w).
Proof.
  intros Hv Hi Hm Er. destruct (entry_lt s D i (v_wf _ _ _ Hv)) as [Hd Hn].
  eapply view_upd; [done|done| | |done].
  - rewrite Er. eapply upd_at_trans; [apply upd_desc|]. apply (upd_info _ _ (r_descs _ _)).
  - rewrite Er. simpl. by rewrite list_lookup_insert_eq.
Qed.

(** ** Clearing *)
(** The kernel has freed none of the packets the driver holds. *)
Definition pad_clean (s : txq) : Prop := tq_pad_freed s = [].
Lemma pad_clean_frame s s' : frame s s' → pad_clean s → pad_clean s'.
Proof. intros [] H1. unfold pad_clean in *. congruence. Qed.
Lemma kfree_skb_wp s skb (Q : unit → txq → Prop) : pad_clean s → Q tt (q_freed (sk_id skb) s) → wp (kfree_skb skb) Q s.
Proof.
  intros Hc HQ. unfold kfree_skb. wp_steps. unfold id. rewrite Hc. rewrite decide_False by apply not_elem_of_nil. by wp_steps.
Qed.

Lemma clear_entry_wp s D w i o :
  pad_clean s → view s D w → w !! i = Some o →
  wp (clear_entry (Z.of_nat (entry_of (num_tx_desc (txr s)) D i)))
     (λ _ s', frame s s' ∧ tq_freed s' = tq_freed s ++ ids [o] ∧ view s' D (<[i := None]> w)) s.
Proof.
  intros Hpc Hv Hi. unfold clear_entry, get_info. wp_steps. rewrite Nat2Z.id.
  eapply wp_lift_opt; [by apply (slot_info _ _ _ _ _ Hv Hi)|]. destruct o as [x|]; simpl.
  - pose proof (v_at _ _ _ Hv _ _ Hi) as (_ & Hl & _). rewrite (proj2 (Z.eqb_neq _ _) Hl). wp_steps.
    eapply unmap_wp; [done|done|]. intros s' d Hf Hfr _ _ Hm Er.
    destruct (entry_lt s D i (v_wf _ _ _ Hv)) as [Hd Hn]. unfold sl_id. destruct (sl_skb x) as [skb|] eqn:Ek; simpl.
    + wp_steps. apply kfree_skb_wp; [exact (pad_clean_frame _ _ Hf Hpc)|]. unfold set_info. wp_steps. rewrite Nat2Z.id. unfold id. simpl. rewrite Er. simpl.
      eapply wp_lift_opt; [by apply list_lookup_insert_eq|]. wp_steps. simpl.
      split; [etrans; [exact Hf|]; split; simpl; by rewrite ?Er|]. split; [by rewrite Hfr|].
      eapply slot_freed; [done|done|done|]. simpl. rewrite Er. unfold r_infos, r_descs. simpl. by rewrite list_insert_insert_eq.
    + wp_steps. split; [done|]. split; [by rewrite Hfr, app_nil_r|]. by eapply slot_freed.
  - wp_steps. split; [done|]. split; [by rewrite app_nil_r|]. by rewrite list_insert_id.
Qed.

Lemma clear_range_wp s D pre seg post start n :
  pad_clean s → view s D (pre ++ seg ++ post) → n = Z.of_nat (length seg) →
  start mod num_tx_desc (txr s) = (D + Z.of_nat (length pre)) mod num_tx_desc (txr s) →
  wp (rtl8125_tx_clear_range start n)
     (λ _ s', frame s s' ∧ tq_freed s' = tq_freed s ++ ids seg ∧ view s' D (pre ++ replicate (length seg) None ++ post)) s.
Proof.
  intros Hpc Hv -> Es. unfold rtl8125_tx_clear_range. rewrite Nat2Z.id.
  eapply wp_mono; [apply (wp_for_up _ _ _ (λ i s', frame s s' ∧ tq_freed s' = tq_freed s ++ ids (take (Z.to_nat i) seg) ∧
    view s' D (pre ++ (replicate (Z.to_nat i) None ++ drop (Z.to_nat i) seg) ++ post)))|].
  - simpl. by rewrite app_nil_r.
  - intros i s' Hi (Hf & Hfr & Hv'). destruct (Z_of_nat_complete i) as [k ->]; [lia|].
    rewrite !Nat2Z.id in *. destruct (lookup_lt_is_Some_2 seg k ltac:(lia)) as [o Ho].
    rewrite (drop_S _ _ _ Ho) in Hv'. rewrite <- !app_assoc in Hv'. simpl in Hv'.
    apply wp_bind. eapply (ring_entry_wp _ _ D (length (pre ++ replicate k None))); [apply Hv'| |].
    + rewrite (fr_num _ _ Hf), length_app, length_replicate, Nat2Z.inj_add, Z.add_assoc. by apply mod_add_congr.
    + rewrite app_assoc in Hv'. eapply wp_mono; [eapply clear_entry_wp; [by apply (pad_clean_frame s)|done|by apply middle_lookup]|].
      intros _ s2 (Hf2 & Hfr2 & Hv2). simpl. replace (Z.to_nat (Z.of_nat k + 1)) with (S k) by lia.
      split; [by etrans|]. split; [by rewrite Hfr2, Hfr, (take_S_r _ _ _ Ho), ids_app, app_assoc|].
      rewrite middle_insert in Hv2. rewrite replicate_S, replicate_cons_app. rewrite <- !app_assoc in *. exact Hv2.
  - intros [] s' (Hf & Hfr & Hv'). rewrite Z.add_0_l, Nat2Z.id, take_ge in Hfr by done.
    rewrite Z.add_0_l, Nat2Z.id, drop_ge, app_nil_r in Hv' by done. done.
Qed.

(** ** Fragments *)
(** The pieces that the fragments become: one each, the last one of a large
    send split if the chip needs it, no more than a frame's worth of fragments
    comes before it and it can be. *)
Definition splits (skb : sk_buff) : bool := RequireLSOPatch conf && wants_tso skb.
Fixpoint frag_pieces (split : bool) (cnt : Z) (frags : list (Z * Z)) : list piece :=
  match frags with
  | [] => []
  | (a, len) :: frags' =>
      let last := match frags' with [] => true | _ => false end in
      if split && last && (cnt <? 1514) && (1 <? len) then [(a, len - 1, false); (a + (len - 1), 1, true)]
      else (a, len, last) :: frag_pieces split (cnt + len) frags'
  end.
Definition large (o0 : Z) : bool := negb (Z.land o0 (Z.lor GiantSendv4 GiantSendv6) =? 0).
Lemma lso_split_eq o0 cnt len last :
  lso_split conf o0 cnt len last = (RequireLSOPatch conf && large o0) && last && (cnt <? 1514) && (1 <? len).
Proof. unfold lso_split. fold (large o0). change ETH_FRAME_LEN with 1514. by destruct (RequireLSOPatch conf), (large o0), last. Qed.
Lemma large_opts0 skb : large (opts0_of skb) = wants_tso skb.
Proof.
  unfold large, opts0_of. destruct (wants_tso skb); [|done]. apply negb_true_iff, Z.eqb_neq. intros E.
  assert (A : ∀ n, 0 ≤ n → Z.testbit (Z.land (Z.lor (Z.lor (2 ^ 31) (if is_v4 skb then 2 ^ 26 else 2 ^ 25)) (Z.shiftl (sk_transport_offset skb) 18))
                (Z.lor GiantSendv4 GiantSendv6)) n = false) by (intros n Hn; by rewrite E, Z.bits_0).
  clear E. destruct (is_v4 skb); [specialize (A 26)|specialize (A 25)]; rewrite !Z.land_spec, !Z.lor_spec in A.
  - change (Z.testbit (2 ^ 26) 26) with true in A. rewrite orb_true_r in A. simpl in A. specialize (A ltac:(lia)). done.
  - change (Z.testbit (2 ^ 25) 25) with true in A. rewrite orb_true_r in A. simpl in A. specialize (A ltac:(lia)). done.
Qed.

(** The slots [xs] hold the pieces [ps], from slot [i] of the window. *)
Fixpoint laid (num D o0 o1 : Z) (i : nat) (ps : list piece) (xs : list slot) : Prop :=
  match ps, xs with
  | [], [] => True
  | p :: ps', x :: xs' =>
      placed num o0 o1 (Z.to_nat ((D + Z.of_nat i) mod num)) p x ∧ laid num D o0 o1 (S i) ps' xs'
  | _, _ => False
  end.

Lemma laid_length num D o0 o1 i ps xs : laid num D o0 o1 i ps xs → length xs = length ps.
Proof. revert i xs. induction ps as [|p ps IH]; intros i [|x xs]; simpl; try done. intros [_ Hl]. f_equal. by eapply IH. Qed.

Abbreviation busy xs := (Some <$> xs).

Lemma put_next_wp s D pre fr m a len o0 o1 last :
  view s D (pre ++ busy fr ++ replicate (S m) None) → 0 < len →
  wp (put_frag o0 o1 a len (Z.of_nat (entry_of (num_tx_desc (txr s)) D (length pre + length fr))) last)
     (λ ok s', frame s s' ∧ tq_freed s' = tq_freed s ∧
       if ok then ∃ x, placed (num_tx_desc (txr s)) o0 o1 (entry_of (num_tx_desc (txr s)) D (length pre + length fr)) (a, len, last) x ∧
                       view s' D (pre ++ busy (fr ++ [x]) ++ replicate m None)
       else map_refused ∧ view s' D (pre ++ busy fr ++ replicate (S m) None)) s.
Proof.
  intros Hv Hlen. replace (length pre + length fr)%nat with (length (pre ++ busy fr)) by (rewrite length_app, length_fmap; done).
  simpl in Hv. rewrite app_assoc in Hv.
  eapply wp_mono; [eapply put_frag_wp; [done|by apply middle_lookup|lia|done]|].
  intros ok s' (Hf & Hfr & Hr). split; [done|]. split; [done|]. destruct ok.
  - destruct Hr as (x & Hx & Hv'). exists x. split; [done|]. rewrite middle_insert in Hv'.
    rewrite fmap_app, <- !app_assoc. rewrite <- app_assoc in Hv'. done.
  - simpl. by rewrite app_assoc.
Qed.

(** How a run of the loop ends that had filled [fr] and finds room for [m]
    more: [n0] was the count. *)
Definition frags_post (s : txq) (D : Z) (pre : window) (fr : list slot) (m : nat) (n0 : Z) (P : list slot → Prop)
    (r : Z * bool) (s' : txq) : Prop :=
  frame s s' ∧ tq_freed s' = tq_freed s ∧ ∃ new, r.1 = n0 + Z.of_nat (length new) ∧
  view s' D (pre ++ busy (fr ++ new) ++ replicate (m - length new) None) ∧ (length new ≤ m)%nat ∧ ids (busy new) = [] ∧
  (if r.2 then P new else map_refused).

Lemma frags_post_nil s D pre fr m n0 (P : list slot → Prop) (ok : bool) :
  view s D (pre ++ busy fr ++ replicate m None) → (if ok then P [] else map_refused) → frags_post s D pre fr m n0 P (n0, ok) s.
Proof.
  intros Hv HP. split; [done|]. split; [done|]. exists []. simpl. rewrite app_nil_r, Nat.sub_0_r. split; [lia|].
  split; [done|]. split; [lia|]. done.
Qed.

Lemma frags_post_cons s s1 D pre fr m n0 (P : list slot → Prop) x r s' :
  frame s s1 → tq_freed s1 = tq_freed s → sl_skb x = None →
  frags_post s1 D pre (fr ++ [x]) m (n0 + 1) (λ new, P (x :: new)) r s' → frags_post s D pre fr (S m) n0 P r s'.
Proof.
  intros Hf Hfr Hx (Hf' & Hfr' & new & Hn & Hv & Hl & Hids & Hok).
  split; [by etrans|]. split; [congruence|]. exists (x :: new). simpl. rewrite <- app_assoc in Hv. simpl in Hv.
  unfold sl_id at 1. rewrite Hx. simpl. split; [lia|]. split; [done|]. split; [lia|]. by destruct (r.2).
Qed.

Lemma frags_post_frame s s1 D pre fr m n0 (P P' : list slot → Prop) r s' :
  frame s s1 → tq_freed s1 = tq_freed s → (∀ new, P new → P' new) →
  frags_post s1 D pre fr m n0 P r s' → frags_post s D pre fr m n0 P' r s'.
Proof.
  intros Hf Hfr HP (Hf' & Hfr' & new & Hn & Hv & Hl & Hids & Hok). split; [by etrans|]. split; [congruence|].
  exists new. do 4 (split; [done|]). destruct (r.2); auto.
Qed.

Lemma frags_post_fail s s' D pre fr m n0 P :
  frame s s' → tq_freed s' = tq_freed s → map_refused ∧ view s' D (pre ++ busy fr ++ replicate m None) →
  frags_post s D pre fr m n0 P (n0, false) s'.
Proof. intros Hf Hfr [Hr Hv]. eapply frags_post_frame; [done..| |by apply (frags_post_nil _ _ _ _ _ _ P)]. done. Qed.

Lemma frags_loop_wp frags : ∀ cur_frag entry cnt s D pre fr m o0 o1,
  view s D (pre ++ busy fr ++ replicate m None) →
  (entry + 1) mod num_tx_desc (txr s) = (D + Z.of_nat (length pre + length fr)) mod num_tx_desc (txr s) →
  (length (frag_pieces (RequireLSOPatch conf && large o0) cnt frags) ≤ m)%nat → Forall (λ f, 0 < f.2) frags →
  wp (frags_loop conf o0 o1 frags cur_frag entry cnt)
     (frags_post s D pre fr m cur_frag
        (laid (num_tx_desc (txr s)) D o0 o1 (length pre + length fr) (frag_pieces (RequireLSOPatch conf && large o0) cnt frags))) s.
Proof.
  induction frags as [|[a len] frags IH]; intros cur_frag entry cnt s D pre fr m o0 o1 Hv He Hm Hpos.
  { simpl. wp_steps. by apply frags_post_nil. }
  apply Forall_cons_1 in Hpos as [Hlen Hpos]. simpl in Hlen. cbn [frags_loop frag_pieces] in *.
  set (last := match frags with [] => true | _ => false end) in *. rewrite <- (lso_split_eq o0 cnt len last) in Hm |- *.
  destruct m as [|m]; [destruct (lso_split _ _ _ _ _); simpl in Hm; lia|].
  wp_step. eapply ring_entry_wp; [apply Hv|done|].
  destruct (lso_split conf o0 cnt len last) eqn:El.
  - apply andb_prop in El as [El Hlen1]. apply Z.ltb_lt in Hlen1.
    wp_step. eapply wp_mono; [eapply put_next_wp; [done|lia]|]. intros [] s1 (Hf1 & Hfr1 & Hr1); simpl.
    2: { wp_steps. by apply frags_post_fail. }
    destruct Hr1 as (x & Hx & Hv1). destruct m as [|m]; [simpl in Hm; lia|]. pose proof (fr_num _ _ Hf1) as En.
    wp_step. eapply (ring_entry_wp _ _ D (length pre + length (fr ++ [x]))); [apply Hv1| |].
    { rewrite En, entry_next by apply Hv. by rewrite length_app, Nat.add_assoc. }
    wp_step. eapply wp_mono; [eapply put_next_wp; [done|lia]|]. intros ok s2 (Hf2 & Hfr2 & Hr2); simpl.
    rewrite En, length_app, Nat.add_assoc, Nat.add_1_r in Hr2. destruct ok; simpl.
    + destruct Hr2 as (y & Hy & Hv2). destruct frags as [|]; [|by rewrite !andb_false_r in El].
      cbn [frags_loop]. wp_steps.
      eapply (frags_post_cons _ s1); [done..|apply Hx|]. eapply (frags_post_cons _ s2); [done..|apply Hy|].
      apply frags_post_nil; [done|]. split; [done|]. split; [|done].
      exact Hy.
    + wp_steps. eapply (frags_post_cons _ s1); [done..|apply Hx|by apply frags_post_fail].
  - wp_step. eapply wp_mono; [eapply put_next_wp; [done|lia]|]. intros [] s1 (Hf1 & Hfr1 & Hr1); simpl.
    2: { wp_steps. by apply frags_post_fail. }
    destruct Hr1 as (x & Hx & Hv1). pose proof (fr_num _ _ Hf1) as En.
    eapply wp_mono; [apply (IH _ _ _ _ D pre (fr ++ [x]) m o0 o1); [done| |simpl in Hm; lia|done]|].
    { rewrite En, entry_next by apply Hv. by rewrite length_app, Nat.add_assoc. }
    intros r s' Hr. eapply frags_post_cons; [done..|apply Hx|]. eapply frags_post_frame; [done..| |exact Hr].
    intros new Hnew. simpl. rewrite En, length_app, Nat.add_assoc, Nat.add_1_r in Hnew. done.
Qed.

Lemma xmit_frags_wp s D q m skb o0 o1 :
  pad_clean s → view s D (busy q ++ None :: replicate m None) → cur_tx (txr s) = u32 (D + Z.of_nat (length q)) →
  (length (frag_pieces (RequireLSOPatch conf && large o0) 0 (sk_frags skb)) ≤ m)%nat → Forall (λ f, 0 < f.2) (sk_frags skb) →
  wp (rtl8125_xmit_frags conf skb o0 o1) (λ r s', frame s s' ∧ tq_freed s' = tq_freed s ∧
    match r with
    | Some n => ∃ new, n = Z.of_nat (length new) ∧ laid (num_tx_desc (txr s)) D o0 o1 (S (length q)) (frag_pieces (RequireLSOPatch conf && large o0) 0 (sk_frags skb)) new ∧
                  (length new ≤ m)%nat ∧ ids (busy new) = [] ∧
                  view s' D (busy q ++ None :: busy new ++ replicate (m - length new) None)
    | None => map_refused ∧ view s' D (busy q ++ None :: replicate m None)
    end) s.
Proof.
  intros Hpc Hv Hc Hm Hpos. unfold rtl8125_xmit_frags. wp_steps. unfold id.
  assert (Epre : length (busy q ++ [None] : window) = S (length q)) by (rewrite length_app, length_fmap; simpl; lia).
  assert (Ec : (cur_tx (txr s) + 1) mod num_tx_desc (txr s) = (D + Z.of_nat (S (length q))) mod num_tx_desc (txr s)).
  { rewrite Hc, <- Zplus_mod_idemp_l, u32_entry, Zplus_mod_idemp_l by apply Hv. f_equal. lia. }
  eapply wp_mono; [apply (frags_loop_wp _ _ _ _ _ D (busy q ++ [None]) [] m); [by rewrite <- app_assoc|by rewrite Epre, Nat.add_0_r|done..]|].
  intros [n ok] s1 (Hf & Hfr & new & Hn & Hv1 & Hl & Hids & Hok). simpl in *. rewrite Epre, Nat.add_0_r in Hok. destruct ok.
  - wp_steps. split; [done|]. split; [done|]. exists new. rewrite <- app_assoc in Hv1. auto.
  - wp_step. eapply wp_mono; [eapply (clear_range_wp _ _ (busy q ++ [None]) (busy new)); [by apply (pad_clean_frame s)|done|by rewrite length_fmap|]|].
    { rewrite Epre, (fr_num _ _ Hf), u32_entry by apply Hv. done. }
    intros _ s2 (Hf2 & Hfr2 & Hv2). wp_steps. split; [by etrans|]. split; [by rewrite Hfr2, Hids, app_nil_r|]. split; [done|].
    rewrite length_fmap, <- replicate_add, <- app_assoc in Hv2. simpl in Hv2.
    by replace (length new + (m - length new))%nat with m in Hv2 by lia.
Qed.

(** ** The ring *)
(** The slots in flight are [q], oldest first, from the count [D]. *)
Record tx_inv (s : txq) (D : Z) (q : list slot) : Prop := TxInv {
  ti_view : view s D (busy q ++ replicate (Z.to_nat (num_tx_desc (txr s)) - length q) None);
  ti_dirty : dirty_tx (txr s) = u32 D;
  ti_cur : cur_tx (txr s) = u32 (D + Z.of_nat (length q));
  ti_pad : pad_clean s }.

Lemma ti_wf s D q : tx_inv s D q → ring_wf (txr s).
Proof. intros []. apply ti_view0. Qed.
Lemma ti_room s D q : tx_inv s D q → Z.of_nat (length q) ≤ num_tx_desc (txr s) ≤ MAX_NUM_TX_DESC.
Proof.
  intros [[Hwf Hl _ _] _ _ _]. rewrite length_app, length_fmap, length_replicate in Hl. destruct Hwf as ([[]] & _).
  unfold MAX_NUM_TX_DESC. lia.
Qed.

Definition free_slots (s : txq) (q : list slot) : Z := num_tx_desc (txr s) - Z.of_nat (length q).

Lemma slots_unsigned s D q :
  tx_inv s D q → u32 (dirty_tx (txr s) + num_tx_desc (txr s) - cur_tx (txr s)) = free_slots s q.
Proof.
  intros Hi. pose proof (ti_room _ _ _ Hi). destruct Hi as [_ Ed Ec _]. rewrite Ed, Ec. unfold free_slots, u32.
  rewrite Zminus_mod_idemp_r, <- Z.add_sub_assoc, Zplus_mod_idemp_l.
  unfold MAX_NUM_TX_DESC in *.
  replace (D + (num_tx_desc (txr s) - (D + Z.of_nat (length q)))) with (num_tx_desc (txr s) - Z.of_nat (length q)) by lia.
  apply Z.mod_small. lia.
Qed.

Lemma slots_avail_wp s D q (Q : bool → txq → Prop) :
  tx_inv s D q → Q (MAX_SKB_FRAGS <? free_slots s q) s → wp rtl8125_tx_slots_avail Q s.
Proof. intros Hi HQ. unfold rtl8125_tx_slots_avail. wp_steps. unfold id. by rewrite (slots_unsigned _ _ _ Hi). Qed.

Lemma view_frame_inv s s' D q :
  view s' D (busy q ++ replicate (Z.to_nat (num_tx_desc (txr s)) - length q) None) → frame s s' →
  tx_inv s D q → tx_inv s' D q.
Proof.
  intros Hv Hf [_ Ed Ec Hp]. pose proof (pad_clean_frame _ _ Hf Hp). destruct Hf. split; [by rewrite fr_num0|congruence|congruence|done].
Qed.

Lemma inv_ext s s' D q :
  txr s' = txr s → tq_mapped s' = tq_mapped s → tq_pad_freed s' = tq_pad_freed s → tx_inv s D q → tx_inv s' D q.
Proof. intros Er Em Ep []. split; rewrite ?Er; [by eapply view_ext|done|done|]. unfold pad_clean in *. congruence. Qed.

(** The packets of the queue and those given back. *)
Definition queued (q : list slot) : list Z := ids (busy q).

Lemma queued_app q1 q2 : queued (q1 ++ q2) = queued q1 ++ queued q2.
Proof. unfold queued. by rewrite fmap_app, ids_app. Qed.

(** ** Packets *)
(** A packet that the ring must take: no empty buffer, and no more pieces than
    a queue that is awake has slots for; the offset of its transport header is
    an [int]. *)
Record packet_ok (skb : sk_buff) : Prop := PacketOk {
  pk_len : 0 < sk_len skb < 2 ^ 31;
  pk_frags : Forall (λ f, 0 < f.2) (sk_frags skb);
  pk_head : skb_data_len skb < sk_len skb;
  pk_room : Z.of_nat (length (sk_frags skb)) + (if splits skb then 1 else 0) ≤ MAX_SKB_FRAGS;
  pk_offset : offset_ok skb }.

(** What is sent has the packet's identity, and no more pieces. *)
Definition prepared (skb skb' : sk_buff) : Prop :=
  skb' = skb ∨ (sk_id skb' = sk_id skb ∧ sk_frags skb' = [] ∧ sk_len skb < sk_len skb').
Lemma sent_prepared s skb skb' : sent_as s skb skb' → prepared skb skb'.
Proof.
  unfold sent_as. destruct (padded skb) eqn:E; [|by left]. intros (data & _ & ->). right. split; [done|]. split; [done|]. by apply Z.ltb_lt.
Qed.

Lemma frag_pieces_length sp cnt frags :
  Z.of_nat (length (frag_pieces sp cnt frags)) ≤ Z.of_nat (length frags) + if sp then 1 else 0.
Proof.
  revert cnt. induction frags as [|[a len] frags IH]; intros cnt; simpl; [by destruct sp|].
  destruct (sp && _ && _ && _) eqn:El; simpl; [|specialize (IH (cnt + len)); lia].
  destruct sp; [lia|done].
Qed.

Lemma pieces_room skb skb' : packet_ok skb → prepared skb skb' →
  Z.of_nat (length (frag_pieces (splits skb) 0 (sk_frags skb'))) ≤ MAX_SKB_FRAGS.
Proof.
  intros [_ _ _ Hr _] Hp. pose proof (frag_pieces_length (splits skb) 0 (sk_frags skb')).
  destruct Hp as [->|(_ & -> & _)]; [lia|done].
Qed.

Lemma data_len_nonneg skb : Forall (λ f, 0 < f.2) (sk_frags skb) → 0 ≤ skb_data_len skb.
Proof.
  unfold skb_data_len. generalize (sk_frags skb) as fs. induction fs as [|[a l] fs IH]; intros Hf; [done|].
  apply Forall_cons_1 in Hf as [Hl Hf]. specialize (IH Hf). simpl in Hl. change (0 ≤ l + foldr Z.add 0 (fs.*2)). lia.
Qed.

Lemma prepared_ok skb skb' : packet_ok skb → prepared skb skb' →
  Forall (λ f, 0 < f.2) (sk_frags skb') ∧ sk_id skb' = sk_id skb ∧ sk_len skb' ≠ 0 ∧
  (sk_frags skb' ≠ [] → skb_headlen skb' ≠ 0).
Proof.
  intros [Hl Hfr Hh _ _] [->|(Hid & Hf & Hl')].
  - split; [done|]. split; [done|]. split; [lia|]. intros _. pose proof (data_len_nonneg _ Hfr). unfold skb_headlen, u32.
    rewrite Z.mod_small; lia.
  - rewrite Hf. split; [constructor|]. split; [done|]. split; [lia|done].
Qed.

(** The slots of the packet [skb], which is sent as [skb']: the head with the
    packet, then its pieces. *)
Definition packet_laid (num D : Z) (i : nat) (skb skb' : sk_buff) (xs : list slot) : Prop :=
  match xs with
  | [] => False
  | x :: xs' =>
      let ps := frag_pieces (splits skb) 0 (sk_frags skb') in
      let whole := Z.of_nat (length ps) =? 0 in
      let len := if whole then sk_len skb' else skb_headlen skb' in
      let o := Z.lor (opts0_of skb) (if whole then Z.lor (2 ^ 29) (2 ^ 28) else 2 ^ 29) in
      (∃ n, dma_map_single n (sk_data skb') len = Some (sl_addr x)) ∧ sl_len x = len ∧
      sl_opts1 x = piece_opts1 num o (Z.to_nat ((D + Z.of_nat i) mod num)) (sk_data skb', len, false) ∧
      sl_opts2 x = opts1_of skb ∧ sl_skb x = Some skb' ∧ laid num D (opts0_of skb) (opts1_of skb) (S i) ps xs'
  end.

(** ** Filling *)
(** The chip is done with the descriptor the packet starts at. *)
Definition head_free (s : txq) : bool :=
  EnableTxNoClose conf ||
  match TxDescArray (txr s) !! Z.to_nat (cur_tx (txr s) mod num_tx_desc (txr s)) with
  | Some d => negb (Z.testbit (td_opts1 d) 31)
  | None => false
  end.
Definition fill_post (s : txq) (D : Z) (q : list slot) (skb : sk_buff) (r : filled) (s' : txq) : Prop :=
  match r with
  | FBusy => s' = q_dropped (q_stopped true s) ∧ (free_slots s q ≤ MAX_SKB_FRAGS ∨ head_free s = false)
  | FDropped => tx_inv s' D q ∧ frame s s' ∧ tq_freed s' = tq_freed s ++ [sk_id skb] ∧
                (MAX_SKB_FRAGS < free_slots s q ∧ head_free s = true) ∧ (refused s skb = true ∨ map_refused)
  | FQueued => ∃ skb' new, sent_as s skb skb' ∧ packet_laid (num_tx_desc (txr s)) D (length q) skb skb' new ∧
      tx_inv s' D (q ++ new) ∧ queued new = [sk_id skb] ∧ frame (q_ring (r_cur (cur_tx (txr s'))) s) s' ∧
      tq_freed s' = tq_freed s ∧ (MAX_SKB_FRAGS < free_slots s q ∧ head_free s = true) ∧ refused s skb = false
  end.

Lemma drop_wp s s1 D q skb :
  tx_inv s1 D q → frame s s1 → tq_freed s1 = tq_freed s → MAX_SKB_FRAGS < free_slots s q ∧ head_free s = true →
  refused s skb = true ∨ map_refused → ∀ skb', sk_id skb' = sk_id skb → wp (err_dma_0 skb') (fill_post s D q skb) s1.
Proof.
  intros Hi Hf Hfr Hfree Hr skb' Hid. unfold err_dma_0. wp_steps. apply kfree_skb_wp; [apply (ti_pad _ _ _ Hi)|]. wp_steps. simpl.
  split; [by apply (inv_ext s1)|]. split; [etrans; [exact Hf|by split]|]. by rewrite Hfr, Hid.
Qed.

Lemma r_infos_id r : r_infos (tx_skb r) r = r.
Proof. by destruct r. Qed.

Lemma put_slot_cur s D w i x s' v :
  view s D w → w !! i = Some None → sl_len x ≠ 0 →
  txr s' = r_cur v (r_descs (<[entry_of (num_tx_desc (txr s)) D i := TxD (sl_opts1 x) (sl_opts2 x) (sl_addr x)]> (TxDescArray (txr s)))
             (r_infos (<[entry_of (num_tx_desc (txr s)) D i := RInfo (sl_skb x) (sl_len x)]> (tx_skb (txr s))) (txr s))) →
  tq_mapped s' = sl_map x :: tq_mapped s → view s' D (<[i := Some x]> w).
Proof.
  intros Hv Hi Hx Er Em.
  destruct (put_slot s D w i x (q_ring (r_cur (cur_tx (txr s))) s') Hv Hi Hx) as [Hwf Hl Hat Hm]; [simpl; by rewrite Er|done|].
  by split.
Qed.

Lemma fill_head_wp s s1 D q skb skb' new m :
  tx_inv s D q → sent_as s skb skb' → refused s skb = false → packet_ok skb →
  MAX_SKB_FRAGS < free_slots s q ∧ head_free s = true → frame s s1 → tq_freed s1 = tq_freed s → ids (busy new) = [] →
  laid (num_tx_desc (txr s)) D (opts0_of skb) (opts1_of skb) (S (length q)) (frag_pieces (splits skb) 0 (sk_frags skb')) new →
  view s1 D (busy q ++ None :: busy new ++ replicate m None) →
  let frags := Z.of_nat (length new) in let entry := Z.of_nat (entry_of (num_tx_desc (txr s1)) D (length q)) in
  let len := if frags =? 0 then sk_len skb' else skb_headlen skb' in
  let o := rtl8125_get_txd_opts1 (txr s1) (Z.lor (opts0_of skb) (if frags =? 0 then Z.lor FirstFrag LastFrag else FirstFrag)) len entry in
  wp (let* r := dma_map (sk_data skb') len in
      match r with
      | None => let* i := get_info entry in
                set_info entry (RInfo None (ri_len i)) ;; rtl8125_tx_clear_range (u32 (cur_tx (txr s1) + 1)) frags ;; err_dma_0 skb'
      | Some mapping => set_info entry (RInfo (Some skb') len) ;; set_desc entry (TxD o (opts1_of skb) mapping) ;;
                        modify (q_ring (λ r, r_cur (u32 (cur_tx r + frags + 1)) r)) ;; ret FQueued
      end) (fill_post s D q skb) s1.
Proof.
  intros Hi Hsent Href Hok Hfree Hf Hfr Hids Hlaid Hv frags entry len o. pose proof (sent_prepared _ _ _ Hsent) as Hp. pose proof (prepared_ok _ _ Hok Hp) as (Hpos & Hid & Hl & Hh).
  pose proof (laid_length _ _ _ _ _ _ _ Hlaid) as El. pose proof (fr_num _ _ Hf) as En.
  assert (Hlen : len ≠ 0).
  { subst len frags. destruct (_ =? 0) eqn:E; [done|]. apply Hh. intros E'. rewrite E' in El. by rewrite El in E. }
  assert (Epre : length (busy q) = length q) by apply length_fmap.
  assert (Hhole : (busy q ++ None :: busy new ++ replicate m None) !! length q = Some None) by (rewrite <- Epre; apply middle_lookup).
  wp_step. apply dma_map_wp. destruct (dma_map_single _ _ _) as [mp|] eqn:Em.
  - unfold set_info, set_desc. wp_steps. unfold entry. rewrite !Nat2Z.id.
    match goal with |- fill_post _ _ _ _ _ ?st => set (s2 := st) end.
    assert (Hv' : view s2 D (<[length q := Some (Slot mp len o (opts1_of skb) (Some skb'))]> (busy q ++ None :: busy new ++ replicate m None)))
      by (eapply (put_slot_cur s1); [exact Hv|exact Hhole|exact Hlen|reflexivity..]).
    assert (Ec : cur_tx (txr s2) = u32 (cur_tx (txr s1) + frags + 1)) by done.
    assert (Ed : dirty_tx (txr s2) = dirty_tx (txr s1)) by done.
    assert (Hf2 : frame (q_ring (r_cur (cur_tx (txr s2))) s) s2) by (destruct Hf; by split).
    assert (Hfr2 : tq_freed s2 = tq_freed s) by done. assert (En2 : num_tx_desc (txr s2) = num_tx_desc (txr s)) by done.
    clearbody s2. rewrite <- Epre, middle_insert in Hv'.
    exists skb', (Slot mp len o (opts1_of skb) (Some skb') :: new). split; [done|]. split; [|split; [|split; [|done]]].
    + simpl. rewrite <- El. subst frags. fold len. split; [by eauto|]. split; [done|].
      split; [|by repeat split]. unfold o, rtl8125_get_txd_opts1, piece_opts1. simpl. unfold entry, entry_of. by rewrite En.
    + assert (Em' : m = (Z.to_nat (num_tx_desc (txr s2)) - length (q ++ Slot mp len o (opts1_of skb) (Some skb') :: new))%nat).
      { pose proof (v_len _ _ _ Hv') as Hl2. rewrite length_app in *. simpl in *.
        rewrite length_app, !length_fmap, length_replicate in Hl2. lia. }
      split.
      * rewrite <- Em', fmap_app, <- app_assoc. exact Hv'.
      * rewrite Ed, (fr_dirty _ _ Hf). apply Hi.
      * rewrite Ec, (fr_cur _ _ Hf), (ti_cur _ _ _ Hi), length_app. simpl. unfold u32.
        rewrite <- Z.add_assoc, Zplus_mod_idemp_l. f_equal. lia.
      * apply (pad_clean_frame _ _ Hf2), Hi.
    + change (queued (Slot mp len o (opts1_of skb) (Some skb') :: new)) with (sk_id skb' :: ids (busy new)). by rewrite Hid, Hids.
  - assert (Hv2 : view (q_call s1) D (busy q ++ None :: busy new ++ replicate m None)) by by apply (view_ext s1).
    unfold get_info, set_info. wp_steps. unfold entry. rewrite !Nat2Z.id.
    eapply wp_lift_opt; [by apply (slot_info _ _ _ _ _ Hv Hhole)|]. wp_steps. simpl.
    rewrite list_insert_id by apply (slot_info _ _ _ _ _ Hv Hhole).
    change (None :: busy new ++ replicate m None) with ([None] ++ busy new ++ replicate m None) in Hv2. rewrite app_assoc in Hv2.
    eapply wp_mono; [eapply (clear_range_wp _ D (busy q ++ [None]) (busy new) (replicate m None))|].
    + apply (pad_clean_frame _ _ Hf), Hi.
    + apply (view_ext (q_call s1)); [apply r_infos_id|done|done].
    + unfold frags. by rewrite length_fmap.
    + simpl. rewrite u32_entry, (fr_cur _ _ Hf), (ti_cur _ _ _ Hi), <- Zplus_mod_idemp_l by apply Hv.
      rewrite u32_entry by apply Hv. rewrite Zplus_mod_idemp_l, length_app, Epre. f_equal. simpl. lia.
    + intros _ s2 (Hf2 & Hfr2 & Hv3). assert (Hfs : frame s s2) by (etrans; [exact Hf|]; etrans; [|exact Hf2]; by split).
      apply (drop_wp _ _ D q); [|done|by rewrite Hfr2, Hids, app_nil_r|done|right; by eexists _, _, _|done].
      eapply view_frame_inv; [|exact Hfs|done]. rewrite length_fmap, <- replicate_add, <- app_assoc in Hv3.
      assert (E : Z.of_nat (length q + (1 + (length new + m))) = num_tx_desc (txr s1)).
      { rewrite <- (v_len _ _ _ Hv). rewrite length_app. simpl. rewrite length_app, !length_fmap, length_replicate. lia. }
      rewrite En in E. by replace (Z.to_nat (num_tx_desc (txr s)) - length q)%nat with (S (length new + m)) by lia.
Qed.

Lemma inv_head s D q : tx_inv s D q → 0 < free_slots s q →
  view s D (busy q ++ None :: replicate (Z.to_nat (free_slots s q) - 1) None).
Proof.
  intros Hi Hf. destruct Hi as [Hv _ _ _]. unfold free_slots in *.
  replace (Z.to_nat (num_tx_desc (txr s)) - length q)%nat
    with (S (Z.to_nat (num_tx_desc (txr s) - Z.of_nat (length q)) - 1)) in Hv by lia. exact Hv.
Qed.

Lemma land_own v : negb (Z.land v DescOwn =? 0) = Z.testbit v 31.
Proof.
  change DescOwn with (2 ^ 31). assert (E : Z.land v (2 ^ 31) = if Z.testbit v 31 then 2 ^ 31 else 0).
  { apply Z.bits_inj'. intros n Hn. rewrite Z.land_spec, Z.pow2_bits_eqb by lia. destruct (31 =? n) eqn:En.
    - apply Z.eqb_eq in En as <-. rewrite andb_true_r. by destruct (Z.testbit v 31).
    - rewrite andb_false_r. destruct (Z.testbit v 31); [|by rewrite Z.bits_0]. by rewrite Z.pow2_bits_eqb, En by lia. }
  rewrite E. by destruct (Z.testbit v 31).
Qed.

(** The checks. *)
Lemma xmit_fill_eq s D q skb : tx_inv s D q → xmit_fill conf skb s =
  if (MAX_SKB_FRAGS <? free_slots s q) && head_free s
  then xmit_packet conf skb (Z.of_nat (entry_of (num_tx_desc (txr s)) D (length q))) s
  else Some (FBusy, q_dropped (q_stopped true s)).
Proof.
  intros Hi. unfold xmit_fill, rtl8125_tx_slots_avail, err_stop, netif_stop_subqueue, ring_entry, get_desc, head_free.
  unfold bind, gets, modify, ret, lift_opt, id. rewrite (slots_unsigned _ _ _ Hi).
  destruct (MAX_SKB_FRAGS <? free_slots s q) eqn:Ef; cbn [negb andb]; [|done]. apply Z.ltb_lt in Ef.
  pose proof (ti_wf _ _ _ Hi) as Hwf. pose proof (size_pos _ (proj1 Hwf)). rewrite (proj2 (Z.eqb_neq _ _)) by lia. cbv beta iota.
  assert (Ec : u32 (cur_tx (txr s)) mod num_tx_desc (txr s) = Z.of_nat (entry_of (num_tx_desc (txr s)) D (length q))).
  { rewrite u32_entry, (ti_cur _ _ _ Hi), u32_entry by apply Hwf. symmetry. apply entry_Z, Hwf. }
  rewrite <- (u32_entry _ (proj1 Hwf) (cur_tx (txr s))), Ec, Nat2Z.id.
  destruct (entry_lt s D (length q) Hwf) as [Hd _]. destruct (lookup_lt_is_Some_2 _ _ Hd) as [d ->]. rewrite land_own.
  generalize (Z.testbit (td_opts1 d) 31) as b. intros b. by destruct (EnableTxNoClose conf), b.
Qed.

Lemma xmit_packet_wp s D q skb : tx_inv s D q → packet_ok skb → pad_fails s skb = false →
  MAX_SKB_FRAGS < free_slots s q ∧ head_free s = true →
  wp (xmit_packet conf skb (Z.of_nat (entry_of (num_tx_desc (txr s)) D (length q)))) (fill_post s D q skb) s.
Proof.
  intros Hi Hok Hpad Hfree. unfold xmit_packet.
  assert (Hv : view s D (busy q ++ None :: replicate (Z.to_nat (free_slots s q) - 1) None))
    by (apply inv_head; [done|unfold MAX_SKB_FRAGS in *; lia]).
  wp_step. eapply wp_mono; [by apply tso_csum_wp; [apply Hok|apply Hok|]|]. intros r s1 (Er & Em & Hfr & Hf & Hr).
  assert (Hi1 : tx_inv s1 D q) by (apply (inv_ext s); [done|done|apply (fr_pad _ _ Hf)|done]).
  destruct r as [[[skb' o0] o1]|]; [|apply drop_wp; by auto].
  destruct Hr as (Href & Hsent & -> & ->). pose proof (sent_prepared _ _ _ Hsent) as Hp.
  pose proof (prepared_ok _ _ Hok Hp) as (Hpos & Hid & _). pose proof (pieces_room _ _ Hok Hp) as Hroom.
  assert (Esp : RequireLSOPatch conf && large (opts0_of skb) = splits skb) by (unfold splits; by rewrite large_opts0).
  wp_step. eapply wp_mono; [apply (xmit_frags_wp s1 D q (Z.to_nat (free_slots s q) - 1)); [apply Hi1|by apply (view_ext s)| | |done]|].
  { rewrite Er. apply Hi. }
  { rewrite Esp. lia. }
  intros frags s2 (Hf2 & Hfr2 & Hr2). assert (Hfs : frame s s2) by by etrans. rewrite Esp in Hr2. destruct frags as [frags|].
  - destruct Hr2 as (new & -> & Hlaid & Hl & Hids & Hv2). wp_step. apply wp_gets. unfold id. rewrite Er in Hlaid.
    replace (entry_of (num_tx_desc (txr s)) D (length q)) with (entry_of (num_tx_desc (txr s2)) D (length q)) by (unfold entry_of; by rewrite (fr_num _ _ Hfs)).
    eapply fill_head_wp; [done|done|done|done|done|done|congruence|done|done|exact Hv2].
  - destruct Hr2 as [Hm Hv2]. apply (drop_wp _ _ D q); [|done|congruence|done|by right|done]. apply (view_frame_inv s); [|done|done].
    replace (Z.to_nat (num_tx_desc (txr s)) - length q)%nat with (S (Z.to_nat (free_slots s q) - 1)); [done|].
    unfold free_slots, MAX_SKB_FRAGS in *. lia.
Qed.

Lemma xmit_fill_wp s D q skb : tx_inv s D q → packet_ok skb → pad_fails s skb = false → wp (xmit_fill conf skb) (fill_post s D q skb) s.
Proof.
  intros Hi Hok Hpad. unfold wp. rewrite (xmit_fill_eq s D q) by done.
  destruct (MAX_SKB_FRAGS <? free_slots s q) eqn:Ef; [apply Z.ltb_lt in Ef|apply Z.ltb_ge in Ef]; simpl; [|split; [done|by left]].
  destruct (head_free s) eqn:Eh; [|split; [done|by right]]. by apply xmit_packet_wp.
Qed.

(** A packet whose padding fails is given back to the kernel, which has freed
    it: that is undefined. *)
Lemma xmit_packet_pad_fails s skb entry : packet_ok skb → pad_fails s skb = true → xmit_packet conf skb entry s = None.
Proof.
  intros [Hl _ _ _ Ho] Hpad. unfold xmit_packet, bind at 1. rewrite tso_csum_pad_fails by done.
  unfold err_dma_0, kfree_skb, bind, modify, gets, id, ub. simpl. by rewrite decide_True by (apply elem_of_app; right; apply list_elem_of_here).
Qed.
Lemma xmit_fill_pad_fails s D q skb : tx_inv s D q → packet_ok skb → pad_fails s skb = true →
  xmit_fill conf skb s = if (MAX_SKB_FRAGS <? free_slots s q) && head_free s then None else Some (FBusy, q_dropped (q_stopped true s)).
Proof. intros Hi Hok Hpad. rewrite (xmit_fill_eq s D q) by done. by rewrite xmit_packet_pad_fails. Qed.

(** ** Releasing *)
Definition owned (x : slot) : bool := negb (Z.land (sl_opts1 x) DescOwn =? 0).
Definition total_len (xs : list slot) : Z := foldr Z.add 0 (sl_len <$> xs).
Lemma total_len_cons x xs : total_len (x :: xs) = sl_len x + total_len xs.
Proof. done. Qed.
(** How many of the first [n] slots the loop releases. *)
Fixpoint releasable (n : nat) (xs : list slot) : nat :=
  match n, xs with
  | S n', x :: xs' => if negb (EnableTxNoClose conf) && owned x then O else S (releasable n' xs')
  | _, _ => O
  end.

Lemma releasable_le n xs : (releasable n xs ≤ n)%nat ∧ (releasable n xs ≤ length xs)%nat.
Proof.
  revert xs. induction n as [|n IH]; intros [|x xs]; simpl; try lia. destruct (_ && _); [lia|]. destruct (IH xs). lia.
Qed.
Lemma releasable_all n xs : EnableTxNoClose conf = true → (n ≤ length xs)%nat → releasable n xs = n.
Proof. intros E. revert xs. induction n as [|n IH]; intros [|x xs] Hn; simpl in *; try lia. rewrite E. simpl. f_equal. apply IH. lia. Qed.

Definition release_post (s : txq) (D : Z) (xs : list slot) (rest : window) (k : nat) (s' : txq) : Prop :=
  frame s s' ∧ tq_freed s' = tq_freed s ++ queued (take k xs) ∧
  view s' (D + Z.of_nat k) (busy (drop k xs) ++ rest ++ replicate k None) ∧
  u32 (st_tx_packets s') = u32 (st_tx_packets s + Z.of_nat k) ∧ u32 (st_tx_bytes s') = u32 (st_tx_bytes s + total_len (take k xs)).

Lemma u32_add a b c : u32 a = u32 b → u32 (a + c) = u32 (b + c).
Proof. apply mod_add_congr. Qed.

Lemma release_one_wp s D x xs rest (Q : Z → txq → Prop) (n : nat) :
  pad_clean s → view s D (busy (x :: xs) ++ rest) →
  (∀ s', release_post s D (x :: xs) rest 1 s' → wp (intr_loop conf n (u32 (u32 D + 1))) Q s') →
  wp (let entry := Z.of_nat (entry_of (num_tx_desc (txr s)) D 0) in
      let* info := get_info entry in
      modify (q_sent (ri_len info)) ;;
      rtl8125_unmap_tx_skb entry ;;
      let* i := get_info entry in
      match ri_skb i with Some skb => kfree_skb skb ;; set_info entry (RInfo None (ri_len i)) | None => ret tt end ;;
      intr_loop conf n (u32 (u32 D + 1))) Q s.
Proof.
  intros Hpc Hv HQ. cbv zeta. assert (H0 : (busy (x :: xs) ++ rest) !! 0%nat = Some (Some x)) by done.
  unfold get_info, set_info. wp_steps. rewrite Nat2Z.id.
  eapply wp_lift_opt; [by apply (slot_info _ _ _ _ _ Hv H0)|]. wp_steps. simpl.
  eapply (unmap_wp (q_sent (sl_len x) s)); [by apply (view_ext s)|exact H0|]. intros s1 d Hf Hfr Hpk Hby Hm Er. simpl in Er.
  destruct (entry_lt s D 0 (v_wf _ _ _ Hv)) as [Hd Hn]. wp_steps. unfold id. rewrite Er. simpl.
  eapply wp_lift_opt; [by apply list_lookup_insert_eq|]. wp_step. simpl.
  assert (A : ∀ s2, frame s1 s2 → tq_freed s2 = tq_freed s ++ queued [x] → tq_mapped s2 ≡ₚ maps (None :: busy xs ++ rest) →
    st_tx_packets s2 = st_tx_packets s1 → st_tx_bytes s2 = st_tx_bytes s1 →
    txr s2 = r_infos (<[entry_of (num_tx_desc (txr s)) D 0 := RInfo None 0]> (tx_skb (txr s))) (r_descs (<[entry_of (num_tx_desc (txr s)) D 0 := d]> (TxDescArray (txr s))) (txr s)) →
    release_post s D (x :: xs) rest 1 s2).
  { intros s2 Hf2 Hfr2 Hm2 Hp2 Hb2 Er2. split; [etrans; [|exact Hf2]; etrans; [|exact Hf]; by split|]. split; [done|]. split.
    - assert (Hv2 : view s2 D (<[0%nat := None]> (busy (x :: xs) ++ rest))) by by eapply slot_freed.
      simpl in Hv2. rewrite view_rotate in Hv2. by rewrite <- app_assoc in Hv2.
    - rewrite Hp2, Hb2, Hpk, Hby. simpl. unfold total_len. simpl. rewrite Z.add_0_r. unfold u32. by rewrite !Zmod_mod. }
  unfold sl_id in A. unfold queued in A. simpl in A. destruct (sl_skb x) as [skb|] eqn:Ek.
  - wp_steps. apply kfree_skb_wp; [exact (pad_clean_frame _ _ Hf Hpc)|]. wp_steps. apply HQ, A; [|simpl; unfold sl_id; rewrite Ek; simpl; by rewrite Hfr|exact Hm|done|done|].
    + destruct Hf. split; simpl; try done; by rewrite Er.
    + simpl. rewrite Er. unfold r_infos, r_descs. simpl. by rewrite list_insert_insert_eq.
  - wp_steps. apply HQ, A; [done| |exact Hm|done|done|done]. unfold sl_id. rewrite Ek. simpl. by rewrite Hfr, app_nil_r.
Qed.

Lemma intr_loop_wp n : ∀ s D xs rest, (n ≤ length xs)%nat → pad_clean s → view s D (busy xs ++ rest) →
  wp (intr_loop conf n (u32 D)) (λ d s', d = u32 (D + Z.of_nat (releasable n xs)) ∧ release_post s D xs rest (releasable n xs) s') s.
Proof.
  assert (Z0 : ∀ s D xs rest, view s D (busy xs ++ rest) → u32 D = u32 (D + Z.of_nat 0) ∧ release_post s D xs rest 0 s).
  { intros s D xs rest Hv. rewrite Z.add_0_r. split; [done|]. split; [done|]. unfold total_len. simpl.
    rewrite !app_nil_r, !Z.add_0_r. auto. }
  induction n as [|n IH]; intros s D xs rest Hn Hpc Hv; simpl; [wp_steps; by apply Z0|].
  destruct xs as [|x xs]; [simpl in Hn; lia|]. wp_step.
  eapply (ring_entry_wp _ _ D 0); [apply Hv|rewrite u32_entry by apply Hv; f_equal; lia|].
  unfold get_desc. wp_steps. rewrite Nat2Z.id. pose proof (v_at _ _ _ Hv 0%nat _ eq_refl) as (_ & _ & Hd).
  eapply wp_lift_opt; [done|]. simpl. fold (owned x). destruct (_ && _) eqn:Eo; [wp_steps; by apply Z0|].
  eapply release_one_wp; [done|done|]. intros s1 (Hf & Hfr & Hv1 & Hp & Hb). simpl in *.
  replace (u32 (u32 D + 1)) with (u32 (D + 1)) by (unfold u32; by rewrite Zplus_mod_idemp_l).
  eapply wp_mono; [apply (IH _ _ xs (rest ++ [None])); [lia|by apply (pad_clean_frame s)|done]|].
  intros d s2 (-> & Hf2 & Hfr2 & Hv2 & Hp2 & Hb2). split; [f_equal; lia|].
  split; [by etrans|]. split; [by rewrite Hfr2, Hfr, <- app_assoc, <- queued_app|].
  split; [rewrite <- app_assoc in Hv2; by replace (D + 1 + Z.of_nat (releasable n xs)) with (D + Z.of_nat (S (releasable n xs))) in Hv2 by lia|].
  split.
  - rewrite Hp2. etrans; [apply u32_add; exact Hp|]. f_equal. lia.
  - rewrite Hb2. etrans; [apply u32_add; exact Hb|]. rewrite !total_len_cons.
    rewrite firstn_cons, total_len_cons. change (total_len (take 0 xs)) with 0. f_equal. lia.
Qed.

Lemma u32_same_count D k : 0 ≤ k ≤ MAX_NUM_TX_DESC → u32 D = u32 (D + k) → k = 0.
Proof.
  unfold MAX_NUM_TX_DESC. intros Hk E. assert (E' : (D + k - D) mod 2 ^ 32 = 0).
  { rewrite Zminus_mod. unfold u32 in E. by rewrite <- E, Z.sub_diag. }
  replace (D + k - D) with k in E' by lia. rewrite Z.mod_small in E'; lia.
Qed.

Definition released (s : txq) (D : Z) (q : list slot) (k : nat) (s' : txq) : Prop :=
  tx_inv s' (D + Z.of_nat k) (drop k q) ∧ frame (q_ring (r_dirty (u32 (D + Z.of_nat k))) s) s' ∧
  tq_freed s' = tq_freed s ++ queued (take k q) ∧
  u32 (st_tx_packets s') = u32 (st_tx_packets s + Z.of_nat k) ∧ u32 (st_tx_bytes s') = u32 (st_tx_bytes s + total_len (take k q)).

Lemma intr_release_wp s D q n : tx_inv s D q → 0 ≤ n ≤ Z.of_nat (length q) →
  wp (intr_release conf n) (λ c s', c = Z.of_nat (releasable (Z.to_nat n) q) ∧ released s D q (releasable (Z.to_nat n) q) s') s.
Proof.
  intros Hi Hn. pose proof (ti_room _ _ _ Hi) as Hroom. unfold intr_release. wp_steps. unfold id. rewrite (ti_dirty _ _ _ Hi).
  eapply wp_mono; [eapply intr_loop_wp; [|apply Hi|apply Hi]; lia|]. intros d s1 (-> & Hf & Hfr & Hv & Hp & Hb).
  destruct (releasable_le (Z.to_nat n) q) as [Hk1 Hk2]. set (k := releasable _ _) in *. clearbody k.
  assert (Hfree : (Z.to_nat (num_tx_desc (txr s)) - length (drop k q) = Z.to_nat (num_tx_desc (txr s)) - length q + k)%nat)
    by (rewrite length_drop; lia).
  assert (Hinv : ∀ s2, txr s2 = r_dirty (u32 (D + Z.of_nat k)) (txr s1) → tq_mapped s2 = tq_mapped s1 → tq_pad_freed s2 = tq_pad_freed s1 → tx_inv s2 (D + Z.of_nat k) (drop k q)).
  { intros s2 Er Em Ep. split; [rewrite Er; simpl|rewrite Er; simpl; done|rewrite Er; simpl|].
    - rewrite (fr_num _ _ Hf), Hfree, replicate_add. destruct Hv as [Hwf Hl Hat Hm]. split; rewrite ?Er, ?Em; done.
    - rewrite (fr_cur _ _ Hf), (ti_cur _ _ _ Hi), length_drop. f_equal. lia.
    - pose proof (pad_clean_frame _ _ Hf (ti_pad _ _ _ Hi)). unfold pad_clean in *. congruence. }
  destruct (u32 D =? _) eqn:E.
  - apply Z.eqb_eq, u32_same_count in E; [|lia]. assert (k = 0%nat) as -> by lia. wp_steps. split; [done|].
    assert (Er : txr s1 = r_dirty (u32 (D + Z.of_nat 0)) (txr s1)).
    { rewrite Z.add_0_r, <- (ti_dirty _ _ _ Hi), <- (fr_dirty _ _ Hf). by destruct (txr s1). }
    split; [by apply Hinv|]. split; [|done]. rewrite Z.add_0_r, <- (ti_dirty _ _ _ Hi). destruct Hf. split; simpl; done.
  - wp_steps. split; [|split; [by apply Hinv|split; [|done]]].
    + unfold u32. rewrite Zminus_mod_idemp_r, Zminus_mod_idemp_l. unfold MAX_NUM_TX_DESC in *.
      replace (D + Z.of_nat k - D) with (Z.of_nat k) by lia. rewrite Z.mod_small; lia.
    + destruct Hf. split; simpl; done.
Qed.

Lemma view_free s D D' n : view s D (replicate n None) → view s D' (replicate n None).
Proof.
  intros [Hwf Hl Hat Hm]. split; [done|done| |done]. intros i o Hi. rewrite length_replicate in Hl.
  apply lookup_replicate in Hi as [-> Hi]. pose proof (size_pos _ (proj1 Hwf)).
  set (j := Z.to_nat ((D' + Z.of_nat i - D) mod num_tx_desc (txr s))).
  assert (Hj : (j < n)%nat) by (pose proof (Z.mod_pos_bound (D' + Z.of_nat i - D) (num_tx_desc (txr s)) ltac:(lia)); lia).
  replace (entry_of (num_tx_desc (txr s)) D' i) with (entry_of (num_tx_desc (txr s)) D j); [apply Hat; by apply lookup_replicate|].
  unfold entry_of. f_equal. unfold j. rewrite Z2Nat.id by (apply Z.mod_pos_bound; lia).
  rewrite Zplus_mod_idemp_r. f_equal. lia.
Qed.

Lemma tx_clear_wp s D q : tx_inv s D q →
  wp rtl8125_tx_clear (λ _ s', tx_inv s' 0 [] ∧ tq_freed s' = tq_freed s ++ queued q ∧ tq_mapped s' = [] ∧
    frame (q_ring (λ r, r_dirty 0 (r_cur 0 r)) s) s') s.
Proof.
  intros Hi. pose proof (ti_room _ _ _ Hi) as Hroom. unfold rtl8125_tx_clear. wp_steps. unfold id.
  set (w := busy q ++ replicate (Z.to_nat (num_tx_desc (txr s)) - length q) None).
  assert (Hw : Z.of_nat (length w) = num_tx_desc (txr s)) by apply Hi.
  eapply wp_mono; [apply (clear_range_wp s D [] w []); [apply Hi|rewrite app_nil_r; apply Hi|done|]|].
  { rewrite (ti_dirty _ _ _ Hi), u32_entry by apply Hi. f_equal. simpl. lia. }
  intros _ s1 (Hf & Hfr & Hv). wp_steps. simpl in Hv. rewrite app_nil_r in Hv.
  assert (Em : tq_mapped s1 = []) by (apply Permutation_nil; symmetry; rewrite <- (maps_free (length w)); apply Hv).
  apply (view_free _ _ 0) in Hv.
  split; [|split; [|split; [done|]]].
  - split; simpl; [|done|done|apply (pad_clean_frame _ _ Hf), Hi]. rewrite Nat.sub_0_r, (fr_num _ _ Hf), <- Hw, Nat2Z.id.
    destruct Hv as [Hwf Hl Hat Hm]. by split.
  - simpl. rewrite Hfr. subst w. by rewrite ids_app, ids_free, app_nil_r.
  - destruct Hf. by split.
Qed.

(** The state in which the driver sets the ring up. *)
Definition tx_allocated (s : txq) : Prop := ring_wf (txr s) ∧ tq_mapped s = [] ∧ pad_clean s.

Lemma tx_init_wp s : tx_allocated s →
  wp rtl8125_tx_init_ring (λ _ s', tx_inv s' 0 [] ∧ BeginHwDesCloPtr (txr s') = 0 ∧ tq_freed s' = tq_freed s ∧
    num_tx_desc (txr s') = num_tx_desc (txr s) ∧ tq_stopped s' = tq_stopped s) s.
Proof.
  intros (Hwf & Em & Hpc). pose proof (size_pos _ (proj1 Hwf)) as Hpos. pose proof Hwf as (Hsize & Hld & Hli); pose proof Hsize as [[_ Hmax] _].
  unfold rtl8125_tx_init_ring, rtl8125_init_ring_indexes, rtl8125_tx_desc_init, get_desc, set_desc. wp_steps. unfold id. simpl.
  eapply wp_lift_opt; [apply lookup_replicate; split; [done|]|].
  { unfold u32, MAX_NUM_TX_DESC in *. rewrite Z.mod_small; lia. }
  wp_steps. simpl. split; [|done]. split; [|done|done|done]. simpl. rewrite Nat.sub_0_r.
  assert (Hwf' : ∀ r', num_tx_desc r' = num_tx_desc (txr s) → length (TxDescArray r') = length (TxDescArray (txr s)) →
     length (tx_skb r') = length (tx_skb (txr s)) → ring_wf r').
  { intros r' E1 E2 E3. unfold ring_wf. by rewrite E1, E2, E3. }
  split; simpl.
  - apply Hwf'; simpl; by rewrite ?length_insert, ?length_replicate.
  - rewrite length_replicate. lia.
  - intros i o Hi. apply lookup_replicate in Hi as [-> Hi]. simpl. apply lookup_replicate. split; [done|].
    pose proof (entry_bound _ Hsize 0 i) as Hb. simpl. lia.
  - by rewrite Em, maps_free.
Qed.
End operations.
