(* ===== verification/R8125TxThms.v ===== *)
(** * The transmit ring: properties

    The transmit path and the interrupt interleaved piece by piece, with the
    chip closing descriptors in between; what one packet does; what an
    interrupt releases. Memory is sequentially consistent here, which the
    barriers of the code are there for. *)
From stdpp Require Import base tactics list numbers.
From Stdlib Require Import ZArith Lia.
From S2P Require Import Prelude IossUtils RtlLib R8125Tx R8125TxSpec.

(** ** Interleavings *)
(** Where the two threads of a queue are: the sender (one at a time, the
    kernel holds the queue's lock) and the poll of its vector. *)
Inductive xpc := XIdle | XFilled | XKnown (stop : bool) | XStopped (stop : bool) | XRung (stop : bool).
Inductive ipc := IIdle | ILeft (n : Z) | IClosed (n : Z) | IDone (count : Z).
(** [s_given]: the packets that [start_xmit] has taken. *)
Record sys := Sys { sq : txq; sx : xpc; si : ipc; s_given : list Z }.

Inductive event :=
  | EvXmit (skb : sk_buff) | EvWant | EvStop | EvRing | EvCheck
  | EvLeft | EvClosed | EvRelease | EvWake
  | EvHwClose | EvHwOpts (opts : list Z).

(** What the chip's tail pointer register holds. *)
Definition tail_ptr (q : txq) : Z :=
  foldl (λ t w, if w.1 =? tr_sw_tail_ptr_reg (txr q) then w.2 else t) 0 (tq_writes q).

(** The chip rewrites the first words of the descriptors. *)
Definition hw_opts (opts : list Z) (q : txq) : txq :=
  q_ring (λ r, r_descs (imap (λ e d, TxD (default (td_opts1 d) (opts !! e)) (td_opts2 d) (td_addr d)) (TxDescArray r)) r) q.

Section system.
Context `{TxApi} (conf : txconf).
Abbreviation busy xs := (Some <$> xs).

Definition run_q {A} (m : M txq A) (k : A → txq → sys) (s : sys) : option sys :=
  match m (sq s) with Some (a, q) => Some (k a q) | None => None end.
(** One piece; [None] is undefined behaviour, and an event that is not to
    happen in [s] does nothing. The kernel does not call [start_xmit] while the
    queue is stopped; the chip closes no descriptor past the tail pointer. *)
Definition ev_step (e : event) (s : sys) : option sys :=
  match e, sx s, si s with
  | EvXmit skb, XIdle, i =>
      if tq_stopped (sq s) then Some s else
      run_q (xmit_fill conf skb) (λ r q,
        match r with
        | FBusy => Sys q XIdle i (s_given s)
        | FDropped => Sys q XIdle i (s_given s ++ [sk_id skb])
        | FQueued => Sys q XFilled i (s_given s ++ [sk_id skb])
        end) s
  | EvWant, XFilled, i => run_q xmit_want_stop (λ b q, Sys q (XKnown b) i (s_given s)) s
  | EvStop, XKnown b, i => run_q (xmit_stop b) (λ _ q, Sys q (XStopped b) i (s_given s)) s
  | EvRing, XStopped b, i => run_q (xmit_doorbell conf) (λ _ q, Sys q (XRung b) i (s_given s)) s
  | EvCheck, XRung b, i => run_q (xmit_recheck b) (λ _ q, Sys q XIdle i (s_given s)) s
  | EvLeft, x, IIdle => run_q intr_left (λ n q, Sys q x (ILeft n) (s_given s)) s
  | EvClosed, x, ILeft n => run_q (intr_closed conf n) (λ n q, Sys q x (IClosed n) (s_given s)) s
  | EvRelease, x, IClosed n => run_q (intr_release conf n) (λ c q, Sys q x (IDone c) (s_given s)) s
  | EvWake, x, IDone c => run_q (intr_wake conf c) (λ _ q, Sys q x IIdle (s_given s)) s
  | EvHwClose, x, i =>
      if EnableTxNoClose conf && negb (tq_hw_clo (sq s) =? tail_ptr (sq s))
      then Some (Sys (q_hw (u16 (tq_hw_clo (sq s) + 1)) (sq s)) x i (s_given s)) else Some s
  | EvHwOpts opts, x, i =>
      if EnableTxNoClose conf then Some s else Some (Sys (hw_opts opts (sq s)) x i (s_given s))
  | _, _, _ => Some s
  end.
Fixpoint run (es : list event) (s : sys) : option sys :=
  match es with [] => Some s | e :: es' => match ev_step e s with Some s' => run es' s' | None => None end end.

(** ** The invariant *)
Definition avail (q : txq) (xs : list slot) : Prop := MAX_SKB_FRAGS < free_slots q xs.

(** The interrupt has counted no more than there is. *)
Definition left_ok (i : ipc) (xs : list slot) : Prop :=
  match i with ILeft n | IClosed n => 0 ≤ n ≤ Z.of_nat (length xs) | _ => True end.

(** A queue that is awake has slots whenever the next packet may come; one that
    is stopped and has slots is about to be woken. *)
Definition wake_ok (s : sys) (xs : list slot) : Prop :=
  match sx s with
  | XIdle => tq_stopped (sq s) = false → avail (sq s) xs
  | XFilled | XKnown true => tq_stopped (sq s) = false
  | XKnown false | XStopped false | XRung false => tq_stopped (sq s) = false ∧ avail (sq s) xs
  | XStopped true | XRung true => tq_stopped (sq s) = false → avail (sq s) xs
  end ∧
  (tq_stopped (sq s) = true → avail (sq s) xs →
   sx s = XStopped true ∨ sx s = XRung true ∨ ∃ c, c ≠ 0 ∧ si s = IDone c).

(** The counts behind the pointers: released, seen closed, closed, told; and
    the slots in flight. *)
Record ghost := Ghost { gD : Z; gB : Z; gN : Z; gT : Z; gxs : list slot }.
Definition clo_ok (s : sys) (g : ghost) : Prop :=
  gD g ≤ gB g ≤ gN g ∧ gN g ≤ gT g ≤ gD g + Z.of_nat (length (gxs g)) ∧
  BeginHwDesCloPtr (txr (sq s)) = u16 (gB g) ∧ tq_hw_clo (sq s) = u16 (gN g) ∧ tail_ptr (sq s) = u16 (gT g) ∧
  match si s with IClosed n => gD g + n ≤ gB g | _ => True end.

Record sys_inv (s : sys) (g : ghost) : Prop := SysInv {
  sv_ring : tx_inv (sq s) (gD g) (gxs g);
  sv_given : s_given s ≡ₚ tq_freed (sq s) ++ queued (gxs g);
  sv_left : left_ok (si s) (gxs g);
  sv_wake : EnableTxNoClose conf = true → wake_ok s (gxs g);
  sv_clo : EnableTxNoClose conf = true → clo_ok s g }.

(** What was closed and will not be released: seen closed, less what is
    released or about to be. *)
Definition glag (s : sys) (g : ghost) : Z := gB g - gD g - match si s with IClosed n => n | _ => 0 end.

Definition ev_ok (e : event) : Prop := match e with EvXmit skb => packet_ok conf skb | _ => True end.

(** The queue as [rtl8125_tx_init_ring] leaves it, awake, with the chip reset. *)
Definition fresh (s : sys) : Prop :=
  tx_inv (sq s) 0 [] ∧ BeginHwDesCloPtr (txr (sq s)) = 0 ∧ tq_hw_clo (sq s) = 0 ∧ tq_writes (sq s) = [] ∧
  tq_stopped (sq s) = false ∧ tq_freed (sq s) = [] ∧ sx s = XIdle ∧ si s = IIdle ∧ s_given s = [].

Lemma fresh_inv s : fresh s → sys_inv s (Ghost 0 0 0 0 []).
Proof.
  intros (Hi & Hb & Hc & Hw & Hs & Hf & Hx & Hsi & Hg). destruct (ti_wf _ _ _ Hi) as ([[Hmin _] _] & _).
  split; [done|by rewrite Hg, Hf|by rewrite Hsi| |].
  - intros _. split; rewrite Hx.
    + intros _. unfold avail, free_slots, MAX_SKB_FRAGS. simpl. lia.
    + by rewrite Hs.
  - intros _. unfold clo_ok, tail_ptr. rewrite Hb, Hc, Hw, Hsi. done.
Qed.

(** ** Steps *)
Lemma run_q_spec {A} (m : M txq A) (Q : A → txq → Prop) k s (P : sys → Prop) :
  wp m Q (sq s) → (∀ a q, Q a q → P (k a q)) → ∃ s', run_q m k s = Some s' ∧ P s'.
Proof. intros Hw HP. apply wp_elim in Hw as (a & q & E & HQ). unfold run_q. rewrite E. eauto. Qed.

(** A step that keeps the invariant, and no lag is made up. *)
Definition kept (s : sys) (g : ghost) (s' : sys) : Prop :=
  ∃ g', sys_inv s' g' ∧ (EnableTxNoClose conf = true → glag s g ≤ glag s' g').

Lemma tail_frame s s' : tr_sw_tail_ptr_reg (txr s') = tr_sw_tail_ptr_reg (txr s) → tq_writes s' = tq_writes s → tail_ptr s' = tail_ptr s.
Proof. unfold tail_ptr. by intros -> ->. Qed.

Lemma free_slots_eq q q' xs : num_tx_desc (txr q') = num_tx_desc (txr q) → free_slots q' xs = free_slots q xs.
Proof. unfold free_slots. by intros ->. Qed.

Lemma run_q_eq {A} (m : M txq A) k s a q (P : sys → Prop) :
  m (sq s) = Some (a, q) → P (k a q) → ∃ s', run_q m k s = Some s' ∧ P s'.
Proof. intros E HP. unfold run_q. rewrite E. eauto. Qed.

(** Pieces that leave the ring alone. *)
Definition availb (q : txq) (xs : list slot) : bool := MAX_SKB_FRAGS <? free_slots q xs.
Lemma availb_true q xs : availb q xs = true ↔ avail q xs.
Proof. apply Z.ltb_lt. Qed.

Lemma slots_avail_eq q D xs : tx_inv q D xs → rtl8125_tx_slots_avail q = Some (availb q xs, q).
Proof. intros Hi. unfold rtl8125_tx_slots_avail, bind, gets, ret, id. by rewrite (slots_unsigned _ _ _ Hi). Qed.
Lemma want_eq q D xs : tx_inv q D xs → xmit_want_stop q = Some (negb (availb q xs), q).
Proof. intros Hi. unfold xmit_want_stop, bind. by rewrite (slots_avail_eq _ _ _ Hi). Qed.
Lemma stop_eq b q : xmit_stop b q = Some (tt, if b then q_stopped true q else q).
Proof. by destruct b. Qed.
Lemma recheck_eq b q D xs : tx_inv q D xs → xmit_recheck b q = Some (tt, if b && availb q xs then q_stopped false q else q).
Proof. intros Hi. destruct b; [|done]. unfold xmit_recheck, bind. rewrite (slots_avail_eq _ _ _ Hi). by destruct (availb q xs). Qed.
Lemma doorbell_eq q : xmit_doorbell conf q = Some (tt, q_write
  (if EnableTxNoClose conf then (tr_sw_tail_ptr_reg (txr q), u16 (cur_tx (txr q) mod MAX_TX_NO_CLOSE_DESC_PTR_V2))
   else (TPPOLL_8125, u16 (Z.shiftl 1 (tr_index (txr q))))) q).
Proof. unfold xmit_doorbell, bind, gets, id. by destruct (EnableTxNoClose conf). Qed.

Lemma step_want s g : sys_inv s g → sx s = XFilled →
  ∃ s', run_q xmit_want_stop (λ b q, Sys q (XKnown b) (si s) (s_given s)) s = Some s' ∧ kept s g s'.
Proof.
  intros [Hr Hg Hl Hw Hc] Hx. eapply run_q_eq; [by eapply want_eq|]. exists g. split; [|done]. split; [done..| |done].
  intros E. destruct (Hw E) as [H1 H2]. unfold wake_ok in *. rewrite Hx in *. simpl. split; [|intros E2; by rewrite H1 in E2].
  destruct (availb _ _) eqn:Ef; simpl; [|done]. split; [done|by apply availb_true].
Qed.

Lemma step_stop s g b : sys_inv s g → sx s = XKnown b →
  ∃ s', run_q (xmit_stop b) (λ _ q, Sys q (XStopped b) (si s) (s_given s)) s = Some s' ∧ kept s g s'.
Proof.
  intros [Hr Hg Hl Hw Hc] Hx. eapply run_q_eq; [apply stop_eq|]. exists g. split; [|by destruct b].
  split; [destruct b; [by apply (inv_ext (sq s))|done]|by destruct b|done| |by destruct b].
  intros E. destruct (Hw E) as [H1 H2]. unfold wake_ok in *. rewrite Hx in *. destruct b; simpl.
  - split; [done|]. by left.
  - destruct H1 as [H1 H1']. split; [done|]. by rewrite H1.
Qed.

Lemma step_check s g b : sys_inv s g → sx s = XRung b →
  ∃ s', run_q (xmit_recheck b) (λ _ q, Sys q XIdle (si s) (s_given s)) s = Some s' ∧ kept s g s'.
Proof.
  intros [Hr Hg Hl Hw Hc] Hx. eapply run_q_eq; [by eapply recheck_eq|]. exists g.
  set (q' := if b && _ then _ else _). assert (Er : txr q' = txr (sq s)) by (unfold q'; by destruct (b && _)).
  split; [|done]. split; simpl.
  - apply (inv_ext (sq s)); [done|unfold q'; by destruct (b && _)..|done].
  - unfold q'. by destruct (b && _).
  - done.
  - intros E. destruct (Hw E) as [H1 H2]. unfold wake_ok in *. rewrite Hx in *. simpl.
    unfold avail. rewrite (free_slots_eq (sq s) q') by by rewrite Er. unfold q'.
    destruct b; simpl.
    + destruct (availb (sq s) (gxs g)) eqn:Ef; simpl.
      * apply availb_true in Ef. done.
      * assert (Hn : ¬ avail (sq s) (gxs g)) by (rewrite <- availb_true; by rewrite Ef). split; [done|]. intros ? Ha. by destruct Hn.
    + destruct H1 as [H1 H1']. split; [done|]. by rewrite H1.
  - intros E. destruct (Hc E) as (H1 & H2 & H3 & H4 & H5 & H6). unfold clo_ok. simpl. rewrite Er.
    split; [done|]. split; [done|]. unfold q'. by destruct (b && _).
Qed.

Lemma step_ring s g b : sys_inv s g → sx s = XStopped b →
  ∃ s', run_q (xmit_doorbell conf) (λ _ q, Sys q (XRung b) (si s) (s_given s)) s = Some s' ∧ kept s g s'.
Proof.
  intros [Hr Hg Hl Hw Hc] Hx. eapply run_q_eq; [apply doorbell_eq|].
  exists (Ghost (gD g) (gB g) (gN g) (gD g + Z.of_nat (length (gxs g))) (gxs g)). split; [|done].
  split; [by apply (inv_ext (sq s))|done..| |].
  - intros E. specialize (Hw E). unfold wake_ok in *. rewrite Hx in Hw. simpl. destruct Hw as [H1 H2]. destruct b; (split; [done|]).
    + intros Hs Ha. right. by left.
    + intros Hs. destruct H1 as [H1 _]. by rewrite H1 in Hs.
  - intros E. destruct (Hc E) as (H1 & H2 & H3 & H4 & H5 & H6). unfold clo_ok. simpl.
    split; [done|]. split; [lia|]. split; [done|]. split; [done|]. split; [|done].
    rewrite E. unfold tail_ptr. simpl. rewrite foldl_app. simpl. rewrite Z.eqb_refl, (ti_cur _ _ _ Hr).
    unfold u16, u32, MAX_TX_NO_CLOSE_DESC_PTR_V2. change 0x10000 with (2 ^ 16). rewrite Zmod_mod. apply Z.mod_mod_divide.
    exists (2 ^ 16). done.
Qed.

Lemma left_eq q D xs : tx_inv q D xs → intr_left q = Some (Z.of_nat (length xs), q).
Proof.
  intros Hr. unfold intr_left, bind, gets, ret, id. do 2 f_equal.
  rewrite (ti_cur _ _ _ Hr), (ti_dirty _ _ _ Hr). unfold u32. rewrite <- Zminus_mod. pose proof (ti_room _ _ _ Hr). unfold MAX_NUM_TX_DESC in *.
  replace (D + Z.of_nat (length xs) - D) with (Z.of_nat (length xs)) by lia. rewrite Z.mod_small; lia.
Qed.

(** The close pointers, [B] to [N]. *)
Lemma closed_eq q B N n : EnableTxNoClose conf = true → BeginHwDesCloPtr (txr q) = u16 B → tq_hw_clo q = u16 N →
  0 ≤ N - B < 2 ^ 16 → intr_closed conf n q = Some (Z.min n (N - B), q_ring (r_clo (u16 N) (u16 N)) q).
Proof.
  intros E H1 H2 Hb. unfold intr_closed, bind, gets, modify, id. rewrite E, H1, H2.
  assert (Ec : rtl8125_fast_mod (u32 (u16 (u16 N) - u16 B)) MAX_TX_NO_CLOSE_DESC_PTR_V2 = N - B).
  { unfold rtl8125_fast_mod, MAX_TX_NO_CLOSE_DESC_PTR_V2. change 0x10000 with (2 ^ 16).
    assert (Em : u32 (u16 (u16 N) - u16 B) mod 2 ^ 16 = N - B).
    { unfold u32. rewrite Z.mod_mod_divide by (by exists (2 ^ 16)). unfold u16. rewrite Zmod_mod, <- Zminus_mod. by apply Z.mod_small. }
    destruct (_ <=? _) eqn:El; [done|]. apply Z.leb_gt in El. rewrite <- Em. symmetry. apply Z.mod_small. split; [|done]. apply Z.mod_pos_bound. lia. }
  rewrite Ec. unfold ret. replace (u16 (u16 N)) with (u16 N) by (unfold u16; by rewrite Zmod_mod). do 2 f_equal.
  destruct (_ <? n) eqn:El; [apply Z.ltb_lt in El|apply Z.ltb_ge in El]; lia.
Qed.
Lemma inv_clo q D xs a b : tx_inv q D xs → tx_inv (q_ring (r_clo a b) q) D xs.
Proof. intros [[Hwf Hlen Hat Hm] Hd Hc Hp]. split; [split|..]; done. Qed.

Lemma step_left s g : sys_inv s g → si s = IIdle →
  ∃ s', run_q intr_left (λ n q, Sys q (sx s) (ILeft n) (s_given s)) s = Some s' ∧ kept s g s'.
Proof.
  intros [Hr Hg Hl Hw Hc] Hx. eapply run_q_eq; [by eapply left_eq|]. exists g.
  split; [split; simpl; [done|done|lia| |]|].
  - intros E. destruct (Hw E) as [H1 H2]. split; [done|]. simpl. intros Hs Ha. destruct (H2 Hs Ha) as [H3|[H3|(c & _ & H3)]]; [by left|by right; left|].
    by rewrite Hx in H3.
  - intros E. destruct (Hc E) as (H1 & H2 & H3 & H4 & H5 & H6). done.
  - intros _. unfold glag. by rewrite Hx.
Qed.

Lemma step_closed s g n : sys_inv s g → si s = ILeft n →
  ∃ s', run_q (intr_closed conf n) (λ n q, Sys q (sx s) (IClosed n) (s_given s)) s = Some s' ∧ kept s g s'.
Proof.
  intros [Hr Hg Hl Hw Hc] Hx. rewrite Hx in Hl. simpl in Hl.
  destruct (EnableTxNoClose conf) eqn:E.
  2: { eapply run_q_eq; [unfold intr_closed, bind, gets; by rewrite E|]. exists g. split; [|by rewrite E]. split; simpl; try done; by rewrite E. }
  destruct (Hc eq_refl) as (H1 & H2 & H3 & H4 & H5 & H6). specialize (Hw eq_refl).
  pose proof (ti_room _ _ _ Hr) as Hroom. unfold MAX_NUM_TX_DESC in *.
  eapply run_q_eq; [apply (closed_eq _ (gB g) (gN g)); [done..|lia]|].
  exists (Ghost (gD g) (gN g) (gN g) (gT g) (gxs g)). split; [split; simpl; [|done|lia| |]|].
  - by apply inv_clo.
  - intros _. destruct Hw as [Hw1 Hw2]. split; [done|]. simpl. intros Hs Ha. destruct (Hw2 Hs Ha) as [Hw3|[Hw3|(c & _ & Hw3)]]; [by left|by right; left|].
    by rewrite Hx in Hw3.
  - intros _. unfold clo_ok. simpl. split; [lia|]. split; [lia|]. split; [done|]. split; [done|]. split; [done|]. lia.
  - intros _. unfold glag. simpl. rewrite Hx. lia.
Qed.

Lemma tail_of s s' : frame s s' → tail_ptr s' = tail_ptr s.
Proof. intros []. by apply tail_frame. Qed.

Lemma avail_drop q q' xs k : num_tx_desc (txr q') = num_tx_desc (txr q) → avail q xs → avail q' (drop k xs).
Proof. unfold avail, free_slots. intros ->. rewrite length_drop. lia. Qed.

Lemma step_release s g n : sys_inv s g → si s = IClosed n →
  ∃ s', run_q (intr_release conf n) (λ c q, Sys q (sx s) (IDone c) (s_given s)) s = Some s' ∧ kept s g s'.
Proof.
  intros [Hr Hg Hl Hw Hc] Hx. rewrite Hx in Hl. simpl in Hl. eapply run_q_spec; [by eapply intr_release_wp|].
  intros c q' [-> (Hi & Hf & Hfr & _)]. set (k := releasable _ _ _) in *.
  assert (En : num_tx_desc (txr q') = num_tx_desc (txr (sq s))) by apply Hf.
  assert (Es : tq_stopped q' = tq_stopped (sq s)) by apply Hf.
  exists (Ghost (gD g + Z.of_nat k) (gB g) (gN g) (gT g) (drop k (gxs g))). split; [split; simpl; [done| |done| |]|].
  - rewrite Hg, Hfr, <- app_assoc, <- queued_app. by rewrite take_drop.
  - intros E. destruct (Hw E) as [H1 H2]. unfold wake_ok. simpl. rewrite Es. split.
    + destruct (sx s) as [| |[]|[]|[]]; try done; intuition eauto using avail_drop.
    + intros Hs Ha. destruct (decide (k = 0%nat)) as [Ek|Ek]; [|right; right; exists (Z.of_nat k); split; [lia|done]].
      rewrite Ek in Ha. unfold avail in Ha. rewrite drop_0, (free_slots_eq (sq s)) in Ha by done.
      destruct (H2 Hs Ha) as [H3|[H3|(c & _ & H3)]]; [by left|by right; left|by rewrite Hx in H3].
  - intros E. destruct (Hc E) as (H1 & H2 & H3 & H4 & H5 & H6). rewrite Hx in H6.
    assert (Ek : Z.of_nat k = n) by (unfold k; rewrite releasable_all by (done || lia); lia).
    destruct Hf. simpl in *. unfold clo_ok. simpl. rewrite length_drop. split; [lia|]. split; [lia|].
    split; [congruence|]. split; [congruence|]. split; [|done]. rewrite <- H5. apply tail_frame; [done|congruence].
  - intros E. unfold glag. simpl. rewrite Hx.
    assert (Ek : Z.of_nat k = n) by (unfold k; rewrite releasable_all by (done || lia); lia). lia.
Qed.

Lemma intr_wake_wp q D xs c : tx_inv q D xs → wp (intr_wake conf c) (λ _ q',
  txr q' = txr q ∧ tq_mapped q' = tq_mapped q ∧ tq_pad_freed q' = tq_pad_freed q ∧ tq_freed q' = tq_freed q ∧ tq_hw_clo q' = tq_hw_clo q ∧
  st_tx_packets q' = st_tx_packets q ∧ st_tx_bytes q' = st_tx_bytes q ∧
  tq_stopped q' = (if negb (c =? 0) && (tq_stopped q && availb q xs) then false else tq_stopped q) ∧
  (EnableTxNoClose conf = true → tq_writes q' = tq_writes q)) q.
Proof.
  intros Hi. unfold intr_wake, netif_start_subqueue, RTL_W16. destruct (c =? 0); simpl; [by wp_steps|].
  wp_steps. unfold id. eapply slots_avail_wp; [done|]. fold (availb q xs).
  destruct (tq_stopped q && availb q xs); wp_steps; (destruct (EnableTxNoClose conf); [by wp_steps|]);
    simpl; destruct (negb _); by wp_steps.
Qed.

Lemma step_wake s g c : sys_inv s g → si s = IDone c →
  ∃ s', run_q (intr_wake conf c) (λ _ q, Sys q (sx s) IIdle (s_given s)) s = Some s' ∧ kept s g s'.
Proof.
  intros [Hr Hg Hl Hw Hc] Hx. eapply run_q_spec; [by eapply intr_wake_wp|].
  intros _ q' (Er & Em & Ep & Hfr & Hhw & _ & _ & Hs & Hwr). exists g. split; [split; simpl; [by apply (inv_ext (sq s))|by rewrite Hfr|done| |]|].
  - intros E. destruct (Hw E) as [H1 H2]. unfold wake_ok, avail. simpl. rewrite (free_slots_eq (sq s) q') by by rewrite Er.
    rewrite Hs. destruct (negb (c =? 0) && (tq_stopped (sq s) && availb (sq s) (gxs g))) eqn:Eb.
    + apply andb_prop in Eb as [_ Eb]. apply andb_prop in Eb as [_ Eb]. apply availb_true in Eb.
      split; [|done]. by destruct (sx s) as [| |[]|[]|[]].
    + split; [done|]. intros Hs' Ha. destruct (H2 Hs' Ha) as [H3|[H3|(c' & Hc' & H3)]]; [by left|by right; left|].
      rewrite Hx in H3. injection H3 as <-. apply availb_true in Ha. rewrite Hs', Ha in Eb.
      by rewrite (proj2 (Z.eqb_neq _ _) Hc') in Eb.
  - intros E. destruct (Hc E) as (H1 & H2 & H3 & H4 & H5 & H6). unfold clo_ok. simpl. rewrite Er, Hhw.
    split; [done|]. split; [done|]. split; [done|]. split; [done|]. split; [|done]. rewrite <- H5. apply tail_frame; [by rewrite Er|auto].
  - intros _. unfold glag. by rewrite Hx.
Qed.

Lemma step_xmit s g skb : sys_inv s g → sx s = XIdle → tq_stopped (sq s) = false → packet_ok conf skb →
  pad_fails conf (sq s) skb = false → ∃ s', run_q (xmit_fill conf skb) (λ r q,
        match r with
        | FBusy => Sys q XIdle (si s) (s_given s)
        | FDropped => Sys q XIdle (si s) (s_given s ++ [sk_id skb])
        | FQueued => Sys q XFilled (si s) (s_given s ++ [sk_id skb])
        end) s = Some s' ∧ kept s g s'.
Proof.
  intros [Hr Hg Hl Hw Hc] Hx Hs Hok Hpad. eapply run_q_spec; [by eapply xmit_fill_wp|]. intros [| |] q'.
  - intros (-> & Hb). assert (E : EnableTxNoClose conf = false).
    { destruct Hb as [Hb|Hb]; [|unfold head_free in Hb; by apply orb_false_elim in Hb as [Hb _]]. destruct (EnableTxNoClose conf); [|done]. destruct (Hw eq_refl) as [H1 _].
      rewrite Hx in H1. specialize (H1 Hs). unfold avail in H1. lia. }
    exists g. split; [split; simpl; [by apply (inv_ext (sq s))|done|done|by rewrite E|by rewrite E]|by rewrite E].
  - intros (Hi & Hf & Hfr & _). exists g. split; [split; simpl; [done| |done| |]|].
    + rewrite Hg, Hfr, <- !app_assoc. apply Permutation_app_head, Permutation_app_comm.
    + intros E. destruct (Hw E) as [H1 H2]. rewrite Hx in H1. unfold wake_ok, avail in *. simpl. rewrite (free_slots_eq (sq s) q') by apply Hf.
      rewrite (fr_stopped _ _ Hf), Hs. split; [by auto|done].
    + intros E. destruct (Hc E) as (H1 & H2 & H3 & H4 & H5 & H6). unfold clo_ok. simpl.
      rewrite (fr_begin _ _ Hf), (fr_hw _ _ Hf), (tail_of _ _ Hf). done.
    + intros _. by unfold glag.
  - intros (skb' & new & _ & _ & Hi & Hq & Hf & Hfr & _).
    exists (Ghost (gD g) (gB g) (gN g) (gT g) (gxs g ++ new)). split; [split; simpl; [done| | | |]|].
    + rewrite Hg, Hfr, queued_app, Hq, app_assoc. done.
    + destruct (si s); simpl in *; rewrite ?length_app; lia || done.
    + intros _. unfold wake_ok. simpl. rewrite (fr_stopped _ _ Hf). simpl. rewrite Hs. done.
    + intros E. destruct (Hc E) as (H1 & H2 & H3 & H4 & H5 & H6). unfold clo_ok. simpl.
      rewrite (fr_begin _ _ Hf), (fr_hw _ _ Hf), (tail_of _ _ Hf), length_app. simpl.
      split; [done|]. split; [lia|]. done.
    + intros _. by unfold glag.
Qed.

Lemma step_hw_close s g : sys_inv s g → EnableTxNoClose conf = true → tq_hw_clo (sq s) ≠ tail_ptr (sq s) →
  kept s g (Sys (q_hw (u16 (tq_hw_clo (sq s) + 1)) (sq s)) (sx s) (si s) (s_given s)).
Proof.
  intros [Hr Hg Hl Hw Hc] E Hne. destruct (Hc E) as (H1 & H2 & H3 & H4 & H5 & H6).
  exists (Ghost (gD g) (gB g) (gN g + 1) (gT g) (gxs g)). split; [|done].
  split; [by apply (inv_ext (sq s))|done|done|done|]. intros _. unfold clo_ok. simpl.
  assert (gN g ≠ gT g) by (intros En; rewrite En in H4; congruence).
  split; [lia|]. split; [lia|]. split; [done|]. split; [|done]. rewrite H4. unfold u16. by rewrite Zplus_mod_idemp_l.
Qed.

Lemma queued_cons y ys : queued (y :: ys) = option_list (sl_id y) ++ queued ys.
Proof. unfold queued, ids. simpl. by destruct (sl_id y). Qed.
Lemma maps_busy ys : maps (busy ys) = sl_map <$> ys.
Proof. unfold maps. induction ys as [|y ys IH]; [done|]. simpl. by f_equal. Qed.

Lemma hw_opts_inv q D xs opts : tx_inv q D xs →
  ∃ xs', tx_inv (hw_opts opts q) D xs' ∧ length xs' = length xs ∧ queued xs' = queued xs.
Proof.
  intros [[Hwf Hlen Hat Hm] Hd Hc Hp].
  set (f := λ (i : nat) (x : slot), Slot (sl_addr x) (sl_len x) (default (sl_opts1 x) (opts !! entry_of (num_tx_desc (txr q)) D i)) (sl_opts2 x) (sl_skb x)).
  assert (Eq : ∀ ys h, (∀ i x, sl_skb (h i x) = sl_skb x ∧ sl_map (h i x) = sl_map x) →
     queued (imap h ys) = queued ys ∧ maps (busy (imap h ys)) = maps (busy ys)).
  { induction ys as [|y ys IH]; intros h Hh; [done|]. destruct (IH (h ∘ S)) as [I1 I2]; [intros; apply Hh|].
    destruct (Hh 0%nat y) as [Hh1 Hh2]. rewrite imap_cons, !queued_cons, !maps_busy in *. unfold sl_id. rewrite Hh1, I1. split; [done|].
    rewrite !fmap_cons, Hh2. f_equal. done. }
  destruct (Eq xs f) as [Eq1 Eq2]; [done|].
  exists (imap f xs). rewrite length_imap. split; [|done]. split; simpl; rewrite ?length_imap; [|done|done|done].
  split; simpl.
  - destruct Hwf as (? & ? & ?). unfold ring_wf. simpl. rewrite length_imap. done.
  - rewrite length_app, length_fmap, length_imap. rewrite length_app, length_fmap in Hlen. done.
  - intros i o Hi. specialize (Hat i). change (entry_of _ D i) with (entry_of (num_tx_desc (txr q)) D i).
    destruct (decide (i < length xs)%nat) as [Hlt|Hge].
    + rewrite lookup_app_l in Hi by (rewrite length_fmap, length_imap; lia). rewrite list_lookup_fmap, list_lookup_imap in Hi.
      destruct (xs !! i) as [x|] eqn:Ex; [|done]. simpl in Hi. injection Hi as <-.
      destruct (Hat (Some x)) as (Ha1 & Ha2 & Ha3).
      { rewrite lookup_app_l by (rewrite length_fmap; lia). by rewrite list_lookup_fmap, Ex. }
      split; [done|]. split; [done|]. simpl. rewrite list_lookup_imap, Ha3. done.
    + rewrite lookup_app_r in Hi by (rewrite length_fmap, length_imap; lia). rewrite length_fmap, length_imap in Hi.
      apply lookup_replicate in Hi as [-> Hi]. apply (Hat None).
      rewrite lookup_app_r by (rewrite length_fmap; lia). rewrite length_fmap. by apply lookup_replicate.
  - rewrite Hm, !maps_app. by rewrite Eq2.
Qed.

(** The one way into undefined behaviour: a packet is sent whose padding fails. *)
Definition pad_stuck (e : event) (s : sys) : Prop := ∃ skb, e = EvXmit skb ∧ pad_fails conf (sq s) skb = true.

(** Such a packet: the queue is full, or it is the end. *)
Lemma step_xmit_pad s g skb k : sys_inv s g → packet_ok conf skb → pad_fails conf (sq s) skb = true →
  run_q (xmit_fill conf skb) k s = None ∨
  head_free conf (sq s) && (MAX_SKB_FRAGS <? free_slots (sq s) (gxs g)) = false ∧
    run_q (xmit_fill conf skb) k s = Some (k FBusy (q_dropped (q_stopped true (sq s)))).
Proof.
  intros Hi Hok Hpad. unfold run_q. rewrite (xmit_fill_pad_fails conf (sq s) (gD g) (gxs g)) by (done || apply Hi). rewrite andb_comm.
  destruct (head_free _ _ && _) eqn:E; [by left|by right].
Qed.

(** A full queue, without close pointers. *)
Lemma kept_busy s g : sys_inv s g → sx s = XIdle → tq_stopped (sq s) = false →
  head_free conf (sq s) && (MAX_SKB_FRAGS <? free_slots (sq s) (gxs g)) = false →
  kept s g (Sys (q_dropped (q_stopped true (sq s))) XIdle (si s) (s_given s)).
Proof.
  intros [Hr Hg Hl Hw Hc] Hx Hs Hb. assert (E : EnableTxNoClose conf = false).
  { apply andb_false_iff in Hb as [Hb|Hb]; [unfold head_free in Hb; by apply orb_false_elim in Hb as [Hb _]|].
    destruct (EnableTxNoClose conf); [|done]. destruct (Hw eq_refl) as [H1 _]. rewrite Hx in H1. specialize (H1 Hs).
    apply Z.ltb_ge in Hb. unfold avail in H1. lia. }
  exists g. split; [split; simpl; [by apply (inv_ext (sq s))|done|done|by rewrite E|by rewrite E]|by rewrite E].
Qed.

Lemma ev_step_kept e s g : sys_inv s g → ev_ok e →
  (∃ s', ev_step e s = Some s' ∧ kept s g s') ∨ (ev_step e s = None ∧ pad_stuck e s).
Proof.
  intros Hi Hok. assert (Hstay : (∃ s', Some s = Some s' ∧ kept s g s') ∨ (Some s = None ∧ pad_stuck e s))
    by (left; exists s; split; [done|]; by exists g).
  destruct e as [skb| | | | | | | | | |opts]; simpl.
  - destruct (sx s) eqn:Ex; try exact Hstay. destruct (tq_stopped (sq s)) eqn:Es; [exact Hstay|].
    destruct (pad_fails conf (sq s) skb) eqn:Ep; [|left; by apply step_xmit].
    match goal with |- context [run_q _ ?k _] => destruct (step_xmit_pad s g skb k Hi Hok Ep) as [->|[Hb ->]] end.
    + right. split; [done|]. by eexists.
    + left. eexists. split; [done|]. by apply kept_busy.
  - destruct (sx s) eqn:Ex; try exact Hstay. left. by apply step_want.
  - destruct (sx s) eqn:Ex; try exact Hstay. left. by apply step_stop.
  - destruct (sx s) eqn:Ex; try exact Hstay. left. by apply step_ring.
  - destruct (sx s) eqn:Ex; try exact Hstay. left. by apply step_check.
  - destruct (si s) eqn:Ei; try exact Hstay. left. by apply step_left.
  - destruct (si s) eqn:Ei; try exact Hstay. left. by apply step_closed.
  - destruct (si s) eqn:Ei; try exact Hstay. left. by apply step_release.
  - destruct (si s) eqn:Ei; try exact Hstay. left. by apply step_wake.
  - destruct (EnableTxNoClose conf) eqn:E; [|exact Hstay]. destruct (_ =? _) eqn:Et; simpl; [exact Hstay|].
    apply Z.eqb_neq in Et. left. eexists. split; [done|]. by apply step_hw_close.
  - destruct (EnableTxNoClose conf) eqn:E; [exact Hstay|]. left. eexists. split; [done|].
    destruct (hw_opts_inv _ _ _ opts (sv_ring _ _ Hi)) as (xs' & Hr & Hl & Hq).
    exists (Ghost (gD g) (gB g) (gN g) (gT g) xs'). split; [|by rewrite E]. destruct Hi as [_ Hg Hlf _ _].
    split; simpl; [done|by rewrite Hq| |by rewrite E|by rewrite E]. destruct (si s); simpl in *; by rewrite ?Hl.
Qed.

(** A run comes to such a packet. *)
Definition run_stuck (es : list event) (s : sys) : Prop :=
  ∃ es1 e es2 s1, es = es1 ++ e :: es2 ∧ run es1 s = Some s1 ∧ pad_stuck e s1.
Lemma run_stuck_cons e es s s1 : ev_step e s = Some s1 → run_stuck es s1 → run_stuck (e :: es) s.
Proof.
  intros E (es1 & e' & es2 & s2 & -> & R & Hp). exists (e :: es1), e', es2, s2. split; [done|]. split; [|done]. simpl. by rewrite E.
Qed.

Lemma run_kept es : ∀ s g, sys_inv s g → Forall ev_ok es →
  (∃ s', run es s = Some s' ∧ kept s g s') ∨ (run es s = None ∧ run_stuck es s).
Proof.
  induction es as [|e es IH]; intros s g Hi Hok; [left; exists s; split; [done|]; by exists g|].
  apply Forall_cons_1 in Hok as [He Hes]. simpl. destruct (ev_step_kept e s g Hi He) as [(s1 & E1 & g1 & Hi1 & Hl1)|[E1 Hp]]; rewrite E1.
  - destruct (IH s1 g1 Hi1 Hes) as [(s2 & E2 & g2 & Hi2 & Hl2)|[E2 Hp]]; [left|right; split; [done|by eapply run_stuck_cons]].
    exists s2. split; [done|]. exists g2. split; [done|]. intros E. etrans; [by apply Hl1|by apply Hl2].
  - right. split; [done|]. by exists [], e, es, s.
Qed.
Lemma run_kept_some es s g s' : sys_inv s g → Forall ev_ok es → run es s = Some s' → kept s g s'.
Proof. intros Hi Hok R. destruct (run_kept es s g Hi Hok) as [(s2 & E & Hk)|[E _]]; congruence. Qed.

(** ** Properties *)
(** C6: however the pieces of the transmit path, those of the interrupt and the
    chip interleave, the slots between [dirty_tx] and [cur_tx] hold exactly the
    buffers that are mapped, the other slots are free, every packet taken is
    either in flight in one slot or has been given back once, and with close
    pointers no slot is released that the chip has not closed. Nothing runs
    into undefined behaviour but one thing: a packet is sent whose padding
    fails, and it is freed twice. *)
Theorem tx_ring_safe es s0 : fresh s0 → Forall ev_ok es →
  (∃ s D xs, run es s0 = Some s ∧ tx_inv (sq s) D xs ∧ s_given s ≡ₚ tq_freed (sq s) ++ queued xs ∧
    (EnableTxNoClose conf = true → ∃ N, tq_hw_clo (sq s) = u16 N ∧ D ≤ N ≤ D + Z.of_nat (length xs))) ∨
  (run es s0 = None ∧ run_stuck es s0).
Proof.
  intros Hf Hok. destruct (run_kept es s0 _ (fresh_inv _ Hf) Hok) as [(s & E & g & [Hr Hg Hl Hw Hc] & _)|Hp]; [left|by right].
  exists s, (gD g), (gxs g). do 3 (split; [done|]). intros En. destruct (Hc En) as (H1 & H2 & _ & H4 & _).
  exists (gN g). split; [done|lia].
Qed.

(** C18: with close pointers no wakeup is lost: whenever neither thread is in
    the middle of something, the queue is stopped exactly if it has no more
    slots than a packet can need, and a packet given to a queue that is awake
    never finds it full. *)
Theorem no_lost_wakeup es s0 s : EnableTxNoClose conf = true → fresh s0 → Forall ev_ok es → run es s0 = Some s →
  sx s = XIdle →
  (tq_stopped (sq s) = false → ∀ skb, packet_ok conf skb →
     match xmit_fill conf skb (sq s) with Some (r, _) => r ≠ FBusy | None => pad_fails conf (sq s) skb = true end) ∧
  (si s = IIdle → (tq_stopped (sq s) = true ↔ ¬ MAX_SKB_FRAGS < u32 (dirty_tx (txr (sq s)) + num_tx_desc (txr (sq s)) - cur_tx (txr (sq s))))).
Proof.
  intros En Hf Hok Hrun Hx. destruct (run_kept_some es s0 _ s (fresh_inv _ Hf) Hok Hrun) as (g & [Hr Hg Hl Hw Hc] & _).
  destruct (Hw En) as [H1 H2]. rewrite Hx in H1. split.
  - intros Hs skb Hpk. specialize (H1 Hs). unfold avail in H1. destruct (pad_fails conf (sq s) skb) eqn:Ep.
    + rewrite (xmit_fill_pad_fails conf _ (gD g) (gxs g)) by done. rewrite (proj2 (Z.ltb_lt _ _) H1). unfold head_free. by rewrite En.
    + pose proof (xmit_fill_wp conf _ _ _ _ Hr Hpk Ep) as Hwp. apply wp_elim in Hwp as (r & q & E & Hq). rewrite E.
      destruct r; [|done..]. destruct Hq as [_ [Hb|Hb]]; [lia|]. unfold head_free in Hb. by rewrite En in Hb.
  - intros Hi. rewrite (slots_unsigned _ _ _ Hr). fold (avail (sq s) (gxs g)). split.
    + intros Hs Ha. destruct (H2 Hs Ha) as [H3|[H3|(c & _ & H3)]]; congruence.
    + intros Ha. destruct (tq_stopped (sq s)); [done|]. by destruct Ha; apply H1.
Qed.

(** The descriptors that the chip has closed and the driver will not release. *)
Definition lag (s : sys) : Z := u16 (BeginHwDesCloPtr (txr (sq s)) - dirty_tx (txr (sq s))).

Lemma lag_glag s g : EnableTxNoClose conf = true → sys_inv s g → si s = IIdle →
  lag s = glag s g ∧ 0 ≤ glag s g ≤ Z.of_nat (length (gxs g)).
Proof.
  intros En [Hr _ _ _ Hc] Hi. destruct (Hc En) as (H1 & H2 & H3 & _). pose proof (ti_room _ _ _ Hr). unfold MAX_NUM_TX_DESC in *.
  unfold lag, glag. rewrite H3, Hi, Z.sub_0_r, (ti_dirty _ _ _ Hr). split; [|lia]. unfold u16, u32.
  rewrite Zminus_mod_idemp_l, <- Zminus_mod_idemp_r, Z.mod_mod_divide by (by exists (2 ^ 16)). rewrite Zminus_mod_idemp_r.
  apply Z.mod_small. lia.
Qed.

(** C25: a descriptor that the chip closes between the interrupt's reads of
    [cur_tx] and of the close pointer is lost: the number of closed descriptors
    that are not released never falls again, whatever happens, and so many
    slots stay in flight. *)
Theorem lost_closures_stay es1 es2 s0 s1 s2 : EnableTxNoClose conf = true → fresh s0 →
  Forall ev_ok es1 → Forall ev_ok es2 → run es1 s0 = Some s1 → run es2 s1 = Some s2 → si s1 = IIdle → si s2 = IIdle →
  lag s1 ≤ lag s2 ∧ ∃ D xs, tx_inv (sq s2) D xs ∧ lag s2 ≤ Z.of_nat (length xs).
Proof.
  intros En Hf Hok1 Hok2 R1 R2 I1 I2. destruct (run_kept_some es1 s0 _ s1 (fresh_inv _ Hf) Hok1 R1) as (g1 & Hi1 & _).
  destruct (run_kept_some es2 s1 g1 s2 Hi1 Hok2 R2) as (g2 & Hi2 & Hl).
  destruct (lag_glag _ _ En Hi1 I1) as [-> _]. destruct (lag_glag _ _ En Hi2 I2) as [-> Hb]. split; [by apply Hl|].
  exists (gD g2), (gxs g2). split; [apply Hi2|lia].
Qed.

(** ** One packet *)
Definition busy_result (s s' : txq) : Prop := s' = q_dropped (q_stopped true s).
(** Given back at once, the ring as it was: its large send is not done, or a
    buffer could not be mapped. *)
Definition dropped_result (s : txq) (D : Z) (xs : list slot) (skb : sk_buff) (s' : txq) : Prop :=
  tx_inv s' D xs ∧ frame s s' ∧ tq_freed s' = tq_freed s ++ [sk_id skb] ∧ (refused conf s skb = true ∨ map_refused).
(** In flight, in order, behind what was there; the chip is told, and the queue
    is awake exactly if there is room for another packet. *)
Definition queued_result (s : txq) (D : Z) (xs : list slot) (skb : sk_buff) (s' : txq) : Prop :=
  refused conf s skb = false ∧
  ∃ skb' new, sent_as conf s skb skb' ∧ packet_laid conf (num_tx_desc (txr s)) D (length xs) skb skb' new ∧
    tx_inv s' D (xs ++ new) ∧ queued new = [sk_id skb] ∧ tq_freed s' = tq_freed s ∧
    tq_writes s' = tq_writes s ++
      [if EnableTxNoClose conf then (tr_sw_tail_ptr_reg (txr s), u16 (D + Z.of_nat (length (xs ++ new))))
       else (TPPOLL_8125, u16 (Z.shiftl 1 (tr_index (txr s))))] ∧
    (tq_stopped s = false → tq_stopped s' = negb (availb s' (xs ++ new))).

(** C19: a packet that needs no padding or can be padded is sent in one of
    three ways and no other: the queue is full, or the chip has the descriptor,
    and nothing changes but the stop and a count; the packet is given back once
    and the ring is as it was; or its head and its pieces, each mapped and in
    order, stand behind what was in flight, with exactly the words that its
    protocol, its offloads, its VLAN tag and its place in the ring ask for,
    padded to exactly the length it needs, the chip is told of all of it and
    the queue stops exactly if the next packet might not fit. *)
Theorem start_xmit_spec s D xs skb : tx_inv s D xs → packet_ok conf skb → pad_fails conf s skb = false →
  wp (rtl8125_start_xmit conf skb) (λ r s',
    match r with
    | NETDEV_TX_BUSY => busy_result s s' ∧ (¬ avail s xs ∨ head_free conf s = false)
    | NETDEV_TX_OK => (avail s xs ∧ head_free conf s = true) ∧ (dropped_result s D xs skb s' ∨ queued_result s D xs skb s')
    end) s.
Proof.
  intros Hi Hok Hpad. unfold rtl8125_start_xmit. wp_step. eapply wp_mono; [by apply xmit_fill_wp|]. intros [| |] s1.
  - intros [-> Hb]. wp_steps. split; [done|]. destruct Hb as [Hb|]; [left; unfold avail; lia|by right].
  - intros (Hi1 & Hf & Hfr & Ha & Hr). wp_steps. split; [done|]. by left.
  - intros (skb' & new & Hp & Hlaid & Hi1 & Hq & Hf & Hfr & Ha & Hr).
    wp_step. eapply wp_intro; [by eapply want_eq|]. wp_step. eapply wp_intro; [apply stop_eq|].
    wp_step. eapply wp_intro; [apply doorbell_eq|]. set (s2 := q_write _ _).
    assert (Er : txr s2 = txr s1) by (unfold s2; by destruct (availb _ _)).
    assert (Hi2 : tx_inv s2 D (xs ++ new)) by (apply (inv_ext s1); [done|unfold s2; by destruct (availb _ _)..|done]).
    assert (Ea : availb s2 (xs ++ new) = availb s1 (xs ++ new)) by (unfold availb; by rewrite (free_slots_eq s1 s2) by by rewrite Er).
    wp_step. eapply wp_intro; [by eapply recheck_eq|]. wp_steps. rewrite Ea, andb_negb_l. split; [done|]. right.
    split; [done|]. exists skb', new. do 2 (split; [done|]). split; [done|]. split; [done|]. split; [|split].
    + unfold s2. by destruct (availb _ _).
    + assert (Ew : tq_writes s1 = tq_writes s) by apply Hf. unfold s2. simpl.
      replace (tq_writes (if negb (availb s1 (xs ++ new)) then q_stopped true s1 else s1)) with (tq_writes s1) by by destruct (negb _).
      rewrite Ew. f_equal. f_equal. replace (txr (if negb _ then _ else _)) with (txr s1) by by destruct (negb _).
      rewrite (fr_tail _ _ Hf), (fr_index _ _ Hf). simpl. destruct (EnableTxNoClose conf); [|done]. f_equal.
      rewrite (ti_cur _ _ _ Hi1). unfold u16, u32, MAX_TX_NO_CLOSE_DESC_PTR_V2. change 0x10000 with (2 ^ 16). rewrite Zmod_mod.
      apply Z.mod_mod_divide. by exists (2 ^ 16).
    + intros Hs. assert (Es : tq_stopped s1 = false) by (rewrite (fr_stopped _ _ Hf); done).
      rewrite Ea. unfold s2. simpl. by destruct (availb s1 _).
Qed.

(** C24: a packet that has to be padded when there is no memory for it is freed
    by the kernel and again by the driver: sending it on a queue with room is
    undefined, at the driver's own call. *)
Theorem failed_padding_double_free s D xs skb : tx_inv s D xs → packet_ok conf skb → pad_fails conf s skb = true →
  avail s xs → head_free conf s = true →
  rtl8125_start_xmit conf skb s = None ∧
  ∃ s1, rtl8125_tso_csum conf skb DescOwn (rtl8125_tx_vlan_tag skb) s = Some (None, s1) ∧ tq_pad_freed s1 = [sk_id skb] ∧ kfree_skb skb s1 = None.
Proof.
  intros Hi Hok Hpad Ha Hh. split.
  - unfold rtl8125_start_xmit, bind. rewrite (xmit_fill_pad_fails conf s D xs) by done. by rewrite (proj2 (Z.ltb_lt _ _) Ha), Hh.
  - destruct Hok as [Hl _ _ _ Ho]. pose proof (ti_pad _ _ _ Hi) as Hpc. unfold pad_clean in Hpc.
    exists (q_pad_freed (sk_id skb) (q_call s)). split; [by apply tso_csum_pad_fails|]. simpl. rewrite Hpc. split; [done|].
    unfold kfree_skb, bind, gets, id. simpl. by rewrite decide_True by (rewrite Hpc; apply list_elem_of_here).
Qed.

(** ** One interrupt *)
(** What an interrupt has to release: with close pointers, what the chip has
    closed since the last look; otherwise what it no longer owns. *)
Definition to_release (B N : Z) (xs : list slot) : nat :=
  if EnableTxNoClose conf then Z.to_nat (N - B) else releasable conf (length xs) xs.

Lemma interrupt_closed s D B N xs : tx_inv s D xs →
  (EnableTxNoClose conf = true → BeginHwDesCloPtr (txr s) = u16 B ∧ tq_hw_clo s = u16 N ∧ D ≤ B ≤ N ∧ N ≤ D + Z.of_nat (length xs)) →
  ∃ n s1, intr_closed conf (Z.of_nat (length xs)) s = Some (n, s1) ∧ 0 ≤ n ≤ Z.of_nat (length xs) ∧
    releasable conf (Z.to_nat n) xs = to_release B N xs ∧ tx_inv s1 D xs ∧ tq_freed s1 = tq_freed s ∧
    st_tx_packets s1 = st_tx_packets s ∧ st_tx_bytes s1 = st_tx_bytes s ∧ tq_stopped s1 = tq_stopped s ∧
    num_tx_desc (txr s1) = num_tx_desc (txr s) ∧
    BeginHwDesCloPtr (txr s1) = (if EnableTxNoClose conf then u16 N else BeginHwDesCloPtr (txr s)).
Proof.
  intros Hi Hc. pose proof (ti_room _ _ _ Hi) as Hroom. unfold MAX_NUM_TX_DESC, to_release in *.
  destruct (EnableTxNoClose conf) eqn:E.
  - destruct (Hc eq_refl) as (H1 & H2 & H3 & H4). eexists _, _. split; [apply (closed_eq _ B N); [done..|lia]|].
    split; [lia|]. split; [rewrite releasable_all by (done || lia); lia|]. split; [by apply inv_clo|]. done.
  - eexists _, s. split; [unfold intr_closed, bind, gets; by rewrite E|]. split; [lia|]. by rewrite Nat2Z.id.
Qed.

Lemma woken_iff (k : nat) (a b : bool) : k ≠ 0%nat → ((if a && b then false else a) = true ↔ a = true ∧ ¬ (k ≠ 0%nat ∧ b = true)).
Proof.
  intros Hk. destruct a, b; simpl; (split; [intros Ha|intros [Ha Hn]]); try done; [by destruct Hn|split; [done|by intros [_ ?]]].
Qed.

(** C21: an interrupt releases from the oldest slot on as many as the chip has
    closed since the last look at its close pointer, which is less than it has
    closed in all if earlier looks missed some ([B] is past [D] by so many), or
    without close pointers those that the chip no longer owns: each is unmapped
    and its packet given back once, the 32-bit counts of packets and bytes go up
    by the descriptors and their lengths, the close pointer is caught up with,
    and a stopped queue is woken exactly if that made room. *)
Theorem tx_interrupt_spec s D B N xs : tx_inv s D xs →
  (EnableTxNoClose conf = true → BeginHwDesCloPtr (txr s) = u16 B ∧ tq_hw_clo s = u16 N ∧ D ≤ B ≤ N ∧ N ≤ D + Z.of_nat (length xs)) →
  wp (rtl8125_tx_interrupt conf) (λ c s',
    let k := to_release B N xs in
    c = Z.of_nat k ∧ tx_inv s' (D + Z.of_nat k) (drop k xs) ∧ tq_freed s' = tq_freed s ++ queued (take k xs) ∧
    u32 (st_tx_packets s') = u32 (st_tx_packets s + Z.of_nat k) ∧
    u32 (st_tx_bytes s') = u32 (st_tx_bytes s + total_len (take k xs)) ∧
    BeginHwDesCloPtr (txr s') = (if EnableTxNoClose conf then u16 N else BeginHwDesCloPtr (txr s)) ∧
    (tq_stopped s' = true ↔ tq_stopped s = true ∧ ¬ (k ≠ 0%nat ∧ avail s (drop k xs)))) s.
Proof.
  intros Hi Hc. destruct (interrupt_closed s D B N xs Hi Hc) as (n & s1 & E1 & Hn & Hk & Hi1 & Hf1 & Hp1 & Hb1 & Hs1 & Hn1 & Hg1).
  unfold rtl8125_tx_interrupt. wp_step. eapply wp_intro; [by eapply left_eq|]. wp_step. eapply wp_intro; [exact E1|].
  wp_step. eapply wp_mono; [by apply intr_release_wp|]. rewrite Hk. set (k := to_release B N xs).
  intros c s2 [-> (Hi2 & Hf2 & Hfr2 & Hp2 & Hb2)]. wp_step. eapply wp_mono; [by eapply intr_wake_wp|].
  intros _ s3 (Er & Em & Ep3 & Hfr3 & _ & Hp3 & Hb3 & Hs3 & _). wp_steps.
  assert (En : num_tx_desc (txr s2) = num_tx_desc (txr s)) by (rewrite (fr_num _ _ Hf2); done).
  assert (Es : tq_stopped s2 = tq_stopped s) by (rewrite (fr_stopped _ _ Hf2); done).
  assert (Ea : availb s2 (drop k xs) = availb s (drop k xs)) by (unfold availb; by rewrite (free_slots_eq s s2)).
  rewrite Hfr3, Hfr2, Hf1, Hp3, Hb3, Hp2, Hb2, Hp1, Hb1, Er, (fr_begin _ _ Hf2), <- Hg1, Hs3, Es, Ea.
  split; [done|]. split; [by apply (inv_ext s2)|]. do 3 (split; [done|]). split; [done|].
  rewrite <- availb_true. destruct (decide (k = 0%nat)) as [->|Hk0]; simpl; [by intuition|].
  rewrite (proj2 (Z.eqb_neq (Z.of_nat k) 0)) by lia. by apply (woken_iff k (tq_stopped s) (availb s (drop k xs))).
Qed.

(** clearing the ring gives back every packet in flight, once, and unmaps
    every buffer, wherever the indexes are; the ring is empty after it. *)
Theorem tx_clear_spec s D xs : tx_inv s D xs →
  wp rtl8125_tx_clear (λ _ s', tx_inv s' 0 [] ∧ tq_freed s' = tq_freed s ++ queued xs ∧ tq_mapped s' = [] ∧
    cur_tx (txr s') = 0 ∧ dirty_tx (txr s') = 0 ∧ tq_stopped s' = tq_stopped s) s.
Proof.
  intros Hi. eapply wp_mono; [by eapply tx_clear_wp|]. intros _ s' (H1 & H2 & H3 & []). simpl in *. by repeat (split; [done|]).
Qed.
End system.
