(* ===== verification/R8125Rx.v ===== *)
(** * The r8125 driver: the receive ring

    The receive path of [r8125_n.c]: descriptors armed with buffers, the frames
    the chip writes into them, the poll that passes them on and refills the
    ring. A buffer is known by the order in which it was allocated; what is in
    it is one number. The kernel's answers are indexed by a count of the calls
    made. *)
From stdpp Require Import base tactics list gmap numbers.
From Stdlib Require Import ZArith Lia.
From S2P Require Import Prelude IossUtils RtlLib R8125Tx.

(** ** Data *)
Definition FirstFrag_V3 : Z := Z.shiftl 1 25.
Definition LastFrag_V3 : Z := Z.shiftl 1 24.
Definition RxRWT : Z := Z.shiftl 1 22.
Definition RxRES : Z := Z.shiftl 1 21.
Definition RxRUNT : Z := Z.shiftl 1 20.
Definition RxCRC : Z := Z.shiftl 1 19.
Definition RxRWT_V3 : Z := Z.shiftl 1 18.
Definition RxRES_V3 : Z := Z.shiftl 1 20.
Definition RxRUNT_V3 : Z := Z.shiftl 1 19.
Definition RxCRC_V3 : Z := Z.shiftl 1 17.
Definition RxV4F : Z := Z.shiftl 1 30.
Definition RxV6F : Z := Z.shiftl 1 31.
Definition RxIPF : Z := Z.shiftl 1 16.
Definition RxUDPF : Z := Z.shiftl 1 15.
Definition RxTCPF : Z := Z.shiftl 1 14.
Definition RxUDPT : Z := Z.shiftl 1 18.
Definition RxTCPT : Z := Z.shiftl 1 17.
Definition RxIPF_v3 : Z := Z.shiftl 1 26.
Definition RxUDPF_v3 : Z := Z.shiftl 1 25.
Definition RxTCPF_v3 : Z := Z.shiftl 1 24.
Definition RxUDPT_v3 : Z := Z.shiftl 1 29.
Definition RxTCPT_v3 : Z := Z.shiftl 1 28.
Definition RxVlanTag : Z := Z.shiftl 1 16.
Definition RsvdMask : Z := 0x3fffc000.
Definition RsvdMaskV3 : Z := 0x3fff8000.
Definition MIN_NUM_RX_DESC : Z := 256.
Definition MAX_NUM_RX_DESC : Z := 1024.
Definition RX_BUF_SIZE : Z := 0x05F3.
Definition ETH_FCS_LEN : Z := 4.
(** [RTL8125_RXS_RSS_L3_TYPE_MASK] and [RTL8125_RXS_RSS_L4_TYPE_MASK]. *)
Definition RSS_L3_TYPE_MASK : Z := Z.lor (Z.shiftl 1 10) (Z.shiftl 1 12).
Definition RSS_L4_TYPE_MASK : Z := Z.lor (Z.shiftl 1 13) (Z.shiftl 1 9).

(** [struct RxDesc] and, with the two hash words, [struct RxDescV3]. *)
Record RxDesc := RxD { rd_opts1 : Z; rd_opts2 : Z; rd_addr : Z; rd_hdr : Z; rd_rss : Z }.
(** [struct rtl8125_rx_ring]; the descriptors are [[]] where the pointer is
    NULL. *)
Record rtl8125_rx_ring := RxRing {
  rr_index : Z; cur_rx : Z; dirty_rx : Z; num_rx_desc : Z;
  RxDescArray : list RxDesc; RxDescPhyAddr : list Z; Rx_skbuff : list (option Z) }.

(** The fields of [struct rtl8125_private] and the features of the device that
    the receive path reads; [rx_desc_v3] is [InitRxDescType ==
    RX_DESC_RING_TYPE_3]. *)
Record rxconf := RxConf {
  rx_desc_v3 : bool; rx_buf_sz : Z; rx_copybreak : Z; RxChkSum : bool;
  feature_rxall : bool; feature_rxfcs : bool; feature_rxhash : bool }.

(** What the stack is given: the bytes, their number, [CHECKSUM_UNNECESSARY],
    the VLAN tag, the hash and whether it is of layer 4. *)
Record rx_packet := RxPacket { rp_data : Z; rp_size : Z; rp_csum : bool; rp_vlan : option Z; rp_hash : option (Z * bool) }.

Record rx_stats := RxStats {
  rs_dropped : Z; rs_length_errors : Z; rs_crc_errors : Z; rs_errors : Z; rs_multicast : Z; rs_packets : Z; rs_bytes : Z }.

(** One ring. [rq_mapped]: the live DMA mappings, bus address to buffer;
    [rq_live]: the buffers the driver holds; [rq_data]: what is in them;
    [rq_stack]: what the stack was given. *)
Record rxq := RxQ {
  rxr : rtl8125_rx_ring; rq_calls : nat; rq_next : Z; rq_mapped : gmap Z Z; rq_live : gset Z; rq_data : gmap Z Z;
  rq_stack : list rx_packet; rq_stats : rx_stats }.

Definition x_ring (f : rtl8125_rx_ring → rtl8125_rx_ring) (s : rxq) : rxq :=
  RxQ (f (rxr s)) (rq_calls s) (rq_next s) (rq_mapped s) (rq_live s) (rq_data s) (rq_stack s) (rq_stats s).
Definition x_call (s : rxq) : rxq :=
  RxQ (rxr s) (S (rq_calls s)) (rq_next s) (rq_mapped s) (rq_live s) (rq_data s) (rq_stack s) (rq_stats s).
Definition x_new (d : Z) (s : rxq) : rxq :=
  RxQ (rxr s) (rq_calls s) (rq_next s + 1) (rq_mapped s) ({[rq_next s]} ∪ rq_live s) (<[rq_next s := d]> (rq_data s)) (rq_stack s) (rq_stats s).
Definition x_gone (id : Z) (s : rxq) : rxq :=
  RxQ (rxr s) (rq_calls s) (rq_next s) (rq_mapped s) (rq_live s ∖ {[id]}) (rq_data s) (rq_stack s) (rq_stats s).
Definition x_mapped (m : gmap Z Z) (s : rxq) : rxq :=
  RxQ (rxr s) (rq_calls s) (rq_next s) m (rq_live s) (rq_data s) (rq_stack s) (rq_stats s).
Definition x_data (id d : Z) (s : rxq) : rxq :=
  RxQ (rxr s) (rq_calls s) (rq_next s) (rq_mapped s) (rq_live s) (<[id := d]> (rq_data s)) (rq_stack s) (rq_stats s).
Definition x_stack (p : rx_packet) (s : rxq) : rxq :=
  RxQ (rxr s) (rq_calls s) (rq_next s) (rq_mapped s) (rq_live s) (rq_data s) (rq_stack s ++ [p]) (rq_stats s).
Definition x_stats (f : rx_stats → rx_stats) (s : rxq) : rxq :=
  RxQ (rxr s) (rq_calls s) (rq_next s) (rq_mapped s) (rq_live s) (rq_data s) (rq_stack s) (f (rq_stats s)).

Definition rr_descs (l : list RxDesc) (r : rtl8125_rx_ring) : rtl8125_rx_ring :=
  RxRing (rr_index r) (cur_rx r) (dirty_rx r) (num_rx_desc r) l (RxDescPhyAddr r) (Rx_skbuff r).
Definition rr_phys (l : list Z) (r : rtl8125_rx_ring) : rtl8125_rx_ring :=
  RxRing (rr_index r) (cur_rx r) (dirty_rx r) (num_rx_desc r) (RxDescArray r) l (Rx_skbuff r).
Definition rr_skbs (l : list (option Z)) (r : rtl8125_rx_ring) : rtl8125_rx_ring :=
  RxRing (rr_index r) (cur_rx r) (dirty_rx r) (num_rx_desc r) (RxDescArray r) (RxDescPhyAddr r) l.
Definition rr_cur (v : Z) (r : rtl8125_rx_ring) : rtl8125_rx_ring :=
  RxRing (rr_index r) v (dirty_rx r) (num_rx_desc r) (RxDescArray r) (RxDescPhyAddr r) (Rx_skbuff r).
Definition rr_dirty (v : Z) (r : rtl8125_rx_ring) : rtl8125_rx_ring :=
  RxRing (rr_index r) (cur_rx r) v (num_rx_desc r) (RxDescArray r) (RxDescPhyAddr r) (Rx_skbuff r).

(** The kernel, at its [n]-th answer: whether a buffer cannot be had, the
    address at which one is mapped; whether [eth_type_trans] finds a multicast
    frame. *)
Class RxApi := { skb_alloc_fails : nat → bool; dma_map_rx : nat → option Z; is_multicast : Z → bool }.

Definition count_dropped (s : rx_stats) : rx_stats :=
  RxStats (u32 (rs_dropped s + 1)) (rs_length_errors s) (rs_crc_errors s) (rs_errors s) (rs_multicast s) (rs_packets s) (rs_bytes s).
Definition count_length (s : rx_stats) : rx_stats :=
  RxStats (rs_dropped s) (u32 (rs_length_errors s + 1)) (rs_crc_errors s) (rs_errors s) (rs_multicast s) (rs_packets s) (rs_bytes s).
Definition count_crc (s : rx_stats) : rx_stats :=
  RxStats (rs_dropped s) (rs_length_errors s) (u32 (rs_crc_errors s + 1)) (rs_errors s) (rs_multicast s) (rs_packets s) (rs_bytes s).
Definition count_error (s : rx_stats) : rx_stats :=
  RxStats (rs_dropped s) (rs_length_errors s) (rs_crc_errors s) (u32 (rs_errors s + 1)) (rs_multicast s) (rs_packets s) (rs_bytes s).
Definition count_multicast (s : rx_stats) : rx_stats :=
  RxStats (rs_dropped s) (rs_length_errors s) (rs_crc_errors s) (rs_errors s) (u32 (rs_multicast s + 1)) (rs_packets s) (rs_bytes s).
Definition count_packet (size : Z) (s : rx_stats) : rx_stats :=
  RxStats (rs_dropped s) (rs_length_errors s) (rs_crc_errors s) (rs_errors s) (rs_multicast s) (u32 (rs_packets s + 1)) (u32 (rs_bytes s + size)).

Section receive.
Context `{RxApi} (conf : rxconf).
Abbreviation R := (M rxq).

(** ** The kernel's functions *)
(** A new buffer holds nothing yet. *)
Definition dev_alloc_skb : R (option Z) :=
  let* s := gets id in
  modify x_call ;;
  if skb_alloc_fails (rq_calls s) then ret None else modify (x_new 0) ;; ret (Some (rq_next s)).
(** Freeing a buffer twice is undefined; so is giving one to the stack that the
    driver does not hold. *)
Definition dev_kfree_skb (id : Z) : R unit :=
  let* s := gets Datatypes.id in
  if decide (id ∈ rq_live s) then modify (x_gone id) else ub.
(** No address is handed out that is in use. *)
Definition dma_map_buf (id : Z) : R (option Z) :=
  let* s := gets Datatypes.id in
  modify x_call ;;
  match dma_map_rx (rq_calls s) with
  | Some a => match rq_mapped s !! a with
              | None => modify (x_mapped (<[a := id]> (rq_mapped s))) ;; ret (Some a)
              | Some _ => ret None
              end
  | None => ret None
  end.
Definition dma_unmap_buf (a : Z) : R unit :=
  let* s := gets id in
  match rq_mapped s !! a with Some _ => modify (x_mapped (delete a (rq_mapped s))) | None => ub end.

(** ** Descriptors *)
Definition rtl8125_get_rxdesc (entry : Z) : R RxDesc := let* s := gets id in lift_opt (RxDescArray (rxr s) !! Z.to_nat entry).
Definition set_rxdesc (entry : Z) (d : RxDesc) : R unit :=
  modify (λ s, x_ring (rr_descs (<[Z.to_nat entry := d]> (RxDescArray (rxr s)))) s).
Definition get_skbuff (entry : Z) : R (option Z) := let* s := gets id in lift_opt (Rx_skbuff (rxr s) !! Z.to_nat entry).
Definition set_skbuff (entry : Z) (k : option Z) : R unit :=
  modify (λ s, x_ring (rr_skbs (<[Z.to_nat entry := k]> (Rx_skbuff (rxr s)))) s).
Definition get_phys (entry : Z) : R Z := let* s := gets id in lift_opt (RxDescPhyAddr (rxr s) !! Z.to_nat entry).
Definition set_phys (entry a : Z) : R unit :=
  modify (λ s, x_ring (rr_phys (<[Z.to_nat entry := a]> (RxDescPhyAddr (rxr s)))) s).
Definition rx_entry (n : Z) : R Z :=
  let* s := gets id in if num_rx_desc (rxr s) =? 0 then ub else ret (u32 n mod num_rx_desc (rxr s)).

Definition with_opts1 (v : Z) (d : RxDesc) : RxDesc := RxD v (rd_opts2 d) (rd_addr d) (rd_hdr d) (rd_rss d).
Definition with_opts2 (v : Z) (d : RxDesc) : RxDesc := RxD (rd_opts1 d) v (rd_addr d) (rd_hdr d) (rd_rss d).
Definition with_addr (v : Z) (d : RxDesc) : RxDesc := RxD (rd_opts1 d) (rd_opts2 d) v (rd_hdr d) (rd_rss d).

Definition rtl8125_make_unusable_by_asic (entry : Z) : R unit :=
  let* d := rtl8125_get_rxdesc entry in
  let mask := Z.lor DescOwn (if rx_desc_v3 conf then RsvdMaskV3 else RsvdMask) in
  set_rxdesc entry (with_opts1 (Z.ldiff (rd_opts1 d) mask) (with_addr RTL8125_MAGIC_NUMBER d)).
Definition rtl8125_mark_to_asic (entry : Z) : R unit :=
  let* d := rtl8125_get_rxdesc entry in
  let eor := Z.land (rd_opts1 d) RingEnd in
  set_rxdesc entry (with_opts1 (u32 (Z.lor (Z.lor DescOwn eor) (rx_buf_sz conf))) d).
Definition rtl8125_map_to_asic (entry mapping : Z) : R unit :=
  set_phys entry mapping ;;
  let* d := rtl8125_get_rxdesc entry in
  set_rxdesc entry (with_addr mapping d) ;;
  rtl8125_mark_to_asic entry.
Definition rtl8125_mark_as_last_descriptor (entry : Z) : R unit :=
  let* d := rtl8125_get_rxdesc entry in set_rxdesc entry (with_opts1 (Z.lor (rd_opts1 d) RingEnd) d).

(** ** Filling *)
Definition rtl8125_alloc_rx_skb (entry : Z) : R Z :=
  let* skb := dev_alloc_skb in
  match skb with
  | None => rtl8125_make_unusable_by_asic entry ;; ret (- ENOMEM)
  | Some skb =>
      let* mapping := dma_map_buf skb in
      match mapping with
      | None => dev_kfree_skb skb ;; rtl8125_make_unusable_by_asic entry ;; ret (- ENOMEM)
      | Some mapping => set_skbuff entry (Some skb) ;; rtl8125_map_to_asic entry mapping ;; ret 0
      end
  end.

(** [for (cur = start; end - cur > 0; cur++)]: how far it gets. *)
Fixpoint fill_loop (n : nat) (start cur : Z) : R Z :=
  match n with
  | O => ret (u32 (cur - start))
  | S n' =>
      let* i := rx_entry cur in
      let* k := get_skbuff i in
      match k with
      | Some _ => fill_loop n' start (u32 (cur + 1))
      | None =>
          let* rc := rtl8125_alloc_rx_skb i in
          if rc <? 0 then ret (u32 (cur - start)) else fill_loop n' start (u32 (cur + 1))
      end
  end.
Definition rtl8125_rx_fill (start end_ : Z) : R Z := fill_loop (Z.to_nat (u32 (end_ - start))) start start.

Definition rtl8125_free_rx_skb (entry skb : Z) : R unit :=
  let* a := get_phys entry in
  dma_unmap_buf a ;;
  dev_kfree_skb skb ;;
  set_skbuff entry None ;;
  rtl8125_make_unusable_by_asic entry.
(** One ring of [rtl8125_rx_clear]. *)
Definition rtl8125_rx_clear : R unit :=
  let* s := gets id in
  for_up (Z.to_nat (num_rx_desc (rxr s))) 0 (λ i,
    let* k := get_skbuff i in
    match k with Some skb => rtl8125_free_rx_skb i skb ;; set_skbuff i None | None => ret tt end).

(** [rtl8125_init_ring], the receive side of one ring. *)
Definition rtl8125_rx_desc_init : R unit :=
  modify (x_ring (λ r, rr_descs (replicate (length (RxDescArray r)) (RxD 0 0 0 0 0)) r)).
Definition rtl8125_rx_init_ring : R Z :=
  modify (x_ring (λ r, rr_dirty 0 (rr_cur 0 r))) ;;
  rtl8125_rx_desc_init ;;
  modify (x_ring (λ r, rr_skbs (replicate (length (Rx_skbuff r)) None) r)) ;;
  let* s := gets id in
  let num := num_rx_desc (rxr s) in
  let* n := rtl8125_rx_fill 0 num in
  if negb (n =? num) then rtl8125_rx_clear ;; ret (- ENOMEM)
  else rtl8125_mark_as_last_descriptor (num - 1) ;; ret 0.

(** ** A received frame *)
Definition bit (v mask : Z) : bool := negb (Z.land v mask =? 0).

Definition rtl8125_fragmented_frame (status : Z) : bool :=
  let both := if rx_desc_v3 conf then Z.lor FirstFrag_V3 LastFrag_V3 else Z.lor FirstFrag LastFrag in
  negb (Z.land status both =? both).
Definition rtl8125_check_rx_desc_error (status : Z) : R Z :=
  let '(res, len, crc) :=
    if rx_desc_v3 conf then (RxRES_V3, Z.lor RxRWT_V3 RxRUNT_V3, RxCRC_V3) else (RxRES, Z.lor RxRWT RxRUNT, RxCRC) in
  if bit status res then
    (when bit status len then modify (x_stats count_length)) ;;
    (when bit status crc then modify (x_stats count_crc)) ;;
    ret (-1)
  else ret 0.

(** [CHECKSUM_UNNECESSARY], from the descriptor's words. *)
Definition csum_v3 (opts2 : Z) : bool :=
  if (bit opts2 RxV4F && negb (bit opts2 RxIPF_v3)) || bit opts2 RxV6F then
    (bit opts2 RxTCPT_v3 && negb (bit opts2 RxTCPF_v3)) || (bit opts2 RxUDPT_v3 && negb (bit opts2 RxUDPF_v3))
  else false.
Definition csum_v1 (opts1 opts2 : Z) : bool :=
  if (bit opts2 RxV4F && negb (bit opts1 RxIPF)) || bit opts2 RxV6F then
    (bit opts1 RxTCPT && negb (bit opts1 RxTCPF)) || (bit opts1 RxUDPT && negb (bit opts1 RxUDPF))
  else false.
Definition rtl8125_rx_csum (d : RxDesc) : bool :=
  if rx_desc_v3 conf then csum_v3 (rd_opts2 d) else csum_v1 (rd_opts1 d) (rd_opts2 d).

(** The words of the hash are there in a [struct RxDescV3] only. *)
Definition rtl8125_rx_hash (d : RxDesc) : R (option (Z * bool)) :=
  if negb (feature_rxhash conf) then ret None
  else if negb (rx_desc_v3 conf) then ub
  else if negb (bit (rd_hdr d) RSS_L3_TYPE_MASK) then ret None
  else ret (Some (rd_rss d, bit (rd_hdr d) RSS_L4_TYPE_MASK)).

Definition rtl8125_rx_vlan_skb (entry : Z) : R (option Z) :=
  let* d := rtl8125_get_rxdesc entry in
  set_rxdesc entry (with_opts2 0 d) ;;
  ret (if bit (rd_opts2 d) RxVlanTag then Some (swab16 (Z.land (rd_opts2 d) 0xffff)) else None).

(** The packet to pass on: a copy of a short frame, whose buffer goes back to
    the chip, or the buffer itself. *)
Definition rtl8125_try_rx_copy (skb pkt_size entry : Z) : R (option Z) :=
  if s32 pkt_size <? rx_copybreak conf then
    let* copy := dev_alloc_skb in
    match copy with
    | Some copy =>
        let* s := gets id in
        modify (x_data copy (default 0 (rq_data s !! skb))) ;;
        rtl8125_mark_to_asic entry ;;
        ret (Some copy)
    | None => ret None
    end
  else ret None.

(** [napi_gro_receive]: the buffer is the stack's. *)
Definition rtl8125_rx_skb (skb : Z) (p : Z → rx_packet) : R unit :=
  let* s := gets id in
  if decide (skb ∈ rq_live s) then modify (λ s, x_stack (p (default 0 (rq_data s !! skb))) (x_gone skb s)) else ub.

Inductive rx_verdict := RxBreak | RxContinue | RxNext.

(** The packet [skb] is passed on, with what its descriptor says of it. *)
Definition rx_deliver (entry pkt_size skb : Z) : R rx_verdict :=
  let* d := rtl8125_get_rxdesc entry in
  let* hash := rtl8125_rx_hash d in
  let csum := RxChkSum conf && rtl8125_rx_csum d in
  let* s := gets id in
  (when is_multicast (default 0 (rq_data s !! skb)) then modify (x_stats count_multicast)) ;;
  let* vlan := rtl8125_rx_vlan_skb entry in
  rtl8125_rx_skb skb (λ data, RxPacket data pkt_size csum vlan hash) ;;
  modify (x_stats (count_packet pkt_size)) ;;
  ret RxNext.

(** [process_pkt]. The size is compared as [unsigned], so less than the
    checksum's four bytes is too much. *)
Definition rx_process (entry status : Z) : R rx_verdict :=
  let pkt_size := u32 (if feature_rxfcs conf then Z.land status 0x3fff else Z.land status 0x3fff - ETH_FCS_LEN) in
  if rtl8125_fragmented_frame status || (rx_buf_sz conf <? pkt_size) then
    modify (x_stats count_dropped) ;;
    modify (x_stats count_length) ;;
    rtl8125_mark_to_asic entry ;;
    ret RxContinue
  else
    let* k := get_skbuff entry in
    match k with
    | None => ret RxBreak
    | Some skb =>
        let* rx_buf_phy_addr := get_phys entry in
        let* copy := rtl8125_try_rx_copy skb pkt_size entry in
        (match copy with
         | None => set_skbuff entry None ;; dma_unmap_buf rx_buf_phy_addr
         | Some _ => ret tt
         end) ;;
        rx_deliver entry pkt_size (default skb copy)
    end.

(** One round of the loop, at the entry of [cur_rx]. *)
Definition rx_round (entry : Z) : R rx_verdict :=
  let* desc := rtl8125_get_rxdesc entry in
  let status := rd_opts1 desc in
  if bit status DescOwn then ret RxBreak else
  let* err := rtl8125_check_rx_desc_error status in
  if err <? 0 then
    modify (x_stats count_error) ;;
    if feature_rxall conf then rx_process entry status
    else rtl8125_mark_to_asic entry ;; ret RxNext
  else rx_process entry status.

(** [for (; rx_left > 0; rx_left--)]: [cur_rx] at its end. *)
Fixpoint rx_loop (rx_left : nat) (cur : Z) : R Z :=
  match rx_left with
  | O => ret cur
  | S n =>
      let* entry := rx_entry cur in
      let* v := rx_round entry in
      match v with
      | RxBreak => ret cur
      | RxContinue => rx_loop n cur
      | RxNext => rx_loop n (u32 (cur + 1))
      end
  end.

(** The poll in pieces, between which frames may arrive: how much to look at;
    the loop's rounds; refilling. *)
Definition rx_begin (budget : Z) : R Z :=
  let* s := gets id in
  ret (Z.min (u32 (num_rx_desc (rxr s) + dirty_rx (rxr s) - cur_rx (rxr s))) (u32 budget)).
Definition rx_end (cur : Z) : R Z :=
  let* s := gets id in
  let count := u32 (cur - cur_rx (rxr s)) in
  modify (x_ring (rr_cur cur)) ;;
  let* s := gets id in
  let* delta := rtl8125_rx_fill (dirty_rx (rxr s)) (cur_rx (rxr s)) in
  modify (x_ring (λ r, rr_dirty (u32 (dirty_rx r + delta)) r)) ;;
  ret count.
Definition rtl8125_rx_interrupt (budget : Z) : R Z :=
  let* s := gets id in
  match RxDescArray (rxr s) with
  | [] => ret 0
  | _ =>
      let* rx_left := rx_begin budget in
      let* cur := rx_loop (Z.to_nat rx_left) (cur_rx (rxr s)) in
      rx_end cur
  end.
End receive.
