(* ===== verification/R8125RxSpec.v ===== *)
(** * The receive ring: what the pieces of the receive path do

    The ring as the window of its slots from [cur_rx]: filled by the chip,
    armed with a buffer, or bare; and the books of its buffers. *)
From stdpp Require Import base tactics list gmap numbers.
From Stdlib Require Import ZArith Lia.
From S2P Require Import Prelude IossUtils RtlLib R8125Tx R8125Rx.

(** ** Windows *)
(** What the chip writes with a frame; the owner and end bits are not in
    [rf_status]. *)
Record rframe := RFrame { rf_status : Z; rf_opts2 : Z; rf_hdr : Z; rf_rss : Z; rf_data : Z }.
Definition frame_ok (f : rframe) : Prop := 0 ≤ rf_status f < 2 ^ 30.

Inductive rslot := Bare | Armed (id a : Z) | Filled (id a : Z) (f : rframe).
Abbreviation rwindow := (list rslot).
(** Bus address and buffer of a slot. *)
Definition slot_buf (o : rslot) : option (Z * Z) :=
  match o with Bare => None | Armed id a | Filled id a _ => Some (a, id) end.
Definition bufs (w : rwindow) : list (Z * Z) := omap slot_buf w.

Definition rx_wf (r : rtl8125_rx_ring) : Prop :=
  ring_size (num_rx_desc r) ∧ num_rx_desc r ≤ Z.of_nat (length (RxDescArray r)) ∧
  num_rx_desc r ≤ Z.of_nat (length (RxDescPhyAddr r)) ∧ num_rx_desc r ≤ Z.of_nat (length (Rx_skbuff r)).

(** The end bit of an entry, once it is set ([rend]). *)
Definition eor (rend : bool) (num : Z) (e : nat) : Z := if rend && (Z.of_nat e =? num - 1) then RingEnd else 0.

Section spec.
Context `{RxApi} (conf : rxconf).

Definition rslot_at (rend : bool) (s : rxq) (e : nat) (o : rslot) : Prop :=
  let r := rxr s in
  match o with
  | Bare => Rx_skbuff r !! e = Some None ∧
      ∃ d, RxDescArray r !! e = Some d ∧ Z.land (rd_opts1 d) DescOwn = 0 ∧ Z.land (rd_opts1 d) RingEnd = eor rend (num_rx_desc r) e
  | Armed id a => Rx_skbuff r !! e = Some (Some id) ∧ RxDescPhyAddr r !! e = Some a ∧
      ∃ d, RxDescArray r !! e = Some d ∧ rd_addr d = a ∧
           rd_opts1 d = Z.lor (Z.lor DescOwn (eor rend (num_rx_desc r) e)) (rx_buf_sz conf)
  | Filled id a f => Rx_skbuff r !! e = Some (Some id) ∧ RxDescPhyAddr r !! e = Some a ∧ frame_ok f ∧
      RxDescArray r !! e = Some (RxD (Z.lor (eor rend (num_rx_desc r) e) (rf_status f)) (rf_opts2 f) a (rf_hdr f) (rf_rss f)) ∧
      rq_data s !! id = Some (rf_data f)
  end.

(** The books: the buffers of the ring are those the driver holds, mapped each
    at its address. *)
Record book (s : rxq) (l : list (Z * Z)) : Prop := Book {
  bk_addrs : NoDup l.*1;
  bk_ids : NoDup l.*2;
  bk_mapped : rq_mapped s = list_to_map l;
  bk_live : rq_live s = list_to_set l.*2;
  bk_next : Forall (λ id, id < rq_next s) l.*2 }.

Record rview (rend : bool) (s : rxq) (D : Z) (w : rwindow) : Prop := RView {
  rv_wf : rx_wf (rxr s);
  rv_len : Z.of_nat (length w) = num_rx_desc (rxr s);
  rv_at : ∀ i o, w !! i = Some o → rslot_at rend s (entry_of (num_rx_desc (rxr s)) D i) o;
  rv_book : book s (bufs w) }.

Record rframe_same (s s' : rxq) : Prop := RSame {
  rs_index : rr_index (rxr s') = rr_index (rxr s);
  rs_cur : cur_rx (rxr s') = cur_rx (rxr s);
  rs_dirty : dirty_rx (rxr s') = dirty_rx (rxr s);
  rs_num : num_rx_desc (rxr s') = num_rx_desc (rxr s) }.
#[local] Instance rsame_refl : Reflexive rframe_same.
Proof. intros s. by split. Qed.
#[local] Instance rsame_trans : Transitive rframe_same.
Proof. intros s1 s2 s3 [] []. split; congruence. Qed.

(** ** Books *)
Lemma bufs_app w1 w2 : bufs (w1 ++ w2) = bufs w1 ++ bufs w2.
Proof. apply omap_app. Qed.
Lemma bufs_bare n : bufs (replicate n Bare) = [].
Proof. by induction n. Qed.
Lemma bufs_middle w1 o w2 : bufs (w1 ++ o :: w2) ≡ₚ option_list (slot_buf o) ++ bufs (w1 ++ w2).
Proof. rewrite !bufs_app. simpl. destruct (slot_buf o); simpl; [by rewrite Permutation_middle|done]. Qed.

Lemma book_perm s l l' : l ≡ₚ l' → book s l → book s l'.
Proof.
  intros Hp [Ha Hi Hm Hl Hn]. split.
  - by rewrite <- Hp.
  - by rewrite <- Hp.
  - rewrite Hm. by apply list_to_map_proper.
  - rewrite Hl. apply leibniz_equiv. by rewrite Hp.
  - by rewrite <- Hp.
Qed.

Lemma book_ext s s' l : rq_mapped s' = rq_mapped s → rq_live s' = rq_live s → rq_next s' = rq_next s → book s l → book s' l.
Proof. intros E1 E2 E3 []. by split; rewrite ?E1, ?E2, ?E3. Qed.

Lemma book_add s s' l a : book s l → rq_mapped s !! a = None →
  rq_mapped s' = <[a := rq_next s]> (rq_mapped s) → rq_live s' = {[rq_next s]} ∪ rq_live s → rq_next s' = rq_next s + 1 →
  book s' ((a, rq_next s) :: l).
Proof.
  intros [Ha Hi Hm Hl Hn] Hnone E1 E2 E3. split; simpl.
  - apply list.NoDup_cons. split; [|done]. rewrite Hm in Hnone. by apply not_elem_of_list_to_map.
  - apply list.NoDup_cons. split; [|done]. intros Hin. eapply list.Forall_forall in Hn; [|done]. lia.
  - by rewrite E1, Hm.
  - by rewrite E2, Hl.
  - rewrite E3. constructor; [lia|]. eapply list.Forall_impl; [done|]. simpl. lia.
Qed.

Lemma book_drop s s' l a id : book s ((a, id) :: l) →
  rq_mapped s' = delete a (rq_mapped s) → rq_live s' = rq_live s ∖ {[id]} → rq_next s' = rq_next s → book s' l.
Proof.
  intros [Ha Hi Hm Hl Hn] E1 E2 E3. simpl in *. apply list.NoDup_cons in Ha as [Ha Ha']. apply list.NoDup_cons in Hi as [Hi Hi'].
  apply Forall_cons_1 in Hn as [_ Hn]. split; rewrite ?E1, ?E2, ?E3; try done.
  - rewrite Hm. apply delete_insert_id. by apply not_elem_of_list_to_map_1.
  - rewrite Hl. apply leibniz_equiv. clear -Hi. set_solver.
Qed.

Lemma book_mem s l a id : book s l → (a, id) ∈ l → rq_mapped s !! a = Some id ∧ id ∈ rq_live s ∧ id < rq_next s.
Proof.
  intros [Ha Hi Hm Hl Hn] Hin. assert (Hid : id ∈ l.*2) by (apply list_elem_of_fmap; by exists (a, id)).
  split; [rewrite Hm; by apply elem_of_list_to_map|]. split; [rewrite Hl; by apply elem_of_list_to_set|].
  by eapply list.Forall_forall in Hn.
Qed.

(** ** Bits *)
Lemma land_lor_l a b c : Z.land (Z.lor a b) c = Z.lor (Z.land a c) (Z.land b c).
Proof. apply Z.land_lor_distr_l. Qed.
Lemma land_ldiff a m b : Z.land (Z.ldiff a m) b = Z.land a (Z.ldiff b m).
Proof.
  apply Z.bits_inj'. intros n Hn. rewrite !Z.land_spec, !Z.ldiff_spec.
  destruct (Z.testbit a n), (Z.testbit m n), (Z.testbit b n); done.
Qed.
Lemma land_high x n k : 0 ≤ x < 2 ^ n → 0 ≤ n ≤ k → Z.land x (Z.shiftl 1 k) = 0.
Proof.
  intros Hx Hk. rewrite Z.shiftl_1_l. apply Z.bits_inj'. intros m Hm. rewrite Z.land_spec, Z.bits_0, Z.pow2_bits_eqb by lia.
  destruct (Z.eqb_spec k m) as [<-|]; [|apply andb_false_r]. rewrite andb_true_r.
  destruct (decide (x = 0)) as [->|]; [apply Z.bits_0|]. apply Z.bits_above_log2; [lia|]. apply Z.log2_lt_pow2; [lia|].
  eapply Z.lt_le_trans; [apply Hx|]. apply Z.pow_le_mono_r; lia.
Qed.

Lemma eor_cases rend num e : eor rend num e = 0 ∨ eor rend num e = RingEnd.
Proof. unfold eor. destruct (_ && _); auto. Qed.
(** The end bit is in none of the other fields. *)
Lemma land_eor rend num e st m : Z.land RingEnd m = 0 → Z.land (Z.lor (eor rend num e) st) m = Z.land st m.
Proof. intros Hm. rewrite land_lor_l. by destruct (eor_cases rend num e) as [->| ->]; rewrite ?Hm, ?Z.land_0_l, Z.lor_0_l. Qed.

Section bits.
Context (Hsz : 0 ≤ rx_buf_sz conf < 2 ^ 14).

Lemma size_own : Z.land (rx_buf_sz conf) DescOwn = 0.
Proof. apply (land_high _ 14 31); [exact Hsz|lia]. Qed.
Lemma size_end : Z.land (rx_buf_sz conf) RingEnd = 0.
Proof. apply (land_high _ 14 30); [exact Hsz|lia]. Qed.

Lemma armed_owned rend num e : bit (Z.lor (Z.lor DescOwn (eor rend num e)) (rx_buf_sz conf)) DescOwn = true.
Proof.
  unfold bit. rewrite !land_lor_l, size_own. by destruct (eor_cases rend num e) as [->| ->].
Qed.
Lemma armed_end rend num e : Z.land (Z.lor (Z.lor DescOwn (eor rend num e)) (rx_buf_sz conf)) RingEnd = eor rend num e.
Proof.
  rewrite !land_lor_l, size_end. by destruct (eor_cases rend num e) as [->| ->].
Qed.
Lemma armed_u32 rend num e : u32 (Z.lor (Z.lor DescOwn (eor rend num e)) (rx_buf_sz conf)) = Z.lor (Z.lor DescOwn (eor rend num e)) (rx_buf_sz conf).
Proof.
  set (x := Z.lor DescOwn _). assert (Hx : 0 ≤ x ≤ 2 ^ 31 + 2 ^ 30) by (subst x; by destruct (eor_cases rend num e) as [->| ->]).
  clearbody x. apply Z.mod_small. pose proof (Z.add_lor_land x (rx_buf_sz conf)).
  assert (0 ≤ Z.land x (rx_buf_sz conf)) by (apply Z.land_nonneg; lia).
  assert (0 ≤ Z.lor x (rx_buf_sz conf)) by (apply Z.lor_nonneg; lia). lia.
Qed.


(** ** One slot *)
Record rupd_at (e : nat) (r r' : rtl8125_rx_ring) : Prop := RUpd {
  ru_num : num_rx_desc r' = num_rx_desc r;
  ru_ld : length (RxDescArray r') = length (RxDescArray r);
  ru_lp : length (RxDescPhyAddr r') = length (RxDescPhyAddr r);
  ru_lk : length (Rx_skbuff r') = length (Rx_skbuff r);
  ru_d : ∀ e', e' ≠ e → RxDescArray r' !! e' = RxDescArray r !! e';
  ru_p : ∀ e', e' ≠ e → RxDescPhyAddr r' !! e' = RxDescPhyAddr r !! e';
  ru_k : ∀ e', e' ≠ e → Rx_skbuff r' !! e' = Rx_skbuff r !! e' }.

Lemma rupd_trans e r1 r2 r3 : rupd_at e r1 r2 → rupd_at e r2 r3 → rupd_at e r1 r3.
Proof.
  intros [] []. split; try congruence; intros e' He; [rewrite ru_d1, ru_d0|rewrite ru_p1, ru_p0|rewrite ru_k1, ru_k0]; done.
Qed.
Lemma rupd_wf e r r' : rupd_at e r r' → rx_wf r → rx_wf r'.
Proof. intros [] (? & ? & ? & ?). unfold rx_wf. rewrite ru_num0, ru_ld0, ru_lp0, ru_lk0. done. Qed.
Lemma rupd_desc e d r : rupd_at e r (rr_descs (<[e := d]> (RxDescArray r)) r).
Proof. split; simpl; rewrite ?length_insert; try done. intros. by rewrite list_lookup_insert_ne. Qed.
Lemma rupd_phys e a r : rupd_at e r (rr_phys (<[e := a]> (RxDescPhyAddr r)) r).
Proof. split; simpl; rewrite ?length_insert; try done. intros. by rewrite list_lookup_insert_ne. Qed.
Lemma rupd_skb e k r : rupd_at e r (rr_skbs (<[e := k]> (Rx_skbuff r)) r).
Proof. split; simpl; rewrite ?length_insert; try done. intros. by rewrite list_lookup_insert_ne. Qed.
Lemma rupd_refl e r : rupd_at e r r.
Proof. by split. Qed.

(** What a filled slot says of its buffer. *)
Definition slot_data (s : rxq) (o : rslot) : Prop :=
  match o with Filled id _ f => rq_data s !! id = Some (rf_data f) | _ => True end.

Lemma rslot_other rend s s' e e' o :
  rupd_at e (rxr s) (rxr s') → e' ≠ e → slot_data s' o → rslot_at rend s e' o → rslot_at rend s' e' o.
Proof.
  intros Hu Hne Hd. pose proof (ru_num _ _ _ Hu) as En. destruct o; simpl in *;
    rewrite ?(ru_d _ _ _ Hu), ?(ru_p _ _ _ Hu), ?(ru_k _ _ _ Hu), ?En by done; [done|done|].
  intros (? & ? & ? & ? & _). done.
Qed.

Lemma rslot_data rend s e o : rslot_at rend s e o → slot_data s o.
Proof. by destruct o; [..|intros (_ & _ & _ & _ & ?)]. Qed.

Lemma rview_set rend s s' D w1 o o' w2 :
  rview rend s D (w1 ++ o :: w2) →
  rupd_at (entry_of (num_rx_desc (rxr s)) D (length w1)) (rxr s) (rxr s') →
  rslot_at rend s' (entry_of (num_rx_desc (rxr s)) D (length w1)) o' →
  (∀ x, x ∈ w1 ++ w2 → slot_data s x → slot_data s' x) →
  (book s (option_list (slot_buf o) ++ bufs (w1 ++ w2)) → book s' (option_list (slot_buf o') ++ bufs (w1 ++ w2))) →
  rview rend s' D (w1 ++ o' :: w2).
Proof.
  intros [Hwf Hl Hat Hb] Hu Ho Hdata Hbk. pose proof (ru_num _ _ _ Hu) as En. split.
  - by eapply rupd_wf.
  - rewrite En, <- Hl, !length_app. done.
  - intros j x Hj. rewrite En. destruct (decide (j = length w1)) as [->|Hne].
    + rewrite middle_lookup in Hj. by injection Hj as <-.
    + assert (Hj' : (w1 ++ o :: w2) !! j = Some x) by (rewrite <- (middle_insert w1 w2 o' o), list_lookup_insert_ne by done; done).
      assert (Hx : x ∈ w1 ++ w2).
      { apply elem_of_app. apply lookup_app_Some in Hj' as [Hj'|[Hle Hj']]; [left; by eapply list_elem_of_lookup_2|].
        right. destruct (j - length w1)%nat as [|k] eqn:Ek; [lia|]. simpl in Hj'. by eapply list_elem_of_lookup_2. }
      pose proof (Hat _ _ Hj') as Ha. eapply rslot_other; [exact Hu| |apply Hdata; [done|by eapply rslot_data]|exact Ha].
      intros E. apply entry_inj in E; [done|apply Hwf| |].
      * rewrite <- Hl. apply lookup_lt_Some in Hj'. lia.
      * rewrite <- Hl, length_app. simpl. lia.
  - eapply book_perm; [symmetry; apply bufs_middle|]. apply Hbk. eapply book_perm; [apply bufs_middle|done].
Qed.

Lemma rview_at rend s D w1 o w2 : rview rend s D (w1 ++ o :: w2) →
  rslot_at rend s (entry_of (num_rx_desc (rxr s)) D (length w1)) o.
Proof. intros Hv. eapply rv_at; [done|]. apply middle_lookup. Qed.

Lemma rview_lt rend s D i w : rview rend s D w →
  (entry_of (num_rx_desc (rxr s)) D i < length (RxDescArray (rxr s)))%nat ∧
  (entry_of (num_rx_desc (rxr s)) D i < length (RxDescPhyAddr (rxr s)))%nat ∧
  (entry_of (num_rx_desc (rxr s)) D i < length (Rx_skbuff (rxr s)))%nat.
Proof.
  intros [Hwf _ _ _]. pose proof (entry_bound _ (proj1 Hwf) D i). destruct Hwf as (_ & ? & ? & ?). lia.
Qed.

Lemma rview_ext rend s s' D w : rxr s' = rxr s → rq_data s' = rq_data s → rq_mapped s' = rq_mapped s → rq_live s' = rq_live s →
  rq_next s' = rq_next s → rview rend s D w → rview rend s' D w.
Proof.
  intros E1 E2 E3 E4 E5 [Hwf Hl Hat Hb]. split; rewrite ?E1; [done|done| |by eapply book_ext].
  intros i o Hi. specialize (Hat i o Hi). destruct o; simpl in *; rewrite ?E1, ?E2; done.
Qed.

Lemma rview_rotate rend s D o w : rview rend s D (o :: w) ↔ rview rend s (D + 1) (w ++ [o]).
Proof.
  assert (A : rx_wf (rxr s) → Z.of_nat (S (length w)) = num_rx_desc (rxr s) →
              entry_of (num_rx_desc (rxr s)) (D + 1) (length w) = entry_of (num_rx_desc (rxr s)) D 0)
    by (intros Hwf; apply entry_rotate, Hwf).
  assert (B : ∀ i, entry_of (num_rx_desc (rxr s)) (D + 1) i = entry_of (num_rx_desc (rxr s)) D (S i)) by (intros i; apply entry_succ).
  assert (P : bufs (o :: w) ≡ₚ bufs (w ++ [o])).
  { rewrite bufs_app. rewrite (Permutation_app_comm (bufs w)). unfold bufs. simpl. by destruct (slot_buf o). }
  split; intros [Hwf Hl Hat Hb]; simpl in Hl; (split; [done| | |]).
  - rewrite length_app. simpl. lia.
  - intros i oi Hi. apply lookup_app_Some in Hi as [Hi|[Hle Hi]].
    + rewrite B. by apply Hat.
    + apply list_lookup_singleton_Some in Hi as [Hi <-]. replace i with (length w) by lia. rewrite A by done. by apply Hat.
  - by eapply book_perm.
  - rewrite length_app in Hl. simpl in *. lia.
  - rewrite length_app in Hl. simpl in Hl. intros [|i] oi Hi; simpl in Hi.
    + injection Hi as <-. rewrite <- A by (done || lia). apply Hat. rewrite lookup_app_r, Nat.sub_diag by lia. done.
    + rewrite <- B. apply Hat. rewrite lookup_app_l by (by eapply lookup_lt_Some). done.
  - by eapply book_perm.
Qed.

Lemma rx_entry_wp s n D i (Q : Z → rxq → Prop) :
  rx_wf (rxr s) → n mod num_rx_desc (rxr s) = (D + Z.of_nat i) mod num_rx_desc (rxr s) →
  Q (Z.of_nat (entry_of (num_rx_desc (rxr s)) D i)) s → wp (rx_entry n) Q s.
Proof.
  intros Hwf E HQ. pose proof (size_pos _ (proj1 Hwf)). unfold rx_entry. wp_steps. unfold id.
  rewrite (proj2 (Z.eqb_neq _ _)) by lia. wp_steps. by rewrite (u32_entry _ (proj1 Hwf)), E, <- (entry_Z _ (proj1 Hwf)).
Qed.

(** ** Descriptor words *)
Definition unusable (d : RxDesc) : RxDesc :=
  with_opts1 (Z.ldiff (rd_opts1 d) (Z.lor DescOwn (if rx_desc_v3 conf then RsvdMaskV3 else RsvdMask))) (with_addr RTL8125_MAGIC_NUMBER d).
Definition armed (d : RxDesc) : RxDesc :=
  with_opts1 (u32 (Z.lor (Z.lor DescOwn (Z.land (rd_opts1 d) RingEnd)) (rx_buf_sz conf))) d.
Definition put_desc (e : nat) (d : RxDesc) (s : rxq) : rxq := x_ring (rr_descs (<[e := d]> (RxDescArray (rxr s)))) s.

Lemma unusable_eq s e d : RxDescArray (rxr s) !! e = Some d →
  rtl8125_make_unusable_by_asic conf (Z.of_nat e) s = Some (tt, put_desc e (unusable d) s).
Proof.
  intros Hd. unfold rtl8125_make_unusable_by_asic, rtl8125_get_rxdesc, set_rxdesc, bind, gets, lift_opt, modify, id.
  by rewrite Nat2Z.id, Hd.
Qed.
Lemma armed_eq s e d : RxDescArray (rxr s) !! e = Some d →
  rtl8125_mark_to_asic conf (Z.of_nat e) s = Some (tt, put_desc e (armed d) s).
Proof.
  intros Hd. unfold rtl8125_mark_to_asic, rtl8125_get_rxdesc, set_rxdesc, bind, gets, lift_opt, modify, id.
  by rewrite Nat2Z.id, Hd.
Qed.
Lemma map_eq s e d a : RxDescArray (rxr s) !! e = Some d → ∃ s',
  rtl8125_map_to_asic conf (Z.of_nat e) a s = Some (tt, s') ∧
  s' = x_ring (λ r, rr_descs (<[e := armed (with_addr a d)]> (RxDescArray r)) (rr_phys (<[e := a]> (RxDescPhyAddr r)) r)) s.
Proof.
  intros Hd. assert (Hlt : (e < length (RxDescArray (rxr s)))%nat) by by eapply lookup_lt_Some.
  unfold rtl8125_map_to_asic, set_phys, rtl8125_get_rxdesc, set_rxdesc.
  unfold bind at 1, modify at 1. unfold bind at 1. unfold bind at 1, gets at 1, lift_opt at 1, id at 1. simpl.
  rewrite Nat2Z.id, Hd. unfold bind at 1, modify at 1. erewrite armed_eq; [|simpl; by apply list_lookup_insert_eq].
  eexists. split; [done|]. unfold put_desc, x_ring, rr_descs, rr_phys. simpl. by rewrite list_insert_insert_eq.
Qed.

Lemma unusable_words d : Z.land (rd_opts1 (unusable d)) DescOwn = 0 ∧ Z.land (rd_opts1 (unusable d)) RingEnd = Z.land (rd_opts1 d) RingEnd.
Proof.
  unfold unusable, with_opts1. cbn [rd_opts1]. rewrite !land_ldiff.
  destruct (rx_desc_v3 conf); (split; [apply Z.land_0_r|done]).
Qed.
Lemma armed_words d rend num e : Z.land (rd_opts1 d) RingEnd = eor rend num e →
  rd_opts1 (armed d) = Z.lor (Z.lor DescOwn (eor rend num e)) (rx_buf_sz conf).
Proof. intros E. unfold armed, with_opts1. cbn [rd_opts1]. rewrite E. apply armed_u32. Qed.

Lemma slot_desc rend s e o : rslot_at rend s e o → ∃ d, RxDescArray (rxr s) !! e = Some d ∧
  Z.land (rd_opts1 d) RingEnd = eor rend (num_rx_desc (rxr s)) e ∧ bit (rd_opts1 d) DescOwn = match o with Armed _ _ => true | _ => false end.
Proof.
  destruct o as [|id a|id a f]; simpl.
  - intros (_ & d & Hd & Ho & He). exists d. unfold bit. rewrite Ho. done.
  - intros (_ & _ & d & Hd & _ & E). exists d. split; [done|]. rewrite E. split; [apply armed_end|apply armed_owned].
  - intros (_ & _ & [Hf1 Hf2] & Hd & _). eexists. split; [done|]. simpl. rewrite land_lor_l.
    assert (Z.land (rf_status f) RingEnd = 0) as -> by (apply (land_high _ 30 30); lia). split.
    + rewrite Z.lor_0_r. by destruct (eor_cases rend (num_rx_desc (rxr s)) e) as [->| ->].
    + unfold bit. rewrite land_eor by done. by rewrite (land_high _ 30 31) by lia.
Qed.
End bits.
End spec.

Ltac solve_upd := split; simpl; rewrite ?length_insert; try done; intros; by rewrite ?list_lookup_insert_ne by done.

Section operations.
Context `{RxApi} (conf : rxconf) (Hsz : 0 ≤ rx_buf_sz conf < 2 ^ 14).

(** Neither the stack nor the statistics nor the counts see it. *)
Record quiet (s s' : rxq) : Prop := Quiet {
  qt_frame : rframe_same s s'; qt_stack : rq_stack s' = rq_stack s; qt_stats : rq_stats s' = rq_stats s }.
#[export] Instance quiet_refl : Reflexive quiet.
Proof. intros s. by split. Qed.
#[export] Instance quiet_trans : Transitive quiet.
Proof. intros s1 s2 s3 [[] ] [[] ]. split; [split|..]; congruence. Qed.

Lemma rview_books rend s s' D w : rxr s' = rxr s → (∀ x, x ∈ w → slot_data s x → slot_data s' x) →
  (book s (bufs w) → book s' (bufs w)) → rview conf rend s D w → rview conf rend s' D w.
Proof.
  intros E Hd Hbk [Hwf Hl Hat Hb]. split; rewrite ?E; [done|done| |by apply Hbk].
  intros i o Hi. specialize (Hat i o Hi). pose proof (list_elem_of_lookup_2 _ _ _ Hi) as Hin.
  specialize (Hd o Hin (rslot_data _ _ _ _ _ Hat)). destruct o; simpl in *; rewrite ?E; [done|done|].
  destruct Hat as (? & ? & ? & ? & _). done.
Qed.

Lemma bufs_filled id a f w : Filled id a f ∈ w → (a, id) ∈ bufs w.
Proof. intros Hin. apply list_elem_of_omap. exists (Filled id a f). done. Qed.
Lemma bufs_armed id a w : Armed id a ∈ w → (a, id) ∈ bufs w.
Proof. intros Hin. apply list_elem_of_omap. exists (Armed id a). done. Qed.

(** A new buffer has nothing to do with what the ring holds. *)
Lemma data_new s s' w l : book s l → bufs w ⊆ l → (∀ id, id < rq_next s → rq_data s' !! id = rq_data s !! id) →
  ∀ x, x ∈ w → slot_data s x → slot_data s' x.
Proof.
  intros Hb Hsub E x Hin. destruct x as [|id a|id a f]; [done|done|]. simpl.
  apply bufs_filled in Hin. apply Hsub in Hin. apply (book_mem _ _ _ _ Hb) in Hin as (_ & _ & Hlt).
  by rewrite E.
Qed.

Lemma live_new s l : book s l → rq_next s ∉ rq_live s.
Proof.
  intros [_ _ _ Hl Hn]. rewrite Hl, elem_of_list_to_set. intros Hin. eapply list.Forall_forall in Hn; [|done]. simpl in Hn. lia.
Qed.

Lemma book_lost s s' l : rq_mapped s' = rq_mapped s → rq_live s' = rq_live s → rq_next s ≤ rq_next s' → book s l → book s' l.
Proof.
  intros E1 E2 E3 []. split; rewrite ?E1, ?E2; try done. eapply list.Forall_impl; [done|]. simpl. lia.
Qed.

(** A bare slot whose descriptor is written again, still not the chip's. *)
Lemma bare_again rend s D w1 w2 d : rview conf rend s D (w1 ++ Bare :: w2) →
  let e := entry_of (num_rx_desc (rxr s)) D (length w1) in
  Z.land (rd_opts1 d) DescOwn = 0 → Z.land (rd_opts1 d) RingEnd = eor rend (num_rx_desc (rxr s)) e →
  rview conf rend (put_desc e d s) D (w1 ++ Bare :: w2).
Proof.
  intros Hv e Ho He. pose proof (rview_lt _ _ _ _ (length w1) _ Hv) as (Hlt & _).
  pose proof (rview_at _ _ _ _ _ _ _ Hv) as (Hk & _).
  eapply rview_set; [exact Hv|apply rupd_desc| |done|by apply book_ext].
  split; [done|]. exists d. split; [|done]. simpl. by apply list_lookup_insert_eq.
Qed.

Lemma unusable_wp rend s D w1 w2 (Q : unit → rxq → Prop) :
  rview conf rend s D (w1 ++ Bare :: w2) →
  (∀ s', quiet s s' → rview conf rend s' D (w1 ++ Bare :: w2) → Q tt s') →
  wp (rtl8125_make_unusable_by_asic conf (Z.of_nat (entry_of (num_rx_desc (rxr s)) D (length w1)))) Q s.
Proof.
  intros Hv HQ. pose proof (rview_at _ _ _ _ _ _ _ Hv) as Hat. pose proof Hat as (_ & d & Hd & _ & He).
  eapply wp_intro; [by apply unusable_eq|]. destruct (unusable_words conf d) as [Ho He'].
  apply HQ; [by split|]. apply bare_again; [done|done|]. by rewrite He'.
Qed.

(** A bare slot gets a buffer that is new and mapped. *)
Lemma arm_bare rend s s0 D w1 w2 d a : rview conf rend s0 D (w1 ++ Bare :: w2) → rxr s = rxr s0 →
  let e := entry_of (num_rx_desc (rxr s0)) D (length w1) in
  RxDescArray (rxr s0) !! e = Some d →
  rq_mapped s0 !! a = None → rq_mapped s = <[a := rq_next s0]> (rq_mapped s0) → rq_live s = {[rq_next s0]} ∪ rq_live s0 →
  rq_next s = rq_next s0 + 1 → (∀ id, id < rq_next s0 → rq_data s !! id = rq_data s0 !! id) →
  rview conf rend (x_ring (λ r, rr_descs (<[e := armed conf (with_addr a d)]> (RxDescArray r)) (rr_phys (<[e := a]> (RxDescPhyAddr r)) r))
      (x_ring (λ r, rr_skbs (<[e := Some (rq_next s0)]> (Rx_skbuff r)) r) s)) D (w1 ++ Armed (rq_next s0) a :: w2).
Proof.
  intros Hv Er e Hd Hnone Em El En Ed. pose proof (rview_lt _ _ _ _ (length w1) _ Hv) as (H1 & H2 & H3).
  pose proof (rview_at _ _ _ _ _ _ _ Hv) as (_ & d' & Hd' & _ & He). fold e in H1, H2, H3, Hd', He.
  eapply rview_set; [exact Hv| | | |].
  - simpl. rewrite Er. fold e. solve_upd.
  - fold e. simpl. rewrite Er. simpl. rewrite !list_lookup_insert_eq by done. do 2 (split; [done|]). eexists. split; [done|]. split; [done|].
    apply armed_words; [done|]. simpl. assert (d' = d) as <- by congruence. done.
  - eapply data_new; [apply Hv| |exact Ed]. rewrite !bufs_app. simpl. done.
  - simpl. intros Hb. apply (book_add s0); done.
Qed.

Lemma alloc_rx_skb_wp rend s D w1 w2 :
  rview conf rend s D (w1 ++ Bare :: w2) →
  wp (rtl8125_alloc_rx_skb conf (Z.of_nat (entry_of (num_rx_desc (rxr s)) D (length w1))))
    (λ rc s', quiet s s' ∧ ((rc = 0 ∧ ∃ id a, rview conf rend s' D (w1 ++ Armed id a :: w2)) ∨
                           (rc = - ENOMEM ∧ rview conf rend s' D (w1 ++ Bare :: w2)))) s.
Proof.
  intros Hv. pose proof (rv_book _ _ _ _ _ Hv) as Hb. pose proof (rview_at _ _ _ _ _ _ _ Hv) as (_ & d & Hd & _ & He).
  set (Q := λ (rc : Z) s', quiet s s' ∧ _).
  assert (Hfail : ∀ s1, rxr s1 = rxr s → quiet s s1 → rview conf rend s1 D (w1 ++ Bare :: w2) →
    wp (rtl8125_make_unusable_by_asic conf (Z.of_nat (entry_of (num_rx_desc (rxr s)) D (length w1)))) (λ _ s', wp (ret (- ENOMEM)) Q s') s1).
  { intros s1 E Hq Hv1. rewrite <- E. eapply unusable_wp; [done|]. intros s2 Hq2 Hv2. wp_steps.
    split; [by etrans|]. by right. }
  unfold rtl8125_alloc_rx_skb, dev_alloc_skb. wp_steps. unfold id. destruct (skb_alloc_fails _); wp_steps.
  { apply Hfail; [done|by split|]. by apply (rview_ext _ _ s). }
  unfold dma_map_buf. wp_steps. unfold id. simpl. destruct (dma_map_rx _) as [a|]; simpl;
    [destruct (rq_mapped s !! a) as [?|] eqn:Ea|]; wp_steps.
  2: { unfold set_skbuff. wp_steps. rewrite Nat2Z.id.
       match goal with |- wp _ _ ?st => destruct (map_eq conf st _ d a Hd) as (s' & E & ->) end. eapply wp_intro; [exact E|]. wp_steps.
       split; [split; [by split|done..]|]. left. split; [done|]. exists (rq_next s), a. eapply arm_bare; try done. simpl. intros. by rewrite lookup_insert_ne by lia. }
  all: unfold dev_kfree_skb; wp_steps; simpl; rewrite decide_True by (clear; set_solver); wp_steps;
    apply Hfail; [done|by split; [split|..]|];
    eapply (rview_books _ s); [done|eapply data_new; [done..|simpl; intros; by rewrite lookup_insert_ne by lia]| |done];
    apply book_lost; [done|simpl; pose proof (live_new _ _ Hb) as Hnew; clear -Hnew; set_solver|simpl; lia].
Qed.

(** ** Filling *)
Definition is_bare (o : rslot) : bool := match o with Bare => true | _ => false end.
(** What filling may do to a slot. *)
Definition rearmed (o o' : rslot) : Prop := match o with Bare => o' = Bare ∨ ∃ id a, o' = Armed id a | _ => o' = o end.
#[export] Instance rearmed_refl : Reflexive rearmed.
Proof. intros []; simpl; auto. Qed.

(** How filling the slots [w] comes out that are between [pre] and [post]. *)
Record filled (rend : bool) (s : rxq) (D : Z) (pre w post : rwindow) (k : nat) (s' : rxq) : Prop := FilledP {
  fl_quiet : quiet s s';
  fl_bound : (k ≤ length w)%nat;
  fl_view : ∃ w', rview conf rend s' D (pre ++ w' ++ post) ∧ Forall2 rearmed w w' ∧ drop k w' = drop k w ∧
              Forall (λ o, is_bare o = false) (take k w') ∧ ((k < length w)%nat → w !! k = Some Bare) }.

Lemma filled_cons rend s s1 D pre o o' w post k s' : quiet s s1 → rearmed o o' → is_bare o' = false →
  filled rend s1 D (pre ++ [o']) w post k s' → filled rend s D pre (o :: w) post (S k) s'.
Proof.
  intros Hq Ho Hb [Hq' Hk (w' & Hv & Hr & Hd & Ht & Hn)]. split; [by etrans|simpl; lia|].
  exists (o' :: w'). rewrite <- app_assoc in Hv. split; [done|]. split; [by constructor|]. split; [done|].
  split; [by constructor|]. simpl. intros. apply Hn. lia.
Qed.

Lemma ring_fill_loop_wp rend w : ∀ s D pre post start cur,
  rview conf rend s D (pre ++ w ++ post) → cur = u32 (D + Z.of_nat (length pre)) →
  wp (fill_loop conf (length w) start cur) (λ r s', ∃ k, r = u32 (cur + Z.of_nat k - start) ∧ filled rend s D pre w post k s') s.
Proof.
  induction w as [|o w IH]; intros s D pre post start cur Hv Hc; simpl.
  { wp_steps. exists 0%nat. rewrite Z.add_0_r. split; [done|]. split; [done|done|]. exists []. split; [done|].
    split; [constructor|]. split; [done|]. split; [constructor|]. simpl. lia. }
  wp_step. eapply (rx_entry_wp _ _ D (length pre)); [apply Hv| |].
  { rewrite Hc. apply u32_entry, Hv. }
  assert (Hnext : ∀ s1 o', quiet s s1 → rearmed o o' → is_bare o' = false → rview conf rend s1 D (pre ++ o' :: w ++ post) →
    wp (fill_loop conf (length w) start (u32 (cur + 1)))
       (λ r s', ∃ k, r = u32 (cur + Z.of_nat k - start) ∧ filled rend s D pre (o :: w) post k s') s1).
  { intros s1 o' Hq Hr Hb Hv1. eapply wp_mono; [apply (IH s1 D (pre ++ [o']) post)|].
    - by rewrite <- app_assoc.
    - rewrite Hc, length_app. unfold u32. rewrite Zplus_mod_idemp_l. f_equal. simpl. lia.
    - intros r s' (k & -> & Hf). exists (S k). split; [|by eapply filled_cons].
      unfold u32 at 1 3. rewrite <- Z.add_sub_assoc. unfold u32. rewrite Zplus_mod_idemp_l. f_equal. lia. }
  unfold get_skbuff. wp_steps. rewrite Nat2Z.id. unfold id. pose proof (rview_at _ _ _ _ _ _ _ Hv) as Hat.
  destruct o as [|id a|id a f].
  - eapply wp_lift_opt; [apply Hat|]. cbv beta iota. wp_step. eapply wp_mono; [by apply alloc_rx_skb_wp|].
    intros rc s1 (Hq & [(-> & id & a & Hv1)|(-> & Hv1)]); simpl.
    + apply (Hnext _ (Armed id a)); [done| |done|exact Hv1]. right. eauto.
    + wp_steps. exists 0%nat. rewrite Z.add_0_r. split; [done|]. split; [done|simpl; lia|]. exists (Bare :: w). split; [done|].
      split; [by apply Forall_Forall2_diag, Forall_true|].
      split; [done|]. split; [constructor|done].
  - eapply wp_lift_opt; [apply Hat|]. cbv beta iota. by apply (Hnext _ (Armed id a)).
  - eapply wp_lift_opt; [apply Hat|]. cbv beta iota. by apply (Hnext _ (Filled id a f)).
Qed.

Lemma ring_fill_wp rend w s D pre post start end_ :
  rview conf rend s D (pre ++ w ++ post) → start = u32 (D + Z.of_nat (length pre)) → u32 (end_ - start) = Z.of_nat (length w) →
  wp (rtl8125_rx_fill conf start end_) (λ r s', ∃ k, r = Z.of_nat k ∧ filled rend s D pre w post k s') s.
Proof.
  intros Hv Hs He. unfold rtl8125_rx_fill. rewrite He, Nat2Z.id. eapply wp_mono; [by apply ring_fill_loop_wp|].
  intros r s' (k & -> & Hf). exists k. split; [|done]. pose proof (fl_bound _ _ _ _ _ _ _ _ Hf) as Hk.
  replace (start + Z.of_nat k - start) with (Z.of_nat k) by lia. apply Z.mod_small.
  assert (u32 (end_ - start) < 2 ^ 32) by (apply Z.mod_pos_bound; lia). lia.
Qed.

(** ** Taking a buffer out *)
Lemma free_rx_skb_wp rend s D w1 o w2 id a (Q : unit → rxq → Prop) :
  rview conf rend s D (w1 ++ o :: w2) → slot_buf o = Some (a, id) →
  (∀ s', quiet s s' → rview conf rend s' D (w1 ++ Bare :: w2) → Q tt s') →
  wp (rtl8125_free_rx_skb conf (Z.of_nat (entry_of (num_rx_desc (rxr s)) D (length w1))) id) Q s.
Proof.
  intros Hv Ho HQ. pose proof (rview_at _ _ _ _ _ _ _ Hv) as Hat. pose proof (rview_lt _ _ _ _ (length w1) _ Hv) as (H1 & H2 & H3).
  set (e := entry_of _ _ _) in *. destruct (slot_desc _ Hsz _ _ _ _ Hat) as (d & Hd & He & _).
  assert (Hp : RxDescPhyAddr (rxr s) !! e = Some a) by (destruct o; simplify_eq/=; apply Hat).
  assert (Hin : (a, id) ∈ bufs (w1 ++ o :: w2)).
  { rewrite bufs_middle, Ho. simpl. left. }
  destruct (book_mem _ _ _ _ (rv_book _ _ _ _ _ Hv) Hin) as (Hm & Hl & _).
  unfold rtl8125_free_rx_skb, get_phys, dma_unmap_buf, dev_kfree_skb, set_skbuff. wp_steps. rewrite Nat2Z.id. unfold Datatypes.id.
  eapply wp_lift_opt; [exact Hp|]. wp_steps. rewrite Hm. wp_steps. simpl. rewrite decide_True by done. wp_steps.
  match goal with |- wp _ _ ?st => eapply wp_intro; [apply (unusable_eq conf st e d); exact Hd|] end.
  destruct (unusable_words conf d) as [Hu1 Hu2]. apply HQ; [by split; [split|..]|].
  eapply rview_set; [exact Hv|simpl; fold e; solve_upd| |done|].
  - split; simpl; [by apply list_lookup_insert_eq|]. eexists. split; [by apply list_lookup_insert_eq|]. by rewrite Hu2.
  - rewrite Ho. simpl. intros Hb. by eapply book_drop.
Qed.

(** ** Emptying *)
Lemma rview_mod rend s D D' w : D mod num_rx_desc (rxr s) = D' mod num_rx_desc (rxr s) → rview conf rend s D w → rview conf rend s D' w.
Proof.
  intros E [Hwf Hl Hat Hb]. split; [done|done| |done]. intros i o Hi.
  replace (entry_of (num_rx_desc (rxr s)) D' i) with (entry_of (num_rx_desc (rxr s)) D i); [by apply Hat|].
  unfold entry_of. f_equal. by apply mod_add_congr.
Qed.

Lemma rview_rotations rend s n : ∀ D w, (n ≤ length w)%nat → rview conf rend s D w → rview conf rend s (D + Z.of_nat n) (drop n w ++ take n w).
Proof.
  induction n as [|n IH]; intros D w Hn Hv; [by rewrite drop_0, take_0, app_nil_r, Z.add_0_r|].
  apply IH in Hv; [|lia]. destruct (lookup_lt_is_Some_2 w n ltac:(lia)) as [o Ho].
  erewrite drop_S in Hv by done. rewrite <- app_comm_cons, rview_rotate in Hv.
  replace (D + Z.of_nat (S n)) with (D + Z.of_nat n + 1) by lia. rewrite <- app_assoc in Hv. by rewrite (take_S_r _ _ _ Ho).
Qed.

(** The same ring from entry 0. *)
Lemma rview_from_zero rend s D w : rview conf rend s D w → ∃ w', rview conf rend s 0 w' ∧ length w' = length w.
Proof.
  intros Hv. pose proof (size_pos _ (proj1 (rv_wf _ _ _ _ _ Hv))). pose proof (rv_len _ _ _ _ _ Hv) as Hl.
  set (m := Z.to_nat ((- D) mod num_rx_desc (rxr s))).
  assert (Hm : Z.of_nat m = (- D) mod num_rx_desc (rxr s)) by (apply Z2Nat.id, Z.mod_pos_bound; lia).
  assert ((m ≤ length w)%nat) by (pose proof (Z.mod_pos_bound (- D) (num_rx_desc (rxr s)) ltac:(lia)); lia).
  apply (rview_rotations _ _ m) in Hv; [|done]. exists (drop m w ++ take m w). split.
  - eapply rview_mod; [|exact Hv]. rewrite Hm, Zplus_mod_idemp_r. by replace (D + - D) with 0 by lia.
  - rewrite length_app, length_drop, length_take. lia.
Qed.

Lemma clear_one_wp rend s i w :
  rview conf rend s 0 (replicate i Bare ++ w) → Z.of_nat i < num_rx_desc (rxr s) →
  wp (let* k := get_skbuff (Z.of_nat i) in
      match k with Some skb => rtl8125_free_rx_skb conf (Z.of_nat i) skb ;; set_skbuff (Z.of_nat i) None | None => ret tt end)
    (λ _ s', quiet s s' ∧ ∃ w', rview conf rend s' 0 (replicate (S i) Bare ++ w')) s.
Proof.
  intros Hv Hi. pose proof (rv_len _ _ _ _ _ Hv) as Hl. rewrite length_app, length_replicate in Hl.
  destruct w as [|o w]; [simpl in Hl; lia|]. pose proof (rview_at _ _ _ _ _ _ _ Hv) as Hat. rewrite length_replicate in Hat.
  assert (Ei : entry_of (num_rx_desc (rxr s)) 0 i = i) by (unfold entry_of; rewrite Z.mod_small; lia). rewrite Ei in Hat.
  assert (Hsnoc : ∀ s', rview conf rend s' 0 (replicate i Bare ++ Bare :: w) → ∃ w', rview conf rend s' 0 (replicate (S i) Bare ++ w')).
  { intros s' Hv'. exists w. rewrite replicate_S_end, <- app_assoc. done. }
  unfold get_skbuff. wp_steps. rewrite Nat2Z.id. unfold id.
  assert (Hfree : ∀ id a, slot_buf o = Some (a, id) →
    wp (rtl8125_free_rx_skb conf (Z.of_nat i) id ;; set_skbuff (Z.of_nat i) None)
       (λ _ s', quiet s s' ∧ ∃ w', rview conf rend s' 0 (replicate (S i) Bare ++ w')) s).
  { intros id a Ho. wp_step. pose proof (λ Q, free_rx_skb_wp _ _ _ _ _ _ _ _ Q Hv Ho) as Hfr. rewrite length_replicate, Ei in Hfr. apply Hfr.
    intros s1 Hq Hv1. unfold set_skbuff. wp_steps. rewrite Nat2Z.id.
    assert (En : num_rx_desc (rxr s1) = num_rx_desc (rxr s)) by apply Hq.
    pose proof (rview_at _ _ _ _ _ _ _ Hv1) as (Hk & Hd). rewrite length_replicate, En, Ei in Hk.
    assert (E : x_ring (rr_skbs (<[i := None]> (Rx_skbuff (rxr s1)))) s1 = s1).
    { rewrite list_insert_id by done. by destruct s1 as [[] ]. }
    rewrite E. auto. }
  destruct o as [|id a|id a f].
  - eapply wp_lift_opt; [apply Hat|]. cbv beta iota. wp_steps. split; [done|]. by apply Hsnoc.
  - eapply wp_lift_opt; [apply Hat|]. by eapply Hfree.
  - eapply wp_lift_opt; [apply Hat|]. by eapply Hfree.
Qed.

Lemma rx_clear_wp rend s D w : rview conf rend s D w →
  wp (rtl8125_rx_clear conf) (λ _ s', quiet s s' ∧ rview conf rend s' 0 (replicate (length w) Bare) ∧ rq_live s' = ∅ ∧ rq_mapped s' = ∅) s.
Proof.
  intros Hv. apply rview_from_zero in Hv as (w' & Hv & Hlw). unfold rtl8125_rx_clear. wp_steps. unfold id.
  pose proof (rv_len _ _ _ _ _ Hv) as Hl.
  eapply wp_mono; [apply (wp_for_up _ _ _ (λ i s', quiet s s' ∧ ∃ w1, rview conf rend s' 0 (replicate (Z.to_nat i) Bare ++ w1)))|].
  - split; [done|]. by exists w'.
  - intros i s1 Hi (Hq & w1 & Hv1). assert (Hlt : Z.of_nat (Z.to_nat i) < num_rx_desc (rxr s1)) by (destruct Hq as [[] _ _]; lia).
    pose proof (clear_one_wp _ _ _ _ Hv1 Hlt) as Hc. rewrite Z2Nat.id in Hc by lia. eapply wp_mono; [exact Hc|].
    + intros _ s2 (Hq2 & w2 & Hv2). split; [by etrans|]. exists w2. by replace (Z.to_nat (i + 1)) with (S (Z.to_nat i)) by lia.
  - intros _ s1 (Hq & w1 & Hv1). split; [done|]. pose proof (rv_len _ _ _ _ _ Hv1) as Hl1.
    assert (En : num_rx_desc (rxr s1) = num_rx_desc (rxr s)) by apply Hq.
    rewrite length_app, length_replicate, En in Hl1.
    assert (length w1 = 0)%nat as Hw1 by lia. apply nil_length_inv in Hw1 as ->. rewrite app_nil_r in Hv1.
    replace (Z.to_nat (0 + _)) with (length w) in Hv1 by lia. split; [done|].
    pose proof (rv_book _ _ _ _ _ Hv1) as Hb. rewrite bufs_bare in Hb. by split; [rewrite (bk_live _ _ Hb)|rewrite (bk_mapped _ _ Hb)].
Qed.

(** ** Setting up *)
Definition is_armed (o : rslot) : bool := match o with Armed _ _ => true | _ => false end.
(** The state in which the driver sets the ring up. *)
Record rx_allocated (s : rxq) : Prop := RxAllocated {
  ra_wf : rx_wf (rxr s); ra_mapped : rq_mapped s = ∅; ra_live : rq_live s = ∅ }.

Lemma zeroed_view s s1 : rx_allocated s →
  let num := num_rx_desc (rxr s) in
  rxr s1 = rr_skbs (replicate (length (Rx_skbuff (rxr s))) None)
             (rr_descs (replicate (length (RxDescArray (rxr s))) (RxD 0 0 0 0 0)) (rr_dirty 0 (rr_cur 0 (rxr s)))) →
  rq_mapped s1 = rq_mapped s → rq_live s1 = rq_live s → rview conf false s1 0 (replicate (Z.to_nat num) Bare).
Proof.
  intros [Hwf Hm Hl] num E Em El. pose proof Hwf as (Hsize & ? & ? & ?). pose proof (size_pos _ Hsize).
  split; rewrite ?E; simpl.
  - unfold rx_wf. simpl. by rewrite !length_replicate.
  - rewrite length_replicate. lia.
  - intros i o Hi. apply lookup_replicate in Hi as [-> Hi]. simpl. rewrite E. simpl. pose proof (entry_bound _ Hsize 0 i).
    split; [apply lookup_replicate; split; [done|lia]|]. exists (RxD 0 0 0 0 0). split; [apply lookup_replicate; split; [done|lia]|]. done.
  - rewrite bufs_bare. split; rewrite ?Em, ?El, ?Hm, ?Hl; try done; constructor.
Qed.

Lemma all_armed n w' : Forall2 rearmed (replicate n Bare) w' → Forall (λ o, is_bare o = false) w' → Forall (λ o, is_armed o = true) w'.
Proof.
  intros Hr Hb. revert n Hr. induction Hb as [|o w' Ho Hb IH]; intros n Hr; [constructor|].
  destruct n as [|n]; simpl in Hr; [inversion Hr|]. apply Forall2_cons_1 in Hr as [Hr1 Hr2]. constructor; [|by eapply IH].
  simpl in Hr1. destruct Hr1 as [->|(id & a & ->)]; done.
Qed.

(** The end bit, in the last descriptor. *)
Lemma last_wp s w : rview conf false s 0 w → Forall (λ o, is_armed o = true) w →
  wp (rtl8125_mark_as_last_descriptor (num_rx_desc (rxr s) - 1)) (λ _ s', quiet s s' ∧ rview conf true s' 0 w) s.
Proof.
  intros Hv Ha. pose proof (rv_wf _ _ _ _ _ Hv) as Hwf. pose proof Hwf as (Hsize & Hld & _). pose proof (size_pos _ Hsize) as Hpos.
  pose proof (rv_len _ _ _ _ _ Hv) as Hl. set (e := Z.to_nat (num_rx_desc (rxr s) - 1)).
  assert (He : (e < length (RxDescArray (rxr s)))%nat) by lia. destruct (lookup_lt_is_Some_2 _ _ He) as [d Hd].
  unfold rtl8125_mark_as_last_descriptor, rtl8125_get_rxdesc, set_rxdesc. wp_steps. unfold id. fold e.
  eapply wp_lift_opt; [done|]. wp_steps. split; [by split|]. fold e. split; simpl; [|done| |].
  - unfold rx_wf. simpl. by rewrite length_insert.
  - intros i o Hi. pose proof (rv_at _ _ _ _ _ Hv _ _ Hi) as Hat. eapply list.Forall_lookup_1 in Ha; [|done].
    destruct o as [|id a|]; [done| |done]. apply lookup_lt_Some in Hi.
    assert (Ei : entry_of (num_rx_desc (rxr s)) 0 i = i) by (unfold entry_of; rewrite Z.mod_small; lia). rewrite Ei in *.
    destruct Hat as (Hk & Hp & d' & Hd' & Haddr & Ho). simpl. split; [done|]. split; [done|].
    destruct (decide (i = e)) as [->|Hne].
    + rewrite list_lookup_insert_eq by done. eexists. split; [done|]. assert (d' = d) as -> by congruence. split; [done|].
      cbn [rd_opts1 with_opts1]. rewrite Ho. unfold eor. rewrite (proj2 (Z.eqb_eq _ _)) by lia. cbn [andb].
      rewrite Z.lor_0_r, <- !Z.lor_assoc. f_equal. apply Z.lor_comm.
    + rewrite list_lookup_insert_ne by done. exists d'. split; [done|]. split; [done|]. rewrite Ho.
      unfold eor. simpl. by rewrite (proj2 (Z.eqb_neq _ _)) by lia.
  - eapply book_ext; [..|apply Hv]; done.
Qed.

Lemma rx_init_wp s : rx_allocated s →
  wp (rtl8125_rx_init_ring conf) (λ rc s', num_rx_desc (rxr s') = num_rx_desc (rxr s) ∧ rq_stack s' = rq_stack s ∧
    cur_rx (rxr s') = 0 ∧ dirty_rx (rxr s') = 0 ∧
    ((rc = 0 ∧ ∃ w, rview conf true s' 0 w ∧ Forall (λ o, is_armed o = true) w) ∨
     (rc = - ENOMEM ∧ rx_allocated s' ∧ ∃ n, rview conf false s' 0 (replicate n Bare)))) s.
Proof.
  intros Hal. pose proof (ra_wf _ Hal) as Hwf. pose proof (size_pos _ (proj1 Hwf)) as Hpos.
  unfold rtl8125_rx_init_ring, rtl8125_rx_desc_init. wp_steps. unfold id. simpl.
  match goal with |- wp _ _ ?st => set (s1 := st) end.
  pose proof (zeroed_view s s1 Hal eq_refl eq_refl eq_refl) as Hv.
  eapply wp_mono; [apply (ring_fill_wp false (replicate (Z.to_nat (num_rx_desc (rxr s))) Bare) s1 0 [] []); [rewrite app_nil_r; exact Hv|done|]|].
  { rewrite length_replicate. destruct Hwf as ([[_ ?] _] & _). unfold u32. rewrite Z.sub_0_r, Z.mod_small; lia. }
  intros r s2 (k & -> & [Hq Hk (w' & Hv2 & Hr & _ & Ht & _)]). simpl in Hv2. rewrite app_nil_r in Hv2.
  rewrite length_replicate in Hk. destruct (Z.eqb_spec (Z.of_nat k) (num_rx_desc (rxr s))) as [Ek|Ek]; simpl.
  - assert (Hl : length w' = k) by (apply Forall2_length in Hr; rewrite length_replicate in Hr; lia).
    rewrite take_ge in Ht by lia. apply (all_armed _ _ Hr) in Ht.
    wp_step. replace (num_rx_desc (rxr s)) with (num_rx_desc (rxr s2)) at 1 by apply Hq.
    eapply wp_mono; [by apply last_wp|]. intros _ s3 (Hq3 & Hv3). wp_steps.
    assert (Hqq : quiet s1 s3) by by etrans. destruct Hqq as [[? Hc Hdr Hn] Hst _]. do 4 (split; [done|]). left. eauto.
  - wp_step. eapply wp_mono; [by eapply rx_clear_wp|]. intros _ s3 (Hq3 & Hv3 & Hl3 & Hm3). wp_steps.
    assert (Hqq : quiet s1 s3) by by etrans. destruct Hqq as [[? Hc Hdr Hn] Hst _]. do 4 (split; [done|]). right. split; [done|].
    split; [split; [apply Hv3|done|done]|]. eauto.
Qed.
End operations.
