(* ===== verification/R8125RxFrame.v ===== *)
(** * The receive ring: one received frame

    What the stack should see of a frame, and that a round of the loop shows it
    exactly that. *)
From stdpp Require Import base tactics list gmap numbers.
From Stdlib Require Import ZArith Lia.
From S2P Require Import Prelude IossUtils RtlLib R8125Tx R8125Rx R8125RxSpec.

(** ** The reference *)
Section reference.
Context (conf : rxconf).

Definition frame_size (f : rframe) : Z :=
  u32 (if feature_rxfcs conf then Z.land (rf_status f) 0x3fff else Z.land (rf_status f) 0x3fff - ETH_FCS_LEN).
(** Counted as wrong, and not wanted all the same. *)
Definition refused (f : rframe) : bool :=
  bit (rf_status f) (if rx_desc_v3 conf then RxRES_V3 else RxRES) && negb (feature_rxall conf).
(** In more than one descriptor, or larger than a buffer. *)
Definition split_frame (f : rframe) : bool :=
  rtl8125_fragmented_frame conf (rf_status f) || (rx_buf_sz conf <? frame_size f).
Definition frame_packet (f : rframe) : rx_packet :=
  RxPacket (rf_data f) (frame_size f)
    (RxChkSum conf && rtl8125_rx_csum conf (RxD (rf_status f) (rf_opts2 f) 0 0 0))
    (if bit (rf_opts2 f) RxVlanTag then Some (swab16 (Z.land (rf_opts2 f) 0xffff)) else None)
    (if feature_rxhash conf && bit (rf_hdr f) RSS_L3_TYPE_MASK then Some (rf_rss f, bit (rf_hdr f) RSS_L4_TYPE_MASK) else None).
(** What the stack gets for a frame. *)
Definition frame_out (f : rframe) : list rx_packet := if refused f then [] else [frame_packet f].

(** A frame that the loop steps over, and one it does not. *)
Definition passes (f : rframe) : Prop := frame_ok f ∧ (refused f = true ∨ split_frame f = false).
Definition stalls (f : rframe) : Prop := frame_ok f ∧ refused f = false ∧ split_frame f = true.

(** Where the driver is used as it is configured: the buffers' size fits its
    field; the hash is asked of descriptors that have it; short frames are not
    copied out of descriptors of the old kind. *)
Record rx_sound : Prop := RxSound {
  so_size : 0 ≤ rx_buf_sz conf < 2 ^ 14;
  so_hash : feature_rxhash conf = true → rx_desc_v3 conf = true;
  so_copy : rx_desc_v3 conf = true ∨ rx_copybreak conf ≤ 0 }.
End reference.

Section rounds.
Context `{RxApi} (conf : rxconf) (Hso : rx_sound conf).
Let Hsz := so_size _ Hso.

(** ** Passing a packet on *)
Lemma bit_eor rend num e st m : Z.land RingEnd m = 0 → bit (Z.lor (eor rend num e) st) m = bit st m.
Proof. intros Hm. unfold bit. by rewrite land_eor. Qed.

Definition same_words (d : RxDesc) (f : rframe) : Prop := rd_opts2 d = rf_opts2 f ∧ rd_hdr d = rf_hdr f ∧ rd_rss d = rf_rss f.

Lemma hash_wp d f s (Q : option (Z * bool) → rxq → Prop) : same_words d f → Q (rp_hash (frame_packet conf f)) s → wp (rtl8125_rx_hash conf d) Q s.
Proof.
  intros (_ & Eh & Er) HQ. unfold rtl8125_rx_hash. rewrite Eh, Er. pose proof (so_hash _ Hso) as Hh. simpl in HQ.
  destruct (feature_rxhash conf); simpl in *; [rewrite Hh by done|by wp_steps]. simpl. destruct (bit _ RSS_L3_TYPE_MASK); by wp_steps.
Qed.

(** [skb], which the driver holds, is gone with the frame's packet. *)
Lemma deliver_wp s e d f skb (Q : rx_verdict → rxq → Prop) :
  RxDescArray (rxr s) !! e = Some d → same_words d f → rtl8125_rx_csum conf d = rtl8125_rx_csum conf (RxD (rf_status f) (rf_opts2 f) 0 0 0) →
  skb ∈ rq_live s → rq_data s !! skb = Some (rf_data f) →
  (∀ s', rxr s' = rxr (put_desc e (with_opts2 0 d) s) → rq_mapped s' = rq_mapped s → rq_live s' = rq_live s ∖ {[skb]} →
     rq_next s' = rq_next s → rq_data s' = rq_data s → rq_stack s' = rq_stack s ++ [frame_packet conf f] → Q RxNext s') →
  wp (rx_deliver conf (Z.of_nat e) (frame_size conf f) skb) Q s.
Proof.
  intros Hd Hw Hc Hl Hdat HQ. unfold rx_deliver, rtl8125_get_rxdesc. wp_steps. rewrite Nat2Z.id. unfold id.
  eapply wp_lift_opt; [done|]. wp_step. eapply hash_wp; [done|]. wp_steps. rewrite Hdat. simpl.
  match goal with |- wp _ ?P _ => assert (Hrest : ∀ s1, rxr s1 = rxr s → rq_mapped s1 = rq_mapped s → rq_live s1 = rq_live s →
    rq_next s1 = rq_next s → rq_data s1 = rq_data s → rq_stack s1 = rq_stack s → P tt s1) end.
  { intros s1 Er Em El En Ed Es. unfold rtl8125_rx_vlan_skb, rtl8125_get_rxdesc, set_rxdesc. wp_steps. rewrite Nat2Z.id. unfold id.
    eapply wp_lift_opt; [by rewrite Er|]. wp_steps. unfold rtl8125_rx_skb. wp_steps. unfold id. simpl.
    rewrite decide_True by (by rewrite El). wp_steps. simpl. rewrite Ed, Hdat. simpl. apply HQ; simpl; rewrite ?Er, ?Em, ?El, ?Es; try done.
    do 2 f_equal. rewrite Hc. destruct Hw as (-> & _). done. }
  destruct (is_multicast _); simpl; wp_step; by apply Hrest.
Qed.

(** ** A frame in the ring *)
(** The slot has been looked at: it is bare, or armed again. *)
Definition taken (o : rslot) : Prop := o = Bare ∨ ∃ id a, o = Armed id a.

Lemma mark_view rend s D w1 o w2 id a d : rview conf rend s D (w1 ++ o :: w2) → slot_buf o = Some (a, id) →
  let e := entry_of (num_rx_desc (rxr s)) D (length w1) in
  RxDescArray (rxr s) !! e = Some d →
  rview conf rend (put_desc e (armed conf d) s) D (w1 ++ Armed id a :: w2) ∧ rd_addr d = a.
Proof.
  intros Hv Ho e Hd. pose proof (rview_at _ _ _ _ _ _ _ Hv) as Hat. fold e in Hat.
  destruct (slot_desc _ Hsz _ _ _ _ Hat) as (d' & Hd' & He & _). assert (d' = d) as -> by congruence.
  assert (Hslot : RxDescPhyAddr (rxr s) !! e = Some a ∧ Rx_skbuff (rxr s) !! e = Some (Some id) ∧ rd_addr d = a).
  { destruct o; simplify_eq/=; [destruct Hat as (? & ? & ? & Hx & ? & _)|destruct Hat as (? & ? & _ & Hx & _)]; rewrite Hx in Hd; by simplify_eq/=. }
  destruct Hslot as (Hp & Hk & Ha). split; [|done].
  eapply rview_set; [exact Hv|apply rupd_desc| |done|].
  - fold e. simpl. split; [done|]. split; [done|]. eexists. rewrite list_lookup_insert_eq by (by eapply lookup_lt_Some).
    split; [done|]. split; [done|]. by apply armed_words.
  - rewrite Ho. by apply book_ext.
Qed.

Lemma mark_wp rend s D w1 o w2 id a (Q : unit → rxq → Prop) : rview conf rend s D (w1 ++ o :: w2) → slot_buf o = Some (a, id) →
  (∀ s', quiet s s' → rview conf rend s' D (w1 ++ Armed id a :: w2) → Q tt s') →
  wp (rtl8125_mark_to_asic conf (Z.of_nat (entry_of (num_rx_desc (rxr s)) D (length w1)))) Q s.
Proof.
  intros Hv Ho HQ. destruct (slot_desc _ Hsz _ _ _ _ (rview_at _ _ _ _ _ _ _ Hv)) as (d & Hd & _).
  eapply wp_intro; [by apply armed_eq|]. apply HQ; [by split; [split|..]|]. by eapply mark_view.
Qed.

(** What a copy changes. *)
Record copied (e : nat) (d : RxDesc) (data : Z) (s s' : rxq) : Prop := Copied {
  cp_ring : rxr s' = rxr (put_desc e (armed conf d) s);
  cp_mapped : rq_mapped s' = rq_mapped s;
  cp_live : rq_live s' = {[rq_next s]} ∪ rq_live s;
  cp_next : rq_next s' = rq_next s + 1;
  cp_data : rq_data s' !! rq_next s = Some data;
  cp_others : ∀ id, id < rq_next s → rq_data s' !! id = rq_data s !! id;
  cp_stack : rq_stack s' = rq_stack s }.

Lemma try_copy_wp s e d id data size (Q : option Z → rxq → Prop) :
  RxDescArray (rxr s) !! e = Some d → rq_data s !! id = Some data → id < rq_next s →
  (∀ s', s32 size < rx_copybreak conf → copied e d data s s' → Q (Some (rq_next s)) s') →
  (∀ n, Q None (RxQ (rxr s) n (rq_next s) (rq_mapped s) (rq_live s) (rq_data s) (rq_stack s) (rq_stats s))) →
  wp (rtl8125_try_rx_copy conf id size (Z.of_nat e)) Q s.
Proof.
  intros Hd Hdat Hlt HS HN. unfold rtl8125_try_rx_copy. destruct (Z.ltb_spec (s32 size) (rx_copybreak conf)).
  2: { wp_steps. specialize (HN (rq_calls s)). by destruct s. }
  unfold dev_alloc_skb. wp_steps. unfold Datatypes.id. destruct (skb_alloc_fails _); wp_steps; [apply HN|]. simpl.
  rewrite lookup_insert_ne, Hdat by lia. simpl.
  match goal with |- wp _ _ ?st => eapply wp_intro; [apply (armed_eq conf st e d); exact Hd|] end. wp_steps. apply HS; [done|].
  split; simpl; try done; [by rewrite lookup_insert_eq|]. intros id' Hid. by rewrite !lookup_insert_ne by lia.
Qed.

Lemma opts2_view rend s D w1 w2 id a d : rview conf rend s D (w1 ++ Armed id a :: w2) →
  let e := entry_of (num_rx_desc (rxr s)) D (length w1) in
  RxDescArray (rxr s) !! e = Some d → rview conf rend (put_desc e (with_opts2 0 d) s) D (w1 ++ Armed id a :: w2).
Proof.
  intros Hv e Hd. pose proof (rview_at _ _ _ _ _ _ _ Hv) as (Hk & Hp & d' & Hd' & Ha & Ho). assert (d' = d) as -> by (fold e in Hd'; congruence).
  eapply rview_set; [exact Hv|apply rupd_desc| |done|by apply book_ext].
  fold e. simpl. split; [done|]. split; [done|]. eexists. rewrite list_lookup_insert_eq by (by eapply lookup_lt_Some). done.
Qed.

(** After a copy is passed on, the ring is as after giving the buffer back. *)
Lemma copy_passed rend s s1 s2 D w1 w2 id a f d : rview conf rend s D (w1 ++ Filled id a f :: w2) →
  let e := entry_of (num_rx_desc (rxr s)) D (length w1) in
  RxDescArray (rxr s) !! e = Some d → copied e d (rf_data f) s s1 →
  rxr s2 = rxr (put_desc e (with_opts2 0 (armed conf d)) s1) → rq_mapped s2 = rq_mapped s1 → rq_live s2 = rq_live s1 ∖ {[rq_next s]} →
  rq_next s2 = rq_next s1 → rq_data s2 = rq_data s1 → rview conf rend s2 D (w1 ++ Armed id a :: w2).
Proof.
  intros Hv e Hd [Er Em El En _ Ed _] Er2 Em2 El2 En2 Ed2.
  destruct (mark_view _ _ _ _ _ _ id a _ Hv eq_refl Hd) as [Hv1 _].
  apply (opts2_view _ _ _ _ _ _ _ (armed conf d)) in Hv1; [|simpl; apply list_lookup_insert_eq; by eapply lookup_lt_Some].
  pose proof (rv_book _ _ _ _ _ Hv) as Hb. pose proof (live_new _ _ Hb) as Hnew.
  eapply (rview_books _ _ _ _ _ _ _ _ _ Hv1).
  Unshelve.
  - rewrite Er2. simpl. by rewrite Er.
  - apply (data_new s _ _ (bufs (w1 ++ Filled id a f :: w2))); [done| |simpl; rewrite Ed2; apply Ed].
    rewrite !bufs_app. done.
  - apply book_lost; simpl; [congruence| |lia]. rewrite El2, El. clear -Hnew. set_solver.
Qed.

(** After the buffer itself is passed on, its slot is bare. *)
Lemma buffer_passed rend s s2 D w1 w2 id a f d : rview conf rend s D (w1 ++ Filled id a f :: w2) →
  let e := entry_of (num_rx_desc (rxr s)) D (length w1) in
  RxDescArray (rxr s) !! e = Some d →
  rxr s2 = rr_descs (<[e := with_opts2 0 d]> (RxDescArray (rxr s))) (rr_skbs (<[e := None]> (Rx_skbuff (rxr s))) (rxr s)) →
  rq_mapped s2 = delete a (rq_mapped s) → rq_live s2 = rq_live s ∖ {[id]} → rq_next s2 = rq_next s → rq_data s2 = rq_data s →
  rview conf rend s2 D (w1 ++ Bare :: w2).
Proof.
  intros Hv e Hd Er Em El En Ed. pose proof (rview_lt _ _ _ _ (length w1) _ Hv) as (H1 & H2 & H3). fold e in H1, H2, H3.
  destruct (slot_desc _ Hsz _ _ _ _ (rview_at _ _ _ _ _ _ _ Hv)) as (d' & Hd' & He & Ho). assert (d' = d) as -> by (fold e in Hd'; congruence).
  eapply rview_set; [exact Hv|rewrite Er; fold e; solve_upd| | |].
  - fold e. simpl. rewrite Er. simpl. rewrite !list_lookup_insert_eq by done. split; [done|]. eexists. split; [done|]. simpl.
    split; [|done]. unfold bit in Ho. apply negb_false_iff, Z.eqb_eq in Ho. done.
  - intros x _. destruct x; simpl; by rewrite ?Ed.
  - simpl. intros Hb. by apply (book_drop s s2 _ a id).
Qed.

(** The size, and whether the frame is whole, from the descriptor's word. *)
Lemma word_size rend num e f :
  u32 (if feature_rxfcs conf then Z.land (Z.lor (eor rend num e) (rf_status f)) 0x3fff
       else Z.land (Z.lor (eor rend num e) (rf_status f)) 0x3fff - ETH_FCS_LEN) = frame_size conf f.
Proof. unfold frame_size. by rewrite (land_eor rend num e (rf_status f) 0x3fff). Qed.
Lemma word_split rend num e f :
  rtl8125_fragmented_frame conf (Z.lor (eor rend num e) (rf_status f)) = rtl8125_fragmented_frame conf (rf_status f).
Proof. unfold rtl8125_fragmented_frame. destruct (rx_desc_v3 conf); by rewrite land_eor. Qed.
Lemma word_csum rend num e f a h r :
  rtl8125_rx_csum conf (RxD (Z.lor (eor rend num e) (rf_status f)) (rf_opts2 f) a h r) = rtl8125_rx_csum conf (RxD (rf_status f) (rf_opts2 f) 0 0 0).
Proof. unfold rtl8125_rx_csum. destruct (rx_desc_v3 conf); [done|]. simpl. unfold csum_v1. by rewrite !bit_eor. Qed.

Definition passed (rend : bool) (s : rxq) (D : Z) (w1 w2 : rwindow) (out : list rx_packet) (v : rx_verdict) (s' : rxq) : Prop :=
  v = RxNext ∧ rframe_same s s' ∧ rq_stack s' = rq_stack s ++ out ∧ ∃ o, taken o ∧ rview conf rend s' D (w1 ++ o :: w2).

Lemma process_wp rend s D w1 w2 id a f :
  rview conf rend s D (w1 ++ Filled id a f :: w2) → split_frame conf f = false →
  let e := entry_of (num_rx_desc (rxr s)) D (length w1) in
  wp (rx_process conf (Z.of_nat e) (Z.lor (eor rend (num_rx_desc (rxr s)) e) (rf_status f)))
     (passed rend s D w1 w2 [frame_packet conf f]) s.
Proof.
  intros Hv Hsp e. unfold rx_process. rewrite word_size, word_split. unfold split_frame in Hsp. rewrite Hsp.
  pose proof (rview_at _ _ _ _ _ _ _ Hv) as (Hk & Hp & Hok & Hd & Hdat). fold e in Hk, Hp, Hd. set (d := RxD _ _ _ _ _) in Hd.
  assert (Hin : (a, id) ∈ bufs (w1 ++ Filled id a f :: w2)) by (rewrite bufs_middle; left).
  destruct (book_mem _ _ _ _ (rv_book _ _ _ _ _ Hv) Hin) as (Hm & Hl & Hlt).
  pose proof (live_new _ _ (rv_book _ _ _ _ _ Hv)) as Hnew.
  unfold get_skbuff, get_phys. wp_steps. rewrite Nat2Z.id. unfold Datatypes.id. eapply wp_lift_opt; [exact Hk|]. cbv beta iota. wp_steps.
  eapply wp_lift_opt; [exact Hp|]. wp_step. eapply try_copy_wp; [exact Hd|exact Hdat|done| |].
  - intros s1 Hc Hcp. pose proof Hcp as [Er Em El En Ec Ed Es]. wp_steps. simpl.
    assert (Hv3 : rx_desc_v3 conf = true).
    { destruct (so_copy _ Hso) as [?|Hcb]; [done|]. exfalso. apply orb_false_iff in Hsp as [_ Hsp]. apply Z.ltb_ge in Hsp.
      assert (0 ≤ frame_size conf f) by (apply Z.mod_pos_bound; lia). unfold s32 in Hc. rewrite Z.mod_small in Hc; lia. }
    eapply (deliver_wp s1 e (armed conf d)); [rewrite Er; simpl; apply list_lookup_insert_eq; by eapply lookup_lt_Some|done| | |exact Ec|].
    + unfold rtl8125_rx_csum. by rewrite Hv3.
    + rewrite El. clear. set_solver.
    + intros s2 Er2 Em2 El2 En2 Ed2 Es2. split; [done|]. split; [|split; [by rewrite Es2, Es|]].
      * split; rewrite Er2; simpl; by rewrite Er.
      * exists (Armed id a). split; [right; eauto|]. by eapply copy_passed.
  - intros n. unfold set_skbuff, dma_unmap_buf. wp_steps. rewrite Nat2Z.id. unfold Datatypes.id. simpl. rewrite Hm. wp_steps. simpl.
    eapply (deliver_wp _ e d); [exact Hd|done|apply word_csum|exact Hl|exact Hdat|].
    intros s2 Er2 Em2 El2 En2 Ed2 Es2. split; [done|]. split; [by split; rewrite Er2|]. split; [by rewrite Es2|].
    exists Bare. split; [by left|]. by eapply buffer_passed.
Qed.

Lemma word_bit rend num e f m : Z.land RingEnd m = 0 → bit (Z.lor (eor rend num e) (rf_status f)) m = bit (rf_status f) m.
Proof. apply bit_eor. Qed.

Definition in_error (f : rframe) : bool := bit (rf_status f) (if rx_desc_v3 conf then RxRES_V3 else RxRES).

Lemma check_wp rend num e f s (Q : Z → rxq → Prop) :
  (∀ st, Q (if in_error f then -1 else 0) (x_stats st s)) →
  wp (rtl8125_check_rx_desc_error conf (Z.lor (eor rend num e) (rf_status f))) Q s.
Proof.
  intros HQ. unfold rtl8125_check_rx_desc_error. assert (H0 : Q (if in_error f then -1 else 0) s) by (specialize (HQ (λ s, s)); by destruct s).
  assert (Hst : ∀ a b, Q (if in_error f then -1 else 0) (x_stats b (x_stats a s))) by (intros a b; exact (HQ (λ s, b (a s)))).
  unfold in_error in *. destruct (rx_desc_v3 conf); rewrite !word_bit by done;
    (destruct (bit _ _); [|by wp_steps]); destruct (bit _ _); simpl; wp_steps; destruct (bit _ _); simpl; wp_steps; auto.
Qed.

(** Statistics apart, nothing depends on them. *)
Lemma stats_view rend s g D w : rview conf rend s D w → rview conf rend (x_stats g s) D w.
Proof. by apply rview_ext. Qed.

Lemma process_split_wp rend s D w1 w2 id a f :
  rview conf rend s D (w1 ++ Filled id a f :: w2) → split_frame conf f = true →
  let e := entry_of (num_rx_desc (rxr s)) D (length w1) in
  wp (rx_process conf (Z.of_nat e) (Z.lor (eor rend (num_rx_desc (rxr s)) e) (rf_status f)))
     (λ v s', v = RxContinue ∧ rframe_same s s' ∧ rq_stack s' = rq_stack s ∧ rview conf rend s' D (w1 ++ Armed id a :: w2)) s.
Proof.
  intros Hv Hsp e. unfold rx_process. rewrite word_size, word_split. unfold split_frame in Hsp. rewrite Hsp. wp_steps.
  match goal with |- wp _ _ ?st => set (s1 := st) end. assert (Hv1 : rview conf rend s1 D (w1 ++ Filled id a f :: w2)) by by do 2 apply stats_view.
  eapply (mark_wp _ s1); [exact Hv1|done|]. intros s2 [Hf Hst _] Hv2. wp_steps. split; [done|]. split; [|done].
  destruct Hf. by split.
Qed.

Lemma round_armed_wp rend s D w1 w2 id a (Q : rx_verdict → rxq → Prop) : rview conf rend s D (w1 ++ Armed id a :: w2) → Q RxBreak s →
  wp (rx_round conf (Z.of_nat (entry_of (num_rx_desc (rxr s)) D (length w1)))) Q s.
Proof.
  intros Hv HQ. destruct (slot_desc _ Hsz _ _ _ _ (rview_at _ _ _ _ _ _ _ Hv)) as (d & Hd & _ & Ho).
  unfold rx_round, rtl8125_get_rxdesc. wp_steps. rewrite Nat2Z.id. unfold Datatypes.id. eapply wp_lift_opt; [exact Hd|].
  cbv beta. rewrite Ho. by wp_steps.
Qed.

Lemma round_open rend s D w1 w2 id a f (Q : rx_verdict → rxq → Prop) : rview conf rend s D (w1 ++ Filled id a f :: w2) →
  let e := entry_of (num_rx_desc (rxr s)) D (length w1) in
  let status := Z.lor (eor rend (num_rx_desc (rxr s)) e) (rf_status f) in
  (∀ g, if refused conf f then wp (rtl8125_mark_to_asic conf (Z.of_nat e) ;; ret RxNext) Q (x_stats g s)
        else wp (rx_process conf (Z.of_nat e) status) Q (x_stats g s)) →
  wp (rx_round conf (Z.of_nat e)) Q s.
Proof.
  intros Hv e status HQ. pose proof (rview_at _ _ _ _ _ _ _ Hv) as Hat. destruct (slot_desc _ Hsz _ _ _ _ Hat) as (d & Hd & _ & Ho).
  fold e in Hat, Hd. pose proof Hat as (_ & _ & _ & Hd' & _). rewrite Hd in Hd'. injection Hd' as Ed.
  unfold rx_round, rtl8125_get_rxdesc. wp_steps. rewrite Nat2Z.id. unfold Datatypes.id. eapply wp_lift_opt; [exact Hd|].
  cbv beta. rewrite Ho. rewrite Ed. cbn [rd_opts1]. fold status. wp_step. apply check_wp. intros g. unfold refused in HQ. fold (in_error f) in HQ.
  destruct (in_error f); simpl in *; [|by apply HQ]. wp_step. wp_step.
  specialize (HQ (λ st, count_error (g st))). destruct (feature_rxall conf); simpl in HQ; exact HQ.
Qed.

Lemma round_pass_wp rend s D w1 w2 id a f : rview conf rend s D (w1 ++ Filled id a f :: w2) → passes conf f →
  wp (rx_round conf (Z.of_nat (entry_of (num_rx_desc (rxr s)) D (length w1)))) (passed rend s D w1 w2 (frame_out conf f)) s.
Proof.
  intros Hv [Hok Hp]. eapply round_open; [exact Hv|]. intros g. set (s1 := x_stats g s).
  assert (Hv1 : rview conf rend s1 D (w1 ++ Filled id a f :: w2)) by by apply stats_view.
  unfold frame_out. destruct (refused conf f).
  - wp_step. eapply (mark_wp _ s1); [exact Hv1|done|]. intros s2 [Hf Hst _] Hv2. wp_steps. split; [done|].
    split; [destruct Hf; by split|]. split; [by rewrite Hst, app_nil_r|]. exists (Armed id a). split; [right; eauto|done].
  - destruct Hp as [?|Hsp]; [done|]. eapply wp_mono; [eapply (process_wp _ s1); [exact Hv1|done]|]. intros v s2 (-> & Hf & Hst & Ho).
    split; [done|]. split; [destruct Hf; by split|]. done.
Qed.

Lemma round_stall_wp rend s D w1 w2 id a f : rview conf rend s D (w1 ++ Filled id a f :: w2) → stalls conf f →
  wp (rx_round conf (Z.of_nat (entry_of (num_rx_desc (rxr s)) D (length w1))))
    (λ v s', v = RxContinue ∧ rframe_same s s' ∧ rq_stack s' = rq_stack s ∧ rview conf rend s' D (w1 ++ Armed id a :: w2)) s.
Proof.
  intros Hv (Hok & Hr & Hsp). eapply round_open; [exact Hv|]. intros g. rewrite Hr.
  eapply wp_mono; [by apply (process_split_wp _ (x_stats g s)); [apply stats_view|]|]. intros v s2 (-> & Hf & Hst & Ho).
  split; [done|]. split; [destruct Hf; by split|]. done.
Qed.
End rounds.
