(* ===== verification/R8125RxThms.v ===== *)
(** * The receive ring: properties

    The poll in pieces, and the chip, which writes frames into the descriptors
    it owns, between them: what reaches the stack, one whole poll, setting up,
    and the frame that stops the ring. Memory is sequentially consistent here,
    which the barriers of the code are there for. *)
From stdpp Require Import base tactics list gmap numbers.
From Stdlib Require Import ZArith Lia.
From S2P Require Import Prelude IossUtils RtlLib R8125Tx R8125Rx R8125RxSpec R8125RxFrame.

(** ** Interleavings *)
(** Where the poll is. *)
Inductive rpc := RIdle | RLoop (rx_left : nat) (cur : Z) | RDone (cur : Z).
(** [r_chip]: the entry at which the chip writes next; [r_arrived]: the frames
    it has written. *)
Record rsys := RSys { rsq : rxq; r_pc : rpc; r_chip : nat; r_arrived : list rframe }.
Inductive revent := EvFrame (f : rframe) | EvBegin (budget : Z) | EvRound | EvEnd.

(** The chip writes a frame into a descriptor: its words, and the buffer. *)
Definition write_frame (e : nat) (d : RxDesc) (id : Z) (f : rframe) (q : rxq) : rxq :=
  x_data id (rf_data f)
    (x_ring (rr_descs (<[e := RxD (Z.lor (Z.land (rd_opts1 d) RingEnd) (rf_status f)) (rf_opts2 f) (rd_addr d) (rf_hdr f) (rf_rss f)]>
                         (RxDescArray (rxr q)))) q).
(** A frame for which there is no descriptor is lost. A write to an address
    that is not mapped is not defined. *)
Definition chip_write (f : rframe) (s : rsys) : option rsys :=
  match RxDescArray (rxr (rsq s)) !! r_chip s with
  | None => None
  | Some d =>
      if negb (bit (rd_opts1 d) DescOwn) then Some s else
      match rq_mapped (rsq s) !! rd_addr d with
      | None => None
      | Some id => Some (RSys (write_frame (r_chip s) d id f (rsq s)) (r_pc s)
                           (if bit (rd_opts1 d) RingEnd then 0%nat else S (r_chip s)) (r_arrived s ++ [f]))
      end
  end.

Section system.
Context `{RxApi} (conf : rxconf).

(** One piece; [None] is undefined behaviour, and an event that is not to
    happen in [s] does nothing. *)
Definition rev_step (e : revent) (s : rsys) : option rsys :=
  match e, r_pc s with
  | EvFrame f, _ => chip_write f s
  | EvBegin budget, RIdle =>
      match rx_begin budget (rsq s) with
      | Some (n, q) => Some (RSys q (RLoop (Z.to_nat n) (cur_rx (rxr q))) (r_chip s) (r_arrived s)) | None => None end
  | EvRound, RLoop O cur => Some (RSys (rsq s) (RDone cur) (r_chip s) (r_arrived s))
  | EvRound, RLoop (S n) cur =>
      match (let* entry := rx_entry cur in rx_round conf entry) (rsq s) with
      | Some (v, q) =>
          Some (RSys q (match v with RxBreak => RDone cur | RxContinue => RLoop n cur | RxNext => RLoop n (u32 (cur + 1)) end)
                  (r_chip s) (r_arrived s))
      | None => None
      end
  | EvEnd, RDone cur =>
      match rx_end conf cur (rsq s) with Some (_, q) => Some (RSys q RIdle (r_chip s) (r_arrived s)) | None => None end
  | _, _ => Some s
  end.
Fixpoint rrun (es : list revent) (s : rsys) : option rsys :=
  match es with [] => Some s | e :: es' => match rev_step e s with Some s' => rrun es' s' | None => None end end.

Definition out (fs : list rframe) : list rx_packet := fs ≫= frame_out conf.
End system.

Section poll.
Context `{RxApi} (conf : rxconf) (Hso : rx_sound conf).
Let Hsz := so_size _ Hso.

(** ** The window of the poll *)
(** From the count [C] of the loop; [Dd] is where refilling goes on. *)
Record poll_view (q : rxq) (C Dd : Z) (w : rwindow) : Prop := PollView {
  pv_view : rview conf true q C w;
  pv_dirty : dirty_rx (rxr q) = u32 Dd;
  pv_room : 0 ≤ C - Dd ≤ num_rx_desc (rxr q);
  pv_bare : ∀ i, w !! i = Some Bare → num_rx_desc (rxr q) ≤ Z.of_nat i + (C - Dd) }.

Lemma pv_pos q C Dd w : poll_view q C Dd w → 256 ≤ num_rx_desc (rxr q) ≤ 1024.
Proof. intros []. apply pv_view0. Qed.
Lemma pv_len q C Dd w : poll_view q C Dd w → Z.of_nat (length w) = num_rx_desc (rxr q).
Proof. intros []. apply pv_view0. Qed.

Lemma entry_wp q C Dd w (Q : Z → rxq → Prop) : poll_view q C Dd w →
  Q (Z.of_nat (entry_of (num_rx_desc (rxr q)) C 0)) q → wp (rx_entry (u32 C)) Q q.
Proof.
  intros Hv HQ. pose proof (rv_wf _ _ _ _ _ (pv_view _ _ _ _ Hv)) as Hwf. eapply rx_entry_wp; [done| |done].
  rewrite (u32_entry _ (proj1 Hwf)). f_equal. lia.
Qed.

(** The loop looks at a slot that is not bare. *)
Lemma head_not_bare q C Dd w o : poll_view q C Dd (o :: w) → C - Dd < num_rx_desc (rxr q) → o ≠ Bare.
Proof. intros Hv Hlt ->. pose proof (pv_bare _ _ _ _ Hv 0%nat eq_refl). lia. Qed.

Lemma pv_same q q' C Dd w w' : poll_view q C Dd w → rframe_same q q' → rview conf true q' C w' →
  (∀ i, w' !! i = Some Bare → w !! i = Some Bare) → poll_view q' C Dd w'.
Proof.
  intros [Hv Hd Hr Hb] [_ _ Edd En] Hv' Hbare. split; [done|congruence|by rewrite En|]. rewrite En. intros i Hi. by apply Hb, Hbare.
Qed.

(** A slot is done with: the window moves on. *)
Lemma pv_next q q' C Dd o o' w : poll_view q C Dd (o :: w) → C - Dd < num_rx_desc (rxr q) → rframe_same q q' →
  rview conf true q' C (o' :: w) → poll_view q' (C + 1) Dd (w ++ [o']).
Proof.
  intros Hpv Hlt [_ _ Edd En] Hv'. pose proof (pv_len _ _ _ _ Hpv) as Hl. destruct Hpv as [Hv Hd Hr Hb]. simpl in Hl.
  split; [by apply rview_rotate|congruence|rewrite En; lia|].
  rewrite En. intros i Hi. apply lookup_app_Some in Hi as [Hi|[Hle _]]; [|lia]. specialize (Hb (S i) Hi). lia.
Qed.

Definition stepped (q : rxq) (C Dd : Z) (w : rwindow) (outs : list rx_packet) (v : rx_verdict) (q' : rxq) : Prop :=
  v = RxNext ∧ rframe_same q q' ∧ rq_stack q' = rq_stack q ++ outs ∧ ∃ o, taken o ∧ poll_view q' (C + 1) Dd (w ++ [o]).

Lemma round_pass q C Dd id a f w : poll_view q C Dd (Filled id a f :: w) → C - Dd < num_rx_desc (rxr q) → passes conf f →
  wp (let* entry := rx_entry (u32 C) in rx_round conf entry) (stepped q C Dd w (frame_out conf f)) q.
Proof.
  intros Hpv Hlt Hp. wp_step. eapply entry_wp; [done|]. eapply wp_mono.
  - apply (round_pass_wp conf Hso true q C [] w id a f); [apply Hpv|done].
  - intros v q' (-> & Hf & Hst & o & Ho & Hv). split; [done|]. split; [done|]. split; [done|]. exists o. split; [done|].
    by eapply pv_next.
Qed.

Lemma round_armed q C Dd id a w : poll_view q C Dd (Armed id a :: w) →
  (let* entry := rx_entry (u32 C) in rx_round conf entry) q = Some (RxBreak, q).
Proof.
  intros Hpv. assert (Hwp : wp (let* entry := rx_entry (u32 C) in rx_round conf entry) (λ v q', v = RxBreak ∧ q' = q) q).
  { wp_step. eapply entry_wp; [done|]. by apply (round_armed_wp conf Hso true q C [] w id a); [apply Hpv|]. }
  apply wp_elim in Hwp as (v & q' & E & -> & ->). exact E.
Qed.

Lemma round_stall q C Dd id a f w : poll_view q C Dd (Filled id a f :: w) → stalls conf f →
  wp (let* entry := rx_entry (u32 C) in rx_round conf entry)
    (λ v q', v = RxContinue ∧ rframe_same q q' ∧ rq_stack q' = rq_stack q ∧ poll_view q' C Dd (Armed id a :: w)) q.
Proof.
  intros Hpv Hp. wp_step. eapply entry_wp; [done|]. eapply wp_mono.
  - apply (round_stall_wp conf Hso true q C [] w id a f); [apply Hpv|done].
  - intros v q' (-> & Hf & Hst & Hv). split; [done|]. split; [done|]. split; [done|]. eapply pv_same; [done..|]. by intros [].
Qed.

(** ** Beginning and ending *)
Lemma begin_eq q C Dd w budget : poll_view q C Dd w → cur_rx (rxr q) = u32 C →
  rx_begin budget q = Some (Z.min (num_rx_desc (rxr q) - (C - Dd)) (u32 budget), q).
Proof.
  intros Hv Hc. pose proof (pv_pos _ _ _ _ Hv). destruct Hv as [_ Hd Hr _]. unfold rx_begin, bind, gets, ret, id. do 3 f_equal.
  rewrite Hd, Hc. unfold u32. rewrite Zminus_mod_idemp_r.
  replace (num_rx_desc (rxr q) + Dd mod 2 ^ 32 - C) with (num_rx_desc (rxr q) - C + Dd mod 2 ^ 32) by lia. rewrite Zplus_mod_idemp_r.
  replace (num_rx_desc (rxr q) - C + Dd) with (num_rx_desc (rxr q) - (C - Dd)) by lia. apply Z.mod_small. lia.
Qed.

Lemma rearmed_same w w' : Forall2 rearmed w w' → ∀ i o, w' !! i = Some o → o = Bare → w !! i = Some Bare.
Proof.
  intros Hr i o Hi ->. apply (Forall2_lookup_r _ _ _ _ _ Hr) in Hi as (o & Ho & Hre). destruct o; [done|by simpl in Hre..].
Qed.

Lemma refl_rearmed w : Forall2 rearmed w w.
Proof. by apply Forall_Forall2_diag, Forall_true. Qed.

(** Refilling goes on where it stopped. *)
Lemma refill_view q q' C Dd w pre fl k w' : poll_view q C Dd w → w = pre ++ fl → Z.of_nat (length fl) = C - Dd →
  dirty_rx (rxr q') = dirty_rx (rxr q) → num_rx_desc (rxr q') = num_rx_desc (rxr q) → rview conf true q' C (pre ++ w') → Forall2 rearmed fl w' → (k ≤ length fl)%nat →
  Forall (λ o, is_bare o = false) (take k w') →
  poll_view (x_ring (rr_dirty (u32 (dirty_rx (rxr q') + Z.of_nat k))) q') C (Dd + Z.of_nat k) (pre ++ w').
Proof.
  intros Hpv -> Hl Edd En Hv Hr Hk Ht. pose proof (pv_len _ _ _ _ Hpv) as Hlen. rewrite length_app in Hlen.
  assert (Hre : Forall2 rearmed (pre ++ fl) (pre ++ w')) by (apply Forall2_app; [apply refl_rearmed|done]).
  pose proof Hpv as [_ Hd Hroom Hb]. split; simpl.
  - destruct Hv as [Hwf Hvl Hat Hbk]. split; [done|done| |by eapply book_ext; [..|exact Hbk]].
    intros i o Hi. specialize (Hat i o Hi). by destruct o.
  - rewrite Edd, Hd. unfold u32. by rewrite Zplus_mod_idemp_l.
  - lia.
  - rewrite En. intros i Hi. pose proof (Hb _ (rearmed_same _ _ Hre _ _ Hi eq_refl)) as Hge.
    assert (k ≤ i - length pre)%nat; [|lia]. destruct (decide (k ≤ i - length pre)%nat); [done|exfalso].
    rewrite lookup_app_r in Hi by lia. eapply (list.Forall_lookup_1 _ _ (i - length pre)%nat) in Ht; [|rewrite lookup_take_lt by lia; exact Hi]. done.
Qed.

Lemma end_wp q C Dd w : poll_view q C Dd w →
  wp (rx_end conf (u32 C)) (λ c q', c = u32 (C - cur_rx (rxr q)) ∧ cur_rx (rxr q') = u32 C ∧ num_rx_desc (rxr q') = num_rx_desc (rxr q) ∧
    rq_stack q' = rq_stack q ∧ ∃ w' Dd', Forall2 rearmed w w' ∧ poll_view q' C Dd' w') q.
Proof.
  intros Hpv. pose proof (pv_len _ _ _ _ Hpv) as Hlen. pose proof Hpv as [Hv Hd Hroom Hb]. pose proof (pv_pos _ _ _ _ Hpv).
  unfold rx_end. wp_steps. unfold id. simpl. set (q1 := x_ring (rr_cur (u32 C)) q).
  set (n := Z.to_nat (num_rx_desc (rxr q) - (C - Dd))). set (pre := take n w). set (fl := drop n w).
  assert (Ew : w = pre ++ fl) by (symmetry; apply take_drop).
  assert (Hln : length pre = n) by (apply length_take_le; lia).
  assert (Hlf : Z.of_nat (length fl) = C - Dd) by (unfold fl; rewrite length_drop; lia).
  assert (Hv1 : rview conf true q1 C w).
  { destruct Hv as [Hwf Hvl Hat Hbk]. split; [done|done| |by eapply book_ext; [..|exact Hbk]]. intros i o Hi. specialize (Hat i o Hi). by destruct o. }
  eapply wp_mono; [apply (ring_fill_wp conf Hsz true fl q1 (C - num_rx_desc (rxr q)) pre [])|].
  - rewrite app_nil_r, <- Ew. eapply rview_mod; [|exact Hv1]. simpl.
    replace (C - num_rx_desc (rxr q)) with (C + (-1) * num_rx_desc (rxr q)) by lia. by rewrite Z_mod_plus_full.
  - rewrite Hd. f_equal. lia.
  - rewrite Hd, Hlf. unfold u32. rewrite <- Zminus_mod. apply Z.mod_small. lia.
  - intros r q2 (k & -> & [[[_ Ec Edd En] Hst _] Hk (w' & Hv2 & Hr & _ & Ht & _)]). wp_steps. simpl in *. rewrite app_nil_r in Hv2.
    split; [unfold u32; by rewrite Zminus_mod_idemp_l|]. split; [done|]. split; [done|]. split; [done|].
    exists (pre ++ w'), (Dd + Z.of_nat k). split; [rewrite Ew; apply Forall2_app; [apply refl_rearmed|done]|].
    eapply (refill_view q q2 C Dd w pre fl k w'); try done.
    eapply rview_mod; [|exact Hv2]. rewrite En.
    replace (C - num_rx_desc (rxr q)) with (C + (-1) * num_rx_desc (rxr q)) by lia. by rewrite Z_mod_plus_full.
Qed.

(** ** The chip *)
Lemma entry_after num D i : ring_size num →
  (if Z.of_nat (entry_of num D i) =? num - 1 then 0%nat else S (entry_of num D i)) = entry_of num D (S i).
Proof.
  intros Hs. pose proof (size_pos _ Hs). pose proof (entry_bound _ Hs D i). pose proof (entry_next _ Hs D i) as E.
  apply Nat2Z.inj. rewrite (entry_Z _ Hs D (S i)). rewrite Nat.add_1_r in E. rewrite <- E. destruct (Z.eqb_spec (Z.of_nat (entry_of num D i)) (num - 1)) as [->|Hne].
  - rewrite Z.sub_add, Z_mod_same_full. done.
  - rewrite Z.mod_small; lia.
Qed.

Lemma word_end num e : bit (Z.lor (Z.lor DescOwn (eor true num e)) (rx_buf_sz conf)) RingEnd = (Z.of_nat e =? num - 1).
Proof.
  unfold bit. rewrite (armed_end _ Hsz). unfold eor. cbn [andb]. by destruct (Z.of_nat e =? num - 1).
Qed.

Lemma slot_elsewhere q C w1 w2 id a x : rview conf true q C (w1 ++ Armed id a :: w2) → x ∈ w1 ++ w2 → ∀ i b, slot_buf x = Some (b, i) → i ≠ id.
Proof.
  intros Hv Hx i b Hb ->. pose proof (bk_ids _ _ (rv_book _ _ _ _ _ Hv)) as Hn. rewrite bufs_middle in Hn. simpl in Hn.
  apply list.NoDup_cons in Hn as [Hn _]. apply Hn. apply list_elem_of_fmap. exists (b, id). split; [done|].
  apply list_elem_of_omap. by exists x.
Qed.

Lemma chip_armed q C Dd w1 w2 id a f pc arr : poll_view q C Dd (w1 ++ Armed id a :: w2) → frame_ok f → ∃ q',
  chip_write f (RSys q pc (entry_of (num_rx_desc (rxr q)) C (length w1)) arr) =
    Some (RSys q' pc (entry_of (num_rx_desc (rxr q)) C (S (length w1))) (arr ++ [f])) ∧
  rframe_same q q' ∧ rq_stack q' = rq_stack q ∧ poll_view q' C Dd (w1 ++ Filled id a f :: w2).
Proof.
  intros Hpv Hok. pose proof (pv_view _ _ _ _ Hpv) as Hv. set (e := entry_of (num_rx_desc (rxr q)) C (length w1)).
  pose proof (rview_at _ _ _ _ _ _ _ Hv) as (Hk & Hp & d & Hd & Ha & Ho). fold e in Hk, Hp, Hd, Ho.
  assert (Hin : (a, id) ∈ bufs (w1 ++ Armed id a :: w2)) by (rewrite bufs_middle; left).
  destruct (book_mem _ _ _ _ (rv_book _ _ _ _ _ Hv) Hin) as (Hm & _ & _).
  exists (write_frame e d id f q). split; [|split; [by split|split; [done|]]].
  - unfold chip_write. simpl. rewrite Hd, Ha, Hm, Ho, armed_owned, word_end by done. simpl. unfold e. rewrite entry_after by apply Hv. done.
  - eapply pv_same; [exact Hpv|by split| |].
    + eapply rview_set; [exact Hv|fold e; solve_upd| | |by apply book_ext].
      * fold e. simpl. rewrite list_lookup_insert_eq by (by eapply lookup_lt_Some). do 3 (split; [done|]). split; [|by rewrite lookup_insert_eq].
        by rewrite Ho, armed_end, Ha.
      * intros x Hx. destruct x as [| |i b g]; [done|done|]. simpl.
        by rewrite lookup_insert_ne by (symmetry; by eapply (slot_elsewhere _ _ _ _ _ _ (Filled i b g))).
    + intros i Hi. destruct (decide (i = length w1)) as [->|Hne]; [by rewrite middle_lookup in Hi|].
      by rewrite <- (middle_insert w1 w2 (Armed id a) (Filled id a f)), list_lookup_insert_ne in Hi by done.
Qed.

Lemma chip_other q C Dd w1 o w2 f pc arr : poll_view q C Dd (w1 ++ o :: w2) → is_armed o = false →
  let s := RSys q pc (entry_of (num_rx_desc (rxr q)) C (length w1)) arr in chip_write f s = Some s.
Proof.
  intros Hpv Ho. destruct (slot_desc _ Hsz _ _ _ _ (rview_at _ _ _ _ _ _ _ (pv_view _ _ _ _ Hpv))) as (d & Hd & _ & Hb).
  unfold chip_write. simpl. rewrite Hd, Hb. by destruct o.
Qed.
End poll.

Section interleaved.
Context `{RxApi} (conf : rxconf) (Hso : rx_sound conf).
Let Hsz := so_size _ Hso.

(** ** Steps that do not look at frames *)
Definition pc_ok (s : rsys) (C Dd : Z) : Prop :=
  match r_pc s with
  | RIdle => cur_rx (rxr (rsq s)) = u32 C
  | RLoop n cur => cur = u32 C ∧ Z.of_nat n + (C - Dd) ≤ num_rx_desc (rxr (rsq s))
  | RDone cur => cur = u32 C
  end.
(** The chip and what it has written are as they were. *)
Record chip_same (s s' : rsys) : Prop := ChipSame {
  cs_chip : r_chip s' = r_chip s; cs_arrived : r_arrived s' = r_arrived s; cs_stack : rq_stack (rsq s') = rq_stack (rsq s);
  cs_num : num_rx_desc (rxr (rsq s')) = num_rx_desc (rxr (rsq s)) }.

Lemma step_begin s C Dd w budget : poll_view conf (rsq s) C Dd w → pc_ok s C Dd →
  ∃ s', rev_step conf (EvBegin budget) s = Some s' ∧ chip_same s s' ∧ poll_view conf (rsq s') C Dd w ∧ pc_ok s' C Dd.
Proof.
  intros Hv Hpc. unfold rev_step. unfold pc_ok in Hpc. destruct (r_pc s) eqn:Epc.
  2, 3: exists s; do 2 (split; [done|]); split; [done|]; unfold pc_ok; by rewrite Epc.
  rewrite (begin_eq conf _ _ _ _ _ Hv Hpc). eexists. split; [done|]. split; [done|]. split; [done|].
  unfold pc_ok. simpl. split; [done|]. pose proof (pv_room _ _ _ _ _ Hv). assert (0 ≤ u32 budget) by (apply Z.mod_pos_bound; lia). lia.
Qed.

Lemma step_end s C Dd w : poll_view conf (rsq s) C Dd w → pc_ok s C Dd →
  ∃ s' w' Dd', rev_step conf EvEnd s = Some s' ∧ chip_same s s' ∧ Forall2 rearmed w w' ∧ poll_view conf (rsq s') C Dd' w' ∧ pc_ok s' C Dd'.
Proof.
  intros Hv Hpc. unfold rev_step. unfold pc_ok in Hpc. destruct (r_pc s) as [|n cur|cur] eqn:Epc.
  1, 2: exists s, w, Dd; do 2 (split; [done|]); split; [apply refl_rearmed|]; split; [done|]; unfold pc_ok; by rewrite Epc.
  subst cur. destruct (wp_elim _ _ _ (end_wp conf Hso _ _ _ _ Hv)) as (c & q' & E & _ & Hc & Hn & Hst & w' & Dd' & Hr & Hv').
  rewrite E. eexists _, w', Dd'. split; [done|]. split; [by split|]. done.
Qed.

(** ** In order *)
Definition slot_frame (o : rslot) : option rframe := match o with Filled _ _ f => Some f | _ => None end.
Definition frames (w : rwindow) : list rframe := omap slot_frame w.
Definition good_slot (o : rslot) : Prop := match o with Filled _ _ f => passes conf f | _ => False end.
Definition is_filled (o : rslot) : bool := match o with Filled _ _ _ => true | _ => false end.

Lemma frames_app w1 w2 : frames (w1 ++ w2) = frames w1 ++ frames w2.
Proof. apply omap_app. Qed.

Lemma frames_good fs : Forall good_slot fs → length (frames fs) = length fs.
Proof. induction 1 as [|o fs Ho _ IH]; [done|]. destruct o; [done..|]. simpl. by rewrite <- IH. Qed.

Lemma rearmed_good fs w : Forall2 rearmed fs w → Forall good_slot fs → w = fs.
Proof.
  induction 1 as [|o o' fs w Ho Hr IH]; intros Hg; [done|]. apply Forall_cons_1 in Hg as [Ho' Hg].
  rewrite IH by done. destruct o; [done..|]. simpl in Ho. by subst.
Qed.
Lemma rearmed_empty rest w : Forall2 rearmed rest w → Forall (λ o, is_filled o = false) rest → Forall (λ o, is_filled o = false) w.
Proof.
  induction 1 as [|o o' fs w Ho Hr IH]; intros Hg; [done|]. apply Forall_cons_1 in Hg as [Ho' Hg].
  constructor; [|by apply IH]. destruct o; simpl in Ho; [|by subst..]. destruct Ho as [->|(? & ? & ->)]; done.
Qed.

Record order_inv (s : rsys) (C Dd : Z) (fs rest : rwindow) (before : list rframe) : Prop := OrderInv {
  oi_view : poll_view conf (rsq s) C Dd (fs ++ rest);
  oi_pc : pc_ok s C Dd;
  oi_fs : Forall good_slot fs;
  oi_rest : Forall (λ o, is_filled o = false) rest;
  oi_chip : r_chip s = entry_of (num_rx_desc (rxr (rsq s))) C (length fs);
  oi_arrived : r_arrived s = before ++ frames fs;
  oi_stack : rq_stack (rsq s) = out conf before }.

Definition ordered (s : rsys) : Prop := ∃ C Dd fs rest before, order_inv s C Dd fs rest before.

Lemma ordered_frame s C Dd fs rest before f : order_inv s C Dd fs rest before → passes conf f →
  ∃ s', rev_step conf (EvFrame f) s = Some s' ∧ ordered s'.
Proof.
  intros [Hv Hpc Hfs Hrest Hchip Harr Hst] Hf. pose proof (pv_len _ _ _ _ _ Hv) as Hl. pose proof (pv_pos _ _ _ _ _ Hv).
  unfold rev_step. destruct s as [q pc chip arr]. simpl in *. subst chip.
  destruct rest as [|o rest].
  - rewrite app_nil_r in Hl. destruct fs as [|o fs]; [simpl in Hl; lia|]. pose proof (Forall_cons_1 _ _ _ Hfs) as [Hgo _].
    rewrite (entry_wrap _ (proj1 (rv_wf _ _ _ _ _ (pv_view _ _ _ _ _ Hv))) C _ 0) by lia.
    exists (RSys q pc (entry_of (num_rx_desc (rxr q)) C 0) arr). split.
    + apply (chip_other conf Hso q C Dd [] o (fs ++ [])); [done|]. by destruct o.
    + exists C, Dd, (o :: fs), [], before. split; simpl; try done. symmetry. apply (entry_wrap _ (proj1 (rv_wf _ _ _ _ _ (pv_view _ _ _ _ _ Hv)))). simpl in Hl. lia.
  - apply Forall_cons_1 in Hrest as [Ho Hrest']. destruct (is_armed o) eqn:Ea.
    + destruct o as [|id a|]; [done| |done].
      destruct (chip_armed conf Hso q C Dd fs rest id a f pc arr Hv (proj1 Hf)) as (q' & E & Hsame & Hst' & Hv').
      eexists. split; [exact E|]. exists C, Dd, (fs ++ [Filled id a f]), rest, before. pose proof (rs_num _ _ Hsame) as En. split; simpl.
      * by rewrite <- app_assoc.
      * unfold pc_ok in *. simpl in *. rewrite En, (rs_cur _ _ Hsame). done.
      * apply Forall_app. by split; [|constructor].
      * done.
      * by rewrite En, length_app, Nat.add_1_r.
      * by rewrite frames_app, app_assoc, <- Harr.
      * congruence.
    + eexists. split; [by eapply (chip_other conf Hso)|]. exists C, Dd, fs, (o :: rest), before. split; simpl; try done. by constructor.
Qed.

Lemma ordered_pass s C Dd id a f fs rest before n : order_inv s C Dd (Filled id a f :: fs) rest before →
  r_pc s = RLoop (S n) (u32 C) → C - Dd < num_rx_desc (rxr (rsq s)) →
  ∃ s', rev_step conf EvRound s = Some s' ∧ ordered s'.
Proof.
  intros [Hv Hpc Hfs Hrest Hchip Harr Hst] Epc Hlt. apply Forall_cons_1 in Hfs as [Hf Hfs].
  destruct (wp_elim _ _ _ (round_pass conf Hso _ _ _ _ _ _ _ Hv Hlt Hf)) as (v & q' & E & -> & Hsame & Hst' & o' & Ho & Hv').
  unfold rev_step. rewrite Epc, E. eexists. split; [done|]. pose proof (rs_num _ _ Hsame) as En.
  exists (C + 1), Dd, fs, (rest ++ [o']), (before ++ [f]). split; simpl.
  - by rewrite app_assoc.
  - unfold pc_ok in *. rewrite Epc in Hpc. simpl. rewrite En. split; [unfold u32; by rewrite Zplus_mod_idemp_l|lia].
  - done.
  - apply Forall_app. split; [done|]. constructor; [|done]. by destruct Ho as [->|(? & ? & ->)].
  - by rewrite En, Hchip, entry_succ.
  - by rewrite Harr, <- app_assoc.
  - rewrite Hst', Hst. unfold out. rewrite bind_app. simpl. by rewrite app_nil_r.
Qed.

Lemma ordered_round s C Dd fs rest before : order_inv s C Dd fs rest before →
  ∃ s', rev_step conf EvRound s = Some s' ∧ ordered s'.
Proof.
  intros Hi. pose proof (oi_pc _ _ _ _ _ _ Hi) as Hpc. pose proof (oi_view _ _ _ _ _ _ Hi) as Hv. unfold pc_ok in Hpc.
  assert (Hkeep : ordered s) by (by exists C, Dd, fs, rest, before).
  destruct (r_pc s) as [|[|n] cur|cur] eqn:Epc; [unfold rev_step; rewrite Epc; eauto| | |unfold rev_step; rewrite Epc; eauto].
  - unfold rev_step. rewrite Epc. eexists. split; [done|]. destruct Hpc as [-> _]. destruct Hi. by exists C, Dd, fs, rest, before.
  - destruct Hpc as [-> Hroom]. destruct fs as [|o fs].
    + pose proof (pv_len _ _ _ _ _ Hv) as Hl. destruct rest as [|o rest]; [pose proof (pv_pos _ _ _ _ _ Hv); simpl in Hl; lia|].
      pose proof (oi_rest _ _ _ _ _ _ Hi) as Hr. apply Forall_cons_1 in Hr as [Ho _].
      pose proof (head_not_bare conf _ _ _ _ _ Hv ltac:(lia)). destruct o as [|id a|]; [done| |done].
      unfold rev_step. rewrite Epc, (round_armed conf Hso _ _ _ _ _ _ Hv). eexists. split; [done|].
      destruct Hi. by exists C, Dd, [], (Armed id a :: rest), before.
    + pose proof (oi_fs _ _ _ _ _ _ Hi) as Hg. apply Forall_cons_1 in Hg as [Ho _]. destruct o as [| |id a f]; [done..|].
      eapply ordered_pass; [exact Hi|exact Epc|lia].
Qed.

Definition rev_ok (e : revent) : Prop := match e with EvFrame f => passes conf f | _ => True end.
Lemma ordered_step s e : ordered s → rev_ok e → ∃ s', rev_step conf e s = Some s' ∧ ordered s'.
Proof.
  intros (C & Dd & fs & rest & before & Hi) He. destruct e as [f|budget| |].
  - by eapply ordered_frame.
  - pose proof Hi as [Hv Hpc Hfs Hrest Hchip Harr Hst]. destruct (step_begin _ _ _ _ budget Hv Hpc) as (s' & E & [Ec Ea Es En] & Hv' & Hpc').
    exists s'. split; [done|]. exists C, Dd, fs, rest, before. split; try done; congruence.
  - by eapply ordered_round.
  - pose proof Hi as [Hv Hpc Hfs Hrest Hchip Harr Hst]. destruct (step_end _ _ _ _ Hv Hpc) as (s' & w' & Dd' & E & [Ec Ea Es En] & Hr & Hv' & Hpc').
    exists s'. split; [done|]. apply Forall2_app_inv_l in Hr as (fs' & rest' & Hr1 & Hr2 & ->).
    apply rearmed_good in Hr1 as ->; [|done]. exists C, Dd', fs, rest', before. split; try done; try congruence. by eapply rearmed_empty.
Qed.

Lemma ordered_run es : ∀ s, ordered s → Forall rev_ok es → ∃ s', rrun conf es s = Some s' ∧ ordered s'.
Proof.
  induction es as [|e es IH]; intros s Hs Hok; simpl; [eauto|]. apply Forall_cons_1 in Hok as [He Hok].
  destruct (ordered_step s e Hs He) as (s1 & -> & Hs1). by apply IH.
Qed.

(** ** The buffers *)
(** The buffers the driver holds, and their mappings, are the ring's. *)
Definition holds_ring (q : rxq) : Prop :=
  (∀ a id, rq_mapped q !! a = Some id ↔
     ∃ e, Z.of_nat e < num_rx_desc (rxr q) ∧ Rx_skbuff (rxr q) !! e = Some (Some id) ∧ RxDescPhyAddr (rxr q) !! e = Some a) ∧
  (∀ id, id ∈ rq_live q ↔ ∃ e, Z.of_nat e < num_rx_desc (rxr q) ∧ Rx_skbuff (rxr q) !! e = Some (Some id)).

Lemma slot_held rend q e o : rslot_at conf rend q e o → ∀ id, Rx_skbuff (rxr q) !! e = Some (Some id) ↔ ∃ a, slot_buf o = Some (a, id).
Proof.
  intros Hat id. destruct o as [|i b|i b f]; destruct Hat as (Hk & _); rewrite Hk; simpl;
    (split; [intros E|intros [a E]]; simplify_eq/=; eauto).
Qed.
Lemma slot_mapped rend q e o a id : rslot_at conf rend q e o → slot_buf o = Some (a, id) → RxDescPhyAddr (rxr q) !! e = Some a.
Proof. intros Hat Ho. destruct o; simplify_eq/=; apply Hat. Qed.

Lemma rview_holds rend q D w : rview conf rend q D w → holds_ring q.
Proof.
  intros Hv. apply rview_from_zero in Hv as (w0 & Hv & _). clear w. pose proof (rv_len _ _ _ _ _ Hv) as Hl. pose proof (rv_book _ _ _ _ _ Hv) as Hb.
  assert (Hslot : ∀ e, Z.of_nat e < num_rx_desc (rxr q) → ∃ o, w0 !! e = Some o ∧ rslot_at conf rend q e o).
  { intros e He. destruct (lookup_lt_is_Some_2 w0 e ltac:(lia)) as [o Ho]. exists o. split; [done|].
    replace e with (entry_of (num_rx_desc (rxr q)) 0 e); [by apply Hv|]. unfold entry_of. rewrite Z.mod_small; lia. }
  assert (Hin : ∀ a id, (a, id) ∈ bufs w0 ↔ ∃ e, Z.of_nat e < num_rx_desc (rxr q) ∧ Rx_skbuff (rxr q) !! e = Some (Some id) ∧ RxDescPhyAddr (rxr q) !! e = Some a).
  { intros a id. unfold bufs. rewrite list_elem_of_omap. split.
    - intros (o & Ho & Ebuf). apply list_elem_of_lookup_1 in Ho as [e Ho]. assert (He : Z.of_nat e < num_rx_desc (rxr q)) by (apply lookup_lt_Some in Ho; lia).
      destruct (Hslot e He) as (o' & Ho' & Hat). assert (o' = o) as -> by congruence. exists e. split; [done|].
      split; [apply (slot_held _ _ _ _ Hat); eauto|by eapply slot_mapped].
    - intros (e & He & Hk & Hp). destruct (Hslot e He) as (o & Ho & Hat). exists o. split; [by eapply list_elem_of_lookup_2|].
      apply (slot_held _ _ _ _ Hat) in Hk as [b Eb]. pose proof (slot_mapped _ _ _ _ _ _ Hat Eb). congruence. }
  split.
  - intros a id. rewrite <- Hin, (bk_mapped _ _ Hb). symmetry. apply elem_of_list_to_map, Hb.
  - intros id. rewrite (bk_live _ _ Hb), elem_of_list_to_set, list_elem_of_fmap. split.
    + intros ([a i] & -> & Hi). apply Hin in Hi as (e & ? & ? & _). eauto.
    + intros (e & He & Hk). destruct (Hslot e He) as (o & Ho & Hat). pose proof Hk as Hk'. apply (slot_held _ _ _ _ Hat) in Hk' as [a Ea].
      exists (a, id). split; [done|]. apply Hin. exists e. split; [done|]. split; [done|]. by eapply slot_mapped.
Qed.

(** ** A frame the poll does not step over *)
(** [x] is the slot of the frame, [m] how many the chip has written since. *)
Record stall_inv (outs : list rx_packet) (m : nat) (s : rsys) (C Dd : Z) (fs : rwindow) (x : rslot) (rest : rwindow) : Prop := StallInv {
  st_view : poll_view conf (rsq s) C Dd (fs ++ x :: rest);
  st_pc : pc_ok s C Dd;
  st_fs : Forall good_slot fs;
  st_slot : match x with Filled _ _ f => stalls conf f | Armed _ _ => True | Bare => False end;
  st_chip : r_chip s = entry_of (num_rx_desc (rxr (rsq s))) C (length fs + 1 + m);
  st_out : rq_stack (rsq s) ++ out conf (frames fs) = outs }.
Definition stuck (outs : list rx_packet) (m : nat) (s : rsys) : Prop := ∃ C Dd fs x rest, stall_inv outs m s C Dd fs x rest.

Lemma stuck_frame outs m s f : stuck outs m s → frame_ok f → (Z.of_nat m + 1 < num_rx_desc (rxr (rsq s))) →
  ∃ s', rev_step conf (EvFrame f) s = Some s' ∧ num_rx_desc (rxr (rsq s')) = num_rx_desc (rxr (rsq s)) ∧ ∃ m', (m' ≤ S m)%nat ∧ stuck outs m' s'.
Proof.
  intros (C & Dd & fs & x & rest & Hi) Hf Hm. pose proof Hi as [Hv Hpc Hfs Hx Hchip Hout].
  pose proof (pv_len _ _ _ _ _ Hv) as Hl. rewrite length_app in Hl. simpl in Hl. pose proof (rv_wf _ _ _ _ _ (pv_view _ _ _ _ _ Hv)) as Hwf.
  assert (Hstay : ∀ j o w1 w2, fs ++ x :: rest = w1 ++ o :: w2 → length w1 = j → is_armed o = false →
    r_chip s = entry_of (num_rx_desc (rxr (rsq s))) C j → rev_step conf (EvFrame f) s = Some s).
  { intros j o w1 w2 E <- Ho Ec. rewrite E in Hv. unfold rev_step. pose proof (chip_other conf Hso _ _ _ _ _ _ f (r_pc s) (r_arrived s) Hv Ho) as Hc.
    simpl in Hc. rewrite <- Ec in Hc. by destruct s. }
  assert (Hsame : rev_step conf (EvFrame f) s = Some s → ∃ s', rev_step conf (EvFrame f) s = Some s' ∧
    num_rx_desc (rxr (rsq s')) = num_rx_desc (rxr (rsq s)) ∧ ∃ m', (m' ≤ S m)%nat ∧ stuck outs m' s').
  { intros E. exists s. split; [done|]. split; [done|]. exists m. split; [lia|]. by exists C, Dd, fs, x, rest. }
  destruct (decide (m < length rest)%nat) as [Hlt|Hge].
  - destruct (lookup_lt_is_Some_2 rest m Hlt) as [o Ho]. apply list_elem_of_split_length in Ho as (r1 & r2 & -> & ->).
    assert (E : fs ++ x :: r1 ++ o :: r2 = (fs ++ x :: r1) ++ o :: r2) by by rewrite <- app_assoc.
    assert (El : length (fs ++ x :: r1) = (length fs + 1 + length r1)%nat) by (rewrite length_app; simpl; lia).
    destruct (is_armed o) eqn:Ea.
    2: { apply Hsame. by eapply (Hstay _ o (fs ++ x :: r1) r2). }
    destruct o as [|id a|]; [done| |done]. rewrite E in Hv.
    destruct (chip_armed conf Hso _ _ _ _ _ _ _ f (r_pc s) (r_arrived s) Hv Hf) as (q' & Ec & Hq & Hst & Hv').
    rewrite El, <- Hchip in Ec. pose proof (rs_num _ _ Hq) as En.
    eexists. split; [unfold rev_step; destruct s; exact Ec|]. split; [done|]. exists (S (length r1)). split; [lia|].
    exists C, Dd, fs, x, (r1 ++ Filled id a f :: r2). split; simpl; try done.
    + by rewrite <- app_assoc in Hv'.
    + unfold pc_ok in *. simpl. rewrite En, (rs_cur _ _ Hq). done.
    + rewrite En. f_equal. lia.
    + congruence.
  - apply Hsame. set (j := (length fs + 1 + m - (length fs + 1 + length rest))%nat).
    destruct (lookup_lt_is_Some_2 fs j ltac:(lia)) as [o Ho]. pose proof (list.Forall_lookup_1 _ _ _ _ Hfs Ho) as Hgo.
    apply list_elem_of_split_length in Ho as (f1 & f2 & -> & Ej).
    eapply (Hstay j o f1 (f2 ++ x :: rest)); [by rewrite <- app_assoc|done|by destruct o|].
    rewrite Hchip. apply (entry_wrap _ (proj1 Hwf)). lia.
Qed.

(** Any other event leaves the ring's size and [m] alone. *)
Definition still_stuck (outs : list rx_packet) (m : nat) (s s' : rsys) : Prop :=
  num_rx_desc (rxr (rsq s')) = num_rx_desc (rxr (rsq s)) ∧ stuck outs m s'.

Lemma stuck_round outs m s : stuck outs m s → ∃ s', rev_step conf EvRound s = Some s' ∧ still_stuck outs m s s'.
Proof.
  intros (C & Dd & fs & x & rest & Hi). pose proof Hi as [Hv Hpc Hfs Hx Hchip Hout]. unfold pc_ok in Hpc.
  assert (Hsame : rev_step conf EvRound s = Some s → ∃ s', rev_step conf EvRound s = Some s' ∧ still_stuck outs m s s').
  { intros E. exists s. split; [done|]. split; [done|]. by exists C, Dd, fs, x, rest. }
  unfold rev_step in *. destruct (r_pc s) as [|[|n] cur|cur] eqn:Epc; [by apply Hsame| | |by apply Hsame].
  - eexists. split; [done|]. split; [done|]. destruct Hpc as [-> _]. by exists C, Dd, fs, x, rest.
  - destruct Hpc as [-> Hroom]. destruct fs as [|o fs].
    + simpl in Hv. destruct x as [|id a|id a f]; [done| |].
      * rewrite (round_armed conf Hso _ _ _ _ _ _ Hv). eexists. split; [done|]. split; [done|]. by exists C, Dd, [], (Armed id a), rest.
      * destruct (wp_elim _ _ _ (round_stall conf Hso _ _ _ _ _ _ _ Hv Hx)) as (v & q' & E & -> & Hsame' & Hst' & Hv').
        rewrite E. pose proof (rs_num _ _ Hsame') as En. eexists. split; [done|]. split; [done|].
        exists C, Dd, [], (Armed id a), rest. split; simpl; try done; [|by rewrite En|by rewrite Hst'].
        unfold pc_ok. simpl. rewrite En. split; [done|lia].
    + apply Forall_cons_1 in Hfs as [Hf Hfs]. destruct o as [| |id a f]; [done..|].
      destruct (wp_elim _ _ _ (round_pass conf Hso _ _ _ _ _ _ _ Hv ltac:(lia) Hf)) as (v & q' & E & -> & Hsame' & Hst' & o' & Ho & Hv').
      rewrite E. pose proof (rs_num _ _ Hsame') as En. eexists. split; [done|]. split; [done|].
      exists (C + 1), Dd, fs, x, (rest ++ [o']). split; simpl; try done.
      * by rewrite <- app_assoc in Hv'.
      * unfold pc_ok. simpl. rewrite En. split; [unfold u32; by rewrite Zplus_mod_idemp_l|lia].
      * by rewrite En, Hchip, entry_succ.
      * rewrite Hst', <- app_assoc. exact Hout.
Qed.

Lemma stuck_other outs m s e : stuck outs m s → (∀ f, e ≠ EvFrame f) → ∃ s', rev_step conf e s = Some s' ∧ still_stuck outs m s s'.
Proof.
  intros Hs He. destruct e as [f|budget| |]; [by destruct (He f)| |by apply stuck_round|].
  - destruct Hs as (C & Dd & fs & x & rest & [Hv Hpc Hfs Hx Hchip Hout]).
    destruct (step_begin _ _ _ _ budget Hv Hpc) as (s' & E & [Ec Ea Es En] & Hv' & Hpc'). exists s'. split; [done|]. split; [done|].
    exists C, Dd, fs, x, rest. split; try done; congruence.
  - destruct Hs as (C & Dd & fs & x & rest & [Hv Hpc Hfs Hx Hchip Hout]).
    destruct (step_end _ _ _ _ Hv Hpc) as (s' & w' & Dd' & E & [Ec Ea Es En] & Hr & Hv' & Hpc'). exists s'. split; [done|]. split; [done|].
    apply Forall2_app_inv_l in Hr as (fs' & rest' & Hr1 & Hr2 & ->). apply rearmed_good in Hr1 as ->; [|done].
    apply Forall2_cons_inv_l in Hr2 as (x' & rest'' & Hx' & _ & ->).
    assert (x' = x) as -> by (by destruct x; simpl in Hx').
    exists C, Dd', fs, x, rest''. split; try done; congruence.
Qed.

(** How many frames come. *)
Fixpoint frames_in (es : list revent) : nat :=
  match es with [] => O | EvFrame _ :: es' => S (frames_in es') | _ :: es' => frames_in es' end.
Definition some_frame (e : revent) : Prop := match e with EvFrame f => frame_ok f | _ => True end.

Lemma stuck_run outs es : ∀ m s, stuck outs m s → Forall some_frame es → Z.of_nat (m + frames_in es) < num_rx_desc (rxr (rsq s)) →
  ∃ s', rrun conf es s = Some s' ∧ ∃ m', stuck outs m' s'.
Proof.
  induction es as [|e es IH]; intros m s Hs Hok Hm; [simpl; eauto|]. apply Forall_cons_1 in Hok as [He Hok]. cbn [rrun].
  assert (Hother : (∀ f, e ≠ EvFrame f) → frames_in (e :: es) = frames_in es →
    ∃ s', match rev_step conf e s with Some s' => rrun conf es s' | None => None end = Some s' ∧ ∃ m', stuck outs m' s').
  { intros Hne Ef. destruct (stuck_other _ _ _ _ Hs Hne) as (s1 & -> & En & Hs1). apply (IH m); [done|done|]. rewrite En. by rewrite Ef in Hm. }
  destruct e as [f|budget| |]; [|by apply Hother..]. simpl in Hm.
  destruct (stuck_frame _ _ _ f Hs He ltac:(lia)) as (s1 & -> & En & m' & Hle & Hs1). apply (IH m'); [done|done|]. rewrite En. lia.
Qed.
End interleaved.

Section properties.
Context `{RxApi} (conf : rxconf) (Hso : rx_sound conf).
Let Hsz := so_size _ Hso.

(** The ring as [rtl8125_rx_init_ring] leaves it, the chip at its first
    descriptor. *)
Record rx_fresh (s : rsys) : Prop := RxFresh {
  rf_view : ∃ w, rview conf true (rsq s) 0 w ∧ Forall (λ o, is_armed o = true) w;
  rf_cur : cur_rx (rxr (rsq s)) = 0; rf_dirty : dirty_rx (rxr (rsq s)) = 0;
  rf_pc : r_pc s = RIdle; rf_chip : r_chip s = 0%nat; rf_arrived : r_arrived s = []; rf_stack : rq_stack (rsq s) = [] }.

Lemma fresh_ordered s : rx_fresh s → ordered conf s.
Proof.
  intros [(w & Hv & Ha) Hc Hd Hpc Hchip Harr Hst]. exists 0, 0, [], w, []. split; simpl; try done.
  - pose proof (rv_wf _ _ _ _ _ Hv) as ([[? _] _] & _). split; [done|done|lia|]. intros i Hi.
    eapply list.Forall_lookup_1 in Ha; [|done]. done.
  - unfold pc_ok. by rewrite Hpc.
  - eapply list.Forall_impl; [exact Ha|]. by intros [].
Qed.

(** C22: setting up the receive ring ([rtl8125_init_ring], the receive side of
    a ring) fills all of it or none: it succeeds with a buffer behind every
    descriptor and all of them the chip's, or fails with [-ENOMEM], and then
    the driver has given back every buffer and every mapping it had made and
    no entry names a buffer. Which allocation or mapping fails is the
    kernel's choice. *)
Theorem rx_init_all_or_nothing s : rx_allocated s → rq_stack s = [] →
  ∃ rc s', rtl8125_rx_init_ring conf s = Some (rc, s') ∧
    ((rc = 0 ∧ rx_fresh (RSys s' RIdle 0 []) ∧
      ∀ e, Z.of_nat e < num_rx_desc (rxr s) →
        ∃ id a d, Rx_skbuff (rxr s') !! e = Some (Some id) ∧ rq_mapped s' !! a = Some id ∧
                  RxDescArray (rxr s') !! e = Some d ∧ rd_addr d = a ∧ bit (rd_opts1 d) DescOwn = true) ∨
     (rc = - ENOMEM ∧ rq_mapped s' = ∅ ∧ rq_live s' = ∅ ∧
      ∀ e, Z.of_nat e < num_rx_desc (rxr s) → Rx_skbuff (rxr s') !! e = Some None)).
Proof.
  intros Ha Hst. destruct (wp_elim _ _ _ (rx_init_wp conf Hsz s Ha)) as (rc & s' & E & En & Es & Hc & Hd & Hcase).
  exists rc, s'. split; [done|].
  assert (Hat : ∀ rend w, rview conf rend s' 0 w → ∀ e, Z.of_nat e < num_rx_desc (rxr s) → ∃ o, w !! e = Some o ∧ rslot_at conf rend s' e o).
  { intros rend w Hv e He. pose proof (rv_len _ _ _ _ _ Hv) as Hl. destruct (lookup_lt_is_Some_2 w e ltac:(lia)) as [o Ho].
    exists o. split; [done|]. replace e with (entry_of (num_rx_desc (rxr s')) 0 e); [by apply Hv|]. unfold entry_of. rewrite Z.mod_small; lia. }
  destruct Hcase as [(-> & w & Hv & Hw)|(-> & [_ Hm Hl] & n & Hv)]; [left|right]; (split; [done|]).
  - split; [split; simpl; try done; [by exists w|congruence]|]. intros e He. destruct (Hat _ _ Hv e He) as (o & Ho & Hslot).
    pose proof (list.Forall_lookup_1 _ _ _ _ Hw Ho). destruct o as [|id a|]; [done| |done].
    destruct (slot_desc _ Hsz _ _ _ _ Hslot) as (d' & Hd' & _ & Hown). destruct Hslot as (Hk & _ & d & Hd2 & Hda & _).
    assert (Hin : (a, id) ∈ bufs w) by (apply (bufs_armed id a); by eapply list_elem_of_lookup_2).
    destruct (book_mem _ _ _ _ (rv_book _ _ _ _ _ Hv) Hin) as (Hmap & _). exists id, a, d. assert (d' = d) as -> by congruence. done.
  - split; [done|]. split; [done|]. intros e He. destruct (Hat _ _ Hv e He) as (o & Ho & Hslot).
    apply lookup_replicate in Ho as [-> _]. by destruct Hslot.
Qed.

(** C7: however the poll of a ring ([rtl8125_rx_interrupt], taken in pieces)
    and the frames of the chip interleave, allocations failing or not, nothing
    undefined happens: the chip never writes to an address that is not mapped,
    no buffer is freed twice or given away twice; and what the stack has been
    given is what the first [n] frames that arrived make, in their order, each
    once, with no more than a ring of them outstanding. The buffers the driver
    holds and their mappings are those the ring names, so none is lost. The
    frames are such as the chip makes when they fit their buffers. *)
Theorem rx_in_order s es : rx_fresh s → Forall (rev_ok conf) es →
  ∃ s' n, rrun conf es s = Some s' ∧ rq_stack (rsq s') = out conf (take n (r_arrived s')) ∧
    (n ≤ length (r_arrived s'))%nat ∧ Z.of_nat (length (r_arrived s') - n) ≤ num_rx_desc (rxr (rsq s')) ∧ holds_ring (rsq s').
Proof.
  intros Hf Hok. apply fresh_ordered in Hf. destruct (ordered_run conf Hso es s Hf Hok) as (s' & E & C & Dd & fs & rest & before & [Hv Hpc Hfs _ _ Harr Hst]).
  exists s', (length before). split; [done|]. rewrite Harr, take_app_length. split; [done|]. rewrite length_app. split; [lia|].
  split; [|eapply rview_holds, Hv]. pose proof (pv_len _ _ _ _ _ Hv) as Hl. rewrite length_app in Hl.
  rewrite (frames_good conf) by done. lia.
Qed.

(** C23: a frame in more than one descriptor, or larger than a buffer, stops
    the ring: the loop gives its descriptor back and goes on at the same one
    ([continue] skips the step of [cur_rx]), which is the chip's now. From
    then on nothing but the frames from before it reaches the stack, whatever
    arrives and however often the ring is polled, until the chip has come round
    to that descriptor again: for any run in which fewer frames come than the
    ring is long, what the stack has been given is a part of what the frames
    make that had arrived before. *)
Theorem fragment_stalls s es1 s1 f s2 es2 :
  rx_fresh s → Forall (rev_ok conf) es1 → rrun conf es1 s = Some s1 →
  stalls conf f → chip_write f s1 = Some s2 → r_arrived s2 = r_arrived s1 ++ [f] →
  Forall some_frame es2 → Z.of_nat (frames_in es2) < num_rx_desc (rxr (rsq s2)) →
  ∃ s3, rrun conf es2 s2 = Some s3 ∧ ∃ later, rq_stack (rsq s3) ++ later = out conf (r_arrived s1).
Proof.
  intros Hf Hok1 E1 Hst E2 Ha Hok2 Hn. apply fresh_ordered in Hf. destruct (ordered_run conf Hso es1 s Hf Hok1) as (s1' & E1' & Hord).
  assert (s1' = s1) as -> by congruence. destruct Hord as (C & Dd & fs & rest & before & [Hv Hpc Hfs Hrest Hchip Harr Hstk]).
  destruct s1 as [q pc chip arr]. simpl in *. subst chip.
  assert (Hs2 : stuck conf (out conf arr) 0 s2).
  { assert (Hother : ∀ x, chip_write f x = Some x → x = RSys q pc (entry_of (num_rx_desc (rxr q)) C (length fs)) arr → False).
    { intros x Ex ->. assert (s2 = RSys q pc (entry_of (num_rx_desc (rxr q)) C (length fs)) arr) as -> by congruence. simpl in Ha.
      apply (f_equal length) in Ha. rewrite length_app in Ha. simpl in Ha. lia. }
    destruct rest as [|o rest].
    - exfalso. pose proof (pv_len _ _ _ _ _ Hv) as Hl. rewrite app_nil_r in Hl. pose proof (pv_pos _ _ _ _ _ Hv).
      destruct fs as [|o fs]; [simpl in Hl; lia|]. pose proof (Forall_cons_1 _ _ _ Hfs) as [Hgo _].
      pose proof (chip_other conf Hso q C Dd [] o (fs ++ []) f pc arr Hv ltac:(by destruct o)) as Ho. simpl in Ho.
      eapply Hother; [exact Ho|]. f_equal. symmetry. apply (entry_wrap _ (proj1 (rv_wf _ _ _ _ _ (pv_view _ _ _ _ _ Hv)))). simpl in *. lia.
    - destruct (is_armed o) eqn:Eo; [|exfalso; eapply Hother; [by eapply (chip_other conf Hso)|done]].
      destruct o as [|id a|]; [done| |done].
      destruct (chip_armed conf Hso q C Dd fs rest id a f pc arr Hv (proj1 Hst)) as (q' & E & Hsame & Hst' & Hv').
      rewrite E in E2. injection E2 as <-. exists C, Dd, fs, (Filled id a f), rest. pose proof (rs_num _ _ Hsame) as En. split; simpl; try done.
      + unfold pc_ok in *. simpl in *. by rewrite En, (rs_cur _ _ Hsame).
      + rewrite En. f_equal. lia.
      + rewrite Hst', Hstk, Harr. unfold out. by rewrite bind_app. }
  destruct (stuck_run conf Hso _ es2 0 s2 Hs2 Hok2 Hn) as (s3 & E3 & m & C3 & Dd3 & fs3 & x & rest3 & [_ _ _ _ _ Hout]).
  exists s3. split; [done|]. by exists (out conf (frames fs3)).
Qed.

(** ** One poll *)
Lemma loop_step n cur (Q : Z → rxq → Prop) q :
  wp (let* entry := rx_entry cur in rx_round conf entry) (λ v q',
    wp (match v with RxBreak => ret cur | RxContinue => rx_loop conf n cur | RxNext => rx_loop conf n (u32 (cur + 1)) end) Q q') q →
  wp (rx_loop conf (S n) cur) Q q.
Proof. intros Hw. apply (proj1 (wp_bind_iff _ _ _ _)) in Hw. cbn [rx_loop]. wp_step. eapply wp_mono; [exact Hw|]. intros e q' Hr. by wp_step. Qed.

Lemma loop_wp n : ∀ q C Dd fs rest, poll_view conf q C Dd (fs ++ rest) → Forall (good_slot conf) fs → Forall (λ o, is_filled o = false) rest →
  Z.of_nat n + (C - Dd) ≤ num_rx_desc (rxr q) → let j := Nat.min n (length fs) in
  wp (rx_loop conf n (u32 C)) (λ cur q', cur = u32 (C + Z.of_nat j) ∧ rq_stack q' = rq_stack q ++ out conf (take j (frames fs)) ∧
    cur_rx (rxr q') = cur_rx (rxr q) ∧ ∃ w, poll_view conf q' (C + Z.of_nat j) Dd w) q.
Proof.
  assert (Hstop : ∀ q C Dd w, poll_view conf q C Dd w → u32 C = u32 (C + Z.of_nat 0) ∧ rq_stack q = rq_stack q ++ out conf [] ∧
    cur_rx (rxr q) = cur_rx (rxr q) ∧ ∃ w, poll_view conf q (C + Z.of_nat 0) Dd w).
  { intros q C Dd w Hv. rewrite Z.add_0_r, app_nil_r. eauto. }
  induction n as [|n IH]; intros q C Dd fs rest Hv Hfs Hrest Hn; cbv zeta; [simpl; wp_steps; by eapply Hstop|].
  apply loop_step. destruct fs as [|o fs].
  - destruct rest as [|o rest]; [pose proof (pv_len _ _ _ _ _ Hv); pose proof (pv_pos _ _ _ _ _ Hv); simpl in *; lia|].
    apply Forall_cons_1 in Hrest as [Ho _]. pose proof (head_not_bare conf _ _ _ _ _ Hv ltac:(lia)). destruct o as [|id a|]; [done| |done].
    eapply wp_intro; [eapply (round_armed conf Hso), Hv|]. wp_steps. by eapply Hstop.
  - apply Forall_cons_1 in Hfs as [Hf Hfs]. destruct o as [| |id a f]; [done..|].
    eapply wp_mono; [apply (round_pass conf Hso _ _ _ _ _ _ _ Hv); [lia|exact Hf]|]. intros v q' (-> & Hsame & Hst & o & Ho & Hv').
    pose proof (rs_num _ _ Hsame) as En. rewrite <- app_assoc in Hv'. replace (u32 (u32 C + 1)) with (u32 (C + 1)) by (unfold u32; by rewrite Zplus_mod_idemp_l).
    eapply wp_mono; [apply (IH _ _ Dd fs (rest ++ [o]) Hv' Hfs)|].
    + apply Forall_app. split; [done|]. constructor; [|done]. by destruct Ho as [->|(? & ? & ->)].
    + rewrite En. lia.
    + intros cur q2 (-> & Hst2 & Hc2 & w & Hv2). simpl. replace (C + Z.of_nat (S (Nat.min n (length fs)))) with (C + 1 + Z.of_nat (Nat.min n (length fs))) by lia.
      split; [done|]. split; [|split; [by rewrite Hc2, (rs_cur _ _ Hsame)|eauto]]. rewrite Hst2, Hst, <- app_assoc. done.
Qed.

(** C20: one whole poll that no frame comes into ([rtl8125_rx_interrupt] of an
    idle ring, after any run) passes on exactly the next frames: as many as
    have arrived and not been passed on, but no more than the budget and no
    more than the descriptors that were refilled; it returns how many, which is
    what NAPI compares with the budget. *)
Theorem rx_interrupt_spec s es s1 budget :
  rx_fresh s → Forall (rev_ok conf) es → rrun conf es s = Some s1 → r_pc s1 = RIdle → 0 ≤ budget < 2 ^ 32 →
  ∃ k n q', rq_stack (rsq s1) = out conf (take k (r_arrived s1)) ∧
    rtl8125_rx_interrupt conf budget (rsq s1) = Some (Z.of_nat n, q') ∧
    rq_stack q' = out conf (take (k + n) (r_arrived s1)) ∧
    Z.of_nat n = Z.min (Z.of_nat (length (r_arrived s1) - k))
                   (Z.min (u32 (num_rx_desc (rxr (rsq s1)) + dirty_rx (rxr (rsq s1)) - cur_rx (rxr (rsq s1)))) budget).
Proof.
  intros Hf Hok E Hidle Hb. apply fresh_ordered in Hf. destruct (ordered_run conf Hso es s Hf Hok) as (s' & E' & Hord).
  assert (s' = s1) as -> by congruence. destruct Hord as (C & Dd & fs & rest & before & [Hv Hpc Hfs Hrest _ Harr Hst]).
  unfold pc_ok in Hpc. rewrite Hidle in Hpc. destruct s1 as [q pc chip arr]. simpl in *. clear E E' Hidle.
  pose proof (begin_eq conf q C Dd _ budget Hv Hpc) as Hbeg. unfold rx_begin, bind, gets, ret, id in Hbeg. injection Hbeg as Hleft.
  assert (Eb : u32 budget = budget) by (by apply Z.mod_small). rewrite Eb in Hleft. rewrite Hleft.
  pose proof (pv_room _ _ _ _ _ Hv) as Hroom. pose proof (pv_pos _ _ _ _ _ Hv) as Hpos.
  set (left := Z.min (num_rx_desc (rxr q) - (C - Dd)) budget) in *. set (n := Nat.min (Z.to_nat left) (length fs)).
  pose proof (frames_good conf fs Hfs) as Hlen.
  assert (Hwp : wp (rtl8125_rx_interrupt conf budget) (λ c q', c = Z.of_nat n ∧ rq_stack q' = rq_stack q ++ out conf (take n (frames fs))) q).
  { unfold rtl8125_rx_interrupt. wp_step. wp_step. unfold id. pose proof (rv_wf _ _ _ _ _ (pv_view _ _ _ _ _ Hv)) as (_ & Hld & _).
    destruct (RxDescArray (rxr q)) as [|d0 ds] eqn:Ed; [simpl in Hld; lia|]. wp_step.
    eapply wp_intro; [apply (begin_eq conf q C Dd _ budget Hv Hpc)|]. cbv beta. rewrite Hpc, Eb. fold left.
    wp_step. eapply wp_mono; [apply (loop_wp (Z.to_nat left) q C Dd fs rest Hv Hfs Hrest); lia|]. fold n.
    intros cur q1 (-> & Hs1 & Hc1 & w & Hv1). eapply wp_mono; [apply (end_wp conf Hso _ _ _ _ Hv1)|].
    intros c q2 (-> & _ & _ & Hs2 & _). split; [|congruence]. rewrite Hc1, Hpc. unfold u32. rewrite Zminus_mod_idemp_r.
    replace (C + Z.of_nat n - C) with (Z.of_nat n) by lia. apply Z.mod_small. lia. }
  destruct (wp_elim _ _ _ Hwp) as (c & q' & Ei & -> & Hs'). exists (length before), n, q'. subst arr. rewrite take_app_length.
  split; [done|]. split; [done|]. split.
  - rewrite Hs', Hst. unfold out. rewrite take_app_add. by rewrite bind_app.
  - rewrite length_app, Hlen. lia.
Qed.
End properties.
