(* ===== verification/IossProbe.v ===== *)
(** * IOSS: probing and removing a device

    [ioss_bus_probe] and [ioss_bus_remove] of [ioss_bus.c]: linking to the
    network device, the power management hooks, the panic notifier, the glue
    driver's own open and close, the watcher and the attribute file. *)
From stdpp Require Import base tactics list gmap strings numbers.
From Stdlib Require Import ZArith Lia.
From S2P Require Import Prelude IossUtils RtlLib IossData IossMem IossNet IossWatch IossPm.

(** ** Data *)
(** A device on the bus: what is watched, the linked network device, the PM
    hooks of its driver, and what probing registers. *)
Record probest := Probest {
  p_d : ioss_device; p_net : option net_device; p_pm : pci_pm;
  p_panic : bool; p_sysfs : bool; p_wakeup : bool }.

Abbreviation V := (M probest).

(** What the kernel answers: the network devices by name space, the events
    the notifier calls replay, and the results of registering. *)
Record probe_world := ProbeWorld {
  pw_k : world; pw_real : Z; pw_nets : list (list net_device);
  pw_replayed : list (net_device * netdev_event); pw_gone : list (net_device * netdev_event);
  pw_panic : Z; pw_sysfs : Z }.

Definition on_dev {A} (m : X A) : V A := λ s,
  match m (p_d s) with
  | Some (a, d) => Some (a, Probest d (p_net s) (p_pm s) (p_panic s) (p_sysfs s) (p_wakeup s))
  | None => None
  end.
Definition on_pm {A} (m : Y A) : V A := λ s,
  match m (p_pm s) with
  | Some (a, y) => Some (a, Probest (p_d s) (p_net s) y (p_panic s) (p_sysfs s) (p_wakeup s))
  | None => None
  end.
Definition v_net (o : option net_device) (s : probest) : probest :=
  Probest (p_d s) o (p_pm s) (p_panic s) (p_sysfs s) (p_wakeup s).
Definition v_flags (panic sysfs wakeup : bool) (s : probest) : probest :=
  Probest (p_d s) (p_net s) (p_pm s) panic sysfs wakeup.
Definition w_net (nd : net_device) (d : ioss_device) : ioss_device :=
  Idev (d_iface d) nd (d_parent d) (d_refs d) (d_offline d) (d_unbinding d) (d_refresh d) (d_check d) (d_ws d)
    (d_nb d) (d_pm_nb d) (d_debugfs d) (netdev_ops d) (netdev_ops_real d) (netdev_stats d) (exception_stats d) (wolopts d).

Section probe.
Context `{IossApi} `{ioss_driver_ops} `{IpaOps}.
(** The glue driver's [open_device] and [close_device]. *)
Context (op_open op_close : option (W Z)).

Definition device_op (op : option (W Z)) : V Z :=
  match op with Some m => on_dev (on_if m) | None => ret (- ENOENT) end.

Definition device_init_wakeup (b : bool) : V unit := modify (λ s, v_flags (p_panic s) (p_sysfs s) b s).

Definition link_device (w : probe_world) : V Z :=
  let* s := gets id in
  match ioss_net_link_device (pw_real w) (p_net s) (pw_nets w) with
  | None => ub
  | Some (rc, o) =>
      modify (v_net o) ;;
      (match o with Some nd => on_dev (modify (w_net nd)) | None => ret tt end) ;;
      ret rc
  end.

Definition ioss_register_panic_notifier (w : probe_world) : V Z :=
  let rc := pw_panic w in
  if rc =? 0 then modify (λ s, v_flags true (p_sysfs s) (p_wakeup s) s) ;; ret 0 else ret rc.
Definition ioss_unregister_panic_notifier : V unit :=
  modify (λ s, v_flags false (p_sysfs s) (p_wakeup s) s).

(** The file is made on the linked network device. *)
Definition sysfs_create_file (w : probe_world) : V Z :=
  let* s := gets id in
  match p_net s with
  | None => ub
  | Some _ =>
      let rc := pw_sysfs w in
      if rc =? 0 then modify (λ s, v_flags (p_panic s) true (p_wakeup s) s) ;; ret 0 else ret rc
  end.
Definition sysfs_remove_file : V unit :=
  let* s := gets id in
  match p_net s with
  | None => ub
  | Some _ => modify (λ s, v_flags (p_panic s) false (p_wakeup s) s)
  end.

Definition ioss_bus_probe (w : probe_world) : V Z :=
  device_init_wakeup true ;;
  let* rc := link_device w in
  if negb (rc =? 0) then ret rc
  else
    on_pm ioss_pci_hijack_pm_ops ;;
    let err_notifier rc := on_pm ioss_pci_restore_pm_ops ;; ret rc in
    let err_open rc := ioss_unregister_panic_notifier ;; err_notifier rc in
    let err_watch rc := let* _ := device_op op_close in err_open rc in
    let err_sysfs rc := let* _ := on_dev (ioss_net_unwatch_device (pw_k w) (pw_gone w)) in err_watch rc in
    let* rc := ioss_register_panic_notifier w in
    if negb (rc =? 0) then err_notifier rc
    else
      let* rc := device_op op_open in
      if negb (rc =? 0) then err_open rc
      else
        let* rc := on_dev (ioss_net_watch_device (pw_k w) (pw_replayed w) (pw_gone w)) in
        if negb (rc =? 0) then err_watch rc
        else
          let* rc := sysfs_create_file w in
          if negb (rc =? 0) then err_sysfs rc else ret 0.

Definition ioss_bus_remove (w : probe_world) : V Z :=
  sysfs_remove_file ;;
  let* rc := on_dev (ioss_net_unwatch_device (pw_k w) (pw_gone w)) in
  if negb (rc =? 0) then ret rc
  else
    let* rc := device_op op_close in
    if negb (rc =? 0) then ret rc
    else
      ioss_unregister_panic_notifier ;;
      on_pm ioss_pci_restore_pm_ops ;;
      device_init_wakeup false ;;
      ret 0.

(** ** The other entries of the bus *)
(** The registers are saved; what that returns is only logged. *)
Definition ioss_panic_notifier (op_save_regs : option (W Z)) : V notify :=
  let* s := gets id in
  if negb (p_panic s) then ub else let* _ := device_op op_save_regs in ret NOTIFY_DONE.

Inductive device_type := ioss_idev_type | ioss_iface_type.

(** By the driver's own function, or by the name of the real device's driver. *)
Definition ioss_bus_match (ty : device_type) (name : string) (match_ : option (Z → bool))
    (driver_of : Z → option string) (real_dev : Z) : option bool :=
  match ty with
  | ioss_iface_type => Some false
  | ioss_idev_type =>
      match match_ with
      | Some f => Some (f real_dev)
      | None => String.eqb name <$> driver_of real_dev
      end
  end.

Definition on_idev (ty : device_type) (m : X unit) : X Z :=
  match ty with ioss_idev_type => m ;; ret 0 | ioss_iface_type => ret 0 end.
Definition ioss_bus_suspend (ty : device_type) : X Z := on_idev ty (ret tt).
Definition ioss_bus_resume (k : world) (ty : device_type) : X Z := on_idev ty (ioss_bus_resume_idev k).
Definition ioss_bus_online (k : world) (ty : device_type) : X Z := on_idev ty (ioss_bus_online_idev k).
Definition ioss_bus_offline (k : world) (ty : device_type) : X Z := on_idev ty (ioss_bus_offline_idev k).
End probe.
