(* ===== verification/IossProbeSpec.v ===== *)
(** * IOSS: probing and removing a device, correctness

    Probing sets everything up or nothing, removing undoes it. *)
From stdpp Require Import base tactics list gmap strings numbers.
From Stdlib Require Import ZArith Lia.
From S2P Require Import Prelude IossUtils RtlLib IossData IossLaws IossMem IossNet IossNetSpec IossRefresh IossWatch IossWatchSpec IossPm IossProbe.

(** ** The contract of opening and closing *)
(** Opening may set the driver's private pointer and touch its own hardware. *)
Definition open_frame (w w' : iface) : Prop :=
  channels w' = channels w ∧ if_state w' = if_state w ∧ ipa_client w' = ipa_client w.

(** The driver's operations on channels and events. *)
Definition channel_ops `{ioss_driver_ops} : list (option (nat → W Z)) :=
  [op_request_channel; op_release_channel; op_request_event; op_release_event;
   op_enable_event; op_disable_event; op_enable_channel; op_disable_channel].

(** A condition that neither those nor anything outside the driver changes. *)
Record stays `{ioss_driver_ops} (P : iface → Prop) : Prop := Stays {
  stays_same w w' : drv_same w w' → P w → P w';
  stays_op op i w rc w' : op ∈ channel_ops → ioss_dev_op op i w = Some (rc, w') → P w → P w' }.

(** A driver is open or closed. A closed one can be opened, which leaves it
    closed on an error; only an open one may be closed, which succeeds. *)
Class OpenLaws `{DriverLaws} (op_open op_close : option (W Z)) := {
  opened : iface → Prop;
  closed : iface → Prop;
  opened_stays : stays opened;
  closed_stays : stays closed;
  open_law m n w : op_open = Some m → drv_rep (all Idle n) w → closed w → wp m (λ rc w', open_frame w w' ∧
    drv_rep (all Idle n) w' ∧ if rc =? 0 then opened w' else closed w') w;
  close_law n w : drv_rep (all Idle n) w → opened w → ∃ m, op_close = Some m ∧
    wp m (λ rc w', rc = 0 ∧ open_frame w w' ∧ drv_rep (all Idle n) w' ∧ closed w') w }.

(** ** Whether the driver is open stays

    No other operation on an interface changes it: the contract holds with
    such a condition fixed. *)
Definition fixed_rep `{DriverLaws} (P : iface → Prop) (ps : list phase) (w : iface) : Prop := drv_rep ps w ∧ P w.

Lemma moves_fixed `{DriverLaws} P op from to sure : stays P → op ∈ channel_ops →
  moves drv_rep op from to sure → moves (fixed_rep P) op from to sure.
Proof.
  intros HP Hop Hm ps w i c [Hr Hp] Hi Hc Hok. destruct (wp_elim _ _ _ (Hm ps w i c Hr Hi Hc Hok)) as (rc & w' & E & Hf & Hs & Hr').
  eapply wp_intro; [exact E|]. split; [done|]. split; [done|]. split; [done|]. by eapply stays_op.
Qed.

Definition fixed_laws `{DriverLaws} (P : iface → Prop) (HP : stays P) : DriverLaws.
Proof.
  refine {| drv_rep := fixed_rep P |}.
  - intros ps w [Hr _]. by apply drv_length.
  - intros ps w w' Hs [Hr Hp]. split; [by eapply drv_stable|by eapply stays_same].
  - apply moves_fixed, request_channel_law; [done|]. apply list_elem_of_In; simpl; tauto.
  - apply moves_fixed, release_channel_law; [done|]. apply list_elem_of_In; simpl; tauto.
  - apply moves_fixed, request_event_law; [done|]. apply list_elem_of_In; simpl; tauto.
  - apply moves_fixed, release_event_law; [done|]. apply list_elem_of_In; simpl; tauto.
  - apply moves_fixed, enable_event_law; [done|]. apply list_elem_of_In; simpl; tauto.
  - apply moves_fixed, disable_event_law; [done|]. apply list_elem_of_In; simpl; tauto.
  - apply moves_fixed, enable_channel_law; [done|]. apply list_elem_of_In; simpl; tauto.
  - apply moves_fixed, disable_channel_law; [done|]. apply list_elem_of_In; simpl; tauto.
Defined.

Lemma fixed_net `{DriverLaws} `{IpaLaws} P (HP : stays P) ps ip st w :
  @net_rep _ (fixed_laws P HP) _ _ ps ip st w ↔ net_rep ps ip st w ∧ P w.
Proof. unfold net_rep. simpl. unfold fixed_rep. tauto. Qed.

(** ** Watching *)
Section watch.
Context `{IossApi} `{DriverLaws} `{IpaLaws}.

Definition kept (d d' : ioss_device) : Prop := d_nb d' = d_nb d ∧ d_net_dev d' = d_net_dev d.

Lemma check_active_kept n k d : dinv n d → wp (ioss_net_check_active k) (λ _ d', kept d d' ∧ d_parent d' = d_parent d) d.
Proof.
  intros [Hn Hh]. unfold ioss_net_check_active. apply wp_bind, wp_gets. simpl. unfold hooks_ok in *.
  destruct (d_parent d) eqn:Ep; simpl; [|by apply wp_ret].
  destruct Hh as (HA & HB & HC & HD). apply wp_bind. unfold dev_get_stats. apply wp_bind, wp_gets. simpl. rewrite HB.
  unfold netdev_get_stats64. apply wp_bind, wp_gets. simpl. rewrite Ep, HC. simpl. apply wp_ret. wp_steps.
  unfold set_awake. wp_steps. simpl. by rewrite Ep.
Qed.

Lemma register_kept n k d : dinv n d → d_parent d = false → k_device_register k = 0 →
  wp (ioss_net_event_register k) (λ _ d', dinv n d' ∧ kept d d' ∧ d_parent d' = true) d.
Proof.
  intros Hd Hp Hk. eapply wp_mono; [apply wp_and; [by apply (event_register_wp n)|]|].
  - instantiate (1 := λ _ d', kept d d' ∧ d_parent d' = true).
    destruct Hd as [Hn Hh]. unfold hooks_ok in Hh. rewrite Hp in Hh. destruct Hh as (HA & HB & HC & HD).
    unfold ioss_net_event_register, ioss_bus_register_iface. wp_steps. rewrite Hk. simpl.
    apply wp_bind. unfold hijack_netdev_ops. apply wp_bind, wp_gets. simpl. rewrite HB. apply wp_modify. wp_steps.
    unfold ioss_iface_queue_refresh. wp_steps. eapply wp_mono; [apply (check_active_kept n)|].
    + split; [done|]. unfold hooks_ok. simpl. by rewrite HA.
    + intros [] d' [[E1 E2] E3]. split; [by split|]. by rewrite E3.
  - intros [] d' (? & ? & ?). done.
Qed.

Lemma up_kept n k d : dinv n d → wp (ioss_net_event_up k) (λ _ d', dinv n d' ∧ kept d d' ∧ d_parent d' = d_parent d) d.
Proof.
  intros Hd. eapply wp_mono; [apply wp_and; [by apply (up_wp n)|]|].
  - instantiate (1 := λ _ d', kept d d' ∧ d_parent d' = d_parent d).
    unfold ioss_net_event_up. apply wp_bind, wp_gets. simpl. apply wp_bind. destruct (_ && _).
    + apply on_if_wp, callout_wp. unfold ioss_iface_queue_refresh. by wp_steps.
    + apply wp_ret. unfold ioss_iface_queue_refresh. by wp_steps.
  - done.
Qed.

(** What registering a notifier replays for the device. *)
Definition there_is (nd : net_device) (up : bool) : list (net_device * netdev_event) :=
  (nd, NETDEV_REGISTER) :: if up then [(nd, NETDEV_UP)] else [].

Lemma there_is_wp n k nd up d : dinv n d → d_parent d = false → ours nd d → k_device_register k = 0 →
  wp (deliver k (there_is nd up)) (λ _ d', dinv n d' ∧ kept d d' ∧ d_parent d' = true) d.
Proof.
  intros Hd Hp Ho Hk. unfold there_is. cbn [deliver]. apply wp_bind, own_event_wp; [done|done|]. simpl.
  eapply wp_mono; [by apply (register_kept n)|]. intros [] d1 (Hd1 & Hk1 & Hp1).
  destruct up; cbn [deliver]; [|by apply wp_ret]. apply wp_bind, own_event_wp; [|done|].
  { destruct Hk1 as [_ E]. unfold ours in *. by rewrite E. }
  simpl. eapply wp_mono; [by apply (up_kept n)|]. intros [] d2 (Hd2 & [E1 E2] & Hp2). apply wp_ret.
  destruct Hk1 as [E3 E4]. split_and!; [done|split; congruence|congruence].
Qed.

Definition resting (n : nat) (w : iface) : Prop := offline n w ∨ errored n w.

Lemma resting_nodes n k w : resting n w → wp (create_nodes k) (λ _ w', resting n w') w.
Proof.
  intros [Ho|(ip & Hne & He)].
  - eapply wp_mono; [by apply create_nodes_wp|]. intros ok w' Hw'. by left.
  - eapply wp_mono; [by apply create_nodes_wp|]. intros ok w' Hw'. right. by exists ip.
Qed.

Lemma resting_inv n w : resting n w → net_inv n w.
Proof. intros [?|?]; [by left|by right; right]. Qed.

Lemma quiesced_dinv n d : quiesced n d → dinv n d.
Proof.
  intros (Hr & Hp & Hrf & Ho & Hpm & _ & _ & Hc & _). split; [by apply resting_inv|].
  unfold hooks_ok. by rewrite Hp.
Qed.

(** Watched: the notifier is registered and the interface's device as well. *)
Definition watched (n : nat) (d : ioss_device) : Prop := dinv n d ∧ d_parent d = true ∧ d_nb d = true.

(** The error path of watching, with nothing registered or queued. *)
Lemma unwatched_wp k gone d : d_nb d = false → d_refresh d = false →
  wp (unregister_netdevice_notifier k gone) (λ _ d', d' = d) d ∧ wp (run_refresh k) (λ _ d', d' = d) d.
Proof.
  intros Hnb Hr. split.
  - unfold unregister_netdevice_notifier. apply wp_bind, wp_gets. simpl. by rewrite Hnb.
  - unfold run_refresh. apply wp_bind, wp_gets. simpl. by rewrite Hr.
Qed.

Lemma watch_wp n k nd up gone d : quiesced n d → ours nd d → k_device_register k = 0 →
  wp (ioss_net_watch_device k (there_is nd up) gone) (λ rc d', d_net_dev d' = d_net_dev d ∧
    if decide (rc = 0 ∧ k_wakeup_source k = true) then watched n d' else quiesced n d') d.
Proof.
  intros (Hr & Hp & Hrf & Ho & Hpm & Hnb & Hre & Hch & Hws & Hdb) Hours Hk.
  unfold ioss_net_watch_device, ioss_debugfs_add_idev. apply wp_bind, wp_bind, on_if_wp.
  eapply wp_mono; [by apply resting_nodes|]. intros ok w Hw. wp_steps.
  destruct ok; simpl; wp_steps.
  2:{ split; [done|]. rewrite decide_False by (by intros [? _]). by split_and!. }
  set (d1 := w_ws _ _). destruct (k_wakeup_source k) eqn:Ek; simpl.
  2:{ destruct (unwatched_wp k gone d1) as [U1 U2]; [done|done|].
      apply wp_bind. eapply wp_mono; [exact U1|]. intros _ ? ->. apply wp_bind.
      eapply wp_mono; [exact U2|]. intros [] ? ->. wp_steps. split; [done|].
      rewrite decide_False by (by intros [_ ?]). by split_and!. }
  unfold register_netdevice_notifier. destruct (Z.eqb_spec (k_register_notifier k) 0) as [E|E].
  - wp_steps. eapply wp_mono; [apply (there_is_wp n k nd up); [split; [by apply resting_inv|]|done|done|done]|].
    { unfold hooks_ok. simpl. by rewrite Hp. }
    intros [] d2 (Hd2 & [E1 E2] & Hp2). apply wp_ret. simpl. apply wp_ret. split; [by rewrite E2|].
    rewrite decide_True by done. by split_and!.
  - apply wp_bind, wp_ret. rewrite (proj2 (Z.eqb_neq _ _) E). simpl.
    destruct (unwatched_wp k gone d1) as [U1 U2]; [done|done|].
    apply wp_bind. eapply wp_mono; [exact U1|]. intros _ ? ->. apply wp_bind.
    eapply wp_mono; [exact U2|]. intros [] ? ->. wp_steps. split; [done|].
    rewrite decide_False by (by intros [? _]). by split_and!.
Qed.

(** Unwatching a device that is not watched. *)
Lemma unwatch_idle_wp n k gone d : quiesced n d →
  wp (ioss_net_unwatch_device k gone) (λ _ d', quiesced n d' ∧ d_net_dev d' = d_net_dev d) d.
Proof.
  intros Hq. pose proof (quiesced_dinv _ _ Hq) as Hd.
  destruct Hq as (Hr & Hp & Hrf & Ho & Hpm & Hnb & Hre & Hch & Hws & Hdb).
  unfold ioss_net_unwatch_device. apply wp_bind, wp_modify. apply wp_bind.
  eapply wp_mono; [apply (queue_wp n k true), Hd|]. intros [] d1 (w & -> & _ & Hw & _). rewrite (Hw Hp).
  set (d1 := w_iface _ _). destruct (unwatched_wp k gone d1) as [U1 U2]; [done|done|].
  apply wp_bind. eapply wp_mono; [exact U1|]. intros rc ? ->. apply wp_bind.
  eapply wp_mono; [exact U2|]. intros [] ? ->. wp_steps. by split_and!.
Qed.

Lemma unwatch_kept n k nd d : watched n d → ours nd d → k_unregister_notifier k = 0 →
  wp (ioss_net_unwatch_device k (going_away nd)) (λ rc d', rc = 0 ∧ quiesced n d') d.
Proof. intros (Hd & Hp & Hnb) Ho Hk. by apply unwatch_wp. Qed.
End watch.

(** ** What no operation on a watched device changes *)
Definition registration (d : ioss_device) : bool * net_device := (d_nb d, d_net_dev d).

Lemma inert_on_if {A} (m : W A) : inert registration (on_if m).
Proof. intros d a d' E. unfold on_if in E. destruct (m (d_iface d)) as [[? w]|]; [|done]. by injection E as <- <-. Qed.
#[export] Hint Resolve inert_on_if : inert.

Section steps.
Context `{IossApi} `{ioss_driver_ops} `{IpaOps}.

Lemma inert_queue k flush : inert registration (ioss_iface_queue_refresh k flush).
Proof. unfold ioss_iface_queue_refresh, run_refresh. inert. Qed.
Lemma inert_check k : inert registration (ioss_net_check_active k).
Proof. unfold ioss_net_check_active, dev_get_stats, netdev_get_stats64, set_awake. inert. Qed.
#[local] Hint Resolve inert_queue inert_check : inert.

Lemma inert_event k nd e : inert registration (ioss_net_device_event k nd e).
Proof.
  unfold ioss_net_device_event, ioss_net_event_handlers, ioss_net_event_register, ioss_net_event_unregister,
    ioss_net_event_generic, ioss_net_event_up, ioss_bus_register_iface, ioss_bus_unregister_iface,
    hijack_netdev_ops, restore_netdev_ops, set_awake.
  apply inert_bind; [inert|intros d]. destruct (negb _); [inert|]. destruct (negb _); [inert|].
  destruct e; inert.
Qed.
#[local] Hint Resolve inert_event : inert.

Lemma inert_run k op : inert registration (run k op).
Proof.
  destruct op; simpl; unfold run_refresh, ioss_net_active_work, pm_notifier_cb, store_suspend_ipa_offload,
    ioss_bus_online_idev, ioss_bus_offline_idev, ioss_bus_resume_idev; inert.
Qed.

Lemma steps_kept d d' : rtc step d d' → kept d d'.
Proof.
  induction 1 as [|d1 d2 d3 (k & op & _ & E) _ [E1 E2]]; [done|]. injection (inert_run _ _ _ _ _ E) as E3 E4.
  split; congruence.
Qed.
End steps.

(** ** The contract with a condition fixed, for what watching keeps *)
Lemma fixed_offline `{DriverLaws} `{IpaLaws} P (HP : stays P) n w :
  @offline _ (fixed_laws P HP) _ _ n w ↔ offline n w ∧ P w.
Proof. apply fixed_net. Qed.
Lemma fixed_errored `{DriverLaws} `{IpaLaws} P (HP : stays P) n w :
  @errored _ (fixed_laws P HP) _ _ n w ↔ errored n w ∧ P w.
Proof.
  unfold errored. split.
  - intros (ip & Hip & [Hr Hp]%fixed_net). split; [by exists ip|done].
  - intros [(ip & Hip & Hr) Hp]. exists ip. split; [done|]. by apply fixed_net.
Qed.
Lemma fixed_inv `{DriverLaws} `{IpaLaws} P (HP : stays P) n w :
  @net_inv _ (fixed_laws P HP) _ _ n w ↔ net_inv n w ∧ P w.
Proof.
  unfold net_inv. rewrite fixed_offline, fixed_errored. unfold online. rewrite fixed_net. tauto.
Qed.
Lemma fixed_dinv `{DriverLaws} `{IpaLaws} P (HP : stays P) n d :
  @dinv _ (fixed_laws P HP) _ _ n d ↔ dinv n d ∧ P (d_iface d).
Proof. unfold dinv. rewrite fixed_inv. tauto. Qed.
Lemma fixed_watched `{DriverLaws} `{IpaLaws} P (HP : stays P) n d :
  @watched _ (fixed_laws P HP) _ _ n d ↔ watched n d ∧ P (d_iface d).
Proof. unfold watched. rewrite fixed_dinv. tauto. Qed.
Lemma fixed_quiesced `{DriverLaws} `{IpaLaws} P (HP : stays P) n d :
  @quiesced _ (fixed_laws P HP) _ _ n d ↔ quiesced n d ∧ P (d_iface d).
Proof. unfold quiesced. rewrite fixed_offline, fixed_errored. tauto. Qed.

(** ** Probing and removing *)
Section probe.
Context `{IossApi} `{DriverLaws} `{IpaLaws} `{OL : !OpenLaws op_open op_close}.

Definition v_dev (d : ioss_device) (s : probest) : probest :=
  Probest d (p_net s) (p_pm s) (p_panic s) (p_sysfs s) (p_wakeup s).
Definition v_pm (y : pci_pm) (s : probest) : probest :=
  Probest (p_d s) (p_net s) y (p_panic s) (p_sysfs s) (p_wakeup s).

Lemma on_dev_wp {A} (m : X A) (Q : A → probest → Prop) s : wp m (λ a d, Q a (v_dev d s)) (p_d s) → wp (on_dev m) Q s.
Proof. unfold wp, on_dev. by destruct (m (p_d s)) as [[a d]|]. Qed.
Lemma on_pm_wp {A} (m : Y A) (Q : A → probest → Prop) s : wp m (λ a y, Q a (v_pm y s)) (p_pm s) → wp (on_pm m) Q s.
Proof. unfold wp, on_pm. by destruct (m (p_pm s)) as [[a d]|]. Qed.

(** The driver's own operations on an interface at rest. *)
Lemma net_open ps ip st w w' : net_rep ps ip st w → open_frame w w' → drv_rep ps w' → net_rep ps ip st w'.
Proof.
  intros (_ & Hi & Hs & Hf & Hc) (E1 & E2 & E3) Hd. unfold net_rep. rewrite E1, E2. split_and!; try done.
  eapply ipa_stable; [|exact Hi]. by split; rewrite ?E1.
Qed.

Lemma resting_rep n w : resting n w → drv_rep (all Idle n) w ∧
  ∀ w', open_frame w w' → drv_rep (all Idle n) w' → resting n w'.
Proof.
  intros [Ho|(ip & Hne & He)].
  - split; [apply Ho|]. intros w' Hw Hd. left. by eapply net_open.
  - split; [apply He|]. intros w' Hw Hd. right. exists ip. split; [done|]. by eapply net_open.
Qed.

Lemma quiesced_iface n w d : quiesced n d → resting n w → quiesced n (w_iface w d).
Proof. intros (_ & Hq) Hw. by split. Qed.

Lemma open_wp n d : quiesced n d → closed (d_iface d) →
  wp (match op_open with Some m => on_if m | None => ret (- ENOENT) end)
  (λ rc d', quiesced n d' ∧ d_net_dev d' = d_net_dev d ∧ if rc =? 0 then opened (d_iface d') else closed (d_iface d')) d.
Proof.
  intros Hq Hcl. destruct (resting_rep _ _ (proj1 Hq)) as [Hd Hr]. destruct op_open as [m|] eqn:E; [|by apply wp_ret].
  apply on_if_wp. eapply wp_mono; [by apply (open_law m n)|]. intros rc w (Hf & Hd' & Hop).
  split_and!; [|done|done]. apply quiesced_iface; [done|]. by apply Hr.
Qed.
Lemma close_wp n s : quiesced n (p_d s) → opened (d_iface (p_d s)) →
  wp (device_op op_close) (λ rc s', rc = 0 ∧ ∃ d', s' = v_dev d' s ∧ quiesced n d' ∧ closed (d_iface d')) s.
Proof.
  intros Hq Hop. destruct (resting_rep _ _ (proj1 Hq)) as [Hd Hr]. destruct (close_law n _ Hd Hop) as (m & -> & Hm).
  apply on_dev_wp, on_if_wp. eapply wp_mono; [exact Hm|]. intros rc w (-> & Hf & Hd' & Hc). split; [done|].
  eexists. split; [done|]. split; [|done]. apply quiesced_iface; [done|]. by apply Hr.
Qed.

(** Nothing is set up, the driver is closed; everything is, it is open. *)
Definition unprobed (n m : nat) (s : probest) : Prop :=
  quiesced n (p_d s) ∧ pm_ok m (p_pm s) ∧ p_panic s = false ∧ p_sysfs s = false ∧ closed (d_iface (p_d s)).
Definition probed (n m : nat) (nd : net_device) (s : probest) : Prop :=
  d_net_dev (p_d s) = nd ∧ p_net s = Some nd ∧ pm_ok (S m) (p_pm s) ∧ p_panic s = true ∧ p_sysfs s = true ∧
  p_wakeup s = true ∧ opened (d_iface (p_d s)).

(** A failed probing takes everything down again but the wakeup capability. *)
Definition probe_failed (n m : nat) (s : probest) : Prop := unprobed n m s ∧ p_wakeup s = true.

(** Half way: the hooks are in place and the device is at rest. *)
Definition hooked (n m : nat) (s : probest) : Prop :=
  quiesced n (p_d s) ∧ pm_ok (S m) (p_pm s) ∧ p_sysfs s = false ∧ p_wakeup s = true.

Lemma err_notifier_wp n m (rc : Z) s : hooked n m s → p_panic s = false → closed (d_iface (p_d s)) →
  wp (on_pm ioss_pci_restore_pm_ops ;; ret rc) (λ rc' s', rc' = rc ∧ probe_failed n m s') s.
Proof.
  intros (Hq & Hpm & Hs & Hw) Hp Hc. apply wp_bind, on_pm_wp. eapply restore_wp; [done|]. intros y Hy _ _. by apply wp_ret.
Qed.
Lemma err_open_wp n m (rc : Z) s : hooked n m s → closed (d_iface (p_d s)) →
  wp (ioss_unregister_panic_notifier ;; on_pm ioss_pci_restore_pm_ops ;; ret rc)
     (λ rc' s', rc' = rc ∧ probe_failed n m s') s.
Proof. intros Hh Hc. apply wp_bind, wp_modify. by apply err_notifier_wp. Qed.
Lemma err_watch_wp n m (rc : Z) s : hooked n m s → opened (d_iface (p_d s)) →
  wp (let* _ := device_op op_close in
      ioss_unregister_panic_notifier ;; on_pm ioss_pci_restore_pm_ops ;; ret rc)
     (λ rc' s', rc' = rc ∧ probe_failed n m s') s.
Proof.
  intros (Hq & Hpm & Hs & Hw) Hop. apply wp_bind. eapply wp_mono; [by apply (close_wp n)|].
  intros _ s' (_ & d & -> & Hd & Hc). by apply err_open_wp.
Qed.

(** What the name spaces hold: the walk is defined, and the notifier calls
    replay the events of the device that is found. *)
Definition links (w : probe_world) (o : option net_device) (up : bool) (s : probest) : Prop :=
  match o with
  | Some nd => ioss_net_link_device (pw_real w) (p_net s) (pw_nets w) = Some (0, Some nd) ∧
      pw_replayed w = there_is nd up ∧ pw_gone w = going_away nd ∧
      k_device_register (pw_k w) = 0 ∧ k_unregister_notifier (pw_k w) = 0
  | None => ioss_net_link_device (pw_real w) (p_net s) (pw_nets w) = Some (- ENOENT, None)
  end.

Lemma watch_fixed P (HP : stays P) n k nd up gone d : quiesced n d → d_net_dev d = nd → k_device_register k = 0 →
  P (d_iface d) → wp (ioss_net_watch_device k (there_is nd up) gone) (λ rc d', d_net_dev d' = nd ∧ P (d_iface d') ∧
    if decide (rc = 0 ∧ k_wakeup_source k = true) then watched n d' else quiesced n d') d.
Proof.
  intros Hq <- Hk Hp. eapply wp_mono; [eapply (@watch_wp _ _ (fixed_laws P HP) _ _ n k _ up gone d)|].
  - by apply fixed_quiesced.
  - done.
  - done.
  - intros rc d' [E Hd']. split; [done|]. destruct (decide _).
    + by apply fixed_watched in Hd' as [? ?].
    + by apply fixed_quiesced in Hd' as [? ?].
Qed.
Lemma unwatch_fixed P (HP : stays P) n k nd d : watched n d ∨ quiesced n d → d_net_dev d = nd →
  k_unregister_notifier k = 0 → P (d_iface d) →
  wp (ioss_net_unwatch_device k (going_away nd)) (λ rc d', quiesced n d' ∧ P (d_iface d')) d.
Proof.
  intros [Hw|Hq] <- Hk Hp.
  - eapply wp_mono; [eapply (@unwatch_kept _ _ (fixed_laws P HP) _ _ n k); [by apply fixed_watched|done|done]|].
    intros rc d' [_ Hd']. by apply fixed_quiesced in Hd'.
  - eapply wp_mono; [eapply (@unwatch_idle_wp _ _ (fixed_laws P HP) _ _ n k); by apply fixed_quiesced|].
    intros rc d' [Hd' _]. by apply fixed_quiesced in Hd'.
Qed.

Lemma err_sysfs_wp n m nd w (rc : Z) s : watched n (p_d s) ∨ quiesced n (p_d s) → d_net_dev (p_d s) = nd →
  pm_ok (S m) (p_pm s) → p_sysfs s = false → p_wakeup s = true → opened (d_iface (p_d s)) →
  pw_gone w = going_away nd → k_unregister_notifier (pw_k w) = 0 →
  wp (let* _ := on_dev (ioss_net_unwatch_device (pw_k w) (pw_gone w)) in
      let* _ := device_op op_close in
      ioss_unregister_panic_notifier ;; on_pm ioss_pci_restore_pm_ops ;; ret rc)
     (λ rc' s', rc' = rc ∧ probe_failed n m s') s.
Proof.
  intros Hd En Hpm Hs Hwk Hop -> Hk. apply wp_bind, on_dev_wp. eapply wp_mono; [by apply (unwatch_fixed opened opened_stays n _ nd)|].
  intros rc' d [Hq Hop']. by apply err_watch_wp.
Qed.

Definition probe_done (n m : nat) (w : probe_world) (o : option net_device) (rc : Z) (s : probest) : Prop :=
  if decide (rc = 0)
  then (∃ nd, o = Some nd ∧ probed n m nd s) ∧
       if k_wakeup_source (pw_k w) then watched n (p_d s) else quiesced n (p_d s)
  else probe_failed n m s.

Lemma done_error n m w o rc rc' s' : rc ≠ 0 → rc' = rc ∧ probe_failed n m s' → probe_done n m w o rc' s'.
Proof. intros Hrc [-> Hu]. unfold probe_done. by rewrite decide_False. Qed.

(** The steps after the driver has opened the device. *)
Lemma probe_tail_wp n m w nd up s : hooked n m s → p_panic s = true → d_net_dev (p_d s) = nd → p_net s = Some nd →
  opened (d_iface (p_d s)) → pw_replayed w = there_is nd up → pw_gone w = going_away nd →
  k_device_register (pw_k w) = 0 → k_unregister_notifier (pw_k w) = 0 →
  wp (let err_open rc := ioss_unregister_panic_notifier ;; on_pm ioss_pci_restore_pm_ops ;; ret rc in
      let err_watch rc := let* _ := device_op op_close in err_open rc in
      let err_sysfs rc := let* _ := on_dev (ioss_net_unwatch_device (pw_k w) (pw_gone w)) in err_watch rc in
      let* rc := on_dev (ioss_net_watch_device (pw_k w) (pw_replayed w) (pw_gone w)) in
      if negb (rc =? 0) then err_watch rc
      else
        let* rc := sysfs_create_file w in
        if negb (rc =? 0) then err_sysfs rc else ret 0)
     (probe_done n m w (Some nd)) s.
Proof.
  intros (Hq & Hpm & Hs & Hwk) Hp En Ep Hop Hre Hgo Hk Hu. cbv zeta. rewrite Hre.
  apply wp_bind, on_dev_wp. eapply wp_mono; [by apply (watch_fixed opened opened_stays n _ nd up)|].
  intros rc d (En' & Hop1 & Hd). set (s1 := v_dev d s).
  destruct (Z.eqb_spec rc 0) as [->|Hrc]; simpl.
  2:{ rewrite decide_False in Hd by (by intros [? _]).
      eapply wp_mono; [by apply (err_watch_wp n m rc s1)|]. intros ??. by apply done_error. }
  assert (watched n d ∨ quiesced n d) as Hwq by (destruct (decide _); auto).
  apply wp_bind. unfold sysfs_create_file. apply wp_bind, wp_gets. simpl. rewrite Ep.
  destruct (Z.eqb_spec (pw_sysfs w) 0) as [_|Hrc].
  - apply wp_bind, wp_modify, wp_ret. simpl. apply wp_ret. unfold probe_done. rewrite decide_True by done.
    split; [exists nd; by split_and!|]. simpl. destruct (k_wakeup_source (pw_k w)).
    + by rewrite decide_True in Hd.
    + by rewrite decide_False in Hd by (by intros [_ ?]).
  - apply wp_ret. rewrite (proj2 (Z.eqb_neq _ _) Hrc). simpl.
    eapply wp_mono; [by apply (err_sysfs_wp n m nd w _ s1)|]. intros ??. by apply done_error.
Qed.

Lemma probe_wp n m w o up s : unprobed n m s → links w o up s →
  wp (ioss_bus_probe op_open op_close w) (probe_done n m w o) s.
Proof.
  intros (Hq & Hpm & Hp & Hs & Hcl) Hl. unfold ioss_bus_probe, device_init_wakeup. apply wp_bind, wp_modify.
  apply wp_bind. unfold link_device. apply wp_bind, wp_gets. simpl. destruct o as [nd|].
  2:{ simpl in Hl. rewrite Hl. simpl. apply wp_bind, wp_modify, wp_bind, wp_ret, wp_ret. simpl. apply wp_ret.
      apply (done_error n m w None (- ENOENT)); [done|]. by split_and!. }
  destruct Hl as (-> & Hre & Hgo & Hk & Hu). apply wp_bind, wp_modify, wp_bind, on_dev_wp, wp_modify, wp_ret. simpl.
  apply wp_bind, on_pm_wp. eapply hijack_wp; [done|]. intros y Hy _ _. set (s1 := v_pm y _).
  assert (hooked n m s1) as Hh by (by split_and!).
  apply wp_bind. unfold ioss_register_panic_notifier.
  destruct (Z.eqb_spec (pw_panic w) 0) as [_|Hrc].
  2:{ apply wp_ret. rewrite (proj2 (Z.eqb_neq _ _) Hrc). simpl.
      eapply wp_mono; [by apply (err_notifier_wp n m)|]. intros ??. by apply done_error. }
  apply wp_bind, wp_modify, wp_ret. simpl. set (s2 := v_flags _ _ _ s1).
  apply wp_bind. pose proof (open_wp n (p_d s2) (proj1 Hh) Hcl) as Ho. unfold device_op.
  assert (wp (match op_open with Some m => on_dev (on_if m) | None => ret (- ENOENT) end) (λ rc s', 
    hooked n m s' ∧ p_panic s' = true ∧ d_net_dev (p_d s') = nd ∧ p_net s' = Some nd ∧
    if rc =? 0 then opened (d_iface (p_d s')) else closed (d_iface (p_d s'))) s2) as Ho'.
  { destruct op_open; [apply on_dev_wp; eapply wp_mono; [exact Ho|]; intros rc d (H1' & H2' & H3')|apply wp_ret];
      by split_and!. }
  eapply wp_mono; [exact Ho'|]. intros rc s3 (Hh3 & Hp3 & En3 & Ep3 & Hop).
  destruct (Z.eqb_spec rc 0) as [->|Hrc]; simpl.
  - eapply wp_mono; [apply (probe_tail_wp n m w nd up s3); auto|]. done.
  - eapply wp_mono; [by apply (err_open_wp n m)|]. intros ??. by apply done_error.
Qed.

(** ** Removing *)
(** Without the notifier, unwatching undoes what there is but reports that
    there is none; with it, it succeeds. *)
Lemma unwatch_rc P (HP : stays P) n k nd d : (watched n d ∨ quiesced n d) → d_net_dev d = nd →
  k_unregister_notifier k = 0 → P (d_iface d) →
  wp (ioss_net_unwatch_device k (going_away nd)) (λ rc d', quiesced n d' ∧
    P (d_iface d') ∧ rc = if d_nb d then 0 else - ENOENT) d.
Proof.
  intros Hwq En Hk HPd. eapply wp_mono; [apply wp_and; [by apply (unwatch_fixed P HP n k nd)|]|].
  - instantiate (1 := λ rc _, rc = if d_nb d then 0 else - ENOENT). destruct Hwq as [Hw|Hq].
    + subst nd. eapply wp_mono; [by apply (unwatch_kept n k)|]. intros rc d' [-> _]. by rewrite (proj2 (proj2 Hw)).
    + pose proof (quiesced_dinv _ _ Hq) as Hd. destruct Hq as (Hr & Hp & Hrf & Ho & Hpm & Hnb & Hre & Hch & Hws & Hdb).
      rewrite Hnb. unfold ioss_net_unwatch_device. apply wp_bind, wp_modify. apply wp_bind.
      eapply wp_mono; [apply (queue_wp n k true), Hd|]. intros [] d1 (w & -> & _ & Hw & _). rewrite (Hw Hp).
      unfold unregister_netdevice_notifier, run_refresh. apply wp_bind, wp_bind, wp_gets. simpl. rewrite Hnb. simpl.
      apply wp_ret, wp_bind, wp_bind, wp_gets. by wp_steps.
  - intros rc d' [[? ?] ?]. done.
Qed.

Lemma remove_wp n m nd w s : probed n m nd s → watched n (p_d s) ∨ quiesced n (p_d s) →
  pw_gone w = going_away nd → k_unregister_notifier (pw_k w) = 0 →
  wp (ioss_bus_remove op_close w) (λ rc s', rc = (if d_nb (p_d s) then 0 else - ENOENT) ∧
    if d_nb (p_d s) then unprobed n m s' ∧ p_wakeup s' = false
    else hooked n m s' ∧ p_panic s' = true ∧ opened (d_iface (p_d s'))) s.
Proof.
  intros (En & Ep & Hpm & Hpa & Hsy & Hwk & Hop) Hwq Hgo Hk. unfold ioss_bus_remove, sysfs_remove_file.
  apply wp_bind, wp_bind, wp_gets. simpl. rewrite Ep. apply wp_modify.
  apply wp_bind, on_dev_wp. rewrite Hgo. eapply wp_mono; [by apply (unwatch_rc opened opened_stays n _ nd)|].
  intros rc d (Hq & Hop1 & ->). simpl. set (s1 := v_dev d _).
  destruct (d_nb (p_d s)); simpl; [|by apply wp_ret].
  apply wp_bind. eapply wp_mono; [by apply (close_wp n s1)|]. intros _ s2 (-> & d2 & -> & Hd2 & Hc2).
  simpl. apply wp_bind, wp_modify, wp_bind, on_pm_wp. eapply restore_wp; [exact Hpm|]. intros y Hy _ _.
  apply wp_bind, wp_modify, wp_ret. done.
Qed.
End probe.


(** C26: A probed device that is watched, after any interleaving of events,
    works and requests that leaves its network device registered, is removed
    completely: removal returns 0 with the driver closed, the hooks, the panic
    notifier, the attribute file and the wakeup capability taken down, and the
    interface off line or in error with every channel given back. *)
Theorem probe_remove_roundtrip `{IossApi} `{DriverLaws} `{IpaLaws} op_open op_close `{!OpenLaws op_open op_close}
    n m w w' nd up s s1 d : unprobed n m s → links w (Some nd) up s → k_wakeup_source (pw_k w) = true →
  ioss_bus_probe op_open op_close w s = Some (0, s1) → rtc step (p_d s1) d → d_parent d = true →
  pw_gone w' = going_away nd → k_unregister_notifier (pw_k w') = 0 →
  wp (ioss_bus_remove op_close w') (λ rc s', rc = 0 ∧ unprobed n m s' ∧ p_wakeup s' = false) (v_dev d s1).
Proof.
  intros Hu Hl Hws Hp Hst Hpar Hgo Hk. pose proof (wp_run _ _ _ _ _ (probe_wp n m w (Some nd) up s Hu Hl) Hp) as Hdone.
  unfold probe_done in Hdone. rewrite decide_True, Hws in Hdone by done.
  destruct Hdone as [(nd' & [= <-] & (En & Ep & Hpm & Hpa & Hsy & Hwk & Hop)) (Hd & Hpd & Hnb)].
  destruct (steps_kept _ _ Hst) as [Knb Knet].
  assert (dinv n d ∧ opened (d_iface d)) as [Hd' Hop'].
  { apply (fixed_dinv opened opened_stays). eapply steps_dinv; [exact Hst|]. by apply fixed_dinv. }
  assert (watched n d) as Hw by (unfold watched; by rewrite Hpar, Knb).
  eapply wp_mono; [eapply (remove_wp n m nd w' (v_dev d s1)); [|by left|done|done]|].
  - split_and!; simpl; try done. by rewrite Knet.
  - simpl. rewrite Knb, Hnb. intros rc s' [-> ?]. done.
Qed.

(** Probing without a wakeup source reports success with the device not
    watched; removing it then fails halfway and leaves the panic notifier, the
    power management hooks and the opened driver behind. *)
Theorem unwatched_probe_leaks `{IossApi} `{DriverLaws} `{IpaLaws} op_open op_close `{!OpenLaws op_open op_close}
    n m w w' nd up s s1 : unprobed n m s → links w (Some nd) up s → k_wakeup_source (pw_k w) = false →
  ioss_bus_probe op_open op_close w s = Some (0, s1) →
  pw_gone w' = going_away nd → k_unregister_notifier (pw_k w') = 0 →
  d_nb (p_d s1) = false ∧
  wp (ioss_bus_remove op_close w') (λ rc s', rc = - ENOENT ∧ p_panic s' = true ∧ pm_ok (S m) (p_pm s') ∧
    opened (d_iface (p_d s'))) s1.
Proof.
  intros Hu Hl Hws Hp Hgo Hk. pose proof (wp_run _ _ _ _ _ (probe_wp n m w (Some nd) up s Hu Hl) Hp) as Hdone.
  unfold probe_done in Hdone. rewrite decide_True, Hws in Hdone by done. destruct Hdone as [(nd' & [= <-] & Hpr) Hq].
  assert (d_nb (p_d s1) = false) as Hnb by apply Hq. split; [done|].
  eapply wp_mono; [by eapply (remove_wp n m nd w' s1 Hpr); [by right|..]|]. rewrite Hnb.
  intros rc s' (-> & Hh & Hpa & Hop). split_and!; [done|done|apply Hh|done].
Qed.
