(* ===== verification/R8125Open.v ===== *)
(** * The r8125 glue driver: opening and closing

    The driver keeps the contract of probing: opening registers its reset
    notifier and sets the private pointer, closing takes the notifier out, and
    no other operation changes either. *)
From stdpp Require Import base tactics list gmap numbers.
From Stdlib Require Import ZArith Lia.
From S2P Require Import Prelude IossUtils RtlLib RtlLibSpec RtlLibInv RtlLibOps RtlLibRss IossData IossLaws R8125Ioss R8125Spec IossProbeSpec.

Lemma filter_other (x : Z) (l : list Z) : x ∉ l → filter (λ y, y ≠ x) l = l.
Proof.
  induction l as [|y l IH]; intros Hin; [done|]. apply not_elem_of_cons in Hin as [Hx Hl].
  rewrite filter_cons_True by congruence. f_equal. auto.
Qed.

Section opening.
Context `{NicApi} `{IossApi}.

(** A change of the private pointer, the notifiers and the results to come. *)
Lemma rep_open ps p l rs w : r8125_rep ps w →
  r8125_rep ps (if_private p (if_nic (nic_nh l (ring_nic w)) (if_results rs w))).
Proof. done. Qed.

Lemma open_device_wp ps w : diag_skip_open_device = false → r8125_rep ps w →
  wp r8125_ioss_open_device (λ rc w', open_frame w w' ∧ r8125_rep ps w' ∧
    if rc =? 0
    then idev_private w' = Some rdev_addr ∧ rdev_addr ∉ lib_nh (ring_nic w) ∧
         lib_nh (ring_nic w') = lib_nh (ring_nic w) ++ [rdev_addr]
    else idev_private w' = idev_private w ∧ ring_nic w' = ring_nic w) w.
Proof.
  intros Hsk Hr. unfold r8125_ioss_open_device. rewrite Hsk. apply wp_bind, result_wp. intros z l.
  destruct (z =? 0); simpl; [|by apply wp_ret].
  apply wp_bind, on_nic_wp. unfold rtl8125_register_notifier. apply wp_bind, wp_gets. simpl.
  destruct (decide (rdev_addr ∈ lib_nh (ring_nic w))) as [Hin|Hin].
  - apply wp_ret. simpl. apply wp_ret. split; [done|]. split; [exact Hr|]. done.
  - apply wp_bind, wp_modify, wp_ret. simpl. apply wp_bind, wp_modify, wp_ret.
    split; [done|]. split; [exact Hr|]. done.
Qed.

Lemma close_device_wp ps w nb : idev_private w = Some nb → r8125_rep ps w →
  wp r8125_ioss_close_device (λ rc w', rc = 0 ∧ open_frame w w' ∧ r8125_rep ps w' ∧
    lib_nh (ring_nic w') = filter (λ x, x ≠ nb) (lib_nh (ring_nic w))) w.
Proof.
  intros Hp Hr. unfold r8125_ioss_close_device. apply wp_bind, wp_gets. simpl. rewrite Hp.
  apply wp_bind, on_nic_wp. unfold rtl8125_unregister_notifier. apply wp_bind, wp_gets. simpl.
  destruct (decide (nb ∈ lib_nh (ring_nic w))) as [Hin|Hin].
  - apply wp_bind, wp_modify, wp_ret, wp_ret. split; [done|]. split; [done|]. split; [exact Hr|]. done.
  - apply wp_ret, wp_ret. split; [done|]. split; [done|]. split; [exact Hr|]. symmetry. by apply filter_other.
Qed.

(** ** What the operations on channels leave alone

    The library's notifier chain and the private pointer. *)
Definition chain (w : iface) : list Z * option Z := (lib_nh (ring_nic w), idev_private w).

Lemma inert_nic {A} (m : L A) : inert lib_nh m → inert chain (on_nic m).
Proof.
  intros Hm w a w' E. unfold on_nic in E. destruct (m (ring_nic w)) as [[a1 s]|] eqn:E1; [|done].
  injection E as <- <-. unfold chain. simpl. by rewrite (Hm _ _ _ E1).
Qed.
Lemma inert_result : inert chain result.
Proof. by intros w a w' [= <- <-]. Qed.

Lemma inert_ask : inert lib_nh ask.
Proof. by intros s a s' [= <- <-]. Qed.
Lemma inert_set_ring p r : inert lib_nh (set_ring p r).
Proof. apply inert_modify. intros s. by destruct p as [[] ?]. Qed.
Lemma inert_dma_free size a d : inert lib_nh (dma_free_coherent size a d).
Proof.
  unfold dma_free_coherent. destruct (a =? 0); [apply inert_ret|]. intros s x s' E.
  destruct (decide _); [|done]. by injection E as <- <-.
Qed.
Lemma inert_store_desc a i d : inert lib_nh (store_desc a i d).
Proof.
  intros s x s' E. unfold store_desc in E. destruct (desc_mem s !! a); [|done]. destruct (decide _); [|done].
  by injection E as <- <-.
Qed.
#[local] Hint Resolve inert_ask inert_set_ring inert_dma_free inert_store_desc : inert.

Lemma inert_hwcall c : inert lib_nh (hwcall c).
Proof. unfold hwcall. inert. Qed.
Lemma inert_get_ring p : inert lib_nh (get_ring p).
Proof. unfold get_ring. inert. Qed.
Lemma inert_upd_ring p f : inert lib_nh (upd_ring p f).
Proof. unfold upd_ring, get_ring. inert. Qed.
#[local] Hint Resolve inert_hwcall inert_get_ring inert_upd_ring : inert.

Lemma inert_dma_alloc size : inert lib_nh (dma_alloc_coherent size).
Proof. unfold dma_alloc_coherent. inert. Qed.
Lemma inert_load_buf p i : inert lib_nh (load_buf p i).
Proof. unfold load_buf. inert. Qed.
Lemma inert_store_buf p i b : inert lib_nh (store_buf p i b).
Proof. unfold store_buf. inert. Qed.
Lemma inert_load_desc a i : inert lib_nh (load_desc a i).
Proof. unfold load_desc. inert. Qed.
#[local] Hint Resolve inert_dma_alloc inert_load_buf inert_store_buf inert_load_desc : inert.

Lemma inert_init_tx p : inert lib_nh (rtl8125_init_tx_ring p).
Proof. unfold rtl8125_init_tx_ring, rtl8125_lib_tx_fill, write_ring_base. inert. Qed.
Lemma inert_init_rx p : inert lib_nh (rtl8125_init_rx_ring p).
Proof.
  unfold rtl8125_init_rx_ring, rtl8125_lib_rx_fill, rtl8125_map_to_asic, rtl8125_mark_to_asic,
    rtl8125_mark_as_last_descriptor, write_ring_base. inert.
Qed.
Lemma inert_find_free d i n : inert lib_nh (find_free d i n).
Proof. revert i. induction n as [|n IH]; intros i; simpl; inert; apply IH. Qed.
Lemma inert_alloc_bufs p n i size : inert lib_nh (alloc_bufs p n i size).
Proof. revert i. induction n as [|n IH]; intros i; simpl; inert; apply IH. Qed.
Lemma inert_free_mem p : inert lib_nh (rtl8125_free_ring_mem p).
Proof. unfold rtl8125_free_ring_mem. inert. Qed.
#[local] Hint Resolve inert_init_tx inert_init_rx inert_find_free inert_alloc_bufs inert_free_mem : inert.

Lemma inert_alloc_mem p : inert lib_nh (rtl8125_alloc_ring_mem p).
Proof. unfold rtl8125_alloc_ring_mem, oom, chain_bufs. inert. Qed.
Lemma inert_put_ring p : inert lib_nh (rtl8125_put_ring p).
Proof. unfold rtl8125_put_ring. inert. Qed.
#[local] Hint Resolve inert_alloc_mem inert_put_ring : inert.

Lemma inert_request_ring n b d fl ops : inert lib_nh (rtl8125_request_ring n b d fl ops).
Proof. unfold rtl8125_request_ring, rtl8125_get_tx_ring, rtl8125_get_rx_ring, request_error. inert. Qed.
Lemma inert_release_ring p : inert lib_nh (rtl8125_release_ring p).
Proof. unfold rtl8125_release_ring, rtl8125_all_ring_released. inert. Qed.
Lemma inert_intr_mod p d : inert lib_nh (rtl8125_set_ring_intr_mod p d).
Proof. unfold rtl8125_set_ring_intr_mod. inert. Qed.
#[local] Hint Resolve inert_request_ring inert_release_ring inert_intr_mod : inert.

Lemma inert_request_event p fl a d : inert lib_nh (rtl8125_request_event p fl a d).
Proof. unfold rtl8125_request_event, eri_r, write_msix. inert. Qed.
Lemma inert_release_event p : inert lib_nh (rtl8125_release_event p).
Proof. unfold rtl8125_release_event, write_msix. inert. Qed.
Lemma inert_enable_event p : inert lib_nh (rtl8125_enable_event p).
Proof. unfold rtl8125_enable_event. inert. Qed.
Lemma inert_disable_event p : inert lib_nh (rtl8125_disable_event p).
Proof. unfold rtl8125_disable_event. inert. Qed.
#[local] Hint Resolve inert_request_event inert_release_event inert_enable_event inert_disable_event : inert.

Lemma inert_reta tbl i reg reta : inert lib_nh (store_reta_loop tbl i reg reta).
Proof. revert i reg reta. induction tbl as [|e tbl IH]; intros i reg reta; simpl; inert; apply IH. Qed.
#[local] Hint Resolve inert_reta : inert.
Lemma inert_config_rss : inert lib_nh _rtl8125_config_rss.
Proof. unfold _rtl8125_config_rss, rtl8125_store_reta. inert. Qed.
#[local] Hint Resolve inert_config_rss : inert.
Lemma inert_redirect p : inert lib_nh (rtl8125_rss_redirect p).
Proof. unfold rtl8125_rss_redirect, fill_indir. inert. Qed.
Lemma inert_rss_reset : inert lib_nh rtl8125_rss_reset.
Proof. unfold rtl8125_rss_reset, rtl8125_init_rss, fill_indir. inert. Qed.
Lemma inert_init_lib d i n : inert lib_nh (init_lib_from d i n).
Proof. revert i. induction n as [|n IH]; intros i; simpl; unfold init_lib_one; inert; apply IH. Qed.
Lemma inert_notify f nbs : inert lib_nh (notify_all f nbs).
Proof. induction nbs as [|nb nbs IH]; simpl; inert; apply IH. Qed.
#[local] Hint Resolve inert_redirect inert_rss_reset inert_init_lib inert_notify : inert.

Lemma inert_enable_ring p : inert lib_nh (rtl8125_enable_ring p).
Proof.
  unfold rtl8125_enable_ring, rtl8125_hw_reset, rtl8125_lib_reset_prepare, rtl8125_init_ring_indexes, rtl8125_hw_start,
    rtl8125_init_lib_ring, rtl8125_lib_reset_complete. inert.
Qed.
Lemma inert_disable_ring p : inert lib_nh (rtl8125_disable_ring p).
Proof. unfold rtl8125_disable_ring, rtl8125_hw_reset, rtl8125_lib_reset_prepare. inert. Qed.
#[local] Hint Resolve inert_enable_ring inert_disable_ring inert_nic inert_result : inert.

Lemma inert_upd_ch i f : inert chain (upd_ch i f).
Proof. unfold upd_ch, get_ch. inert. Qed.
Lemma inert_get_ch i : inert chain (get_ch i).
Proof. unfold get_ch. inert. Qed.
#[local] Hint Resolve inert_upd_ch inert_get_ch : inert.
Lemma inert_add_mem i l a d z : inert chain (ioss_channel_add_mem i l a d z).
Proof. unfold ioss_channel_add_mem. inert. Qed.
Lemma inert_del_mem i l a : inert chain (ioss_channel_del_mem i l a).
Proof. unfold ioss_channel_del_mem. inert. Qed.
#[local] Hint Resolve inert_add_mem inert_del_mem : inert.
Lemma inert_add_bufs i bufs : inert chain (add_bufs i bufs).
Proof. induction bufs as [|b bufs IH]; simpl; inert; apply IH. Qed.
Lemma inert_del_bufs i bufs : inert chain (del_bufs i bufs).
Proof. induction bufs as [|b bufs IH]; simpl; inert; apply IH. Qed.
#[local] Hint Resolve inert_add_bufs inert_del_bufs : inert.

Lemma inert_channel_ops op i : op ∈ @channel_ops r8125_ioss_ops → inert chain (ioss_dev_op op i).
Proof.
  intros Hop. repeat (apply elem_of_cons in Hop as [->|Hop]); [..|by apply not_elem_of_nil in Hop]; simpl;
    unfold r8125_ioss_request_channel, r8125_ioss_release_channel, r8125_ioss_request_event, r8125_ioss_release_event,
      r8125_ioss_enable_event, r8125_ioss_disable_event, r8125_ioss_enable_channel, r8125_ioss_disable_channel,
      r8125_ioss_enable_filters, r8125_ioss_disable_filters, ioss_channel_map_event, ioss_channel_unmap_event,
      ring_of, ring_bufs; inert.
Qed.

(** ** The contract *)
Definition r8125_opened (w : iface) : Prop := idev_private w = Some rdev_addr ∧ rdev_addr ∈ lib_nh (ring_nic w).
Definition r8125_closed (w : iface) : Prop := rdev_addr ∉ lib_nh (ring_nic w).

Lemma chain_stays (P : list Z * option Z → Prop) : @stays r8125_ioss_ops (λ w, P (chain w)).
Proof.
  split.
  - intros w w' (_ & E1 & E2). unfold chain. by rewrite E1, E2.
  - intros op i w rc w' Hop E. by rewrite (inert_channel_ops _ _ Hop _ _ _ E).
Qed.

Context (skip1 : diag_skip_request_channel = false) (skip2 : diag_skip_enable_channel = false)
  (skip3 : diag_skip_request_event = false) (skip4 : diag_skip_enable_event = false)
  (skip6 : diag_skip_open_device = false).

Definition r8125_open_laws : @OpenLaws _ (r8125_laws skip1 skip2 skip3 skip4)
  (Some r8125_ioss_open_device) (Some r8125_ioss_close_device).
Proof.
  refine {| opened := r8125_opened; closed := r8125_closed |}.
  - apply (chain_stays (λ c, c.2 = Some rdev_addr ∧ rdev_addr ∈ c.1)).
  - apply (chain_stays (λ c, rdev_addr ∉ c.1)).
  - intros m n w [= <-] Hr Hc. eapply wp_mono; [by apply (open_device_wp (IossNetSpec.all Idle n))|].
    intros rc w' (Hf & Hr' & Hrc). split; [done|]. split; [exact Hr'|]. destruct (rc =? 0).
    + destruct Hrc as (Hp & _ & Hl). split; [done|]. rewrite Hl. set_solver.
    + destruct Hrc as [_ Hl]. unfold r8125_closed. by rewrite Hl.
  - intros n w Hr [Hp _]. eexists. split; [done|].
    eapply wp_mono; [by apply (close_device_wp (IossNetSpec.all Idle n) w rdev_addr)|].
    intros rc w' (-> & Hf & Hr' & Hl). split; [done|]. split; [done|]. split; [exact Hr'|].
    unfold r8125_closed. rewrite Hl, list_elem_of_filter. by intros [? _].
Defined.
End opening.

(** The glue driver's open and close are a pair: opening either succeeds,
    with its reset notifier added to the library's chain, where it was not
    before, and the private pointer set, or changes nothing of the two; closing
    after a successful open always returns 0 and leaves the chain as it was;
    neither touches the channels, the rings or the state of the interface. *)
Theorem r8125_open_close `{NicApi} `{IossApi} ps w : diag_skip_open_device = false → r8125_rep ps w →
  wp (let* rc := r8125_ioss_open_device in
      if rc =? 0 then (let* rc' := r8125_ioss_close_device in ret (rc, rc')) else ret (rc, 0))
    (λ rcs w', open_frame w w' ∧ r8125_rep ps w' ∧ rcs.2 = 0 ∧ lib_nh (ring_nic w') = lib_nh (ring_nic w)) w.
Proof.
  intros Hsk Hr. apply wp_bind. eapply wp_mono; [by apply (open_device_wp ps)|].
  intros rc w1 (Hf & Hr1 & Hrc). destruct (rc =? 0).
  - destruct Hrc as (Hp & Hni & Hnh). apply wp_bind. eapply wp_mono; [by apply (close_device_wp ps)|].
    intros rc' w2 (-> & Hf2 & Hr2 & Hnh2). apply wp_ret. split; [|split; [exact Hr2|split; [done|]]].
    + destruct Hf as (?&?&?), Hf2 as (?&?&?). split_and!; congruence.
    + rewrite Hnh2, Hnh, list.filter_app, (filter_other _ (lib_nh _)) by done.
      rewrite filter_cons_False by (intros Hx; by apply Hx). by rewrite filter_nil, app_nil_r.
  - destruct Hrc as [_ E]. apply wp_ret. split; [done|]. split; [exact Hr1|]. split; [done|by rewrite E].
Qed.
