(* ===== verification/IossIpa.v ===== *)
(** * IOSS: the IPA client

    [ioss_ipa.c] and [ioss_ipa_hal.c] with the second version of the IPA
    Ethernet interface: describing a channel as a pipe, checking the pipes,
    connecting them and registering the interface. *)
From stdpp Require Import base tactics list gmap strings numbers.
From Stdlib Require Import ZArith Lia.
From S2P Require Import Prelude IossUtils RtlLib IossData IossMem IossNet.

(** ** Parameters *)
(** The module's parameters, where the kernel's linear map starts, and what
    connecting a pipe returns: doorbell address and value. *)
Class IpaParams := {
  ioss_skip_conn_pipes : bool; ioss_skip_ipa_register : bool; ioss_fix_high_iova : bool;
  ioss_iova_ceiling : Z; ioss_preflight_strict : bool; ioss_preflight_only : bool;
  ioss_trb_align : Z; ioss_buff_iova_align : Z;
  PAGE_OFFSET : Z;
  doorbell : nat → Z * Z }.

(** ** Preflight *)
Section preflight.
Context `{IpaParams}.

(** The loop over the buffers: the result so far, the index reached. A list
    shorter than its size is read out of bounds. The ends are [dma_addr_t], 32
    bits with the configuration of the modem's kernel. *)
Fixpoint preflight_buffers (l : list ipa_smmu_map) (n : nat) (base trb_end bsz rc : Z) : option Z :=
  match n with
  | O => Some rc
  | S n' =>
      match l with
      | [] => None
      | b :: l' =>
          let iova_end := u32 (iova b + bsz) in
          if (iova b =? 0) || (pa b =? 0) then Some (- EINVAL)
          else if ioss_iova_ceiling <? iova b then Some (- ERANGE)
          else if negb ((iova_end <=? base) || (trb_end <=? iova b)) then Some (- EINVAL)
          else preflight_buffers l' n' base trb_end bsz rc
      end
  end.

Definition ioss_ipa_preflight_pipe (si : pipe_info) : option Z :=
  let base := transfer_ring_base si in
  if negb (is_transfer_ring_valid si) then Some (- EINVAL)
  else if (base =? 0) || (transfer_ring_size si =? 0) then Some (- EINVAL)
  else
    let rc := if negb (ioss_trb_align =? 0) && negb (Z.land base (ioss_trb_align - 1) =? 0)
              then - EINVAL else 0 in
    match data_buff_list si with
    | None => Some (- EINVAL)
    | Some l =>
        if (data_buff_list_size si =? 0) || (fix_buffer_size si =? 0) then Some (- EINVAL)
        else preflight_buffers l (Z.to_nat (data_buff_list_size si)) base
               (u32 (base + transfer_ring_size si)) (fix_buffer_size si) rc
    end.

(** The last failing pipe's code, and the number of pipes each way. *)
Fixpoint preflight_channels (l : list ioss_channel) (rc : Z) (tx rx : nat) : option (Z * nat * nat) :=
  match l with
  | [] => Some (rc, tx, rx)
  | c :: l' =>
      prc ← ioss_ipa_preflight_pipe (ipa_pi c);
      let tx' := match pi_dir (ipa_pi c) with Some IPA_ETH_PIPE_DIR_RX => tx | _ => S tx end in
      let rx' := match pi_dir (ipa_pi c) with Some IPA_ETH_PIPE_DIR_RX => S rx | _ => rx end in
      preflight_channels l' (if negb (prc =? 0) then prc else rc) tx' rx'
  end.

Definition ioss_ipa_preflight_client : W Z :=
  let* l := gets channels in
  let* '(rc, tx, rx) := lift_opt (preflight_channels l 0 0 0) in
  ret (if (Nat.eqb tx 0 || Nat.eqb rx 0) && (rc =? 0) then - EINVAL else rc).
End preflight.

(** ** Describing a channel *)
Section ipa.
Context `{IossApi} `{IpaParams}.

Definition w_pipe (i : nat) (f : pipe_info → pipe_info) : W unit := upd_ch i (λ c, c_pipe (f (ipa_pi c)) c).

Definition p_dir (d : ipa_pipe_dir) (p : pipe_info) : pipe_info :=
  PipeInfo (Some d) (is_transfer_ring_valid p) (transfer_ring_base p) (transfer_ring_size p)
    (data_buff_list p) (data_buff_list_size p) (fix_buffer_size p) (pi_notify p) (pi_client p) (pi_rtk p).
Definition p_valid (p : pipe_info) : pipe_info :=
  PipeInfo (pi_dir p) true (transfer_ring_base p) (transfer_ring_size p)
    (data_buff_list p) (data_buff_list_size p) (fix_buffer_size p) (pi_notify p) (pi_client p) (pi_rtk p).
Definition p_ring (b n : Z) (p : pipe_info) : pipe_info :=
  PipeInfo (pi_dir p) (is_transfer_ring_valid p) b n
    (data_buff_list p) (data_buff_list_size p) (fix_buffer_size p) (pi_notify p) (pi_client p) (pi_rtk p).
Definition p_buffs (l : option (list ipa_smmu_map)) (n bsz : Z) (p : pipe_info) : pipe_info :=
  PipeInfo (pi_dir p) (is_transfer_ring_valid p) (transfer_ring_base p) (transfer_ring_size p)
    l n bsz (pi_notify p) (pi_client p) (pi_rtk p).
Definition p_notify (p : pipe_info) : pipe_info :=
  PipeInfo (pi_dir p) (is_transfer_ring_valid p) (transfer_ring_base p) (transfer_ring_size p)
    (data_buff_list p) (data_buff_list_size p) (fix_buffer_size p) true (pi_client p) (pi_rtk p).
Definition p_client (p : pipe_info) : pipe_info :=
  PipeInfo (pi_dir p) (is_transfer_ring_valid p) (transfer_ring_base p) (transfer_ring_size p)
    (data_buff_list p) (data_buff_list_size p) (fix_buffer_size p) (pi_notify p) true (pi_rtk p).
Definition p_rtk (r : realtek_info) (p : pipe_info) : pipe_info :=
  PipeInfo (pi_dir p) (is_transfer_ring_valid p) (transfer_ring_base p) (transfer_ring_size p)
    (data_buff_list p) (data_buff_list_size p) (fix_buffer_size p) (pi_notify p) (pi_client p) r.

(** The address IPA is given for a device address: above the ceiling it is
    masked, or replaced by the physical address. *)
Definition ipa_iova (daddr phys : Z) : Z :=
  if ioss_fix_high_iova && (ioss_iova_ceiling <? daddr) then
    let remap := Z.land daddr ioss_iova_ceiling in
    if (remap =? 0) || (ioss_iova_ceiling <? remap) then phys else remap
  else daddr.

(** The physical address of a buffer, mended when it is a kernel address. *)
Definition buff_pa (a : ioss_mem_allocator) (addr : Z) : W Z :=
  let* phys := alctr_pa a addr in
  ret (if PAGE_OFFSET <=? phys then linear_pa addr else phys).

(** The buffers become entries: the entries so far, or an error code. *)
Fixpoint fill_buffers (a : ioss_mem_allocator) (ms : list ioss_mem) (size : Z) (acc : list ipa_smmu_map)
    : W (Z + list ipa_smmu_map) :=
  match ms with
  | [] => ret (inr acc)
  | m :: ms' =>
      if size <=? Z.of_nat (length acc) then ret (inl (- EOVERFLOW))
      else
        let* phys := buff_pa a (m_addr m) in
        if phys =? 0 then ret (inl (- EINVAL))
        else
          let io := ipa_iova (m_daddr m) phys in
          if ioss_iova_ceiling <? io then ret (inl (- ERANGE))
          else fill_buffers a ms' size (acc ++ [SmmuMap io phys])
  end.

(** *** The hardware abstraction *)
Inductive ipa_eth_client_type := IPA_ETH_CLIENT_AQC107 | IPA_ETH_CLIENT_RTK8125B | IPA_ETH_CLIENT_NTN3.

(** The table, in the order of the client types; [None] is [IPA_ETH_CLIENT_MAX]. *)
Definition ioss_ipa_map_table : list (ipa_eth_client_type * string) :=
  [(IPA_ETH_CLIENT_AQC107, "atlantic-fwd"%string); (IPA_ETH_CLIENT_RTK8125B, "r8125"%string);
   (IPA_ETH_CLIENT_NTN3, "tc956x_pci-eth"%string)].

Definition ioss_ipa_hal_get_ctype : option ipa_eth_client_type :=
  match list_find (λ e, e.2 = driver_name) ioss_ipa_map_table with
  | Some (_, e) => Some e.1
  | None => None
  end.

Definition RTL8125_BAR_MMIO : Z := 2.
Definition RTL8125_TAIL_PTR_BASE : Z := 0x2800.
Definition RTL8125_TAIL_PTR_NEXT : Z := 4.

Definition fill_r8125_si (i : nat) : W Z :=
  let* c := get_ch i in
  let tail := match direction c with
    | IOSS_CH_DIR_TX => RTL8125_TAIL_PTR_BASE + ch_id c * RTL8125_TAIL_PTR_NEXT
    | IOSS_CH_DIR_RX => dest_tail_ptr_offs (pi_rtk (ipa_pi c)) end in
  w_pipe i (p_rtk (RtkInfo (pci_bar RTL8125_BAR_MMIO).1 (pci_bar RTL8125_BAR_MMIO).2 (ch_id c) tail)) ;;
  ret 0.

(** The other devices' settings are not kept: their pipes are not followed. *)
Definition ioss_ipa_hal_fill_si (i : nat) : W Z :=
  match ioss_ipa_hal_get_ctype with
  | Some IPA_ETH_CLIENT_RTK8125B => fill_r8125_si i
  | Some _ => ret 0
  | None => ret (- EINVAL)
  end.

Definition ioss_ipa_fill_pipe_info (i : nat) : W Z :=
  let* c := get_ch i in
  w_pipe i (p_dir (match direction c with
    | IOSS_CH_DIR_TX => IPA_ETH_PIPE_DIR_TX | IOSS_CH_DIR_RX => IPA_ETH_PIPE_DIR_RX end)) ;;
  match desc_list c with
  | [] => ret (- EINVAL)
  | d :: _ =>
      w_pipe i p_valid ;;
      let* desc_pa := alctr_pa (desc_alctr (config c)) (m_addr d) in
      if desc_pa =? 0 then ret (- EINVAL)
      else
        let desc_iova := ipa_iova (m_daddr d) desc_pa in
        if ioss_iova_ceiling <? desc_iova then ret (- ERANGE)
        else
          w_pipe i (p_ring desc_iova (m_size d)) ;;
          let size := ring_size (config c) in
          let bsz := buff_size (config c) in
          let* rc := result in
          if negb (rc =? 0)
          then w_pipe i (λ p, p_buffs None size (fix_buffer_size p) p) ;; ret (- EINVAL)
          else
            let* r := fill_buffers (buff_alctr (config c)) (buff_list c) size [] in
            match r with
            | inl rc => w_pipe i (p_buffs None size bsz) ;; ret rc
            | inr l =>
                (* the array keeps its length; the size becomes the count *)
                w_pipe i (p_buffs (Some (l ++ replicate (Z.to_nat size - length l) (SmmuMap 0 0)))
                  (Z.of_nat (length l)) bsz) ;;
                (match direction c with IOSS_CH_DIR_RX => w_pipe i p_notify | IOSS_CH_DIR_TX => ret tt end) ;;
                let* rc := ioss_ipa_hal_fill_si i in
                (* freed on failure, without clearing the pointer *)
                if negb (rc =? 0) then ret (- EINVAL) else ret 0
            end
  end.

(** ** Registering *)
Definition set_client (f : ipa_link → ipa_link) : W unit := modify (λ w, if_client (f (ipa_client w)) w).
Definition l_client (b : bool) (l : ipa_link) : ipa_link := IpaLink b (il_conn l) (il_reg l) (il_disconn l) (il_unreg l).
Definition l_conn (l : ipa_link) : ipa_link := IpaLink (il_client l) true (il_reg l) 0 (il_unreg l).
Definition l_disconn (rc : Z) (l : ipa_link) : ipa_link :=
  IpaLink (il_client l) (if rc =? 0 then false else il_conn l) (il_reg l) rc (il_unreg l).
Definition l_reg (l : ipa_link) : ipa_link := IpaLink (il_client l) (il_conn l) true (il_disconn l) 0.
Definition l_unreg (rc : Z) (l : ipa_link) : ipa_link :=
  IpaLink (il_client l) (il_conn l) (if rc =? 0 then false else il_reg l) (il_disconn l) rc.

(** The calls into the IPA driver. *)
Definition ipa_eth_client_conn_pipes : W Z :=
  let* l := gets channels in
  callout (IpaConnPipes (length l)) ;;
  let* rc := result in
  (if rc =? 0 then set_client l_conn else ret tt) ;; ret rc.
Definition ipa_eth_client_disconn_pipes : W Z :=
  callout IpaDisconnPipes ;;
  let* rc := result in
  set_client (l_disconn rc) ;; ret rc.
Definition ipa_eth_client_reg_intf : W Z :=
  callout IpaRegIntf ;;
  let* rc := result in
  (if rc =? 0 then set_client l_reg else ret tt) ;; ret rc.
Definition ipa_eth_client_unreg_intf : W Z :=
  callout IpaUnregIntf ;;
  let* rc := result in
  set_client (l_unreg rc) ;; ret rc.

Definition ioss_ipa_vote_bw : W Z :=
  let* speed := gets link_speed in
  callout (IpaPerfProfile speed) ;;
  let* rc := result in
  if negb (rc =? 0) then ret (- EINVAL) else ret 0.

(** [ioss_for_each_channel(ch, iface) f(ch)]. *)
Fixpoint for_channels (f : nat → W unit) (l : list nat) : W unit :=
  match l with [] => ret tt | i :: l' => f i ;; for_channels f l' end.

(** Up to the first channel that cannot be described. *)
Fixpoint fill_channels (l : list nat) : W bool :=
  match l with
  | [] => ret true
  | i :: l' =>
      w_pipe i p_client ;;
      let* rc := ioss_ipa_fill_pipe_info i in
      if negb (rc =? 0) then ret false else fill_channels l'
  end.

Definition set_door (pa data : Z) (i : nat) : W unit :=
  upd_ch i (λ c, c_event (e_door pa data (event c)) c).
(** [kfree(si->data_buff_list)] and [memset] of the pipe. *)
Definition drop_pipe (i : nat) : W unit := w_pipe i (λ _, no_pipe).

Definition ioss_ipa_register_impl : W Z :=
  if ioss_skip_ipa_register then ret 0
  else
    set_client (l_client true) ;;
    match ioss_ipa_hal_get_ctype with
    | None => ret (- EFAULT)
    | Some _ =>
        let* l := all_channels in
        let err_ioss_pipe_info := set_client (l_client false) ;; ret (- EINVAL) in
        let err_ipa_conn_pipes := for_channels drop_pipe l ;; err_ioss_pipe_info in
        let err_ipa_vote_bw := let* _ := ipa_eth_client_disconn_pipes in err_ipa_conn_pipes in
        let err_ipa_reg_intf := for_channels (set_door 0 0) l ;; err_ipa_vote_bw in
        let* ok := fill_channels l in
        if negb ok then err_ioss_pipe_info
        else
          let* rc := ioss_ipa_preflight_client in
          if negb (rc =? 0) && ioss_preflight_strict then err_ipa_conn_pipes
          else if ioss_preflight_only then err_ipa_conn_pipes
          else if ioss_skip_conn_pipes then err_ipa_conn_pipes
          else
            let* rc := ipa_eth_client_conn_pipes in
            if negb (rc =? 0) then err_ipa_conn_pipes
            else
              let* rc := ioss_ipa_vote_bw in
              if negb (rc =? 0) then err_ipa_vote_bw
              else
                for_channels (λ i, set_door (doorbell i).1 (doorbell i).2 i) l ;;
                let* rc := ipa_eth_client_reg_intf in
                if negb (rc =? 0) then err_ipa_reg_intf
                else ret 0
    end.

Definition ioss_ipa_unregister_impl : W Z :=
  if ioss_skip_ipa_register then ret 0
  else
    let* rc := ipa_eth_client_disconn_pipes in
    if negb (rc =? 0) then ret rc
    else
      let* rc := ipa_eth_client_unreg_intf in
      if negb (rc =? 0) then ret rc
      else
        let* l := all_channels in
        for_channels (λ i, set_door 0 0 i ;; drop_pipe i) l ;;
        set_client (l_client false) ;;
        ret 0.

#[export] Instance ioss_ipa_ops : IpaOps := {|
  ioss_ipa_register := ioss_ipa_register_impl;
  ioss_ipa_unregister := ioss_ipa_unregister_impl |}.
End ipa.
