(* ===== verification/IossIpaSpec.v ===== *)
(** * IOSS: the IPA client, correctness

    The preflight accepts exactly the pipes that are sound, and the description
    of a channel is a function of its memory lists. *)
From stdpp Require Import base tactics list gmap strings numbers.
From Stdlib Require Import ZArith Lia.
From S2P Require Import Prelude IossUtils RtlLib IossData IossLaws IossMem IossNet IossIpa.

(** ** Preflight *)
Section preflight_spec.
Context `{IpaParams}.

(** The fields are 32-bit machine integers, the list covers its size. *)
Definition word (v : Z) : Prop := 0 ≤ v < 2 ^ 32.
Definition pipe_ranges (si : pipe_info) : Prop :=
  word ioss_iova_ceiling ∧ word (transfer_ring_base si) ∧ word (transfer_ring_size si) ∧
  0 ≤ data_buff_list_size si ∧ word (fix_buffer_size si) ∧
  ∀ l, data_buff_list si = Some l →
    data_buff_list_size si ≤ Z.of_nat (length l) ∧ Forall (λ b, word (iova b) ∧ word (pa b)) l.

(** The buffer and the ring have no byte in common; or the end of one of them
    is past the last address, and what is left of it after the wrap does not
    pass the start of the other. *)
Definition apart (base size bsz : Z) (b : ipa_smmu_map) : Prop :=
  (∀ a, iova b ≤ a < iova b + bsz → ¬ base ≤ a < base + size) ∨
  2 ^ 32 ≤ iova b + bsz ≤ 2 ^ 32 + base ∨ 2 ^ 32 ≤ base + size ≤ 2 ^ 32 + iova b.
(** A buffer IPA is given: mapped, reachable, apart from the ring. *)
Definition buff_ok (base size bsz : Z) (b : ipa_smmu_map) : Prop :=
  iova b ≠ 0 ∧ pa b ≠ 0 ∧ iova b ≤ ioss_iova_ceiling ∧ apart base size bsz b.

Definition pipe_ok (si : pipe_info) : Prop :=
  is_transfer_ring_valid si = true ∧ transfer_ring_base si ≠ 0 ∧ transfer_ring_size si ≠ 0 ∧
  (ioss_trb_align ≠ 0 → Z.land (transfer_ring_base si) (ioss_trb_align - 1) = 0) ∧
  data_buff_list_size si ≠ 0 ∧ fix_buffer_size si ≠ 0 ∧
  ∃ l, data_buff_list si = Some l ∧
    Forall (buff_ok (transfer_ring_base si) (transfer_ring_size si) (fix_buffer_size si))
      (take (Z.to_nat (data_buff_list_size si)) l).

Lemma u32_end a n : word a → word n → u32 (a + n) = if a + n <? 2 ^ 32 then a + n else a + n - 2 ^ 32.
Proof.
  unfold word, u32. intros Ha Hn. destruct (a + n <? 2 ^ 32) eqn:E; [apply Z.ltb_lt in E|apply Z.ltb_ge in E].
  - apply Z.mod_small. lia.
  - rewrite <- (Z.mod_add _ (-1)) by lia. apply Z.mod_small. lia.
Qed.
(** The code compares the wrapped ends. *)
Lemma apart_iff base size bsz b : word base → word size → word bsz → word (iova b) → 0 < size → 0 < bsz →
  apart base size bsz b ↔ u32 (iova b + bsz) ≤ base ∨ u32 (base + size) ≤ iova b.
Proof.
  intros Hb Hs Hz Hi Hs0 Hz0. rewrite !u32_end by done. unfold apart, word in *.
  assert (Hd : (∀ a, iova b ≤ a < iova b + bsz → ¬ base ≤ a < base + size) ↔ iova b + bsz ≤ base ∨ base + size ≤ iova b).
  { split; [|lia]. intros Hd. destruct (Z.le_gt_cases (iova b + bsz) base); [by left|right].
    destruct (Z.le_gt_cases (base + size) (iova b)); [done|]. destruct (Hd (Z.max base (iova b))); lia. }
  rewrite Hd. clear Hd. destruct (iova b + bsz <? 2 ^ 32) eqn:E1, (base + size <? 2 ^ 32) eqn:E2;
    rewrite ?Z.ltb_lt, ?Z.ltb_ge in *; lia.
Qed.

(** One buffer's three tests say exactly that. *)
Lemma buff_tests base size bsz b :
  word base → word size → word bsz → word (iova b) → 0 < size → 0 < bsz →
  buff_ok base size bsz b ↔
  (iova b =? 0) || (pa b =? 0) = false ∧ (ioss_iova_ceiling <? iova b) = false ∧
  negb ((u32 (iova b + bsz) <=? base) || (u32 (base + size) <=? iova b)) = false.
Proof.
  intros Hb Hs Hz Hi Hs0 Hz0. unfold buff_ok. rewrite apart_iff by done. rewrite orb_false_iff, negb_false_iff, orb_true_iff.
  rewrite !Z.eqb_neq, Z.ltb_ge, !Z.leb_le. tauto.
Qed.

Definition preflight_code (rc : Z) : Prop := rc = 0 ∨ rc = - EINVAL ∨ rc = - ERANGE.

Lemma preflight_buffers_spec l n base size bsz rc :
  word base → word size → word bsz → 0 < size → 0 < bsz →
  (n ≤ length l)%nat → Forall (λ b, word (iova b) ∧ word (pa b)) l → preflight_code rc →
  ∃ rc', preflight_buffers l n base (u32 (base + size)) bsz rc = Some rc' ∧ preflight_code rc' ∧
    (rc' = 0 ↔ rc = 0 ∧ Forall (buff_ok base size bsz) (take n l)).
Proof.
  intros Hb Hs Hz Hs0 Hz0. revert l rc. induction n as [|n IH]; intros l rc Hn Hl Hrc.
  { exists rc. split_and!; [by destruct l|done|]. rewrite take_0, Forall_nil_iff. tauto. }
  destruct l as [|b l]; [simpl in Hn; lia|]. apply Forall_cons_iff in Hl as [[Hi Hp] Hl].
  cbn [preflight_buffers take]. pose proof (buff_tests base size bsz b Hb Hs Hz Hi Hs0 Hz0) as Ht.
  setoid_rewrite Forall_cons_iff. setoid_rewrite Ht. unfold preflight_code.
  destruct (_ || _); [exists (- EINVAL); split_and!; naive_solver|].
  destruct (ioss_iova_ceiling <? iova b); [exists (- ERANGE); split_and!; naive_solver|].
  destruct (negb _); [exists (- EINVAL); split_and!; naive_solver|].
  destruct (IH l rc) as (rc' & -> & Hrc' & Hiff); [simpl in Hn; lia|done|done|].
  exists rc'. split_and!; [done|done|]. rewrite Hiff. tauto.
Qed.

(** C37: The preflight of a pipe is defined on every pipe whose list covers its
    size; it returns 0, [-EINVAL] or [-ERANGE], and 0 exactly when the transfer
    ring is valid, nonempty and aligned and every buffer of the list is mapped,
    below the ceiling and disjoint from the transfer ring; but where the end of
    the buffer or of the ring passes the last 32-bit address the code compares
    what is left of it after the wrap, and takes buffers that overlap. *)
Theorem preflight_pipe_iff si : pipe_ranges si →
  ∃ rc, ioss_ipa_preflight_pipe si = Some rc ∧ preflight_code rc ∧ (rc = 0 ↔ pipe_ok si).
Proof.
  intros (Hc & Hb & Hs & Hn & Hz & Hl). unfold ioss_ipa_preflight_pipe, pipe_ok, preflight_code.
  destruct (is_transfer_ring_valid si); [|exists (- EINVAL); split_and!; naive_solver]. simpl.
  destruct (Z.eqb_spec (transfer_ring_base si) 0); [exists (- EINVAL); split_and!; naive_solver|].
  destruct (Z.eqb_spec (transfer_ring_size si) 0); [exists (- EINVAL); split_and!; naive_solver|]. simpl.
  destruct (data_buff_list si) as [l|]; [|exists (- EINVAL); split_and!; naive_solver].
  destruct (Hl l eq_refl) as [Hlen Hpos].
  destruct (Z.eqb_spec (data_buff_list_size si) 0); [exists (- EINVAL); split_and!; naive_solver|].
  destruct (Z.eqb_spec (fix_buffer_size si) 0); [exists (- EINVAL); split_and!; naive_solver|]. simpl.
  set (rc := if _ && _ then _ else _).
  destruct (preflight_buffers_spec l (Z.to_nat (data_buff_list_size si)) (transfer_ring_base si)
    (transfer_ring_size si) (fix_buffer_size si) rc) as (rc' & -> & Hrc' & Hiff); try done; try (unfold word in *; lia).
  { subst rc. unfold preflight_code. destruct (_ && _); auto. }
  exists rc'. split_and!; [done|done|]. rewrite Hiff.
  assert (rc = 0 ↔ (ioss_trb_align ≠ 0 → Z.land (transfer_ring_base si) (ioss_trb_align - 1) = 0)) as ->.
  { subst rc. destruct (Z.eqb_spec ioss_trb_align 0), (Z.eqb_spec (Z.land (transfer_ring_base si) (ioss_trb_align - 1)) 0); simpl; naive_solver. }
  naive_solver.
Qed.
End preflight_spec.

(** ** Describing a channel *)
Section fill_spec.
Context `{IossApi} `{IpaParams}.

(** The physical address of a memory, with the TCM block in the state. *)
Definition phys_of (t : option (Z * Z * Z)) (a : ioss_mem_allocator) (addr : Z) : Z :=
  match a, t with
  | ioss_default_alctr, _ => default_mem_pa addr
  | ioss_llcc_alctr, Some t => if tcm_virt t =? 0 then 0 else u32 (tcm_phys t + (addr - tcm_virt t))
  | ioss_llcc_alctr, None => 0
  end.
Definition buff_phys (t : option (Z * Z * Z)) (a : ioss_mem_allocator) (addr : Z) : Z :=
  if PAGE_OFFSET <=? phys_of t a addr then linear_pa addr else phys_of t a addr.
(** The address IPA gets for a device address: itself up to the ceiling; above
    it the bits the ceiling has, and the physical address only if none is left
    or the ceiling is passed again. The comment in the code says that it is
    always the physical address. *)
Definition ipa_addr (daddr phys : Z) : Z :=
  if ioss_fix_high_iova then
    if daddr <=? ioss_iova_ceiling then daddr
    else let masked := Z.land daddr ioss_iova_ceiling in
         if bool_decide (masked ≠ 0) && (masked <=? ioss_iova_ceiling) then masked else phys
  else daddr.
Lemma ipa_iova_eq daddr phys : ipa_iova daddr phys = ipa_addr daddr phys.
Proof.
  unfold ipa_iova, ipa_addr. destruct ioss_fix_high_iova; [|done]. simpl. rewrite !(Z.leb_antisym ioss_iova_ceiling).
  destruct (ioss_iova_ceiling <? daddr); simpl; [|done].
  destruct (Z.eqb_spec (Z.land daddr ioss_iova_ceiling) 0) as [E|E]; simpl.
  - by rewrite E.
  - rewrite bool_decide_eq_true_2 by done. simpl. by destruct (ioss_iova_ceiling <? _).
Qed.

Definition entry (t : option (Z * Z * Z)) (a : ioss_mem_allocator) (m : ioss_mem) : ipa_smmu_map :=
  SmmuMap (ipa_addr (m_daddr m) (buff_phys t a (m_addr m))) (buff_phys t a (m_addr m)).
Definition entry_ok (e : ipa_smmu_map) : Prop := pa e ≠ 0 ∧ iova e ≤ ioss_iova_ceiling.
Definition entries (t : option (Z * Z * Z)) (c : ioss_channel) : list ipa_smmu_map :=
  entry t (buff_alctr (config c)) <$> buff_list c.
Definition desc_phys (t : option (Z * Z * Z)) (c : ioss_channel) (d : ioss_mem) : Z :=
  phys_of t (desc_alctr (config c)) (m_addr d).

(** What it takes for a channel to become a pipe. *)
Definition describable (t : option (Z * Z * Z)) (c : ioss_channel) : Prop :=
  Z.of_nat (length (buff_list c)) ≤ ring_size (config c) ∧ Forall entry_ok (entries t c) ∧
  ∃ d, head (desc_list c) = Some d ∧ desc_phys t c d ≠ 0 ∧
    ipa_addr (m_daddr d) (desc_phys t c d) ≤ ioss_iova_ceiling.

(** The pipe it becomes. *)
Definition described (t : option (Z * Z * Z)) (c : ioss_channel) (d : ioss_mem) : pipe_info :=
  let p := ipa_pi c in
  PipeInfo (Some match direction c with IOSS_CH_DIR_TX => IPA_ETH_PIPE_DIR_TX | IOSS_CH_DIR_RX => IPA_ETH_PIPE_DIR_RX end)
    true (ipa_addr (m_daddr d) (desc_phys t c d)) (m_size d)
    (Some (entries t c ++ replicate (Z.to_nat (ring_size (config c)) - length (entries t c)) (SmmuMap 0 0)))
    (Z.of_nat (length (entries t c))) (buff_size (config c))
    (match direction c with IOSS_CH_DIR_RX => true | IOSS_CH_DIR_TX => pi_notify p end) (pi_client p)
    (RtkInfo (pci_bar RTL8125_BAR_MMIO).1 (pci_bar RTL8125_BAR_MMIO).2 (ch_id c)
      match direction c with
      | IOSS_CH_DIR_TX => RTL8125_TAIL_PTR_BASE + ch_id c * RTL8125_TAIL_PTR_NEXT
      | IOSS_CH_DIR_RX => dest_tail_ptr_offs (pi_rtk p) end).

(** The pipe holds a list that covers its size. *)
Definition covers (p : pipe_info) : Prop :=
  ∃ l, data_buff_list p = Some l ∧ data_buff_list_size p ≤ Z.of_nat (length l).

Lemma described_covers t c d : covers (described t c d).
Proof. eexists. split; [done|]. simpl. rewrite length_app. lia. Qed.

Lemma alctr_pa_wp a addr Q w : Q (phys_of (tcm_mem w) a addr) w → wp (alctr_pa a addr) Q w.
Proof.
  intros HQ. destruct a; [done|]. unfold alctr_pa, llcc_mem_pa, phys_of in *. wp_steps.
  destruct (tcm_mem w) as [t|]; [|done]. by destruct (tcm_virt t =? 0).
Qed.
Lemma buff_pa_wp a addr Q w : Q (buff_phys (tcm_mem w) a addr) w → wp (buff_pa a addr) Q w.
Proof. intros HQ. unfold buff_pa. apply wp_bind, alctr_pa_wp. by apply wp_ret. Qed.

Lemma fill_buffers_wp a ms size acc w :
  wp (fill_buffers a ms size acc) (λ r w', w' = w ∧
    let es := entry (tcm_mem w) a <$> ms in
    match r with
    | inr l => l = acc ++ es ∧ (Z.of_nat (length acc) ≤ size → Z.of_nat (length l) ≤ size) ∧ Forall entry_ok es
    | inl rc => rc ≠ 0 ∧ ¬ (Z.of_nat (length (acc ++ es)) ≤ size ∧ Forall entry_ok es)
    end) w.
Proof.
  revert acc. induction ms as [|m ms IH]; intros acc; cbn [fill_buffers fmap list_fmap].
  { apply wp_ret. rewrite app_nil_r. split_and!; done. }
  pose proof (Forall_cons_iff entry_ok) as Hcons.
  destruct (Z.leb_spec size (Z.of_nat (length acc))).
  { apply wp_ret. split; [done|]. split; [done|]. rewrite length_app. simpl. lia. }
  apply wp_bind, buff_pa_wp. set (e := entry (tcm_mem w) a m).
  change (buff_phys (tcm_mem w) a (m_addr m)) with (pa e). rewrite ipa_iova_eq. change (ipa_addr (m_daddr m) (pa e)) with (iova e).
  destruct (Z.eqb_spec (pa e) 0) as [E|E].
  { apply wp_ret. split; [done|]. split; [done|]. intros [_ Hf]. by apply Hcons in Hf as [[? _] _]. }
  destruct (Z.ltb_spec ioss_iova_ceiling (iova e)).
  { apply wp_ret. split; [done|]. split; [done|]. intros [_ Hf]. apply Hcons in Hf as [[_ Hle] _]. simpl in *. lia. }
  replace (SmmuMap (iova e) (pa e)) with e by done.
  eapply wp_mono; [apply IH|].
  intros r w' [-> Hr]. split; [done|]. destruct r as [rc|l].
  - destruct Hr as [Hrc Hn]. split; [done|]. intros [Hs Hf]. apply Hn. apply Hcons in Hf as [_ Hf].
    rewrite !length_app in *. simpl in *. split; [lia|done].
  - destruct Hr as (-> & Hs & Hf). rewrite <- app_assoc in *. simpl in Hs.
    split_and!; [done| |].
    + intros _. apply Hs. rewrite length_app. simpl. lia.
    + apply Hcons. split; [by split|done].
Qed.

(** Updates of one channel's pipe, one after the other. *)
Lemma w_pipe_wp i f c Q w : channels w !! i = Some c →
  Q tt (put_ch i (c_pipe (f (ipa_pi c)) c) w) → wp (w_pipe i f) Q w.
Proof. intros Hc HQ. unfold w_pipe. by eapply upd_ch_wp. Qed.
Lemma next_result_wp (Q : Z → iface → Prop) w :
  Q (default 0 (head (results w))) (if_results (tail (results w)) w) → wp result Q w.
Proof. done. Qed.
Lemma put_ch_results i c rs w : if_results rs (put_ch i c w) = put_ch i c (if_results rs w).
Proof. done. Qed.

Lemma hal_fill_wp i c Q w : driver_name = "r8125"%string → channels w !! i = Some c →
  Q 0 (put_ch i (c_pipe (p_rtk (RtkInfo (pci_bar RTL8125_BAR_MMIO).1 (pci_bar RTL8125_BAR_MMIO).2 (ch_id c)
    match direction c with
    | IOSS_CH_DIR_TX => RTL8125_TAIL_PTR_BASE + ch_id c * RTL8125_TAIL_PTR_NEXT
    | IOSS_CH_DIR_RX => dest_tail_ptr_offs (pi_rtk (ipa_pi c)) end) (ipa_pi c)) c) w) →
  wp (ioss_ipa_hal_fill_si i) Q w.
Proof.
  intros Hd Hc HQ. unfold ioss_ipa_hal_fill_si, ioss_ipa_hal_get_ctype. rewrite Hd. simpl.
  unfold fill_r8125_si. apply wp_bind. eapply get_ch_wp; [done|]. apply wp_bind.
  eapply w_pipe_wp; [done|]. by apply wp_ret.
Qed.

(** The end of a description: the callback of a receive pipe, the settings. *)
Lemma fill_tail_wp i c Q w : driver_name = "r8125"%string → channels w !! i = Some c →
  Q 0 (put_ch i (c_pipe (p_rtk (RtkInfo (pci_bar RTL8125_BAR_MMIO).1 (pci_bar RTL8125_BAR_MMIO).2 (ch_id c)
    match direction c with
    | IOSS_CH_DIR_TX => RTL8125_TAIL_PTR_BASE + ch_id c * RTL8125_TAIL_PTR_NEXT
    | IOSS_CH_DIR_RX => dest_tail_ptr_offs (pi_rtk (ipa_pi c)) end)
    match direction c with IOSS_CH_DIR_RX => p_notify (ipa_pi c) | IOSS_CH_DIR_TX => ipa_pi c end) c) w) →
  wp ((match direction c with IOSS_CH_DIR_RX => w_pipe i p_notify | IOSS_CH_DIR_TX => ret tt end) ;;
      let* rc := ioss_ipa_hal_fill_si i in
      if negb (rc =? 0) then ret (- EINVAL) else ret 0) Q w.
Proof.
  intros Hd Hc HQ. apply wp_bind. destruct (direction c) eqn:Edir.
  - eapply w_pipe_wp; [done|]. apply wp_bind. eapply hal_fill_wp; [done|by eapply at_put_ch|].
    rewrite put_ch_put. simpl. rewrite Edir. exact HQ.
  - apply wp_ret, wp_bind. eapply hal_fill_wp; [done..|]. simpl. rewrite Edir. exact HQ.
Qed.

(** What a description leaves: the channel, but for its pipe; a failure keeps
    the list the pipe had or none. At most one allocation is asked for. *)
Definition filled (i : nat) (c : ioss_channel) (w : iface) (rc : Z) (w' : iface) : Prop :=
  ∃ p rs, w' = put_ch i (c_pipe p c) (if_results rs w) ∧
    (rc = 0 → ∃ d, head (desc_list c) = Some d ∧ p = described (tcm_mem w) c d) ∧
    (rc ≠ 0 → data_buff_list p = data_buff_list (ipa_pi c) ∨ data_buff_list p = None) ∧
    (rs = results w ∨ rs = tail (results w)).

Lemma filled_error i c w rc p rs : rc ≠ 0 → rs = results w ∨ rs = tail (results w) →
  data_buff_list p = data_buff_list (ipa_pi c) ∨ data_buff_list p = None →
  filled i c w rc (put_ch i (c_pipe p c) (if_results rs w)).
Proof. intros Hrc Hrs Hp. exists p, rs. split_and!; done. Qed.

Lemma fill_pipe_info_wp i c w : driver_name = "r8125"%string → channels w !! i = Some c →
  wp (ioss_ipa_fill_pipe_info i) (λ rc w', filled i c w rc w' ∧
    (0 ≤ ring_size (config c) →
     rc = 0 ↔ describable (tcm_mem w) c ∧ default 0 (head (results w)) = 0)) w.
Proof.
  intros Hdrv Hc. unfold ioss_ipa_fill_pipe_info, describable. apply wp_bind. eapply get_ch_wp; [done|].
  apply wp_bind. eapply w_pipe_wp; [done|]. set (c1 := c_pipe _ c). set (w1 := put_ch i c1 w).
  assert (channels w1 !! i = Some c1) as Hc1 by by eapply at_put_ch.
  assert (∀ p rs rc, rc ≠ 0 → rs = results w ∨ rs = tail (results w) → data_buff_list p = data_buff_list (ipa_pi c) ∨ data_buff_list p = None →
    filled i c w rc (put_ch i (c_pipe p c) (if_results rs w))) as Herr by (intros; by apply filled_error).
  assert (∀ p rc, rc ≠ 0 → data_buff_list p = data_buff_list (ipa_pi c) ∨ data_buff_list p = None →
    filled i c w rc (put_ch i (c_pipe p c) w)) as Herr0
    by (intros p rc Hrc Hp; specialize (Herr p (results w) rc Hrc (or_introl eq_refl) Hp); by destruct w).
  destruct (desc_list c) as [|d ds] eqn:Ed.
  { apply wp_ret. split; [apply Herr0; [done|by left]|]. intros _. split; [done|].
    intros ((_ & _ & d & Hd & _) & _). done. }
  apply wp_bind. eapply w_pipe_wp; [done|]. unfold w1. rewrite put_ch_put. set (c2 := c_pipe _ c1).
  assert (∀ dd, head (d :: ds) = Some dd → dd = d) as Hd by (simpl; congruence).
  apply wp_bind, alctr_pa_wp. change (phys_of _ _ _) with (desc_phys (tcm_mem w) c d).
  destruct (Z.eqb_spec (desc_phys (tcm_mem w) c d) 0) as [E|E].
  { apply wp_ret. split; [apply Herr0; [done|by left]|]. intros _. split; [done|].
    intros ((_ & _ & d' & Hd' & ? & _) & _). by apply Hd in Hd' as ->. }
  rewrite ipa_iova_eq. destruct (Z.ltb_spec ioss_iova_ceiling (ipa_addr (m_daddr d) (desc_phys (tcm_mem w) c d))).
  { apply wp_ret. split; [apply Herr0; [done|by left]|]. intros _. split; [done|].
    intros ((_ & _ & d' & Hd' & _ & ?) & _). apply Hd in Hd' as ->. lia. }
  apply wp_bind. eapply w_pipe_wp; [by eapply at_put_ch|]. rewrite put_ch_put. set (c3 := c_pipe _ c2).
  apply wp_bind, next_result_wp. simpl results. rewrite put_ch_results. set (rs := tail (results w)).
  destruct (Z.eqb_spec (default 0 (head (results w))) 0) as [E0|E0]; cbn [negb].
  2:{ apply wp_bind. eapply w_pipe_wp; [by eapply at_put_ch|]. rewrite put_ch_put. apply wp_ret.
      split; [apply Herr; [done|by right|by right]|]. intros _. split; [done|]. by intros [_ ?]. }
  apply wp_bind. eapply wp_mono; [by apply (fill_buffers_wp _ _ _ []); simpl|]. intros r w' [-> Hr].
  change (tcm_mem (put_ch i c3 (if_results rs w))) with (tcm_mem w) in Hr.
  change (entry _ _ <$> _) with (entries (tcm_mem w) c) in Hr. simpl in Hr.
  destruct r as [rc|l]; simpl.
  - destruct Hr as [Hrc Hn]. apply wp_bind. eapply w_pipe_wp; [by eapply at_put_ch|]. rewrite put_ch_put.
    apply wp_ret. split; [apply Herr; [done|by right|by right]|]. intros _. split; [done|]. intros ((Hs & Hf & _) & _).
    destruct Hn. split; [|done]. unfold entries. by rewrite length_fmap.
  - destruct Hr as (-> & Hs & Hf). unfold entries in Hs. rewrite length_fmap in Hs.
    apply wp_bind. eapply w_pipe_wp; [by eapply at_put_ch|]. rewrite put_ch_put. set (c4 := c_pipe _ c3).
    assert (0 ≤ ring_size (config c) → (0 : Z) = 0 ↔ ((Z.of_nat (length (buff_list c)) ≤ ring_size (config c) ∧
       Forall entry_ok (entries (tcm_mem w) c) ∧
       ∃ d0, head (d :: ds) = Some d0 ∧ desc_phys (tcm_mem w) c d0 ≠ 0 ∧
         ipa_addr (m_daddr d0) (desc_phys (tcm_mem w) c d0) ≤ ioss_iova_ceiling) ∧
      default 0 (head (results w)) = 0)) as Hiff.
    { intros Hsz. split; [|done]. intros _. split; [|done]. split_and!; [by apply Hs|done|]. by exists d. }
    eapply (fill_tail_wp i c4); [done|by eapply at_put_ch|]. rewrite put_ch_put. split; [|exact Hiff].
    eexists _, rs. split; [done|]. split; [|split; [done|by right]]. intros _. exists d. split; [by rewrite Ed|].
    unfold described. simpl. by destruct (direction c).
Qed.

(** C36: Describing a channel of the r8125 succeeds exactly when its first
    descriptor memory and every buffer has a physical address and can be
    given an address IPA reaches, the buffers fit the ring size and the list
    can be allocated. Then the pipe is, field by field, the function
    [described] of the channel's memory lists (the buffers in order, then
    zeroed entries up to the ring size), where a device address above the
    ceiling is masked with the ceiling and the physical address is used only if
    that leaves nothing, unlike what the comment above the parameter, its
    description and the report of 2026-04-16 say; otherwise no list is left behind, and
    nothing but the channel's pipe changes in any case. *)
Theorem fill_pipe_info_spec i c w : driver_name = "r8125"%string → channels w !! i = Some c →
  0 ≤ ring_size (config c) →
  wp (ioss_ipa_fill_pipe_info i) (λ rc w', filled i c w rc w' ∧
    (rc = 0 ↔ describable (tcm_mem w) c ∧ default 0 (head (results w)) = 0)) w.
Proof.
  intros Hd Hc Hsz. eapply wp_mono; [by apply fill_pipe_info_wp|]. intros rc w' [? Hiff].
  split; [done|]. by apply Hiff.
Qed.
End fill_spec.
