(* ===== verification/IossIpaLaws.v ===== *)
(** * IOSS: registering with IPA, correctness

    Registering either brings the client up (pipes connected, doorbells handed
    to the channels, interface registered) or takes it down again, on every
    error path; unregistering undoes it. The implementation as an instance of
    the contract the interface relies on. *)
From stdpp Require Import base tactics list gmap strings numbers.
From Stdlib Require Import ZArith Lia.
From S2P Require Import Prelude IossUtils RtlLib IossData IossLaws IossMem IossNet IossIpa IossIpaSpec.

Section laws.
Context `{IossApi} `{IpaParams}.

(** ** Walks over the channels *)
Lemma for_channels_upd (f : nat → W unit) (g : nat → ioss_channel → ioss_channel) l1 l2 w :
  (∀ i c w, channels w !! i = Some c → f i w = Some (tt, put_ch i (g i c) w)) →
  channels w = l1 ++ l2 →
  wp (for_channels f (seq (length l1) (length l2)))
    (λ _ w', w' = if_channels (l1 ++ imap (λ k, g (length l1 + k)%nat) l2) w) w.
Proof.
  intros Hf. revert l1 w. induction l2 as [|c l2 IH]; intros l1 w Hl; simpl.
  { apply wp_ret. rewrite <- Hl. by destruct w. }
  assert (channels w !! length l1 = Some c) as Hc by (rewrite Hl; by apply list_lookup_middle).
  apply wp_bind. unfold wp at 1. rewrite (Hf _ _ _ Hc). set (w1 := put_ch _ _ w).
  assert (channels w1 = (l1 ++ [g (length l1) c]) ++ l2) as Hw1.
  { simpl. rewrite Hl, insert_app_r_alt by lia. rewrite Nat.sub_diag. simpl. by rewrite <- app_assoc. }
  specialize (IH (l1 ++ [g (length l1) c]) w1 Hw1). rewrite length_app in IH. simpl in IH.
  rewrite Nat.add_1_r in IH. eapply wp_mono; [exact IH|]. intros [] w' ->.
  change (if_channels ?l w1) with (if_channels l w). rewrite <- app_assoc. simpl. rewrite Nat.add_0_r.
  do 3 f_equal.
  apply imap_ext. intros k x _. simpl. f_equal. lia.
Qed.

Lemma all_channels_upd f g w :
  (∀ i c w, channels w !! i = Some c → f i w = Some (tt, put_ch i (g i c) w)) →
  wp (for_channels f (seq 0 (length (channels w)))) (λ _ w', w' = if_channels (imap g (channels w)) w) w.
Proof. intros Hf. exact (for_channels_upd f g [] (channels w) w Hf eq_refl). Qed.

Lemma upd_ch_run i g c w : channels w !! i = Some c → upd_ch i g w = Some (tt, put_ch i (g c) w).
Proof. intros Hc. unfold upd_ch, get_ch, bind, gets, lift_opt, modify. simpl. by rewrite Hc. Qed.

Definition door (d : Z * Z) (c : ioss_channel) : ioss_channel := c_event (e_door d.1 d.2 (event c)) c.

(** ** What the client's calls leave alone *)
Lemma ipa_frame_refl w : ipa_frame w w.
Proof. by unfold ipa_frame, drv_same. Qed.
Lemma ipa_frame_trans w1 w2 w3 : ipa_frame w1 w2 → ipa_frame w2 w3 → ipa_frame w1 w3.
Proof.
  unfold ipa_frame, drv_same. intros ((?&?&?)&?&?&?&?&?&?) ((?&?&?)&?&?&?&?&?&?). split_and!; congruence.
Qed.
Lemma ipa_frame_map (g : nat → ioss_channel → ioss_channel) w :
  (∀ i c, drv_view (g i c) = drv_view c ∧ ipa_view (g i c) = ipa_view c) →
  ipa_frame w (if_channels (imap g (channels w)) w).
Proof.
  intros Hg. unfold ipa_frame, drv_same. simpl.
  assert (∀ {A} (v : ioss_channel → A), (∀ i c, v (g i c) = v c) → v <$> imap g (channels w) = v <$> channels w)
    as Hmap.
  { intros A v Hv. apply list_eq. intros k. rewrite !list_lookup_fmap, list_lookup_imap.
    destruct (channels w !! k); simpl; [by rewrite Hv|done]. }
  split_and!; try done; apply Hmap; intros; apply Hg.
Qed.
Lemma ipa_frame_put i c p w : channels w !! i = Some c → ipa_frame w (put_ch i (c_pipe p c) w).
Proof. intros Hc. split; [by apply (drv_same_put i c)|]. split; [by apply (view_put _ i c)|done]. Qed.

(** ** The state of the client *)
Definition doors (f : nat → Z * Z) (w : iface) : Prop :=
  ∀ i c, channels w !! i = Some c → (ev_paddr (event c), ev_data (event c)) = f i.
Definition no_doors : nat → Z * Z := λ _, (0, 0).

(** Everything but the pipes: what is connected and registered, the doorbells. *)
Definition link (conn reg : bool) (f : nat → Z * Z) (w : iface) : Prop :=
  il_conn (ipa_client w) = conn ∧ il_reg (ipa_client w) = reg ∧ doors f w.

Lemma link_doors conn reg f g w :
  link conn reg f w → link conn reg g (if_channels (imap (λ i, door (g i)) (channels w)) w).
Proof.
  intros (? & ? & _). split_and!; [done..|]. intros i c Hc. simpl in Hc.
  rewrite list_lookup_imap in Hc. destruct (channels w !! i) as [c0|]; [|done]. simpl in Hc.
  injection Hc as <-. simpl. by destruct (g i).
Qed.
Lemma link_pipes conn reg f g w : (∀ i c, event (g i c) = event c) →
  link conn reg f w → link conn reg f (if_channels (imap g (channels w)) w).
Proof.
  intros Hg (? & ? & Hd). split_and!; [done..|]. intros i c Hc. simpl in Hc.
  rewrite list_lookup_imap in Hc. destruct (channels w !! i) as [c0|] eqn:E; [|done]. simpl in Hc.
  injection Hc as <-. rewrite Hg. by apply Hd.
Qed.

(** [P] holds of the state reached, which differs from [w0] within the frame. *)
Definition reached (w0 : iface) (P : iface → Prop) (w : iface) : Prop := ipa_frame w0 w ∧ P w.

Section steps.
Context (w0 : iface).

(** What a step does to the rest: the client's record is kept, calls are added. *)
Definition kept_client (w w' : iface) : Prop := ipa_client w' = ipa_client w ∧ calls w' = calls w.
(** No pipe is described any more. *)
Definition dropped (w : iface) : Prop := Forall (λ c, ipa_pi c = no_pipe) (channels w).

Lemma client_wp b w conn reg f : reached w0 (link conn reg f) w →
  wp (set_client (l_client b)) (λ _ w', reached w0 (link conn reg f) w' ∧ channels w' = channels w ∧
    calls w' = calls w ∧ ipa_client w' = l_client b (ipa_client w) ∧ results w' = results w) w.
Proof. intros Hr. apply wp_modify. split; [exact Hr|done]. Qed.

(** A call that sets one of the two marks when it succeeds. *)
Definition marks (m : W Z) (conn reg conn' reg' : bool) : Prop := ∀ f w,
  reached w0 (link conn reg f) w →
  wp m (λ rc w', reached w0 (link (if rc =? 0 then conn' else conn) (if rc =? 0 then reg' else reg) f) w' ∧
    channels w' = channels w ∧ il_client (ipa_client w') = il_client (ipa_client w)) w.

Lemma mark_call c g conn reg conn' reg' :
  (∀ l, il_conn l = conn → il_reg l = reg → il_conn (g l) = conn' ∧ il_reg (g l) = reg' ∧ il_client (g l) = il_client l) →
  marks (callout c ;; (let* rc := result in (if rc =? 0 then set_client g else ret tt) ;; ret rc))
    conn reg conn' reg'.
Proof.
  intros Hg f w (Hf & H1 & H2 & Hd). apply wp_bind, callout_wp, wp_bind, result_wp. intros z rs.
  apply wp_bind. destruct (Hg (ipa_client w) H1 H2) as (G1 & G2 & G3). destruct (z =? 0) eqn:E.
  - apply wp_modify, wp_ret. rewrite E. done.
  - apply wp_ret, wp_ret. rewrite E. done.
Qed.

Lemma conn_marks reg : marks ipa_eth_client_conn_pipes false reg true reg.
Proof.
  intros f w Hw. unfold ipa_eth_client_conn_pipes. apply wp_bind, wp_gets.
  by apply (mark_call _ _ false reg true reg); [intros [] ?|].
Qed.
Lemma reg_marks conn : marks ipa_eth_client_reg_intf conn false conn true.
Proof. apply mark_call. by intros [] ?. Qed.

(** Taking down, with the answer. *)
Lemma disconn_wp reg f w : reached w0 (link true reg f) w →
  wp ipa_eth_client_disconn_pipes (λ rc w', reached w0 (link (if rc =? 0 then false else true) reg f) w' ∧
    channels w' = channels w ∧ il_disconn (ipa_client w') = rc) w.
Proof.
  intros (Hf & H1 & H2 & Hd). apply wp_bind, callout_wp, wp_bind, result_wp. intros z rs. apply wp_bind, wp_modify, wp_ret.
  split; [|done]. split; [done|]. unfold link. simpl. rewrite H1. done.
Qed.
Lemma unreg_wp conn f w : reached w0 (link conn true f) w →
  wp ipa_eth_client_unreg_intf (λ rc w', reached w0 (link conn (if rc =? 0 then false else true) f) w' ∧
    channels w' = channels w ∧ il_unreg (ipa_client w') = rc) w.
Proof.
  intros (Hf & H1 & H2 & Hd). apply wp_bind, callout_wp, wp_bind, result_wp. intros z rs. apply wp_bind, wp_modify, wp_ret.
  split; [|done]. split; [done|]. unfold link. simpl. rewrite H2. done.
Qed.

Lemma vote_wp conn reg f w : reached w0 (link conn reg f) w →
  wp ioss_ipa_vote_bw (λ _ w', reached w0 (link conn reg f) w' ∧ channels w' = channels w ∧ ipa_client w' = ipa_client w) w.
Proof.
  intros Hw. unfold ioss_ipa_vote_bw. apply wp_bind, wp_gets, wp_bind, callout_wp, wp_bind, result_wp.
  intros z rs. destruct (negb _); by apply wp_ret.
Qed.

Lemma set_doors_wp g conn reg f n w : reached w0 (link conn reg f) w → n = length (channels w) →
  wp (for_channels (λ i, set_door (g i).1 (g i).2 i) (seq 0 n)) (λ _ w',
    reached w0 (link conn reg g) w' ∧ channels w' = imap (λ i, door (g i)) (channels w) ∧ kept_client w w') w.
Proof.
  intros [Hf Hl] ->. eapply wp_mono; [apply (all_channels_upd _ (λ i, door (g i)))|].
  { intros i c w' Hc. by apply upd_ch_run. }
  intros [] w' ->. split; [|done]. split; [|by eapply link_doors].
  eapply ipa_frame_trans; [exact Hf|]. apply ipa_frame_map. intros i [???? [] ????????]. done.
Qed.

Lemma dropped_imap (g : nat → ioss_channel → ioss_channel) w :
  (∀ i c, ipa_pi (g i c) = no_pipe) → dropped (if_channels (imap g (channels w)) w).
Proof.
  intros Hg. apply Forall_lookup. intros i c Hc. simpl in Hc. rewrite list_lookup_imap in Hc.
  destruct (channels w !! i); [|done]. by injection Hc as <-.
Qed.
Lemma drop_pipes_wp conn reg f n w : reached w0 (link conn reg f) w → n = length (channels w) →
  wp (for_channels drop_pipe (seq 0 n)) (λ _ w', reached w0 (link conn reg f) w' ∧ dropped w' ∧ kept_client w w') w.
Proof.
  intros [Hf Hl] ->. eapply wp_mono; [apply (all_channels_upd _ (λ _, c_pipe no_pipe))|].
  { intros i c w' Hc. unfold drop_pipe, w_pipe. by apply upd_ch_run. }
  intros [] w' ->. split; [|split; [by apply dropped_imap|done]]. split; [|by apply link_pipes].
  eapply ipa_frame_trans; [exact Hf|]. by apply ipa_frame_map.
Qed.
End steps.

(** ** The preflight of all pipes *)
Definition to_ipa (p : pipe_info) : bool := match pi_dir p with Some IPA_ETH_PIPE_DIR_RX => false | _ => true end.
(** Every pipe passes, and there is one of each direction. *)
Definition client_ok (ps : list pipe_info) : Prop :=
  Forall (λ p, ioss_ipa_preflight_pipe p = Some 0) ps ∧
  Exists (λ p, to_ipa p = true) ps ∧ Exists (λ p, to_ipa p = false) ps.

Lemma preflight_defined p : covers p → is_Some (ioss_ipa_preflight_pipe p).
Proof.
  intros (l & Hl & Hn). unfold ioss_ipa_preflight_pipe. rewrite Hl.
  destruct (negb _); [by eexists|]. destruct (_ || _); [by eexists|].
  generalize (if negb (ioss_trb_align =? 0) && negb (Z.land (transfer_ring_base p) (ioss_trb_align - 1) =? 0)
    then - EINVAL else 0). intros rc. destruct (_ || _); [by eexists|].
  assert (Z.to_nat (data_buff_list_size p) ≤ length l)%nat as Hk by lia.
  generalize dependent (Z.to_nat (data_buff_list_size p)). clear Hl Hn.
  generalize (u32 (transfer_ring_base p + transfer_ring_size p)). intros e k Hk. revert k Hk.
  induction l as [|b l IH]; intros [|k] Hk; simpl in *; try (by eexists); [lia|].
  destruct (_ || _); [by eexists|]. destruct (_ <? _); [by eexists|].
  destruct (negb _); [by eexists|]. apply IH. lia.
Qed.

Lemma preflight_channels_wp l rc tx rx : Forall (λ c, covers (ipa_pi c)) l →
  ∃ rc' tx' rx', preflight_channels l rc tx rx = Some (rc', tx', rx') ∧
    (rc' = 0 → rc = 0 ∧ Forall (λ p, ioss_ipa_preflight_pipe p = Some 0) (ipa_pi <$> l)) ∧
    (tx' ≠ 0%nat → tx ≠ 0%nat ∨ Exists (λ p, to_ipa p = true) (ipa_pi <$> l)) ∧
    (rx' ≠ 0%nat → rx ≠ 0%nat ∨ Exists (λ p, to_ipa p = false) (ipa_pi <$> l)).
Proof.
  intros Hl. revert rc tx rx. induction Hl as [|c l Hc Hl IH]; intros rc tx rx; cbn [preflight_channels].
  { exists rc, tx, rx. split_and!; auto. }
  destruct (preflight_defined _ Hc) as [prc Hp]. rewrite Hp. cbn [mbind option_bind].
  edestruct IH as (rc' & tx' & rx' & -> & Hrc & Htx & Hrx). exists rc', tx', rx'. rewrite fmap_cons.
  split_and!; [done|..].
  - intros E. specialize (Hrc E) as [Hz Hf]. destruct (Z.eqb_spec prc 0) as [->|]; simpl in Hz; [|done].
    split; [done|]. by constructor.
  - intros E. specialize (Htx E) as [Hz|He]; [|right; by apply Exists_cons_tl].
    destruct (to_ipa (ipa_pi c)) eqn:Et; [right; by apply Exists_cons_hd|left].
    unfold to_ipa in Et. by destruct (pi_dir (ipa_pi c)) as [[]|].
  - intros E. specialize (Hrx E) as [Hz|He]; [|right; by apply Exists_cons_tl].
    destruct (to_ipa (ipa_pi c)) eqn:Et; [left|right; by apply Exists_cons_hd].
    unfold to_ipa in Et. by destruct (pi_dir (ipa_pi c)) as [[]|].
Qed.

Lemma preflight_client_wp w : Forall (λ c, covers (ipa_pi c)) (channels w) →
  wp ioss_ipa_preflight_client (λ rc w', w' = w ∧ (rc = 0 → client_ok (ipa_pi <$> channels w))) w.
Proof.
  intros Hl. unfold ioss_ipa_preflight_client. apply wp_bind, wp_gets.
  destruct (preflight_channels_wp _ 0 0 0 Hl) as (rc & tx & rx & E & Hrc & Htx & Hrx).
  apply wp_bind. eapply wp_lift_opt; [exact E|]. apply wp_ret. split; [done|]. intros Hz.
  destruct (Nat.eqb_spec tx 0), (Nat.eqb_spec rx 0), (Z.eqb_spec rc 0); simpl in Hz; try done.
  split_and!; [by apply Hrc| |]; [destruct Htx as [?|?]|destruct Hrx as [?|?]]; done.
Qed.

(** ** Describing all channels *)
(** One of the channels [l] cannot be described, or an answer to come is an
    error, so that an allocation may fail. *)
Definition unable (l : list nat) (w : iface) : Prop :=
  (∃ i c, i ∈ l ∧ channels w !! i = Some c ∧ (0 ≤ ring_size (config c) → ¬ describable (tcm_mem w) c)) ∨
  Exists (λ rc, rc ≠ 0) (results w).

Context (is_r8125 : driver_name = "r8125"%string).

Lemma fill_channels_wp w0 conn reg f l w : reached w0 (link conn reg f) w → NoDup l →
  (∀ i, i ∈ l → i < length (channels w))%nat →
  wp (fill_channels l) (λ ok w', reached w0 (link conn reg f) w' ∧
    (∀ j, j ∉ l → channels w' !! j = channels w !! j) ∧ length (channels w') = length (channels w) ∧ kept_client w w' ∧
    (ok = true → ∀ j c, j ∈ l → channels w' !! j = Some c → covers (ipa_pi c)) ∧ (ok = false → unable l w)) w.
Proof.
  revert w. induction l as [|i l IH]; intros w Hw Hnd Hin; simpl.
  { apply wp_ret. split_and!; try done. intros _ j c Hj. by apply elem_of_nil in Hj. }
  inversion_clear Hnd as [|? ? Hi Hnd'].
  destruct (lookup_lt_is_Some_2 (channels w) i) as [c Hc]; [apply Hin; set_solver|].
  apply wp_bind. eapply w_pipe_wp; [done|]. set (c1 := c_pipe _ c).
  assert (∀ p rs, reached w0 (link conn reg f) (put_ch i (c_pipe p c) (if_results rs w))) as Hput.
  { intros p rs. destruct Hw as (Hf & H1 & H2 & Hd). split.
    - eapply ipa_frame_trans; [exact Hf|]. by apply (ipa_frame_put i c p (if_results rs w)).
    - split_and!; [done..|]. intros j cj Hcj. simpl in Hcj.
      apply list_lookup_insert_Some in Hcj as [(<- & <- & _)|[_ Hcj]]; [by apply (Hd _ c)|by apply Hd]. }
  assert (∀ p rs, length (channels (put_ch i (c_pipe p c) (if_results rs w))) = length (channels w)) as Hlen
    by (intros; simpl; by rewrite length_insert).
  apply wp_bind. eapply wp_mono; [eapply (fill_pipe_info_wp i c1); [done|by eapply at_put_ch]|].
  intros rc w' [(p & rs & -> & Hok & _ & Hrs) Hiff]. rewrite put_ch_results, put_ch_put.
  change (c_pipe p c1) with (c_pipe p c).
  assert (∀ j, j ≠ i → channels (put_ch i (c_pipe p c) (if_results rs w)) !! j = channels w !! j) as Hoth
    by (intros; simpl; by rewrite list_lookup_insert_ne).
  destruct (Z.eqb_spec rc 0) as [->|Hrc]; simpl.
  2:{ apply wp_ret. split_and!; [apply Hput|intros j Hj; apply Hoth; set_solver|apply Hlen|done|done|intros _].
      destruct (decide (default 0 (head (results w)) = 0)) as [E0|E0].
      - left. exists i, c. split; [by left|]. split; [done|]. intros Hsz Hdb. apply Hrc. by apply (Hiff Hsz).
      - right. destruct (results w); [done|by left]. }
  eapply wp_mono; [apply IH; [apply Hput|exact Hnd'|]|].
  { intros j Hj. rewrite Hlen. apply Hin. set_solver. }
  intros ok w' (Hr & Hsame & Hl & Hkc & Hcov & Hun). split_and!; [done| |by rewrite Hl|exact Hkc| |].
  - intros j Hj. rewrite Hsame by set_solver. apply Hoth. set_solver.
  - intros Hk j cj Hj Hcj. apply elem_of_cons in Hj as [->|Hj]; [|by eapply Hcov].
    rewrite Hsame in Hcj by done. rewrite (at_put_ch i c) in Hcj by done. injection Hcj as <-.
    destruct (Hok eq_refl) as (d & _ & ->). apply described_covers.
  - intros Hk. destruct (Hun Hk) as [(j & cj & Hj & Hcj & Hd)|He]; [left|right].
    + assert (j ≠ i) as Hji by set_solver. rewrite Hoth in Hcj by done. exists j, cj. split; [by right|]. split; [done|exact Hd].
    + simpl in He. destruct Hrs as [-> | ->]; [done|]. revert He. simpl. destruct (results w); simpl; [done|by right].
Qed.

(** ** Registering *)
Context (registers : ioss_skip_ipa_register = false).

(** The pipes stay connected because the IPA driver refused to disconnect them. *)
Definition refused_conn (w : iface) : Prop := il_conn (ipa_client w) = true → il_disconn (ipa_client w) ≠ 0.
(** No pipe is left; or no call was made because a channel could not be
    described. *)
Definition undescribed (w0 w : iface) : Prop :=
  dropped w ∨ calls w = calls w0 ∧ unable (seq 0 (length (channels w0))) w0.
(** Failed: not registered, no doorbell, no client; the pipes are connected only
    if disconnecting them failed, and described only if another could not be. *)
Definition failed (w0 w : iface) : Prop := ipa_frame w0 w ∧
  (link false false no_doors w ∨ link true false no_doors w ∧ il_disconn (ipa_client w) ≠ 0) ∧
  il_client (ipa_client w) = false ∧ undescribed w0 w.
Definition succeeded (w0 w : iface) : Prop := reached w0 (link true true doorbell) w ∧ il_client (ipa_client w) = true ∧
  (ioss_preflight_strict = true → client_ok (ipa_pi <$> channels w)).

Section error_paths.
Context (w0 : iface).
Local Abbreviation err_info := (set_client (l_client false) ;; ret (- EINVAL) : W Z).
Local Abbreviation err_conn l := (for_channels drop_pipe l ;; err_info : W Z).
Local Abbreviation err_vote l := (let* _ := ipa_eth_client_disconn_pipes in err_conn l : W Z).
Local Abbreviation err_reg l := (for_channels (set_door 0 0) l ;; err_vote l : W Z).

Lemma frame_length w : ipa_frame w0 w → length (channels w) = length (channels w0).
Proof. intros (_ & Hv & _). apply (f_equal length) in Hv. by rewrite !length_fmap in Hv. Qed.

Lemma err_info_wp conn w : reached w0 (link conn false no_doors) w → refused_conn w → undescribed w0 w →
  wp err_info (λ rc w', rc ≠ 0 ∧ failed w0 w') w.
Proof.
  intros Hw Href Hu. apply wp_bind. eapply wp_mono; [by apply client_wp|]. intros [] w1 ([Hf Hl] & Hch & Hcl & Hcc & _).
  apply wp_ret. split; [done|]. split; [done|]. split; [|split; [by rewrite Hcc|unfold undescribed, dropped in *; by rewrite Hcl, Hch]].
  destruct conn; [right|by left]. split; [done|]. rewrite Hcc. apply Href. destruct Hw as (_ & E & _). done.
Qed.
Lemma err_conn_wp conn w : reached w0 (link conn false no_doors) w → refused_conn w →
  wp (err_conn (seq 0 (length (channels w0)))) (λ rc w', rc ≠ 0 ∧ failed w0 w') w.
Proof.
  intros Hw Href. apply wp_bind. eapply wp_mono; [eapply drop_pipes_wp; [exact Hw|symmetry; apply frame_length, Hw]|].
  intros [] w1 (Hw1 & Hd & Hc & _). eapply err_info_wp; [done| |by left]. unfold refused_conn. by rewrite Hc.
Qed.
Lemma refused_down reg f w : link false reg f w → refused_conn w.
Proof. intros (E & _) E'. congruence. Qed.
Lemma err_vote_wp w : reached w0 (link true false no_doors) w →
  wp (err_vote (seq 0 (length (channels w0)))) (λ rc w', rc ≠ 0 ∧ failed w0 w') w.
Proof.
  intros Hw. apply wp_bind. eapply wp_mono; [by apply (disconn_wp w0 false)|].
  intros rc w1 (Hw1 & _ & Ed). eapply err_conn_wp; [done|]. destruct (Z.eqb_spec rc 0); [by eapply refused_down, Hw1|].
  intros _. congruence.
Qed.
Lemma err_reg_wp f w : reached w0 (link true false f) w →
  wp (err_reg (seq 0 (length (channels w0)))) (λ rc w', rc ≠ 0 ∧ failed w0 w') w.
Proof.
  intros Hw. apply wp_bind. eapply wp_mono;
    [apply (set_doors_wp w0 no_doors true false f); [exact Hw|symmetry; apply frame_length, Hw]|].
  intros [] w1 [Hw1 _]. by apply err_vote_wp.
Qed.

(** Connecting, voting, handing out the doorbells and registering. *)
Lemma connect_wp w : reached w0 (link false false no_doors) w → il_client (ipa_client w) = true →
  (ioss_preflight_strict = true → client_ok (ipa_pi <$> channels w)) →
  wp (let* rc := ipa_eth_client_conn_pipes in
      if negb (rc =? 0) then err_conn (seq 0 (length (channels w0)))
      else
        let* rc := ioss_ipa_vote_bw in
        if negb (rc =? 0) then err_vote (seq 0 (length (channels w0)))
        else
          for_channels (λ i, set_door (doorbell i).1 (doorbell i).2 i) (seq 0 (length (channels w0))) ;;
          let* rc := ipa_eth_client_reg_intf in
          if negb (rc =? 0) then err_reg (seq 0 (length (channels w0))) else ret 0)
    (λ rc w', if rc =? 0 then succeeded w0 w' else failed w0 w') w.
Proof.
  intros Hw Hcl Hpre.
  assert (∀ m w, wp m (λ rc w', rc ≠ 0 ∧ failed w0 w') w →
    wp m (λ rc w', if rc =? 0 then succeeded w0 w' else failed w0 w') w) as Hfail.
  { intros m w' Hm. eapply wp_mono; [exact Hm|]. intros rc w'' [Hrc Hf]. by destruct (Z.eqb_spec rc 0). }
  apply wp_bind. eapply wp_mono; [by apply (conn_marks w0 false)|].
  intros rc w1 (Hw1 & E1 & C1). destruct (rc =? 0); cbn [negb]; [|by eapply Hfail, err_conn_wp, refused_down, Hw1].
  apply wp_bind. eapply wp_mono; [by eapply vote_wp|].
  intros rc2 w2 (Hw2 & E2 & C2). destruct (rc2 =? 0); cbn [negb]; [|by eapply Hfail, err_vote_wp].
  apply wp_bind. eapply wp_mono; [apply (set_doors_wp w0 doorbell true false no_doors);
    [exact Hw2|symmetry; apply frame_length, Hw2]|]. intros [] w3 (Hw3 & E3 & C3 & _).
  apply wp_bind. eapply wp_mono; [by apply (reg_marks w0 true)|].
  intros rc4 w4 (Hw4 & E4 & C4). destruct (rc4 =? 0); cbn [negb]; [|by eapply Hfail, err_reg_wp].
  apply wp_ret. simpl. split; [done|]. split; [congruence|]. intros Hs. specialize (Hpre Hs).
  replace (ipa_pi <$> channels w4) with (ipa_pi <$> channels w); [done|].
  rewrite E4, E3, E2, E1. apply list_eq. intros k. rewrite !list_lookup_fmap, list_lookup_imap.
  by destruct (channels w !! k).
Qed.
End error_paths.

Lemma register_impl_wp w : link false false no_doors w →
  wp ioss_ipa_register_impl (λ rc w', if rc =? 0 then succeeded w w' else failed w w') w.
Proof.
  intros Hl. unfold ioss_ipa_register_impl. rewrite registers.
  assert (∀ m w', wp m (λ rc w', rc ≠ 0 ∧ failed w w') w' →
    wp m (λ rc w', if rc =? 0 then succeeded w w' else failed w w') w') as Hfail.
  { intros m w' Hm. eapply wp_mono; [exact Hm|]. intros rc w'' [Hrc Hf]. by destruct (Z.eqb_spec rc 0). }
  assert (reached w (link false false no_doors) w) as Hw by (split; [apply ipa_frame_refl|done]).
  apply wp_bind. eapply wp_mono; [by apply client_wp|]. intros [] w1 (Hw1 & E1 & K1 & C1 & R1).
  unfold ioss_ipa_hal_get_ctype. rewrite is_r8125. simpl. unfold all_channels. apply wp_bind, wp_gets. rewrite E1.
  apply wp_bind. eapply wp_mono; [apply fill_channels_wp; [exact Hw1|apply NoDup_seq|]|].
  { intros i Hi. apply elem_of_seq in Hi. rewrite E1. lia. }
  intros ok w2 (Hw2 & _ & Hlen & [C2 K2] & Hcov & Hun). assert (Hr2 : refused_conn w2) by apply (refused_down _ _ _ (proj2 Hw2)).
  assert (ok = false → unable (seq 0 (length (channels w))) w) as Hun1.
  { intros Hk. specialize (Hun Hk). unfold unable in *. rewrite E1, R1 in Hun.
    destruct Hw1 as [(_ & _ & _ & _ & Et & _) _]. by rewrite Et in Hun. }
  destruct ok; cbn [negb]; [|eapply Hfail, err_info_wp; [done|done|right; split; [congruence|by apply Hun1]]].
  assert (Forall (λ c, covers (ipa_pi c)) (channels w2)) as Hall.
  { apply Forall_lookup. intros j c Hc. apply (Hcov eq_refl j c); [|done].
    apply elem_of_seq. apply lookup_lt_Some in Hc. rewrite E1 in Hlen. lia. }
  apply wp_bind. eapply wp_mono; [by apply preflight_client_wp|]. intros rc w3 [-> Hok].
  destruct (negb (rc =? 0) && ioss_preflight_strict) eqn:Es; [by eapply Hfail, err_conn_wp|].
  destruct ioss_preflight_only; [by eapply Hfail, err_conn_wp|].
  destruct ioss_skip_conn_pipes; [by eapply Hfail, err_conn_wp|].
  apply connect_wp; [done|by rewrite C2, C1|]. intros Hs. apply Hok. rewrite Hs, andb_true_r in Es.
  apply negb_false_iff, Z.eqb_eq in Es. done.
Qed.

(** Stuck: connected after disconnecting was refused, or registered after
    unregistering was. *)
Definition stuck (w : iface) : Prop :=
  il_conn (ipa_client w) = true ∧ il_disconn (ipa_client w) ≠ 0 ∨
  il_reg (ipa_client w) = true ∧ il_unreg (ipa_client w) ≠ 0.

Lemma unregister_impl_wp f w : link true true f w →
  wp ioss_ipa_unregister_impl (λ rc w', if rc =? 0
    then reached w (link false false no_doors) w' ∧ il_client (ipa_client w') = false ∧ dropped w'
    else ipa_frame w w' ∧ stuck w' ∧
      (link true true f w' ∧ il_disconn (ipa_client w') = rc ∨ link false true f w' ∧ il_unreg (ipa_client w') = rc)) w.
Proof.
  intros Hl. unfold ioss_ipa_unregister_impl. rewrite registers.
  assert (reached w (link true true f) w) as Hw by (split; [apply ipa_frame_refl|done]).
  apply wp_bind. eapply wp_mono; [by apply (disconn_wp w true)|]. intros rc w1 (Hw1 & E1 & D1).
  destruct (rc =? 0) eqn:E; cbn [negb].
  2:{ apply wp_ret. rewrite E. apply Z.eqb_neq in E. destruct Hw1 as [Hf1 Hl1]. split; [done|]. split; [left; split; [apply Hl1|congruence]|by left]. }
  apply wp_bind. eapply wp_mono; [by apply (unreg_wp w false)|]. intros rc2 w2 (Hw2 & E2 & D2).
  destruct (rc2 =? 0) eqn:E'; cbn [negb].
  2:{ apply wp_ret. rewrite E'. apply Z.eqb_neq in E'. destruct Hw2 as [Hf2 Hl2]. split; [done|]. split; [right; split; [apply Hl2|congruence]|by right]. }
  unfold all_channels. apply wp_bind, wp_gets, wp_bind.
  eapply wp_mono; [apply (all_channels_upd _ (λ _ c, c_pipe no_pipe (door (0, 0) c)))|].
  { intros i c w' Hc. unfold set_door, drop_pipe, w_pipe. unfold bind. rewrite (upd_ch_run _ _ _ _ Hc).
    erewrite upd_ch_run by by eapply at_put_ch. by rewrite put_ch_put. }
  intros [] w3 ->. destruct Hw2 as [Hf2 (H1 & H2 & _)].
  apply wp_bind. eapply wp_mono; [apply (client_wp w false _ false false no_doors)|].
  { split.
    - eapply ipa_frame_trans; [exact Hf2|]. apply ipa_frame_map. by intros i [???? [] ????????].
    - split_and!; [done..|]. intros i c Hc. simpl in Hc. rewrite list_lookup_imap in Hc.
      destruct (channels w2 !! i); [|done]. by injection Hc as <-. }
  intros [] w4 (Hw4 & E4 & _ & C4 & _). apply wp_ret. simpl. split; [done|]. split; [by rewrite C4|].
  unfold dropped. rewrite E4. by apply (dropped_imap _ w2).
Qed.

(** ** The contract *)
Definition client_rep (ph : ipa_phase) (w : iface) : Prop :=
  match ph with
  | IpaDown => link false false no_doors w
  | IpaUp => link true true doorbell w ∧
      (ioss_preflight_strict = true → client_ok (ipa_pi <$> channels w))
  | IpaStuck => stuck w
  end.

Lemma client_stable ph w w' : ipa_same w w' → client_rep ph w → client_rep ph w'.
Proof.
  intros [Hv Hc].
  assert (∀ f, doors f w → doors f w') as Hd.
  { intros f Hd i c Hci. apply (f_equal (lookup i)) in Hv. rewrite !list_lookup_fmap, Hci in Hv.
    destruct (channels w !! i) as [c0|] eqn:E; [|done]. simpl in Hv. injection Hv as E1 E2 _.
    rewrite E1, E2. by apply Hd. }
  assert (ipa_pi <$> channels w' = ipa_pi <$> channels w) as Hp.
  { apply list_eq. intros i. apply (f_equal (lookup i)) in Hv. rewrite !list_lookup_fmap in *.
    destruct (channels w' !! i), (channels w !! i); simpl in *; congruence. }
  unfold client_rep, link, stuck. rewrite Hc, Hp. destruct ph; [|intros [? ?]|done]; naive_solver.
Qed.

Definition ipa_client_laws : @IpaLaws ioss_ipa_ops.
Proof.
  refine {| ipa_rep := client_rep; ipa_stable := client_stable |}.
  - intros w Hw. eapply wp_mono; [by apply register_impl_wp|]. intros rc w' Hr. cbv beta in Hr. destruct (rc =? 0).
    + destruct Hr as ([Hf Hl] & _ & Hp). by split_and!.
    + destruct Hr as (Hf & [Hl|[Hl Hd]] & _); (split; [done|]); [by left|]. right. left. split; [apply Hl|done].
  - intros w [Hw _]. eapply wp_mono; [by eapply unregister_impl_wp|]. intros rc w' Hr. cbv beta in Hr. destruct (rc =? 0).
    + destruct Hr as ([Hf Hl] & _). by split.
    + destruct Hr as (Hf & Hst & _). by split.
Defined.
End laws.

(** C10: With the pipes down, the interface unregistered and no doorbells,
    registering is defined and all or nothing: it returns 0 with the pipes
    connected, the interface registered, every channel holding its doorbell
    and, in strict mode, every pipe past the preflight with one of each
    direction; on any of its seven failures it returns nonzero, unregistered,
    with no doorbell and no client, the pipes connected only if the IPA driver
    was asked to disconnect them and refused, and no pipe described, but for
    those described before one that cannot be (or finds no memory), which
    leaves before any call is made. Unregistering undoes it, or the IPA driver refused to disconnect
    the pipes or to unregister, and the answer is returned. Neither
    touches anything the network driver or the interface keeps. *)
Theorem ipa_registration_spec `{IossApi} `{IpaParams} :
  driver_name = "r8125"%string → ioss_skip_ipa_register = false →
  (∀ w, link false false no_doors w → wp ioss_ipa_register_impl (λ rc w', ipa_frame w w' ∧
     if rc =? 0
     then link true true doorbell w' ∧ il_client (ipa_client w') = true ∧
          (ioss_preflight_strict = true → client_ok (ipa_pi <$> channels w'))
     else (link false false no_doors w' ∨ link true false no_doors w' ∧ il_disconn (ipa_client w') ≠ 0) ∧
          il_client (ipa_client w') = false ∧
          (dropped w' ∨ calls w' = calls w ∧ unable (seq 0 (length (channels w))) w)) w) ∧
  (∀ w, link true true doorbell w → wp ioss_ipa_unregister_impl (λ rc w', ipa_frame w w' ∧
     if rc =? 0 then link false false no_doors w' ∧ il_client (ipa_client w') = false ∧ dropped w'
     else link true true doorbell w' ∧ il_disconn (ipa_client w') = rc ∨
          link false true doorbell w' ∧ il_unreg (ipa_client w') = rc) w).
Proof.
  intros Hd Hs. split; intros w Hl.
  - eapply wp_mono; [by apply register_impl_wp|]. intros rc w' Hr. cbv beta in Hr. destruct (rc =? 0).
    + destruct Hr as ([Hf Hr] & Hc & Hp). by split_and!.
    + destruct Hr as (Hf & Hr). by split.
  - eapply wp_mono; [by eapply unregister_impl_wp|]. intros rc w' Hr. cbv beta in Hr. destruct (rc =? 0).
    + destruct Hr as ([Hf Hr] & Hc & Hp). by split_and!.
    + by destruct Hr as (Hf & _ & Hr).
Qed.
