(* ===== verification/IossOfExamples.v ===== *)
(** * IOSS: the device tree of an interface, examples

    Readers that satisfy [OfReadOk] on the tree of [EnablerExamples], a device
    with a channel by phandle and one by name, and the theorems of [IossOfSpec]
    on it and on the injected nodes. *)
From stdpp Require Import base tactics list gmap strings numbers sets.
From Stdlib Require Import ZArith Lia Ascii.
From S2P Require Import Prelude DeviceTree Enabler EnablerSpec EnablerAttach EnablerExamples IossUtils RtlLib IossData IossOf IossOfSpec.

(** ** The instance *)
Definition has_phandle (ph : Z) (d : device_node) : bool :=
  (d_phandle d =? ph) && negb (d_detached d) && negb (ph =? 0).

#[export] Instance demo_read : OfRead := {
  of_node_get t n := Dtree (dt_nodes t) (λ x, dt_refs t x + one_if (Some n) x);
  of_property_read_u32 t n name := v ← assoc name (node_vals t n); cell v 0;
  of_count_phandle t n name :=
    match assoc name (node_vals t n) with Some v => Z.of_nat (length v / 4) | None => - ENOENT end;
  of_parse_phandle t n name i :=
    with_ref t (ph ← (v ← assoc name (node_vals t n); cell v i); find_node (has_phandle ph) t);
  of_node_name_eq t n name := name_is (dt_nodes t) name n;
  of_match_compatible t n c := match assoc "compatible" (node_vals t n) with
    | Some v => compat_among c v | None => false end }.

Lemma find_node_sat P t n : find_node P t = Some n → ∃ d, dt_nodes t !! n = Some d ∧ P d = true.
Proof.
  unfold find_node. destruct (list_find _ _) as [[i [m d]]|] eqn:E; [|done]. intros [= <-].
  apply list_find_Some in E as (E & HP & _). apply list_elem_of_lookup_2, elem_of_map_to_list in E. eauto.
Qed.

Lemma find_node_some P t n d : dt_nodes t !! n = Some d → P d = true → is_Some (find_node P t).
Proof.
  intros E HP. unfold find_node. destruct (list_find_elem_of (λ nd : Z * device_node, P nd.2 = true)
    (map_to_list (dt_nodes t)) (n, d)) as [[i [m e]] ->]; simpl; eauto. by apply elem_of_map_to_list.
Qed.

#[export] Instance demo_read_ok : OfReadOk.
Proof.
  split; try done.
  - intros t n name i. simpl. split.
    + apply with_ref_got. intros m E. destruct (assoc name _) as [v|]; [|done]. simpl in E.
      destruct (cell v i); [|done]. by eapply find_node_in.
    + intros m d E Ed. simpl in E. destruct (assoc name _) as [v|]; [|done]. simpl in *.
      destruct (cell v i) as [ph|]; [|done]. simpl in E.
      apply find_node_sat in E as (d' & Ed' & Hp). simplify_eq. unfold has_phandle in Hp.
      destruct (Z.eqb_spec (d_phandle d') ph); [by subst|done].
  - intros t t' n name i E. simpl. unfold node_vals, find_node. by rewrite E.
  - intros t n name i m d Ed Hd Hp Hc. simpl. rewrite Hc. simpl. eapply find_node_some; [exact Ed|].
    unfold has_phandle. rewrite Z.eqb_refl, Hd. by rewrite (proj2 (Z.eqb_neq _ _) Hp).
  - intros t n name d E. simpl. unfold name_is. by rewrite E.
Qed.

#[export] Instance demo_pci : OfPlatform := {
  pci_ids_of_dev := Some (0x10ec, 0x8125);
  node_data _ := Some 7;
  pdev_of_root r := r + 30;
  root_pdev := 37 }.

(** ** A device with two channels *)
Definition prop (name : string) (v : list Z) : property := Property name (Z.of_nat (length v)) v 0 0 None.
Definition chan_props (dir : string) (ring : Z) : list property :=
  [prop dir []; prop "qcom,ring-size" (be32 ring); prop "qcom,buff-size" (be32 2048);
   prop "qcom,mod-count-min" (be32 32); prop "qcom,mod-count-max" (be32 64);
   prop "qcom,mod-usecs-min" (be32 30); prop "qcom,mod-usecs-max" (be32 60)].

(** The first entry resolves to a node that is no channel, the second to none
    of the tree: both are found among the children. *)
Definition two_channels : gmap Z device_node :=
  <[2 := node "qcom,ioss" IOSS_ROOT_PATH 17 None None None]> (
  <[10 := set_props (node "ethernet" "/soc/eth@0" 0 None (Some 11) None)
     [prop "compatible" (cstr "qcom,ioss-v2-device"); prop "qcom,ioss" (be32 17);
      prop "qcom,ioss_instance" (be32 3); prop "qcom,ioss_channels" (be32 17 ++ be32 99);
      prop "qcom,ioss-wol-magic" []]]> (
  <[11 := set_props (node "channel-tx" "/soc/eth@0/channel-tx" 0 (Some 10) None (Some 12)) (chan_props "qcom,dir-tx" 512)]> (
  <[12 := set_props (node "channel-rx" "/soc/eth@0/channel-rx@1" 0 (Some 10) None None) (chan_props "qcom,dir-rx" 256)]> ∅))).

Definition demo_of_st (ns : gmap Z device_node) (fs : list bool) : ofst := Ofst (demo_dts ns fs) [] 0 None 0.

Lemma two_children : children two_channels 10 [11; 12].
Proof. eexists. split; [vm_compute; reflexivity|]. chain_eval. Qed.

Lemma ioss_of_parse_spec_witness :
  wp (ioss_of_parse (Some 10)) (λ rc o, rc = 0 ∧ instance_id o = 3 ∧ of_wolopts o = WAKE_MAGIC ∧
    cfg_of <$> of_channels o = [ChCfg IOSS_CH_DIR_RX [256; 2048; 32; 64; 30; 60] 0;
                                ChCfg IOSS_CH_DIR_TX [512; 2048; 32; 64; 30; 60] 0]) (demo_of_st two_channels []).
Proof.
  eapply wp_mono; [apply (ioss_of_parse_spec (Some 10) [11; 12])|].
  - by intros b ?%not_elem_of_empty.
  - done.
  - intros n [= <-]. apply two_children.
  - intros rc o (_ & _ & _ & _ & Hl). destruct (Hl eq_refl) as [_ Hr]. clear Hl.
    replace (expected _ _ _) with (inr (A := Z) (IfaceCfg 3 [ChCfg IOSS_CH_DIR_RX [256; 2048; 32; 64; 30; 60] 0;
      ChCfg IOSS_CH_DIR_TX [512; 2048; 32; 64; 30; 60] 0] WAKE_MAGIC)) in Hr by (vm_compute; reflexivity).
    simpl in Hr. destruct Hr as (? & ? & ? & ?). auto.
Defined.

(** The seventh allocation, the private block of the second channel, fails:
    the nodes are given up and the built-in configuration is used. *)
Example parse_enomem :
  (λ r, match r with Some (rc, o) => (rc, instance_id o, dc_ring_size <$> of_channels o, size (live (of_d o)))
        | None => (1, 0, [], O) end)
    (ioss_of_parse (Some 10) (demo_of_st two_channels [false; false; false; false; true]))
  = (0, 0, [1023; 1024], 5%nat).
Proof. vm_compute. reflexivity. Qed.

(** ** The injected nodes *)
Lemma demo_no_channels n d : demo_nodes !! n = Some d → d_phandle d = RTL8125_PHANDLE_RX →
  is_channel_name (d_name d) = false.
Proof.
  intros E Hp. unfold demo_nodes in E.
  repeat (apply lookup_insert_Some in E as [[_ <-]|[_ E]]; [done|]). done.
Qed.

Lemma injected_channels_unread_witness :
  wp pcie_attach_runtime_nodes (λ r s', r = 0 ∧ ∃ dev, children (dt_nodes (tree s')) 5 [dev] ∧
    wp (ioss_of_parse (Some dev)) (λ rc o, rc = 0 ∧ (head ∘ cf_numbers ∘ cfg_of <$> of_channels o) = [Some 1023; Some 1024])
      (demo_of_st (dt_nodes (tree s')) [])) (demo_dts demo_nodes []).
Proof.
  eapply wp_mono; [apply wp_and|].
  - apply (attach_runtime_nodes_wp 4 1 2 3 5 [2; 3; 4] [] [5]); [apply demo_ok|done|apply demo_deps|vm_compute; reflexivity].
  - apply (injected_channels_unread 4 1 2 3 5 [2; 3; 4] [] [5]);
      [apply demo_ok|done|apply demo_deps|vm_compute; reflexivity|vm_compute; reflexivity|apply demo_no_channels].
  - intros r s' [(_ & _ & _ & _ & Hl) Hw]. pose proof (Hl demo_total eq_refl) as Hr. split; [done|].
    destruct (Hw Hr) as (rx & dev & _ & Hc & Ho). exists dev. split; [done|].
    eapply wp_mono; [apply Ho|]; try done.
    + simpl. intros rc o (-> & _ & E). split; [done|].
      by rewrite !list_fmap_compose, E.
Defined.
