(* ===== verification/IossMainExamples.v ===== *)
(** * IOSS: the bus and the root device, examples

    Two PCI devices on the tree of [IossOfExamples] and the theorems of
    [IossBusSpec] on them; then the module on that tree: loaded with the IPA
    ready and both devices bound, and unloaded; allocations that fail. *)
From stdpp Require Import base tactics list gmap strings numbers sets relations.
From Stdlib Require Import ZArith Lia.
From S2P Require Import Prelude DeviceTree Enabler EnablerSpec EnablerExamples IossUtils RtlLib IossData IossOf IossOfSpec IossOfExamples IossBus IossBusSpec IossMain IossMainSpec.

(** ** The bus *)
(** Device 500 has the node of two channels, 501 has none. *)
Definition two_nodes (dev : Z) : option Z := if dev =? 500 then Some 10 else None.
Definition all_bound : bus_world := BusWorld (λ _, true) (λ _, true) (λ _, 0) 0 0.
Definition two_dts (fs : list bool) : dts := demo_dts two_channels fs.

Lemma two_nodes_ok dev : nodes_ok two_nodes two_channels dev.
Proof.
  unfold nodes_ok, two_nodes. destruct (dev =? 500); [|done]. intros np [= <-]. exists [11; 12].
  apply two_children.
Qed.
Lemma two_heap fs : heap_ok (two_dts fs).
Proof. by intros b ?%not_elem_of_empty. Qed.

Abbreviation two_run := (bus_run (λ _, demo_pci) two_nodes).
Definition after (ops : list bus_op) (b : busst) : busst :=
  foldl (λ b op, match two_run all_bound op b with Some (_, b') => b' | None => b end) b ops.

(** Both are added, the second with the built-in channels; the one that is
    bound again is refused; removing the first leaves the second. *)
Example two_devices :
  (λ b, (size (idevs b), omap id (ioss_devices b), size (live (bus_d b)),
         (λ p, dc_ring_size <$> bi_channels p.2) <$> map_to_list (idevs b)))
    <$> [after [Notify BUS_NOTIFY_BOUND_DRIVER 500; PciStart [500; 501]] (no_bus (two_dts []));
         after [PciStart [500; 501]; Notify BUS_NOTIFY_UNBIND_DRIVER 500] (no_bus (two_dts []))]
  = [(2%nat, [100; 112], 12%nat, [[256; 512]; [1023; 1024]]); (1%nat, [106], 6%nat, [[1023; 1024]])].
Proof. vm_compute. reflexivity. Qed.

(** The eleventh device finds no slot. *)
Example ten_devices :
  (λ b, size (idevs b)) (after [PciStart (seqZ 501 11)] (no_bus (two_dts []))) = 10%nat.
Proof. vm_compute. reflexivity. Qed.

Lemma hotplug_safe_witness : ∃ b, two_run all_bound (PciStart [500; 501]) (no_bus (two_dts [])) = Some (tt, b) ∧
  (size (idevs b) ≤ 10)%nat.
Proof.
  destruct (wp_elim _ _ _ (bus_run_wp (λ _, demo_pci) two_nodes _ _ all_bound (PciStart [500; 501]) _
    (no_bus_inv (λ _, demo_pci) two_nodes _ (two_heap [])) two_nodes_ok I)) as ([] & b & E & _).
  exists b. split; [exact E|].
  apply (hotplug_safe (λ _, demo_pci) two_nodes (two_dts []) b (two_heap [])); [exact two_nodes_ok|].
  apply rtc_once. exists all_bound, (PciStart [500; 501]). by split.
Defined.

Lemma stop_leaves_nothing_witness :
  wp (ioss_pci_stop (λ _, demo_pci) two_nodes all_bound [500; 501])
     (λ _ b, idevs b = ∅ ∧ live (bus_d b) = ∅) (after [PciStart [500; 501]] (no_bus (two_dts []))).
Proof.
  destruct (wp_elim _ _ _ (bus_run_wp (λ _, demo_pci) two_nodes _ _ all_bound (PciStart [500; 501]) _
    (no_bus_inv (λ _, demo_pci) two_nodes _ (two_heap [])) two_nodes_ok I)) as ([] & b & E & Hb).
  assert (after [PciStart [500; 501]] (no_bus (two_dts [])) = b) as Hab by (unfold after, foldl; by rewrite E).
  eapply wp_mono; [apply (stop_leaves_nothing _ _ ∅ two_channels)|].
  - by rewrite Hab.
  - exact two_nodes_ok.
  - assert ((λ p, bi_parent p.2) <$> map_to_list (idevs (after [PciStart [500; 501]] (no_bus (two_dts []))))
      = [501; 500]) as Hp by (vm_compute; reflexivity).
    revert Hp. generalize (idevs (after [PciStart [500; 501]] (no_bus (two_dts [])))). intros m Hp a i Ei.
    split; [|done]. apply elem_of_map_to_list, (list_elem_of_fmap_2' (λ p, bi_parent p.2) _ _ (bi_parent i)) in Ei; [|done].
    rewrite Hp, !elem_of_cons in Ei. rewrite !elem_of_cons. tauto.
  - intros [] b' (E1 & E2 & _). split; [exact E1|exact E2].
Defined.

(** ** The root device and the module *)
Definition realtek (dev : Z) : option (Z * Z) := Some (0x10ec, 0x8125).
Abbreviation root_probe := (ioss_probe 37 (Some 2) realtek two_nodes).
Abbreviation root_remove := (ioss_remove 37 (Some 2) realtek two_nodes).
Abbreviation mod_init := (ioss_module_init 37 (Some 2) realtek two_nodes).
Abbreviation mod_exit := (ioss_module_exit 37 (Some 2) realtek two_nodes).

Definition root_none (fs : list bool) : rootst := Root (no_bus (two_dts fs)) None None None false [].
Definition off (fs : list bool) : modst := Mod (IossLog false false []) false false false false (root_none fs).
Definition ipa_ready : root_world := RootWorld all_bound [500; 501] true 0 true.
Definition all_well : mod_world := ModWorld 0 true true 0 true ipa_ready.

Lemma clean_none fs : clean ∅ two_channels (root_none fs).
Proof.
  apply (clean_intro 37 realtek two_nodes); [|done]. do 5 (split; [done|]).
  exact (no_bus_inv (λ _, demo_pci) two_nodes (two_dts fs) (two_heap fs)).
Qed.
Lemma down_off fs : down ∅ two_channels (off fs).
Proof. do 6 (split; [done|]). apply clean_none. Qed.

(** The parents of the devices there are. *)
Definition parents (b : busst) : list Z := (λ p, bi_parent p.2) <$> map_to_list (idevs b).
Lemma parents_met k b : parents b = [500; 501] → rw_devs k = [500; 501] → rw_bus k = all_bound → all_met k b.
Proof.
  unfold all_met, parents. intros Hp -> -> a i Ei. split; [|done].
  apply elem_of_map_to_list, (list_elem_of_fmap_2' (λ p, bi_parent p.2) _ _ (bi_parent i)) in Ei; [|done].
  rewrite Hp, !elem_of_cons in Ei. rewrite !elem_of_cons. tauto.
Qed.

(** Out of memory for the root's private block: -ENOMEM, nothing is kept. *)
Example probe_enomem : (λ x, (x.1, size (live (bus_d (r_b x.2))), np_data x.2)) <$>
  root_probe ipa_ready (root_none [false; true]) = Some (- ENOMEM, 0%nat, None).
Proof. vm_compute. reflexivity. Qed.

(** The IPA refuses the callback: the workqueue is destroyed again. *)
Example probe_refused : (λ x, (x.1, r_wqs x.2, size (live (bus_d (r_b x.2))))) <$>
  root_probe (RootWorld all_bound [] true (- EFAULT) false) (root_none []) = Some (- EFAULT, [], 0%nat).
Proof. vm_compute. reflexivity. Qed.


Example loads : (λ x, (x.1, m_platform x.2, parents (r_b (m_root x.2)))) <$> mod_init all_well (off []) =
  Some (0, true, [500; 501]).
Proof. vm_compute. reflexivity. Qed.

Lemma module_init_exit_witness : ∃ s1, mod_init all_well (off []) = Some (0, s1) ∧
  wp (mod_exit all_well) (λ _ s', down ∅ two_channels s') s1.
Proof.
  pose proof (module_init_exit 37 (Some 2) realtek two_nodes 2 ∅ two_channels all_well (off [])
    eq_refl two_nodes_ok (down_off [])) as Hw.
  pose proof loads as Hp. unfold wp in Hw at 1. destruct (mod_init all_well (off [])) as [[rc s1]|]; [|done].
  simpl in Hp. injection Hp as -> _ Hp. exists s1. split; [reflexivity|]. destruct Hw as [_ Hw].
  assert (s_root (m_root s1) s1 = s1) as Es by (destruct s1; reflexivity). rewrite <- Es.
  apply Hw; [apply rtc_refl|]. apply parents_met; [exact Hp|reflexivity|reflexivity].
Defined.
