(* ===== verification/IossExamples.v ===== *)
(** * IOSS: an interface

    A transmit and a receive channel over the RTL8125B of [RtlExamples], as
    the driver's built-in configuration makes them: the contracts hold of it,
    it goes on and off line, and the theorems apply to it. *)
From stdpp Require Import base tactics sets list gmap strings numbers.
From Stdlib Require Import ZArith Lia.
From S2P Require Import Prelude IossUtils RtlLib RtlLibSpec RtlLibInv RtlLibOps RtlLibRss RtlExamples IossData R8125Ioss IossLaws R8125Spec IossMem IossNet IossNetSpec IossRefresh IossIpa IossIpaSpec IossIpaLaws.

(** The modules' parameters at their defaults, but for the alignment of the
    transfer ring (allocations start at 4096 here); RAM at 2 GiB, the kernel's
    linear map at the top. *)
#[export] Instance board : IossApi := {|
  dma_map_resource := λ a, a; page_pa := λ a, 2 ^ 31 + Z.land a (Z.lnot 4095); linear_pa := λ a, a;
  tcm_activate := (0, 0, 0); pci_bar := λ _, (0x40300000, 0x10000); driver_name := "r8125"%string;
  rdev_addr := 8192; RTL_R16 := λ _, 0;
  diag_skip_open_device := false; diag_skip_request_channel := false; diag_skip_enable_channel := false;
  diag_skip_request_event := false; diag_skip_enable_event := false;
  disable_tcm := false; max_ddr_bandwidth := 2500 |}.
#[export] Instance module_defaults : IpaParams := {|
  ioss_skip_conn_pipes := false; ioss_skip_ipa_register := false; ioss_fix_high_iova := true;
  ioss_iova_ceiling := 0x9fffffff; ioss_preflight_strict := true; ioss_preflight_only := false;
  ioss_trb_align := 0; ioss_buff_iova_align := 0x800;
  PAGE_OFFSET := 0xc0000000; doorbell := λ i, (0x1000 + Z.of_nat i, 7) |}.
#[export] Existing Instance r8125_ioss_ops.
#[export] Instance r8125_contract : DriverLaws := r8125_laws eq_refl eq_refl eq_refl eq_refl.
#[export] Instance ipa_contract : IpaLaws := ipa_client_laws eq_refl eq_refl.

Definition quiet_event : ioss_channel_event := ChEvent 0 0 0 50 false false.
Definition chan (d : ioss_channel_dir) (filters : Z) : ioss_channel :=
  let cfg := ChConfig 4 2048 ioss_default_alctr ioss_default_alctr in
  Chan cfg cfg d filters quiet_event (-1) [] [] None false false false no_pipe.
Definition eth0 : iface :=
  Iface [chan IOSS_CH_DIR_RX IOSS_RXF_F_IP; chan IOSS_CH_DIR_TX 0] IOSS_IF_ST_OFFLINE 0 None false
    (IpaLink false false false 0 0) fresh_nic (Some 8192) [] [].

Lemma eth0_channel i c : channels eth0 !! i = Some c →
  i = 0%nat ∧ c = chan IOSS_CH_DIR_RX IOSS_RXF_F_IP ∨ i = 1%nat ∧ c = chan IOSS_CH_DIR_TX 0.
Proof. destruct i as [|[|i]]; simpl; intros [= <-]; auto. Qed.
Lemma idle_at n i ph : all Idle n !! i = Some ph → ph = Idle.
Proof. unfold all. intros E. by apply lookup_replicate in E as [-> _]. Qed.

Lemma eth0_rep : r8125_rep (all Idle 2) eth0.
Proof.
  unfold r8125_rep. split_and!.
  - split_and!; [apply fresh_nic_ok|done|apply fresh_table].
  - done.
  - intros i j c c' Hc Hc' E. apply eth0_channel in Hc as [[-> ->]|[-> ->]], Hc' as [[-> ->]|[-> ->]]; done.
  - intros i c Hc. apply eth0_channel in Hc as [[-> ->]|[-> ->]]; simpl; lia.
  - intros i c ph Hc ->%idle_at. apply eth0_channel in Hc as [[-> ->]|[-> ->]]; done.
  - intros [[] i] r Hr _; simpl in Hr; apply two_at in Hr as [[_ ->]|[_ ->]]; done.
Qed.

Lemma eth0_link : link false false no_doors eth0.
Proof. split_and!; [done..|]. intros i c Hc. apply eth0_channel in Hc as [[-> ->]|[-> ->]]; done. Qed.

Lemma eth0_offline : offline 2 eth0.
Proof.
  unfold offline, net_rep. split_and!; [apply eth0_rep|apply eth0_link|done| |].
  - intros i c ph Hc ->%idle_at. apply eth0_channel in Hc as [[-> ->]|[-> ->]]; done.
  - intros i c Hc. apply eth0_channel in Hc as [[-> ->]|[-> ->]]; unfold cfg_ok; simpl; lia.
Qed.

(** ** Up and down *)
Definition link_up : link_view := LinkView true true true false false (Some 2500).
Definition link_down : link_view := LinkView true true false false false None.

Example goes_up : wp (ioss_refresh_work link_up) (λ _ w,
  if_state w = IOSS_IF_ST_ONLINE ∧ ipa_client w = IpaLink true true true 0 0 ∧
  (ch_id <$> channels w) = [1; 1] ∧ (ch_enabled <$> channels w) = [true; true] ∧
  size (dma (ring_nic w)) = 4%nat) eth0.
Proof. vm_compute. done. Qed.

Example goes_down : wp (ioss_refresh_work link_up ;; ioss_refresh_work link_down) (λ _ w,
  if_state w = IOSS_IF_ST_OFFLINE ∧ ipa_client w = IpaLink false false false 0 0 ∧
  channels w = channels eth0 ∧ dma (ring_nic w) = ∅) eth0.
Proof. vm_compute. done. Qed.

(** ** The theorems applied *)
Lemma r8125_keeps_contract_witness :
  wp (r8125_ioss_request_channel 1) (λ rc w', drv_frame eth0 w' ∧
    r8125_rep (if rc =? 0 then [Idle; Held] else [Idle; Idle]) w') eth0.
Proof.
  destruct (@r8125_keeps_contract rtl8125b board eq_refl eq_refl eq_refl eq_refl) as [Hreq _].
  eapply wp_mono; [apply (Hreq [Idle; Idle] eth0 1%nat (chan IOSS_CH_DIR_TX 0));
    [exact eth0_rep|reflexivity|reflexivity|unfold ring_size_ok; simpl; lia]|].
  intros rc w' (Hf & _ & Hr). split; [exact Hf|exact Hr].
Defined.

Lemma refresh_spec_witness :
  wp (ioss_refresh_work link_up) (λ _ w', online 2 w' ∨ errored 2 w') eth0.
Proof.
  eapply wp_mono; [apply (refresh_spec 2 link_up eth0); left; exact eth0_offline|].
  intros [] w' (_ & _ & _ & Hw & _). apply Hw; reflexivity.
Defined.

(** A pipe of four buffers below the ceiling, and the same overlapping. *)
Definition some_pipe (base : Z) : pipe_info :=
  PipeInfo (Some IPA_ETH_PIPE_DIR_TX) true base 128
    (Some [SmmuMap 0x20000 0x80020000; SmmuMap 0x20800 0x80020800]) 2 2048 false true no_rtk.
Lemma preflight_pipe_iff_witness : pipe_ok (some_pipe 0x10000) ∧ ¬ pipe_ok (some_pipe 0x20880).
Proof.
  assert (∀ b, 0 ≤ b < 2 ^ 32 → pipe_ranges (some_pipe b)) as Hr.
  { intros b Hb. unfold pipe_ranges. simpl. split_and!; try (unfold word; lia); try done. intros l [= <-]. simpl. split; [lia|].
    repeat (constructor; [split; done|]). constructor. }
  split.
  - destruct (preflight_pipe_iff (some_pipe 0x10000) (Hr 0x10000 ltac:(done))) as (rc & E & _ & Hiff).
    apply Hiff. vm_compute in E. congruence.
  - destruct (preflight_pipe_iff (some_pipe 0x20880) (Hr 0x20880 ltac:(done))) as (rc & E & _ & Hiff).
    intros Hok. apply Hiff in Hok. vm_compute in E. congruence.
Defined.

(** With a ceiling at the top of the address space: the ring from 0xffffff00 on
    lies in the buffer from 0xfffffe00 on, whose end wraps, and passes. *)
Definition high_ceiling : IpaParams := {|
  ioss_skip_conn_pipes := false; ioss_skip_ipa_register := false; ioss_fix_high_iova := true;
  ioss_iova_ceiling := 0xffffffff; ioss_preflight_strict := true; ioss_preflight_only := false;
  ioss_trb_align := 0; ioss_buff_iova_align := 0x800; PAGE_OFFSET := 0xc0000000; doorbell := λ i, (0x1000 + Z.of_nat i, 7) |}.
Example overlap_accepted : ioss_ipa_preflight_pipe (H := high_ceiling)
  (PipeInfo (Some IPA_ETH_PIPE_DIR_TX) true 0xffffff00 0x80 (Some [SmmuMap 0xfffffe00 0x80020000]) 1 0x800 false true no_rtk) = Some 0.
Proof. by vm_compute. Qed.

(** The address of a buffer above the ceiling is masked. *)
Example masked_not_physical : ipa_iova 0xfffff000 0x80020000 = 0x9ffff000.
Proof. by vm_compute. Qed.

(** The receive channel once it holds a ring. *)
Definition held : iface := match ioss_net_alloc_channels eth0 with Some (_, w) => w | None => eth0 end.
Definition held_rx : ioss_channel :=
  Eval vm_compute in default (chan IOSS_CH_DIR_RX 0) (channels held !! 0%nat).
Lemma fill_pipe_info_spec_witness :
  wp (ioss_ipa_fill_pipe_info 0) (λ rc w', rc = 0 ∧
    data_buff_list_size (ipa_pi (default held_rx (channels w' !! 0%nat))) = 4) held.
Proof.
  eapply wp_mono; [apply (fill_pipe_info_spec 0 held_rx held);
    [reflexivity|vm_compute; reflexivity|vm_compute; discriminate]|].
  intros rc w' [(p & rs & -> & Hok & _) [_ Hiff]].
  assert (rc = 0) as ->.
  { apply Hiff. split; [|vm_compute; reflexivity].
    assert (tcm_mem held = None) as -> by (vm_compute; reflexivity). unfold describable. split_and!.
    - vm_compute. discriminate.
    - assert (entries None held_rx = [SmmuMap 4224 2147487872; SmmuMap 6272 2147489920;
        SmmuMap 8320 2147491968; SmmuMap 10368 2147494016]) as -> by (vm_compute; reflexivity).
      repeat (constructor; [split; [discriminate|vm_compute; discriminate]|]). constructor.
    - exists (IMem 4096 (4096 + 2 ^ 32) 128). vm_compute. split_and!; discriminate || reflexivity. }
  destruct (Hok eq_refl) as (d & _ & ->). split; [reflexivity|]. vm_compute. reflexivity.
Defined.

Lemma ipa_registration_spec_witness :
  wp ioss_ipa_register_impl (λ rc w', ipa_frame eth0 w' ∧ rc ≠ 0 ∧
    ((link false false no_doors w' ∨ link true false no_doors w' ∧ il_disconn (ipa_client w') ≠ 0) ∧
     il_client (ipa_client w') = false ∧ (dropped w' ∨ calls w' = calls eth0 ∧ unable [0; 1]%nat eth0))) eth0.
Proof.
  destruct (@ipa_registration_spec board module_defaults eq_refl eq_refl) as [Hreg _].
  assert (∃ w', ioss_ipa_register_impl eth0 = Some (- EINVAL, w')) as [w1 E] by (eexists; vm_compute; reflexivity).
  pose proof (Hreg eth0 eth0_link) as Hr. unfold wp in *. rewrite E in *. destruct Hr as [Hf Hl].
  split_and!; [exact Hf|discriminate|apply Hl..].
Defined.
