(* ===== verification/IossWatchExamples.v ===== *)
(** * IOSS: a watched device

    The interface of [IossExamples] on a device that comes up and goes away;
    the theorems of the watcher on it, and four corners of the code. *)
From stdpp Require Import base tactics sets list gmap strings numbers relations.
From Stdlib Require Import ZArith Lia.
From S2P Require Import Prelude IossUtils RtlLib RtlExamples IossData R8125Ioss IossLaws R8125Spec IossMem IossNet IossNetSpec IossRefresh IossWatch IossWatchSpec IossIpa IossIpaLaws IossExamples.

Definition eth0_net : net_device := NetDev "eth0" 17.
Definition eth0_dev : ioss_device :=
  Idev eth0 eth0_net false 0 false false false false (Some false) true false true
    (Some RealOps) None 0 (0, 0) 0x20.
Definition carrier : world := World true true (Some 2500) (100, 6400) 0 true 0 0 true.
Definition no_carrier : world := World false false None (100, 6400) 0 true 0 0 true.

Lemma eth0_dinv : dinv 2 eth0_dev.
Proof. split; [left; apply eth0_offline|done]. Qed.

Definition after (k : world) (op : watch_op) (d : ioss_device) : ioss_device :=
  match run k op d with Some (_, d') => d' | None => d end.
Definition dev_reg : ioss_device := after carrier (Event eth0_net NETDEV_REGISTER) eth0_dev.
Definition dev_up : ioss_device := after carrier Refresh dev_reg.

Example registers : (d_parent dev_reg, d_refs dev_reg, netdev_ops dev_reg, d_refresh dev_reg, d_check dev_reg) =
  (true, 1, Some IossOps, true, true).
Proof. vm_compute. done. Qed.
Example comes_up : if_state (d_iface dev_up) = IOSS_IF_ST_ONLINE ∧ d_parent dev_up = true ∧ d_ws dev_up = Some true.
Proof. vm_compute. done. Qed.

Lemma step_reg : step eth0_dev dev_reg.
Proof. exists carrier, (Event eth0_net NETDEV_REGISTER). split; [done|]. vm_compute. done. Qed.
Lemma step_up : step dev_reg dev_up.
Proof. exists carrier, Refresh. split; [vm_compute; done|]. vm_compute. done. Qed.
Lemma steps_up : rtc step eth0_dev dev_up.
Proof. eapply rtc_l; [apply step_reg|]. eapply rtc_l; [apply step_up|]. apply rtc_refl. Qed.

Lemma watch_safe_witness : dinv 2 dev_up ∧
  ∃ d', run no_carrier (Event eth0_net NETDEV_CHANGE) dev_up = Some (tt, d') ∧ dinv 2 d'.
Proof.
  destruct (watch_safe 2 eth0_dev dev_up eth0_dinv steps_up) as [Hd Hrun]. split; [exact Hd|].
  apply (Hrun no_carrier (Event eth0_net NETDEV_CHANGE)). vm_compute. split_and!; try reflexivity.
  intros _. split; discriminate.
Defined.

Lemma unwatch_quiesces_witness :
  wp (ioss_net_unwatch_device carrier (going_away eth0_net)) (λ rc d', rc = 0 ∧ quiesced 2 d') dev_up.
Proof.
  apply (unwatch_quiesces 2 carrier eth0_net eth0_dev dev_up eth0_dinv steps_up);
    [vm_compute; reflexivity|vm_compute; reflexivity|split; vm_compute; reflexivity|reflexivity].
Defined.

Lemma dev_up_online : online 2 (d_iface dev_up).
Proof. apply inv_online; [|vm_compute; done]. exact (proj1 (steps_dinv 2 _ _ steps_up eth0_dinv)). Qed.
Definition dev_down : ioss_device := after no_carrier (Event eth0_net NETDEV_GOING_DOWN) dev_up.
Definition dev_gone : ioss_device := after no_carrier (Event eth0_net NETDEV_UNREGISTER) dev_down.

(** The queued work runs, too late. *)
Lemma unregister_strands_witness :
  online 2 (d_iface (after no_carrier Refresh dev_gone)) ∧
  d_parent (after no_carrier Refresh dev_gone) = false.
Proof.
  apply (unregister_strands 2 no_carrier eth0_net dev_up dev_down dev_gone);
    [exact (steps_dinv 2 _ _ steps_up eth0_dinv)|vm_compute; reflexivity|split; vm_compute; reflexivity
    |exact dev_up_online|vm_compute; reflexivity|vm_compute; reflexivity|].
  apply rtc_once. exists no_carrier, Refresh. split_and!; [vm_compute; reflexivity|discriminate|vm_compute; reflexivity].
Defined.

(** The same events in the usual order: the work runs before the device goes. *)
Example goes_down_in_time :
  if_state (d_iface (after no_carrier Refresh (after no_carrier (Event eth0_net NETDEV_UNREGISTER)
    (after no_carrier Refresh dev_down)))) = IOSS_IF_ST_OFFLINE.
Proof. vm_compute. done. Qed.

(** A registration that fails leaves the parent set and the saved operations
    NULL: unregistering the device then takes its operations away. *)
Example failed_register_unhooks :
  netdev_ops (after carrier (Event eth0_net NETDEV_UNREGISTER)
    (after (World true true None (0, 0) (- ENOMEM) true 0 0 true) (Event eth0_net NETDEV_REGISTER) eth0_dev)) = None.
Proof. vm_compute. done. Qed.

(** A device found in a name space that is not the last is linked, but the
    cursor used to report it is past its list. *)
Example link_device_undefined :
  ioss_net_link_device 17 None [[NetDev "lo" 0; eth0_net]] = Some (0, Some eth0_net) ∧
  ioss_net_link_device 17 None [[NetDev "lo" 0; eth0_net]; [NetDev "lo" 0]] = None.
Proof. done. Qed.

(** A wakeup source that cannot be registered is reported as success. *)
Example watch_reports_success :
  wp (ioss_net_watch_device (World true true None (0, 0) 0 false 0 0 true) [] [])
    (λ rc d, rc = 0 ∧ d_ws d = None ∧ d_nb d = false ∧ d_debugfs d = false)
    (w_notifiers false false eth0_dev).
Proof. vm_compute. done. Qed.
