(* ===== verification/IossProbeExamples.v ===== *)
(** * IOSS: a device probed and removed

    The interface of [IossExamples] from probing to removal under the r8125
    glue driver, and what is left when the kernel refuses a wakeup source. *)
From stdpp Require Import base tactics sets list gmap strings numbers relations.
From Stdlib Require Import ZArith Lia.
From S2P Require Import Prelude IossUtils RtlLib RtlExamples IossData R8125Ioss IossLaws R8125Spec IossMem IossNet IossNetSpec IossRefresh IossWatch IossWatchSpec IossPm IossProbe IossProbeSpec R8125Open IossIpa IossIpaLaws IossExamples IossWatchExamples.

#[local] Instance r8125_opens :
    @OpenLaws _ r8125_contract (Some r8125_ioss_open_device) (Some r8125_ioss_close_device) :=
  r8125_open_laws eq_refl eq_refl eq_refl eq_refl eq_refl.

(** As the bus allocates it: no network device, nothing opened. *)
Definition new_dev : ioss_device :=
  Idev (if_private None eth0) (NetDev "" 0) false 0 false false false false None false false false
    (Some RealOps) None 0 (0, 0) 0x20.
Definition new_probest : probest := Probest new_dev None real_driver false false false.
(** The board's one network device, up; the kernel grants a wakeup source or not. *)
Definition boot (wakeup : bool) (panic sysfs : Z) : probe_world :=
  ProbeWorld (World true true (Some 2500) (100, 6400) 0 wakeup 0 0 true) 17 [[NetDev "lo" 0; eth0_net]]
    (there_is eth0_net true) (going_away eth0_net) panic sysfs.

Lemma new_unprobed : unprobed 2 0 new_probest.
Proof.
  split; [split; [left; exact eth0_offline|done]|]. split; [by split_and!|]. split_and!; [done|done|].
  apply not_elem_of_nil.
Qed.
Lemma boot_links wakeup panic sysfs : links (boot wakeup panic sysfs) (Some eth0_net) true new_probest.
Proof. by split_and!. Qed.

Abbreviation probe := (ioss_bus_probe (Some r8125_ioss_open_device) (Some r8125_ioss_close_device)).
Abbreviation remove := (ioss_bus_remove (Some r8125_ioss_close_device)).


(** The driver was opened and is closed again: its notifier is not in the chain. *)
Example failed_file_closes : (λ o, match o with
    Some (rc, s) => Some (rc, lib_nh (ring_nic (d_iface (p_d s))), p_panic s, driver_pm (p_pm s)) | None => None end)
    (probe (boot true 0 (- ENOMEM)) new_probest) = Some (- ENOMEM, [], false, Some RealPm).
Proof. vm_compute. reflexivity. Qed.

Definition after_probe (w : probe_world) : probest :=
  match probe w new_probest with Some (_, s) => s | None => new_probest end.
Lemma probe_runs : probe (boot true 0 0) new_probest = Some (0, after_probe (boot true 0 0)).
Proof. vm_compute. reflexivity. Qed.
Lemma probe_runs_unwatched : probe (boot false 0 0) new_probest = Some (0, after_probe (boot false 0 0)).
Proof. vm_compute. reflexivity. Qed.

(** The queued work takes the interface on line before the removal. *)
Definition on_line_dev : ioss_device := after carrier Refresh (p_d (after_probe (boot true 0 0))).
Example probed_on_line : if_state (d_iface on_line_dev) = IOSS_IF_ST_ONLINE.
Proof. vm_compute. reflexivity. Qed.

Lemma probe_remove_roundtrip_witness :
  wp (remove (boot true 0 0)) (λ rc s', rc = 0 ∧ unprobed 2 0 s' ∧ p_wakeup s' = false)
    (v_dev on_line_dev (after_probe (boot true 0 0))).
Proof.
  apply (probe_remove_roundtrip (Some r8125_ioss_open_device) (Some r8125_ioss_close_device) 2 0
    (boot true 0 0) (boot true 0 0) eth0_net true new_probest);
    [exact new_unprobed|apply boot_links|reflexivity|exact probe_runs| |vm_compute; reflexivity|reflexivity|reflexivity].
  apply rtc_once. exists carrier, Refresh. split; [vm_compute; reflexivity|vm_compute; reflexivity].
Defined.

Lemma unwatched_probe_leaks_witness :
  wp (remove (boot false 0 0)) (λ rc s', rc = - ENOENT ∧ p_panic s' = true ∧ pm_ok 1 (p_pm s') ∧
    r8125_opened (d_iface (p_d s'))) (after_probe (boot false 0 0)).
Proof.
  exact (proj2 (unwatched_probe_leaks (Some r8125_ioss_open_device) (Some r8125_ioss_close_device) 2 0
    (boot false 0 0) (boot false 0 0) eth0_net true new_probest _ new_unprobed (boot_links false 0 0) eq_refl
    probe_runs_unwatched eq_refl eq_refl)).
Defined.

Lemma r8125_open_close_witness :
  wp (let* rc := r8125_ioss_open_device in
      if rc =? 0 then (let* rc' := r8125_ioss_close_device in ret (rc, rc')) else ret (rc, 0))
    (λ rcs w', rcs = (0, 0) ∧ r8125_rep (IossNetSpec.all Idle 2) w' ∧ lib_nh (ring_nic w') = []) eth0.
Proof.
  pose proof (r8125_open_close (IossNetSpec.all Idle 2) eth0 eq_refl eth0_rep) as Ht.
  assert (∃ w', (let* rc := r8125_ioss_open_device in
      if rc =? 0 then (let* rc' := r8125_ioss_close_device in ret (rc, rc')) else ret (rc, 0)) eth0 = Some ((0, 0), w'))
    as [w1 E] by (eexists; vm_compute; reflexivity).
  unfold wp in *. rewrite E in *. destruct Ht as (_ & Hr & _ & Hl). split; [reflexivity|]. split; [exact Hr|exact Hl].
Defined.

(** A driver without operations: probing fails, everything is put back. *)
Example no_driver : (λ o, match o with Some (rc, s) => (rc, p_panic s, driver_pm (p_pm s)) | None => (0, true, None) end)
    (ioss_bus_probe None None (boot true 0 0) new_probest) = (- ENOENT, false, Some RealPm).
Proof. vm_compute. reflexivity. Qed.
