(* ===== verification/IossStackExamples.v ===== *)
(** * From the device tree to a running interface, examples

    The theorem of [IossStack] on the board of [IossExamples], and a device that
    is parsed and taken up. *)
From stdpp Require Import base tactics list gmap strings numbers sets.
From Stdlib Require Import ZArith Lia.
From S2P Require Import Prelude DeviceTree Enabler EnablerSpec EnablerAttach EnablerExamples IossUtils RtlLib RtlLibSpec RtlLibInv RtlLibRss RtlExamples IossData R8125Ioss IossLaws R8125Spec IossNet IossNetSpec IossRefresh IossIpa IossIpaLaws IossExamples IossOf IossOfSpec IossOfExamples IossStack.

Definition bare0 : iface := if_channels [] eth0.



(** A device whose node gives two small rings: parsed and taken up. *)
Definition small_rings : gmap Z device_node :=
  <[11 := set_props (node "channel-tx" "/soc/eth@0/channel-tx" 0 (Some 10) None (Some 12)) (chan_props "qcom,dir-tx" 8)]> (
  <[12 := set_props (node "channel-rx" "/soc/eth@0/channel-rx@1" 0 (Some 10) None None) (chan_props "qcom,dir-rx" 4)]>
  two_channels).
Example stack_runs : wp (ioss_of_parse (Some 10)) (λ rc o, rc = 0 ∧
  wp (ioss_refresh_work link_up) (λ _ w, if_state w = IOSS_IF_ST_ONLINE ∧
    (ring_size ∘ config <$> channels w) = [4; 8] ∧ (ch_enabled <$> channels w) = [true; true])
    (if_channels (to_channel <$> of_channels o) bare0)) (demo_of_st small_rings []).
Proof. vm_compute. done. Qed.
