(* ===== verification/IossStatsExamples.v ===== *)
(** * IOSS: statistics, examples

    The nodes of the device of [IossWatchExamples], with the glue driver on
    the chip of [R8125AccessExamples]. *)
From stdpp Require Import base tactics sets list gmap strings numbers.
From Stdlib Require Import ZArith Lia.
From S2P Require Import Prelude IossUtils RtlLib RtlExamples IossData R8125Access R8125AccessSpec R8125AccessExamples R8125Ioss IossWatch IossExamples IossStats IossStatsSpec R8125Stats R8125StatsSpec IossWatchExamples.

(** The MAC received 150 packets and sent 45. *)
Definition mac_counts : rtl8125_counters :=
  Counters 45 150 0 1 2 0 0 0 0 0 0 0 0 2900 9600 0 0 0 0 0 0 4 0 0 0 0 0 0 0 0 0 5 0 0 3 0 0 0 0.
#[export] Instance sim_more : MmioMore := {
  readb reg c := (reg mod 256, c); readw reg c := (reg mod 65536, c); pci_read32 a c := (0, c);
  tally_at _ _ := mac_counts }.

#[export, refine] Instance sim_tally : TallyLaws := {
  counting k c := k = mac_counts ∧ wait c = 0%nat ∧ reply c = 0 }.
Proof. intros k [m cs er rp w] p (-> & Hw & Hr). simpl in *. subst. done. Defined.
#[export, refine] Instance sim_reads : ReadLaws := {}.
Proof.
  - by intros.
  - by intros.
  - by intros.
  - intros m reg c Hr [Hm Hwf]. cbn [readl sim_chip]. unfold sim_readl.
    destruct (reg =? CSIDR); [done|]. destruct (reg =? ERIDR); [done|]. destruct c as [r cs er rp [|w]]; done.
Defined.

#[export] Instance eth0_stats : StatsOps := r8125_stats_ops.

Definition rdev0 : rdev := Rdev tp0 (Some 0x80001000) mac_counts None.
Lemma rdev0_ready : ready mac_counts rdev0.
Proof. split; [by eexists|done]. Qed.

(** Software received 100 packets of the 150, and two by the exception path. *)
Lemma statistics_count_witness :
  wp (on_dev (notify_all [(true, 64); (false, 0); (true, 100)]) ;; get_idev_statistics carrier (30, 1900))
    (λ r _, r.1 = 0 ∧ emac r.2 = emac_of mac_counts ∧
       expt r.2 = Path 2 0 164 0 0 0 0 0 ∧ hwp r.2 = Path 50 15 3200 1000 0 0 2 0) (dev_up, rdev0).
Proof.
  eapply wp_mono; [apply (@statistics_count eth0_stats (ready mac_counts) [(true, 64); (false, 0); (true, 100)] dev_up rdev0
    (emac_of mac_counts) 5 4 (λ _, 0) carrier (30, 1900) 50 3200 15 1000)|].
  - apply r8125_reports.
  - apply r8125_counts.
  - exact rdev0_ready.
  - vm_compute. reflexivity.
  - vm_compute. reflexivity.
  - vm_compute. reflexivity.
  - vm_compute. reflexivity.
  - reflexivity.
  - reflexivity.
  - reflexivity.
  - reflexivity.
  - intros r s (H1 & H2 & H3 & H4). split; [exact H1|]. split; [exact H2|]. split; [exact H3|]. exact H4.
Defined.

Definition shown : ioss_device_stats :=
  DevStats (Path 50 15 3200 1000 0 0 2 0) (Path 2 0 164 0 0 0 0 0) (emac_of mac_counts) 5 4.
Lemma texts_read_back_witness :
  numbers None (idev_statistics_text shown) = stats_fields shown ∧ numbers None (idev_stats_text shown) = stats_fields shown ∧
  numbers None (ch_statistics_text ch_stats0) = ch_stats_fields ch_stats0 ∧ numbers None (ch_stats_text ch_stats0) = ch_stats_fields ch_stats0 ∧
  numbers None (ch_status_text status0) = status_fields status0 ∧ numbers None (ch_stat_text status0) = status_fields status0.
Proof. apply texts_read_back; repeat constructor; done. Defined.

Lemma saved_registers_witness :
  wp rtl8125_lib_save_regs
    (λ r t', r.1 = 0 ∧ pcie_phy r.2 = map (ephy_reg regs0) (seqZ 0 31) ∧
       eth_phy r.2 = map (λ i, phy_reg regs0 (phy_word 0 i)) (seqZ 0 16) ∧
       length (eri_regs r.2) = 64%nat ∧ (∀ i v, eri_regs r.2 !! i = Some v → eri_reads regs0 0 (Z.of_nat i) 4 v) ∧
       cur_page t' = 0 ∧ tp_rep regs0 t') tp0.
Proof.
  assert (∀ a, 0 ≤ phy_reg regs0 a < 2 ^ 16) as Hphy by (intros a; simpl; lia).
  exact (saved_registers regs0 tp0 tp0_rep eq_refl Hphy).
Defined.

(** The first line of the long form, and the short form. *)
Example long_form : take 18 (idev_statistics_text shown) = chars "hwp_rx_packets: 50".
Proof. vm_compute. reflexivity. Qed.
Example short_form :
  ch_stat_text (ChStatus true 4 16 2048 3 2) = chars "1 4 16 2048 3 2" ++ [10].
Proof. vm_compute. reflexivity. Qed.
(** A chip that never clears the flag: twenty-one polls and an error. *)
Example never_dumped :
  (r8125_ioss_device_statistics stats0 (eth0, Rdev (Tp (Sim regs0 0 0 8 0) 0 0 false false) (Some 0) mac_counts None)
    ≫= λ r, Some r.1.1) = Some (-1).
Proof. vm_compute. reflexivity. Qed.
