(* ===== verification/R8125RingExamples.v ===== *)
(** * The descriptor rings: instances

    The theorems of [R8125TxThms] and [R8125RxThms] on rings of 256
    descriptors, and runs that show what the code does where its comments or
    the kernel expect something else. *)
From stdpp Require Import base tactics list gmap numbers.
From Stdlib Require Import ZArith Lia.
From S2P Require Import Prelude IossUtils RtlLib R8125Tx R8125TxSpec R8125TxThms.

(** ** Sending *)
(** A run is what it comes to, if it comes to anything; only that is left to
    be evaluated. *)
Definition defined {A} (o : option A) : bool := match o with Some _ => true | None => false end.
Lemma run_default {A} (d : A) (o : option A) : defined o = true → o = Some (default d o).
Proof. by destruct o. Qed.

(** A kernel that maps every buffer at its own address, except at the calls in
    [fails]; padded packets are at 0x9000 unless [nomem]. *)
Definition api (fails : list nat) (nomem : bool) : TxApi := {|
  dma_map_single := λ n a _, if bool_decide (n ∈ fails) then None else Some a;
  skb_padto := λ _, if nomem then None else Some 0x9000;
  skb_cow_head_fails := λ _, false |}.
Definition kind : TxApi := api [] false.

Definition ring256 : rtl8125_tx_ring :=
  TxRing 0 7 3 256 (replicate 257 (TxD 1 2 3)) (replicate 1024 (RInfo None 5)) 9 9 0x2802 0x2800.
Definition alloc0 : txq := TxQ ring256 false 0 0 [] [] [] [] 0 0 0.
Definition state_of {A} (o : option (A * txq)) : txq := match o with Some (_, s) => s | None => alloc0 end.
Definition empty0 : txq := state_of (rtl8125_tx_init_ring alloc0).
Definition sys0 : sys := Sys empty0 XIdle IIdle [].

Lemma alloc0_ok : tx_allocated alloc0.
Proof. split; [|done]. split; [split; [done|by exists (2 ^ 24)]|]. done. Qed.

Lemma empty0_inv : tx_inv empty0 0 [].
Proof. apply (wp_run _ _ _ tt empty0 (tx_init_wp alloc0 alloc0_ok)). by vm_compute. Qed.

Lemma sys0_fresh : fresh sys0.
Proof. split; [apply empty0_inv|]. by vm_compute. Qed.

(** The chip of the boards uses close pointers. *)
Definition conf_nc : txconf := TxConf true false false false true true true.
Definition conf_own : txconf := TxConf false false false false true true true.
Definition conf_lso : txconf := TxConf true true false false true true true.

Definition plain (id : Z) : sk_buff := Skb id (0x1000 + id) 100 [] 0 ETH_P_IP 34 true true 1 0 false None.
Definition fragged (id : Z) : sk_buff :=
  Skb id (0x1000 + id) 1500 [(0x5000, 700); (0x6000, 500)] 0 ETH_P_IP 34 true true IPPROTO_TCP 0 true (Some 5).
Lemma plain_ok conf id : packet_ok conf (plain id).
Proof.
  split; [done|constructor|done| |done]. simpl. unfold splits, wants_tso. simpl. by rewrite !andb_false_r.
Qed.
Lemma fragged_ok conf id : packet_ok conf (fragged id).
Proof.
  split; [done|by repeat constructor|done| |done]. simpl. unfold splits, wants_tso. simpl. by rewrite !andb_false_r.
Qed.

Definition send (skb : sk_buff) : list event := [EvXmit skb; EvWant; EvStop; EvRing; EvCheck].
Definition poll : list event := [EvLeft; EvClosed; EvRelease; EvWake].

(** Two packets, the second while the interrupt is between its reads. *)
Definition racing : list event := send (plain 1) ++ [EvHwClose; EvLeft] ++ send (plain 2) ++ [EvHwClose; EvClosed; EvRelease; EvWake].
Definition after_race : sys := default sys0 (run (H := kind) conf_nc racing sys0).

Ltac oks := repeat first [apply plain_ok | apply fragged_ok | exact I | constructor].

Lemma tx_ring_safe_witness : ∃ s D xs, run (H := kind) conf_nc racing sys0 = Some s ∧ tx_inv (sq s) D xs ∧
  s_given s ≡ₚ tq_freed (sq s) ++ queued xs ∧
  (EnableTxNoClose conf_nc = true → ∃ N, tq_hw_clo (sq s) = u16 N ∧ D ≤ N ≤ D + Z.of_nat (length xs)).
Proof.
  destruct (tx_ring_safe (H := kind) conf_nc racing sys0) as [Hs|[E _]]; [apply sys0_fresh|unfold racing, send; simpl; oks|exact Hs|].
  vm_compute in E. discriminate E.
Defined.

(** 239 packets of one descriptor leave 17 slots: the queue stops. *)
Definition fill_ring : list event := concat ((λ n, send (plain (Z.of_nat n))) <$> seq 0 239).
Lemma fill_ring_ok conf : Forall (ev_ok conf) fill_ring.
Proof. apply Forall_concat, Forall_fmap, Forall_true. intros n. unfold send. simpl. oks. Qed.
Definition full : sys := default sys0 (run (H := kind) conf_nc fill_ring sys0).
Example full_stops : tq_stopped (sq full) = true ∧ sx full = XIdle ∧ si full = IIdle.
Proof. by vm_compute. Qed.

Lemma no_lost_wakeup_witness :
  tq_stopped (sq full) = true ↔ ¬ MAX_SKB_FRAGS < u32 (dirty_tx (txr (sq full)) + num_tx_desc (txr (sq full)) - cur_tx (txr (sq full))).
Proof. apply (no_lost_wakeup (H := kind) conf_nc fill_ring sys0 full); [done|apply sys0_fresh|apply fill_ring_ok|by vm_compute..]. Defined.

(** The race: the chip has closed both descriptors, the interrupt has counted
    one, and no interrupt after it releases the other. *)
Example race_loses_one : lag after_race = 1 ∧ tq_freed (sq after_race) = [1] ∧
  (sq <$> run (H := kind) conf_nc (poll ++ poll) after_race) = Some (sq after_race).
Proof. by vm_compute. Qed.

Lemma lost_closures_stay_witness : lag after_race = 1 ∧
  lag after_race ≤ lag (default sys0 (run (H := kind) conf_nc (send (plain 3) ++ EvHwClose :: poll) after_race)).
Proof.
  split; [by vm_compute|].
  apply (lost_closures_stay (H := kind) conf_nc racing (send (plain 3) ++ EvHwClose :: poll) sys0 after_race
    (default sys0 (run (H := kind) conf_nc (send (plain 3) ++ EvHwClose :: poll) after_race)));
    [done|apply sys0_fresh|unfold racing, send; simpl; oks|unfold send, poll; simpl; oks|by vm_compute..].
Defined.

Lemma start_xmit_spec_witness :
  wp (rtl8125_start_xmit (H := kind) conf_nc (fragged 1)) (λ r s',
    match r with
    | NETDEV_TX_BUSY => busy_result empty0 s' ∧ (¬ avail empty0 [] ∨ head_free conf_nc empty0 = false)
    | NETDEV_TX_OK => (avail empty0 [] ∧ head_free conf_nc empty0 = true) ∧
        (dropped_result (H := kind) conf_nc empty0 0 [] (fragged 1) s' ∨ queued_result (H := kind) conf_nc empty0 0 [] (fragged 1) s')
    end) empty0.
Proof. apply (start_xmit_spec (H := kind) conf_nc empty0 0 [] (fragged 1)); [apply empty0_inv|apply fragged_ok|by vm_compute]. Defined.

(** The words of the packets here: an offloaded TCP segment with a tag, a large
    send, and a short PTP packet, which is padded and gets no command. *)
Definition giant : sk_buff := Skb 5 0x1005 3000 [(0x5000, 2900)] 1400 ETH_P_IPV6 54 true true IPPROTO_TCP 0 true None.
Definition ptp : sk_buff := Skb 6 0x1006 80 [] 0 ETH_P_IP 34 true true IPPROTO_UDP 0x13f true None.
Example words :
  (opts0_of conf_nc (fragged 1), opts1_of conf_nc (fragged 1)) = (0x80000000, 0x60020500) ∧
  (opts0_of conf_nc giant, opts1_of conf_nc giant) = (0x82d80000, 0x15e00000) ∧
  (sent_len conf_nc ptp, opts0_of conf_nc ptp, opts1_of conf_nc ptp) = (81, 0x80000000, 0).
Proof. by vm_compute. Qed.

(** The descriptors of that packet. *)
Example fragged_descriptors : let s := state_of (rtl8125_start_xmit (H := kind) conf_nc (fragged 1) empty0) in
  take 4 (TxDescArray (txr s)) =
    [TxD (Z.lor DescOwn (Z.lor FirstFrag 300)) (Z.lor (Z.lor TxVlanTag 0x500) (Z.lor TxIPCS_C TxTCPCS_C)) 0x1001;
     TxD (Z.lor DescOwn 700) (Z.lor (Z.lor TxVlanTag 0x500) (Z.lor TxIPCS_C TxTCPCS_C)) 0x5000;
     TxD (Z.lor DescOwn (Z.lor LastFrag 500)) (Z.lor (Z.lor TxVlanTag 0x500) (Z.lor TxIPCS_C TxTCPCS_C)) 0x6000; TxD 0 0 0] ∧
  cur_tx (txr s) = 3 ∧ tq_writes s = [(0x2800, 3)].
Proof. by vm_compute. Qed.

(** A mapping that fails part way leaves nothing mapped. *)
Example unmapped_on_error : let s := state_of (rtl8125_start_xmit (H := api [2%nat] false) conf_nc (fragged 1) empty0) in
  tq_mapped s = [] ∧ tq_freed s = [1] ∧ cur_tx (txr s) = 0 ∧ st_tx_dropped s = 1.
Proof. by vm_compute. Qed.

(** One packet in flight that the chip is done with. *)
Definition one_sent : txq := q_hw 1 (state_of (xmit_fill (H := kind) conf_nc (plain 1) empty0)).
Lemma one_sent_inv : ∃ x, tx_inv one_sent 0 [x].
Proof.
  assert (Hp : fill_post (H := kind) conf_nc empty0 0 [] (plain 1) FQueued (state_of (xmit_fill (H := kind) conf_nc (plain 1) empty0))).
  { apply (wp_run _ _ _ FQueued _ (xmit_fill_wp (H := kind) conf_nc empty0 0 [] (plain 1) empty0_inv (plain_ok _ 1) eq_refl)). by vm_compute. }
  destruct Hp as (skb' & new & Hsent & Hlaid & Hi & _). pose proof (sent_prepared _ _ _ _ Hsent) as Hpr. destruct new as [|x new]; [done|].
  destruct Hlaid as (_ & _ & _ & _ & _ & Hl). destruct Hpr as [->|(_ & Hf & _)].
  - simpl in Hl. destruct new; [|done]. exists x. by apply (inv_ext (state_of (xmit_fill (H := kind) conf_nc (plain 1) empty0))).
  - rewrite Hf in Hl. simpl in Hl. destruct new; [|done]. exists x. by apply (inv_ext (state_of (xmit_fill (H := kind) conf_nc (plain 1) empty0))).
Qed.

Lemma tx_interrupt_spec_witness : ∃ x, wp (rtl8125_tx_interrupt conf_nc) (λ c s',
    let k := to_release conf_nc 0 1 [x] in
    c = Z.of_nat k ∧ tx_inv s' (0 + Z.of_nat k) (drop k [x]) ∧ tq_freed s' = tq_freed one_sent ++ queued (take k [x]) ∧
    u32 (st_tx_packets s') = u32 (st_tx_packets one_sent + Z.of_nat k) ∧
    u32 (st_tx_bytes s') = u32 (st_tx_bytes one_sent + total_len (take k [x])) ∧
    BeginHwDesCloPtr (txr s') = (if EnableTxNoClose conf_nc then u16 1 else BeginHwDesCloPtr (txr one_sent)) ∧
    (tq_stopped s' = true ↔ tq_stopped one_sent = true ∧ ¬ (k ≠ 0%nat ∧ avail one_sent (drop k [x])))) one_sent.
Proof.
  destruct one_sent_inv as [x Hx]. exists x. apply (tx_interrupt_spec conf_nc one_sent 0 0 1 [x]); [exact Hx|].
  intros _. split; [by vm_compute|]. split; [by vm_compute|]. simpl. lia.
Defined.

Lemma tx_clear_spec_witness : ∃ x, wp rtl8125_tx_clear (λ _ s', tx_inv s' 0 [] ∧ tq_freed s' = tq_freed one_sent ++ queued [x] ∧
  tq_mapped s' = [] ∧ cur_tx (txr s') = 0 ∧ dirty_tx (txr s') = 0 ∧ tq_stopped s' = tq_stopped one_sent) one_sent.
Proof. destruct one_sent_inv as [x Hx]. exists x. apply (tx_clear_spec one_sent 0 [x]). exact Hx. Defined.

(** *** What is not as it should be *)
Definition small : sk_buff := Skb 4 0x1004 40 [] 0 ETH_P_IP 34 true true IPPROTO_UDP 0x13f false None.

(** A packet that cannot be padded is freed by the kernel and again by the
    driver. *)
Lemma small_ok conf : packet_ok conf small.
Proof.
  split; [done|constructor|done| |done]. simpl. unfold splits, wants_tso. simpl. by rewrite !andb_false_r.
Qed.
Lemma failed_padding_double_free_witness : rtl8125_start_xmit (H := api [] true) conf_nc small empty0 = None.
Proof.
  apply (failed_padding_double_free (H := api [] true) conf_nc empty0 0 [] small);
    [apply empty0_inv|apply small_ok|by vm_compute|by vm_compute|by vm_compute].
Defined.

(** Without close pointers: the chip is done with the head of a packet only,
    and the packet is freed while its fragments are still being sent. *)
Definition head_done : txq := hw_opts [0] (state_of (rtl8125_start_xmit (H := kind) conf_own (fragged 1) empty0)).
Example freed_before_its_fragments : let s := state_of (rtl8125_tx_interrupt conf_own head_done) in
  tq_freed s = [1] ∧ tq_mapped s = [(0x6000, 500); (0x5000, 700)].
Proof. by vm_compute. Qed.

(** A large send of 17 small fragments on a chip that needs its last fragment
    split takes 19 descriptors where 18 were checked for: the oldest slot in
    flight is overwritten and the count of free slots wraps. *)
Definition tso17 : sk_buff :=
  Skb 999 0x1000 200 ((λ n, (0x7000 + Z.of_nat n, 8)) <$> seq 0 17) 1400 ETH_P_IP 34 true true IPPROTO_TCP 0 true None.
Definition almost_full : txq := sq (default sys0 (run (H := kind) conf_lso (concat ((λ n, send (plain (Z.of_nat n))) <$> seq 0 238)) sys0)).
Example lso_patch_overruns : let s := state_of (rtl8125_start_xmit (H := kind) conf_lso tso17 almost_full) in
  u32 (cur_tx (txr almost_full) - dirty_tx (txr almost_full)) = 238 ∧
  u32 (cur_tx (txr s) - dirty_tx (txr s)) = 257 ∧ num_tx_desc (txr s) = 256 ∧
  TxDescArray (txr s) !! 0%nat = Some (TxD (Z.lor (Z.lor DescOwn LastFrag) (Z.lor (Z.lor GiantSendv4 (Z.shiftl 34 18)) 1)) (Z.shiftl 1400 18) 0x7017) ∧
  (fst <$> rtl8125_tx_slots_avail s) = Some true ∧ tq_stopped s = false.
Proof. by vm_compute. Qed.

(** Ethtool takes any ring size from 256 to 1024. With one that is no power of
    two the entry jumps when the 32-bit count wraps. *)
Definition ring1000 : txq := q_ring (λ _, TxRing 0 0 0 1000 (replicate 1001 (TxD 0 0 0)) (replicate 1024 (RInfo None 0)) 0 0 0x2802 0x2800) alloc0.
Example count_wraps_mid_ring :
  (fst <$> ring_entry (2 ^ 32 - 1) ring1000) = Some 295 ∧ (fst <$> ring_entry (2 ^ 32) ring1000) = Some 0.
Proof. by vm_compute. Qed.

(** ** Receiving *)
From S2P Require Import R8125Rx R8125RxSpec R8125RxFrame R8125RxThms.

(** A kernel that maps its [n]-th answer at an address of its own; from the
    answer [short] on, if any, there is no memory. *)
Definition kernel (short : option nat) : RxApi := {|
  skb_alloc_fails := λ n, match short with Some m => (m <=? n)%nat | None => false end;
  dma_map_rx := λ n, Some (0x10000 + 0x1000 * Z.of_nat n);
  is_multicast := λ data, data =? 7 |}.
Definition plenty : RxApi := kernel None.

Definition conf_v3 : rxconf := RxConf true 0x5f3 200 true false false true.
Definition conf_v1 : rxconf := RxConf false 0x5f3 0 true false false false.
(** Copying out of descriptors of the old kind, which nothing forbids. *)
Definition conf_v1_copy : rxconf := RxConf false 0x5f3 200 true false false false.
Lemma sound_v3 : rx_sound conf_v3.
Proof. split; [done|done|by left]. Qed.
Lemma sound_v1 : rx_sound conf_v1.
Proof. split; [done|done|by right]. Qed.

Definition rring256 : rtl8125_rx_ring :=
  RxRing 0 5 9 256 (replicate 257 (RxD 1 2 3 4 5)) (replicate 1024 0) (replicate 1024 None).
Definition ralloc0 : rxq := RxQ rring256 0 1 ∅ ∅ ∅ [] (RxStats 0 0 0 0 0 0 0).
Definition rx_of {A} (o : option (A * rxq)) : rxq := match o with Some (_, s) => s | None => ralloc0 end.
Definition rinit (conf : rxconf) : rxq := rx_of (rtl8125_rx_init_ring (H := plenty) conf ralloc0).
Definition rready (conf : rxconf) : rsys := RSys (rinit conf) RIdle 0 [].

Lemma ralloc0_ok : rx_allocated ralloc0.
Proof. split; [|done|done]. split; [split; [done|by exists (2 ^ 24)]|done]. Qed.

Lemma init_fresh (K : RxApi) conf q q' : rx_sound conf → rx_allocated q → rq_stack q = [] → rtl8125_rx_init_ring conf q = Some (0, q') →
  rx_fresh conf (RSys q' RIdle 0 []).
Proof.
  intros Hso Ha Hs E. pose proof (wp_run _ _ _ _ _ (rx_init_wp conf (so_size _ Hso) q Ha) E) as (_ & Es & Hc & Hd & Hcase).
  destruct Hcase as [(_ & w & Hv & Hw)|(? & _)]; [|done]. split; simpl; [by exists w|done..|by rewrite Es].
Qed.
Lemma init_result {A} (o : option (A * rxq)) a : fst <$> o = Some a → o = Some (a, rx_of o).
Proof. destruct o as [[b q]|]; [by intros [= ->]|done]. Qed.
Lemma rinit_eq conf : fst <$> rtl8125_rx_init_ring (H := plenty) conf ralloc0 = Some 0 →
  rtl8125_rx_init_ring (H := plenty) conf ralloc0 = Some (0, rinit conf).
Proof. unfold rinit. apply init_result. Qed.
Lemma fresh_v3 : rx_fresh conf_v3 (rready conf_v3).
Proof. apply (init_fresh plenty _ ralloc0); [apply sound_v3|apply ralloc0_ok|done|apply rinit_eq; vm_compute; reflexivity]. Qed.

Lemma rx_init_all_or_nothing_witness :
  ∃ rc s', rtl8125_rx_init_ring (H := kernel (Some 20%nat)) conf_v3 ralloc0 = Some (rc, s') ∧
    ((rc = 0 ∧ rx_fresh conf_v3 (RSys s' RIdle 0 []) ∧
      ∀ e, Z.of_nat e < num_rx_desc (rxr ralloc0) →
        ∃ id a d, Rx_skbuff (rxr s') !! e = Some (Some id) ∧ rq_mapped s' !! a = Some id ∧
                  RxDescArray (rxr s') !! e = Some d ∧ rd_addr d = a ∧ bit (rd_opts1 d) DescOwn = true) ∨
     (rc = - ENOMEM ∧ rq_mapped s' = ∅ ∧ rq_live s' = ∅ ∧
      ∀ e, Z.of_nat e < num_rx_desc (rxr ralloc0) → Rx_skbuff (rxr s') !! e = Some None)).
Proof. apply (rx_init_all_or_nothing (H := kernel (Some 20%nat)) conf_v3 sound_v3 ralloc0); [apply ralloc0_ok|done]. Defined.

(** Memory that is short fails the set-up. *)
Example short_memory_fails : (fst <$> rtl8125_rx_init_ring (H := kernel (Some 20%nat)) conf_v3 ralloc0) = Some (- ENOMEM).
Proof. by vm_compute. Qed.

(** *** Frames *)
Definition whole_v3 : Z := Z.lor FirstFrag_V3 LastFrag_V3.
Definition whole_v1 : Z := Z.lor FirstFrag LastFrag.
(** A short frame with a TCP checksum the chip has found right, and a tag. *)
Definition short_frame (data : Z) : rframe := RFrame (Z.lor whole_v3 104) (Z.lor RxVlanTag (Z.lor RxV4F RxTCPT_v3)) (Z.shiftl 1 10) 77 data.
Definition long_frame (data : Z) : rframe := RFrame (Z.lor whole_v3 1404) 0 0 0 data.
(** One the chip has marked. *)
Definition crc_frame : rframe := RFrame (Z.lor whole_v3 (Z.lor RxRES_V3 (Z.lor RxCRC_V3 104))) 0 0 0 13.
(** The first piece of a frame. *)
Definition first_piece : rframe := RFrame (Z.lor FirstFrag_V3 104) 0 0 0 99.

Lemma short_passes data : passes conf_v3 (short_frame data).
Proof. split; [done|by right]. Qed.
Lemma long_passes data : passes conf_v3 (long_frame data).
Proof. split; [done|by right]. Qed.
Lemma crc_passes : passes conf_v3 crc_frame.
Proof. split; [done|by left]. Qed.
Lemma piece_stalls : stalls conf_v3 first_piece.
Proof. done. Qed.

Definition rpoll (n : nat) : list revent := EvBegin 64 :: replicate n EvRound ++ [EvEnd].
(** Frames come before and between the rounds of a poll. *)
Definition busy_poll : list revent :=
  [EvFrame (short_frame 1); EvFrame (long_frame 2); EvFrame crc_frame; EvBegin 64; EvRound; EvFrame (short_frame 3); EvRound; EvRound; EvRound;
   EvFrame (long_frame 7); EvRound; EvRound; EvEnd].
Definition rrun_v3 (es : list revent) : rsys := default (rready conf_v3) (rrun (H := plenty) conf_v3 es (rready conf_v3)).
Ltac rx_oks := repeat first [apply short_passes | apply long_passes | apply crc_passes | exact I | constructor].

Lemma rx_in_order_witness : ∃ s' n, rrun (H := plenty) conf_v3 busy_poll (rready conf_v3) = Some s' ∧
  rq_stack (rsq s') = out conf_v3 (take n (r_arrived s')) ∧ (n ≤ length (r_arrived s'))%nat ∧
  Z.of_nat (length (r_arrived s') - n) ≤ num_rx_desc (rxr (rsq s')) ∧ holds_ring (rsq s').
Proof. apply (rx_in_order (H := plenty) conf_v3 sound_v3 (rready conf_v3) busy_poll); [apply fresh_v3|unfold busy_poll; rx_oks]. Defined.

(** What the stack saw: the marked frame is left out; short frames were
    copied. *)
Example busy_poll_delivers : let s := rrun_v3 busy_poll in
  rq_stack (rsq s) =
    [RxPacket 1 100 true (Some 0) (Some (77, false)); RxPacket 2 1400 false None None;
     RxPacket 3 100 true (Some 0) (Some (77, false)); RxPacket 7 1400 false None None] ∧
  rs_crc_errors (rq_stats (rsq s)) = 1 ∧ rs_multicast (rq_stats (rsq s)) = 1 ∧ rs_bytes (rq_stats (rsq s)) = 3000 ∧
  cur_rx (rxr (rsq s)) = 5 ∧ dirty_rx (rxr (rsq s)) = 5 ∧ r_pc s = RIdle.
Proof. by vm_compute. Qed.

Definition waiting : list revent := busy_poll ++ [EvFrame (long_frame 8); EvFrame (long_frame 9); EvFrame (short_frame 10)].
Lemma rx_interrupt_spec_witness :
  ∃ k n q', rq_stack (rsq (rrun_v3 waiting)) = out conf_v3 (take k (r_arrived (rrun_v3 waiting))) ∧
    rtl8125_rx_interrupt (H := plenty) conf_v3 2 (rsq (rrun_v3 waiting)) = Some (Z.of_nat n, q') ∧
    rq_stack q' = out conf_v3 (take (k + n) (r_arrived (rrun_v3 waiting))) ∧
    Z.of_nat n = Z.min (Z.of_nat (length (r_arrived (rrun_v3 waiting)) - k))
      (Z.min (u32 (num_rx_desc (rxr (rsq (rrun_v3 waiting))) + dirty_rx (rxr (rsq (rrun_v3 waiting))) - cur_rx (rxr (rsq (rrun_v3 waiting))))) 2).
Proof.
  apply (rx_interrupt_spec (H := plenty) conf_v3 sound_v3 (rready conf_v3) waiting (rrun_v3 waiting) 2);
    [apply fresh_v3|unfold waiting, busy_poll; simpl; rx_oks|unfold rrun_v3; apply run_default; vm_compute; reflexivity|vm_compute; reflexivity|done].
Defined.

(** *** A frame in pieces *)
Definition after_short : rsys := rrun_v3 [EvFrame (short_frame 1)].
Definition after_piece : rsys := default after_short (chip_write first_piece after_short).
Definition later_frames : list revent := [EvFrame (long_frame 2)] ++ rpoll 5 ++ [EvFrame (long_frame 3)] ++ rpoll 5 ++ rpoll 5.

Lemma fragment_stalls_witness : ∃ s3, rrun (H := plenty) conf_v3 later_frames after_piece = Some s3 ∧
  ∃ later, rq_stack (rsq s3) ++ later = out conf_v3 (r_arrived after_short).
Proof.
  apply (fragment_stalls (H := plenty) conf_v3 sound_v3 (rready conf_v3) [EvFrame (short_frame 1)] after_short first_piece after_piece later_frames);
    [apply fresh_v3|rx_oks|unfold after_short, rrun_v3; apply run_default; vm_compute; reflexivity|apply piece_stalls|unfold after_piece; apply run_default; vm_compute; reflexivity|
     vm_compute; reflexivity| |vm_compute; reflexivity].
  unfold later_frames, rpoll. simpl. repeat first [exact I | done | constructor].
Defined.

(** Frames 2 and 3 are in the ring, and stay there. *)
Example piece_stalls_ring : let s := default after_piece (rrun (H := plenty) conf_v3 later_frames after_piece) in
  rq_stack (rsq s) = [RxPacket 1 100 true (Some 0) (Some (77, false))] ∧ length (r_arrived s) = 4%nat ∧ cur_rx (rxr (rsq s)) = 1.
Proof. by vm_compute. Qed.

(** *** Copying out of the old descriptors *)
(** The checksum's verdict is read after the descriptor is the chip's again and
    its word has been written over: a frame found right is passed on as if it
    were not; the same frame, not copied, as right. *)
Definition tcp_v1 : rframe := RFrame (Z.lor whole_v1 (Z.lor RxTCPT 104)) RxV4F 0 0 1.
Example copied_checksum_is_lost :
  rq_stack (rsq (default (rready conf_v1) (rrun (H := plenty) conf_v1_copy (EvFrame tcp_v1 :: rpoll 3) (rready conf_v1)))) = [RxPacket 1 100 false None None] ∧
  rq_stack (rsq (default (rready conf_v1) (rrun (H := plenty) conf_v1 (EvFrame tcp_v1 :: rpoll 3) (rready conf_v1)))) = [RxPacket 1 100 true None None].
Proof. by vm_compute. Qed.
